(* ===== verification/_CoqProject ===== *)
-Q . S2P
Prelude.v
Layout.v
Pte.v
Address.v
Kalloc.v
PageTable.v
PageTableFacts.v
MapFacts.v
HugeFacts.v
Cow.v
UserSpace.v
DropTable.v
Tests.v
BufLru.v
Bcache.v
BcacheFacts.v
Log.v
LogFacts.v
LogSpec.v
Spin.v
SpinSafe.v
Proc.v
ProcSpec.v
ProcOps.v
ProcInv.v
ProcSafe.v
SleepLock.v
KernelMap.v
KernelSpace.v
Fs.v
FsFacts.v
FsBitmap.v
FsFile.v
Icache.v
IcacheFacts.v
DirFacts.v
Ring.v
Pipe.v
PipeSafe.v
Console.v
ConsoleSpec.v
Virtio.v
VirtioSafe.v
Pres.v
Signal.v
File.v
SysFile.v
FileFacts.v
FileQuiet.v
FileInv.v
FileSafe.v
UserCopy.v
Elf.v
ElfSpec.v
Syscall.v
UserLib.v
Trap.v
TrapSafe.v
Boot.v
BootSafe.v
InitCode.v
Ipc.v
Durable.v
FileRead.v
VgaData.v
Vga.v
VgaSafe.v
Mkfs.v
