(* ===== verification/Prelude.v ===== *)
(** * RX-OS: a verification library for the kernel

    RX-OS is a small multi-hart Unix kernel for RISC-V (QEMU virt). This
    library models its kernel, [src/rx-kernel/src/bin/kernel/] (paths below
    are relative to it), from machine mode at reset to the first program, and
    proves what its parts promise.

    ** The kernel and the files that model it

    - Constants: [arch/riscv/qemu/{layout,param,fs}.rs] are Layout.
    - Memory. Addresses and page-table entries ([memory/address.rs],
      [memory/mapping/pagetable_entry.rs]) are Pte, on their 64-bit values;
      Address has the trait [Addr] with its two implementations as a type
      class. Physical pages and the
      reference-counting allocator whose free list is threaded through the
      free pages ([memory/kalloc_rc/mod.rs], [memory/mod.rs]) are Kalloc.
      Page tables ([memory/mapping/pagetable.rs]) are PageTable, one
      definition per method, working on tables that lie in the modelled
      memory. PageTableFacts (the tree of tables), MapFacts (map, unmap,
      grow, shrink), HugeFacts (large pages), Cow (copy-on-write sharing and
      store faults), UserSpace and DropTable (the theorems on user spaces and
      on the release of a table) reason about them. The kernel's own address
      space ([memory/mapping/kernel_map.rs]) is KernelMap, with KernelSpace.
      Tests has the unit tests of the memory system, run on the model.
    - Disk. The buffer cache ([fs/bio.rs]) is BufLru (the LRU ring) and
      Bcache (buffers, handles, and the type class [BufferCache]: what the cache promises its
      clients); BcacheFacts proves that the cache is an instance. The log
      ([fs/log.rs]) is Log, written against [BufferCache]; LogFacts and
      LogSpec give its invariant and what commits, recoveries and crashes do.
      The disk driver ([driver/virtio_disk.rs]) is Virtio, and VirtioSafe
      runs it against a device.
    - File system. Super block, bitmap, inodes on disk and file contents
      ([fs/superblock.rs], [fs/bitmap.rs], [fs/dinode.rs], [fs/inode.rs]) are
      Fs; the inode table, directories and paths are Icache. FsFacts gives
      the view of blocks inside a transaction; FsBitmap, FsFile, IcacheFacts
      and DirFacts have the theorems. These files use the cache and the log
      through [BufferCache] only.
    - Concurrency. Interrupt nesting and the spin lock ([process/cpu.rs],
      [lock/mutex.rs], [arch/riscv/register/sstatus.rs]) are Spin; SpinSafe
      interleaves their atomic accesses.
    - Processes. The table, scheduler, sleep and wake-up, fork, exit, wait,
      kill and the process system calls ([process/process.rs],
      [process/manager.rs], [process/cpu.rs], [process/mod.rs],
      [syscall/proc.rs]) are Proc; every operation takes and drops the spin
      locks of the source. ProcSpec is a program logic for them, ProcOps
      their specifications, ProcInv the invariants of the table under every
      schedule, ProcSafe the theorems. SleepLock is the sleep lock
      ([lock/sleep_mutex.rs]) on top of it, Signal the signals
      ([process/signal/mod.rs]).
    - Byte streams. Ring has the lemmas on ring buffers; Pipe ([fs/pipe.rs])
      with PipeSafe, and Console ([driver/uart.rs], [driver/console.rs]) with
      ConsoleSpec use them.
    - Open files. [fs/file.rs] and [fs/devices.rs] are File: open files with
      their reference counts, in the state of the process layer, dispatching
      to inodes, pipes and devices; [file_ops] implements the interface
      [FileOps] that Proc uses. The calls of [syscall/file.rs] are SysFile.
      Pres has a calculus for what computations leave alone, FileFacts and
      FileQuiet apply it to the file system and to the calls that change no
      descriptor, FileInv is the invariant of the books and FileSafe shows
      that every call keeps it.
    - Programs and system calls. UserCopy is about the copies between the
      kernel and user memory (of PageTable). Elf is [exec]
      ([process/elf.rs]) and [sys_exec], ElfSpec its theorem; Syscall is the
      dispatch of [syscall/mod.rs] and [sys_sleep]. UserLib is the library of
      user programs ([src/rx-kernel/src/syscall.rs], [src/rx-kernel/src/lib.rs])
      and the program [hello].
    - Display. Vga is [driver/vga.rs] over an interface of bus accesses, with
      the registers a VGA documents; VgaData has its tables, VgaSafe its
      theorem. The kernel does not call it at present.
    - Traps. Trap is [trap.rs] with [driver/plic.rs] and [shutdown.rs], the
      composition of the parts above; TrapSafe has its theorems. Ipc follows
      bytes from one process through [sys_write], a pipe and [sys_read] to
      another, Durable from the memory of a process to the disk, and
      FileRead from the disk to the memory of another process.
    - Boot. Boot is [main.rs] ([start] and [timer_init] in machine mode,
      [rust_main] on each hart) with [arch/riscv/register/{clint,sie}.rs], the
      initialisation of the UART and the code of the first process
      ([process/mod.rs]); BootSafe shows what it establishes, InitCode what
      the first process then executes.
    - The build. Mkfs is the cargo command that builds the disk image
      ([src/cargo-rxmkfs/src/main.rs]), over the programs it runs.

    ** How code becomes definitions

    A function that changes state is a computation in [M S]: from a state of
    its component to an outcome. [Done] is a normal return, [Panic] a Rust
    panic with its message (failed [assert!], overflow in the dev profile,
    [unwrap] of nothing, an index out of range), [Fault] an access the
    hardware would fault on or undefined behaviour, and [Hang] a computation
    that does not return. [Result] and [Option] stay values ([result],
    [option]). Machine integers are [Z] with their width at each operation.
    A structure in shared memory (page tables, the free list, blocks on disk)
    is a map from addresses to words or bytes, so aliasing is that of the
    code. A component that uses another one runs it on its part of the state
    ([zoom]).

    A loop that is not structural carries fuel, and [Hang] when it runs out.
    The definitions that call it pass enough: the number of pages of the
    range for the loops of PageTable, the number of ring links for BufLru,
    the length of the request for copies, reads and writes, the number of
    entries for directory scans, the range of a 16-bit counter for the disk
    interrupt, the size of the table for a descriptor chain. The theorems
    conclude [Done], so they show that the fuel is enough and the loops end.
    A busy wait for a device (Console) has its bound as a parameter, with the
    hypothesis that the device becomes ready within it. An operation that
    sleeps returns at that point, and the code behind the sleep is a
    definition of its own ([..._resume], or a loop started over), because
    other code runs between the two.

    ** What is shown

    - Memory: the allocator's free list is exactly the unreferenced pages in
      every reachable state; mapping, growing and shrinking an address space
      have the expected effect on every translation, with large pages as
      without; after a fork both sides see the same bytes, and a store gives
      the writer a copy of its own; dropping a table frees each of its pages
      once; the kernel's table maps exactly what it should.
    - Disk: the LRU ring behaves as a list; what is read through the cache is
      what was last written; a crash at any point of a commit leaves the
      state before or after the transaction; the disk driver completes
      every request that was served, without panic, on every interleaving
      with the device.
    - File system: when a write to a file returns, its bytes are on the
      device, and another process that reads the file gets them; bytes
      written are read back; inode references are counted;
      where [dir_link] places an entry.
    - Concurrency and processes: mutual exclusion under every interleaving;
      no process on two harts; no exit lost on a waiting parent; pids
      unique; exit and wait complete; a sleep lock has one guard and no process
      waits for a free one.
    - Addresses: every sequence of in-place calls on an address is integer
      rounding and addition, or the overflow panic; none wraps around.
    - Display: the registers of the card end with the values of the tables,
      whatever they were, and the font and the screen are all that is written.
    - Traps: a store fault is resolved and the instruction repeated; a clock
      interrupt in kernel code is invisible to it.
    - Boot: [start] and [rust_main] complete from the state at reset, the state
      they end in is the one the theorems on processes start from ([booted]),
      and the first process asks for [exec] of [/init]. The calls of the user
      library make the system calls they are named after, but one.
    - Byte streams: pipes are bounded queues, also when the accesses of the
      two ends interleave, and what one process writes to a pipe arrives in
      the memory of the process that reads; the console is a line editor; the UART sends what
      it accepts in order.
    - Open files: over every sequence of calls, forks and exits the count of
      an open file is the number of its descriptors, and a pipe end is open
      as long as it has one. What the kernel copies to user memory is what
      it reads back, and a new program finds its arguments on its stack.
    - Where the code departs from its intent, the theorem says what it does:
      [admission_can_overflow], [wait_sleeps_on_reaped_child],
      [pipe_lost_wakeup], [alloc3_frees_in_flight], [dir_link_places],
      [bitmap_free_clears], [killed_exit_keeps_hart], [signal_wakes_slot],
      [number_clobbered], [second_init_blanks], [test_drop_in_place_fails],
      [main_runs].

    ** What is not modelled

    Printing and formatting ([print.rs], [logo/]) and the test runner have no
    state of the kernel. What the display shows for the bytes in its memory
    is not modelled. The assembly of context switches, trap entries and [timervec] is
    represented by what the Rust code around it relies on; of the instruction
    set, InitCode has the four instructions the first process uses. Weak
    memory is not modelled: accesses interleave sequentially, as under the
    fences of the source. The heap of
    [memory/kalloc.rs] is never initialised or used (its error handler
    prints and panics), and [memory/mapping/temp_mapping.rs] is not compiled.
    The programs in C and [mkfs] itself run outside the kernel. *)
From Stdlib Require Export Lia.
From stdpp Require Export base gmap strings numbers.
From stdpp Require Export list.

#[global] Open Scope Z_scope.
#[global] Set Default Goal Selector "!".

(** ** Outcomes of kernel code

    Every kernel operation either completes, panics (the panic handler
    prints the message and shuts the machine down), or touches memory the
    machine does not have ([Fault], undefined behaviour in the source). A
    model loop that is cut off by its fuel yields [Hang]. *)
Inductive outcome (A : Type) : Type :=
| Done (a : A)
| Panic (msg : string)
| Fault
| Hang.
Arguments Done {A} _.
Arguments Panic {A} _.
Arguments Fault {A}.
Arguments Hang {A}.

(** [Result<T, &'static str>] of the source. *)
Inductive result (A : Type) : Type :=
| Ok (a : A)
| Err (msg : string).
Arguments Ok {A} _.
Arguments Err {A} _.

(** ** The state monad with outcomes *)
Definition M (S A : Type) : Type := S → outcome (A * S).

#[global] Instance M_ret S : MRet (M S) := λ A a s, Done (a, s).
#[global] Instance M_bind S : MBind (M S) := λ A B k m s,
  match m s with
  | Done (a, s') => k a s'
  | Panic e => Panic e
  | Fault => Fault
  | Hang => Hang
  end.

Definition panic {S A} (msg : string) : M S A := λ _, Panic msg.
Definition fault {S A} : M S A := λ _, Fault.
Definition hang {S A} : M S A := λ _, Hang.
Definition get {S} : M S S := λ s, Done (s, s).
Definition put {S} (s : S) : M S unit := λ _, Done (tt, s).
Definition gets {S A} (f : S → A) : M S A := λ s, Done (f s, s).
Definition modify {S} (f : S → S) : M S unit := λ s, Done (tt, f s).

(** Run a computation on a part of a larger state. *)
Definition zoom {S T A} (prj : T → S) (inj : S → T → T) (m : M S A) : M T A :=
  λ t, match m (prj t) with
       | Done (a, s) => Done (a, inj s t)
       | Panic e => Panic e
       | Fault => Fault
       | Hang => Hang
       end.

(** [assert!(b)], with the message of the panic. *)
Definition assert {S} (b : bool) (msg : string) : M S unit :=
  if b then mret tt else panic msg.

(** [o.unwrap()] / [o.expect(msg)]. *)
Definition unwrap {S A} (o : option A) (msg : string) : M S A :=
  match o with Some a => mret a | None => panic msg end.

(** [for x in xs { f(x) }]. *)
Fixpoint for_each {S A} (xs : list A) (f : A → M S unit) : M S unit :=
  match xs with
  | [] => mret tt
  | x :: xs' => f x ;; for_each xs' f
  end.

Section monad_lemmas.
Context {S A B : Type}.
Implicit Types (m : M S A) (k : A → M S B) (s : S).

Lemma bind_Done m k s b s' :
  (m ≫= k) s = Done (b, s') ↔
  ∃ a s1, m s = Done (a, s1) ∧ k a s1 = Done (b, s').
Proof.
  unfold mbind, M_bind. destruct (m s) as [[a s1]| | |] eqn:E; split;
    try (intros (? & ? & ? & ?); by simplify_eq); intros; by eauto.
Qed.

Lemma bind_run m k s a s1 :
  m s = Done (a, s1) → (m ≫= k) s = k a s1.
Proof. intros E. unfold mbind, M_bind. by rewrite E. Qed.

Lemma bind_panic m k s e : m s = Panic e → (m ≫= k) s = Panic e.
Proof. intros E. unfold mbind, M_bind. by rewrite E. Qed.

Lemma bind_ret_l a k s : (mret a ≫= k) s = k a s.
Proof. done. Qed.

Lemma bind_assoc {C} m k (h : B → M S C) s :
  ((m ≫= k) ≫= h) s = (m ≫= (λ a, k a ≫= h)) s.
Proof. unfold mbind, M_bind. by destruct (m s) as [[??]| | |]. Qed.
End monad_lemmas.

(** ** Machine integers

    The kernel is built by [cargo run] in the dev profile, where [+], [-]
    and [*] on a w-bit unsigned integer panic on overflow and [debug_assert!]
    is active. [<<] drops the bits shifted out, [!] is the bitwise
    complement, and an [as] conversion to a narrower type truncates. *)
Definition wrap (w x : Z) : Z := x mod 2 ^ w.

Definition uadd {S} (w a b : Z) : M S Z :=
  if a + b <? 2 ^ w then mret (a + b) else panic "attempt to add with overflow".
Definition usub {S} (w a b : Z) : M S Z :=
  if b <=? a then mret (a - b) else panic "attempt to subtract with overflow".
Definition umul {S} (w a b : Z) : M S Z :=
  if a * b <? 2 ^ w then mret (a * b)
  else panic "attempt to multiply with overflow".

(** [!x] on a w-bit unsigned integer. *)
Definition unot (w x : Z) : Z := Z.ldiff (Z.ones w) x.
(** [x << n] on a w-bit unsigned integer (n < w). *)
Definition ushl (w x n : Z) : Z := wrap w (Z.shiftl x n).

(** An unsigned w-bit value. *)
Definition in_u (w x : Z) : Prop := 0 ≤ x < 2 ^ w.
#[global] Instance in_u_dec w x : Decision (in_u w x).
Proof. unfold in_u. apply _. Defined.

(** [x as isize], [x as i32]: the two's complement reading of w bits. *)
Definition to_signed (w x : Z) : Z :=
  let y := wrap w x in if y <? 2 ^ (w - 1) then y else y - 2 ^ w.

Lemma uadd_run {S} w a b (s : S) :
  a + b < 2 ^ w → uadd w a b s = Done (a + b, s).
Proof. intros. unfold uadd. by rewrite (proj2 (Z.ltb_lt _ _)). Qed.

Lemma usub_run {S} w a b (s : S) :
  b ≤ a → usub w a b s = Done (a - b, s).
Proof. intros. unfold usub. by rewrite (proj2 (Z.leb_le _ _)). Qed.

Lemma umul_run {S} w a b (s : S) :
  a * b < 2 ^ w → umul w a b s = Done (a * b, s).
Proof. intros. unfold umul. by rewrite (proj2 (Z.ltb_lt _ _)). Qed.

Lemma usub_panic {S} w a b (s : S) :
  a < b → usub w a b s = Panic "attempt to subtract with overflow".
Proof. intros. unfold usub. by rewrite (proj2 (Z.leb_gt _ _)). Qed.

Lemma uadd_panic {S} w a b (s : S) :
  2 ^ w ≤ a + b → uadd w a b s = Panic "attempt to add with overflow".
Proof. intros. unfold uadd. by rewrite (proj2 (Z.ltb_ge _ _)). Qed.

(** The same facts, in front of a continuation. *)
Section bind_run.
Context {S B : Type}.
Implicit Types s : S.

Lemma bind_uadd w a b (k : Z → M S B) s :
  a + b < 2 ^ w → (uadd w a b ≫= k) s = k (a + b) s.
Proof. intros. by apply bind_run, uadd_run. Qed.
Lemma bind_usub w a b (k : Z → M S B) s :
  b ≤ a → (usub w a b ≫= k) s = k (a - b) s.
Proof. intros. by apply bind_run, usub_run. Qed.
Lemma bind_umul w a b (k : Z → M S B) s :
  a * b < 2 ^ w → (umul w a b ≫= k) s = k (a * b) s.
Proof. intros. by apply bind_run, umul_run. Qed.
Lemma bind_gets {A} (f : S → A) (k : A → M S B) s :
  (gets f ≫= k) s = k (f s) s.
Proof. done. Qed.
Lemma bind_get (k : S → M S B) s : (get ≫= k) s = k s s.
Proof. done. Qed.
Lemma bind_put s' (k : unit → M S B) s : (put s' ≫= k) s = k tt s'.
Proof. done. Qed.
Lemma bind_modify (f : S → S) (k : unit → M S B) s :
  (modify f ≫= k) s = k tt (f s).
Proof. done. Qed.
Lemma bind_assert b msg (k : unit → M S B) s :
  b = true → (assert b msg ≫= k) s = k tt s.
Proof. by intros ->. Qed.
Lemma bind_unwrap {A} (a : A) msg (k : A → M S B) s :
  (unwrap (Some a) msg ≫= k) s = k a s.
Proof. done. Qed.
End bind_run.

Lemma wrap_id w x : in_u w x → wrap w x = x.
Proof. intros [??]. by apply Z.mod_small. Qed.

(** Masking with the complement of a low mask clears the low bits. *)
Lemma land_unot_ones w n x :
  0 ≤ n ≤ w → in_u w x → Z.land x (unot w (Z.ones n)) = x - x mod 2 ^ n.
Proof.
  intros Hn [H0 H1]. unfold unot.
  assert (Z.land x (Z.ldiff (Z.ones w) (Z.ones n)) = Z.ldiff x (Z.ones n)) as ->.
  { apply Z.bits_inj'. intros i Hi.
    rewrite Z.land_spec, !Z.ldiff_spec.
    destruct (Z.ltb_spec i w).
    - by rewrite (Z.ones_spec_low w) by lia.
    - replace x with (x mod 2 ^ w) by (apply Z.mod_small; lia).
      by rewrite Z.mod_pow2_bits_high by lia. }
  rewrite Z.ldiff_ones_r, Z.shiftr_div_pow2, Z.shiftl_mul_pow2 by lia.
  pose proof (Z.div_mod x (2 ^ n)) as Hd.
  assert (2 ^ n ≠ 0) by (apply Z.pow_nonzero; lia). lia.
Qed.

(** Testing one bit by masking. *)
Lemma land_pow2_pos x n :
  0 ≤ n → (0 <? Z.land x (2 ^ n)) = Z.testbit x n.
Proof.
  intros Hn.
  assert (Z.land x (2 ^ n) = if Z.testbit x n then 2 ^ n else 0) as ->.
  { apply Z.bits_inj'. intros i Hi. rewrite Z.land_spec, Z.pow2_bits_eqb by lia.
    destruct (Z.eqb_spec n i) as [->|].
    - destruct (Z.testbit x i); [by rewrite Z.pow2_bits_true|by rewrite Z.bits_0].
    - destruct (Z.testbit x n);
        [by rewrite Z.pow2_bits_false, andb_false_r by lia
        |by rewrite Z.bits_0, andb_false_r]. }
  destruct (Z.testbit x n); [|done].
  apply Z.ltb_lt, Z.pow_pos_nonneg; lia.
Qed.

(** A number with no bit at or above n is below [2^n]. *)
Lemma bits_bound x n :
  0 ≤ n → 0 ≤ x → (∀ i, n ≤ i → Z.testbit x i = false) → x < 2 ^ n.
Proof.
  intros Hn Hx Hb.
  assert (x mod 2 ^ n = x) as <-.
  { apply Z.bits_inj'. intros i Hi. destruct (Z.ltb_spec i n).
    - by rewrite Z.mod_pow2_bits_low by lia.
    - by rewrite Z.mod_pow2_bits_high, Hb by lia. }
  apply Z.mod_pos_bound, Z.pow_pos_nonneg; lia.
Qed.

Lemma high_bits_zero x n i :
  in_u n x → n ≤ i → Z.testbit x i = false.
Proof.
  intros [H0 H1] Hi. destruct (Z.ltb_spec n 0).
  { rewrite Z.pow_neg_r in H1 by lia. lia. }
  rewrite <- (Z.mod_small x (2 ^ n)) by lia. by apply Z.mod_pow2_bits_high.
Qed.

Lemma lor_in_u w x y : 0 ≤ w → in_u w x → in_u w y → in_u w (Z.lor x y).
Proof.
  intros Hw Hx Hy. split; [apply Z.lor_nonneg; split; [apply Hx|apply Hy]|].
  apply bits_bound; [done|apply Z.lor_nonneg; split; [apply Hx|apply Hy]|].
  intros i Hi. rewrite Z.lor_spec.
  by rewrite (high_bits_zero x w), (high_bits_zero y w).
Qed.

(** [a | b] of numbers that share no bits is their sum. *)
Lemma lor_add_disjoint x y n :
  0 ≤ n → 0 ≤ y < 2 ^ n → x mod 2 ^ n = 0 → Z.lor x y = x + y.
Proof.
  intros Hn Hy Hx.
  rewrite <- Z.lxor_lor, <- Z.add_nocarry_lxor; try done;
    apply Z.bits_inj'; intros i Hi; rewrite Z.land_spec, Z.bits_0;
    (destruct (Z.ltb_spec i n);
     [ rewrite <- (Z.mod_pow2_bits_low x n i) by lia; by rewrite Hx, Z.bits_0
     | by rewrite (high_bits_zero y n i), andb_false_r ]).
Qed.

(** ** Lists as arrays *)
Lemma list_insert_lookup_total {A} (l : list A) i j x y :
  l !! j = Some y → is_Some (<[i := x]> l !! j).
Proof.
  intros H. apply lookup_lt_is_Some. rewrite length_insert.
  by eapply lookup_lt_Some.
Qed.

(** ** Little-endian words *)
Fixpoint le_bytes (n : nat) (w : Z) : list Z :=
  match n with
  | O => []
  | S n' => w mod 256 :: le_bytes n' (w / 256)
  end.
Fixpoint le_word (bs : list Z) : Z :=
  match bs with
  | [] => 0
  | b :: bs' => b + 256 * le_word bs'
  end.

Lemma length_le_bytes n w : length (le_bytes n w) = n.
Proof. revert w. induction n; simpl; auto. Qed.

Lemma le_word_bytes n w : 0 ≤ w < 256 ^ Z.of_nat n → le_word (le_bytes n w) = w.
Proof.
  revert w. induction n as [|n IH]; intros w Hw.
  { simpl in *. lia. }
  cbn [le_bytes le_word]. rewrite IH.
  - pose proof (Z.div_mod w 256). lia.
  - rewrite Nat2Z.inj_succ, Z.pow_succ_r in Hw by lia.
    split; [apply Z.div_pos; lia|apply Z.div_lt_upper_bound; lia].
Qed.

Lemma le_bytes_word bs :
  Forall (in_u 8) bs → le_bytes (length bs) (le_word bs) = bs.
Proof.
  induction bs as [|b bs IH]; intros Hb; [done|]. apply Forall_cons in Hb as [[H0 H1] Hb].
  cbn [length le_bytes le_word]. change (2 ^ 8) with 256 in H1. f_equal.
  - rewrite (Z.mul_comm 256), Z.mod_add, Z.mod_small by lia. done.
  - rewrite (Z.mul_comm 256), Z.div_add, Z.div_small, Z.add_0_l by lia. by apply IH.
Qed.

(** ** Automation *)
Create HintDb rxos.
#[export] Hint Resolve Z.pow_pos_nonneg : rxos.

(** One step of symbolic execution: name the outcome of the first call. *)
Ltac mstep E := erewrite bind_run; [|exact E].

(** Invert [(x ← m; k) s = Done _]. *)
Ltac minv H :=
  let a := fresh "a" in let s := fresh "s" in
  let H1 := fresh H in
  apply bind_Done in H as (a & s & H1 & H).

Ltac simplify_outcome :=
  repeat match goal with
  | H : Done _ = Done _ |- _ => injection H as H; subst
  | H : (_, _) = (_, _) |- _ => injection H as H; subst
  | H : Panic _ = Done _ |- _ => discriminate H
  | H : Fault = Done _ |- _ => discriminate H
  | H : Hang = Done _ |- _ => discriminate H
  end.
