(* ===== verification/Layout.v ===== *)
(** * Machine and kernel constants

    [arch/riscv/qemu/layout.rs] (physical and virtual memory layout),
    [arch/riscv/qemu/param.rs] (sizes of the kernel tables) and
    [arch/riscv/qemu/fs.rs] (sizes of the file system), with the kernel stack
    placement of [process/manager.rs]. *)
From S2P Require Import Prelude.

(** ** Devices *)
Definition UART0 : Z := 0x10000000.
Definition UART0_IRQ : Z := 10.
Definition VIRTIO0 : Z := 0x10001000.
Definition VIRTIO0_IRQ : Z := 1.
Definition CLINT : Z := 0x2000000.
Definition CLINT_MTIME : Z := CLINT + 0xBFF8.
Definition CLINT_MTIMECMP : Z := CLINT + 0x4000.
Definition PLIC_BASE : Z := 0x0c000000.
Definition E1000_REGS : Z := 0x40000000.
Definition ECAM : Z := 0x30000000.
Definition VIRT_TEST : Z := 0x100000.

(** ** RAM *)
Definition MEM_SIZE : Z := 4 * 1024 * 1024 * 1024.
Definition KERNEL_BASE : Z := 0x80000000.
Definition PHYSTOP : Z := KERNEL_BASE + MEM_SIZE.

(** ** Pages *)
Definition PGSIZE : Z := 4096.
Definition PGSHIFT : Z := 12.
Definition PGMASKLEN : Z := 9.
Definition PGMASK : Z := 0x1FF.
Definition STACK_SIZE : Z := PGSIZE * 16.
Definition HUGE_PGSIZE : Z := 0x200000.

(** ** Virtual address space *)
Definition MAXVA : Z := Z.shiftl 1 (9 + 9 + 9 + 12 - 1).
Definition TRAMPOLINE : Z := MAXVA - PGSIZE.
Definition TRAPFRAME : Z := TRAMPOLINE - PGSIZE.
Definition USTACK_SIZE : Z := PGSIZE.
Definition USTACK_BASE : Z := TRAPFRAME - PGSIZE.

(** ** Kernel tables *)
Definition NPROC : Z := 64.
Definition NCPU : Z := 4.
Definition NDEV : Z := 10.
Definition MAXARG : Z := 32.
Definition MAXPATH : Z := 128.

(** ** File system *)
Definition FSMAGIC : Z := 0x10203040.
Definition BSIZE : Z := 1024.
Definition MAXOPBLOCKS : Z := 10.
Definition NBUF : Z := MAXOPBLOCKS * 3.
Definition LOGSIZE : Z := MAXOPBLOCKS * 3.
Definition NFILE : Z := 100.
Definition NINODE : Z := 50.
Definition ROOTDEV : Z := 1.
Definition ROOTINUM : Z := 1.
Definition NDIRECT : Z := 12.
Definition NINDIRECT : Z := BSIZE / 8.
Definition DIRSIZ : Z := 14.
(** [size_of::<DiskInode>()]: four 16-bit fields, a [u32] and 13 [u32]s. *)
Definition DINODE_SIZE : Z := 8 + 4 + 4 * (NDIRECT + 1).
Definition IPB : Z := BSIZE / DINODE_SIZE.
Definition BPB : Z := BSIZE * 8.

(** ** Kernel stacks ([kernel_stack] of [process/manager.rs]) *)
Definition kernel_stack (pos : Z) : Z :=
  TRAPFRAME - (pos + 1) * (STACK_SIZE + PGSIZE).

(** Unfold the numeric constants, then [lia]. *)
Ltac layout_unfold :=
  unfold kernel_stack, USTACK_BASE, USTACK_SIZE, TRAPFRAME, TRAMPOLINE,
    STACK_SIZE, PHYSTOP, MEM_SIZE, NBUF, LOGSIZE, NINDIRECT, BPB, IPB,
    DINODE_SIZE in *;
  change MAXVA with 0x4000000000 in *;
  unfold PGSIZE, PGSHIFT, PGMASKLEN, PGMASK, HUGE_PGSIZE, KERNEL_BASE, NPROC,
    NCPU, NDEV, MAXARG, MAXPATH, BSIZE, MAXOPBLOCKS, NFILE, NINODE, NDIRECT,
    DIRSIZ in *.
Ltac layout_lia := layout_unfold; lia.

(** Two half-open address ranges that share no address. *)
Definition disjoint_ranges (a la b lb : Z) : Prop := a + la ≤ b ∨ b + lb ≤ a.

(** ** Device numbers and open modes ([arch/riscv/qemu/fs.rs]) *)
Module DevNo.
Definition major (dev : Z) : Z := Z.land (Z.shiftr dev 16) 0xFFFF.
Definition minor (dev : Z) : Z := Z.land dev 0xFFFF.
Definition mkdev (m n : Z) : Z := Z.lor (ushl 64 m 16) n.

(** A device number holds two 16-bit parts. *)
Lemma mkdev_parts m n :
  in_u 16 m → in_u 16 n → major (mkdev m n) = m ∧ minor (mkdev m n) = n.
Proof.
  intros Hm Hn. pose proof Hm as [Hm0 Hm1]. pose proof Hn as [Hn0 Hn1].
  unfold mkdev, ushl. rewrite Z.shiftl_mul_pow2, wrap_id by (unfold in_u; lia).
  rewrite (lor_add_disjoint _ _ 16) by (lia || by apply Z.mod_mul).
  unfold major, minor. change 0xFFFF with (Z.ones 16).
  rewrite Z.shiftr_div_pow2, !Z.land_ones by lia. split.
  - rewrite Z.add_comm, Z.div_add, (Z.div_small n), Z.add_0_l by lia. by apply Z.mod_small.
  - rewrite Z.add_comm, Z.mod_add by lia. by apply Z.mod_small.
Qed.
End DevNo.

Inductive OpenMode := RDONLY | WRONLY | RDWR | CREATE | TRUNC | INVALID.
#[global] Instance OpenMode_eq_dec : EqDecision OpenMode.
Proof. solve_decision. Defined.

Module OpenModes.
(** [as usize]: [INVALID] follows [TRUNC]. *)
Definition bits (o : OpenMode) : Z :=
  match o with
  | RDONLY => 0x000 | WRONLY => 0x001 | RDWR => 0x002
  | CREATE => 0x200 | TRUNC => 0x400 | INVALID => 0x401
  end.
Definition mode (item : Z) : OpenMode :=
  match item with
  | 0x000 => RDONLY
  | 0x001 => WRONLY
  | 0x002 => RDWR
  | 0x200 => CREATE
  | 0x400 => TRUNC
  | _ => INVALID
  end.
Lemma mode_bits o : mode (bits o) = o.
Proof. by destruct o. Qed.
End OpenModes.
