(* ===== verification/Pte.v ===== *)
(** * Addresses and page-table entries

    [memory/address.rs], [memory/mapping/mod.rs] and
    [memory/mapping/pagetable_entry.rs]. [PhysicalAddress], [VirtualAddress]
    and [PageTableEntry] are newtypes over [usize] in the source; here each is
    its 64-bit value. A method that updates [self] in place is a function to
    the new value. *)
From S2P Require Import Prelude Layout.

(** ** The [Addr] trait and the two address types *)
Module Addr.
Definition is_page_aligned (a : Z) : bool := a mod PGSIZE =? 0.
Definition is_hpage_aligned (a : Z) : bool := a mod HUGE_PGSIZE =? 0.

Definition pg_round_up {S} (a : Z) : M S Z :=
  b ← uadd 64 a PGSIZE;
  c ← usub 64 b 1;
  mret (Z.land c (unot 64 (PGSIZE - 1))).

Definition pg_round_down (a : Z) : Z := Z.land a (unot 64 (PGSIZE - 1)).

Definition hpg_round_down (a : Z) : Z := Z.land a (unot 64 (HUGE_PGSIZE - 1)).

Definition hpg_round_up {S} (a : Z) : M S Z :=
  b ← uadd 64 a HUGE_PGSIZE;
  c ← usub 64 b 1;
  mret (Z.land c (unot 64 (HUGE_PGSIZE - 1))).

Definition add_page {S} (a : Z) : M S Z := uadd 64 a PGSIZE.
Definition add_huge_page {S} (a : Z) : M S Z := uadd 64 a HUGE_PGSIZE.

(** [VirtualAddress::page_num]: the 9-bit index of a level. *)
Definition page_num (va level : Z) : Z :=
  Z.land (Z.shiftr va (PGSHIFT + level * PGMASKLEN)) PGMASK.
End Addr.

(** [page_round_up] / [page_round_down] of [memory/mapping/mod.rs]. *)
Definition page_round_up {S} (addr : Z) : M S Z :=
  b ← uadd 64 addr PGSIZE;
  c ← usub 64 b 1;
  mret (Z.land c (unot 64 (PGSIZE - 1))).
Definition page_round_down (addr : Z) : Z := Z.land addr (unot 64 (PGSIZE - 1)).

(** ** Page-table entries *)
Definition PTE_V : Z := 1.
Definition PTE_R : Z := 2.
Definition PTE_W : Z := 4.
Definition PTE_X : Z := 8.
Definition PTE_U : Z := 16.
Definition PTE_G : Z := 32.
Definition PTE_A : Z := 64.
Definition PTE_D : Z := 128.
Definition PTE_RS1 : Z := 256.
Definition PTE_RS2 : Z := 512.

Module PteFlags.
(** [PteFlags::all().bits()]. *)
Definition all : Z := 0x3FF.
(** [from_bits(all & x).unwrap()]: every bit of [all] is a declared flag, so
    the [unwrap] succeeds. *)
Definition new (x : Z) : Z := Z.land all x.
Definition from_bits_truncate (x : Z) : Z := Z.land x all.
End PteFlags.

Module PageTableEntry.
Definition is_valid (e : Z) : bool := 0 <? Z.land e PTE_V.
Definition is_user (e : Z) : bool := 0 <? Z.land e PTE_U.
Definition is_read (e : Z) : bool := 0 <? Z.land e PTE_R.
Definition is_write (e : Z) : bool := 0 <? Z.land e PTE_W.
Definition is_execute (e : Z) : bool := 0 <? Z.land e PTE_X.
Definition is_leaf (e : Z) : bool :=
  negb (Z.land e (Z.lor (Z.lor PTE_R PTE_W) PTE_X) =? 0).
Definition add_valid_bit (e : Z) : Z := Z.lor e PTE_V.
Definition add_user_bit (e : Z) : Z := Z.lor e PTE_U.
Definition rm_user_bit (e : Z) : Z := Z.land e (unot 64 PTE_U).
Definition to_cow_page (e : Z) : Z :=
  Z.lor (Z.land e (unot 64 PTE_W)) PTE_RS1.
Definition add_write_bit (e : Z) : Z := Z.lor e PTE_W.
(** PTE2PA *)
Definition as_pagetable (e : Z) : Z := ushl 64 (Z.shiftr e 10) 12.
Definition as_huge_page (e : Z) : Z := ushl 64 (Z.shiftr e 10) (12 + 9).
(** PA2PTE *)
Definition as_pte (addr : Z) : Z := ushl 64 (Z.shiftr addr 12) 10.
Definition as_flags (e : Z) : Z := Z.land e 0x3FF.
(** The value [write_perm] stores. *)
Definition write_perm (pa perm : Z) : Z :=
  Z.lor (ushl 64 (Z.shiftr pa 12) 10) (Z.lor perm PTE_V).
End PageTableEntry.

(** ** Rounding *)
Section rounding.
Implicit Types a : Z.

Lemma mask_page a :
  in_u 64 a → Z.land a (unot 64 (PGSIZE - 1)) = a - a mod PGSIZE.
Proof. intros. change (PGSIZE - 1) with (Z.ones 12). by apply land_unot_ones. Qed.

Lemma pg_round_down_eq a : in_u 64 a → Addr.pg_round_down a = a - a mod PGSIZE.
Proof. apply mask_page. Qed.

Lemma pg_round_up_run {S} a (s : S) :
  0 ≤ a → a + PGSIZE < 2 ^ 64 →
  Addr.pg_round_up a s =
    Done (a + PGSIZE - 1 - (a + PGSIZE - 1) mod PGSIZE, s).
Proof.
  intros H0 H1. unfold Addr.pg_round_up.
  rewrite bind_uadd, bind_usub by layout_lia. unfold mret, M_ret.
  rewrite mask_page by (unfold in_u; layout_lia). done.
Qed.

Lemma page_round_up_run {S} a (s : S) :
  0 ≤ a → a + PGSIZE < 2 ^ 64 →
  page_round_up a s = Done (a + PGSIZE - 1 - (a + PGSIZE - 1) mod PGSIZE, s).
Proof. apply pg_round_up_run. Qed.

Lemma page_num_eq va level :
  0 ≤ level → Addr.page_num va level = (va / 2 ^ (12 + level * 9)) mod 512.
Proof.
  intros. unfold Addr.page_num, PGSHIFT, PGMASKLEN, PGMASK.
  change 0x1FF with (Z.ones 9).
  by rewrite Z.land_ones, Z.shiftr_div_pow2 by lia.
Qed.

Lemma page_num_range va level :
  0 ≤ level → 0 ≤ Addr.page_num va level < 512.
Proof. intros. rewrite page_num_eq by done. apply Z.mod_pos_bound. lia. Qed.
End rounding.

(** ** Flags of an entry *)
Section flags.
Import PageTableEntry.
Implicit Types e pa perm : Z.

Lemma is_valid_bit e : is_valid e = Z.testbit e 0.
Proof. apply (land_pow2_pos e 0). lia. Qed.
Lemma is_read_bit e : is_read e = Z.testbit e 1.
Proof. apply (land_pow2_pos e 1). lia. Qed.
Lemma is_write_bit e : is_write e = Z.testbit e 2.
Proof. apply (land_pow2_pos e 2). lia. Qed.
Lemma is_execute_bit e : is_execute e = Z.testbit e 3.
Proof. apply (land_pow2_pos e 3). lia. Qed.
Lemma is_user_bit e : is_user e = Z.testbit e 4.
Proof. apply (land_pow2_pos e 4). lia. Qed.

Lemma is_leaf_bits e :
  is_leaf e = Z.testbit e 1 || Z.testbit e 2 || Z.testbit e 3.
Proof.
  unfold is_leaf. change (Z.lor (Z.lor PTE_R PTE_W) PTE_X) with 14.
  assert (∀ i, Z.testbit 14 i = true → i = 1 ∨ i = 2 ∨ i = 3) as H14.
  { intros i Hi. destruct (Z.ltb_spec i 0).
    { by rewrite Z.testbit_neg_r in Hi by lia. }
    destruct (Z.ltb_spec i 4).
    - assert (i = 0 ∨ i = 1 ∨ i = 2 ∨ i = 3) as [->|[->|[->| ->]]] by lia;
        first discriminate; lia.
    - by rewrite (high_bits_zero 14 4) in Hi by (unfold in_u; lia). }
  destruct (Z.eqb_spec (Z.land e 14) 0) as [E|E].
  - assert (∀ i, Z.testbit 14 i = true → Z.testbit e i = false) as Hz.
    { intros i Hi. apply (f_equal (λ x, Z.testbit x i)) in E.
      rewrite Z.land_spec, Hi, Z.bits_0 in E. by destruct (Z.testbit e i). }
    by rewrite (Hz 1), (Hz 2), (Hz 3).
  - destruct (Z.testbit e 1) eqn:E1, (Z.testbit e 2) eqn:E2,
      (Z.testbit e 3) eqn:E3; try done.
    exfalso. apply E, Z.bits_inj'. intros i _. rewrite Z.land_spec, Z.bits_0.
    destruct (Z.testbit 14 i) eqn:Ei; [|by rewrite andb_false_r].
    apply H14 in Ei as [->|[->| ->]]; by rewrite ?E1, ?E2, ?E3.
Qed.

Lemma is_leaf_rwx e : is_leaf e = is_read e || is_write e || is_execute e.
Proof.
  by rewrite is_leaf_bits, is_read_bit, is_write_bit, is_execute_bit.
Qed.

Lemma as_flags_range e : 0 ≤ as_flags e < 1024.
Proof.
  unfold as_flags. change 0x3FF with (Z.ones 10).
  rewrite Z.land_ones by lia. by apply Z.mod_pos_bound.
Qed.

Lemma as_flags_eq e : as_flags e = e mod 1024.
Proof.
  unfold as_flags. change 0x3FF with (Z.ones 10). by rewrite Z.land_ones.
Qed.

Lemma as_pagetable_eq e :
  as_pagetable e = (e / 1024 * 4096) mod 2 ^ 64.
Proof.
  unfold as_pagetable, ushl, wrap.
  by rewrite Z.shiftr_div_pow2, Z.shiftl_mul_pow2 by lia.
Qed.

(** A permission set: the low ten bits. *)
Definition perm_ok (perm : Z) : Prop := 0 ≤ perm < 1024.

(** A page-aligned physical address an entry can hold. *)
Definition pa_ok (pa : Z) : Prop := pa mod PGSIZE = 0 ∧ 0 ≤ pa < 2 ^ 56.

Lemma write_perm_eq pa perm :
  pa_ok pa → perm_ok perm →
  write_perm pa perm = pa / 4096 * 1024 + Z.lor perm 1 ∧ 0 ≤ Z.lor perm 1 < 1024.
Proof.
  intros [Ha Hb] Hp. unfold write_perm, ushl, PTE_V.
  assert (0 ≤ Z.lor perm 1 < 1024) as Hl by (by apply (lor_in_u 10)).
  rewrite Z.shiftr_div_pow2, Z.shiftl_mul_pow2 by lia.
  change (2 ^ 12) with 4096. change (2 ^ 10) with 1024.
  assert (0 ≤ pa / 4096 < 2 ^ 44) by (split; [apply Z.div_pos; lia|
    apply Z.div_lt_upper_bound; lia]).
  rewrite wrap_id by (unfold in_u; lia). split; [|done].
  apply (lor_add_disjoint _ _ 10); [done|done|].
  change (2 ^ 10) with 1024. apply Z.mod_mul. lia.
Qed.

Lemma write_perm_pa pa perm :
  pa_ok pa → perm_ok perm → as_pagetable (write_perm pa perm) = pa.
Proof.
  intros Ha Hp. pose proof Ha as [Hal Hr].
  destruct (write_perm_eq pa perm) as [-> Hl]; [done..|].
  rewrite as_pagetable_eq, Z.add_comm, Z.div_add, (Z.div_small _ 1024), Z.add_0_l by lia.
  assert (pa / 4096 * 4096 = pa) as ->.
  { unfold PGSIZE in Hal. pose proof (Z.div_mod pa 4096). lia. }
  apply Z.mod_small. lia.
Qed.

Lemma write_perm_flags pa perm :
  pa_ok pa → perm_ok perm → as_flags (write_perm pa perm) = Z.lor perm PTE_V.
Proof.
  intros Ha Hp. destruct (write_perm_eq pa perm) as [-> Hl]; [done..|].
  rewrite as_flags_eq, Z.add_comm, Z.mod_add by lia. by apply Z.mod_small.
Qed.

Lemma as_flags_bit e i : 0 ≤ i < 10 → Z.testbit (as_flags e) i = Z.testbit e i.
Proof.
  intros. rewrite as_flags_eq. change 1024 with (2 ^ 10).
  apply Z.mod_pow2_bits_low. lia.
Qed.

Lemma write_perm_bit pa perm i :
  pa_ok pa → perm_ok perm → 0 ≤ i < 10 →
  Z.testbit (write_perm pa perm) i = Z.testbit perm i || Z.testbit 1 i.
Proof.
  intros. rewrite <- as_flags_bit, write_perm_flags by done. apply Z.lor_spec.
Qed.

Lemma write_perm_valid pa perm :
  pa_ok pa → perm_ok perm → is_valid (write_perm pa perm) = true.
Proof.
  intros. rewrite is_valid_bit, write_perm_bit by (done || lia).
  apply orb_true_r.
Qed.

Lemma write_perm_in_u pa perm :
  pa_ok pa → perm_ok perm → in_u 64 (write_perm pa perm).
Proof.
  intros Ha Hp. destruct (write_perm_eq pa perm) as [-> Hl]; [done..|].
  destruct Ha as [_ Ha].
  assert (0 ≤ pa / 4096 < 2 ^ 44) by (split; [apply Z.div_pos; lia|
    apply Z.div_lt_upper_bound; lia]).
  unfold in_u. lia.
Qed.
End flags.
