(* ===== verification/Address.v ===== *)
(** * The trait of addresses

    [memory/address.rs] as the source has it: the trait [Addr], its provided
    methods, and the two address types that implement it. The other files
    work on the 64-bit value of an address (Pte); [methods_are_values] relates
    the two. *)
From S2P Require Import Prelude Layout Pte.

(** ** The trait

    [data_mut] lends the word inside the address; [set_data] is what is left
    in the address when the borrow ends with the word changed. *)
Class Addr (A : Type) := {
  as_usize : A → Z;
  data_ref : A → Z;
  set_data : A → Z → A;
}.

(** What the provided methods rely on: the three required methods look at one
    word. *)
Class AddrLaws (A : Type) `{Addr A} := {
  data_ref_usize a : data_ref a = as_usize a;
  data_ref_set a x : data_ref (set_data a x) = x;
  set_data_same a : set_data a (data_ref a) = a;
  set_data_twice a x y : set_data (set_data a x) y = set_data a y;
}.

(** A method with [&mut self] is a computation on the address. *)
Section provided.
Context {A : Type} `{Addr A}.

Definition is_page_aligned (self : A) : bool := as_usize self mod PGSIZE =? 0.
Definition is_hpage_aligned (self : A) : bool := as_usize self mod HUGE_PGSIZE =? 0.
Definition as_ptr (self : A) : Z := as_usize self.
Definition as_mut_ptr (self : A) : Z := as_usize self.

(** [*self.data_mut()] read and written. *)
Definition load_data : M A Z := gets data_ref.
Definition store_data (x : Z) : M A unit := modify (λ self, set_data self x).

Definition pg_round_up : M A unit :=
  a ← load_data;
  b ← uadd 64 a PGSIZE;
  c ← usub 64 b 1;
  store_data (Z.land c (unot 64 (PGSIZE - 1))).
Definition pg_round_down : M A unit :=
  a ← load_data;
  store_data (Z.land a (unot 64 (PGSIZE - 1))).
Definition hpg_round_down : M A unit :=
  a ← load_data;
  store_data (Z.land a (unot 64 (HUGE_PGSIZE - 1))).
Definition hpg_round_up : M A unit :=
  a ← load_data;
  b ← uadd 64 a HUGE_PGSIZE;
  c ← usub 64 b 1;
  store_data (Z.land c (unot 64 (HUGE_PGSIZE - 1))).
Definition add_page : M A unit :=
  a ← load_data;
  b ← uadd 64 a PGSIZE;
  store_data b.
Definition add_huge_page : M A unit :=
  a ← load_data;
  b ← uadd 64 a HUGE_PGSIZE;
  store_data b.
End provided.

(** ** The two types *)
Module PhysicalAddress.
Record PhysicalAddress := mk { _0 : Z }.

Definition new (value : Z) : PhysicalAddress := mk value.
Definition add_addr {S} (self : PhysicalAddress) (addr : Z) : M S PhysicalAddress :=
  x ← uadd 64 (_0 self) addr;
  mret (mk x).
(** [usize::from]. *)
Definition from (pa : PhysicalAddress) : Z := _0 pa.
(** Derived [PartialEq]. *)
Definition eq (self other : PhysicalAddress) : bool := _0 self =? _0 other.

#[global] Instance addr : Addr PhysicalAddress := {|
  as_usize self := _0 self;
  data_ref self := _0 self;
  set_data self x := mk x |}.
#[global] Instance laws : AddrLaws PhysicalAddress.
Proof. by split; intros; repeat match goal with a : PhysicalAddress |- _ => destruct a end. Qed.
End PhysicalAddress.

Module VirtualAddress.
Record VirtualAddress := mk { _0 : Z }.

Definition new (addr : Z) : VirtualAddress := mk addr.
Definition compare (self other : VirtualAddress) : bool := _0 other <? _0 self.
Definition equal (self other : VirtualAddress) : bool := _0 self =? _0 other.
Definition add_addr {S} (self : VirtualAddress) (addr : Z) : M S VirtualAddress :=
  x ← uadd 64 (_0 self) addr;
  mret (mk x).
Definition page_num (self : VirtualAddress) (level : Z) : Z :=
  Z.land (Z.shiftr (_0 self) (PGSHIFT + level * PGMASKLEN)) PGMASK.
(** The operators [+] and [-]. *)
Definition add {S} (self other : VirtualAddress) : M S VirtualAddress :=
  x ← uadd 64 (_0 self) (_0 other);
  mret (mk x).
Definition sub {S} (self other : VirtualAddress) : M S VirtualAddress :=
  x ← usub 64 (_0 self) (_0 other);
  mret (mk x).
(** [usize::from]. *)
Definition from (va : VirtualAddress) : Z := _0 va.
(** Derived [PartialEq]. *)
Definition eq (self other : VirtualAddress) : bool := _0 self =? _0 other.

#[global] Instance addr : Addr VirtualAddress := {|
  as_usize self := _0 self;
  data_ref self := _0 self;
  set_data self x := mk x |}.
#[global] Instance laws : AddrLaws VirtualAddress.
Proof. by split; intros; repeat match goal with a : VirtualAddress |- _ => destruct a end. Qed.
End VirtualAddress.

(** ** What the methods do, for every implementation of the trait *)

(** The calls that change an address in place. *)
Inductive method :=
  | PgRoundUp | PgRoundDown | HpgRoundDown | HpgRoundUp | AddPage | AddHugePage.

Definition call {A} `{Addr A} (c : method) : M A unit :=
  match c with
  | PgRoundUp => pg_round_up
  | PgRoundDown => pg_round_down
  | HpgRoundDown => hpg_round_down
  | HpgRoundUp => hpg_round_up
  | AddPage => add_page
  | AddHugePage => add_huge_page
  end.

Fixpoint calls {A} `{Addr A} (cs : list method) : M A unit :=
  match cs with
  | [] => mret tt
  | c :: cs => call c ;; calls cs
  end.

(** The largest multiple of [n] up to [a], and the smallest one from [a] on. *)
Definition floor_to (n a : Z) : Z := n * (a / n).
Definition ceil_to (n a : Z) : Z := - floor_to n (- a).

(** What a call means for the number: rounding and addition of integers, as
    long as the address plus a page is still a [usize]. *)
Definition meaning (c : method) (a : Z) : option Z :=
  let if_fits n x := if a + n <? 2 ^ 64 then Some x else None in
  match c with
  | PgRoundUp => if_fits PGSIZE (ceil_to PGSIZE a)
  | PgRoundDown => Some (floor_to PGSIZE a)
  | HpgRoundDown => Some (floor_to HUGE_PGSIZE a)
  | HpgRoundUp => if_fits HUGE_PGSIZE (ceil_to HUGE_PGSIZE a)
  | AddPage => if_fits PGSIZE (a + PGSIZE)
  | AddHugePage => if_fits HUGE_PGSIZE (a + HUGE_PGSIZE)
  end.

Fixpoint meanings (cs : list method) (a : Z) : option Z :=
  match cs with
  | [] => Some a
  | c :: cs => meaning c a ≫= meanings cs
  end.

Lemma floor_to_spec n a : 0 < n → floor_to n a mod n = 0 ∧ floor_to n a ≤ a < floor_to n a + n.
Proof.
  intros Hn. unfold floor_to. split; [rewrite Z.mul_comm; apply Z.mod_mul; lia|].
  pose proof (Z.div_mod a n). pose proof (Z.mod_pos_bound a n). lia.
Qed.

Lemma ceil_to_spec n a : 0 < n → ceil_to n a mod n = 0 ∧ ceil_to n a - n < a ≤ ceil_to n a.
Proof.
  intros Hn. unfold ceil_to. destruct (floor_to_spec n (- a) Hn) as [H1 H2].
  split; [|lia]. by apply Z.mod_opp_l_z; [lia|].
Qed.

(** Adding [n - 1] and rounding down rounds up. *)
Lemma ceil_to_floor n a : 0 < n → floor_to n (a + n - 1) = ceil_to n a.
Proof.
  intros Hn. destruct (floor_to_spec n (a + n - 1) Hn) as [E1 R1].
  destruct (ceil_to_spec n a Hn) as [E2 R2].
  apply Z.mod_divide in E1 as [k1 E1]; [|lia]. apply Z.mod_divide in E2 as [k2 E2]; [|lia].
  rewrite E1, E2 in *. f_equal. nia.
Qed.

Lemma mask_floor k a : 0 ≤ k ≤ 64 → in_u 64 a →
  Z.land a (unot 64 (2 ^ k - 1)) = floor_to (2 ^ k) a.
Proof.
  intros Hk Ha. replace (2 ^ k - 1) with (Z.ones k) by (rewrite Z.ones_equiv; lia).
  rewrite land_unot_ones by done. unfold floor_to.
  pose proof (Z.div_mod a (2 ^ k)). pose proof (Z.pow_pos_nonneg 2 k). lia.
Qed.

Lemma floor_in_u n a : 0 < n → in_u 64 a → in_u 64 (floor_to n a).
Proof.
  intros Hn [H0 H1]. destruct (floor_to_spec n a Hn) as [_ R].
  assert (0 ≤ floor_to n a); [|unfold in_u; lia].
  unfold floor_to. pose proof (Z.div_pos a n). nia.
Qed.

Section methods.
Context {A : Type} `{AL : AddrLaws A}.
Implicit Types (self : A) (x : Z).

(** The word of an address is 64 bits wide. *)
Definition addr_wf self : Prop := in_u 64 (as_usize self).

(** Where a computation leaves the address: at the word [x], or nowhere. *)
Definition leaves_at (m : M A unit) self (x : option Z) : Prop :=
  m self = match x with
           | Some x => Done (tt, set_data self x)
           | None => Panic "attempt to add with overflow"
           end ∧ from_option (in_u 64) True x.

Lemma as_usize_set self x : as_usize (set_data self x) = x.
Proof. by rewrite <-data_ref_usize, data_ref_set. Qed.

(** Rounding up, on a page of [2 ^ k] bytes. *)
Lemma round_up_leaves k self :
  0 ≤ k ≤ 64 → addr_wf self →
  leaves_at (a ← load_data; b ← uadd 64 a (2 ^ k); c ← usub 64 b 1;
             store_data (Z.land c (unot 64 (2 ^ k - 1)))) self
    (if as_usize self + 2 ^ k <? 2 ^ 64 then Some (ceil_to (2 ^ k) (as_usize self)) else None).
Proof.
  intros Hk [H0 H1]. pose proof (Z.pow_pos_nonneg 2 k) as Hp.
  unfold leaves_at, load_data. rewrite bind_gets, data_ref_usize.
  destruct (Z.ltb_spec (as_usize self + 2 ^ k) (2 ^ 64)) as [Hf|Hf].
  - rewrite bind_uadd, bind_usub by lia. unfold store_data, modify.
    rewrite mask_floor, ceil_to_floor by (unfold in_u; lia). split; [done|].
    simpl. rewrite <-ceil_to_floor by lia. apply floor_in_u; unfold in_u; lia.
  - split; [|done]. apply bind_panic. by apply uadd_panic.
Qed.

Lemma round_down_leaves k self :
  0 ≤ k ≤ 64 → addr_wf self →
  leaves_at (a ← load_data; store_data (Z.land a (unot 64 (2 ^ k - 1)))) self
    (Some (floor_to (2 ^ k) (as_usize self))).
Proof.
  intros Hk Hw. pose proof (Z.pow_pos_nonneg 2 k) as Hp.
  unfold leaves_at, load_data. rewrite bind_gets, data_ref_usize, mask_floor by done.
  split; [done|]. apply floor_in_u; [lia|done].
Qed.

Lemma add_leaves n self :
  0 ≤ n → addr_wf self →
  leaves_at (a ← load_data; b ← uadd 64 a n; store_data b) self
    (if as_usize self + n <? 2 ^ 64 then Some (as_usize self + n) else None).
Proof.
  intros Hn [H0 H1]. unfold leaves_at, load_data. rewrite bind_gets, data_ref_usize.
  destruct (Z.ltb_spec (as_usize self + n) (2 ^ 64)).
  - rewrite bind_uadd by lia. split; [done|]. simpl. unfold in_u. lia.
  - split; [|done]. apply bind_panic. by apply uadd_panic.
Qed.

Lemma call_leaves c self :
  addr_wf self → leaves_at (call c) self (meaning c (as_usize self)).
Proof.
  change HUGE_PGSIZE with (2 ^ 21). intros Hw.
  destruct c; [apply (round_up_leaves 12)|apply (round_down_leaves 12)|
    apply (round_down_leaves 21)|apply (round_up_leaves 21)|
    apply (add_leaves PGSIZE)|apply (add_leaves HUGE_PGSIZE)]; done.
Qed.

(** C27. Every sequence of in-place calls on an address, of either type, works
    as integer rounding and addition: it ends in the address whose word is the
    one the calls mean, a 64-bit word again, or, when an intermediate sum is
    not a [usize], in the overflow panic. No call wraps around, so an address
    is never moved to the bottom of the address space. *)
Theorem address_calls cs self :
  addr_wf self →
  calls cs self =
    match meanings cs (as_usize self) with
    | Some x => Done (tt, set_data self x)
    | None => Panic "attempt to add with overflow"
    end
  ∧ from_option (in_u 64) True (meanings cs (as_usize self)).
Proof.
  revert self. induction cs as [|c cs IH]; intros self Hw; cbn [meanings calls].
  - rewrite <-data_ref_usize, set_data_same, data_ref_usize. done.
  - destruct (call_leaves c self Hw) as [Ec Hc].
    destruct (meaning c (as_usize self)) as [x|]; cbn [mbind option_bind].
    + erewrite bind_run by exact Ec.
      destruct (IH (set_data self x)) as [E1 E2].
      { unfold addr_wf. by rewrite as_usize_set. }
      rewrite as_usize_set in E1, E2. split; [|done]. rewrite E1.
      destruct (meanings _ _); [by rewrite set_data_twice|done].
    + split; [|done]. by apply bind_panic.
Qed.
End methods.

(** The methods on the word of an address (Pte) are these. *)
Lemma methods_are_values (va : VirtualAddress.VirtualAddress) :
  pg_round_down va = Done (tt, set_data va (Pte.Addr.pg_round_down (as_usize va)))
  ∧ pg_round_up va = (x ← Pte.Addr.pg_round_up (as_usize va); store_data x) va
  ∧ add_page va = (x ← Pte.Addr.add_page (as_usize va); store_data x) va
  ∧ add_huge_page va = (x ← Pte.Addr.add_huge_page (as_usize va); store_data x) va
  ∧ (∀ l, VirtualAddress.page_num va l = Pte.Addr.page_num (as_usize va) l).
Proof.
  repeat split; [|by unfold add_page, load_data; rewrite bind_gets..].
  unfold pg_round_up, Pte.Addr.pg_round_up, load_data. rewrite bind_gets, bind_assoc.
  unfold mbind, M_bind. cbn [data_ref as_usize VirtualAddress.addr].
  destruct (uadd _ _ _ _) as [[??]| | |]; [|done..].
  by destruct (usub _ _ _ _) as [[??]| | |].
Qed.

Lemma address_calls_witness :
  calls [AddPage; HpgRoundUp; PgRoundDown] (VirtualAddress.new 0x1FFFFF)
    = Done (tt, VirtualAddress.new 0x400000)
  ∧ calls [PgRoundUp; AddPage] (VirtualAddress.new (2 ^ 64 - 0x1FFF))
    = Panic "attempt to add with overflow".
Proof.
  split.
  - refine (proj1 (address_calls [AddPage; HpgRoundUp; PgRoundDown]
      (VirtualAddress.new 0x1FFFFF) _)). split; [done|reflexivity].
  - refine (proj1 (address_calls [PgRoundUp; AddPage]
      (VirtualAddress.new (2 ^ 64 - 0x1FFF)) _)). split; [done|reflexivity].
Defined.
