(* ===== verification/Kalloc.v ===== *)
(** * Physical memory and the reference-counting page allocator

    RAM is modelled as the pages it consists of, each a list of 512 64-bit
    words (the machine is little endian; [page_bytes] below gives the byte
    view). The allocator of [memory/kalloc_rc/mod.rs] keeps its free list
    threaded through the free pages themselves: the first word of a free page
    is the [Run.next] pointer, 0 standing for [None]. [PageAllocator] of
    [memory/mod.rs] allocates zeroed pages through it. *)
From S2P Require Import Prelude Layout Pte.

(** [head] and [count] of [LinkedListAllocator], next to the RAM they
    manage. [count] is an array of [(PHYSTOP - KERNEL_BASE) / PGSIZE] cells,
    all zero at first: an absent key is a cell that still holds 0. *)
Record mem := mkMem {
  ram : gmap Z (list Z);
  head : option Z;
  count : gmap Z Z
}.

Definition page_of (a : Z) : Z := a - a mod PGSIZE.
Definition word_idx (a : Z) : nat := Z.to_nat ((a mod PGSIZE) / 8).

(** Dereferencing a [*mut usize]. *)
Definition read_word (a : Z) : M mem Z := λ m,
  match ram m !! page_of a with
  | Some ws => match ws !! word_idx a with
               | Some w => Done (w, m)
               | None => Fault
               end
  | None => Fault
  end.
Definition write_word (a w : Z) : M mem unit := λ m,
  match ram m !! page_of a with
  | Some ws => Done (tt, mkMem (<[page_of a := <[word_idx a := w]> ws]> (ram m))
                           (head m) (count m))
  | None => Fault
  end.

(** [Option<&'static mut Run>] as it lies in memory. *)
Definition as_ref (w : Z) : option Z := if w =? 0 then None else Some w.
Definition of_ref (o : option Z) : Z := default 0 o.

Definition set_head (h : option Z) : M mem unit :=
  modify (λ m, mkMem (ram m) h (count m)).

(** [count[idx]], bounds checked. *)
Definition COUNT_LEN : Z := (PHYSTOP - KERNEL_BASE) / PGSIZE.
Definition count_get (idx : Z) : M mem Z :=
  if idx <? COUNT_LEN then gets (λ m, default 0 (count m !! idx))
  else panic "index out of bounds".
Definition count_set (idx c : Z) : M mem unit :=
  if idx <? COUNT_LEN
  then modify (λ m, mkMem (ram m) (head m) (<[idx := c]> (count m)))
  else panic "index out of bounds".

(** i32 arithmetic on a counter. *)
Definition i32_add {S} (a b : Z) : M S Z :=
  if (- 2 ^ 31 <=? a + b) && (a + b <? 2 ^ 31) then mret (a + b)
  else panic "attempt to add with overflow".

(** ** [GlobalAlloc for LockedAllocator] *)
Definition alloc (size : Z) : M mem Z :=
  assert (size <=? 0x1000) "assertion failed: layout.size() <= 0x1000" ;;
  h ← gets head;
  match h with
  | Some node =>
    set_head None ;;
    d ← usub 64 node KERNEL_BASE;
    count_set (d / PGSIZE) 1 ;;
    next ← read_word node;
    write_word node 0 ;;
    set_head (as_ref next) ;;
    mret node
  | None => mret 0
  end.

Definition dealloc (ptr size : Z) : M mem unit :=
  assert (size <=? 0x1000) "assertion failed: layout.size() <= 0x1000" ;;
  d ← usub 64 ptr KERNEL_BASE;
  let idx := d / PGSIZE in
  c ← count_get idx;
  c' ← i32_add c (-1);
  count_set idx c' ;;
  if c' =? 0 then
    h ← gets head;
    write_word ptr (of_ref h) ;;
    set_head (Some ptr)
  else mret tt.

(** ** [LockedAllocator::add_count] / [get_count] *)
Definition add_count (pa : Z) : M mem unit :=
  d ← usub 64 pa KERNEL_BASE;
  let idx := d / PGSIZE in
  c ← count_get idx;
  c' ← i32_add c 1;
  count_set idx c'.

Definition get_count (pa : Z) : M mem Z :=
  d ← usub 64 pa KERNEL_BASE;
  count_get (d / PGSIZE).

(** ** [LinkedListAllocator::init]

    [end_] is the linker symbol [end], the first address after the kernel
    image. The loop over [(heap_start..heap_end).step_by(PGSIZE)] pushes one
    page per iteration. *)
Fixpoint init_loop (n : nat) (start : Z) : M mem unit :=
  match n with
  | O => mret tt
  | S n' =>
    h ← gets head;
    set_head None ;;
    write_word start (of_ref h) ;;
    set_head (Some start) ;;
    init_loop n' (start + PGSIZE)
  end.

(** The number of elements of [(a..b).step_by(step)]. *)
Definition step_count (a b step : Z) : nat := Z.to_nat ((b - a + step - 1) / step).

Definition init (end_ : Z) : M mem unit :=
  heap_start ← page_round_up end_;
  set_head None ;;
  init_loop (step_count heap_start PHYSTOP PGSIZE) heap_start.

(** ** [PageAllocator] for [RawPage], [PageTable] and [UStack]

    All three are one page. [Box::new_zeroed] is [alloc] and a [write_bytes]
    of zeroes; a null pointer goes to [alloc_error_handler], which panics. *)
Definition zero_page : list Z := replicate 512 0.

Definition write_page (p : Z) (ws : list Z) : M mem unit := λ m,
  match ram m !! p with
  | Some _ => Done (tt, mkMem (<[p := ws]> (ram m)) (head m) (count m))
  | None => Fault
  end.
Definition read_page (p : Z) : M mem (list Z) := λ m,
  match ram m !! p with Some ws => Done (ws, m) | None => Fault end.

Definition new_zeroed : M mem Z :=
  p ← alloc PGSIZE;
  if p =? 0 then panic "alloc error"
  else write_page p zero_page ;; mret p.

(** [drop(Box::from_raw(p))] of a page. *)
Definition drop_page (p : Z) : M mem unit := dealloc p PGSIZE.

(** ** The byte view of a page *)
Definition page_bytes (ws : list Z) : list Z := ws ≫= le_bytes 8.
Fixpoint bytes_words (n : nat) (bs : list Z) : list Z :=
  match n with
  | O => []
  | S n' => le_word (take 8 bs) :: bytes_words n' (drop 8 bs)
  end.
Definition bytes_page (bs : list Z) : list Z := bytes_words 512 bs.

(** ** The allocator's representation *)
Definition idx_of (p : Z) : Z := (p - KERNEL_BASE) / PGSIZE.
Definition cnt (m : mem) (p : Z) : Z := default 0 (count m !! idx_of p).

(** The base address of a page of RAM. *)
Definition is_page (p : Z) : Prop :=
  p mod PGSIZE = 0 ∧ KERNEL_BASE ≤ p < PHYSTOP.

(** A page's contents: 512 words of 64 bits. *)
Definition page_ok (ws : list Z) : Prop := length ws = 512%nat ∧ Forall (in_u 64) ws.

Definition ram_ok (r : gmap Z (list Z)) : Prop :=
  ∀ p ws, r !! p = Some ws → is_page p ∧ page_ok ws.

(** [h] points to a list of free pages [fl] threaded through their first
    words. *)
Fixpoint chain (r : gmap Z (list Z)) (h : option Z) (fl : list Z) : Prop :=
  match fl with
  | [] => h = None
  | p :: fl' => h = Some p ∧
      ∃ ws w, r !! p = Some ws ∧ ws !! 0%nat = Some w ∧ chain r (as_ref w) fl'
  end.

(** The allocator's invariant over the heap [[heap, PHYSTOP)]: the free list
    is exactly the heap pages with count 0, each once. *)
Record kinv (heap : Z) (m : mem) (fl : list Z) : Prop := {
  ki_ram : ram_ok (ram m);
  ki_chain : chain (ram m) (head m) fl;
  ki_nodup : NoDup fl;
  ki_free : ∀ p, p ∈ fl ↔ is_Some (ram m !! p) ∧ heap ≤ p ∧ cnt m p = 0;
  ki_count : ∀ p, is_Some (ram m !! p) → heap ≤ p → 0 ≤ cnt m p < 2 ^ 31
}.

Section pages.
Implicit Types (p q a : Z) (r : gmap Z (list Z)) (m : mem) (fl : list Z).

Lemma is_page_pos p : is_page p → 0 < p ∧ p < 2 ^ 56 ∧ in_u 64 p.
Proof. intros [_ ?]. unfold in_u. layout_lia. Qed.

Lemma is_page_pa_ok p : is_page p → pa_ok p.
Proof. intros [? ?]. split; [done|layout_lia]. Qed.

Lemma page_of_base p : p mod PGSIZE = 0 → page_of p = p.
Proof. unfold page_of. lia. Qed.

Lemma word_idx_base p : p mod PGSIZE = 0 → word_idx p = 0%nat.
Proof. unfold word_idx. by intros ->. Qed.

Lemma page_of_word p i : p mod PGSIZE = 0 → 0 ≤ i < 512 → page_of (p + i * 8) = p.
Proof.
  intros Hp Hi. unfold page_of. rewrite <- Z.add_mod_idemp_l, Hp, Z.add_0_l by layout_lia.
  rewrite Z.mod_small by layout_lia. lia.
Qed.

Lemma word_idx_word p i :
  p mod PGSIZE = 0 → 0 ≤ i < 512 → word_idx (p + i * 8) = Z.to_nat i.
Proof.
  intros Hp Hi. unfold word_idx. f_equal.
  rewrite <- Z.add_mod_idemp_l, Hp, Z.add_0_l by layout_lia.
  rewrite Z.mod_small by layout_lia. rewrite Z.div_mul; lia.
Qed.

Lemma idx_of_range p : is_page p → 0 ≤ idx_of p < COUNT_LEN.
Proof.
  intros [Hp ?]. unfold idx_of, COUNT_LEN. split.
  - apply Z.div_pos; layout_lia.
  - change ((PHYSTOP - KERNEL_BASE) / PGSIZE) with 1048576.
    apply Z.div_lt_upper_bound; layout_lia.
Qed.

Lemma idx_of_inj p q : is_page p → is_page q → idx_of p = idx_of q → p = q.
Proof.
  intros [Hp ?] [Hq ?]. unfold idx_of, PGSIZE, KERNEL_BASE in *.
  intros E. pose proof (Z.div_mod (p - 0x80000000) 4096).
  pose proof (Z.div_mod (q - 0x80000000) 4096).
  assert ((p - 0x80000000) mod 4096 = 0).
  { rewrite <- Zminus_mod_idemp_l, Hp. reflexivity. }
  assert ((q - 0x80000000) mod 4096 = 0).
  { rewrite <- Zminus_mod_idemp_l, Hq. reflexivity. }
  lia.
Qed.

(** Writing to pages off the free list keeps the free list. *)
Lemma chain_frame r r' h fl :
  (∀ p, p ∈ fl → r' !! p = r !! p) → chain r h fl → chain r' h fl.
Proof.
  revert h. induction fl as [|p fl IH]; intros h Hr; [done|].
  intros (-> & ws & w & H1 & H2 & H3). split; [done|].
  exists ws, w. rewrite Hr by set_solver. repeat split; [done..|].
  apply IH; [|done]. intros q Hq. apply Hr. set_solver.
Qed.

Lemma chain_insert r h fl p ws :
  p ∉ fl → chain r h fl → chain (<[p := ws]> r) h fl.
Proof.
  intros Hp. apply chain_frame. intros q Hq. apply lookup_insert_ne. set_solver.
Qed.

Lemma page_ok_zero : page_ok zero_page.
Proof. split; [done|]. apply Forall_replicate. unfold in_u. lia. Qed.

Lemma page_ok_insert ws i w : page_ok ws → in_u 64 w → page_ok (<[i := w]> ws).
Proof.
  intros [Hl Hf] Hw. split; [by rewrite length_insert|].
  by apply Forall_insert.
Qed.

Lemma ram_ok_insert r p ws : ram_ok r → is_Some (r !! p) → page_ok ws → ram_ok (<[p := ws]> r).
Proof.
  intros Hr [ws0 H0] Hok q ws' Hq.
  destruct (decide (p = q)) as [->|].
  - rewrite lookup_insert_eq in Hq. simplify_eq. split; [|done]. by eapply Hr.
  - rewrite lookup_insert_ne in Hq by done. by eapply Hr.
Qed.

Lemma page_word ws i : page_ok ws → (i < 512)%nat → ∃ w, ws !! i = Some w ∧ in_u 64 w.
Proof.
  intros [Hl Hf] Hi. destruct (lookup_lt_is_Some_2 ws i) as [w Hw]; [lia|].
  exists w. split; [done|]. by eapply Forall_lookup_1 in Hf.
Qed.

Lemma cnt_insert m p q c r h :
  is_page p → is_page q →
  cnt (mkMem r h (<[idx_of p := c]> (count m))) q = if decide (p = q) then c else cnt m q.
Proof.
  intros Hp Hq. unfold cnt. simpl. case_decide as E.
  - subst. by rewrite lookup_insert_eq.
  - rewrite lookup_insert_ne; [done|]. intros ?. by apply E, idx_of_inj.
Qed.

Lemma of_ref_as_ref h : (∀ p, h = Some p → 0 < p) → as_ref (of_ref h) = h.
Proof.
  intros H. destruct h as [p|]; [|done]. unfold as_ref, of_ref. simpl.
  specialize (H p eq_refl). by rewrite (proj2 (Z.eqb_neq _ _)) by lia.
Qed.
End pages.

(** ** Word access *)
Section words.
Implicit Types (m : mem) (p i w : Z).

Lemma read_word_run m p ws i w :
  ram m !! p = Some ws → p mod PGSIZE = 0 → 0 ≤ i < 512 →
  ws !! Z.to_nat i = Some w → read_word (p + i * 8) m = Done (w, m).
Proof.
  intros Hr Hp Hi Hw. unfold read_word.
  by rewrite page_of_word, word_idx_word, Hr, Hw.
Qed.

Lemma write_word_run m p ws i w :
  ram m !! p = Some ws → p mod PGSIZE = 0 → 0 ≤ i < 512 →
  write_word (p + i * 8) w m =
    Done (tt, mkMem (<[p := <[Z.to_nat i := w]> ws]> (ram m)) (head m) (count m)).
Proof.
  intros Hr Hp Hi. unfold write_word. by rewrite page_of_word, word_idx_word, Hr.
Qed.

Lemma read_word_base m p ws w :
  ram m !! p = Some ws → p mod PGSIZE = 0 → ws !! 0%nat = Some w →
  read_word p m = Done (w, m).
Proof.
  intros Hr Hp Hw. unfold read_word. by rewrite page_of_base, word_idx_base, Hr, Hw.
Qed.

Lemma write_word_base m p ws w :
  ram m !! p = Some ws → p mod PGSIZE = 0 →
  write_word p w m =
    Done (tt, mkMem (<[p := <[0%nat := w]> ws]> (ram m)) (head m) (count m)).
Proof.
  intros Hr Hp. unfold write_word. by rewrite page_of_base, word_idx_base, Hr.
Qed.
End words.
#[export] Hint Resolve is_page_pa_ok page_ok_zero page_ok_insert : rxos.

(** ** Each operation on the allocator's abstract state *)
Section alloc_spec.
Context (heap : Z).
Implicit Types (m : mem) (p q : Z) (fl : list Z).

Lemma kinv_page m fl p : kinv heap m fl → is_Some (ram m !! p) → is_page p.
Proof. intros K [ws Hws]. by eapply (ki_ram _ _ _ K) in Hws as [? _]. Qed.

Lemma kinv_free_page m fl p :
  kinv heap m fl → p ∈ fl → is_page p ∧ heap ≤ p ∧ cnt m p = 0 ∧ is_Some (ram m !! p).
Proof.
  intros K Hp. apply (ki_free _ _ _ K) in Hp as (? & ? & ?).
  split; [by eapply kinv_page|done].
Qed.

Lemma kinv_cons m p fl :
  kinv heap m (p :: fl) →
  head m = Some p ∧ is_page p ∧
  ∃ ws w, ram m !! p = Some ws ∧ ws !! 0%nat = Some w ∧ chain (ram m) (as_ref w) fl.
Proof.
  intros K. destruct (ki_chain _ _ _ K) as (? & ws & w & ? & ? & ?).
  split; [done|]. split; [|by eauto].
  eapply kinv_page; [done|]. by eexists.
Qed.

(** The state after a page has been handed out with contents [ws]. *)
Definition alloc_post (m : mem) (p : Z) (ws : list Z) (fl : list Z) : mem :=
  mkMem (<[p := ws]> (ram m)) (hd_error fl) (<[idx_of p := 1]> (count m)).

Lemma chain_head r h fl : chain r h fl → h = hd_error fl.
Proof. destruct fl; [done|]. by intros [-> _]. Qed.

Lemma kinv_head m fl :
  kinv heap m fl → in_u 64 (of_ref (head m)) ∧ ∀ p, head m = Some p → 0 < p.
Proof.
  intros K. rewrite (chain_head _ _ _ (ki_chain _ _ _ K)).
  destruct fl as [|p fl]; simpl; [split; [unfold in_u; lia|done]|].
  destruct (kinv_free_page _ _ p K) as [Hp _]; [set_solver|].
  apply is_page_pos in Hp as (? & ? & ?). split; [done|]. intros. by simplify_eq.
Qed.

Lemma alloc_run m p fl size :
  kinv heap m (p :: fl) → size ≤ PGSIZE →
  ∃ ws, ram m !! p = Some ws ∧
    alloc size m = Done (p, alloc_post m p (<[0%nat := 0]> ws) fl).
Proof.
  intros K Hs. destruct (kinv_cons _ _ _ K) as (Hh & Hp & ws & w & Hr & Hw & Hc).
  exists ws. split; [done|]. unfold alloc.
  rewrite bind_assert by (apply Z.leb_le; layout_lia).
  rewrite bind_gets, Hh. unfold set_head. rewrite bind_modify. simpl.
  pose proof Hp as [Hal Hrg].
  rewrite bind_usub by layout_lia.
  unfold count_set. fold (idx_of p).
  rewrite (proj2 (Z.ltb_lt _ _)) by apply idx_of_range, Hp.
  rewrite bind_modify. simpl.
  erewrite bind_run; [|by eapply read_word_base].
  erewrite bind_run; [|by eapply write_word_base].
  rewrite bind_modify. simpl. unfold alloc_post.
  by rewrite (chain_head _ _ _ Hc).
Qed.

Lemma alloc_post_kinv m p fl ws :
  kinv heap m (p :: fl) → page_ok ws → kinv heap (alloc_post m p ws fl) fl.
Proof.
  intros K Hws. destruct (kinv_cons _ _ _ K) as (Hh & Hp & ws0 & w & Hr & Hw & Hc).
  pose proof (ki_nodup _ _ _ K) as [Hnin Hnd]%NoDup_cons.
  assert (∀ q, is_Some (<[p := ws]> (ram m) !! q) ↔ is_Some (ram m !! q)) as Hdom.
  { intros q. destruct (decide (p = q)) as [->|].
    - rewrite lookup_insert_eq, Hr. by split; eexists.
    - by rewrite lookup_insert_ne. }
  split; simpl.
  - apply ram_ok_insert; [apply K|by eexists|done].
  - apply chain_insert; [done|]. by rewrite <- (chain_head _ _ _ Hc).
  - done.
  - intros q. split.
    + intros Hq. destruct (kinv_free_page _ _ q K) as (? & ? & ? & ?); [set_solver|].
      split_and!; [by apply Hdom|done|].
      unfold alloc_post. rewrite cnt_insert by done. case_decide; [set_solver|done].
    + intros (Hs & Hq & Hz). apply Hdom in Hs.
      assert (is_page q) by (by eapply kinv_page).
      unfold alloc_post in Hz. rewrite cnt_insert in Hz by done. case_decide; [done|].
      assert (q ∈ p :: fl) by (by apply (ki_free _ _ _ K)). set_solver.
  - intros q Hs Hq. apply Hdom in Hs. unfold alloc_post.
    rewrite cnt_insert by (done || by eapply kinv_page).
    case_decide; [lia|]. by apply (ki_count _ _ _ K).
Qed.

Lemma alloc_none m size : kinv heap m [] → size ≤ PGSIZE → alloc size m = Done (0, m).
Proof.
  intros K Hs. unfold alloc. rewrite bind_assert by (apply Z.leb_le; layout_lia).
  rewrite bind_gets. by rewrite (ki_chain _ _ _ K : head m = None).
Qed.

Lemma new_zeroed_run m p fl :
  kinv heap m (p :: fl) →
  new_zeroed m = Done (p, alloc_post m p zero_page fl) ∧
  kinv heap (alloc_post m p zero_page fl) fl.
Proof.
  intros K. split; [|by apply alloc_post_kinv; auto with rxos].
  destruct (alloc_run m p fl PGSIZE) as (ws & Hr & E); [done..|].
  destruct (kinv_cons _ _ _ K) as (_ & Hp & _).
  unfold new_zeroed. erewrite bind_run; [|exact E].
  apply is_page_pos in Hp as [Hp _]. rewrite (proj2 (Z.eqb_neq _ _)) by lia.
  unfold mbind at 1, M_bind, write_page, alloc_post. simpl.
  by rewrite lookup_insert_eq, insert_insert_eq.
Qed.

Lemma new_zeroed_exhausted m :
  kinv heap m [] → new_zeroed m = Panic "alloc error".
Proof.
  intros K. unfold new_zeroed. erewrite bind_run; [|by apply alloc_none].
  done.
Qed.

(** Dropping a reference. *)
Definition dealloc_post (m : mem) (p : Z) (ws : list Z) : mem :=
  if cnt m p =? 1 then
    mkMem (<[p := <[0%nat := of_ref (head m)]> ws]> (ram m)) (Some p)
      (<[idx_of p := 0]> (count m))
  else mkMem (ram m) (head m) (<[idx_of p := cnt m p - 1]> (count m)).

Lemma dealloc_run m fl p size ws :
  kinv heap m fl → ram m !! p = Some ws → 1 ≤ cnt m p < 2 ^ 31 → size ≤ PGSIZE →
  dealloc p size m = Done (tt, dealloc_post m p ws).
Proof.
  intros K Hr Hc Hs. assert (is_page p) as Hp by (by eapply kinv_page; [|eexists]).
  pose proof Hp as [Hal Hrg]. unfold dealloc.
  rewrite bind_assert by (apply Z.leb_le; layout_lia).
  rewrite bind_usub by layout_lia. simpl. fold (idx_of p).
  unfold count_get, count_set.
  rewrite (proj2 (Z.ltb_lt _ _)) by apply idx_of_range, Hp.
  rewrite bind_gets. fold (cnt m p). unfold i32_add.
  rewrite (proj2 (Z.leb_le _ _)), (proj2 (Z.ltb_lt (cnt m p + -1) _)) by lia.
  cbn [andb]. rewrite bind_ret_l, bind_modify. unfold dealloc_post.
  destruct (Z.eqb_spec (cnt m p + -1) 0) as [E|E], (Z.eqb_spec (cnt m p) 1); try lia.
  - rewrite bind_gets. simpl. 
    erewrite bind_run; [|by eapply write_word_base].
    unfold set_head, modify. simpl. by rewrite E.
  - done.
Qed.

(** The free list after a reference to [p] has been dropped. *)
Definition dealloc_fl (m : mem) (p : Z) (fl : list Z) : list Z :=
  if cnt m p =? 1 then p :: fl else fl.

Lemma dealloc_post_kinv m fl p ws :
  kinv heap m fl → ram m !! p = Some ws → heap ≤ p → 1 ≤ cnt m p →
  kinv heap (dealloc_post m p ws) (dealloc_fl m p fl).
Proof.
  intros K Hr Hh Hc. assert (is_page p) as Hp by (by eapply kinv_page; [|eexists]).
  assert (p ∉ fl) as Hnin.
  { intros Hin. apply (kinv_free_page _ _ _ K) in Hin as (_ & _ & ? & _). lia. }
  pose proof (proj2 (ki_ram _ _ _ K _ _ Hr)) as Hws.
  unfold dealloc_post, dealloc_fl.
  destruct (Z.eqb_spec (cnt m p) 1) as [E|E].
  - set (ws' := <[0%nat := of_ref (head m)]> ws).
    assert (page_ok ws') as Hws'.
    { apply page_ok_insert; [done|]. by eapply kinv_head. }
    assert (∀ q, is_Some (<[p := ws']> (ram m) !! q) ↔ is_Some (ram m !! q)) as Hdom.
    { intros q. destruct (decide (p = q)) as [->|].
      - rewrite lookup_insert_eq, Hr. by split; eexists.
      - by rewrite lookup_insert_ne. }
    split; simpl.
    + apply ram_ok_insert; [apply K|by eexists|done].
    + split; [done|]. exists ws', (of_ref (head m)).
      rewrite lookup_insert_eq. split_and!; [done| |].
      * destruct Hws as [Hl _]. apply list_lookup_insert_eq. lia.
      * apply chain_insert; [done|]. rewrite of_ref_as_ref; [apply K|].
        intros. by eapply kinv_head.
    + apply NoDup_cons. split; [done|apply K].
    + intros q. rewrite Hdom. split.
      * intros [->|Hq]%elem_of_cons.
        { split_and!; [by eexists|done|]. rewrite cnt_insert by done. by case_decide. }
        destruct (kinv_free_page _ _ q K) as (? & ? & ? & ?); [set_solver|].
        split_and!; [done..|]. rewrite cnt_insert by done. by case_decide.
      * intros (Hs & Hq & Hz). assert (is_page q) by (by eapply kinv_page).
        rewrite cnt_insert in Hz by done. case_decide; [set_solver|].
        apply elem_of_cons. right. by apply (ki_free _ _ _ K).
    + intros q. rewrite Hdom. intros Hs Hq.
      rewrite cnt_insert by (done || by eapply kinv_page).
      case_decide; [lia|]. by apply (ki_count _ _ _ K).
  - split; simpl; [apply K..| |].
    + intros q. split.
      * intros Hq. destruct (kinv_free_page _ _ q K) as (? & ? & ? & ?); [set_solver|].
        split_and!; [done..|]. rewrite cnt_insert by done. case_decide; [set_solver|done].
      * intros (Hs & Hq & Hz). assert (is_page q) by (by eapply kinv_page).
        rewrite cnt_insert in Hz by done. case_decide; [lia|].
        by apply (ki_free _ _ _ K).
    + intros q Hs Hq. rewrite cnt_insert by (done || by eapply kinv_page).
      pose proof (ki_count _ _ _ K q Hs Hq). case_decide; [subst; lia|done].
Qed.
End alloc_spec.

(** ** Reference counts *)
Section count_spec.
Context (heap : Z).
Implicit Types (m : mem) (p q : Z) (fl : list Z).

Lemma get_count_run m p : is_page p → get_count p m = Done (cnt m p, m).
Proof.
  intros Hp. pose proof Hp as [_ ?]. unfold get_count.
  rewrite bind_usub by layout_lia. fold (idx_of p). unfold count_get.
  by rewrite (proj2 (Z.ltb_lt _ _)) by apply idx_of_range, Hp.
Qed.

(** Below the RAM the index computation underflows. *)
Lemma get_count_low m p :
  p < KERNEL_BASE → get_count p m = Panic "attempt to subtract with overflow".
Proof. intros. by apply bind_panic, usub_panic. Qed.

Definition add_count_post (m : mem) (p : Z) : mem :=
  mkMem (ram m) (head m) (<[idx_of p := cnt m p + 1]> (count m)).

Lemma add_count_run m p :
  is_page p → 0 ≤ cnt m p < 2 ^ 31 - 1 →
  add_count p m = Done (tt, add_count_post m p).
Proof.
  intros Hp Hc. pose proof Hp as [_ ?]. unfold add_count.
  rewrite bind_usub by layout_lia. cbv zeta. fold (idx_of p).
  unfold count_get, count_set.
  rewrite (proj2 (Z.ltb_lt _ _)) by apply idx_of_range, Hp.
  rewrite bind_gets. fold (cnt m p). unfold i32_add.
  rewrite (proj2 (Z.leb_le _ _)), (proj2 (Z.ltb_lt (cnt m p + 1) _)) by lia.
  done.
Qed.

Lemma add_count_post_kinv m fl p :
  kinv heap m fl → is_Some (ram m !! p) → heap ≤ p → 1 ≤ cnt m p < 2 ^ 31 - 1 →
  kinv heap (add_count_post m p) fl.
Proof.
  intros K Hs Hh Hc. assert (is_page p) as Hp by (by eapply kinv_page).
  unfold add_count_post. split; simpl; [apply K..| |].
  - intros q. split.
    + intros Hq. destruct (kinv_free_page _ _ _ q K) as (? & ? & ? & ?); [done|].
      split_and!; [done..|]. rewrite cnt_insert by done. case_decide; [subst; lia|done].
    + intros (Hs' & Hq & Hz). assert (is_page q) by (by eapply kinv_page).
      rewrite cnt_insert in Hz by done. case_decide; [lia|].
      by apply (ki_free _ _ _ K).
  - intros q Hs' Hq. rewrite cnt_insert by (done || by eapply kinv_page).
    pose proof (ki_count _ _ _ K q Hs' Hq). case_decide; [subst; lia|done].
Qed.

(** A store to a page in use. *)
Lemma store_kinv m fl p ws :
  kinv heap m fl → is_Some (ram m !! p) → p ∉ fl → page_ok ws →
  kinv heap (mkMem (<[p := ws]> (ram m)) (head m) (count m)) fl.
Proof.
  intros K Hs Hp Hws.
  assert (∀ q, is_Some (<[p := ws]> (ram m) !! q) ↔ is_Some (ram m !! q)) as Hdom.
  { intros q. destruct (decide (p = q)) as [->|].
    - rewrite lookup_insert_eq. by split; [|eexists].
    - by rewrite lookup_insert_ne. }
  split; simpl.
  - apply ram_ok_insert; [apply K|done..].
  - apply chain_insert; [done|apply K].
  - apply K.
  - intros q. rewrite Hdom. apply (ki_free _ _ _ K).
  - intros q. rewrite Hdom. apply (ki_count _ _ _ K).
Qed.
End count_spec.

(** ** Building the free list at boot *)
Section init_spec.
Implicit Types (m : mem) (p q start : Z) (fl : list Z).

(** [start, start + PGSIZE, ...], n pages. *)
Fixpoint pages_from (n : nat) (start : Z) : list Z :=
  match n with O => [] | S n' => start :: pages_from n' (start + PGSIZE) end.

Lemma elem_of_pages_from n start p :
  p ∈ pages_from n start ↔ ∃ i, 0 ≤ i < Z.of_nat n ∧ p = start + i * PGSIZE.
Proof.
  revert start. induction n as [|n IH]; intros start; simpl.
  - split; [by intros ?%not_elem_of_nil|]. intros (i & ? & _). lia.
  - rewrite elem_of_cons, IH. split.
    + intros [->|(i & ? & ->)]; [exists 0|exists (i + 1)]; lia.
    + intros (i & ? & ->). destruct (decide (i = 0)) as [->|]; [left; lia|].
      right. exists (i - 1). lia.
Qed.

Lemma NoDup_pages_from n start : NoDup (pages_from n start).
Proof.
  revert start. induction n as [|n IH]; intros start; simpl; constructor; [|done].
  rewrite elem_of_pages_from. intros (i & ? & ?). layout_lia.
Qed.

Lemma init_loop_run n start m fl :
  chain (ram m) (head m) fl →
  ram_ok (ram m) → (∀ p, p ∈ fl → is_page p) →
  (∀ p, p ∈ pages_from n start → is_Some (ram m !! p) ∧ p ∉ fl) →
  ∃ m', init_loop n start m = Done (tt, m') ∧
    chain (ram m') (head m') (reverse (pages_from n start) ++ fl) ∧
    ram_ok (ram m') ∧ count m' = count m ∧
    (∀ p, is_Some (ram m' !! p) ↔ is_Some (ram m !! p)).
Proof.
  revert start m fl. induction n as [|n IH]; intros start m fl Hc Hr Hfl Hp; simpl in *.
  { by exists m. }
  destruct (Hp start) as [[ws Hws] Hnin]; [set_solver|].
  destruct (Hr _ _ Hws) as [[Hal Hrg] Hok].
  assert (in_u 64 (of_ref (head m)) ∧ as_ref (of_ref (head m)) = head m) as [Hu Has].
  { rewrite (chain_head _ _ _ Hc). destruct fl as [|q fl']; [by unfold in_u|].
    destruct (is_page_pos q) as (? & ? & ?); [apply Hfl; set_solver|].
    split; [done|]. apply of_ref_as_ref. intros. by simplify_eq/=. }
  rewrite bind_gets. unfold set_head. rewrite bind_modify.
  erewrite bind_run; [|by eapply write_word_base].
  rewrite bind_modify. simpl.
  set (m1 := mkMem _ _ _).
  assert (∀ p, is_Some (ram m1 !! p) ↔ is_Some (ram m !! p)) as Hdom.
  { intros q. subst m1. simpl. destruct (decide (start = q)) as [->|].
    - rewrite lookup_insert_eq, Hws. by split; eexists.
    - by rewrite lookup_insert_ne. }
  destruct (IH (start + PGSIZE) m1 (start :: fl)) as (m' & E & Hc' & Hr' & Hcnt & Hd').
  - subst m1. simpl. split; [done|]. eexists _, (of_ref (head m)).
    rewrite lookup_insert_eq. split_and!; [done| |].
    + apply list_lookup_insert_eq. destruct Hok as [Hl _]. lia.
    + rewrite Has. by apply chain_insert.
  - apply ram_ok_insert; [done|by eexists|]. by apply page_ok_insert.
  - intros q [->|?]%elem_of_cons; [done|by apply Hfl].
  - intros q Hq. destruct (Hp q) as [? ?]; [set_solver|]. split; [by apply Hdom|].
    apply not_elem_of_cons. split; [|done]. intros ->.
    pose proof (NoDup_pages_from (S n) start) as Hnd. simpl in Hnd.
    by apply NoDup_cons in Hnd as [? _].
  - exists m'. split_and!; [done| |done|by rewrite Hcnt|].
    + by rewrite reverse_cons, <- app_assoc.
    + intros q. by rewrite Hd', Hdom.
Qed.
End init_spec.

(** ** The allocator as a state machine *)

(** What the rest of the kernel does with the allocator: take a zeroed page,
    drop or add a reference to a page in use, store into a page in use. *)
Inductive kstep (heap : Z) (m : mem) : mem → Prop :=
| ks_alloc p m' :
    new_zeroed m = Done (p, m') → kstep heap m m'
| ks_drop p m' :
    is_Some (ram m !! p) → heap ≤ p → 1 ≤ cnt m p →
    drop_page p m = Done (tt, m') → kstep heap m m'
| ks_share p m' :
    is_Some (ram m !! p) → heap ≤ p → 1 ≤ cnt m p →
    add_count p m = Done (tt, m') → kstep heap m m'
| ks_store p ws :
    is_Some (ram m !! p) → heap ≤ p → 1 ≤ cnt m p → page_ok ws →
    kstep heap m (mkMem (<[p := ws]> (ram m)) (head m) (count m)).

(** Memory as the machine starts: all of RAM is there, no page is counted. *)
Record boot_mem (heap : Z) (m : mem) : Prop := {
  bm_ram : ram_ok (ram m);
  bm_all : ∀ p, is_page p → heap ≤ p → is_Some (ram m !! p);
  bm_count : count m = ∅
}.

(** The first heap page for a kernel image that ends at [end_]. *)
Definition heap_start (end_ : Z) : Z :=
  end_ + PGSIZE - 1 - (end_ + PGSIZE - 1) mod PGSIZE.

Lemma kstep_kinv heap m m' fl :
  kinv heap m fl → kstep heap m m' → ∃ fl', kinv heap m' fl'.
Proof.
  intros K Hst.
  assert (∀ p, 1 ≤ cnt m p → p ∉ fl) as Hnin.
  { intros p Hc Hin. apply (kinv_free_page _ _ _ _ K) in Hin as (_ & _ & ? & _). lia. }
  destruct Hst as [p m' E|p m' [ws Hws] Hh Hc E|p m' Hs Hh Hc E|p ws Hs Hh Hc Hok].
  - destruct fl as [|q fl]; [by rewrite (new_zeroed_exhausted heap) in E|].
    destruct (new_zeroed_run heap m q fl K) as [E' ?]. exists fl. congruence.
  - pose proof (ki_count _ _ _ K p ltac:(by eexists) Hh).
    unfold drop_page in E. rewrite (dealloc_run heap m fl p PGSIZE ws) in E by (done || lia).
    injection E as <-. eexists. by apply dealloc_post_kinv.
  - pose proof (ki_count _ _ _ K p Hs Hh) as Hb.
    assert (is_page p) as Hp by (by eapply kinv_page).
    assert (cnt m p < 2 ^ 31 - 1) as Hlt.
    { apply Z.nle_gt. intros Hge. revert E. pose proof Hp as [_ ?]. unfold add_count.
      rewrite bind_usub by layout_lia. cbv zeta. fold (idx_of p).
      unfold count_get, count_set.
      rewrite (proj2 (Z.ltb_lt _ _)) by apply idx_of_range, Hp.
      rewrite bind_gets. fold (cnt m p). unfold i32_add.
      by rewrite (proj2 (Z.ltb_ge (cnt m p + 1) _)), andb_false_r by lia. }
    rewrite add_count_run in E by (done || lia). injection E as <-.
    eexists. by apply add_count_post_kinv.
  - eexists. apply store_kinv; eauto.
Qed.

Lemma init_kinv end_ m0 :
  0 ≤ end_ ≤ PHYSTOP → KERNEL_BASE ≤ heap_start end_ → boot_mem (heap_start end_) m0 →
  ∃ m1 fl, init end_ m0 = Done (tt, m1) ∧ kinv (heap_start end_) m1 fl ∧
    ∀ p, p ∈ fl ↔ is_page p ∧ heap_start end_ ≤ p.
Proof.
  intros He Hlow [Hram Hall Hcnt]. unfold init.
  erewrite bind_run; [|apply page_round_up_run; layout_lia].
  fold (heap_start end_). set (hs := heap_start end_) in *.
  unfold set_head. rewrite bind_modify.
  assert (hs mod PGSIZE = 0) as Hal.
  { unfold hs, heap_start. rewrite Zminus_mod_idemp_r. by rewrite Z.sub_diag. }
  assert (hs ≤ PHYSTOP) as Hle.
  { unfold hs, heap_start in *. layout_unfold.
    Z.div_mod_to_equations. lia. }
  set (n := step_count hs PHYSTOP PGSIZE).
  assert (∀ p, p ∈ pages_from n hs ↔ is_page p ∧ hs ≤ p) as Hpages.
  { intros p. rewrite elem_of_pages_from. unfold is_page, n, step_count.
    assert (hs = hs / 4096 * 4096) as Hhs.
    { unfold PGSIZE in Hal. pose proof (Z.div_mod hs 4096). lia. }
    replace ((PHYSTOP - hs + PGSIZE - 1) / PGSIZE) with ((PHYSTOP - hs) / 4096).
    2:{ layout_unfold. Z.div_mod_to_equations. lia. }
    rewrite Z2Nat.id by (apply Z.div_pos; lia). split.
    - intros (i & Hi & ->). unfold PGSIZE in *. split; [|lia].
      rewrite Z.mod_add by lia. split; [done|]. layout_unfold. Z.div_mod_to_equations. lia.
    - intros [[Hm Hr] Hh]. exists ((p - hs) / 4096). unfold PGSIZE in *.
      layout_unfold. Z.div_mod_to_equations. lia. }
  destruct (init_loop_run n hs (mkMem (ram m0) None (count m0)) [])
    as (m1 & E & Hc & Hr & Hct & Hd); [done|done|set_solver| |].
  { intros p [Hp Hh]%Hpages. simpl. split; [by apply Hall|set_solver]. }
  exists m1, (reverse (pages_from n hs)). split; [exact E|].
  rewrite app_nil_r in Hc. simpl in *.
  assert (∀ p, cnt m1 p = 0) as Hz by (intros p; unfold cnt; by rewrite Hct, Hcnt).
  split; [|intros p; by rewrite elem_of_reverse, Hpages].
  split; [done|done| | |].
  - rewrite reverse_Permutation. apply NoDup_pages_from.
  - intros p. rewrite elem_of_reverse, Hpages, Hz, Hd. split.
    + intros [? ?]. split_and!; [by apply Hall|done..].
    + intros ([ws Hws] & ? & _). split; [by eapply Hram|done].
  - intros. rewrite Hz. lia.
Qed.

(** C21. Booting the allocator never fails, and in every state reachable from
    there by allocating, sharing, dropping and storing into pages, the free
    list threaded through memory is well formed: it holds exactly the heap
    pages whose reference count is 0, each once, and every count is within
    [i32]. *)
Theorem allocator_reachable end_ m0 :
  0 ≤ end_ ≤ PHYSTOP → KERNEL_BASE ≤ heap_start end_ → boot_mem (heap_start end_) m0 →
  ∃ m1, init end_ m0 = Done (tt, m1) ∧
    ∀ m, rtc (kstep (heap_start end_)) m1 m → ∃ fl, kinv (heap_start end_) m fl.
Proof.
  intros He Hl Hb. destruct (init_kinv end_ m0) as (m1 & fl & E & K & _); [done..|].
  exists m1. split; [done|]. clear E. intros m Hst. revert fl K.
  induction Hst as [m|m m' m'' Hs Hst IH]; intros fl K; [by exists fl|].
  destruct (kstep_kinv _ _ _ _ K Hs) as [fl' K']. by eapply IH.
Qed.

(** A machine with two free pages at the top of RAM. *)
Definition ram2 : gmap Z (list Z) :=
  {[PHYSTOP - 8192 := zero_page; PHYSTOP - 4096 := zero_page]}.
Definition boot2 : mem := mkMem ram2 None ∅.

Lemma ram2_ok : ram_ok ram2.
Proof.
  intros p ws Hp. unfold ram2 in Hp.
  apply lookup_insert_Some in Hp as [[<- <-]|[_ Hp]];
    [|apply lookup_singleton_Some in Hp as [<- <-]];
    (split; [split; [reflexivity|layout_lia]|apply page_ok_zero]).
Qed.

Lemma boot2_ok : boot_mem (PHYSTOP - 8192) boot2.
Proof.
  split; [apply ram2_ok| |done]. intros p [Hp Hr] Hh.
  assert (p = PHYSTOP - 8192 ∨ p = PHYSTOP - 4096) as [-> | ->] by
    (layout_unfold; Z.div_mod_to_equations; lia); vm_compute; by eexists.
Qed.

Lemma allocator_reachable_witness :
  ∃ m1, init (PHYSTOP - 8200) boot2 = Done (tt, m1) ∧
    ∀ m, rtc (kstep (heap_start (PHYSTOP - 8200))) m1 m →
      ∃ fl, kinv (heap_start (PHYSTOP - 8200)) m fl.
Proof.
  apply (allocator_reachable (PHYSTOP - 8200) boot2).
  - layout_lia.
  - by vm_compute.
  - exact boot2_ok.
Defined.

(** Allocation is fresh and complete. In a well-formed state, either no heap page
    has count 0 and allocation panics with an allocation error, or
    [new_zeroed] returns a heap page nobody held a reference to, filled with
    zeroes and counted once, and no other page or count changes. *)
Theorem new_zeroed_fresh heap m fl :
  kinv heap m fl →
  (new_zeroed m = Panic "alloc error" ∧
     ∀ p, is_Some (ram m !! p) → heap ≤ p → cnt m p ≠ 0) ∨
  (∃ p m', new_zeroed m = Done (p, m') ∧
     heap ≤ p ∧ is_page p ∧ cnt m p = 0 ∧ cnt m' p = 1 ∧
     ram m' !! p = Some zero_page ∧
     (∀ q, q ≠ p → ram m' !! q = ram m !! q) ∧
     (∀ q, is_page q → q ≠ p → cnt m' q = cnt m q)).
Proof.
  intros K. destruct fl as [|p fl].
  - left. split; [by eapply new_zeroed_exhausted|]. intros p Hp Hh Hc.
    assert (p ∈ []) as []%not_elem_of_nil by (by apply (ki_free _ _ _ K)).
  - right. destruct (new_zeroed_run heap m p fl K) as [E _].
    destruct (kinv_free_page _ _ _ p K) as (Hp & ? & ? & ?); [set_solver|].
    exists p, (alloc_post m p zero_page fl). unfold alloc_post.
    split_and!; [done..| | | |].
    + rewrite cnt_insert by done. by case_decide.
    + apply lookup_insert_eq.
    + intros. by apply lookup_insert_ne.
    + intros. rewrite cnt_insert by done. by case_decide.
Qed.

Lemma new_zeroed_fresh_witness :
  ∃ heap m fl, kinv heap m fl ∧
    ((new_zeroed m = Panic "alloc error" ∧
        ∀ p, is_Some (ram m !! p) → heap ≤ p → cnt m p ≠ 0) ∨
     (∃ p m', new_zeroed m = Done (p, m') ∧
        heap ≤ p ∧ is_page p ∧ cnt m p = 0 ∧ cnt m' p = 1 ∧
        ram m' !! p = Some zero_page ∧
        (∀ q, q ≠ p → ram m' !! q = ram m !! q) ∧
        (∀ q, is_page q → q ≠ p → cnt m' q = cnt m q))).
Proof.
  destruct (init_kinv (PHYSTOP - 8200) boot2) as (m1 & fl & _ & K & _);
    [layout_lia|by vm_compute|exact boot2_ok|].
  exists (heap_start (PHYSTOP - 8200)), m1, fl. split; [exact K|].
  apply (new_zeroed_fresh (heap_start (PHYSTOP - 8200)) m1 fl K).
Defined.

(** Sharing a page [n] times, and dropping it [n] times. *)
Definition share_n (n : nat) (p : Z) : M mem unit := for_each (replicate n p) add_count.
Definition drop_n (n : nat) (p : Z) : M mem unit := for_each (replicate n p) drop_page.

Lemma share_n_run n p m :
  is_page p → 0 ≤ cnt m p → cnt m p + Z.of_nat n < 2 ^ 31 →
  share_n n p m = Done (tt, if decide (n = 0%nat) then m else
    mkMem (ram m) (head m) (<[idx_of p := cnt m p + Z.of_nat n]> (count m))).
Proof.
  intros Hp. revert m. induction n as [|n IH]; intros m H0 H1; [done|].
  unfold share_n. cbn [replicate for_each]. erewrite bind_run; [|apply add_count_run; [done|lia]].
  assert (cnt (add_count_post m p) p = cnt m p + 1) as Hc.
  { unfold add_count_post. by rewrite cnt_insert, decide_True. }
  fold (share_n n p). rewrite IH by lia. rewrite (decide_False (P := S n = 0%nat)) by done. case_decide.
  - by subst n.
  - rewrite Hc. unfold add_count_post. simpl. rewrite insert_insert_eq.
    by replace (cnt m p + 1 + Z.of_nat n) with (cnt m p + Z.of_nat (S n)) by lia.
Qed.

Lemma drop_n_run heap fl n p m ws :
  kinv heap m fl → ram m !! p = Some ws → heap ≤ p → Z.of_nat n < cnt m p →
  drop_n n p m = Done (tt, if decide (n = 0%nat) then m else
    mkMem (ram m) (head m) (<[idx_of p := cnt m p - Z.of_nat n]> (count m))).
Proof.
  revert m. induction n as [|n IH]; intros m K Hws Hh Hlt; [done|].
  assert (is_page p) as Hp by (by eapply kinv_page; [|eexists]).
  pose proof (ki_count _ _ _ K p ltac:(by eexists) Hh).
  pose proof (dealloc_post_kinv heap m fl p ws K Hws Hh ltac:(lia)) as K'.
  unfold drop_n. cbn [replicate for_each].
  erewrite bind_run; [|eapply dealloc_run; [done|done|lia|lia]].
  unfold dealloc_fl, dealloc_post in *.
  rewrite (proj2 (Z.eqb_neq _ _)) in * by lia.
  set (m1 := mkMem _ _ _) in *.
  assert (cnt m1 p = cnt m p - 1) as Hc.
  { subst m1. by rewrite cnt_insert, decide_True. }
  fold (drop_n n p). rewrite IH by (done || lia). rewrite (decide_False (P := S n = 0%nat)) by done. case_decide.
  - by subst n.
  - rewrite Hc. subst m1. simpl. rewrite insert_insert_eq.
    by replace (cnt m p - 1 - Z.of_nat n) with (cnt m p - Z.of_nat (S n)) by lia.
Qed.

(** Reference counting. A page held once and then shared [n] times
    survives [n] drops with its contents untouched and is back at count 1;
    the drop after that returns it to the head of the free list. *)
Theorem share_then_drop heap m fl p ws n :
  kinv heap m fl → ram m !! p = Some ws → heap ≤ p → cnt m p = 1 →
  Z.of_nat n + 1 < 2 ^ 31 →
  ∃ m', (share_n n p ;; drop_n n p) m = Done (tt, m') ∧
    ram m' = ram m ∧ cnt m' p = 1 ∧ kinv heap m' fl ∧
    ∃ m'', drop_page p m' = Done (tt, m'') ∧ head m'' = Some p ∧
      kinv heap m'' (p :: fl).
Proof.
  intros K Hws Hh Hc Hn.
  assert (is_page p) as Hp by (by eapply kinv_page; [|eexists]).
  set (m1 := mkMem (ram m) (head m) (<[idx_of p := cnt m p]> (count m))).
  assert (∀ q, is_page q → cnt m1 q = cnt m q) as Hm1.
  { intros q Hq. unfold m1. rewrite cnt_insert by done. by case_decide; subst. }
  assert (kinv heap m1 fl) as K1.
  { split; simpl; [apply K..| |].
    - intros q. rewrite (ki_free _ _ _ K q). split; intros (Hs & ? & ?);
        (split_and!; [done..|]); [rewrite Hm1|rewrite <- Hm1];
        by try eapply kinv_page.
    - intros q Hs Hq. rewrite Hm1 by (by eapply kinv_page). by apply (ki_count _ _ _ K). }
  assert (∃ m', (share_n n p ;; drop_n n p) m = Done (tt, m') ∧
    ram m' = ram m ∧ cnt m' p = 1 ∧ kinv heap m' fl) as (m' & E & Hr & Hc' & K').
  { erewrite bind_run; [|apply share_n_run; [done|lia|lia]]. case_decide as En.
    { subst n. by exists m. }
    set (m2 := mkMem _ _ _).
    assert (cnt m2 p = 1 + Z.of_nat n) as Hc2.
    { unfold m2. rewrite cnt_insert by done. case_decide; [lia|done]. }
    assert (kinv heap m2 fl) as K2.
    { split; simpl; [apply K..| |].
      - intros q. rewrite (ki_free _ _ _ K q). unfold m2.
        split; intros (Hs & ? & Hz); (split_and!; [done..|]); revert Hz;
          rewrite cnt_insert by (done || by eapply kinv_page); case_decide; subst; lia.
      - intros q Hs Hq. unfold m2. rewrite cnt_insert by (done || by eapply kinv_page).
        pose proof (ki_count _ _ _ K q Hs Hq). case_decide; lia. }
    rewrite (drop_n_run heap fl n p m2 ws) by (done || lia).
    rewrite decide_False by done. exists m1. split_and!; [|done| |done].
    - rewrite Hc2. unfold m2, m1. simpl. rewrite insert_insert_eq, Hc.
      by replace (1 + Z.of_nat n - Z.of_nat n) with 1 by lia.
    - by rewrite Hm1, Hc. }
  exists m'. split_and!; [done..|]. rewrite <- Hr in Hws.
  unfold drop_page. rewrite (dealloc_run heap m' fl p PGSIZE ws) by (done || lia).
  eexists. split; [done|].
  pose proof (dealloc_post_kinv heap m' fl p ws K' Hws Hh ltac:(lia)) as K''.
  unfold dealloc_fl, dealloc_post in *. rewrite Hc' in *. done.
Qed.

(** The machine of [boot2] after one allocation. *)
Lemma boot2_alloc :
  ∃ m p fl, kinv (PHYSTOP - 8192) m fl ∧ ram m !! p = Some zero_page ∧
    PHYSTOP - 8192 ≤ p ∧ cnt m p = 1.
Proof.
  destruct (init_kinv (PHYSTOP - 8200) boot2) as (m1 & fl & E & K & _);
    [layout_lia|by vm_compute|exact boot2_ok|].
  change (heap_start (PHYSTOP - 8200)) with (PHYSTOP - 8192) in K.
  assert (head m1 ≠ None) as Hh1.
  { clear K. revert E. vm_compute. by intros [= <-]. }
  destruct fl as [|p fl]; [by destruct Hh1; apply (ki_chain _ _ _ K)|].
  destruct (new_zeroed_run _ _ p fl K) as [_ K'].
  destruct (kinv_free_page _ _ _ p K) as (Hp & Hh & _ & _); [set_solver|].
  exists (alloc_post m1 p zero_page fl), p, fl.
  split_and!; [exact K'|by apply lookup_insert_eq|done|].
  unfold alloc_post. rewrite cnt_insert by done. by rewrite decide_True.
Qed.

Lemma share_then_drop_witness :
  ∃ heap m fl p ws, kinv heap m fl ∧ ram m !! p = Some ws ∧ cnt m p = 1 ∧
    ∃ m', (share_n 3 p ;; drop_n 3 p) m = Done (tt, m') ∧ ram m' = ram m ∧
      ∃ m'', drop_page p m' = Done (tt, m'') ∧ head m'' = Some p.
Proof.
  destruct boot2_alloc as (m & p & fl & K & Hr & Hh & Hc).
  exists (PHYSTOP - 8192), m, fl, p, zero_page. split_and!; [done..|].
  destruct (share_then_drop (PHYSTOP - 8192) m fl p zero_page 3 K Hr Hh Hc)
    as (m' & E & Hm & _ & _ & m'' & E' & Hd & _); [lia|].
  exists m'. split_and!; [exact E|exact Hm|]. by exists m''.
Defined.
