(* ===== verification/PageTable.v ===== *)
(** * Page tables: the operations

    [memory/mapping/pagetable.rs]. A page table is the address of its root
    page; an entry ([&mut PageTableEntry]) is the address of its word. The
    recursion and the loops follow the source; a loop that is not structural
    carries fuel, and running out of it is the outcome [Hang]. The theorems
    are in PageTableFacts, MapFacts, Cow and UserSpace. *)
From S2P Require Import Prelude Layout Pte Kalloc.

Module PageTable.
Import Addr PageTableEntry.

Definition SATP_SV39 : Z := ushl 64 8 60.

Definition as_satp (pgt : Z) : Z := Z.lor SATP_SV39 (Z.shiftr pgt PGSHIFT).

(** [&mut pgt.entries[idx]]; every index the code uses is below 512. *)
Definition entry (pgt idx : Z) : Z := pgt + idx * 8.

(** [clear]: every entry becomes 0. [write]: copy all entries of a table. *)
Definition clear (pgt : Z) : M mem unit := write_page pgt zero_page.
Definition write (pgt src : Z) : M mem unit :=
  ws ← read_page src; write_page pgt ws.

(** The [for level in (1..=2).rev()] loop of [translate]. *)
Fixpoint translate_loop (levels : list Z) (pgt va : Z) (alloc : bool)
    : M mem (option Z) :=
  match levels with
  | [] => mret (Some (entry pgt (page_num va 0)))
  | level :: rest =>
    let pte := entry pgt (page_num va level) in
    e ← read_word pte;
    if is_valid e then
      if is_read e || is_write e || is_execute e then mret (Some pte)
      else translate_loop rest (as_pagetable e) va alloc
    else if negb alloc then mret None
    else
      zeroed_pgt ← new_zeroed;
      write_word pte (write_perm zeroed_pgt 0) ;;
      translate_loop rest zeroed_pgt va alloc
  end.

Definition translate (pgt va : Z) (alloc : bool) : M mem (option Z) :=
  if MAXVA <? va then mret None else translate_loop [2; 1] pgt va alloc.

Definition translate_huge (pgt va : Z) (alloc : bool) : M mem (option Z) :=
  if MAXVA <? va then mret None else
  let pte := entry pgt (page_num va 2) in
  e ← read_word pte;
  if is_valid e then mret (Some (entry (as_pagetable e) (page_num va 1)))
  else if negb alloc then mret None
  else
    zeroed_pgt ← new_zeroed;
    write_word pte (write_perm zeroed_pgt 0) ;;
    mret (Some (entry zeroed_pgt (page_num va 1))).

Definition pgt_translate (pgt va : Z) : M mem (option Z) :=
  if MAXVA <? va then mret None else
  r ← translate pgt va false;
  match r with
  | Some pte =>
    e ← read_word pte;
    if negb (is_valid e) || negb (is_user e) then mret None
    else mret (Some (as_pagetable e))
  | None => mret None
  end.

(** ** Mapping *)
Fixpoint map_loop (fuel : nat) (pgt va pa last perm : Z) : M mem bool :=
  if va =? last then mret true else
  match fuel with
  | O => hang
  | S fuel' =>
    r ← translate pgt va true;
    match r with
    | Some pte =>
      e ← read_word pte;
      if is_valid e then panic "remap" else
      write_word pte (write_perm pa perm) ;;
      va' ← add_page va;
      pa' ← add_page pa;
      map_loop fuel' pgt va' pa' last perm
    | None => mret false
    end
  end.

Definition map (pgt va pa size perm : Z) : M mem bool :=
  last0 ← uadd 64 va size;
  let va := pg_round_down va in
  last ← pg_round_up last0;
  map_loop (Z.to_nat ((last - va) / PGSIZE)) pgt va pa last perm.

Fixpoint map_with_huge_loop (fuel : nat) (pgt va pa last perm : Z) : M mem bool :=
  if va =? last then mret true else
  match fuel with
  | O => hang
  | S fuel' =>
    huge ← (if is_hpage_aligned va then
              d ← usub 64 last va; mret (HUGE_PGSIZE <=? d)
            else mret false);
    if huge : bool then
      r ← translate_huge pgt va true;
      match r with
      | Some pte =>
        e ← read_word pte;
        if is_valid e then panic "remap" else
        write_word pte (write_perm pa perm) ;;
        va' ← add_huge_page va;
        pa' ← add_huge_page pa;
        map_with_huge_loop fuel' pgt va' pa' last perm
      | None => mret false
      end
    else
      r ← translate pgt va true;
      match r with
      | Some pte =>
        e ← read_word pte;
        if is_valid e then panic "remap" else
        write_word pte (write_perm pa perm) ;;
        va' ← add_page va;
        pa' ← add_page pa;
        map_with_huge_loop fuel' pgt va' pa' last perm
      | None => mret false
      end
  end.

Definition map_with_huge (pgt va pa size perm : Z) : M mem bool :=
  last0 ← uadd 64 va size;
  let va := pg_round_down va in
  last ← pg_round_up last0;
  map_with_huge_loop (Z.to_nat ((last - va) / PGSIZE)) pgt va pa last perm.

Definition kernel_map (pgt va pa size perm : Z) : M mem unit :=
  ok ← map_with_huge pgt va pa size perm;
  if ok : bool then mret tt else panic "内核虚拟地址映射失败".

(** ** Unmapping *)
Fixpoint uunmap_loop (npages : nat) (pgt va : Z) (free : bool) : M mem unit :=
  match npages with
  | O => mret tt
  | S n =>
    r ← translate pgt va false;
    match r with
    | Some pte =>
      e ← read_word pte;
      if negb (is_valid e) then panic "uunmap: not mapped" else
      if unot 64 (as_flags e) =? PTE_V then panic "uunmap: not a leaf" else
      (if free then
         drop_page (as_pagetable e) ;;
         write_word pte 0
       else mret tt) ;;
      va' ← add_page va;
      uunmap_loop n pgt va' free
    | None => panic "uunmap"
    end
  end.

Definition uunmap (pgt va npages : Z) (free : bool) : M mem unit :=
  if negb (is_page_aligned va) then panic "uunmap: not aligned." else
  uunmap_loop (Z.to_nat npages) pgt va free.

(** ** User memory *)
Definition unew : M mem Z := new_zeroed.

Definition ufree (pgt size : Z) : M mem unit :=
  if 0 <? size then
    r ← page_round_up size;
    uunmap pgt 0 (r / PGSIZE) true
  else mret tt.

Definition udealloc (pgt old_size new_size : Z) : M mem Z :=
  if old_size <=? new_size then mret old_size else
  rnew ← page_round_up new_size;
  rold ← page_round_up old_size;
  (if rnew <? rold then
     uunmap pgt rnew ((rold - rnew) / PGSIZE) true
   else mret tt) ;;
  mret new_size.

Fixpoint ualloc_loop (n : nat) (pgt cur_size old_size : Z) : M mem bool :=
  match n with
  | O => mret true
  | S n' =>
    addr ← new_zeroed;
    ok ← map pgt cur_size addr PGSIZE (Z.lor (Z.lor (Z.lor PTE_W PTE_R) PTE_X) PTE_U);
    if ok : bool then ualloc_loop n' pgt (cur_size + PGSIZE) old_size
    else
      drop_page addr ;;
      udealloc pgt cur_size old_size ;;
      mret false
  end.

Definition ualloc (pgt old_size new_size : Z) : M mem (option Z) :=
  if new_size <? old_size then mret (Some old_size) else
  old ← page_round_up old_size;
  ok ← ualloc_loop (step_count old new_size PGSIZE) pgt old old;
  mret (if ok : bool then Some new_size else None).

Definition ualloc_stack (pgt : Z) : M mem bool :=
  addr ← new_zeroed;
  ok ← map pgt USTACK_BASE addr USTACK_SIZE (Z.lor (Z.lor PTE_W PTE_R) PTE_U);
  if negb ok then drop_page addr ;; mret false else
  guard ← new_zeroed;
  ok ← map pgt (USTACK_BASE - PGSIZE) guard PGSIZE PTE_R;
  if negb ok then
    uunmap pgt USTACK_BASE (USTACK_SIZE / PGSIZE) true ;;
    drop_page guard ;;
    mret false
  else mret true.

Definition ufree_stack (pgt : Z) : M mem unit :=
  uunmap pgt (USTACK_BASE - PGSIZE) (USTACK_SIZE / PGSIZE + 1) true.

(** ** Byte slices of a page *)

(** [page[off..off + bs.len()].copy_from_slice(bs)]. *)
Definition page_splice (ws : list Z) (off : Z) (bs : list Z) : list Z :=
  let old := page_bytes ws in
  bytes_page (take (Z.to_nat off) old ++ bs ++ drop (Z.to_nat off + length bs) old).
Definition store_bytes (p off : Z) (bs : list Z) : M mem unit :=
  ws ← read_page p; write_page p (page_splice ws off bs).
(** [page[off..off + n]]. *)
Definition load_bytes (p off n : Z) : M mem (list Z) :=
  ws ← read_page p;
  mret (take (Z.to_nat n) (drop (Z.to_nat off) (page_bytes ws))).

(** [uinit]: the first process. The results of [map] and [ualloc_stack] are
    ignored. *)
Definition uinit (pgt : Z) (src : list Z) : M mem unit :=
  if PGSIZE <=? Z.of_nat (length src) then panic "uinit: more than a page" else
  mem ← new_zeroed;
  map pgt 0 mem PGSIZE (Z.lor (Z.lor (Z.lor PTE_R PTE_W) PTE_X) PTE_U) ;;
  ualloc_stack pgt ;;
  store_bytes mem 0 src.

(** ** Dropping a [Box<PageTable>]

    [Drop for PageTable] drops the tables below every valid entry that is not
    a leaf, and then the box itself is freed. [depth] bounds the recursion. *)
Fixpoint drop_box (depth : nat) (pgt : Z) : M mem unit :=
  match depth with
  | O => hang
  | S d =>
    for_each (seqZ 0 512) (λ i,
      e ← read_word (entry pgt i);
      if is_valid e && negb (is_leaf e) then drop_box d (as_pagetable e)
      else mret tt) ;;
    drop_page pgt
  end.

(** The deprecated [free], which no caller uses. The box made of each child
    drops the tables below it a second time. *)
Fixpoint free (depth : nat) (pgt : Z) : M mem unit :=
  match depth with
  | O => hang
  | S d =>
    for_each (seqZ 0 512) (λ i,
      e ← read_word (entry pgt i);
      if is_valid e && negb (is_leaf e) then free d (as_pagetable e) ;; drop_box d (as_pagetable e)
      else if is_valid e then panic "pagetable free(): leaf not be removed"
      else mret tt)
  end.

(** ** Copying an address space

    Both loops run [while va != size + start], so how often they iterate
    depends on the tables; [fuel] bounds the iterations. The two pages of the
    user stack need two. *)
Fixpoint ucopy_loop (fuel : nat) (self other va end_ : Z) : M mem (result unit) :=
  if va =? end_ then mret (Ok tt) else
  match fuel with
  | O => hang
  | S fuel' =>
    r ← translate self va false;
    match r with
    | Some pte =>
      e ← read_word pte;
      if negb (is_valid e) then panic "ucopy: page not present" else
      let flags := PteFlags.new (as_flags e) in
      alloc_pgt ← new_zeroed;
      write alloc_pgt (as_pagetable e) ;;
      ok ← map other va alloc_pgt PGSIZE flags;
      if negb ok then
        uunmap other 0 (va / PGSIZE) true ;;
        drop_box 3 alloc_pgt ;;
        mret (Err "ucopy: Failed.")
      else
        va' ← add_page va;
        ucopy_loop fuel' self other va' end_
    | None => panic "ucopy: No exist pte(pte should exist)"
    end
  end.

Definition ucopy (fuel : nat) (self other va size : Z) : M mem (result unit) :=
  end_ ← uadd 64 size va;
  ucopy_loop fuel self other va end_.

Fixpoint ucopy_nocopy_loop (fuel : nat) (self other va end_ : Z) : M mem (result unit) :=
  if va =? end_ then mret (Ok tt) else
  match fuel with
  | O => hang
  | S fuel' =>
    r ← translate self va false;
    match r with
    | Some pte =>
      e ← read_word pte;
      if negb (is_valid e) then panic "ucopy: page not present" else
      write_word pte (to_cow_page e) ;;
      e ← read_word pte;
      let pa := as_pagetable e in
      add_count pa ;;
      let flags := PteFlags.new (as_flags e) in
      ok ← map other va pa PGSIZE flags;
      if negb ok then
        uunmap other 0 (va / PGSIZE) true ;;
        mret (Err "ucopy: Failed.")
      else
        va' ← add_page va;
        ucopy_nocopy_loop fuel' self other va' end_
    | None => panic "ucopy: No exist pte(pte should exist)"
    end
  end.

Definition ucopy_nocopy (fuel : nat) (self other va size : Z) : M mem (result unit) :=
  end_ ← uadd 64 size va;
  ucopy_nocopy_loop fuel self other va end_.

Definition ucopy_stack (self other : Z) : M mem unit :=
  r ← ucopy 2 self other (USTACK_BASE - PGSIZE) (USTACK_SIZE + PGSIZE);
  match r with
  | Ok _ => mret tt
  | Err _ => panic "called `Result::unwrap()` on an `Err` value"
  end.

(** The copy half of copy-on-write, run on a store page fault at [va].
    [prev_page], a box on the shared page, is dropped when the function
    returns. *)
Definition uload_page (pgt va : Z) : M mem (result unit) :=
  r ← translate pgt va false;
  match r with
  | Some pte =>
    e ← read_word pte;
    let pa := as_pagetable e in
    c ← get_count pa;
    if c =? 1 then
      write_word pte (add_write_bit e) ;;
      mret (Ok tt)
    else
      new_page ← new_zeroed;
      prev ← read_page pa;
      write_page new_page prev ;;
      e ← read_word pte;
      let perm := PteFlags.from_bits_truncate (Z.lor e PTE_W) in
      write_word pte (write_perm new_page perm) ;;
      drop_page pa ;;
      mret (Ok tt)
  | None => mret (Err "Read illegal address.")
  end.

Definition uclear (pgt va : Z) : M mem unit :=
  r ← translate pgt va false;
  match r with
  | Some pte => e ← read_word pte; write_word pte (rm_user_bit e)
  | None => panic "uclear: Not found valid pte for virtual address"
  end.

(** ** Kernel <-> user copies *)
Definition unwrap_msg : string := "called `Option::unwrap()` on a `None` value".

Fixpoint copy_out_loop (fuel : nat) (pgt va pa off count : Z) (src : list Z) : M mem unit :=
  match fuel with
  | O => hang
  | S fuel' =>
    let count := if Z.of_nat (length src) <? count then Z.of_nat (length src) else count in
    store_bytes pa off (take (Z.to_nat count) src) ;;
    let src := drop (Z.to_nat count) src in
    if bool_decide (src = []) then mret tt else
    va' ← add_page va;
    r ← pgt_translate pgt va';
    pa' ← unwrap r unwrap_msg;
    copy_out_loop fuel' pgt va' pa' 0 PGSIZE src
  end.

Definition copy_out (pgt dst : Z) (src : list Z) : M mem (result unit) :=
  let va := pg_round_down dst in
  let count := PGSIZE - (dst - va) in
  r ← pgt_translate pgt va;
  pa ← unwrap r unwrap_msg;
  copy_out_loop (S (length src)) pgt va pa (dst - va) count src ;;
  mret (Ok tt).

(** [copy_in] fills a slice of [len] bytes; the model returns them. *)
Fixpoint copy_in_loop (fuel : nat) (pgt va pa off count len : Z) : M mem (list Z) :=
  match fuel with
  | O => hang
  | S fuel' =>
    let count := if len <? count then len else count in
    bs ← load_bytes pa off count;
    let len := len - count in
    if len =? 0 then mret bs else
    va' ← add_page va;
    r ← pgt_translate pgt va';
    pa' ← unwrap r unwrap_msg;
    rest ← copy_in_loop fuel' pgt va' pa' 0 PGSIZE len;
    mret (bs ++ rest)
  end.

Definition copy_in (pgt len src : Z) : M mem (list Z) :=
  let va := pg_round_down src in
  let count := PGSIZE - (src - va) in
  r ← pgt_translate pgt va;
  pa ← unwrap r unwrap_msg;
  copy_in_loop (S (Z.to_nat len)) pgt va pa (src - va) count len.

(** [src.iter().enumerate().find(|(_, x)| **x == 0)]. *)
Fixpoint find_nul (bs : list Z) : option Z :=
  match bs with
  | [] => None
  | b :: bs' => if b =? 0 then Some 0 else (λ i, i + 1) <$> find_nul bs'
  end.

(** [copy_in_str] fills a prefix of the slice [dst]; the model returns the
    slice afterwards. [rest] is what lies beyond the part still to fill. *)
Fixpoint copy_in_str_loop (fuel : nat) (pgt va pa off count : Z) (dst : list Z)
    : M mem (list Z) :=
  match fuel with
  | O => hang
  | S fuel' =>
    let dlen := Z.of_nat (length dst) in
    let count := if dlen <? count then dlen else count in
    src ← load_bytes pa off (PGSIZE - off);
    match find_nul src with
    | Some end_idx =>
      (* dst = &mut dst[..count] *)
      if dlen <? end_idx + 1 then panic "range end index out of range for slice" else
      mret (take (Z.to_nat (end_idx + 1)) src ++ drop (Z.to_nat (end_idx + 1)) dst)
    | None =>
      (* dst[..count].copy_from_slice(src) *)
      if negb (count =? Z.of_nat (length src))
      then panic "copy_from_slice: source slice length does not match destination slice length"
      else
      let dst' := drop (Z.to_nat count) dst in
      if bool_decide (dst' = []) then mret src else
      va' ← add_page va;
      r ← pgt_translate pgt va';
      pa' ← unwrap r unwrap_msg;
      rest ← copy_in_str_loop fuel' pgt va' pa' 0 PGSIZE dst';
      mret (src ++ rest)
    end
  end.

Definition copy_in_str (pgt : Z) (dst : list Z) (src : Z) : M mem (list Z) :=
  let va := pg_round_down src in
  let count := PGSIZE - (src - va) in
  r ← pgt_translate pgt va;
  pa ← unwrap r unwrap_msg;
  copy_in_str_loop (S (length dst)) pgt va pa (src - va) count dst.

(** ** Tearing a process's address space down *)
Definition proc_free_pagetable (pgt size : Z) : M mem unit :=
  ufree_stack pgt ;;
  uunmap pgt TRAMPOLINE 1 false ;;
  uunmap pgt TRAPFRAME 1 false ;;
  ufree pgt size.
End PageTable.
