(* ===== verification/PageTableFacts.v ===== *)
(** * Page tables: structure and frame lemmas

    The tree a page table forms in memory, with a ghost map that gives every
    table page its place in the tree; what [translate] and [map] do to it. *)
From S2P Require Import Prelude Layout Pte Kalloc PageTable.
Import Addr PageTableEntry.

(** ** Words of tables and the walk *)
Definition word (m : mem) (p i : Z) : option Z :=
  ws ← ram m !! p; ws !! Z.to_nat i.

(** The walk of [translate] without allocation, as a function of memory: the
    table page and index of the entry it stops at. [l] is the level of
    [pgt]. *)
Fixpoint walk (l : nat) (m : mem) (pgt va : Z) : option (Z * Z) :=
  match l with
  | O => Some (pgt, page_num va 0)
  | S l' =>
    e ← word m pgt (page_num va (Z.of_nat l));
    if is_valid e then
      if is_leaf e then Some (pgt, page_num va (Z.of_nat l))
      else walk l' m (as_pagetable e) va
    else None
  end.

(** The valid entry a walk ends at: what [va] is mapped to. *)
Definition leaf_at (l : nat) (m : mem) (pgt va : Z) : option Z :=
  '(p, i) ← walk l m pgt va;
  e ← word m p i;
  if is_valid e then Some e else None.

(** The mapping of [va] in the table with root [root]. *)
Definition pte_at (m : mem) (root va : Z) : option Z := leaf_at 2 m root va.

(** The address bits above the page a level-[l] table covers. *)
Definition vpre (l : nat) (va : Z) : Z := va / 2 ^ (12 + 9 * (Z.of_nat l + 1)).

(** [pos] places every page of the table: its level and address prefix. No
    page has two places, so tables never alias. The pages below the root come
    from the heap. [huge] allows leaves at level 1 (the kernel's table). *)
Record pt_wf (heap : Z) (huge : bool) (m : mem) (fl : list Z) (root : Z)
    (pos : gmap Z (nat * Z)) : Prop := {
  pw_root : pos !! root = Some (2%nat, 0);
  pw_page : ∀ p x, pos !! p = Some x →
    is_Some (ram m !! p) ∧ (p ∉ fl) ∧ (p ≠ root → heap ≤ p) ∧ (fst x ≤ 2)%nat;
  pw_child : ∀ p l pre i e,
    pos !! p = Some (S l, pre) → 0 ≤ i < 512 → word m p i = Some e →
    is_valid e = true →
    (is_leaf e = false ∧ pos !! (as_pagetable e) = Some (l, pre * 512 + i)) ∨
    (is_leaf e = true ∧ l = 0%nat ∧ huge = true)
}.

Section address_arith.
Implicit Types va : Z.

Lemma vpre_step l va : vpre l va = vpre (S l) va * 512 + page_num va (Z.of_nat (S l)).
Proof.
  rewrite page_num_eq by lia. unfold vpre.
  replace (12 + Z.of_nat (S l) * 9) with (12 + 9 * (Z.of_nat l + 1)) by lia.
  replace (12 + 9 * (Z.of_nat (S l) + 1)) with (12 + 9 * (Z.of_nat l + 1) + 9) by lia.
  rewrite (Z.pow_add_r 2 _ 9), <- Z.div_div by lia. change (2 ^ 9) with 512.
  pose proof (Z.div_mod (va / 2 ^ (12 + 9 * (Z.of_nat l + 1))) 512). lia.
Qed.

Lemma vpre_root va : 0 ≤ va ≤ MAXVA → vpre 2 va = 0.
Proof.
  intros. unfold vpre. apply Z.div_small. change (12 + _) with 39. layout_lia.
Qed.

(** The virtual page number from the level-0 prefix and index. *)
Lemma vpn_split va : va / PGSIZE = vpre 0 va * 512 + page_num va 0.
Proof.
  rewrite page_num_eq by lia. unfold vpre, PGSIZE.
  change (12 + 9 * (Z.of_nat 0 + 1)) with 21. change (12 + 0 * 9) with 12.
  change (2 ^ 21) with (2 ^ 12 * 512). rewrite <- Z.div_div by lia.
  change (2 ^ 12) with 4096. pose proof (Z.div_mod (va / 4096) 512). lia.
Qed.

(** The 2 MiB page number from the level-1 prefix and index. *)
Lemma vhpn_split va : va / HUGE_PGSIZE = vpre 1 va * 512 + page_num va 1.
Proof. apply (vpre_step 0). Qed.

(** Pages of one run. *)
Lemma page_div a i : a mod PGSIZE = 0 → (a + i * PGSIZE) / PGSIZE = a / PGSIZE + i.
Proof. intros. apply Z.div_add. layout_lia. Qed.
End address_arith.

Section words.
Implicit Types (m : mem) (p q i j : Z).

Lemma word_run m p i w :
  word m p i = Some w → p mod PGSIZE = 0 → 0 ≤ i < 512 →
  read_word (PageTable.entry p i) m = Done (w, m).
Proof.
  unfold word. intros (ws & Hr & Hw)%bind_Some Hp Hi. by eapply read_word_run.
Qed.

(** Memory after a store to word [i] of page [p]. *)
Definition set_word (m : mem) (p i w : Z) : mem :=
  mkMem (alter (<[Z.to_nat i := w]>) p (ram m)) (head m) (count m).

Lemma set_word_run m p i w :
  is_Some (ram m !! p) → p mod PGSIZE = 0 → 0 ≤ i < 512 →
  write_word (PageTable.entry p i) w m = Done (tt, set_word m p i w).
Proof.
  intros [ws Hr] Hp Hi. unfold PageTable.entry, set_word.
  erewrite write_word_run by done. repeat f_equal.
  apply map_eq. intros q. rewrite lookup_alter. destruct (decide (p = q)) as [->|].
  - by rewrite lookup_insert_eq, Hr.
  - by rewrite lookup_insert_ne.
Qed.

Lemma word_set_word m p i w q j :
  ram_ok (ram m) → is_Some (ram m !! p) → 0 ≤ i < 512 → 0 ≤ j →
  word (set_word m p i w) q j = if decide (p = q ∧ i = j) then Some w else word m q j.
Proof.
  intros Hok [ws Hws] Hi Hj. unfold word, set_word. simpl. rewrite lookup_alter.
  destruct (decide (p = q)) as [->|].
  - rewrite Hws. simpl. destruct (Hok _ _ Hws) as [_ [Hl _]].
    case_decide as E.
    + destruct E as [_ ->]. apply list_lookup_insert_eq. lia.
    + apply list_lookup_insert_ne. intros ?. apply E. split; [done|lia].
  - rewrite decide_False by naive_solver. done.
Qed.

Lemma word_is_Some m p i :
  ram_ok (ram m) → is_Some (ram m !! p) → 0 ≤ i < 512 → ∃ w, word m p i = Some w ∧ in_u 64 w.
Proof.
  intros Hok [ws Hws] Hi. unfold word. rewrite Hws. simpl.
  apply page_word; [by eapply Hok|lia].
Qed.

Lemma word_ram_eq m m' p i : ram m' !! p = ram m !! p → word m' p i = word m p i.
Proof. unfold word. by intros ->. Qed.

Lemma set_word_dom m p i w q :
  is_Some (ram (set_word m p i w) !! q) ↔ is_Some (ram m !! q).
Proof.
  unfold set_word. simpl. rewrite lookup_alter. case_decide; [subst|done].
  apply fmap_is_Some.
Qed.

Lemma set_word_ram_ne m p i w q : p ≠ q → ram (set_word m p i w) !! q = ram m !! q.
Proof. intros. unfold set_word. simpl. by apply lookup_alter_ne. Qed.

Lemma cnt_set_word m p i w q : cnt (set_word m p i w) q = cnt m q.
Proof. done. Qed.

Lemma kinv_set_word heap m fl p i w :
  kinv heap m fl → is_Some (ram m !! p) → p ∉ fl → in_u 64 w →
  kinv heap (set_word m p i w) fl.
Proof.
  intros K [ws Hws] Hp Hw. pose proof (ki_ram _ _ _ K _ _ Hws) as [_ Hok].
  replace (set_word m p i w) with
    (mkMem (<[p := <[Z.to_nat i := w]> ws]> (ram m)) (head m) (count m)).
  { apply store_kinv; eauto. by apply page_ok_insert. }
  unfold set_word. f_equal. apply map_eq. intros q. rewrite lookup_alter.
  case_decide; [subst; by rewrite lookup_insert_eq, Hws|by rewrite lookup_insert_ne].
Qed.

Lemma zero_page_word i : 0 ≤ i < 512 → zero_page !! Z.to_nat i = Some 0.
Proof. intros. apply lookup_replicate. split; [done|lia]. Qed.
End words.

(** ** Walks in a well-formed table *)
Section wf.
Context (heap : Z) (huge : bool) (root : Z).
Implicit Types (m : mem) (fl : list Z) (pos : gmap Z (nat * Z)) (p q va e : Z) (l : nat).

Lemma pt_wf_page m fl pos p x :
  kinv heap m fl → pt_wf heap huge m fl root pos → pos !! p = Some x →
  is_page p ∧ is_Some (ram m !! p) ∧ (p ∉ fl).
Proof.
  intros K W Hp. destruct (pw_page _ _ _ _ _ _ W _ _ Hp) as (? & ? & ? & _).
  split_and!; [by eapply kinv_page|done..].
Qed.

(** Where a walk ends. *)
Lemma walk_pos m fl pos l q va p i :
  pt_wf heap huge m fl root pos → pos !! q = Some (l, vpre l va) →
  walk l m q va = Some (p, i) →
  0 ≤ i < 512 ∧
  ((pos !! p = Some (0%nat, vpre 0 va) ∧ i = page_num va 0) ∨
   (huge = true ∧ pos !! p = Some (1%nat, vpre 1 va) ∧ i = page_num va 1 ∧
    ∃ e, word m p i = Some e ∧ is_valid e = true ∧ is_leaf e = true)).
Proof.
  intros W. revert q. induction l as [|l IH]; intros q Hq; cbn [walk].
  { intros [= <- <-]. split; [apply page_num_range; lia|]. by left. }
  intros (e & He & H)%bind_Some.
  pose proof (page_num_range va (Z.of_nat (S l)) ltac:(lia)) as Hr.
  destruct (is_valid e) eqn:Hv; [|done].
  destruct (pw_child _ _ _ _ _ _ W _ _ _ _ _ Hq Hr He Hv)
    as [[Hl Hc]|(Hl & -> & Hh)]; rewrite Hl in H.
  - apply (IH (as_pagetable e)); [|done]. by rewrite Hc, (vpre_step l).
  - injection H as <- <-. split; [done|]. right. split_and!; [done..|]. by exists e.
Qed.

(** Without huge pages, distinct pages of the address space have distinct
    entries. *)
Lemma walk_pos_user m fl pos va p i :
  huge = false → pt_wf heap huge m fl root pos → 0 ≤ va ≤ MAXVA →
  walk 2 m root va = Some (p, i) →
  pos !! p = Some (0%nat, vpre 0 va) ∧ i = page_num va 0.
Proof.
  intros Hh W Hva Hw. destruct (walk_pos m fl pos 2 root va p i W) as [_ [?|(? & _)]].
  - rewrite vpre_root by done. apply W.
  - done.
  - done.
  - congruence.
Qed.

Lemma walk_same m fl pos va va' p i :
  huge = false → pt_wf heap huge m fl root pos →
  0 ≤ va ≤ MAXVA → 0 ≤ va' ≤ MAXVA →
  walk 2 m root va = Some (p, i) → walk 2 m root va' = Some (p, i) →
  va / PGSIZE = va' / PGSIZE.
Proof.
  intros Hh W H1 H2 E1 E2.
  destruct (walk_pos_user _ _ _ _ _ _ Hh W H1 E1) as [Hp ->].
  destruct (walk_pos_user _ _ _ _ _ _ Hh W H2 E2) as [Hp' Hi].
  rewrite !vpn_split, Hi. congruence.
Qed.

Lemma walk_vpn l m q va va' : va / PGSIZE = va' / PGSIZE → walk l m q va = walk l m q va'.
Proof.
  intros E.
  assert (∀ level, 0 ≤ level → page_num va level = page_num va' level) as Hpn.
  { intros level Hl. rewrite !page_num_eq by lia.
    rewrite (Z.pow_add_r 2 12), <- !Z.div_div by lia. change (2 ^ 12) with PGSIZE.
    by rewrite E. }
  revert q. induction l as [|l IH]; intros q; cbn [walk]; [by rewrite Hpn|].
  rewrite Hpn by lia. destruct (word m q _) as [e|]; [|done]. simpl.
  by rewrite IH.
Qed.

Lemma pte_at_vpn m q va va' : va / PGSIZE = va' / PGSIZE → pte_at m q va = pte_at m q va'.
Proof. intros E. unfold pte_at, leaf_at. by rewrite (walk_vpn 2 m q va va'). Qed.

(** [translate] without allocation computes the walk. *)
Lemma translate_loop_walk m fl pos l q va levels :
  kinv heap m fl → pt_wf heap huge m fl root pos → pos !! q = Some (l, vpre l va) →
  levels = Z.of_nat <$> reverse (seq 1 l) →
  PageTable.translate_loop levels q va false m =
    Done ((λ '(p, i), PageTable.entry p i) <$> walk l m q va, m).
Proof.
  intros K W. revert q levels. induction l as [|l IH]; intros q levels Hq ->; [done|].
  rewrite seq_S, reverse_snoc. change (1 + l)%nat with (S l).
  cbn [fmap list_fmap PageTable.translate_loop walk].
  destruct (pt_wf_page _ _ _ _ _ K W Hq) as ([Hal _] & Hs & _).
  pose proof (page_num_range va (Z.of_nat (S l)) ltac:(lia)) as Hr.
  destruct (word_is_Some m q (page_num va (Z.of_nat (S l)))) as (e & He & Hu);
    [apply K|done|done|].
  erewrite bind_run; [|by apply word_run]. rewrite He. simpl.
  destruct (is_valid e) eqn:Hv; [|done].
  rewrite <- is_leaf_rwx. destruct (is_leaf e) eqn:Hl; [done|].
  apply IH; [|done].
  destruct (pw_child _ _ _ _ _ _ W _ _ _ _ _ Hq Hr He Hv) as [[_ Hc]|[? _]];
    [|congruence].
  by rewrite Hc, (vpre_step l).
Qed.

Lemma translate_walk m fl pos va :
  kinv heap m fl → pt_wf heap huge m fl root pos → 0 ≤ va ≤ MAXVA →
  PageTable.translate root va false m =
    Done ((λ '(p, i), PageTable.entry p i) <$> walk 2 m root va, m).
Proof.
  intros K W Hva. unfold PageTable.translate. rewrite (proj2 (Z.ltb_ge _ _)) by lia.
  eapply translate_loop_walk; [done|done| |done].
  rewrite vpre_root by done. apply W.
Qed.
End wf.

(** ** Changes outside the table *)
Lemma pt_frame_gen heap huge root m fl pos m' fl' :
  pt_wf heap huge m fl root pos →
  (∀ p x, pos !! p = Some x → ram m' !! p = ram m !! p ∧ p ∉ fl') →
  pt_wf heap huge m' fl' root pos ∧
  (∀ va, walk 2 m' root va = walk 2 m root va) ∧
  (∀ va, 0 ≤ va ≤ MAXVA → pte_at m' root va = pte_at m root va).
Proof.
  intros W Hfr.
  assert (∀ p i x, pos !! p = Some x → word m' p i = word m p i) as Hword.
  { intros p i x Hp. by apply word_ram_eq, (Hfr p x). }
  assert (∀ va, walk 2 m' root va = walk 2 m root va) as Hwalk.
  { intros va. assert (∀ l q pre, pos !! q = Some (l, pre) → walk l m' q va = walk l m q va)
      as Hl; [|by eapply Hl, W].
    induction l as [|l IH]; intros q pre Hq; cbn [walk]; [done|].
    pose proof (page_num_range va (Z.of_nat (S l)) ltac:(lia)) as Hr.
    erewrite Hword by done. destruct (word m q _) as [e|] eqn:He; [|done]. simpl.
    destruct (is_valid e) eqn:Hv; [|done].
    destruct (pw_child _ _ _ _ _ _ W _ _ _ _ _ Hq Hr He Hv) as [[Hl Hc]|(Hl & _)]; rewrite Hl; [|done].
    by apply (IH _ _ Hc). }
  split_and!; [|done|].
  - split; [apply W| |].
    + intros p x Hp. destruct (Hfr _ _ Hp) as [-> ?].
      destruct (pw_page _ _ _ _ _ _ W _ _ Hp) as (? & _ & ? & ?). by split_and!.
    + intros p l pre i e Hp Hi He Hv. erewrite Hword in He by done.
      by eapply (pw_child _ _ _ _ _ _ W).
  - intros va Hva. unfold pte_at, leaf_at. rewrite Hwalk.
    destruct (walk 2 m root va) as [[p i]|] eqn:Hw; [|done]. simpl.
    destruct (walk_pos heap huge root m fl pos 2 root va p i W) as [_ [[Hp _]|(_ & Hp & _)]];
      [rewrite vpre_root by done; apply W|done|by erewrite Hword..].
Qed.

(** ** How an operation may change memory

    [grows] relates two states when the operation between them only took
    pages off the free list, placed some of them in the table, and left every
    page it did not own alone. *)
Record grows (m : mem) (fl : list Z) (pos : gmap Z (nat * Z))
    (m' : mem) (fl' : list Z) (pos' : gmap Z (nat * Z)) : Prop := {
  gr_fl : fl' `suffix_of` fl;
  gr_pos : pos ⊆ pos';
  gr_new : ∀ q, is_Some (pos' !! q) → is_Some (pos !! q) ∨ q ∈ fl;
  gr_dom : ∀ q, is_Some (ram m' !! q) ↔ is_Some (ram m !! q);
  gr_ram : ∀ q, q ∉ fl → pos !! q = None → ram m' !! q = ram m !! q;
  gr_cnt : ∀ q, is_page q → q ∉ fl → cnt m' q = cnt m q
}.

Lemma grows_refl m fl pos : grows m fl pos m fl pos.
Proof. split; [done|done|auto|done|done|done]. Qed.

Lemma grows_trans m1 fl1 pos1 m2 fl2 pos2 m3 fl3 pos3 :
  grows m1 fl1 pos1 m2 fl2 pos2 → grows m2 fl2 pos2 m3 fl3 pos3 →
  grows m1 fl1 pos1 m3 fl3 pos3.
Proof.
  intros G1 G2.
  assert (∀ q, q ∈ fl2 → q ∈ fl1) as Hsub.
  { intros q Hq. destruct (gr_fl _ _ _ _ _ _ G1) as [k ->]. set_solver. }
  split.
  - etrans; [apply G2|apply G1].
  - etrans; [apply G1|apply G2].
  - intros q Hq. apply (gr_new _ _ _ _ _ _ G2) in Hq as [Hq|Hq]; [|auto].
    by apply (gr_new _ _ _ _ _ _ G1).
  - intros q. rewrite (gr_dom _ _ _ _ _ _ G2). apply G1.
  - intros q Hq Hp. rewrite (gr_ram _ _ _ _ _ _ G2); [by apply G1|auto|].
    destruct (pos2 !! q) eqn:E; [|done].
    destruct (gr_new _ _ _ _ _ _ G1 q) as [[? ?]|?]; [by eexists|congruence|done].
  - intros q Hq Hn. rewrite (gr_cnt _ _ _ _ _ _ G2) by auto. by apply G1.
Qed.

(** ** Adding a table *)
Section add_table.
Context (heap : Z) (huge : bool) (root : Z).
Implicit Types (m : mem) (fl : list Z) (pos : gmap Z (nat * Z)) (p q z va e : Z) (l : nat).

(** The state after [translate] has hung a fresh table [z] below entry [i] of
    table [p]. *)
Definition add_table (m : mem) (fl : list Z) (p i z : Z) : mem :=
  set_word (alloc_post m z zero_page fl) p i (write_perm z 0).

Lemma write_perm_table z :
  is_page z → is_valid (write_perm z 0) = true ∧ is_leaf (write_perm z 0) = false ∧
    as_pagetable (write_perm z 0) = z ∧ in_u 64 (write_perm z 0).
Proof.
  intros Hz%is_page_pa_ok. assert (perm_ok 0) by (unfold perm_ok; lia).
  split_and!.
  - by apply write_perm_valid.
  - rewrite is_leaf_bits, !write_perm_bit by (done || lia). done.
  - by apply write_perm_pa.
  - by apply write_perm_in_u.
Qed.

Context (m : mem) (fl : list Z) (pos : gmap Z (nat * Z)) (z p i : Z) (l : nat) (pre e0 : Z).
Context (K : kinv heap m (z :: fl)) (W : pt_wf heap huge m (z :: fl) root pos).
Context (Hp : pos !! p = Some (S l, pre)) (Hi : 0 ≤ i < 512).
Context (He0 : word m p i = Some e0) (Hv0 : is_valid e0 = false).

Let m' := add_table m fl p i z.
Let pos' := <[z := (l, pre * 512 + i)]> pos.

Lemma add_table_fresh : is_page z ∧ pos !! z = None ∧ p ≠ z.
Proof.
  destruct (kinv_free_page _ _ _ z K) as (Hz & _); [set_solver|].
  assert (pos !! z = None) as Hn.
  { destruct (pos !! z) as [x|] eqn:E; [|done].
    destruct (pw_page _ _ _ _ _ _ W _ _ E) as (_ & H & _). set_solver. }
  split_and!; [done..|]. intros ->. congruence.
Qed.

Lemma add_table_word q j :
  0 ≤ j < 512 → word m' q j =
    if decide (q = z) then Some 0
    else if decide (p = q ∧ i = j) then Some (write_perm z 0) else word m q j.
Proof.
  intros Hj. destruct add_table_fresh as (Hz & Hn & Hpz).
  assert (kinv heap (alloc_post m z zero_page fl) fl) as K' by
    (apply alloc_post_kinv; auto with rxos).
  destruct (pw_page _ _ _ _ _ _ W _ _ Hp) as (Hs & _).
  unfold m', add_table. rewrite word_set_word; [|apply K'| |done|lia].
  2:{ simpl. by rewrite lookup_insert_ne. }
  destruct (decide (q = z)) as [->|].
  - rewrite decide_False by naive_solver. unfold word, alloc_post. simpl.
    rewrite lookup_insert_eq. simpl. by apply zero_page_word.
  - case_decide; [done|]. apply word_ram_eq. simpl. by rewrite lookup_insert_ne.
Qed.

Lemma add_table_kinv : kinv heap m' fl.
Proof.
  destruct add_table_fresh as (Hz & Hn & Hpz).
  destruct (pw_page _ _ _ _ _ _ W _ _ Hp) as (Hs & Hnin & _).
  apply kinv_set_word; [apply alloc_post_kinv; auto with rxos| |set_solver|].
  - simpl. by rewrite lookup_insert_ne.
  - by apply write_perm_table.
Qed.

Lemma add_table_wf : pt_wf heap huge m' fl root pos'.
Proof.
  destruct add_table_fresh as (Hz & Hn & Hpz). split.
  - unfold pos'. rewrite lookup_insert_ne; [apply W|]. intros ->.
    pose proof (pw_root _ _ _ _ _ _ W). congruence.
  - intros q x. unfold pos'. rewrite lookup_insert_Some.
    intros [[<- <-]|[Hne Hq]].
    + pose proof (kinv_free_page _ _ _ z K ltac:(set_solver)) as (_ & ? & _ & ?).
      pose proof (ki_nodup _ _ _ K) as [? _]%NoDup_cons.
      split_and!; [|done|done|].
      * apply set_word_dom. simpl. by rewrite lookup_insert_eq.
      * pose proof (pw_page _ _ _ _ _ _ W _ _ Hp) as (_ & _ & _ & ?). simpl in *. lia.
    + destruct (pw_page _ _ _ _ _ _ W _ _ Hq) as (? & ? & ? & ?).
      split_and!; [|set_solver|done|done].
      apply set_word_dom. simpl. by rewrite lookup_insert_ne.
  - intros q l' pre' j e Hq Hj He Hv. rewrite add_table_word in He by done.
    unfold pos' in Hq. rewrite lookup_insert_Some in Hq.
    destruct Hq as [[<- _]|[Hne Hq]].
    { rewrite decide_True in He by done. by injection He as <-. }
    rewrite decide_False in He by done. case_decide as E.
    + destruct E as [<- <-]. injection He as <-. left.
      destruct (write_perm_table z Hz) as (_ & ? & -> & _). split; [done|].
      unfold pos'. rewrite lookup_insert_eq. congruence.
    + destruct (pw_child _ _ _ _ _ _ W _ _ _ _ _ Hq Hj He Hv) as [[? Hc]|?]; [left|by right].
      split; [done|]. unfold pos'. rewrite lookup_insert_ne; [done|]. congruence.
Qed.

Lemma add_table_leaf_at l' q va pre' :
  pos !! q = Some (l', pre') → leaf_at l' m' q va = leaf_at l' m q va.
Proof.
  destruct add_table_fresh as (Hz & Hn & Hpz).
  destruct (write_perm_table z Hz) as (Hwv & Hwl & Hwp & _).
  revert q pre'. induction l' as [|l' IH]; intros q pre' Hq; unfold leaf_at; cbn [walk].
  - pose proof (page_num_range va 0 ltac:(lia)). simpl. rewrite add_table_word by done.
    rewrite decide_False by congruence. rewrite decide_False; [done|].
    intros [-> _]. congruence.
  - pose proof (page_num_range va (Z.of_nat (S l')) ltac:(lia)).
    rewrite add_table_word by done. rewrite decide_False by congruence.
    case_decide as E.
    + destruct E as [<- <-]. rewrite He0. simpl. rewrite Hwv, Hwl, Hwp, Hv0. simpl.
      destruct l' as [|l'']; cbn [walk].
      * pose proof (page_num_range va 0 ltac:(lia)). simpl.
        rewrite add_table_word, decide_True by done. done.
      * pose proof (page_num_range va (Z.of_nat (S l'')) ltac:(lia)).
        rewrite add_table_word, decide_True by done. done.
    + destruct (word m q _) as [e|] eqn:He; [|done]. simpl.
      destruct (is_valid e) eqn:Hv; [|done].
      destruct (pw_child _ _ _ _ _ _ W _ _ _ _ _ Hq ltac:(done) He Hv)
        as [[Hl Hc]|(Hl & _ & _)]; rewrite Hl.
      * by apply (IH _ _ Hc).
      * simpl. rewrite add_table_word, decide_False, decide_False by (done || congruence).
        done.
Qed.

Lemma add_table_grows : grows m (z :: fl) pos m' fl pos'.
Proof.
  destruct add_table_fresh as (Hz & Hn & Hpz). split.
  - by exists [z].
  - by apply insert_subseteq.
  - intros q. unfold pos'. destruct (decide (z = q)) as [->|]; [set_solver|].
    rewrite lookup_insert_ne by done. by left.
  - intros q. unfold m', add_table. rewrite set_word_dom. simpl.
    destruct (decide (z = q)) as [->|]; [|by rewrite lookup_insert_ne].
    rewrite lookup_insert_eq. split; [intros _|by eexists].
    by apply (kinv_free_page _ _ _ q K); set_solver.
  - intros q Hq Hnp. unfold m', add_table. rewrite set_word_ram_ne by congruence.
    simpl. rewrite lookup_insert_ne; [done|set_solver].
  - intros q Hq Hnq. unfold m', add_table. rewrite cnt_set_word. unfold alloc_post.
    rewrite cnt_insert by done. rewrite decide_False by set_solver. done.
Qed.
End add_table.

(** ** Setting a level-0 entry *)
Section set_leaf.
Context (heap : Z) (huge : bool) (root : Z).
Context (m : mem) (fl : list Z) (pos : gmap Z (nat * Z)) (p i pre e' : Z).
Context (K : kinv heap m fl) (W : pt_wf heap huge m fl root pos).
Context (Hp : pos !! p = Some (0%nat, pre)) (Hi : 0 ≤ i < 512) (He' : in_u 64 e').
Let m' := set_word m p i e'.

Lemma set_leaf_word q j :
  0 ≤ j < 512 → word m' q j = if decide (p = q ∧ i = j) then Some e' else word m q j.
Proof.
  intros Hj. destruct (pw_page _ _ _ _ _ _ W _ _ Hp) as (Hs & _).
  apply word_set_word; [apply K|done|done|lia].
Qed.

Lemma set_leaf_word_ne q j l pre' :
  0 ≤ j < 512 → pos !! q = Some (S l, pre') → word m' q j = word m q j.
Proof.
  intros Hj Hq. rewrite set_leaf_word by done. rewrite decide_False; [done|].
  intros [-> _]. congruence.
Qed.

Lemma set_leaf_kinv : kinv heap m' fl.
Proof.
  destruct (pw_page _ _ _ _ _ _ W _ _ Hp) as (? & ? & _). by apply kinv_set_word.
Qed.

Lemma set_leaf_wf : pt_wf heap huge m' fl root pos.
Proof.
  split; [apply W| |].
  - intros q x Hq. destruct (pw_page _ _ _ _ _ _ W _ _ Hq) as (? & ? & ? & ?).
    split_and!; [by apply set_word_dom|done..].
  - intros q l pre' j e Hq Hj He Hv. erewrite set_leaf_word_ne in He by done.
    by eapply (pw_child _ _ _ _ _ _ W).
Qed.

Lemma set_leaf_walk l q va pre' :
  pos !! q = Some (l, pre') → walk l m' q va = walk l m q va.
Proof.
  revert q pre'. induction l as [|l IH]; intros q pre' Hq; cbn [walk]; [done|].
  pose proof (page_num_range va (Z.of_nat (S l)) ltac:(lia)).
  erewrite set_leaf_word_ne by done.
  destruct (word m q _) as [e|] eqn:He; [|done]. simpl.
  destruct (is_valid e) eqn:Hv; [|done].
  destruct (pw_child _ _ _ _ _ _ W _ _ _ _ _ Hq ltac:(done) He Hv)
    as [[Hl Hc]|(Hl & _ & _)]; rewrite Hl; [|done].
  by apply (IH _ _ Hc).
Qed.

Lemma set_leaf_leaf_at va :
  0 ≤ va ≤ MAXVA →
  pte_at m' root va =
    if decide (walk 2 m root va = Some (p, i))
    then (if is_valid e' then Some e' else None) else pte_at m root va.
Proof.
  intros Hva. unfold pte_at, leaf_at. rewrite (set_leaf_walk 2 root va 0) by apply W.
  assert (pos !! root = Some (2%nat, vpre 2 va)) as Hr.
  { rewrite vpre_root by done. apply W. }
  destruct (walk 2 m root va) as [[q j]|] eqn:E; simpl; [|done].
  destruct (walk_pos heap huge root m fl pos 2 root va q j W Hr E) as [Hj _].
  rewrite set_leaf_word by done. destruct (decide (p = q ∧ i = j)) as [[-> ->]|N].
  - rewrite decide_True by done. done.
  - rewrite decide_False; [done|]. intros [= -> ->]. by apply N.
Qed.

Lemma set_leaf_grows : grows m fl pos m' fl pos.
Proof.
  split; [done|done|auto|apply set_word_dom| |done].
  intros q _ Hq. apply set_word_ram_ne. congruence.
Qed.
End set_leaf.

(** ** [translate] with allocation *)
Section translate_alloc.
Context (heap : Z) (huge : bool) (root : Z).
Implicit Types (m : mem) (fl : list Z) (pos : gmap Z (nat * Z)) (p q va e : Z) (l : nat).

Lemma grows_length m fl pos m' fl' pos' :
  grows m fl pos m' fl' pos' → (length fl' ≤ length fl)%nat.
Proof. intros G. apply suffix_length, G. Qed.

(** Valid entries of the table survive. *)
Definition keeps_valid (m : mem) (pos : gmap Z (nat * Z)) (m' : mem) : Prop :=
  ∀ q x j e, pos !! q = Some x → 0 ≤ j < 512 → word m q j = Some e →
    is_valid e = true → word m' q j = Some e.

(** Every valid entry was there before or points to a new table on the way to
    [va]. *)
Definition on_path (m : mem) (pos : gmap Z (nat * Z)) (m' : mem) (pos' : gmap Z (nat * Z)) (va : Z) : Prop :=
  ∀ q x j e, pos' !! q = Some x → 0 ≤ j < 512 → word m' q j = Some e → is_valid e = true →
    (pos !! q = Some x ∧ word m q j = Some e) ∨
    (∃ l, x = (S l, vpre (S l) va) ∧ j = page_num va (Z.of_nat (S l)) ∧ is_leaf e = false ∧
       pos !! as_pagetable e = None).

Lemma translate_loop_alloc l m fl pos q va levels :
  kinv heap m fl → pt_wf heap huge m fl root pos → pos !! q = Some (l, vpre l va) →
  levels = Z.of_nat <$> reverse (seq 1 l) → (l ≤ length fl)%nat →
  ∃ p i m' fl' pos',
    PageTable.translate_loop levels q va true m = Done (Some (PageTable.entry p i), m') ∧
    kinv heap m' fl' ∧ pt_wf heap huge m' fl' root pos' ∧ grows m fl pos m' fl' pos' ∧
    (length fl ≤ length fl' + l)%nat ∧ walk l m' q va = Some (p, i) ∧
    keeps_valid m pos m' ∧ on_path m pos m' pos' va ∧
    (∀ l0 q0 pre0 va0, pos !! q0 = Some (l0, pre0) →
       leaf_at l0 m' q0 va0 = leaf_at l0 m q0 va0).
Proof.
  revert m fl pos q levels. induction l as [|l IH];
    intros m fl pos q levels K W Hq -> Hfl.
  { eexists _, _, m, fl, pos. split_and!; [done..|apply grows_refl|lia|done|by red|by left|done]. }
  rewrite seq_S, reverse_snoc. change (1 + l)%nat with (S l).
  cbn [fmap list_fmap PageTable.translate_loop walk].
  destruct (pt_wf_page _ _ _ _ _ _ _ _ K W Hq) as ([Hal _] & Hs & _).
  pose proof (page_num_range va (Z.of_nat (S l)) ltac:(lia)) as Hr.
  set (j := page_num va (Z.of_nat (S l))) in *.
  destruct (word_is_Some m q j) as (e & He & Hu); [apply K|done|done|].
  erewrite bind_run; [|by apply word_run].
  destruct (is_valid e) eqn:Hv.
  - rewrite <- is_leaf_rwx. destruct (is_leaf e) eqn:Hl.
    { eexists _, _, m, fl, pos. split_and!; [done..|apply grows_refl|lia| |by red|by left|done].
      rewrite He. simpl. by rewrite Hv, Hl. }
    destruct (pw_child _ _ _ _ _ _ W _ _ _ _ _ Hq Hr He Hv) as [[_ Hc]|[? _]];
      [|congruence].
    destruct (IH m fl pos (as_pagetable e) (Z.of_nat <$> reverse (seq 1 l)))
      as (p & i & m' & fl' & pos' & E & K' & W' & G & Hlen & Hw & Hkeep & Hpath & Hleaf);
      [done|done|by rewrite Hc, (vpre_step l)|done|lia|].
    exists p, i, m', fl', pos'. split_and!; [done..|lia| |done|done|done].
    rewrite (Hkeep q _ j e) by done. simpl. by rewrite Hv, Hl.
  - destruct fl as [|z fl]; [simpl in Hfl; lia|]. cbn [negb].
    destruct (new_zeroed_run heap m z fl K) as [E0 K0].
    erewrite bind_run; [|exact E0].
    set (pos1 := <[z := (l, vpre (S l) va * 512 + j)]> pos).
    assert (kinv heap (add_table m fl q j z) fl) as K1 by (by eapply add_table_kinv).
    assert (pt_wf heap huge (add_table m fl q j z) fl root pos1) as W1 by
      (by eapply add_table_wf).
    assert (grows m (z :: fl) pos (add_table m fl q j z) fl pos1) as G1 by
      (by eapply add_table_grows).
    destruct (kinv_free_page _ _ _ z K) as (Hz & _); [set_solver|].
    assert (q ≠ z) as Hqz.
    { intros ->. destruct (pw_page _ _ _ _ _ _ W _ _ Hq) as (_ & ? & _). set_solver. }
    erewrite bind_run.
    2:{ apply set_word_run; [|done|done]. simpl. by rewrite lookup_insert_ne. }
    fold (add_table m fl q j z). set (m1 := add_table m fl q j z) in *.
    destruct (IH m1 fl pos1 z (Z.of_nat <$> reverse (seq 1 l)))
      as (p & i & m' & fl' & pos' & E & K' & W' & G & Hlen & Hw & Hkeep & Hpath & Hleaf);
      [done|done| |done|simpl in Hfl; lia|].
    { unfold pos1. by rewrite lookup_insert_eq, (vpre_step l). }
    assert (word m1 q j = Some (write_perm z 0)) as Hq1.
    { unfold m1. erewrite add_table_word by done.
      by rewrite decide_False, decide_True by done. }
    destruct (write_perm_table z Hz) as (Hwv & Hwl & Hwp & _).
    exists p, i, m', fl', pos'. split_and!; [done..| |simpl; lia| | | |].
    + by eapply grows_trans.
    + erewrite (Hkeep q _ j _) by (done || by unfold pos1; rewrite lookup_insert_ne).
      simpl. by rewrite Hwv, Hwl, Hwp.
    + intros q' x j' e' Hq' Hj' He' Hv'.
      assert (q' ≠ z).
      { intros ->. destruct (pw_page _ _ _ _ _ _ W _ _ Hq') as (_ & ? & _). set_solver. }
      apply (Hkeep q' x); [by unfold pos1; rewrite lookup_insert_ne|done| |done].
      unfold m1. erewrite add_table_word by done.
      rewrite decide_False by done. rewrite decide_False; [done|].
      intros [-> ->]. congruence.
    + intros q' x j' e' Hq' Hj' He' Hv'. destruct (Hpath q' x j' e' Hq' Hj' He' Hv')
        as [[Hq2 He2]|(l2 & ? & ? & ? & Hnew)].
      * unfold m1 in He2. erewrite add_table_word in He2 by done.
        destruct (decide (q' = z)) as [->|Hz']; [by injection He2 as <-|].
        unfold pos1 in Hq2. rewrite lookup_insert_ne in Hq2 by done.
        destruct (decide (q = q' ∧ j = j')) as [[<- <-]|]; [|by left]. injection He2 as <-.
        right. exists l. rewrite Hq in Hq2. injection Hq2 as <-. split_and!; [done..|].
        rewrite Hwp. destruct (pos !! z) eqn:Ez; [|done].
        destruct (pw_page _ _ _ _ _ _ W _ _ Ez) as (_ & ? & _). set_solver.
      * right. exists l2. split_and!; [done..|]. unfold pos1 in Hnew.
        by apply lookup_insert_None in Hnew as [? _].
    + intros l0 q0 pre0 va0 Hq0. rewrite (Hleaf l0 q0 pre0).
      * by eapply add_table_leaf_at.
      * unfold pos1. rewrite lookup_insert_ne; [done|]. intros ->.
        destruct (pw_page _ _ _ _ _ _ W _ _ Hq0) as (_ & ? & _). set_solver.
Qed.

(** [translate] with allocation and at least two free pages finds an entry
    for [va]; no mapping changes. *)
Lemma translate_alloc m fl pos va :
  kinv heap m fl → pt_wf heap huge m fl root pos → 0 ≤ va ≤ MAXVA →
  (2 ≤ length fl)%nat →
  ∃ p i m' fl' pos',
    PageTable.translate root va true m = Done (Some (PageTable.entry p i), m') ∧
    kinv heap m' fl' ∧ pt_wf heap huge m' fl' root pos' ∧ grows m fl pos m' fl' pos' ∧
    (length fl ≤ length fl' + 2)%nat ∧ walk 2 m' root va = Some (p, i) ∧
    (∀ va', pte_at m' root va' = pte_at m root va').
Proof.
  intros K W Hva Hfl. unfold PageTable.translate.
  rewrite (proj2 (Z.ltb_ge _ _)) by lia.
  destruct (translate_loop_alloc 2 m fl pos root va [2; 1])
    as (p & i & m' & fl' & pos' & E & K' & W' & G & Hlen & Hw & _ & _ & Hleaf);
    [done|done|rewrite vpre_root by done; apply W|done|done|].
  exists p, i, m', fl', pos'. split_and!; [done..|].
  intros va'. eapply Hleaf, W.
Qed.
End translate_alloc.
