(* ===== verification/MapFacts.v ===== *)
(** * Mapping and unmapping user memory

    What [map], [uunmap], [ualloc] and [udealloc] of
    [memory/mapping/pagetable.rs] do to an address space, on tables without
    huge pages (every user table). *)
From S2P Require Import Prelude Layout Pte Kalloc PageTable PageTableFacts.
Import Addr PageTableEntry.

(** [va'] lies in the run of [n] pages that starts at [va]. *)
Definition in_run (va n va' : Z) : Prop := va / PGSIZE ≤ va' / PGSIZE < va / PGSIZE + n.
#[global] Instance in_run_dec va n va' : Decision (in_run va n va').
Proof. unfold in_run. apply _. Defined.

Section map.
Context (heap root : Z).
Implicit Types (m : mem) (fl : list Z) (pos : gmap Z (nat * Z)) (p q va pa e : Z) (n : nat).
Abbreviation wf := (pt_wf heap false).

(** The entry found at a place the walk reaches. *)
Lemma pte_at_word m fl pos va p i :
  kinv heap m fl → wf m fl root pos → 0 ≤ va ≤ MAXVA → walk 2 m root va = Some (p, i) →
  0 ≤ i < 512 ∧ is_page p ∧ is_Some (ram m !! p) ∧ pos !! p = Some (0%nat, vpre 0 va) ∧
  ∃ e, word m p i = Some e ∧ in_u 64 e ∧
    pte_at m root va = if is_valid e then Some e else None.
Proof.
  intros K W Hva Hw.
  destruct (walk_pos_user _ _ _ _ _ _ _ _ _ eq_refl W Hva Hw) as [Hp Hi].
  assert (0 ≤ i < 512) by (subst; apply page_num_range; lia).
  destruct (pt_wf_page _ _ _ _ _ _ _ _ K W Hp) as (? & ? & _).
  split_and!; [lia|lia|done..|].
  destruct (word_is_Some m p i) as (e & He & Hu); [apply K|done|done|].
  exists e. split_and!; [done..|]. unfold pte_at, leaf_at. rewrite Hw. simpl.
  by rewrite He.
Qed.

(** A mapped address: where its entry lies, and that [translate] finds it. *)
Lemma pte_at_inv m fl pos va e :
  kinv heap m fl → wf m fl root pos → 0 ≤ va ≤ MAXVA → pte_at m root va = Some e →
  ∃ p i, walk 2 m root va = Some (p, i) ∧ word m p i = Some e ∧ in_u 64 e ∧
    is_valid e = true ∧ 0 ≤ i < 512 ∧ is_Some (ram m !! p) ∧ p mod PGSIZE = 0 ∧
    pos !! p = Some (0%nat, vpre 0 va) ∧
    PageTable.translate root va false m = Done (Some (PageTable.entry p i), m) ∧
    read_word (PageTable.entry p i) m = Done (e, m).
Proof.
  intros K W Hva Hpte. pose proof (translate_walk heap false root m fl pos va K W Hva) as E.
  destruct (walk 2 m root va) as [[p i]|] eqn:Hw.
  2:{ unfold pte_at, leaf_at in Hpte. by rewrite Hw in Hpte. }
  destruct (pte_at_word m fl pos va p i) as (Hi & [Hpal _] & Hs & Hpp & e' & He & Hu & Hpte');
    [done..|].
  rewrite Hpte in Hpte'. destruct (is_valid e') eqn:Hv; [|done]. injection Hpte' as <-.
  exists p, i. split_and!; try done || lia. by apply word_run.
Qed.

Lemma map_loop_run n m fl pos va pa perm :
  kinv heap m fl → wf m fl root pos → perm_ok perm →
  va mod PGSIZE = 0 → 0 ≤ va → va + (Z.of_nat n - 1) * PGSIZE ≤ MAXVA →
  pa mod PGSIZE = 0 → 0 ≤ pa → pa + Z.of_nat n * PGSIZE ≤ 2 ^ 56 →
  (∀ k, 0 ≤ k < Z.of_nat n → pte_at m root (va + k * PGSIZE) = None) →
  (2 * n ≤ length fl)%nat →
  ∃ m' fl' pos',
    PageTable.map_loop n root va pa (va + Z.of_nat n * PGSIZE) perm m = Done (true, m') ∧
    kinv heap m' fl' ∧ wf m' fl' root pos' ∧ grows m fl pos m' fl' pos' ∧
    (length fl ≤ length fl' + 2 * n)%nat ∧
    ∀ va', 0 ≤ va' ≤ MAXVA → pte_at m' root va' =
      if decide (in_run va (Z.of_nat n) va')
      then Some (write_perm (pa + (va' / PGSIZE - va / PGSIZE) * PGSIZE) perm)
      else pte_at m root va'.
Proof.
  revert m fl pos va pa. induction n as [|n IH];
    intros m fl pos va pa K W Hperm Hva H0 Hmax Hpa Hpa0 Hpa1 Hnone Hfl.
  { exists m, fl, pos. split_and!; [|done|done|apply grows_refl|lia|].
    - simpl. by rewrite (proj2 (Z.eqb_eq _ _)) by lia.
    - intros va' _. rewrite decide_False; [done|]. unfold in_run. lia. }
  cbn [PageTable.map_loop].
  rewrite (proj2 (Z.eqb_neq _ _)) by layout_lia.
  destruct (translate_alloc heap false root m fl pos va)
    as (p & i & m1 & fl1 & pos1 & E & K1 & W1 & G1 & Hlen1 & Hw & Hpte);
    [done|done|layout_lia|lia|].
  mstep E.
  destruct (pte_at_word m1 fl1 pos1 va p i)
    as (Hi & [Hal _] & Hs & Hpp & e & He & _ & Hva1); [done|done|layout_lia|done|].
  assert (is_valid e = false) as Hinv.
  { rewrite Hpte in Hva1. specialize (Hnone 0). rewrite Z.mul_0_l, Z.add_0_r in Hnone.
    rewrite Hnone in Hva1 by lia. by destruct (is_valid e). }
  mstep (word_run _ _ _ _ He Hal Hi). rewrite Hinv.
  mstep (set_word_run m1 p i (write_perm pa perm) Hs Hal Hi).
  assert (pa_ok pa) as Hpaok by (split; [done|layout_lia]).
  pose proof (write_perm_in_u pa perm Hpaok Hperm) as Hu.
  pose proof (write_perm_valid pa perm Hpaok Hperm) as Hv.
  set (m2 := set_word m1 p i (write_perm pa perm)).
  assert (kinv heap m2 fl1) as K2 by (by eapply set_leaf_kinv).
  assert (wf m2 fl1 root pos1) as W2 by (by eapply set_leaf_wf).
  assert (grows m1 fl1 pos1 m2 fl1 pos1) as G2 by (by eapply set_leaf_grows).
  assert (∀ va', 0 ≤ va' ≤ MAXVA → pte_at m2 root va' =
    if decide (va / PGSIZE = va' / PGSIZE) then Some (write_perm pa perm)
    else pte_at m root va') as Hpte2.
  { intros va' Hva'. unfold m2.
    erewrite set_leaf_leaf_at by done. rewrite Hv, Hpte.
    destruct (decide (va / PGSIZE = va' / PGSIZE)) as [Heq|Hne].
    - rewrite decide_True; [done|]. by rewrite <- (walk_vpn 2 m1 root va va').
    - rewrite decide_False; [done|]. intros Hw'. apply Hne.
      eapply (walk_same heap false root m1 fl1 pos1 va va' p i); try done. layout_lia. }
  unfold add_page. rewrite !bind_uadd by layout_lia.
  destruct (IH m2 fl1 pos1 (va + PGSIZE) (pa + PGSIZE))
    as (m' & fl' & pos' & E' & K' & W' & G' & Hlen' & Hpte');
    [done|done|done| |layout_lia|layout_lia| |layout_lia|layout_lia| |lia|].
  { rewrite Z.add_mod, Hva by layout_lia. done. }
  { rewrite Z.add_mod, Hpa by layout_lia. done. }
  { intros k Hk. rewrite Hpte2 by layout_lia. rewrite decide_False.
    - specialize (Hnone (k + 1)).
      replace (va + (k + 1) * PGSIZE) with (va + PGSIZE + k * PGSIZE) in Hnone by lia.
      apply Hnone. lia.
    - replace (va + PGSIZE + k * PGSIZE) with (va + (k + 1) * PGSIZE) by lia.
      rewrite page_div by done. lia. }
  exists m', fl', pos'. split_and!; [|done|done| |lia|].
  - rewrite <- E'. f_equal. lia.
  - eapply grows_trans; [done|]. by eapply grows_trans.
  - intros va' Hva'. rewrite Hpte', Hpte2 by done. unfold in_run.
    assert ((va + PGSIZE) / PGSIZE = va / PGSIZE + 1) as Hd.
    { replace (va + PGSIZE) with (va + 1 * PGSIZE) by lia. by rewrite page_div. }
    repeat case_decide; try lia; try done.
    + do 2 f_equal. rewrite Hd. unfold PGSIZE. lia.
    + do 2 f_equal. replace (va' / PGSIZE - va / PGSIZE) with 0 by lia. lia.
Qed.

(** The number of pages [map] maps for a byte range. *)
Definition run_pages (va size : Z) : Z :=
  (va + size + PGSIZE - 1) / PGSIZE - va / PGSIZE.

Lemma map_run m fl pos va pa size perm :
  let n := run_pages va size in
  kinv heap m fl → wf m fl root pos → perm_ok perm →
  0 ≤ va → 0 ≤ size → (va / PGSIZE + n - 1) * PGSIZE ≤ MAXVA →
  pa mod PGSIZE = 0 → 0 ≤ pa → pa + n * PGSIZE ≤ 2 ^ 56 →
  (∀ k, 0 ≤ k < n → pte_at m root ((va / PGSIZE + k) * PGSIZE) = None) →
  2 * n ≤ Z.of_nat (length fl) →
  ∃ m' fl' pos',
    PageTable.map root va pa size perm m = Done (true, m') ∧
    kinv heap m' fl' ∧ wf m' fl' root pos' ∧ grows m fl pos m' fl' pos' ∧
    Z.of_nat (length fl) ≤ Z.of_nat (length fl') + 2 * n ∧
    ∀ va', 0 ≤ va' ≤ MAXVA → pte_at m' root va' =
      if decide (in_run va n va')
      then Some (write_perm (pa + (va' / PGSIZE - va / PGSIZE) * PGSIZE) perm)
      else pte_at m root va'.
Proof.
  intros n K W Hperm Hva Hsz Hmax Hpa Hpa0 Hpa1 Hnone Hfl.
  assert (0 ≤ n) as Hn.
  { unfold n, run_pages. enough (va / PGSIZE ≤ (va + size + PGSIZE - 1) / PGSIZE) by lia.
    apply Z.div_le_mono; layout_lia. }
  set (va0 := va / PGSIZE * PGSIZE).
  assert (va0 = va - va mod PGSIZE) as Hva0.
  { unfold va0. pose proof (Z.div_mod va PGSIZE). layout_lia. }
  assert (0 ≤ va mod PGSIZE < PGSIZE) by (apply Z.mod_pos_bound; layout_lia).
  assert (va0 mod PGSIZE = 0) as Hal0 by (apply Z.mod_mul; layout_lia).
  assert (va0 / PGSIZE = va / PGSIZE) as Hdiv by (apply Z.div_mul; layout_lia).
  assert (va + size + PGSIZE - 1 - (va + size + PGSIZE - 1) mod PGSIZE = va0 + n * PGSIZE)
    as Hlast.
  { unfold va0, n, run_pages. pose proof (Z.div_mod (va + size + PGSIZE - 1) PGSIZE).
    layout_lia. }
  assert (0 ≤ (va + size + PGSIZE - 1) mod PGSIZE < PGSIZE) by
    (apply Z.mod_pos_bound; layout_lia).
  assert (va0 + n * PGSIZE ≤ MAXVA + PGSIZE) by (unfold va0; lia).
  unfold PageTable.map. rewrite bind_uadd by layout_lia.
  rewrite pg_round_down_eq by (unfold in_u; layout_lia). rewrite <- Hva0.
  mstep (pg_round_up_run (va + size) m ltac:(lia) ltac:(layout_lia)). rewrite Hlast.
  replace ((va0 + n * PGSIZE - va0) / PGSIZE) with n.
  2:{ by rewrite Z.add_simpl_l, Z.div_mul. }
  destruct (map_loop_run (Z.to_nat n) m fl pos va0 pa perm)
    as (m' & fl' & pos' & E & K' & W' & G & Hlen & Hpte);
    rewrite ?Z2Nat.id by done; [done|done|done|done|unfold va0; layout_lia| |done|done|done| |lia|].
  - unfold va0. lia.
  - intros k Hk. replace (va0 + k * PGSIZE) with ((va / PGSIZE + k) * PGSIZE) by lia.
    apply Hnone. lia.
  - exists m', fl', pos'. rewrite Z2Nat.id in * by done.
    split_and!; [done..|lia|]. intros va' Hva'. rewrite Hpte by done.
    assert (in_run va0 n va' ↔ in_run va n va') by (unfold in_run; by rewrite Hdiv).
    rewrite Hdiv. repeat case_decide; done || naive_solver.
Qed.

(** ** Unmapping *)

(** A table is unaffected by changes to pages outside it. *)
Lemma pt_frame m fl pos m' fl' :
  wf m fl root pos →
  (∀ p x, pos !! p = Some x → ram m' !! p = ram m !! p ∧ p ∉ fl') →
  wf m' fl' root pos ∧
  (∀ va, walk 2 m' root va = walk 2 m root va) ∧
  (∀ va, 0 ≤ va ≤ MAXVA → pte_at m' root va = pte_at m root va).
Proof. apply pt_frame_gen. Qed.

(** The test for an interior entry in [uunmap] never fires: the complement
    of ten flag bits has the bits above them set. *)
Lemma not_a_leaf_dead e : (unot 64 (as_flags e) =? PTE_V) = false.
Proof.
  apply Z.eqb_neq. intros E. apply (f_equal (λ z, Z.testbit z 63)) in E.
  revert E. unfold unot, as_flags. rewrite Z.ldiff_spec, Z.land_spec.
  change (Z.testbit 0x3FF 63) with false. rewrite andb_false_r. by vm_compute.
Qed.

(** A page of data: on the heap, referenced, not part of the table. *)
Definition data_page m pos (p : Z) : Prop :=
  is_Some (ram m !! p) ∧ heap ≤ p ∧ 1 ≤ cnt m p ∧ pos !! p = None.

(** One reference to each page of [pas] has been given up; the table and every
    other page keep their contents apart from the table's own words. *)
Record released (m : mem) (pos : gmap Z (nat * Z)) (pas : list Z) (m' : mem) : Prop := {
  rel_dom : ∀ q, is_Some (ram m' !! q) ↔ is_Some (ram m !! q);
  rel_ram : ∀ q, pos !! q = None → q ∉ pas → ram m' !! q = ram m !! q;
  rel_shared : ∀ q, q ∈ pas → pos !! q = None → cnt m q ≠ 1 → ram m' !! q = ram m !! q;
  rel_cnt : ∀ q, is_page q →
    cnt m' q = if decide (q ∈ pas) then cnt m q - 1 else cnt m q
}.

Lemma released_nil m pos : released m pos [] m.
Proof. split; [done|done|done|]. intros q _. by rewrite decide_False by set_solver. Qed.

Lemma released_cons m pos pa m1 pas m2 :
  pa ∉ pas → (∀ q, q ∈ pas → is_page q) →
  released m pos [pa] m1 → released m1 pos pas m2 → released m pos (pa :: pas) m2.
Proof.
  intros Hnin Hpg R1 R2. split.
  - intros q. rewrite (rel_dom _ _ _ _ R2). apply R1.
  - intros q Hq Hn. rewrite (rel_ram _ _ _ _ R2) by set_solver. apply (rel_ram _ _ _ _ R1); done || set_solver.
  - intros q Hq Hn Hc. destruct (decide (q = pa)) as [->|].
    + rewrite (rel_ram _ _ _ _ R2) by set_solver. apply (rel_shared _ _ _ _ R1); done || set_solver.
    + assert (q ∈ pas) as Hq' by set_solver.
      rewrite (rel_shared _ _ _ _ R2); [apply (rel_ram _ _ _ _ R1); done || set_solver|done..|].
      rewrite (rel_cnt _ _ _ _ R1) by auto. rewrite decide_False by set_solver. done.
  - intros q Hq. rewrite (rel_cnt _ _ _ _ R2), (rel_cnt _ _ _ _ R1) by done.
    repeat case_decide; done || (exfalso; set_solver).
Qed.

(** Giving up a data page leaves the table alone. *)
Lemma drop_data m fl pos pa :
  kinv heap m fl → wf m fl root pos → data_page m pos pa →
  ∃ m' fl', drop_page pa m = Done (tt, m') ∧
    kinv heap m' fl' ∧ wf m' fl' root pos ∧ released m pos [pa] m' ∧
    (∀ va, walk 2 m' root va = walk 2 m root va) ∧
    (∀ va, 0 ≤ va ≤ MAXVA → pte_at m' root va = pte_at m root va).
Proof.
  intros K W ([ws Hws] & Hh & Hc & Hnp).
  pose proof (ki_count _ _ _ K pa ltac:(by eexists) Hh) as Hcu.
  assert (is_page pa) as Hpg by (by eapply kinv_page; [|eexists]).
  pose proof (dealloc_post_kinv heap m fl pa ws K Hws Hh Hc) as K1.
  assert (∀ q, (is_Some (ram (dealloc_post m pa ws) !! q) ↔ is_Some (ram m !! q)) ∧
    (q ≠ pa ∨ cnt m pa ≠ 1 → ram (dealloc_post m pa ws) !! q = ram m !! q)) as Hram.
  { intros q. unfold dealloc_post. destruct (Z.eqb_spec (cnt m pa) 1); simpl; [|done].
    destruct (decide (q = pa)) as [->|]; [|by rewrite lookup_insert_ne by congruence].
    rewrite lookup_insert_eq, Hws. split; [by split; eexists|by intros [?|?]]. }
  destruct (pt_frame m fl pos (dealloc_post m pa ws) (dealloc_fl m pa fl) W) as (W1 & ? & ?).
  { intros q x Hq. split; [apply Hram; left; congruence|].
    destruct (pw_page _ _ _ _ _ _ W _ _ Hq) as (_ & Hfl & _). unfold dealloc_fl.
    case_match; [|done]. intros [->|?]%elem_of_cons; congruence. }
  exists (dealloc_post m pa ws), (dealloc_fl m pa fl).
  split_and!; [eapply dealloc_run; by (done || lia)|done|done| |done|done]. split.
  - intros q. apply Hram.
  - intros q _ Hn. apply Hram. left. set_solver.
  - intros q Hq _ Hcq. apply Hram. right. set_solver.
  - intros q Hq. unfold dealloc_post.
    rewrite (decide_ext (q ∈ [pa]) (pa = q)) by (rewrite list_elem_of_singleton; done).
    destruct (Z.eqb_spec (cnt m pa) 1);
      rewrite cnt_insert by done; case_decide; subst; lia.
Qed.

(** One iteration of [uunmap] with [free]. *)
Lemma uunmap_step m fl pos va p i e :
  let pa := as_pagetable e in
  kinv heap m fl → wf m fl root pos → 0 ≤ va ≤ MAXVA →
  walk 2 m root va = Some (p, i) → data_page m pos pa →
  ∃ m' fl',
    (drop_page pa ;; write_word (PageTable.entry p i) 0) m = Done (tt, m') ∧
    kinv heap m' fl' ∧ wf m' fl' root pos ∧ released m pos [pa] m' ∧
    ∀ va', 0 ≤ va' ≤ MAXVA → pte_at m' root va' =
      if decide (va / PGSIZE = va' / PGSIZE) then None else pte_at m root va'.
Proof.
  intros pa K W Hva Hw D.
  destruct (drop_data m fl pos pa) as (m1 & fl1 & E & K1 & W1 & [Hd Hr Hsh Hc] & Hw1 & Hpte1);
    [done..|].
  mstep E. rewrite <- Hw1 in Hw.
  destruct (pte_at_word m1 fl1 pos va p i) as (Hi & [Hal _] & Hs & Hpp & _); [done..|].
  rewrite set_word_run by done.
  assert (in_u 64 0) by (unfold in_u; lia).
  exists (set_word m1 p i 0), fl1. split_and!; [done| | | |].
  - by eapply set_leaf_kinv.
  - by eapply set_leaf_wf.
  - split.
    + intros q. by rewrite set_word_dom.
    + intros q Hq Hn. rewrite set_word_ram_ne by congruence. by apply Hr.
    + intros q Hq Hn Hcq. rewrite set_word_ram_ne by congruence. by apply Hsh.
    + intros q Hq. by rewrite cnt_set_word, Hc.
  - intros va' Hva'. erewrite set_leaf_leaf_at by done. rewrite Hpte1 by done.
    destruct (decide (va / PGSIZE = va' / PGSIZE)) as [Heq|Hne].
    + rewrite decide_True; [done|]. by rewrite <- (walk_vpn 2 m1 root va va').
    + rewrite decide_False; [done|]. intros Hw'. apply Hne.
      by eapply (walk_same heap false root m1 fl1 pos va va' p i).
Qed.

(** Virtual page [va + k * PGSIZE] is mapped to the data page [pas !! k]. *)
Definition maps_run m pos (va : Z) (pas : list Z) : Prop :=
  ∀ k pa, pas !! k = Some pa → data_page m pos pa ∧
    ∃ e, pte_at m root (va + Z.of_nat k * PGSIZE) = Some e ∧ as_pagetable e = pa.

Lemma uunmap_loop_run pas m fl pos va :
  kinv heap m fl → wf m fl root pos →
  va mod PGSIZE = 0 → 0 ≤ va → va + (Z.of_nat (length pas) - 1) * PGSIZE ≤ MAXVA →
  NoDup pas → maps_run m pos va pas →
  ∃ m' fl',
    PageTable.uunmap_loop (length pas) root va true m = Done (tt, m') ∧
    kinv heap m' fl' ∧ wf m' fl' root pos ∧ released m pos pas m' ∧
    ∀ va', 0 ≤ va' ≤ MAXVA → pte_at m' root va' =
      if decide (in_run va (Z.of_nat (length pas)) va') then None else pte_at m root va'.
Proof.
  revert m fl va. induction pas as [|pa pas IH]; intros m fl va K W Hal H0 Hmax Hnd Hrun.
  { exists m, fl. split_and!; [done..| |].
    - apply released_nil.
    - intros va' _. rewrite decide_False; [done|]. unfold in_run. simpl. lia. }
  cbn [length PageTable.uunmap_loop] in *. apply NoDup_cons in Hnd as [Hnin Hnd].
  assert (0 ≤ va ≤ MAXVA) as Hva by layout_lia.
  destruct (Hrun 0%nat pa eq_refl) as (D & e & Hpte & Hpa).
  rewrite Z.mul_0_l, Z.add_0_r in Hpte.
  destruct (pte_at_inv m fl pos va e)
    as (p & i & Hw & He & _ & Hv & Hi & Hs & Hpal & Hpp & Et & Er); [done..|].
  mstep Et. cbv beta iota. mstep Er.
  rewrite Hv, not_a_leaf_dead. cbn [negb].
  rewrite <- Hpa in D.
  destruct (uunmap_step m fl pos va p i e) as (m1 & fl1 & E1 & K1 & W1 & R1 & Hpte1); [done..|].
  mstep E1. unfold add_page. rewrite bind_uadd by layout_lia.
  rewrite Hpa in *.
  assert (∀ k, (va + PGSIZE + k * PGSIZE) / PGSIZE = va / PGSIZE + (k + 1)) as Hdiv.
  { intros k. replace (va + PGSIZE + k * PGSIZE) with (va + (k + 1) * PGSIZE) by lia.
    by rewrite page_div. }
  destruct (IH m1 fl1 (va + PGSIZE)) as (m' & fl' & E' & K' & W' & R' & Hpte');
    [done|done| |layout_lia|layout_lia|done| |].
  { rewrite Z.add_mod, Hal by layout_lia. done. }
  { intros k pa' Hk. assert (pa' ∈ pas) as Hin by (by eapply list_elem_of_lookup_2).
    apply lookup_lt_Some in Hk as Hlt.
    destruct (Hrun (S k) pa' Hk) as (([? ?] & ? & ? & ?) & e' & He' & Hpa').
    replace (va + Z.of_nat (S k) * PGSIZE) with (va + PGSIZE + Z.of_nat k * PGSIZE) in He' by lia.
    assert (is_page pa') by (eapply kinv_page; [exact K|by eexists]).
    split.
    - split_and!; [apply R1; by eexists|done| |done].
      rewrite (rel_cnt _ _ _ _ R1) by done. rewrite decide_False; [done|].
      by intros ->%list_elem_of_singleton.
    - exists e'. split; [|done]. rewrite Hpte1 by layout_lia.
      rewrite decide_False; [done|]. rewrite Hdiv. lia. }
  exists m', fl'. split_and!; [done..| |].
  - eapply released_cons; [done| |done|done]. intros q [k Hk]%list_elem_of_lookup.
    destruct (Hrun (S k) q Hk) as ((? & _) & _). exact (kinv_page heap m fl q K ltac:(done)).
  - intros va' Hva'. rewrite Hpte', Hpte1 by done.
    specialize (Hdiv 0). rewrite Z.mul_0_l, Z.add_0_r in Hdiv.
    unfold in_run. repeat case_decide; try done; lia.
Qed.

(** ** Allocating user memory *)
Definition RWXU : Z := Z.lor (Z.lor (Z.lor PTE_W PTE_R) PTE_X) PTE_U.

Lemma run_pages_one va : va mod PGSIZE = 0 → run_pages va PGSIZE = 1.
Proof.
  intros Hva. unfold run_pages.
  assert (va + PGSIZE + PGSIZE - 1 = 1 * PGSIZE + va + (PGSIZE - 1)) as -> by lia.
  rewrite (Z.div_mod va PGSIZE) at 1 by layout_lia. rewrite Hva.
  rewrite Z.add_0_r, (Z.mul_comm PGSIZE), <- Z.mul_add_distr_r.
  rewrite Z.div_add_l by layout_lia. rewrite (Z.div_small (PGSIZE - 1)) by layout_lia. lia.
Qed.

Lemma new_zeroed_grows {huge} m z fl pos :
  kinv heap m (z :: fl) → pt_wf heap huge m (z :: fl) root pos →
  let m1 := alloc_post m z zero_page fl in
  new_zeroed m = Done (z, m1) ∧ kinv heap m1 fl ∧ pt_wf heap huge m1 fl root pos ∧
  grows m (z :: fl) pos m1 fl pos ∧ data_page m1 pos z ∧ (z ∉ fl) ∧
  cnt m1 z = 1 ∧ ram m1 !! z = Some zero_page ∧
  ∀ va, 0 ≤ va ≤ MAXVA → pte_at m1 root va = pte_at m root va.
Proof.
  intros K W m1. destruct (new_zeroed_run heap m z fl K) as [E K1].
  destruct (kinv_free_page _ _ _ z K) as (Hz & Hh & _ & Hs); [set_solver|].
  pose proof (ki_nodup _ _ _ K) as [Hnin _]%NoDup_cons.
  assert (pos !! z = None) as Hn.
  { destruct (pos !! z) as [x|] eqn:Ez; [|done].
    destruct (pw_page _ _ _ _ _ _ W _ _ Ez) as (_ & H & _). set_solver. }
  assert (ram m1 !! z = Some zero_page) as Hrz by apply lookup_insert_eq.
  assert (∀ q, q ≠ z → ram m1 !! q = ram m !! q) as Hrn.
  { intros q Hq. by apply lookup_insert_ne. }
  assert (∀ q, is_page q → cnt m1 q = if decide (z = q) then 1 else cnt m q) as Hc.
  { intros q Hq. by apply cnt_insert. }
  destruct (pt_frame_gen heap huge root m (z :: fl) pos m1 fl W) as (W1 & _ & Hpte).
  { intros q x Hq. split; [apply Hrn; congruence|].
    destruct (pw_page _ _ _ _ _ _ W _ _ Hq) as (_ & H & _). set_solver. }
  split_and!; [done..| | |done| |done|done].
  - split; [by exists [z]|done|auto| | |].
    + intros q. destruct (decide (q = z)) as [->|]; [|by rewrite Hrn].
      rewrite Hrz. by split; [|eexists].
    + intros q Hq _. apply Hrn. set_solver.
    + intros q Hq Hf. rewrite Hc, decide_False by (done || set_solver). done.
  - split_and!; [by eexists|done| |done]. rewrite Hc, decide_True by done. lia.
  - by rewrite Hc, decide_True.
Qed.

(** Pages outside the free list and the table stay outside. *)
Lemma grows_outside m fl pos m' fl' pos' z :
  grows m fl pos m' fl' pos' → z ∉ fl → pos !! z = None →
  (z ∉ fl') ∧ pos' !! z = None ∧ ram m' !! z = ram m !! z.
Proof.
  intros G Hf Hn. split_and!.
  - intros Hz. destruct (gr_fl _ _ _ _ _ _ G) as [k ->]. set_solver.
  - destruct (pos' !! z) eqn:E; [|done].
    destruct (gr_new _ _ _ _ _ _ G z) as [[? ?]|?]; [by eexists|congruence|done].
  - by apply G.
Qed.

(** Fresh pages: taken from the free list, zeroed, owned once. *)
Definition fresh_pages fl m' fl' pos' (pas : list Z) : Prop :=
  NoDup pas ∧ ∀ p, p ∈ pas →
    p ∈ fl ∧ (p ∉ fl') ∧ data_page m' pos' p ∧ cnt m' p = 1 ∧ ram m' !! p = Some zero_page.

Lemma fresh_cons fl fl2 m' fl' pos' z pas :
  z ∉ fl → z ∉ fl2 → z ∉ fl' → pos' !! z = None → is_page z →
  ram m' !! z = Some zero_page → cnt m' z = 1 → heap ≤ z →
  (∀ q, q ∈ fl2 → q ∈ fl) → fresh_pages fl2 m' fl' pos' pas →
  fresh_pages (z :: fl) m' fl' pos' (z :: pas).
Proof.
  intros Hf Hf2 Hf' Hp Hz Hr Hc Hh Hsub [Hnd Hpas]. split.
  - constructor; [|done]. intros (? & _)%Hpas. done.
  - intros q [->|Hq]%elem_of_cons.
    + split_and!; [set_solver|done| |done|done]. split_and!; [by eexists|done|lia|done].
    + destruct (Hpas q Hq) as (? & ? & ? & ? & ?). split_and!; [set_solver|done..].
Qed.

(** Fresh pages stay fresh while the table grows. *)
Lemma fresh_grows fl m1 fl1 pos1 m2 fl2 pos2 pas :
  kinv heap m1 fl1 → fresh_pages fl m1 fl1 pos1 pas → grows m1 fl1 pos1 m2 fl2 pos2 → fresh_pages fl m2 fl2 pos2 pas.
Proof.
  intros K [Hnd Hpas] G. split; [done|]. intros p Hp.
  destruct (Hpas p Hp) as (? & Hf & (Hs & Hh & Hc & Hn) & Hc1 & Hr).
  destruct (grows_outside _ _ _ _ _ _ p G Hf Hn) as (Hf2 & Hn2 & Hr2).
  assert (is_page p) by (by eapply kinv_page).
  assert (cnt m2 p = cnt m1 p) as Hc2 by (by apply G).
  split_and!; [done|done| |by rewrite Hc2|by rewrite Hr2].
  split_and!; [by rewrite Hr2|done|by rewrite Hc2|done].
Qed.
Lemma fresh_app fl fl1 m fl2 pos2 pas pas2 :
  fl1 `suffix_of` fl → (∀ p, p ∈ pas → p ∉ fl1) → fresh_pages fl m fl2 pos2 pas →
  fresh_pages fl1 m fl2 pos2 pas2 → fresh_pages fl m fl2 pos2 (pas ++ pas2).
Proof.
  intros [k ->] Hout [Hnd Hpas] [Hnd2 Hpas2]. split.
  - apply NoDup_app. split_and!; [done| |done]. intros p Hp Hp2. destruct (Hpas2 p Hp2) as (? & _). by eapply Hout.
  - intros p [Hp|Hp]%elem_of_app; [by apply Hpas|]. destruct (Hpas2 p Hp) as (? & ?). split; [set_solver|done].
Qed.

Lemma page_next va k :
  va mod PGSIZE = 0 → (va + PGSIZE + k * PGSIZE) / PGSIZE = va / PGSIZE + (k + 1).
Proof.
  intros. replace (va + PGSIZE + k * PGSIZE) with (va + (k + 1) * PGSIZE) by lia.
  by rewrite page_div.
Qed.

Lemma ualloc_loop_run n m fl pos va old :
  kinv heap m fl → wf m fl root pos →
  va mod PGSIZE = 0 → 0 ≤ va → va + (Z.of_nat n - 1) * PGSIZE ≤ MAXVA →
  (∀ k, 0 ≤ k < Z.of_nat n → pte_at m root (va + k * PGSIZE) = None) →
  (3 * n ≤ length fl)%nat →
  ∃ m' fl' pos' pas,
    PageTable.ualloc_loop n root va old m = Done (true, m') ∧
    kinv heap m' fl' ∧ wf m' fl' root pos' ∧ grows m fl pos m' fl' pos' ∧
    (length fl ≤ length fl' + 3 * n)%nat ∧
    length pas = n ∧ fresh_pages fl m' fl' pos' pas ∧
    ∀ va', 0 ≤ va' ≤ MAXVA → pte_at m' root va' =
      if decide (in_run va (Z.of_nat n) va')
      then (λ pa, write_perm pa RWXU) <$> pas !! Z.to_nat (va' / PGSIZE - va / PGSIZE)
      else pte_at m root va'.
Proof.
  revert m fl pos va. induction n as [|n IH]; intros m fl pos va K W Hal H0 Hmax Hnone Hfl.
  { exists m, fl, pos, []. split_and!; [done|done|done|apply grows_refl|lia|done| |].
    - split; [constructor|set_solver].
    - intros va' _. rewrite decide_False; [done|]. unfold in_run. lia. }
  cbn [PageTable.ualloc_loop]. destruct fl as [|z fl]; [simpl in Hfl; lia|].
  destruct (new_zeroed_grows m z fl pos K W)
    as (E0 & K1 & W1 & G1 & D1 & Hzf & Hcz & Hrz & Hpte1).
  mstep E0. set (m1 := alloc_post m z zero_page fl) in *.
  assert (is_page z) as Hz by (eapply kinv_page; [exact K1|apply D1]).
  destruct (map_run m1 fl pos va z PGSIZE RWXU)
    as (m2 & fl2 & pos2 & E2 & K2 & W2 & G2 & Hlen2 & Hpte2);
    rewrite ?run_pages_one by done; [done|done|by unfold perm_ok| done|layout_lia| | |  | | |simpl in Hfl; lia|].
  { pose proof (Z.div_mod va PGSIZE). layout_lia. }
  { apply Hz. } { apply is_page_pos in Hz. lia. }
  { destruct Hz as [_ ?]. layout_lia. }
  { intros k Hk. rewrite Hpte1 by (pose proof (Z.div_mod va PGSIZE); layout_lia).
    rewrite <- (Hnone 0) by lia. apply pte_at_vpn.
    rewrite Z.div_mul, page_div by layout_lia. lia. }
  rewrite run_pages_one in Hlen2, Hpte2 by done.
  mstep E2.
  destruct (grows_outside _ _ _ _ _ _ z G2) as (Hzf2 & Hzp2 & Hzr2); [done|apply D1|].
  destruct (IH m2 fl2 pos2 (va + PGSIZE))
    as (m' & fl' & pos' & pas & E' & K' & W' & G' & Hlen' & Hn & [Hnd Hpas] & Hpte');
    [done|done| |layout_lia|layout_lia| |simpl in Hfl; lia|].
  { rewrite Z.add_mod, Hal by layout_lia. done. }
  { intros k Hk. specialize (Hnone (k + 1)).
    replace (va + (k + 1) * PGSIZE) with (va + PGSIZE + k * PGSIZE) in Hnone by lia.
    rewrite Hpte2, decide_False, Hpte1 by (layout_lia || unfold in_run; rewrite page_next; lia).
    apply Hnone. lia. }
  destruct (grows_outside _ _ _ _ _ _ z G') as (Hzf' & Hzp' & Hzr'); [done..|].
  exists m', fl', pos', (z :: pas).
  split_and!; [done..| |simpl in *; lia|simpl; lia| |].
  - eapply grows_trans; [done|]. by eapply grows_trans.
  - apply (fresh_cons fl fl2); [done|done|done|done|done|..].
    + rewrite Hzr', Hzr2. done.
    + rewrite (gr_cnt _ _ _ _ _ _ G'), (gr_cnt _ _ _ _ _ _ G2); done.
    + apply D1.
    + intros q Hq. destruct (gr_fl _ _ _ _ _ _ G2) as [k ->]. apply elem_of_app. by right.
    + by split.
  - intros va' Hva'. rewrite Hpte', Hpte2, Hpte1 by done.
    pose proof (page_next va 0 Hal) as Hd. rewrite Z.mul_0_l, Z.add_0_r in Hd.
    unfold in_run. repeat case_decide; try lia; try done.
    + replace (Z.to_nat (va' / PGSIZE - va / PGSIZE))
        with (S (Z.to_nat (va' / PGSIZE - (va + PGSIZE) / PGSIZE))) by lia. done.
    + replace (va' / PGSIZE - va / PGSIZE) with 0 by lia. simpl.
      by rewrite Z.add_0_r.
Qed.

(** The number of pages that hold [size] bytes. *)
Definition pages (size : Z) : Z := (size + PGSIZE - 1) / PGSIZE.

Lemma pages_round size : size + PGSIZE - 1 - (size + PGSIZE - 1) mod PGSIZE = pages size * PGSIZE.
Proof. unfold pages. pose proof (Z.div_mod (size + PGSIZE - 1) PGSIZE). layout_lia. Qed.

Lemma pages_bounds size : size ≤ pages size * PGSIZE < size + PGSIZE.
Proof.
  rewrite <- pages_round. pose proof (Z.mod_pos_bound (size + PGSIZE - 1) PGSIZE). layout_lia.
Qed.

Lemma pages_le a b : a ≤ b → pages a ≤ pages b.
Proof. intros. unfold pages. apply Z.div_le_mono; layout_lia. Qed.

Lemma pages_max a : 0 ≤ a ≤ MAXVA → 0 ≤ pages a * PGSIZE ≤ MAXVA.
Proof.
  intros H. pose proof (pages_le 0 a ltac:(lia)). pose proof (pages_le a MAXVA ltac:(lia)).
  change (pages 0) with 0 in *. change (pages MAXVA) with (MAXVA / PGSIZE) in *.
  change (MAXVA / PGSIZE) with 0x4000000 in *. layout_lia.
Qed.

Lemma pages_div a : pages a * PGSIZE / PGSIZE = pages a.
Proof. apply Z.div_mul. layout_lia. Qed.

Lemma pages_steps a b :
  a ≤ b → step_count (pages a * PGSIZE) b PGSIZE = Z.to_nat (pages b - pages a).
Proof.
  intros. unfold step_count, pages at 2. do 2 f_equal.
  replace (b - pages a * PGSIZE + PGSIZE - 1) with (b + PGSIZE - 1 + (- pages a) * PGSIZE) by lia.
  rewrite Z.div_add by layout_lia. lia.
Qed.

Lemma page_round_up_pages {S} a (s : S) :
  0 ≤ a ≤ MAXVA → page_round_up a s = Done (pages a * PGSIZE, s).
Proof. intros. rewrite page_round_up_run by layout_lia. by rewrite pages_round. Qed.

Lemma ualloc_run m fl pos old new :
  kinv heap m fl → wf m fl root pos → 0 ≤ old ≤ new → new ≤ MAXVA →
  (∀ k, pages old ≤ k < pages new → pte_at m root (k * PGSIZE) = None) →
  3 * (pages new - pages old) ≤ Z.of_nat (length fl) →
  ∃ m' fl' pos' pas,
    PageTable.ualloc root old new m = Done (Some new, m') ∧
    kinv heap m' fl' ∧ wf m' fl' root pos' ∧ grows m fl pos m' fl' pos' ∧
    Z.of_nat (length pas) = pages new - pages old ∧ fresh_pages fl m' fl' pos' pas ∧
    ∀ va, 0 ≤ va ≤ MAXVA → pte_at m' root va =
      if decide (pages old ≤ va / PGSIZE < pages new)
      then (λ pa, write_perm pa RWXU) <$> pas !! Z.to_nat (va / PGSIZE - pages old)
      else pte_at m root va.
Proof.
  intros K W Hold Hnew Hnone Hfl.
  pose proof (pages_le old new ltac:(lia)). pose proof (pages_max old ltac:(lia)).
  pose proof (pages_max new ltac:(lia)).
  unfold PageTable.ualloc. rewrite (proj2 (Z.ltb_ge _ _)) by lia.
  mstep (page_round_up_pages old m ltac:(lia)).
  rewrite pages_steps by lia. set (n := Z.to_nat (pages new - pages old)).
  assert (Z.of_nat n = pages new - pages old) as Hn by (unfold n; lia).
  destruct (ualloc_loop_run n m fl pos (pages old * PGSIZE) (pages old * PGSIZE))
    as (m' & fl' & pos' & pas & E & K' & W' & G & _ & Hlen & Hfr & Hpte);
    [done|done|apply Z.mod_mul; layout_lia|lia|layout_lia| |lia|].
  { intros k Hk. rewrite <- Z.mul_add_distr_r. apply Hnone. lia. }
  exists m', fl', pos', pas. mstep E.
  split_and!; [done|done|done|done|lia|done|]. intros va Hva. rewrite Hpte by done.
  pose proof (pages_div old) as Hd. unfold in_run.
  repeat case_decide; try lia; [by rewrite Hd|done].
Qed.

Lemma udealloc_run m fl pos old new pas :
  kinv heap m fl → wf m fl root pos → 0 ≤ new ≤ old → old ≤ MAXVA →
  Z.of_nat (length pas) = pages old - pages new →
  NoDup pas → maps_run m pos (pages new * PGSIZE) pas →
  ∃ m' fl',
    PageTable.udealloc root old new m = Done (new, m') ∧
    kinv heap m' fl' ∧ wf m' fl' root pos ∧ released m pos pas m' ∧
    ∀ va, 0 ≤ va ≤ MAXVA → pte_at m' root va =
      if decide (pages new ≤ va / PGSIZE < pages old) then None else pte_at m root va.
Proof.
  intros K W Hnew Hold Hlen Hnd Hrun.
  pose proof (pages_max old ltac:(lia)). pose proof (pages_max new ltac:(lia)).
  assert (pages old = pages new → ∃ m' fl', Done (new, m) = Done (new, m') ∧
    kinv heap m' fl' ∧ wf m' fl' root pos ∧ released m pos pas m' ∧
    ∀ va, 0 ≤ va ≤ MAXVA → pte_at m' root va =
      if decide (pages new ≤ va / PGSIZE < pages old) then None else pte_at m root va) as Hnop.
  { intros E. destruct pas; [|simpl in Hlen; lia]. exists m, fl.
    split_and!; [done..|apply released_nil|]. intros va _. by rewrite decide_False by lia. }
  unfold PageTable.udealloc. destruct (Z.leb_spec old new).
  { assert (old = new) as -> by lia. by apply Hnop. }
  mstep (page_round_up_pages new m ltac:(lia)). mstep (page_round_up_pages old m ltac:(lia)).
  destruct (Z.ltb_spec (pages new * PGSIZE) (pages old * PGSIZE)) as [Hlt|Hge].
  2:{ rewrite bind_ret_l. apply Hnop. layout_lia. }
  rewrite <- Z.mul_sub_distr_r, Z.div_mul, <- Hlen by layout_lia.
  destruct (uunmap_loop_run pas m fl pos (pages new * PGSIZE))
    as (m' & fl' & E & K' & W' & R & Hpte);
    [done|done|apply Z.mod_mul; layout_lia|lia|layout_lia|done|done|].
  exists m', fl'. split_and!; [|done..|].
  - unfold PageTable.uunmap, is_page_aligned. rewrite Nat2Z.id.
    rewrite Z.mod_mul by layout_lia. by mstep E.
  - intros va Hva. rewrite Hpte by done. unfold in_run.
    pose proof (pages_div new). repeat case_decide; done || lia.
Qed.
End map.
