(* ===== verification/HugeFacts.v ===== *)
(** * Tables with huge pages

    The kernel's table has leaves of 2 MiB. This file states what the
    hardware makes of such a table (the Sv39 walk of the RISC-V privileged
    specification) and proves what [map_with_huge] does to it. *)
From S2P Require Import Prelude Layout Pte Kalloc PageTable PageTableFacts MapFacts.
Import Addr PageTableEntry.

(** ** The walk of the hardware

    The physical address and the flags for [va]; a leaf above level 0 must be
    aligned to its size. *)
Fixpoint sv39_walk (l : nat) (m : mem) (pgt va : Z) : option (Z * Z) :=
  e ← word m pgt (page_num va (Z.of_nat l));
  if negb (is_valid e) then None else
  if is_leaf e then
    let size := 2 ^ (12 + 9 * Z.of_nat l) in
    if as_pagetable e mod size =? 0 then Some (as_pagetable e + va mod size, as_flags e) else None
  else match l with O => None | S l' => sv39_walk l' m (as_pagetable e) va end.
Definition sv39 (m : mem) (root va : Z) : option (Z * Z) := sv39_walk 2 m root va.

(** The valid level-1 entry of [va]; whether it is a huge page, or a table. *)
Definition mid (m : mem) (root va : Z) : option Z :=
  e2 ← word m root (page_num va 2);
  if is_valid e2 then
    e1 ← word m (as_pagetable e2) (page_num va 1);
    if is_valid e1 then Some e1 else None
  else None.
Definition big (m : mem) (root va : Z) : bool :=
  match mid m root va with Some e => is_leaf e | None => false end.
Definition tab (m : mem) (root va : Z) : bool :=
  match mid m root va with Some e => negb (is_leaf e) | None => false end.

Section huge.
Context (heap root : Z).
Implicit Types (m : mem) (fl : list Z) (pos : gmap Z (nat * Z)) (p q va pa e : Z).
Abbreviation wf := (pt_wf heap true).

Lemma root_pos_at m fl pos va : wf m fl root pos → 0 ≤ va ≤ MAXVA → pos !! root = Some (2%nat, vpre 2 va).
Proof. intros W Hva. rewrite vpre_root by done. apply W. Qed.

(** An entry of the root is a table. *)
Lemma root_entry m fl pos va e :
  wf m fl root pos → 0 ≤ va ≤ MAXVA → word m root (page_num va 2) = Some e → is_valid e = true →
  is_leaf e = false ∧ pos !! as_pagetable e = Some (1%nat, vpre 1 va).
Proof.
  intros W Hva He Hv. pose proof (page_num_range va 2 ltac:(lia)) as Hr.
  destruct (pw_child _ _ _ _ _ _ W _ _ _ _ _ (root_pos_at _ _ _ _ W Hva) Hr He Hv) as [[Hl Hc]|(_ & ? & _)];
    [|done]. split; [done|]. by rewrite Hc, (vpre_step 1).
Qed.
Lemma mid_inv m fl pos va e :
  wf m fl root pos → 0 ≤ va ≤ MAXVA → mid m root va = Some e →
  ∃ e2, word m root (page_num va 2) = Some e2 ∧ is_valid e2 = true ∧ is_leaf e2 = false ∧
    pos !! as_pagetable e2 = Some (1%nat, vpre 1 va) ∧
    word m (as_pagetable e2) (page_num va 1) = Some e ∧ is_valid e = true.
Proof.
  intros W Hva. unfold mid. intros (e2 & He2 & H)%bind_Some. destruct (is_valid e2) eqn:Hv2; [|done].
  apply bind_Some in H as (e1 & He1 & H). destruct (is_valid e1) eqn:Hv1; [|done]. injection H as <-.
  destruct (root_entry m fl pos va e2) as [Hl Hp]; [done..|]. exists e2. by split_and!.
Qed.
Lemma pte_mid m fl pos va :
  wf m fl root pos → 0 ≤ va ≤ MAXVA →
  pte_at m root va =
    e ← mid m root va;
    if is_leaf e then Some e else
    e0 ← word m (as_pagetable e) (page_num va 0); if is_valid e0 then Some e0 else None.
Proof.
  intros W Hva. unfold pte_at, leaf_at, mid. cbn [walk]. change (Z.of_nat 2) with 2. change (Z.of_nat 1) with 1.
  destruct (word m root (page_num va 2)) as [e2|] eqn:He2; [|done]. simpl.
  destruct (is_valid e2) eqn:Hv2; [|done].
  destruct (root_entry m fl pos va e2) as [-> _]; [done..|].
  destruct (word m (as_pagetable e2) (page_num va 1)) as [e1|] eqn:He1; [|done]. simpl.
  destruct (is_valid e1) eqn:Hv1; [|done]. simpl.
  destruct (is_leaf e1) eqn:Hl1; [|done]. simpl. rewrite He1. simpl. by rewrite Hv1.
Qed.
Lemma sv39_eq m fl pos va :
  wf m fl root pos → 0 ≤ va ≤ MAXVA →
  sv39 m root va =
    e ← pte_at m root va;
    let size := if big m root va then HUGE_PGSIZE else PGSIZE in
    if is_leaf e && (as_pagetable e mod size =? 0)
    then Some (as_pagetable e + va mod size, as_flags e) else None.
Proof.
  intros W Hva. rewrite (pte_mid m fl pos) by done. unfold sv39, big, mid. cbn [sv39_walk].
  change (Z.of_nat 2) with 2. change (Z.of_nat 1) with 1. change (Z.of_nat 0) with 0.
  change (2 ^ (12 + 9 * 1)) with HUGE_PGSIZE. change (2 ^ (12 + 9 * 0)) with PGSIZE.
  destruct (word m root (page_num va 2)) as [e2|] eqn:He2; [|done]. simpl.
  destruct (is_valid e2) eqn:Hv2; [|done]. simpl.
  destruct (root_entry m fl pos va e2) as [-> _]; [done..|].
  destruct (word m (as_pagetable e2) (page_num va 1)) as [e1|] eqn:He1; [|done]. simpl.
  destruct (is_valid e1) eqn:Hv1; [|done]. simpl.
  destruct (is_leaf e1) eqn:Hl1; simpl; [by rewrite Hl1|]. 
  destruct (word m (as_pagetable e1) (page_num va 0)) as [e0|]; [|done]. simpl.
  destruct (is_valid e0); [|done]. simpl. by destruct (is_leaf e0).
Qed.
Lemma big_pte m fl pos va : wf m fl root pos → 0 ≤ va ≤ MAXVA → pte_at m root va = None → big m root va = false.
Proof.
  intros W Hva. rewrite (pte_mid m fl pos) by done. unfold big. destruct (mid m root va) as [e|]; [|done].
  simpl. by destruct (is_leaf e).
Qed.
Lemma hpn_same m va va' : va / HUGE_PGSIZE = va' / HUGE_PGSIZE → mid m root va = mid m root va'.
Proof.
  intros E. assert (∀ l, 1 ≤ l → page_num va l = page_num va' l) as Hpn.
  { intros l Hl. rewrite !page_num_eq by lia.
    replace (12 + l * 9) with (21 + (l - 1) * 9) by lia.
    rewrite (Z.pow_add_r 2 21), <- !Z.div_div by lia. change (2 ^ 21) with HUGE_PGSIZE. by rewrite E. }
  unfold mid. by rewrite (Hpn 2), (Hpn 1) by lia.
Qed.

(** ** One page *)
Lemma mid_path m fl pos m' fl' pos' va va' :
  wf m fl root pos → wf m' fl' root pos' → keeps_valid m pos m' → on_path m pos m' pos' va →
  0 ≤ va' ≤ MAXVA →
  (∀ e, mid m root va' = Some e → mid m' root va' = Some e) ∧
  (∀ e, mid m' root va' = Some e →
     mid m root va' = Some e ∨ (is_leaf e = false ∧ va / HUGE_PGSIZE = va' / HUGE_PGSIZE)).
Proof.
  intros W W' Hk Hpath Hva. pose proof (page_num_range va' 2 ltac:(lia)) as Hr2.
  pose proof (page_num_range va' 1 ltac:(lia)) as Hr1. split; intros e He.
  - destruct (mid_inv m fl pos va' e W Hva He) as (e2 & He2 & Hv2 & _ & Hp & He1 & Hv1). unfold mid.
    rewrite (Hk root _ _ e2 (pw_root _ _ _ _ _ _ W)) by done. simpl. rewrite Hv2.
    rewrite (Hk _ _ _ e Hp) by done. simpl. by rewrite Hv1.
  - destruct (mid_inv m' fl' pos' va' e W' Hva He) as (e2 & He2 & Hv2 & _ & Hp & He1 & Hv1).
    destruct (Hpath _ _ _ _ Hp Hr1 He1 Hv1) as [[Hp0 He10]|(l & Hl & Hj & Hlf & _)].
    + left. destruct (Hpath _ _ _ _ (pw_root _ _ _ _ _ _ W') Hr2 He2 Hv2) as [[_ He20]|(_ & _ & _ & _ & Hn)].
      * unfold mid. rewrite He20. simpl. rewrite Hv2, He10. simpl. by rewrite Hv1.
      * congruence.
    + right. split; [done|]. injection Hl as <- Hl. rewrite !vhpn_split. rewrite Hl. f_equal. by rewrite Hj.
Qed.
(** What writing the entry of [va] does: [leaf va'] says that the new entry
    is that of [va'], [hg] that it is a huge page, and [used] bounds the pages
    it took. *)
Record entered m fl pos (va e : Z) (hg : bool) (used : nat) m' fl' pos' : Prop := {
  en_kinv : kinv heap m' fl';
  en_wf : wf m' fl' root pos';
  en_grows : grows m fl pos m' fl' pos';
  en_used : (length fl ≤ length fl' + used)%nat;
  en_pte : ∀ va', 0 ≤ va' ≤ MAXVA → pte_at m' root va' =
    if decide (va / (if hg then HUGE_PGSIZE else PGSIZE) = va' / (if hg then HUGE_PGSIZE else PGSIZE))
    then Some e else pte_at m root va';
  en_big : ∀ va', 0 ≤ va' ≤ MAXVA → big m' root va' =
    if decide (hg = true ∧ va / HUGE_PGSIZE = va' / HUGE_PGSIZE) then true else big m root va';
  en_tab : ∀ va', 0 ≤ va' ≤ MAXVA → tab m' root va' = true →
    tab m root va' = true ∨ hg = false ∧ va / HUGE_PGSIZE = va' / HUGE_PGSIZE
}.

Lemma small_step m fl pos va pa perm :
  kinv heap m fl → wf m fl root pos → 0 ≤ va ≤ MAXVA → pa_ok pa → perm_ok perm →
  pte_at m root va = None → (2 ≤ length fl)%nat →
  ∃ p i m1 e0 m2 fl' pos',
    PageTable.translate root va true m = Done (Some (PageTable.entry p i), m1) ∧
    read_word (PageTable.entry p i) m1 = Done (e0, m1) ∧ is_valid e0 = false ∧
    write_word (PageTable.entry p i) (write_perm pa perm) m1 = Done (tt, m2) ∧
    entered m fl pos va (write_perm pa perm) false 2 m2 fl' pos'.
Proof.
  intros K W Hva Hpa Hperm Hnone Hfl. unfold PageTable.translate. rewrite (proj2 (Z.ltb_ge _ _)) by lia.
  destruct (translate_loop_alloc heap true root 2 m fl pos root va [2; 1])
    as (p & i & m1 & fl1 & pos1 & E & K1 & W1 & G1 & Hlen & Hw & Hk & Hpath & Hleaf);
    [done|done|by eapply root_pos_at|done|done|].
  assert (∀ va', pte_at m1 root va' = pte_at m root va') as Hpte by (intros va'; eapply Hleaf, W).
  destruct (walk_pos heap true root m1 fl1 pos1 2 root va p i W1) as (Hi & Hcase);
    [by eapply root_pos_at|done|].
  assert (pos1 !! p = Some (0%nat, vpre 0 va) ∧ i = page_num va 0) as [Hp ->].
  { destruct Hcase as [?|(_ & _ & _ & e & He & Hv & _)]; [done|]. exfalso.
    rewrite <- (Hpte va) in Hnone. unfold pte_at, leaf_at in Hnone. rewrite Hw in Hnone. simpl in Hnone.
    by rewrite He in Hnone; simpl in Hnone; rewrite Hv in Hnone. }
  clear Hcase. destruct (pt_wf_page _ _ _ _ _ _ _ _ K1 W1 Hp) as ([Hal _] & Hs & _).
  destruct (word_is_Some m1 p (page_num va 0)) as (e0 & He0 & _); [apply K1|done|done|].
  assert (is_valid e0 = false) as Hv0.
  { rewrite <- (Hpte va) in Hnone. unfold pte_at, leaf_at in Hnone. rewrite Hw in Hnone. simpl in Hnone.
    rewrite He0 in Hnone. simpl in Hnone. by destruct (is_valid e0). }
  set (m2 := set_word m1 p (page_num va 0) (write_perm pa perm)).
  pose proof (write_perm_in_u pa perm Hpa Hperm) as Hu. pose proof (write_perm_valid pa perm Hpa Hperm) as Hv.
  assert (∀ va', 0 ≤ va' ≤ MAXVA → mid m2 root va' = mid m1 root va') as Hmid.
  { intros va' Hva'. unfold mid, m2. pose proof (page_num_range va' 2 ltac:(lia)).
    pose proof (page_num_range va' 1 ltac:(lia)).
    erewrite set_leaf_word_ne; [|done..|exact (pw_root _ _ _ _ _ _ W1)].
    destruct (word m1 root _) as [e2|] eqn:He2; [|done]. simpl. destruct (is_valid e2) eqn:Hv2; [|done].
    destruct (root_entry m1 fl1 pos1 va' e2) as [_ Hp2]; [done..|].
    by erewrite set_leaf_word_ne. }
  exists p, (page_num va 0), m1, e0, m2, fl1, pos1.
  split_and!; [done|by apply word_run|done|by apply set_word_run|]. split.
  - by eapply set_leaf_kinv.
  - by eapply set_leaf_wf.
  - eapply grows_trans; [done|]. by eapply set_leaf_grows.
  - done.
  - intros va' Hva'. unfold m2. erewrite set_leaf_leaf_at by done. rewrite Hv, Hpte.
    destruct (decide (va / PGSIZE = va' / PGSIZE)) as [Heq|Hne].
    + rewrite decide_True; [done|]. by rewrite <- (walk_vpn 2 m1 root va va').
    + rewrite decide_False; [done|]. intros Hw'.
      destruct (walk_pos heap true root m1 fl1 pos1 2 root va' p (page_num va 0) W1)
        as (_ & [[Hp' Hi']|(_ & Hp' & _)]); [by eapply root_pos_at|done| |congruence].
      apply Hne. rewrite !vpn_split, Hi'. congruence.
  - intros va' Hva'. rewrite decide_False by naive_solver. unfold big. rewrite Hmid by done.
    destruct (mid_path m fl pos m1 fl1 pos1 va va' W W1 Hk Hpath Hva') as [Hto Hfrom].
    destruct (mid m root va') as [e|] eqn:Em; [by rewrite (Hto e)|].
    destruct (mid m1 root va') as [e|] eqn:Em1; [|done]. by destruct (Hfrom e) as [?|[? _]].
  - intros va' Hva'. unfold tab. rewrite Hmid by done.
    destruct (mid_path m fl pos m1 fl1 pos1 va va' W W1 Hk Hpath Hva') as [_ Hfrom].
    destruct (mid m1 root va') as [e|] eqn:Em1; [|done]. destruct (Hfrom e eq_refl) as [->|[_ ?]]; auto.
Qed.

(** [translate_huge] reaches the level-1 entry of [va]; no mapping changes. *)
Lemma translate_huge_run m fl pos va :
  kinv heap m fl → wf m fl root pos → 0 ≤ va ≤ MAXVA → (1 ≤ length fl)%nat →
  ∃ p m1 fl1 pos1 e2,
    PageTable.translate_huge root va true m = Done (Some (PageTable.entry p (page_num va 1)), m1) ∧
    kinv heap m1 fl1 ∧ wf m1 fl1 root pos1 ∧ grows m fl pos m1 fl1 pos1 ∧
    (length fl ≤ length fl1 + 1)%nat ∧ pos1 !! p = Some (1%nat, vpre 1 va) ∧
    word m1 root (page_num va 2) = Some e2 ∧ is_valid e2 = true ∧ as_pagetable e2 = p ∧
    (∀ va', 0 ≤ va' ≤ MAXVA → mid m1 root va' = mid m root va') ∧
    (∀ va', pte_at m1 root va' = pte_at m root va').
Proof.
  intros K W Hva Hfl. unfold PageTable.translate_huge. rewrite (proj2 (Z.ltb_ge _ _)) by lia.
  pose proof (root_pos_at m fl pos va W Hva) as Hr. pose proof (page_num_range va 2 ltac:(lia)) as Hj.
  destruct (pt_wf_page _ _ _ _ _ _ _ _ K W Hr) as ([Hal _] & Hs & _).
  destruct (word_is_Some m root (page_num va 2)) as (e & He & Hu); [apply K|done|done|].
  mstep (word_run _ _ _ _ He Hal Hj). destruct (is_valid e) eqn:Hv.
  { destruct (root_entry m fl pos va e) as [_ Hp]; [done..|].
    exists (as_pagetable e), m, fl, pos, e. split_and!; [done..|apply grows_refl|lia|done|done|done|done|done|done]. }
  destruct fl as [|z fl]; [simpl in Hfl; lia|]. cbn [negb].
  destruct (new_zeroed_run heap m z fl K) as [E0 _]. mstep E0.
  destruct (add_table_fresh heap true root m fl pos z root (page_num va 2) 1%nat (vpre 2 va) e) as (Hz & Hn & Hrz); [done..|].
  erewrite bind_run; [|apply set_word_run; [simpl; by rewrite lookup_insert_ne|done|done]].
  fold (add_table m fl root (page_num va 2) z). set (m1 := add_table m fl root (page_num va 2) z).
  destruct (write_perm_table z Hz) as (Hwv & Hwl & Hwp & _).
  assert (∀ q j, 0 ≤ j < 512 → word m1 q j =
    if decide (q = z) then Some 0
    else if decide (root = q ∧ page_num va 2 = j) then Some (write_perm z 0) else word m q j) as Hword.
  { intros q j Hjj. by eapply add_table_word. }
  exists z, m1, fl, (<[z := (1%nat, vpre 2 va * 512 + page_num va 2)]> pos), (write_perm z 0).
  split_and!; [done|by eapply add_table_kinv|by eapply add_table_wf|by eapply add_table_grows|
    simpl; lia| | |done|done| |].
  - by rewrite lookup_insert_eq, (vpre_step 1).
  - by rewrite Hword, decide_False, decide_True by done.
  - intros va' Hva'. pose proof (page_num_range va' 2 ltac:(lia)). pose proof (page_num_range va' 1 ltac:(lia)).
    unfold mid. rewrite Hword, decide_False by done.
    destruct (decide (root = root ∧ page_num va 2 = page_num va' 2)) as [[_ <-]|].
    + simpl. rewrite Hwv, Hwp, Hword, decide_True, He by done. simpl. by rewrite Hv.
    + destruct (word m root (page_num va' 2)) as [e2|] eqn:He2; [|done]. simpl.
      destruct (is_valid e2) eqn:Hv2; [|done].
      destruct (root_entry m (z :: fl) pos va' e2) as [_ Hp2]; [done..|].
      rewrite Hword by done. rewrite decide_False by congruence.
      rewrite decide_False; [done|]. intros [E _]. rewrite <- E in Hp2. congruence.
  - intros va'. eapply add_table_leaf_at; first [apply W|done].
Qed.

(** Setting an entry of a level-1 table to a huge page. *)
Section set_huge.
Context m fl pos p va e2 e
  (K : kinv heap m fl) (W : wf m fl root pos) (Hva : 0 ≤ va ≤ MAXVA)
  (Hp : pos !! p = Some (1%nat, vpre 1 va))
  (He2 : word m root (page_num va 2) = Some e2) (Hv2 : is_valid e2 = true) (Hp2 : as_pagetable e2 = p)
  (Hu : in_u 64 e) (Hv : is_valid e = true) (Hl : is_leaf e = true).
Let m' := set_word m p (page_num va 1) e.

Lemma set_huge_word q j :
  0 ≤ j < 512 → word m' q j = if decide (p = q ∧ page_num va 1 = j) then Some e else word m q j.
Proof.
  intros Hj. destruct (pw_page _ _ _ _ _ _ W _ _ Hp) as (Hs & _).
  apply word_set_word; [apply K|done|apply page_num_range; lia|lia].
Qed.
Lemma set_huge_word_ne q j l pre :
  0 ≤ j < 512 → pos !! q = Some (l, pre) → l ≠ 1%nat → word m' q j = word m q j.
Proof.
  intros Hj Hq Hne. rewrite set_huge_word by done. rewrite decide_False; [done|].
  intros [-> _]. congruence.
Qed.
Lemma set_huge_wf : wf m' fl root pos.
Proof.
  split; [apply W| |].
  - intros q x Hq. destruct (pw_page _ _ _ _ _ _ W _ _ Hq) as (? & ? & ? & ?).
    split_and!; [by apply set_word_dom|done..].
  - intros q l pre' j e' Hq Hj He' Hv'. rewrite set_huge_word in He' by done.
    case_decide as E; [|by eapply (pw_child _ _ _ _ _ _ W)].
    destruct E as [<- <-]. injection He' as <-. right. split_and!; [done| |done]. congruence.
Qed.
Lemma set_huge_mid va' : 0 ≤ va' ≤ MAXVA →
  mid m' root va' = if decide (va / HUGE_PGSIZE = va' / HUGE_PGSIZE) then Some e else mid m root va'.
Proof.
  intros Hva'. pose proof (page_num_range va' 2 ltac:(lia)). pose proof (page_num_range va' 1 ltac:(lia)).
  assert (∀ v, 0 ≤ v ≤ MAXVA → word m' root (page_num v 2) = word m root (page_num v 2)) as Hroot.
  { intros v Hv'. eapply set_huge_word_ne; [apply page_num_range; lia|by eapply root_pos_at|done]. }
  case_decide as E.
  - rewrite <- (hpn_same m' va va' E). unfold mid. rewrite Hroot, He2 by done. simpl.
    rewrite Hv2, Hp2, set_huge_word, decide_True by (done || apply page_num_range; lia). simpl. by rewrite Hv.
  - unfold mid. rewrite Hroot by done. destruct (word m root (page_num va' 2)) as [e2'|] eqn:He2'; [|done].
    simpl. destruct (is_valid e2') eqn:Hv2'; [|done].
    destruct (root_entry m fl pos va' e2') as [_ Hpp]; [done..|].
    rewrite set_huge_word by done. rewrite decide_False; [done|]. intros [Ep Ei]. apply E.
    rewrite !vhpn_split, Ei. rewrite <- Ep in Hpp. congruence.
Qed.
Lemma set_huge_pte va' : 0 ≤ va' ≤ MAXVA →
  pte_at m' root va' = if decide (va / HUGE_PGSIZE = va' / HUGE_PGSIZE) then Some e else pte_at m root va'.
Proof.
  intros Hva'. rewrite (pte_mid m' fl pos), set_huge_mid by (done || apply set_huge_wf).
  case_decide; [simpl; by rewrite Hl|]. rewrite (pte_mid m fl pos) by done.
  destruct (mid m root va') as [e1|] eqn:Em; [|done]. simpl. destruct (is_leaf e1) eqn:Hl1; [done|].
  destruct (mid_inv m fl pos va' e1) as (e2' & _ & _ & _ & Hpp & He1 & Hv1); [done..|].
  pose proof (page_num_range va' 1 ltac:(lia)).
  destruct (pw_child _ _ _ _ _ _ W _ _ _ _ _ Hpp ltac:(done) He1 Hv1) as [[_ Hc]|[? _]]; [|congruence].
  erewrite set_huge_word_ne; [done|apply page_num_range; lia|exact Hc|done].
Qed.
End set_huge.

Lemma huge_step m fl pos va pa perm :
  kinv heap m fl → wf m fl root pos → 0 ≤ va ≤ MAXVA → pa_ok pa → perm_ok perm →
  is_leaf (write_perm pa perm) = true → mid m root va = None → (1 ≤ length fl)%nat →
  ∃ p i m1 e0 m2 fl' pos',
    PageTable.translate_huge root va true m = Done (Some (PageTable.entry p i), m1) ∧
    read_word (PageTable.entry p i) m1 = Done (e0, m1) ∧ is_valid e0 = false ∧
    write_word (PageTable.entry p i) (write_perm pa perm) m1 = Done (tt, m2) ∧
    entered m fl pos va (write_perm pa perm) true 2 m2 fl' pos'.
Proof.
  intros K W Hva Hpa Hperm Hl Hnone Hfl.
  destruct (translate_huge_run m fl pos va)
    as (p & m1 & fl1 & pos1 & e2 & E & K1 & W1 & G1 & Hlen & Hp & He2 & Hv2 & Hp2 & Hmid & Hpte); [done..|].
  pose proof (page_num_range va 1 ltac:(lia)) as Hi.
  destruct (pt_wf_page _ _ _ _ _ _ _ _ K1 W1 Hp) as ([Hal _] & Hs & Hnf).
  destruct (word_is_Some m1 p (page_num va 1)) as (e0 & He0 & _); [apply K1|done|done|].
  assert (is_valid e0 = false) as Hv0.
  { rewrite <- Hmid in Hnone by done. unfold mid in Hnone. rewrite He2 in Hnone. simpl in Hnone.
    rewrite Hv2, Hp2, He0 in Hnone. simpl in Hnone. by destruct (is_valid e0). }
  pose proof (write_perm_in_u pa perm Hpa Hperm) as Hu. pose proof (write_perm_valid pa perm Hpa Hperm) as Hv.
  exists p, (page_num va 1), m1, e0, (set_word m1 p (page_num va 1) (write_perm pa perm)), fl1, pos1.
  split_and!; [done|by apply word_run|done|by apply set_word_run|].
  assert (∀ va', 0 ≤ va' ≤ MAXVA → mid (set_word m1 p (page_num va 1) (write_perm pa perm)) root va' =
    if decide (va / HUGE_PGSIZE = va' / HUGE_PGSIZE) then Some (write_perm pa perm) else mid m root va') as Hmid2.
  { intros va' Hva'. erewrite set_huge_mid by done. by rewrite Hmid. }
  split.
  - by apply kinv_set_word.
  - by eapply set_huge_wf.
  - eapply grows_trans; [done|]. split; [done|done|auto|apply set_word_dom| |done].
    intros q _ Hq. apply set_word_ram_ne. congruence.
  - lia.
  - intros va' Hva'. erewrite set_huge_pte by done. by rewrite Hpte.
  - intros va' Hva'. unfold big. rewrite Hmid2 by done. repeat case_decide; done || naive_solver.
  - intros va' Hva'. unfold tab. rewrite Hmid2 by done. case_decide; [by rewrite Hl|by left].
Qed.

(** ** A run of pages *)
Definition pgsz (hg : bool) : Z := if hg then HUGE_PGSIZE else PGSIZE.
Definition pgcnt (hg : bool) : Z := if hg then 512 else 1.
(** The permissions of a leaf: some of R, W and X. *)
Definition leaf_perm (perm : Z) : Prop := perm_ok perm ∧ ∀ pa, pa_ok pa → is_leaf (write_perm pa perm) = true.

Lemma entered_sv39 m fl pos va pa perm hg used m' fl' pos' va' :
  entered m fl pos va (write_perm pa perm) hg used m' fl' pos' → wf m fl root pos →
  leaf_perm perm → pa_ok pa → va mod pgsz hg = 0 → pa mod pgsz hg = 0 → 0 ≤ va ≤ MAXVA →
  pte_at m root va = None → 0 ≤ va' ≤ MAXVA →
  sv39 m' root va' =
    if decide (va / pgsz hg = va' / pgsz hg) then Some (pa + (va' - va), Z.lor perm PTE_V)
    else sv39 m root va'.
Proof.
  intros En W [Hpok Hleaf] Hpa Hva Hpal Hr Hnone Hva'.
  rewrite (sv39_eq m' fl' pos'), (sv39_eq m fl pos) by (done || apply En).
  rewrite (en_pte _ _ _ _ _ _ _ _ _ _ En), (en_big _ _ _ _ _ _ _ _ _ _ En) by done. fold (pgsz hg).
  destruct (decide (va / pgsz hg = va' / pgsz hg)) as [E|Hne].
  - cbn [mbind option_bind]. rewrite Hleaf, write_perm_pa, write_perm_flags by done. cbn [andb].
    replace (if if decide _ then true else big m root va' then HUGE_PGSIZE else PGSIZE) with (pgsz hg).
    + rewrite Hpal, Z.eqb_refl. do 3 f_equal. pose proof (Z.div_mod va (pgsz hg)).
      pose proof (Z.div_mod va' (pgsz hg)). destruct hg; unfold pgsz in *; layout_lia.
    + destruct hg; simpl in E.
      * by rewrite decide_True.
      * rewrite decide_False by naive_solver. rewrite (big_pte m fl pos); [done..|].
        by rewrite <- (pte_at_vpn m root va va').
  - rewrite decide_False; [done|]. intros [-> ?]. done.
Qed.

(** [n] pages from [va] are mapped to those from [pa]: what changed. *)
Record mapped m fl pos (va n pa perm cost : Z) m' fl' pos' : Prop := {
  md_kinv : kinv heap m' fl';
  md_wf : wf m' fl' root pos';
  md_grows : grows m fl pos m' fl' pos';
  md_used : Z.of_nat (length fl) ≤ Z.of_nat (length fl') + 2 * cost;
  md_pte : ∀ va', 0 ≤ va' ≤ MAXVA → ¬ in_run va n va' → pte_at m' root va' = pte_at m root va';
  md_sv39 : ∀ va', 0 ≤ va' ≤ MAXVA → sv39 m' root va' =
    if decide (in_run va n va') then Some (pa + (va' - va), Z.lor perm PTE_V) else sv39 m root va';
  md_tab : ∀ va', 0 ≤ va' ≤ MAXVA → tab m' root va' = true →
    tab m root va' = true ∨ ∃ v, in_run va n v ∧ v / HUGE_PGSIZE = va' / HUGE_PGSIZE
}.

Lemma mapped_nil m fl pos va pa perm :
  kinv heap m fl → wf m fl root pos → mapped m fl pos va 0 pa perm 0 m fl pos.
Proof.
  intros K W. split; [done|done|apply grows_refl|lia|done| |by left].
  intros va' _. rewrite decide_False; [done|]. unfold in_run. lia.
Qed.

Lemma hdiv va : va / HUGE_PGSIZE = va / PGSIZE / 512.
Proof. change HUGE_PGSIZE with (PGSIZE * 512). by rewrite Z.div_div. Qed.
Lemma pgsz_count hg : pgsz hg = pgcnt hg * PGSIZE.
Proof. by destruct hg. Qed.

(** The pages of a run are those of its first step and the rest. *)
Lemma in_run_step hg va n va' :
  va mod pgsz hg = 0 → pgcnt hg ≤ n →
  in_run va n va' ↔ va / pgsz hg = va' / pgsz hg ∨ in_run (va + pgsz hg) (n - pgcnt hg) va'.
Proof.
  intros Hva Hn. unfold in_run.
  rewrite pgsz_count at 3 4. rewrite Z.div_add by (unfold PGSIZE; lia).
  destruct hg; unfold pgsz, pgcnt in *; [|lia]. rewrite !hdiv.
  assert (va / PGSIZE mod 512 = 0).
  { change HUGE_PGSIZE with (PGSIZE * 512) in Hva. rewrite Z.rem_mul_r in Hva by done.
    pose proof (Z.mod_pos_bound va PGSIZE ltac:(done)).
    pose proof (Z.mod_pos_bound (va / PGSIZE) 512 ltac:(done)). layout_lia. }
  pose proof (Z.div_mod (va / PGSIZE) 512). pose proof (Z.div_mod (va' / PGSIZE) 512).
  pose proof (Z.mod_pos_bound (va' / PGSIZE) 512 ltac:(done)). lia.
Qed.

Lemma mapped_cons m fl pos va n pa perm hg m1 fl1 pos1 cost m' fl' pos' :
  entered m fl pos va (write_perm pa perm) hg 2 m1 fl1 pos1 → wf m fl root pos →
  leaf_perm perm → pa_ok pa → va mod pgsz hg = 0 → pa mod pgsz hg = 0 → 0 ≤ va ≤ MAXVA →
  pte_at m root va = None → pgcnt hg ≤ n →
  mapped m1 fl1 pos1 (va + pgsz hg) (n - pgcnt hg) (pa + pgsz hg) perm cost m' fl' pos' →
  mapped m fl pos va n pa perm (cost + 1) m' fl' pos'.
Proof.
  intros En W Hlp Hpa Hva Hpal Hr Hnone Hn Md.
  pose proof (in_run_step hg va n) as Hrun. split.
  - apply Md.
  - apply Md.
  - eapply grows_trans; [apply En|apply Md].
  - pose proof (md_used _ _ _ _ _ _ _ _ _ _ _ Md). pose proof (en_used _ _ _ _ _ _ _ _ _ _ En). lia.
  - intros va' Hva' Hni. rewrite Hrun in Hni by done.
    rewrite (md_pte _ _ _ _ _ _ _ _ _ _ _ Md) by tauto.
    rewrite (en_pte _ _ _ _ _ _ _ _ _ _ En) by done. fold (pgsz hg). rewrite decide_False by tauto. done.
  - intros va' Hva'. rewrite (md_sv39 _ _ _ _ _ _ _ _ _ _ _ Md) by done.
    erewrite (entered_sv39 m) by done.
    destruct (decide (in_run va n va')) as [Hi|Hi]; rewrite Hrun in Hi by done.
    + case_decide; [do 2 f_equal; lia|]. rewrite decide_True by tauto. done.
    + rewrite !decide_False by tauto. done.
  - intros va' Hva' Ht. apply (md_tab _ _ _ _ _ _ _ _ _ _ _ Md) in Ht as [Ht|(v & Hv & E)]; [|..|done].
    + apply (en_tab _ _ _ _ _ _ _ _ _ _ En) in Ht as [?|[-> ?]]; [by left| |done].
      right. exists va. split; [|done]. apply Hrun; auto.
    + right. exists v. split; [|done]. apply Hrun; auto.
Qed.

(** What a run of [n] pages must meet before it is mapped. *)
Record mappable m fl pos (va n pa perm : Z) : Prop := {
  ma_kinv : kinv heap m fl;
  ma_wf : wf m fl root pos;
  ma_perm : leaf_perm perm;
  ma_va : va mod PGSIZE = 0 ∧ 0 ≤ va ∧ va + (n - 1) * PGSIZE ≤ MAXVA;
  ma_pa : pa mod PGSIZE = 0 ∧ 0 ≤ pa ∧ pa + n * PGSIZE ≤ 2 ^ 56;
  ma_free : ∀ v, 0 ≤ v ≤ MAXVA → in_run va n v → pte_at m root v = None
}.
(** The blocks of 2 MiB inside the run have no table yet. *)
Definition untabled m (va n : Z) : Prop :=
  ∀ b, va ≤ b * HUGE_PGSIZE → (b + 1) * HUGE_PGSIZE ≤ va + n * PGSIZE →
    tab m root (b * HUGE_PGSIZE) = false.

Lemma ma_first m fl pos va n pa perm :
  mappable m fl pos va n pa perm → 1 ≤ n → 0 ≤ va ≤ MAXVA ∧ pa_ok pa ∧ pte_at m root va = None.
Proof.
  intros [_ _ _ (Hva & H0 & Hmax) (Hpa & Hp0 & Hp1) Hfree] Hn.
  assert (0 ≤ va ≤ MAXVA) by layout_lia. split_and!; [lia..|split; [done|layout_lia]|].
  apply Hfree; [done|]. unfold in_run. lia.
Qed.
Lemma mod_shift a b c : c ≠ 0 → a mod c = 0 → b mod c = 0 → (a + b) mod c = 0.
Proof. intros Hc Ha Hb. by rewrite Z.add_mod, Ha, Hb by done. Qed.

(** After the first entry, the rest of the run is still mappable. *)
Lemma ma_rest m fl pos va n pa perm hg m1 fl1 pos1 :
  mappable m fl pos va n pa perm → va mod pgsz hg = 0 → pgcnt hg ≤ n →
  entered m fl pos va (write_perm pa perm) hg 2 m1 fl1 pos1 →
  mappable m1 fl1 pos1 (va + pgsz hg) (n - pgcnt hg) (pa + pgsz hg) perm.
Proof.
  intros [K W Hperm (Hva & H0 & Hmax) (Hpa & Hp0 & Hp1) Hfree] Hal Hn En.
  assert (pgsz hg mod PGSIZE = 0) by (by destruct hg). split; [apply En|apply En|done| | |].
  - split; [by apply mod_shift|]. rewrite (pgsz_count hg). destruct hg; unfold pgcnt in *; layout_lia.
  - split; [by apply mod_shift|]. rewrite (pgsz_count hg). destruct hg; unfold pgcnt in *; layout_lia.
  - intros v Hv Hr. rewrite (en_pte _ _ _ _ _ _ _ _ _ _ En) by done. fold (pgsz hg).
    assert (va / pgsz hg ≠ v / pgsz hg) as Hne.
    { unfold in_run in Hr. rewrite pgsz_count, Z.div_add in Hr by done.
      destruct hg; unfold pgsz, pgcnt in *; [|lia].
      rewrite !hdiv. assert (va / PGSIZE / 512 * 512 = va / PGSIZE) as Hd.
      { rewrite <- hdiv. pose proof (Z.div_mod va HUGE_PGSIZE).
        replace va with (va / HUGE_PGSIZE * 512 * PGSIZE) at 2 by layout_lia. by rewrite Z.div_mul. }
      intros E. rewrite E in Hd. pose proof (Z.div_mod (v / PGSIZE) 512).
      pose proof (Z.mod_pos_bound (v / PGSIZE) 512 ltac:(done)). lia. }
    rewrite decide_False by done. apply Hfree; [done|]. apply (in_run_step hg); auto.
Qed.
Lemma untabled_rest m fl pos va n pa perm hg m1 fl1 pos1 :
  mappable m fl pos va n pa perm → untabled m va n → va mod pgsz hg = 0 → pgcnt hg ≤ n →
  (hg = false → is_hpage_aligned va = false ∨ n < 512) →
  entered m fl pos va (write_perm pa perm) hg 2 m1 fl1 pos1 →
  untabled m1 (va + pgsz hg) (n - pgcnt hg).
Proof.
  intros Ma Hu Hal Hn Hhg En b Hb1 Hb2. destruct (ma_va _ _ _ _ _ _ _ Ma) as (_ & H0 & Hmax).
  destruct (tab m1 root (b * HUGE_PGSIZE)) eqn:Ht; [|done]. exfalso.
  assert (0 ≤ b * HUGE_PGSIZE ≤ MAXVA).
  { destruct hg; unfold pgsz, pgcnt in *; layout_lia. }
  apply (en_tab _ _ _ _ _ _ _ _ _ _ En) in Ht as [Ht|[-> E]]; [|..|done].
  - rewrite Hu in Ht; [done| |]; destruct hg; unfold pgsz, pgcnt in *; layout_lia.
  - rewrite Z.div_mul in E by done. unfold pgsz, pgcnt in *.
    pose proof (Z.div_mod va HUGE_PGSIZE). pose proof (Z.mod_pos_bound va HUGE_PGSIZE ltac:(done)). layout_lia.
Qed.

(** The iterations [map_with_huge] needs, which is also half the free pages
    it may take: one per huge page, at most 511 before and after them. *)
Definition hcost (va n : Z) : Z :=
  if n <? 512 then n else (- (va / PGSIZE)) mod 512 + n / 512 + 511.
Lemma hcost_step hg va n :
  va mod pgsz hg = 0 → pgcnt hg ≤ n → (hg = false → is_hpage_aligned va = false ∨ n < 512) →
  0 ≤ hcost (va + pgsz hg) (n - pgcnt hg) ∧ hcost (va + pgsz hg) (n - pgcnt hg) + 1 ≤ hcost va n.
Proof.
  intros Hal Hn Hhg. unfold hcost. rewrite pgsz_count, Z.div_add by done.
  set (p := va / PGSIZE). assert (hg = true → p mod 512 = 0) as Hp.
  { intros ->. unfold pgsz in Hal. change HUGE_PGSIZE with (PGSIZE * 512) in Hal.
    rewrite Z.rem_mul_r in Hal by done. fold p in Hal.
    pose proof (Z.mod_pos_bound va PGSIZE ltac:(done)). pose proof (Z.mod_pos_bound p 512 ltac:(done)). layout_lia. }
  assert (hg = false → is_hpage_aligned va = false → p mod 512 ≠ 0) as Hp'.
  { intros -> Hh E. apply Z.eqb_neq in Hh. apply Hh. change HUGE_PGSIZE with (PGSIZE * 512).
    rewrite Z.rem_mul_r by done. fold p. unfold pgsz in Hal. lia. }
  clearbody p. destruct hg; unfold pgcnt in *; simpl in *.
  - specialize (Hp eq_refl). destruct (Z.ltb_spec (n - 512) 512), (Z.ltb_spec n 512);
      Z.to_euclidean_division_equations; lia.
  - specialize (Hhg eq_refl). specialize (Hp' eq_refl).
    destruct (Z.ltb_spec (n - 1) 512), (Z.ltb_spec n 512); [Z.to_euclidean_division_equations; lia..|].
    destruct Hhg as [Hh|]; [|lia]. specialize (Hp' Hh). Z.to_euclidean_division_equations; lia.
Qed.

(** A huge step is taken only where the block has no entry. *)
Lemma mid_free m fl pos va n pa perm :
  mappable m fl pos va n pa perm → untabled m va n → va mod HUGE_PGSIZE = 0 → 512 ≤ n →
  mid m root va = None.
Proof.
  intros Ma Hu Hal Hn. destruct (ma_first _ _ _ _ _ _ _ Ma ltac:(lia)) as (Hva & _ & Hnone).
  destruct (mid m root va) as [e|] eqn:Em; [|done]. exfalso.
  rewrite (pte_mid m fl pos), Em in Hnone by (done || apply Ma). cbn [mbind option_bind] in Hnone.
  destruct (is_leaf e) eqn:Hl; [done|]. pose proof (Hu (va / HUGE_PGSIZE)) as Ht.
  replace (va / HUGE_PGSIZE * HUGE_PGSIZE) with va in Ht by (pose proof (Z.div_mod va HUGE_PGSIZE); layout_lia).
  unfold tab in Ht. rewrite Em, Hl in Ht. cbn [negb] in Ht. discriminate Ht; [lia|].
  pose proof (Z.div_mod va HUGE_PGSIZE). layout_lia.
Qed.

Lemma map_with_huge_loop_run fuel n m fl pos va pa perm :
  mappable m fl pos va n pa perm → untabled m va n →
  (pa - va) mod HUGE_PGSIZE = 0 ∨ n < 512 → 0 ≤ n ≤ Z.of_nat fuel →
  2 * hcost va n ≤ Z.of_nat (length fl) →
  ∃ m' fl' pos' cost,
    PageTable.map_with_huge_loop fuel root va pa (va + n * PGSIZE) perm m = Done (true, m') ∧
    cost ≤ hcost va n ∧ mapped m fl pos va n pa perm cost m' fl' pos'.
Proof.
  revert n m fl pos va pa. induction fuel as [|fuel IH]; intros n m fl pos va pa Ma Hu Hco Hn Hfl.
  { assert (n = 0) as -> by lia. exists m, fl, pos, 0. cbn [PageTable.map_with_huge_loop].
    rewrite Z.add_0_r, Z.eqb_refl. split_and!; [done|done|]. apply mapped_nil; apply Ma. }
  cbn [PageTable.map_with_huge_loop]. destruct (decide (n = 0)) as [->|Hn0].
  { exists m, fl, pos, 0. rewrite Z.add_0_r, Z.eqb_refl. split_and!; [done|done|]. apply mapped_nil; apply Ma. }
  destruct (ma_first _ _ _ _ _ _ _ Ma ltac:(lia)) as (Hva & Hpa & Hnone).
  destruct (ma_va _ _ _ _ _ _ _ Ma) as (Hal & _ & Hmax). destruct (ma_pa _ _ _ _ _ _ _ Ma) as (Hpal & Hp0 & Hp1).
  pose proof (ma_perm _ _ _ _ _ _ _ Ma) as Hlp.
  rewrite (proj2 (Z.eqb_neq _ _)) by layout_lia.
  (* the choice of the page size *)
  set (hg := is_hpage_aligned va && (512 <=? n)).
  erewrite (bind_run _ _ m hg m).
  2:{ unfold hg. destruct (is_hpage_aligned va); [|done]. rewrite bind_usub by layout_lia.
      assert ((HUGE_PGSIZE <=? va + n * PGSIZE - va) = (512 <=? n)) as ->; [|done].
      apply eq_iff_eq_true. rewrite !Z.leb_le. layout_lia. }
  assert (va mod pgsz hg = 0 ∧ pa mod pgsz hg = 0 ∧ pgcnt hg ≤ n ∧
    (hg = false → is_hpage_aligned va = false ∨ n < 512)) as (Hh1 & Hh2 & Hh3 & Hh4).
  { unfold hg. destruct (is_hpage_aligned va) eqn:E1; [|by split_and!; [..|auto]; simpl; try lia].
    apply Z.eqb_eq in E1. destruct (Z.leb_spec 512 n); cbn [andb pgsz pgcnt].
    - destruct Hco as [Hco|?]; [|lia]. split_and!; [done| |done|done].
      replace pa with (pa - va + va) by lia. by apply mod_shift.
    - split_and!; [done..|lia|by right]. }
  destruct (hcost_step hg va n Hh1 Hh3 Hh4) as [Hc0 Hc1].
  assert (∃ p i m1 e0 m2 fl2 pos2,
    (if hg then PageTable.translate_huge root va true else PageTable.translate root va true) m =
      Done (Some (PageTable.entry p i), m1) ∧
    read_word (PageTable.entry p i) m1 = Done (e0, m1) ∧ is_valid e0 = false ∧
    write_word (PageTable.entry p i) (write_perm pa perm) m1 = Done (tt, m2) ∧
    entered m fl pos va (write_perm pa perm) hg 2 m2 fl2 pos2)
    as (p & i & m1 & e0 & m2 & fl2 & pos2 & E & Er & Hv0 & Ew & En).
  { destruct hg eqn:Ehg; [apply huge_step|apply small_step]; try solve [done|apply Ma|by apply Hlp|lia].
    eapply mid_free; [done..|]. by unfold pgcnt in Hh3. }
  destruct (IH (n - pgcnt hg) m2 fl2 pos2 (va + pgsz hg) (pa + pgsz hg))
    as (m' & fl' & pos' & cost & E' & Hcost & Md).
  { by eapply ma_rest. } { by eapply untabled_rest. }
  { destruct Hco as [Hco|]; [left|right; destruct hg; unfold pgcnt; lia].
    by replace (pa + pgsz hg - (va + pgsz hg)) with (pa - va) by lia. }
  { destruct hg; unfold pgcnt in *; lia. }
  { pose proof (en_used _ _ _ _ _ _ _ _ _ _ En). lia. }
  exists m', fl', pos', (cost + 1). split_and!; [|lia|eapply mapped_cons; first [done|apply Ma]].
  replace (va + n * PGSIZE) with (va + pgsz hg + (n - pgcnt hg) * PGSIZE) by (rewrite pgsz_count; lia).
  rewrite <- E'. clear - E Er Hv0 Ew Hmax Hva Hp0 Hp1 Hh3. destruct hg; mstep E; cbv beta iota; mstep Er; rewrite Hv0; mstep Ew.
  - unfold add_huge_page. unfold pgcnt in *. by rewrite !bind_uadd by layout_lia.
  - unfold add_page. unfold pgcnt in *. by rewrite !bind_uadd by layout_lia.
Qed.

(** [map] on the same table: one page at a time. *)
Lemma map_loop_huge_run fuel n m fl pos va pa perm :
  mappable m fl pos va n pa perm → n = Z.of_nat fuel → 2 * n ≤ Z.of_nat (length fl) →
  ∃ m' fl' pos',
    PageTable.map_loop fuel root va pa (va + n * PGSIZE) perm m = Done (true, m') ∧
    mapped m fl pos va n pa perm n m' fl' pos'.
Proof.
  revert n m fl pos va pa. induction fuel as [|fuel IH]; intros n m fl pos va pa Ma Hn Hfl.
  { assert (n = 0) as -> by lia. exists m, fl, pos. cbn [PageTable.map_loop].
    rewrite Z.add_0_r, Z.eqb_refl. split; [done|]. apply mapped_nil; apply Ma. }
  cbn [PageTable.map_loop].
  destruct (ma_first _ _ _ _ _ _ _ Ma ltac:(lia)) as (Hva & Hpa & Hnone).
  destruct (ma_va _ _ _ _ _ _ _ Ma) as (Hal & _ & Hmax). destruct (ma_pa _ _ _ _ _ _ _ Ma) as (Hpal & Hp0 & Hp1).
  pose proof (ma_perm _ _ _ _ _ _ _ Ma) as Hlp. rewrite (proj2 (Z.eqb_neq _ _)) by layout_lia.
  destruct (small_step m fl pos va pa perm)
    as (p & i & m1 & e0 & m2 & fl2 & pos2 & E & Er & Hv0 & Ew & En);
    [apply Ma|apply Ma|done|done|apply Hlp|done|lia|].
  destruct (IH (n - 1) m2 fl2 pos2 (va + PGSIZE) (pa + PGSIZE)) as (m' & fl' & pos' & E' & Md).
  { eapply (ma_rest _ _ _ _ _ _ _ false); try done. simpl. lia. } { lia. }
  { pose proof (en_used _ _ _ _ _ _ _ _ _ _ En). lia. }
  exists m', fl', pos'. split.
  - mstep E. cbv beta iota. mstep Er. rewrite Hv0. mstep Ew. unfold add_page. rewrite !bind_uadd by layout_lia.
    rewrite <- E'. f_equal. lia.
  - replace n with (n - 1 + 1) at 2 by lia.
    eapply (mapped_cons _ _ _ _ _ _ _ false); try done || apply Ma. simpl. lia.
Qed.

(** The rounding in front of both loops. *)
Lemma round_run {B} va size m (k : Z → Z → M mem B) :
  let n := run_pages va size in let va0 := va / PGSIZE * PGSIZE in
  0 ≤ va → 0 ≤ size → va0 + (n - 1) * PGSIZE ≤ MAXVA →
  (last0 ← uadd 64 va size; let va := pg_round_down va in last ← pg_round_up last0; k va last) m =
    k va0 (va0 + n * PGSIZE) m ∧ (va0 + n * PGSIZE - va0) / PGSIZE = n ∧ 0 ≤ n.
Proof.
  intros n va0 Hva Hsz Hmax.
  assert (0 ≤ n) as Hn.
  { unfold n, run_pages. enough (va / PGSIZE ≤ (va + size + PGSIZE - 1) / PGSIZE) by lia.
    apply Z.div_le_mono; layout_lia. }
  assert (va0 = va - va mod PGSIZE) as Hva0.
  { unfold va0. pose proof (Z.div_mod va PGSIZE). layout_lia. }
  assert (va + size + PGSIZE - 1 - (va + size + PGSIZE - 1) mod PGSIZE = va0 + n * PGSIZE) as Hlast.
  { unfold va0, n, run_pages. pose proof (Z.div_mod (va + size + PGSIZE - 1) PGSIZE). layout_lia. }
  pose proof (Z.mod_pos_bound (va + size + PGSIZE - 1) PGSIZE ltac:(done)).
  pose proof (Z.mod_pos_bound va PGSIZE ltac:(done)).
  split_and!; [|by rewrite Z.add_simpl_l, Z.div_mul|done].
  rewrite bind_uadd by layout_lia. cbv zeta. rewrite pg_round_down_eq by (unfold in_u; layout_lia).
  rewrite <- Hva0. mstep (pg_round_up_run (va + size) m ltac:(lia) ltac:(layout_lia)). by rewrite Hlast.
Qed.

(** [map_with_huge] maps the pages of the byte range to those from [pa]. *)
Lemma map_with_huge_run m fl pos va pa size perm :
  let n := run_pages va size in let va0 := va / PGSIZE * PGSIZE in
  0 ≤ va → 0 ≤ size → mappable m fl pos va0 n pa perm → untabled m va0 n →
  (pa - va0) mod HUGE_PGSIZE = 0 ∨ n < 512 → 2 * hcost va0 n ≤ Z.of_nat (length fl) →
  ∃ m' fl' pos',
    PageTable.map_with_huge root va pa size perm m = Done (true, m') ∧
    mapped m fl pos va0 n pa perm (hcost va0 n) m' fl' pos'.
Proof.
  intros n va0 Hva Hsz Ma Hu Hco Hfl. destruct (ma_va _ _ _ _ _ _ _ Ma) as (_ & _ & Hmax).
  destruct (round_run va size m (λ va last,
    PageTable.map_with_huge_loop (Z.to_nat ((last - va) / PGSIZE)) root va pa last perm))
    as (E & Hd & Hn); [done..|]. fold n va0 in E, Hd, Hn.
  destruct (map_with_huge_loop_run (Z.to_nat n) n m fl pos va0 pa perm)
    as (m' & fl' & pos' & cost & E' & Hcost & Md); [done..|lia|done|].
  exists m', fl', pos'. split.
  - unfold PageTable.map_with_huge. etrans; [exact E|]. cbv beta. by rewrite Hd.
  - destruct Md. split; try done. lia.
Qed.
Lemma map_huge_run m fl pos va pa size perm :
  let n := run_pages va size in let va0 := va / PGSIZE * PGSIZE in
  0 ≤ va → 0 ≤ size → mappable m fl pos va0 n pa perm → 2 * n ≤ Z.of_nat (length fl) →
  ∃ m' fl' pos',
    PageTable.map root va pa size perm m = Done (true, m') ∧
    mapped m fl pos va0 n pa perm n m' fl' pos'.
Proof.
  intros n va0 Hva Hsz Ma Hfl. destruct (ma_va _ _ _ _ _ _ _ Ma) as (_ & _ & Hmax).
  destruct (round_run va size m (λ va last,
    PageTable.map_loop (Z.to_nat ((last - va) / PGSIZE)) root va pa last perm))
    as (E & Hd & Hn); [done..|]. fold n va0 in E, Hd, Hn.
  destruct (map_loop_huge_run (Z.to_nat n) n m fl pos va0 pa perm) as (m' & fl' & pos' & E' & Md); [done|lia|done|].
  exists m', fl', pos'. split; [|done].
  unfold PageTable.map. etrans; [exact E|]. cbv beta. by rewrite Hd.
Qed.
Lemma hcost_bound va n : 0 ≤ n → hcost va n ≤ n / 512 + 1022.
Proof.
  intros Hn. unfold hcost. pose proof (Z.mod_pos_bound (- (va / PGSIZE)) 512 ltac:(done)).
  destruct (Z.ltb_spec n 512); Z.to_euclidean_division_equations; lia.
Qed.
End huge.
