(* ===== verification/Cow.v ===== *)
(** * Copy-on-write

    [ucopy_nocopy] (what [fork] does to the parent's memory) and [uload_page]
    (what a store page fault does) of [memory/mapping/pagetable.rs], on two
    address spaces that share data pages but no table page. *)
From S2P Require Import Prelude Layout Pte Kalloc PageTable PageTableFacts MapFacts.
Import Addr PageTableEntry.

(** ** The entries of shared pages *)
Section entries.
Implicit Types e pa : Z.

Lemma to_cow_bit e i :
  0 ≤ i < 64 →
  Z.testbit (to_cow_page e) i = (Z.testbit e i && negb (2 =? i)) || (8 =? i).
Proof.
  intros Hi. unfold to_cow_page, unot.
  rewrite Z.lor_spec, Z.land_spec, Z.ldiff_spec, Z.ones_spec_low by lia.
  change PTE_W with (2 ^ 2). change PTE_RS1 with (2 ^ 8).
  by rewrite !Z.pow2_bits_eqb by lia.
Qed.

Lemma to_cow_in_u e : in_u 64 e → in_u 64 (to_cow_page e).
Proof.
  intros He. apply lor_in_u; [lia| |by vm_compute].
  split; [apply Z.land_nonneg; left; apply He|].
  apply bits_bound; [lia|apply Z.land_nonneg; left; apply He|].
  intros i Hi. by rewrite Z.land_spec, (high_bits_zero e 64).
Qed.

Lemma to_cow_valid e : is_valid (to_cow_page e) = is_valid e.
Proof. rewrite !is_valid_bit, to_cow_bit by lia. by destruct (Z.testbit e 0). Qed.

Lemma to_cow_not_write e : is_write (to_cow_page e) = false.
Proof. rewrite !is_write_bit, to_cow_bit by lia. by destruct (Z.testbit e 2). Qed.

Lemma shiftr_10_bits e e' :
  in_u 64 e → in_u 64 e' → (∀ i, 10 ≤ i < 64 → Z.testbit e i = Z.testbit e' i) →
  as_pagetable e = as_pagetable e'.
Proof.
  intros He He' H. unfold as_pagetable. f_equal. apply Z.bits_inj'. intros i Hi.
  rewrite !Z.shiftr_spec by lia. destruct (Z.ltb_spec (i + 10) 64); [apply H; lia|].
  by rewrite !(high_bits_zero _ 64) by (done || lia).
Qed.

Lemma to_cow_pa e : in_u 64 e → as_pagetable (to_cow_page e) = as_pagetable e.
Proof.
  intros He. apply shiftr_10_bits; [by apply to_cow_in_u|done|].
  intros i Hi. rewrite to_cow_bit by lia.
  rewrite (proj2 (Z.eqb_neq 2 i)), (proj2 (Z.eqb_neq 8 i)) by lia.
  by rewrite andb_true_r, orb_false_r.
Qed.

(** The entry [ucopy_nocopy] gives the child for the parent's entry [e]. *)
Definition cow_child e : Z :=
  write_perm (as_pagetable (to_cow_page e)) (PteFlags.new (as_flags (to_cow_page e))).

Lemma flags_new e : PteFlags.new (as_flags e) = as_flags e.
Proof.
  unfold PteFlags.new, PteFlags.all, as_flags.
  by rewrite (Z.land_comm 0x3FF), <- Z.land_assoc.
Qed.

(** Same page, same permissions, both without the write bit. *)
Lemma cow_child_spec e :
  in_u 64 e → is_valid e = true → is_page (as_pagetable e) →
  as_pagetable (cow_child e) = as_pagetable e ∧
  as_flags (cow_child e) = as_flags (to_cow_page e) ∧ is_valid (cow_child e) = true.
Proof.
  intros He Hv Hp. unfold cow_child. rewrite flags_new, to_cow_pa by done.
  pose proof (is_page_pa_ok _ Hp) as Hpa.
  pose proof (as_flags_range (to_cow_page e)) as Hr.
  split_and!; [by apply write_perm_pa| |by apply write_perm_valid].
  rewrite write_perm_flags by done. apply Z.bits_inj'. intros i Hi.
  rewrite Z.lor_spec. change PTE_V with (2 ^ 0). rewrite Z.pow2_bits_eqb by lia.
  destruct (Z.eqb_spec 0 i) as [<-|]; [|by rewrite orb_false_r].
  rewrite as_flags_bit, <- is_valid_bit, to_cow_valid, Hv by lia. done.
Qed.
End entries.

(** ** Sharing one page *)
Section share.
Context (heap r1 r2 : Z).
Implicit Types (m : mem) (fl : list Z) (pos : gmap Z (nat * Z)) (p q va pa e : Z) (n : nat).
Abbreviation wf := (pt_wf heap false).

(** Two address spaces over one memory; no page is a table of both. *)
Record two_spaces (m : mem) (fl : list Z) (pos1 pos2 : gmap Z (nat * Z)) : Prop := {
  ts_kinv : kinv heap m fl;
  ts_fst : wf m fl r1 pos1;
  ts_snd : wf m fl r2 pos2;
  ts_disj : pos1 ##ₘ pos2
}.

(** The pages [pas] have one more reference each; no data page changed. *)
Record shared (m : mem) (fl : list Z) (pos1 pos2 : gmap Z (nat * Z)) (pas : list Z)
    (m' : mem) (fl' : list Z) (pos2' : gmap Z (nat * Z)) : Prop := {
  sh_fl : fl' `suffix_of` fl;
  sh_new : ∀ q, is_Some (pos2' !! q) → is_Some (pos2 !! q) ∨ q ∈ fl;
  sh_dom : ∀ q, is_Some (ram m' !! q) ↔ is_Some (ram m !! q);
  sh_ram : ∀ q, q ∉ fl → pos1 !! q = None → pos2 !! q = None → ram m' !! q = ram m !! q;
  sh_cnt : ∀ q, is_page q → q ∉ fl →
    cnt m' q = if decide (q ∈ pas) then cnt m q + 1 else cnt m q
}.

Lemma disj_l (pos1 pos2 : gmap Z (nat * Z)) q x : pos1 ##ₘ pos2 → pos1 !! q = Some x → pos2 !! q = None.
Proof. intros. by eapply map_disjoint_Some_l. Qed.
Lemma disj_r (pos1 pos2 : gmap Z (nat * Z)) q x : pos1 ##ₘ pos2 → pos2 !! q = Some x → pos1 !! q = None.
Proof. intros. by eapply map_disjoint_Some_r. Qed.

(** Rewriting a leaf of the first space. *)
Lemma set_leaf_two m fl pos1 pos2 va p i e e' :
  two_spaces m fl pos1 pos2 → 0 ≤ va ≤ MAXVA → walk 2 m r1 va = Some (p, i) →
  in_u 64 e' → is_valid e' = true →
  let m' := set_word m p i e' in
  two_spaces m' fl pos1 pos2 ∧
  (∀ va', 0 ≤ va' ≤ MAXVA → pte_at m' r1 va' =
     if decide (va / PGSIZE = va' / PGSIZE) then Some e' else pte_at m r1 va') ∧
  (∀ va', 0 ≤ va' ≤ MAXVA → pte_at m' r2 va' = pte_at m r2 va').
Proof.
  intros [K W1 W2 Hd] Hva Hw Hu Hv m'.
  destruct (pte_at_word heap r1 m fl pos1 va p i) as (Hi & _ & _ & Hpp & _); [done..|].
  destruct (pt_frame heap r2 m fl pos2 m' fl W2) as (W2' & _ & Hpte2).
  { intros q x Hq. split.
    - apply set_word_ram_ne. intros ->. pose proof (disj_l _ _ _ _ Hd Hpp). congruence.
    - apply (pw_page _ _ _ _ _ _ W2 _ _ Hq). }
  split_and!; [|intros va' Hva'|done].
  - split; [eapply (set_leaf_kinv heap false r1 m fl pos1); done|eapply set_leaf_wf; done|done|done].
  - unfold m'. erewrite set_leaf_leaf_at by done. rewrite Hv.
    destruct (decide (va / PGSIZE = va' / PGSIZE)) as [Heq|Hne].
    + rewrite decide_True; [done|]. by rewrite <- (walk_vpn 2 m r1 va va').
    + rewrite decide_False; [done|]. intros Hw'. apply Hne.
      by eapply (walk_same heap false r1 m fl pos1 va va' p i).
Qed.

(** Taking a reference. *)
Lemma add_count_two m fl pos1 pos2 pa :
  two_spaces m fl pos1 pos2 → is_Some (ram m !! pa) → heap ≤ pa → 1 ≤ cnt m pa < 2 ^ 31 - 1 →
  two_spaces (add_count_post m pa) fl pos1 pos2.
Proof.
  intros [K W1 W2 Hd] Hs Hh Hc. split; [by apply add_count_post_kinv| | |done].
  - apply (pt_frame heap r1 m fl pos1 _ fl W1). intros q x Hq.
    split; [done|]. apply (pw_page _ _ _ _ _ _ W1 _ _ Hq).
  - apply (pt_frame heap r2 m fl pos2 _ fl W2). intros q x Hq.
    split; [done|]. apply (pw_page _ _ _ _ _ _ W2 _ _ Hq).
Qed.

(** Mapping one page in the second space. *)
Lemma map_two m fl pos1 pos2 va pa perm :
  two_spaces m fl pos1 pos2 → va mod PGSIZE = 0 → 0 ≤ va ≤ MAXVA → is_page pa →
  perm_ok perm → pte_at m r2 va = None → (2 ≤ length fl)%nat →
  ∃ m' fl' pos2', PageTable.map r2 va pa PGSIZE perm m = Done (true, m') ∧
    two_spaces m' fl' pos1 pos2' ∧ grows m fl pos2 m' fl' pos2' ∧
    (length fl ≤ length fl' + 2)%nat ∧
    (∀ va', 0 ≤ va' ≤ MAXVA → pte_at m' r2 va' =
       if decide (va / PGSIZE = va' / PGSIZE) then Some (write_perm pa perm)
       else pte_at m r2 va') ∧
    (∀ va', 0 ≤ va' ≤ MAXVA → pte_at m' r1 va' = pte_at m r1 va').
Proof.
  intros [K W1 W2 Hd] Hal Hva Hpa Hperm Hnone Hfl.
  pose proof (is_page_pos _ Hpa) as (? & ? & ?). pose proof Hpa as [Hpal Hpr].
  pose proof (Z.div_mod va PGSIZE ltac:(layout_lia)) as Hdm.
  destruct (map_run heap r2 m fl pos2 va pa PGSIZE perm)
    as (m' & fl' & pos2' & E & K' & W2' & G & Hlen & Hpte);
    rewrite ?run_pages_one by done;
    [done|done|done|lia|layout_lia|layout_lia|done|lia|layout_lia| |lia|].
  { intros k Hk. rewrite <- Hnone. apply pte_at_vpn. rewrite Z.div_mul by layout_lia. lia. }
  rewrite run_pages_one in Hlen, Hpte by done.
  destruct (pt_frame heap r1 m fl pos1 m' fl' W1) as (W1' & _ & Hpte1).
  { intros q x Hq. destruct (pw_page _ _ _ _ _ _ W1 _ _ Hq) as (_ & Hf & _).
    destruct (grows_outside _ _ _ _ _ _ q G) as (? & ? & ?); [done|by eapply disj_l|done]. }
  exists m', fl', pos2'. split_and!; [done| |done|lia| |done].
  - split; [done..|]. apply map_disjoint_spec. intros q x y Hx Hy.
    destruct (pw_page _ _ _ _ _ _ W1 _ _ Hx) as (_ & Hf & _).
    destruct (grows_outside _ _ _ _ _ _ q G) as (_ & ? & _); [done|by eapply disj_l|congruence].
  - intros va' Hva'. rewrite Hpte by done. unfold in_run. repeat case_decide; try done; try lia.
    do 2 f_equal. replace (va' / PGSIZE - va / PGSIZE) with 0 by lia. lia.
Qed.

(** One iteration of [ucopy_nocopy]. *)
Lemma ucopy_nocopy_step m fl pos1 pos2 va e end_ n :
  let pa := as_pagetable e in
  two_spaces m fl pos1 pos2 → va mod PGSIZE = 0 → 0 ≤ va < end_ → va ≤ MAXVA →
  pte_at m r1 va = Some e → pte_at m r2 va = None →
  data_page heap m pos1 pa → pos2 !! pa = None → cnt m pa < 2 ^ 31 - 1 → (2 ≤ length fl)%nat →
  ∃ m' fl' pos2',
    PageTable.ucopy_nocopy_loop (S n) r1 r2 va end_ m =
      PageTable.ucopy_nocopy_loop n r1 r2 (va + PGSIZE) end_ m' ∧
    two_spaces m' fl' pos1 pos2' ∧ shared m fl pos1 pos2 [pa] m' fl' pos2' ∧
    (length fl ≤ length fl' + 2)%nat ∧
    (∀ va', 0 ≤ va' ≤ MAXVA → pte_at m' r1 va' =
       if decide (va / PGSIZE = va' / PGSIZE) then Some (to_cow_page e) else pte_at m r1 va') ∧
    (∀ va', 0 ≤ va' ≤ MAXVA → pte_at m' r2 va' =
       if decide (va / PGSIZE = va' / PGSIZE) then Some (cow_child e) else pte_at m r2 va').
Proof.
  intros pa T Hal Hva Hmax Hpte Hnone (Hs & Hh & Hc & Hn1) Hn2 Hc' Hfl.
  pose proof T as [K W1 W2 Hd].
  cbn [PageTable.ucopy_nocopy_loop]. rewrite (proj2 (Z.eqb_neq va end_)) by lia.
  destruct (pte_at_inv heap r1 m fl pos1 va e)
    as (p & i & Hw & He & Hu & Hv & Hi & Hps & Hpal & Hpp & Et & Er); [done|done|lia|done|].
  mstep Et. cbv beta iota. mstep Er.
  rewrite Hv. cbn [negb]. mstep (set_word_run m p i (to_cow_page e) Hps Hpal Hi).
  destruct (set_leaf_two m fl pos1 pos2 va p i e (to_cow_page e)) as (T1 & Hp1 & Hp1');
    [done|lia|done|by apply to_cow_in_u|by rewrite to_cow_valid|].
  set (m1 := set_word m p i (to_cow_page e)) in *.
  assert (word m1 p i = Some (to_cow_page e)) as He1.
  { unfold m1. rewrite word_set_word; [by rewrite decide_True|apply K|done|done|lia]. }
  mstep (word_run _ _ _ _ He1 Hpal Hi). cbv zeta. rewrite to_cow_pa by done. fold pa.
  assert (is_page pa) as Hpg by (by eapply kinv_page).
  assert (is_Some (ram m1 !! pa)) as Hs1 by (by apply set_word_dom).
  mstep (add_count_run m1 pa Hpg ltac:(unfold m1; rewrite cnt_set_word; lia)).
  pose proof (add_count_two m1 fl pos1 pos2 pa T1 Hs1 Hh ltac:(unfold m1; rewrite cnt_set_word; lia)) as T2.
  set (m2 := add_count_post m1 pa) in *.
  destruct (map_two m2 fl pos1 pos2 va pa (PteFlags.new (as_flags (to_cow_page e))))
    as (m' & fl' & pos2' & E & T' & G & Hlen & Hp2 & Hp2');
    [done|done|lia|done|rewrite flags_new; apply as_flags_range| |done|].
  { change (pte_at m2 r2 va) with (pte_at m1 r2 va). rewrite Hp1' by lia. done. }
  mstep E. cbn [negb]. unfold add_page. rewrite bind_uadd by layout_lia.
  exists m', fl', pos2'. split_and!; [done|done| |done| |].
  - split; [apply G|apply G| | |].
    + intros q. rewrite (gr_dom _ _ _ _ _ _ G). apply set_word_dom.
    + intros q Hq Hq1 Hq2. rewrite (gr_ram _ _ _ _ _ _ G) by done.
      apply set_word_ram_ne. congruence.
    + intros q Hq Hf. rewrite (gr_cnt _ _ _ _ _ _ G) by done.
      unfold m2, add_count_post. rewrite cnt_insert by done. unfold m1. rewrite !cnt_set_word.
      rewrite (decide_ext (q ∈ [pa]) (pa = q)) by (rewrite list_elem_of_singleton; done).
      case_decide; by subst.
  - intros va' Hva'. rewrite Hp2' by done. by apply Hp1.
  - intros va' Hva'. rewrite Hp2 by done. unfold cow_child. rewrite to_cow_pa by done.
    fold pa. case_decide; [done|]. by apply Hp1'.
Qed.

Lemma shared_cons m fl pos1 pos2 pa m1 fl1 pos2_1 pas m2 fl2 pos2_2 :
  pa ∉ pas →
  shared m fl pos1 pos2 [pa] m1 fl1 pos2_1 →
  shared m1 fl1 pos1 pos2_1 pas m2 fl2 pos2_2 →
  shared m fl pos1 pos2 (pa :: pas) m2 fl2 pos2_2.
Proof.
  intros Hn S1 S2.
  assert (∀ q, q ∉ fl → q ∉ fl1) as Hf.
  { intros q Hq Hq1. destruct (sh_fl _ _ _ _ _ _ _ _ S1) as [k ->].
    apply Hq, elem_of_app. by right. }
  split.
  - etrans; [apply S2|apply S1].
  - intros q Hq. destruct (sh_new _ _ _ _ _ _ _ _ S2 q Hq) as [?|?]; [by apply S1|].
    right. destruct (sh_fl _ _ _ _ _ _ _ _ S1) as [k ->]. apply elem_of_app. by right.
  - intros q. rewrite (sh_dom _ _ _ _ _ _ _ _ S2). apply S1.
  - intros q Hq Hq1 Hq2. rewrite (sh_ram _ _ _ _ _ _ _ _ S2); [by apply S1|by apply Hf|done|].
    destruct (pos2_1 !! q) eqn:E; [|done].
    destruct (sh_new _ _ _ _ _ _ _ _ S1 q) as [[? ?]|?]; [by eexists|congruence|done].
  - intros q Hq Hfq. rewrite (sh_cnt _ _ _ _ _ _ _ _ S2), (sh_cnt _ _ _ _ _ _ _ _ S1) by auto.
    repeat case_decide; done || (exfalso; set_solver).
Qed.

(** The parent's pages: virtual page [va + k * PGSIZE] has entry [es !! k], a
    data page of the parent that the child does not map. *)
Definition parent_run m pos1 pos2 (va : Z) (es : list Z) : Prop :=
  ∀ k e, es !! k = Some e →
    pte_at m r1 (va + Z.of_nat k * PGSIZE) = Some e ∧
    pte_at m r2 (va + Z.of_nat k * PGSIZE) = None ∧
    data_page heap m pos1 (as_pagetable e) ∧ pos2 !! as_pagetable e = None ∧
    cnt m (as_pagetable e) < 2 ^ 31 - 1.

Lemma data_page_not_free m fl pos p : kinv heap m fl → data_page heap m pos p → p ∉ fl.
Proof.
  intros K (_ & _ & Hc & _) Hin. apply (kinv_free_page _ _ _ _ K) in Hin. lia.
Qed.

Lemma run_cons {A} (x : A) (xs : list A) va va' (o : option A) :
  va mod PGSIZE = 0 →
  (if decide (in_run (va + PGSIZE) (Z.of_nat (length xs)) va')
   then xs !! Z.to_nat (va' / PGSIZE - (va + PGSIZE) / PGSIZE)
   else if decide (va / PGSIZE = va' / PGSIZE) then Some x else o) =
  (if decide (in_run va (Z.of_nat (S (length xs))) va')
   then (x :: xs) !! Z.to_nat (va' / PGSIZE - va / PGSIZE) else o).
Proof.
  intros Hal. pose proof (page_next va 0 Hal) as Hd. rewrite Z.mul_0_l, Z.add_0_r in Hd.
  unfold in_run. repeat case_decide; try lia; try done.
  - replace (Z.to_nat (va' / PGSIZE - va / PGSIZE))
      with (S (Z.to_nat (va' / PGSIZE - (va + PGSIZE) / PGSIZE))) by lia. done.
  - by replace (va' / PGSIZE - va / PGSIZE) with 0 by lia.
Qed.

Lemma ucopy_nocopy_loop_run es m fl pos1 pos2 va :
  two_spaces m fl pos1 pos2 → va mod PGSIZE = 0 → 0 ≤ va →
  va + (Z.of_nat (length es) - 1) * PGSIZE ≤ MAXVA →
  NoDup (as_pagetable <$> es) → parent_run m pos1 pos2 va es →
  (2 * length es ≤ length fl)%nat →
  ∃ m' fl' pos2',
    PageTable.ucopy_nocopy_loop (length es) r1 r2 va
      (va + Z.of_nat (length es) * PGSIZE) m = Done (Ok tt, m') ∧
    two_spaces m' fl' pos1 pos2' ∧
    shared m fl pos1 pos2 (as_pagetable <$> es) m' fl' pos2' ∧
    (length fl ≤ length fl' + 2 * length es)%nat ∧
    (∀ va', 0 ≤ va' ≤ MAXVA → pte_at m' r1 va' =
       if decide (in_run va (Z.of_nat (length es)) va')
       then to_cow_page <$> es !! Z.to_nat (va' / PGSIZE - va / PGSIZE)
       else pte_at m r1 va') ∧
    (∀ va', 0 ≤ va' ≤ MAXVA → pte_at m' r2 va' =
       if decide (in_run va (Z.of_nat (length es)) va')
       then cow_child <$> es !! Z.to_nat (va' / PGSIZE - va / PGSIZE)
       else pte_at m r2 va').
Proof.
  revert m fl pos2 va. induction es as [|e es IH];
    intros m fl pos2 va T Hal H0 Hmax Hnd Hrun Hfl; simpl length in *.
  { exists m, fl, pos2. split_and!; [|done| |lia| |].
    - simpl. by rewrite Z.mul_0_l, Z.add_0_r, Z.eqb_refl.
    - split; [done|auto|done|done|]. intros q _ _. by rewrite decide_False by set_solver.
    - intros va' _. rewrite decide_False; [done|]. unfold in_run. lia.
    - intros va' _. rewrite decide_False; [done|]. unfold in_run. lia. }
  destruct (Hrun 0%nat e eq_refl) as (He1 & He2 & D & Hn2 & Hc).
  rewrite Z.mul_0_l, Z.add_0_r in He1, He2. rewrite fmap_cons in Hnd |- *.
  apply NoDup_cons in Hnd as [Hnin Hnd].
  destruct (ucopy_nocopy_step m fl pos1 pos2 va e (va + Z.of_nat (S (length es)) * PGSIZE) (length es))
    as (m1 & fl1 & pos2_1 & E1 & T1 & S1 & Hlen1 & Hp1 & Hp2);
    [done|done|layout_lia|layout_lia|done..|lia|].
  rewrite E1.
  destruct (IH m1 fl1 pos2_1 (va + PGSIZE)) as (m' & fl' & pos2' & E' & T' & S' & Hlen' & Hp1' & Hp2');
    [done| |layout_lia|layout_lia|done| |lia|].
  { rewrite Z.add_mod, Hal by layout_lia. done. }
  { intros k e' Hk. pose proof (lookup_lt_Some _ _ _ Hk) as Hlt.
    destruct (Hrun (S k) e' Hk) as (Ha & Hb & D' & Hn' & Hc').
    replace (va + Z.of_nat (S k) * PGSIZE) with (va + PGSIZE + Z.of_nat k * PGSIZE) in * by lia.
    pose proof (page_next va (Z.of_nat k) Hal) as Hd.
    rewrite Hp1, Hp2, !decide_False by (layout_lia || lia).
    pose proof (data_page_not_free _ _ _ _ (ts_kinv _ _ _ _ T) D') as Hf.
    destruct D' as (Hs & Hh & Hc1 & Hp). pose proof (kinv_page _ _ _ _ (ts_kinv _ _ _ _ T) Hs) as Hpg.
    assert (cnt m1 (as_pagetable e') = cnt m (as_pagetable e')) as Hcnt.
    { rewrite (sh_cnt _ _ _ _ _ _ _ _ S1) by done. rewrite decide_False; [done|].
      intros E%list_elem_of_singleton. apply Hnin. rewrite <- E.
      apply list_elem_of_fmap_2. by eapply list_elem_of_lookup_2. }
    split_and!; [done|done| | |lia].
    - split_and!; [by apply S1|done|lia|done].
    - destruct (pos2_1 !! as_pagetable e') eqn:Ep; [|done].
      destruct (sh_new _ _ _ _ _ _ _ _ S1 (as_pagetable e')) as [[? ?]|?];
        [by eexists|congruence|done]. }
  exists m', fl', pos2'. split_and!; [|done|by eapply shared_cons|lia| |].
  - rewrite <- E'. f_equal. lia.
  - intros va' Hva'. rewrite Hp1', Hp1 by done. rewrite <- !list_lookup_fmap.
    pose proof (λ o, run_cons (to_cow_page e) (to_cow_page <$> es) va va' o Hal) as R.
    rewrite length_fmap in R. apply R.
  - intros va' Hva'. rewrite Hp2', Hp2 by done. rewrite <- !list_lookup_fmap.
    pose proof (λ o, run_cons (cow_child e) (cow_child <$> es) va va' o Hal) as R.
    rewrite length_fmap in R. apply R.
Qed.

(** ** A store fault *)

(** Changes outside both tables. *)
Lemma frame_two m fl pos1 pos2 m' fl' :
  two_spaces m fl pos1 pos2 → kinv heap m' fl' →
  (∀ q, is_Some (pos1 !! q) ∨ is_Some (pos2 !! q) → ram m' !! q = ram m !! q ∧ q ∉ fl') →
  two_spaces m' fl' pos1 pos2 ∧
  (∀ va, walk 2 m' r1 va = walk 2 m r1 va) ∧
  (∀ va, 0 ≤ va ≤ MAXVA → pte_at m' r1 va = pte_at m r1 va) ∧
  (∀ va, 0 ≤ va ≤ MAXVA → pte_at m' r2 va = pte_at m r2 va).
Proof.
  intros [K W1 W2 Hd] K' Hfr.
  destruct (pt_frame heap r1 m fl pos1 m' fl' W1) as (? & ? & ?).
  { intros q x Hq. apply Hfr. left. by eexists. }
  destruct (pt_frame heap r2 m fl pos2 m' fl' W2) as (? & ? & ?).
  { intros q x Hq. apply Hfr. right. by eexists. }
  by split_and!.
Qed.

(** A page both spaces may map: on the heap, referenced, no table. *)
Definition shared_page m pos1 pos2 (p : Z) : Prop :=
  data_page heap m pos1 p ∧ pos2 !! p = None.

(** The private copy of a shared page. *)
Definition private_entry (z e : Z) : Z :=
  write_perm z (PteFlags.from_bits_truncate (Z.lor e PTE_W)).

Lemma private_entry_ok z e : is_page z →
  in_u 64 (private_entry z e) ∧ is_valid (private_entry z e) = true ∧
  is_write (private_entry z e) = true ∧ as_pagetable (private_entry z e) = z.
Proof.
  intros Hz%is_page_pa_ok. set (perm := PteFlags.from_bits_truncate (Z.lor e PTE_W)).
  assert (perm = as_flags (Z.lor e PTE_W)) as Hp by done.
  assert (perm_ok perm) as Hok by (rewrite Hp; apply as_flags_range).
  unfold private_entry. fold perm. split_and!.
  - by apply write_perm_in_u.
  - by apply write_perm_valid.
  - rewrite is_write_bit, write_perm_bit by (done || lia).
    rewrite Hp, as_flags_bit, Z.lor_spec by lia. by rewrite orb_true_r.
  - by apply write_perm_pa.
Qed.

(** Giving up one of several references. *)
Lemma drop_shared m fl pos1 pos2 pa :
  two_spaces m fl pos1 pos2 → shared_page m pos1 pos2 pa → 2 ≤ cnt m pa →
  ∃ m', drop_page pa m = Done (tt, m') ∧ two_spaces m' fl pos1 pos2 ∧ ram m' = ram m ∧
    ∀ q, is_page q → cnt m' q = if decide (pa = q) then cnt m q - 1 else cnt m q.
Proof.
  intros T [([ws Hws] & Hh & _ & Hn1) Hn2] Hc. pose proof T as [K W1 W2 Hd].
  pose proof (ki_count _ _ _ K pa ltac:(by eexists) Hh) as Hcu.
  pose proof (dealloc_post_kinv heap m fl pa ws K Hws Hh ltac:(lia)) as K'.
  pose proof (dealloc_run heap m fl pa PGSIZE ws K Hws ltac:(lia) ltac:(lia)) as E.
  pose proof (kinv_page heap m fl pa K ltac:(by eexists)) as Hpg.
  unfold dealloc_post, dealloc_fl in K', E.
  rewrite (proj2 (Z.eqb_neq (cnt m pa) 1)) in K', E by lia.
  eexists. split; [exact E|]. split_and!; [|done|].
  - apply (frame_two m fl pos1 pos2); [done..|]. intros q [[x Hq]|[x Hq]]; split; try done.
    + apply (pw_page _ _ _ _ _ _ W1 _ _ Hq).
    + apply (pw_page _ _ _ _ _ _ W2 _ _ Hq).
  - intros q Hq. rewrite cnt_insert by done. case_decide; by subst.
Qed.

(** A fresh page filled with the contents of page [pa]. *)
Lemma copy_page_two m z fl pos1 pos2 pa ws :
  two_spaces m (z :: fl) pos1 pos2 → shared_page m pos1 pos2 pa → ram m !! pa = Some ws →
  ∃ m1 m2, new_zeroed m = Done (z, m1) ∧ read_page pa m1 = Done (ws, m1) ∧
    write_page z ws m1 = Done (tt, m2) ∧ two_spaces m2 fl pos1 pos2 ∧
    z ≠ pa ∧ is_page z ∧ pos1 !! z = None ∧ pos2 !! z = None ∧ ram m2 !! z = Some ws ∧
    cnt m2 z = 1 ∧
    (∀ q, q ≠ z → ram m2 !! q = ram m !! q) ∧
    (∀ q, is_page q → q ≠ z → cnt m2 q = cnt m q) ∧
    (∀ va, walk 2 m2 r1 va = walk 2 m r1 va) ∧
    (∀ va, 0 ≤ va ≤ MAXVA → pte_at m2 r1 va = pte_at m r1 va) ∧
    (∀ va, 0 ≤ va ≤ MAXVA → pte_at m2 r2 va = pte_at m r2 va).
Proof.
  intros T [D Hn2] Hws. pose proof T as [K W1 W2 Hd].
  destruct (new_zeroed_grows heap r1 m z fl pos1 K W1)
    as (E1 & K1 & _ & G1 & Dz & Hzf & Hcz & Hrz & _).
  destruct (new_zeroed_grows heap r2 m z fl pos2 K W2) as (_ & _ & _ & _ & Dz2 & _).
  pose proof (data_page_not_free _ _ _ _ K D) as Hpf.
  assert (z ≠ pa) as Hzpa by (intros ->; apply Hpf; set_solver).
  set (m1 := alloc_post m z zero_page fl) in *.
  assert (is_page z) as Hzg by (eapply kinv_page; [exact K1|apply Dz]).
  assert (∀ q, q ≠ z → <[z := ws]> (ram m1) !! q = ram m !! q) as Hr2.
  { intros q Hq. unfold m1. simpl. by rewrite !lookup_insert_ne. }
  assert (kinv heap (mkMem (<[z := ws]> (ram m1)) (head m1) (count m1)) fl) as K2.
  { apply store_kinv; [done|by eexists|done|]. by eapply (ki_ram _ _ _ K). }
  destruct (frame_two m (z :: fl) pos1 pos2 _ fl T K2) as (T2 & Hw2 & Hp2 & Hp2').
  { intros q Hq. assert (q ∉ z :: fl) as Hqf.
    { destruct Hq as [[x Hx]|[x Hx]]; [by apply (pw_page _ _ _ _ _ _ W1 _ _ Hx)|
        by apply (pw_page _ _ _ _ _ _ W2 _ _ Hx)]. }
    split; [apply Hr2|]; set_solver. }
  exists m1, (mkMem (<[z := ws]> (ram m1)) (head m1) (count m1)).
  split_and!; try done; try apply Dz; try apply Dz2.
  - unfold read_page, m1. simpl. by rewrite lookup_insert_ne, Hws.
  - unfold write_page. by rewrite Hrz.
  - apply lookup_insert_eq.
  - intros q Hq Hz. unfold m1, cnt, alloc_post. simpl. rewrite lookup_insert_ne; [done|].
    intros E. apply Hz. symmetry. by apply idx_of_inj.
Qed.

(** With more than one reference: a private, writable copy. *)
Lemma uload_copy m z fl pos1 pos2 va e ws :
  let pa := as_pagetable e in
  two_spaces m (z :: fl) pos1 pos2 → 0 ≤ va ≤ MAXVA → pte_at m r1 va = Some e →
  shared_page m pos1 pos2 pa → ram m !! pa = Some ws → 2 ≤ cnt m pa →
  ∃ m', PageTable.uload_page r1 va m = Done (Ok tt, m') ∧
    two_spaces m' fl pos1 pos2 ∧ z ≠ pa ∧ is_page z ∧
    ram m' !! z = Some ws ∧ cnt m' z = 1 ∧ cnt m' pa = cnt m pa - 1 ∧
    (∀ va', 0 ≤ va' ≤ MAXVA → pte_at m' r1 va' =
       if decide (va / PGSIZE = va' / PGSIZE) then Some (private_entry z e)
       else pte_at m r1 va') ∧
    (∀ va', 0 ≤ va' ≤ MAXVA → pte_at m' r2 va' = pte_at m r2 va') ∧
    (∀ q, q ≠ z → pos1 !! q = None → ram m' !! q = ram m !! q).
Proof.
  intros pa T Hva Hpte Sh Hws Hc. pose proof T as [K W1 W2 Hd]. pose proof Sh as [D Hn2].
  destruct (copy_page_two m z fl pos1 pos2 pa ws) as (m1 & m2 & E1 & Erd & Ewr & T2 & Hzpa &
    Hzg & Hz1 & Hz2 & Hrz & Hcz & Hr2 & Hc2 & Hw2 & Hp2 & Hp2'); [done..|].
  assert (is_page pa) as Hpg by (eapply kinv_page; [exact K|apply D]).
  destruct (pte_at_inv heap r1 m (z :: fl) pos1 va e)
    as (p & i & Hw & He & Hu & Hv & Hi & Hps & Hpal & Hpp & Et & Er); [done..|].
  unfold PageTable.uload_page. mstep Et. cbv beta iota. mstep Er. cbv zeta. fold pa.
  mstep (get_count_run m pa Hpg). rewrite (proj2 (Z.eqb_neq _ _)) by lia.
  mstep E1. mstep Erd. mstep Ewr.
  assert (word m2 p i = Some e) as He2.
  { rewrite <- He. apply word_ram_eq, Hr2. congruence. }
  mstep (word_run _ _ _ _ He2 Hpal Hi). fold (private_entry z e).
  destruct (private_entry_ok z e Hzg) as (Hpu & Hpv & _).
  rewrite <- Hw2 in Hw.
  destruct (set_leaf_two m2 fl pos1 pos2 va p i e (private_entry z e)) as (T3 & Hp3 & Hp3');
    [done..|].
  assert (is_Some (ram m2 !! p)) as Hps2 by (rewrite Hr2 by congruence; done).
  mstep (set_word_run m2 p i (private_entry z e) Hps2 Hpal Hi).
  set (m3 := set_word m2 p i (private_entry z e)) in *.
  assert (∀ q, pos1 !! q = None → ram m3 !! q = ram m2 !! q) as Hr3.
  { intros q Hq. apply set_word_ram_ne. congruence. }
  assert (cnt m3 pa = cnt m pa) as Hc3 by (unfold m3; rewrite cnt_set_word; by apply Hc2).
  destruct D as (? & ? & ? & ?).
  destruct (drop_shared m3 fl pos1 pos2 pa) as (m4 & E4 & T4 & Hr4 & Hc4); [done| |lia|].
  { split; [|done]. split_and!; [|done|lia|done]. by rewrite Hr3, Hr2. }
  mstep E4. exists m4.
  assert (∀ q va', pte_at m4 q va' = pte_at m3 q va') as Hp4.
  { intros q va'. destruct m4, m3. simpl in Hr4. by rewrite Hr4. }
  rewrite Hr4, Hr3, !Hc4 by done. rewrite decide_False, decide_True by done.
  split_and!; try done; [lia| | |].
  - intros va' Hva'. rewrite Hp4, Hp3 by done. case_decide; [done|]. by apply Hp2.
  - intros va' Hva'. rewrite Hp4, Hp3' by done. by apply Hp2'.
  - intros q Hq Hq1. rewrite Hr3 by done. by apply Hr2.
Qed.

(** With one reference the page becomes writable in place. *)
Lemma uload_last m fl pos1 pos2 va e :
  let pa := as_pagetable e in
  two_spaces m fl pos1 pos2 → 0 ≤ va ≤ MAXVA → pte_at m r1 va = Some e →
  shared_page m pos1 pos2 pa → cnt m pa = 1 →
  ∃ m', PageTable.uload_page r1 va m = Done (Ok tt, m') ∧
    two_spaces m' fl pos1 pos2 ∧ count m' = count m ∧
    (∀ va', 0 ≤ va' ≤ MAXVA → pte_at m' r1 va' =
       if decide (va / PGSIZE = va' / PGSIZE) then Some (add_write_bit e) else pte_at m r1 va') ∧
    (∀ va', 0 ≤ va' ≤ MAXVA → pte_at m' r2 va' = pte_at m r2 va') ∧
    (∀ q, pos1 !! q = None → ram m' !! q = ram m !! q).
Proof.
  intros pa T Hva Hpte [D Hn2] Hc. pose proof T as [K W1 W2 Hd].
  assert (is_page pa) as Hpg by (eapply kinv_page; [exact K|apply D]).
  destruct (pte_at_inv heap r1 m fl pos1 va e)
    as (p & i & Hw & He & Hu & Hv & Hi & Hps & Hpal & Hpp & Et & Er); [done..|].
  unfold PageTable.uload_page. mstep Et. cbv beta iota. mstep Er. cbv zeta. fold pa.
  mstep (get_count_run m pa Hpg). rewrite Hc, Z.eqb_refl.
  mstep (set_word_run m p i (add_write_bit e) Hps Hpal Hi).
  destruct (set_leaf_two m fl pos1 pos2 va p i e (add_write_bit e)) as (T3 & Hp3 & Hp3'); [done..| | |].
  { by apply lor_in_u. }
  { rewrite is_valid_bit in *. unfold add_write_bit. by rewrite Z.lor_spec, Hv. }
  eexists. split; [done|]. split_and!; try done.
  intros q Hq. apply set_word_ram_ne. congruence.
Qed.
End share.
