(* ===== verification/UserSpace.v ===== *)
(** * User address spaces: end-to-end properties

    The operations on an address space, observed through [pgt_translate], the
    function every kernel access to user memory goes through. *)
From S2P Require Import Prelude Layout Pte Kalloc PageTable PageTableFacts MapFacts Cow.
Import Addr PageTableEntry.

(** The physical page a user access to [va] reaches. *)
Definition user_page (m : mem) (root va : Z) : option Z :=
  e ← pte_at m root va; if is_user e then Some (as_pagetable e) else None.

Section translate.
Context (heap root : Z).
Implicit Types (m : mem) (fl : list Z) (pos : gmap Z (nat * Z)) (va : Z).
Abbreviation wf := (pt_wf heap false).

Lemma pgt_translate_run m fl pos va :
  kinv heap m fl → wf m fl root pos → 0 ≤ va ≤ MAXVA →
  PageTable.pgt_translate root va m = Done (user_page m root va, m).
Proof.
  intros K W Hva. unfold PageTable.pgt_translate, user_page.
  rewrite (proj2 (Z.ltb_ge _ _)) by lia.
  mstep (translate_walk heap false root m fl pos va K W Hva).
  unfold pte_at, leaf_at. destruct (walk 2 m root va) as [[p i]|] eqn:Hw; [|done].
  destruct (pte_at_word heap root m fl pos va p i)
    as (Hi & [Hpal _] & Hs & Hpp & e & He & _ & _); [done..|].
  simpl. mstep (word_run _ _ _ _ He Hpal Hi). rewrite He. simpl.
  destruct (is_valid e); [|done]. simpl. by destruct (is_user e).
Qed.

(** A zeroed root page is an empty address space. *)
Definition root_pos : gmap Z (nat * Z) := {[root := (2%nat, 0)]}.

Lemma empty_root m fl :
  kinv heap m fl → ram m !! root = Some zero_page → root ∉ fl → heap ≤ root →
  wf m fl root root_pos ∧ ∀ va, pte_at m root va = None.
Proof.
  intros K Hr Hf Hh.
  assert (∀ i, 0 ≤ i < 512 → word m root i = Some 0) as Hw.
  { intros i Hi. unfold word. rewrite Hr. by apply zero_page_word. }
  split.
  - split.
    + apply lookup_singleton_eq.
    + unfold root_pos. intros p x [<- <-]%lookup_singleton_Some. split_and!; [by eexists|done|done|simpl; lia].
    + unfold root_pos. intros p l pre i e [<- [= <- <-]]%lookup_singleton_Some Hi He Hv.
      rewrite Hw in He by done. by injection He as <-.
  - intros va. unfold pte_at, leaf_at. cbn [walk].
    rewrite Hw by (apply page_num_range; lia). done.
Qed.
End translate.

(** ** Concrete memories: the last [n] pages of RAM as the heap *)
Section boot.
Implicit Types n : nat.
Definition heap_of n : Z := PHYSTOP - Z.of_nat n * PGSIZE.
Definition bootn n : mem :=
  mkMem (list_to_map ((λ p, (p, zero_page)) <$> pages_from n (heap_of n))) None ∅.

Lemma bootn_lookup n p ws :
  ram (bootn n) !! p = Some ws ↔ p ∈ pages_from n (heap_of n) ∧ ws = zero_page.
Proof.
  simpl. rewrite <- elem_of_list_to_map.
  - rewrite list_elem_of_fmap. split; [intros (? & [= -> ->] & ?)|intros [? ->]]; eauto.
  - rewrite <- list_fmap_compose. unfold compose. simpl. rewrite list_fmap_id.
    apply NoDup_pages_from.
Qed.

Lemma bootn_page n p :
  Z.of_nat n ≤ 500000 → p ∈ pages_from n (heap_of n) ↔ is_page p ∧ heap_of n ≤ p.
Proof.
  intros Hn. rewrite elem_of_pages_from. unfold heap_of, is_page. split.
  - intros (i & Hi & ->). split; [split|]; [|layout_lia|layout_lia].
    replace (PHYSTOP - Z.of_nat n * PGSIZE + i * PGSIZE)
      with (PHYSTOP + (i - Z.of_nat n) * PGSIZE) by lia.
    rewrite Z.mod_add by layout_lia. done.
  - intros [[Hal Hr] Hh].
    assert (p = PHYSTOP + (p / PGSIZE - PHYSTOP / PGSIZE) * PGSIZE) as Hp.
    { pose proof (Z.div_mod p PGSIZE). pose proof (Z.div_mod PHYSTOP PGSIZE).
      assert (PHYSTOP mod PGSIZE = 0) by done. layout_lia. }
    exists (Z.of_nat n + (p / PGSIZE - PHYSTOP / PGSIZE)). split; [|lia]. layout_lia.
Qed.

Lemma bootn_ok n : Z.of_nat n ≤ 500000 → boot_mem (heap_of n) (bootn n).
Proof.
  intros Hn. split; [|intros p Hp Hh|done].
  - intros p ws [Hp ->]%bootn_lookup. split; [by apply (bootn_page n)|apply page_ok_zero].
  - exists zero_page. apply bootn_lookup. split; [|done]. by apply bootn_page.
Qed.

(** After [init], all [n] pages are free. *)
Lemma bootn_init n :
  Z.of_nat n ≤ 500000 → ∃ m fl, kinv (heap_of n) m fl ∧ length fl = n.
Proof.
  intros Hn. assert (heap_start (heap_of n) = heap_of n) as Hhs.
  { unfold heap_start. assert (heap_of n mod PGSIZE = 0) as Hm.
    { unfold heap_of. rewrite <- Zminus_mod_idemp_r, Z.mod_mul by layout_lia. done. }
    replace (heap_of n + PGSIZE - 1) with (PGSIZE - 1 + heap_of n) by lia.
    rewrite <- Z.add_mod_idemp_r, Hm by layout_lia.
    rewrite Z.add_0_r, Z.mod_small by layout_lia. lia. }
  destruct (init_kinv (heap_of n) (bootn n)) as (m & fl & E & K & Hfl); rewrite ?Hhs in *.
  - unfold heap_of. layout_lia.
  - unfold heap_of. layout_lia.
  - by apply bootn_ok.
  - exists m, fl. split; [done|].
    assert (fl ≡ₚ pages_from n (heap_of n)) as ->.
    { apply NoDup_Permutation; [apply K|apply NoDup_pages_from|].
      intros p. rewrite Hfl, bootn_page by done. done. }
    generalize (heap_of n). clear. induction n as [|n IH]; intros h; simpl; auto.
Qed.
End boot.

(** [n] free pages and a zeroed page besides. *)
Lemma boot_root n :
  Z.of_nat n < 500000 →
  ∃ m fl root, kinv (heap_of (S n)) m fl ∧ ram m !! root = Some zero_page ∧ (root ∉ fl) ∧
    heap_of (S n) ≤ root ∧ cnt m root = 1 ∧ length fl = n.
Proof.
  intros Hn. destruct (bootn_init (S n)) as (m & fl & K & Hl); [lia|].
  destruct fl as [|z fl]; [done|]. destruct (new_zeroed_run _ m z fl K) as [_ K'].
  pose proof (kinv_free_page _ _ _ z K ltac:(left)) as (Hz & Hh & _).
  pose proof (ki_nodup _ _ _ K) as [Hnin _]%NoDup_cons.
  exists (alloc_post m z zero_page fl), fl, z. split_and!; [done|apply lookup_insert_eq|done|done| |].
  - unfold alloc_post. rewrite cnt_insert by done. by rewrite decide_True.
  - simpl in Hl. lia.
Qed.
(** [n] free pages and an empty address space. *)
Lemma boot_space n :
  Z.of_nat n < 500000 →
  ∃ m fl root, kinv (heap_of (S n)) m fl ∧ pt_wf (heap_of (S n)) false m fl root (root_pos root) ∧
    length fl = n ∧ ∀ va, pte_at m root va = None.
Proof.
  intros Hn. destruct (boot_root n Hn) as (m & fl & z & K & Hz & Hf & Hh & _ & Hl).
  destruct (empty_root (heap_of (S n)) z m fl K) as [W Hp]; [done..|]. by exists m, fl, z.
Qed.

(** ** Mapping *)

(** [map] over an unmapped range, with two free pages per page mapped,
    succeeds, and afterwards every user access goes where it should:
    [pgt_translate] sends each address of the range to the corresponding page
    of the physical range and every other address where it went before. *)
Theorem map_translate heap root m fl pos va pa size perm :
  let n := run_pages va size in
  kinv heap m fl → pt_wf heap false m fl root pos → perm_ok perm → is_user perm = true →
  0 ≤ va → 0 ≤ size → (va / PGSIZE + n - 1) * PGSIZE ≤ MAXVA →
  pa mod PGSIZE = 0 → 0 ≤ pa → pa + n * PGSIZE ≤ 2 ^ 56 →
  (∀ k, 0 ≤ k < n → pte_at m root ((va / PGSIZE + k) * PGSIZE) = None) →
  2 * n ≤ Z.of_nat (length fl) →
  ∃ m', PageTable.map root va pa size perm m = Done (true, m') ∧
    ∀ va', 0 ≤ va' ≤ MAXVA →
      PageTable.pgt_translate root va' m' =
        Done (if decide (in_run va n va')
              then Some (pa + (va' / PGSIZE - va / PGSIZE) * PGSIZE)
              else user_page m root va', m').
Proof.
  intros n K W Hperm Huser Hva Hsz Hmax Hpa Hpa0 Hpa1 Hnone Hfl.
  destruct (map_run heap root m fl pos va pa size perm)
    as (m' & fl' & pos' & E & K' & W' & _ & _ & Hpte); [done..|].
  exists m'. split; [done|]. intros va' Hva'.
  rewrite (pgt_translate_run heap root m' fl' pos') by done. do 2 f_equal.
  unfold user_page. rewrite Hpte by done. fold n. case_decide as Hin; [|done]. simpl.
  assert (pa_ok (pa + (va' / PGSIZE - va / PGSIZE) * PGSIZE)) as Hok.
  { unfold in_run in Hin. split; [|layout_lia].
    rewrite Z.mod_add by layout_lia. done. }
  rewrite write_perm_pa by done. rewrite is_user_bit, write_perm_bit by (done || lia).
  rewrite is_user_bit in Huser. by rewrite Huser.
Qed.

Lemma map_translate_witness :
  ∃ heap root m, ∃ m', PageTable.map root 8192 PHYSTOP 5000 (Z.lor PTE_R PTE_U) m = Done (true, m') ∧
    PageTable.pgt_translate root 12290 m' = Done (Some (PHYSTOP + 4096), m') ∧
    PageTable.pgt_translate root 16384 m' = Done (None, m') ∧ heap = heap_of 6.
Proof.
  destruct (boot_space 5) as (m & fl & root & K & W & Hl & Hp); [lia|].
  exists (heap_of 6), root, m.
  destruct (map_translate (heap_of 6) root m fl (root_pos root) 8192 PHYSTOP 5000
    (Z.lor PTE_R PTE_U)) as (m' & E & Ht);
    [done|done|done|done|lia|lia|by vm_compute|done|layout_lia|by vm_compute|done| |].
  - change (run_pages 8192 5000) with 2. rewrite Hl. lia.
  - exists m'. split; [done|]. split_and!; [| |done].
    + rewrite Ht by layout_lia. by rewrite decide_True by done.
    + rewrite Ht by layout_lia. rewrite decide_False by (intros [_ H]; by vm_compute in H).
      unfold user_page. by rewrite Hp.
Defined.

(** Mapping over a mapped page is refused with the panic "remap",
    whatever was asked for. *)
Theorem map_remap_panics heap root m fl pos va pa perm e :
  kinv heap m fl → pt_wf heap false m fl root pos →
  0 ≤ va ≤ MAXVA → pte_at m root va = Some e → (2 ≤ length fl)%nat →
  PageTable.map root va pa PGSIZE perm m = Panic "remap".
Proof.
  intros K W Hva Hpte Hfl.
  assert (0 ≤ va mod PGSIZE < PGSIZE) by (apply Z.mod_pos_bound; layout_lia).
  pose proof (Z.mod_pos_bound (va + PGSIZE + PGSIZE - 1) PGSIZE ltac:(layout_lia)).
  unfold PageTable.map. rewrite bind_uadd by layout_lia.
  rewrite pg_round_down_eq by (unfold in_u; layout_lia).
  mstep (pg_round_up_run (va + PGSIZE) m ltac:(layout_lia) ltac:(layout_lia)).
  set (last := va + PGSIZE + PGSIZE - 1 - _).
  assert (va - va mod PGSIZE + PGSIZE ≤ last) as Hlast.
  { subst last. layout_unfold. Z.div_mod_to_equations. lia. }
  assert (0 < (last - (va - va mod PGSIZE)) / PGSIZE) as Hn.
  { apply Z.div_str_pos. layout_lia. }
  assert (va - va mod PGSIZE ≠ last) as Hne by (clearbody last; layout_lia).
  destruct (Z.to_nat _) as [|k] eqn:Ek; [lia|]. cbn [PageTable.map_loop].
  rewrite (proj2 (Z.eqb_neq _ _) Hne).
  pose proof (Z.mod_le va PGSIZE ltac:(lia) ltac:(layout_lia)).
  set (va0 := va - va mod PGSIZE). assert (0 ≤ va0 ≤ MAXVA) as Hva0 by (unfold va0; lia).
  destruct (translate_alloc heap false root m fl pos va0)
    as (p & i & m1 & fl1 & pos1 & E & K1 & W1 & _ & _ & Hw & Hpte1);
    [done|done|done|lia|].
  mstep E.
  destruct (pte_at_word heap root m1 fl1 pos1 va0 p i)
    as (Hi & [Hal _] & _ & _ & e' & He & _ & Hp'); [done|done|done|done|].
  mstep (word_run _ _ _ _ He Hal Hi).
  rewrite Hpte1, (pte_at_vpn m root va0 va), Hpte in Hp'.
  - by destruct (is_valid e').
  - unfold va0. layout_unfold. Z.div_mod_to_equations. lia.
Qed.

Lemma map_remap_panics_witness :
  ∃ root m, PageTable.map root 4100 PHYSTOP PGSIZE PTE_R m = Panic "remap".
Proof.
  destruct (boot_space 6) as (m & fl & root & K & W & Hl & Hp); [lia|].
  destruct (map_run (heap_of 7) root m fl (root_pos root) 4096 PHYSTOP PGSIZE PTE_R)
    as (m' & fl' & pos' & _ & K' & W' & _ & Hlen & Hpte);
    [done|done|done|lia|layout_lia|by vm_compute|done|layout_lia|by vm_compute|done| |].
  { change (run_pages 4096 PGSIZE) with 1. lia. }
  change (run_pages 4096 PGSIZE) with 1 in *.
  exists root, m'. eapply (map_remap_panics (heap_of 7) root m' fl' pos' 4100); [done|done|layout_lia| |lia].
  rewrite Hpte by layout_lia. by rewrite decide_True by done.
Defined.

(** ** Growing and shrinking *)

Lemma RWXU_ok : perm_ok RWXU.
Proof. by vm_compute. Qed.

(** What [ualloc] maps: fresh data pages, one after the other. *)
Lemma fresh_maps_run heap root fl m' fl' pos' pas old new o :
  kinv heap m' fl' → 0 ≤ pages old → pages new * PGSIZE ≤ MAXVA →
  Z.of_nat (length pas) = pages new - pages old →
  fresh_pages heap fl m' fl' pos' pas →
  (∀ va, 0 ≤ va ≤ MAXVA → pte_at m' root va =
    if decide (pages old ≤ va / PGSIZE < pages new)
    then (λ pa, write_perm pa RWXU) <$> pas !! Z.to_nat (va / PGSIZE - pages old)
    else o va) →
  maps_run heap root m' pos' (pages old * PGSIZE) pas.
Proof.
  intros K H0 Hmax Hlen [Hnd Hpas] Hpte k pa Hk.
  pose proof (lookup_lt_Some _ _ _ Hk) as Hlt.
  destruct (Hpas pa) as (_ & _ & D & _); [by eapply list_elem_of_lookup_2|].
  split; [done|]. exists (write_perm pa RWXU). split.
  - rewrite Hpte by layout_lia. rewrite page_div, pages_div by (apply Z.mod_mul; layout_lia).
    rewrite decide_True by lia. replace (Z.to_nat _) with k by lia. by rewrite Hk.
  - apply write_perm_pa; [|apply RWXU_ok]. apply is_page_pa_ok.
    eapply kinv_page; [done|apply D].
Qed.



(** ** Fork and store faults *)

(** C4. Copy-on-write fork. [ucopy_nocopy] over the parent's pages succeeds;
    afterwards parent and child map every page to the same physical page with
    the same flags and neither may write it, the page has one more reference,
    its contents are untouched, and the rest of the parent's mappings are as
    before. *)
Theorem fork_shares_pages heap r1 r2 m fl pos1 pos2 es :
  two_spaces heap r1 r2 m fl pos1 pos2 → NoDup (as_pagetable <$> es) →
  parent_run heap r1 r2 m pos1 pos2 0 es → Z.of_nat (length es) * PGSIZE ≤ MAXVA →
  (2 * length es ≤ length fl)%nat →
  ∃ m' fl' pos2',
    PageTable.ucopy_nocopy (length es) r1 r2 0 (Z.of_nat (length es) * PGSIZE) m =
      Done (Ok tt, m') ∧
    two_spaces heap r1 r2 m' fl' pos1 pos2' ∧
    (∀ k e, es !! k = Some e → let va := Z.of_nat k * PGSIZE in let pa := as_pagetable e in
       ∃ e1 e2, pte_at m' r1 va = Some e1 ∧ pte_at m' r2 va = Some e2 ∧
         as_pagetable e1 = pa ∧ as_pagetable e2 = pa ∧ as_flags e1 = as_flags e2 ∧
         is_write e1 = false ∧ is_write e2 = false ∧
         ram m' !! pa = ram m !! pa ∧ cnt m' pa = cnt m pa + 1) ∧
    (∀ va, 0 ≤ va ≤ MAXVA → Z.of_nat (length es) ≤ va / PGSIZE →
       pte_at m' r1 va = pte_at m r1 va).
Proof.
  intros T Hnd Hrun Hmax Hfl.
  destruct (ucopy_nocopy_loop_run heap r1 r2 es m fl pos1 pos2 0)
    as (m' & fl' & pos2' & E & T' & Sh & _ & Hp1 & Hp2); [done|done|lia|layout_lia|done..|].
  exists m', fl', pos2'. split_and!; [|done| |].
  - unfold PageTable.ucopy_nocopy. rewrite bind_uadd by layout_lia.
    rewrite Z.add_0_r. by rewrite Z.add_0_l in E.
  - intros k e Hk va pa. destruct (Hrun k e Hk) as (He & _ & D & Hn2 & _).
    rewrite Z.add_0_l in He. fold va in He. pose proof (lookup_lt_Some _ _ _ Hk) as Hlt.
    assert (0 ≤ va ≤ MAXVA) as Hva by (unfold va; layout_lia).
    pose proof (ts_kinv _ _ _ _ _ _ _ T) as K.
    assert (is_page pa) as Hpg by (eapply kinv_page; [exact K|apply D]).
    destruct (pte_at_inv heap r1 m fl pos1 va e K (ts_fst _ _ _ _ _ _ _ T) Hva He)
      as (_ & _ & _ & _ & Hu & Hv & _).
    destruct (cow_child_spec e) as (Hca & Hcf & _); [done..|].
    assert (va / PGSIZE = Z.of_nat k) as Hdiv by (apply Z.div_mul; layout_lia).
    exists (to_cow_page e), (cow_child e). rewrite Hp1, Hp2, !decide_True
      by (done || unfold in_run; rewrite Hdiv, Z.div_0_l; layout_lia).
    rewrite Hdiv, Z.div_0_l, Z.sub_0_r, Nat2Z.id, Hk by layout_lia.
    split_and!; try done.
    + by apply to_cow_pa.
    + apply to_cow_not_write.
    + rewrite is_write_bit, <- as_flags_bit, Hcf, as_flags_bit, <- is_write_bit by lia.
      apply to_cow_not_write.
    + apply (sh_ram _ _ _ _ _ _ _ _ Sh); [|apply D|done]. by eapply data_page_not_free.
    + rewrite (sh_cnt _ _ _ _ _ _ _ _ Sh) by (done || by eapply data_page_not_free).
      rewrite decide_True; [done|]. apply list_elem_of_fmap_2. by eapply list_elem_of_lookup_2.
  - intros va Hva Hge. rewrite Hp1 by done. rewrite decide_False; [done|].
    unfold in_run. rewrite Z.div_0_l by layout_lia. lia.
Qed.

(** A parent with one page of memory and a new, empty child. *)
Lemma boot_two :
  ∃ heap r1 r2 m fl pos1 pos2 e ws, two_spaces heap r1 r2 m fl pos1 pos2 ∧
    parent_run heap r1 r2 m pos1 pos2 0 [e] ∧ (4 ≤ length fl)%nat ∧
    cnt m (as_pagetable e) = 1 ∧ ram m !! as_pagetable e = Some ws ∧
    ∀ va, pte_at m r2 va = None.
Proof.
  destruct (boot_space 8) as (m & fl & r1 & K & W & Hl & Hp); [lia|].
  destruct (ualloc_loop_run (heap_of 9) r1 1 m fl (root_pos r1) 0 0)
    as (m1 & fl1 & pos1 & pas & _ & K1 & W1 & G1 & Hlen & Hn & [_ Hpas] & Hpte);
    [done|done|done|lia|layout_lia|by intros|lia|].
  destruct pas as [|pa [|]]; [done| |done]. destruct (Hpas pa) as (_ & Hf & D & Hc & Hr); [set_solver|].
  assert (is_page pa) as Hpg by (eapply kinv_page; [exact K1|apply D]).
  assert (as_pagetable (write_perm pa RWXU) = pa) as Hpa.
  { apply write_perm_pa; [by apply is_page_pa_ok|apply RWXU_ok]. }
  destruct fl1 as [|z fl2]; [simpl in *; lia|].
  destruct (new_zeroed_grows (huge := false) (heap_of 9) r1 m1 z fl2 pos1)
    as (_ & K2 & W2 & G2 & Dz & Hzf & _ & Hrz & Hpte2); [done..|].
  set (m2 := alloc_post m1 z zero_page fl2) in *.
  destruct (empty_root (heap_of 9) z m2 fl2) as [Wz Hpz]; [done|done|done|apply Dz|].
  assert (z ≠ pa) as Hzpa by (intros ->; apply Hf; set_solver).
  assert (ram m2 !! pa = ram m1 !! pa) as Hr2 by (by apply lookup_insert_ne).
  assert (cnt m2 pa = 1) as Hc2 by (rewrite (gr_cnt _ _ _ _ _ _ G2) by done; done).
  exists (heap_of 9), r1, z, m2, fl2, pos1, (root_pos z), (write_perm pa RWXU), zero_page.
  rewrite Hpa, Hr2. split_and!; try done; [| |simpl in *; lia].
  - split; [done..|]. apply map_disjoint_singleton_r_2, Dz.
  - intros k e Hk. destruct k; [|done]. injection Hk as <-. rewrite Hpa, Hpte2, Hpte by layout_lia.
    destruct D as (? & ? & ? & ?).
    split_and!; [done|done| |by apply lookup_singleton_ne|lia].
    split_and!; [by rewrite Hr2|done|lia|done].
Qed.

Lemma fork_shares_pages_witness :
  ∃ r1 r2 m m' e1 e2, PageTable.ucopy_nocopy 1 r1 r2 0 PGSIZE m = Done (Ok tt, m') ∧
    pte_at m' r1 0 = Some e1 ∧ pte_at m' r2 0 = Some e2 ∧ as_flags e1 = as_flags e2 ∧
    is_write e2 = false.
Proof.
  destruct boot_two as (heap & r1 & r2 & m & fl & pos1 & pos2 & e & ws & T & Hrun & Hl & _).
  destruct (fork_shares_pages heap r1 r2 m fl pos1 pos2 [e] T)
    as (m' & fl' & pos2' & E & _ & H & _); [apply NoDup_singleton|done|by vm_compute|simpl; lia|].
  destruct (H 0%nat e eq_refl) as (e1 & e2 & ? & ? & _ & _ & ? & _ & ? & _).
  by exists r1, r2, m, m', e1, e2.
Defined.

(** C5. A store fault on a shared page. When the page has other references,
    [uload_page] gives the faulting address space a fresh private page with
    the same contents and write permission; the other address space keeps its
    mappings and the contents behind them, and maps none of the fresh page.
    The shared page loses exactly one reference. *)
Theorem store_fault_copies heap r1 r2 m fl pos1 pos2 va e ws :
  let pa := as_pagetable e in
  two_spaces heap r1 r2 m fl pos1 pos2 → (1 ≤ length fl)%nat →
  0 ≤ va ≤ MAXVA → pte_at m r1 va = Some e →
  shared_page heap m pos1 pos2 pa → ram m !! pa = Some ws → 2 ≤ cnt m pa →
  (∀ va' e', 0 ≤ va' ≤ MAXVA → pte_at m r2 va' = Some e' → shared_page heap m pos1 pos2 (as_pagetable e')) →
  ∃ m' fl' e1, PageTable.uload_page r1 va m = Done (Ok tt, m') ∧
    two_spaces heap r1 r2 m' fl' pos1 pos2 ∧
    pte_at m' r1 va = Some e1 ∧ is_write e1 = true ∧
    ram m' !! as_pagetable e1 = Some ws ∧ cnt m' (as_pagetable e1) = 1 ∧
    cnt m' pa = cnt m pa - 1 ∧
    (∀ va', 0 ≤ va' ≤ MAXVA → va' / PGSIZE ≠ va / PGSIZE → pte_at m' r1 va' = pte_at m r1 va') ∧
    (∀ va', 0 ≤ va' ≤ MAXVA → pte_at m' r2 va' = pte_at m r2 va') ∧
    (∀ va' e', 0 ≤ va' ≤ MAXVA → pte_at m' r2 va' = Some e' →
       as_pagetable e' ≠ as_pagetable e1 ∧ ram m' !! as_pagetable e' = ram m !! as_pagetable e').
Proof.
  intros pa T Hfl Hva Hpte Sh Hws Hc Hother. destruct fl as [|z fl]; [simpl in *; lia|].
  pose proof (ts_kinv _ _ _ _ _ _ _ T) as K.
  destruct (uload_copy heap r1 r2 m z fl pos1 pos2 va e ws)
    as (m' & E & T' & Hzpa & Hz & Hrz & Hcz & Hcpa & Hp1 & Hp2 & Hr); [done..|].
  destruct (private_entry_ok z e Hz) as (_ & _ & Hw & Hpz).
  exists m', fl, (private_entry z e). rewrite Hpz. split_and!; try done.
  - rewrite Hp1 by done. by rewrite decide_True.
  - intros va' Hva' Hne. rewrite Hp1 by done. by rewrite decide_False by congruence.
  - intros va' e' Hva' He'. rewrite Hp2 in He' by done.
    destruct (Hother va' e' Hva' He') as [D' _].
    assert (as_pagetable e' ≠ z) as Hne.
    { intros Ez. apply (data_page_not_free heap m (z :: fl) pos1 (as_pagetable e') K D').
      rewrite Ez. set_solver. }
    split; [done|]. apply Hr; [done|apply D'].
Qed.

(** The parent and the child after a fork: address 100 lies on a page they
    share. *)
Lemma boot_shared :
  ∃ heap r1 r2 m fl pos1 pos2 e ws, two_spaces heap r1 r2 m fl pos1 pos2 ∧ (2 ≤ length fl)%nat ∧
    pte_at m r1 100 = Some e ∧ shared_page heap m pos1 pos2 (as_pagetable e) ∧
    ram m !! as_pagetable e = Some ws ∧ cnt m (as_pagetable e) = 2 ∧
    ∀ va' e', 0 ≤ va' ≤ MAXVA → pte_at m r2 va' = Some e' → as_pagetable e' = as_pagetable e.
Proof.
  destruct boot_two as (heap & r1 & r2 & m & fl & pos1 & pos2 & e & ws & T & Hrun & Hl & Hc & Hws & Hp0).
  destruct (ucopy_nocopy_loop_run heap r1 r2 [e] m fl pos1 pos2 0)
    as (m' & fl' & pos2' & _ & T' & Sh & Hlen & Hp1 & Hp2);
    [done|done|lia|by vm_compute|apply NoDup_singleton|done|simpl; lia|].
  destruct (Hrun 0%nat e eq_refl) as (He & _ & D & Hn2 & _).
  pose proof (ts_kinv _ _ _ _ _ _ _ T) as K.
  pose proof (data_page_not_free _ _ _ _ _ K D) as Hf.
  assert (is_page (as_pagetable e)) as Hpg by (eapply kinv_page; [exact K|apply D]).
  change (0 + Z.of_nat 0 * PGSIZE) with 0 in He.
  destruct (pte_at_inv heap r1 m fl pos1 0 e K (ts_fst _ _ _ _ _ _ _ T) ltac:(layout_lia) He)
    as (_ & _ & _ & _ & Hu & Hv & _).
  destruct (cow_child_spec e) as (Hca & _); [done..|].
  assert (cnt m' (as_pagetable e) = 2) as Hc2.
  { rewrite (sh_cnt _ _ _ _ _ _ _ _ Sh) by done. rewrite decide_True by set_solver. lia. }
  assert (pos2' !! as_pagetable e = None) as Hn2'.
  { destruct (pos2' !! as_pagetable e) eqn:Ep; [|done].
    destruct (sh_new _ _ _ _ _ _ _ _ Sh (as_pagetable e)) as [[? ?]|?]; [by eexists|congruence|done]. }
  destruct D as (? & ? & ? & ?).
  exists heap, r1, r2, m', fl', pos1, pos2', (to_cow_page e), ws. rewrite to_cow_pa by done.
  split_and!; [done|simpl in *; lia| | | |done|].
  - rewrite Hp1 by layout_lia. by rewrite decide_True.
  - split; [|done]. split_and!; [by apply Sh|done|lia|done].
  - rewrite <- Hws. apply (sh_ram _ _ _ _ _ _ _ _ Sh); done.
  - intros va' e' Hva'. rewrite Hp2 by done. case_decide as Hin; [|by rewrite Hp0].
    replace (Z.to_nat (va' / PGSIZE - 0 / PGSIZE)) with 0%nat by (unfold in_run in Hin; simpl in *; lia).
    by intros [= <-].
Qed.

Lemma store_fault_copies_witness :
  ∃ r1 r2 m m' e1, PageTable.uload_page r1 100 m = Done (Ok tt, m') ∧
    pte_at m' r1 100 = Some e1 ∧ is_write e1 = true ∧ pte_at m' r2 0 = pte_at m r2 0.
Proof.
  destruct boot_shared as (heap & r1 & r2 & m & fl & pos1 & pos2 & e & ws & T & Hl & He & Sh & Hws & Hc & Ho).
  destruct (store_fault_copies heap r1 r2 m fl pos1 pos2 100 e ws)
    as (m' & fl' & e1 & E & _ & He1 & Hw & _ & _ & _ & _ & Hs2 & _); [done|lia|layout_lia|done|done|done|lia| |].
  - intros va' e' Hva' He'. by rewrite (Ho va' e').
  - exists r1, r2, m, m', e1. split_and!; [done|done|done|]. apply Hs2. layout_lia.
Defined.
