(* ===== verification/DropTable.v ===== *)
(** * Dropping a page table

    [Drop for PageTable] of [memory/mapping/pagetable.rs]: the recursion over
    the tree ends within its three levels and gives every table page back to
    the allocator, once. *)
From S2P Require Import Prelude Layout Pte Kalloc PageTable PageTableFacts MapFacts UserSpace.
Import Addr PageTableEntry.

(** ** The entry that points to a table

    [PageTableEntry] as a place: [new], [write] and [write_zero] give the word
    it holds afterwards. [drop_in_place] runs [Drop for PageTable] and leaves
    the memory of the table to its owner. *)
Module Entry.
Definition new (addr : Z) : Z := addr.
Definition as_usize (self : Z) : Z := self.
Definition as_mut_ptr (self : Z) : Z := as_usize self.
Definition write_zero (self : Z) : Z := 0.
Definition write (self addr : Z) : Z := addr.

Definition drop_in_place (depth : nat) (pgt : Z) : M mem unit :=
  for_each (seqZ 0 512) (λ i,
    e ← read_word (PageTable.entry pgt i);
    if is_valid e && negb (is_leaf e) then PageTable.drop_box depth (as_pagetable e) else mret tt).
Definition free (depth : nat) (self : Z) : M mem unit :=
  if is_valid self then
    if negb (is_leaf self) then drop_in_place depth (as_pagetable self)
    else panic "freeing a pte leaf"
  else mret tt.
End Entry.

Section drop.
Context (heap : Z).
Implicit Types (m : mem) (fl : list Z) (p q : Z) (R : gset Z) (l : nat).

(** The pages [R] went to the free list; nothing else changed. *)
Record frees m fl R m' fl' : Prop := {
  fr_kinv : kinv heap m' fl';
  fr_fl : ∀ q, q ∈ fl' ↔ q ∈ fl ∨ q ∈ R;
  fr_ram : ∀ q, q ∉ R → ram m' !! q = ram m !! q;
  fr_cnt : ∀ q, is_page q → q ∉ R → cnt m' q = cnt m q
}.
Lemma frees_nil m fl : kinv heap m fl → frees m fl ∅ m fl.
Proof. intros K. split; [done|set_solver|done|done]. Qed.
Lemma frees_app m fl R m1 fl1 R1 m2 fl2 :
  frees m fl R m1 fl1 → frees m1 fl1 R1 m2 fl2 → frees m fl (R ∪ R1) m2 fl2.
Proof.
  intros F1 F2. split; [apply F2| | |].
  - intros q. rewrite (fr_fl _ _ _ _ _ F2), (fr_fl _ _ _ _ _ F1). set_solver.
  - intros q Hq. rewrite (fr_ram _ _ _ _ _ F2) by set_solver. apply F1. set_solver.
  - intros q Hp Hq. rewrite (fr_cnt _ _ _ _ _ F2) by set_solver. apply F1; set_solver.
Qed.

(** A page with one reference. *)
Record owned m p : Prop := { ow_in : is_Some (ram m !! p); ow_heap : heap ≤ p; ow_cnt : cnt m p = 1 }.
Lemma drop_owned m fl p :
  kinv heap m fl → owned m p → ∃ m' fl', drop_page p m = Done (tt, m') ∧ frees m fl {[p]} m' fl'.
Proof.
  intros K [[ws Hws] Hh Hc]. exists (dealloc_post m p ws), (dealloc_fl m p fl).
  assert (is_page p) as Hp by (eapply kinv_page; [exact K|by eexists]).
  split; [unfold drop_page; by erewrite dealloc_run by (done || lia)|]. split.
  - apply dealloc_post_kinv; done || lia.
  - intros q. unfold dealloc_fl. rewrite Hc, Z.eqb_refl. set_solver.
  - intros q Hq. unfold dealloc_post. rewrite Hc. cbn [Z.eqb ram]. apply lookup_insert_ne. set_solver.
  - intros q Hpq Hq. unfold dealloc_post. rewrite Hc. cbn [Z.eqb Pos.eqb]. rewrite cnt_insert by done.
    by rewrite decide_False by set_solver.
Qed.

(** ** The tree

    The pages of the table at [p], a table of level [l]: itself and those
    below its entries that point to tables. *)
Definition child (m : mem) (p i : Z) : option Z :=
  e ← word m p i; if is_valid e && negb (is_leaf e) then Some (as_pagetable e) else None.
Fixpoint tables (l : nat) (m : mem) (p : Z) : gset Z :=
  {[p]} ∪ match l with
          | O => ∅
          | S l' => ⋃ ((λ i, match child m p i with Some c => tables l' m c | None => ∅ end) <$> seqZ 0 512)
          end.
(** What lies below entry [i]. *)
Definition below (l : nat) (m : mem) (p i : Z) : gset Z :=
  match l with
  | O => ∅
  | S l' => match child m p i with Some c => tables l' m c | None => ∅ end
  end.
Lemma tables_below l m p : tables l m p = {[p]} ∪ ⋃ (below l m p <$> seqZ 0 512).
Proof. by destruct l. Qed.

Context (root : Z) (m0 : mem) (fl0 : list Z) (pos : gmap Z (nat * Z)).
Context (W : pt_wf heap false m0 fl0 root pos).

Lemma child_pos l p pre i c :
  pos !! p = Some (S l, pre) → 0 ≤ i < 512 → child m0 p i = Some c → pos !! c = Some (l, pre * 512 + i).
Proof.
  unfold child. intros Hp Hi (e & He & Hc)%bind_Some. destruct (is_valid e) eqn:Hv; [|done].
  destruct (is_leaf e) eqn:Hl; [done|]. injection Hc as <-.
  destruct (pw_child _ _ _ _ _ _ W _ _ _ _ _ Hp Hi He Hv) as [[_ ?]|(? & _)]; [done|congruence].
Qed.
(** A page of the tree lies under the prefix of its top. *)
Lemma tables_pos l p pre q :
  pos !! p = Some (l, pre) → q ∈ tables l m0 p →
  ∃ l' pre', pos !! q = Some (l', pre') ∧ (l' ≤ l)%nat ∧ pre' / 512 ^ Z.of_nat (l - l') = pre.
Proof.
  revert p pre. induction l as [|l IH]; intros p pre Hp.
  - cbn [tables]. intros [->%elem_of_singleton|?%elem_of_empty]%elem_of_union; [|done].
    exists 0%nat, pre. split_and!; [done..|]. by rewrite Z.div_1_r.
  - rewrite tables_below. intros [->%elem_of_singleton|Hq]%elem_of_union.
    { exists (S l), pre. rewrite Nat.sub_diag, Z.div_1_r. by split_and!. }
    apply elem_of_union_list in Hq as (X & (i & -> & Hi)%list_elem_of_fmap & Hq).
    apply elem_of_seqZ in Hi. cbn [below] in Hq. destruct (child m0 p i) as [c|] eqn:Hc; [|done].
    pose proof (child_pos l p pre i c Hp ltac:(lia) Hc) as Hcp.
    destruct (IH c _ Hcp Hq) as (l' & pre' & Hq' & Hle & Hd).
    exists l', pre'. split_and!; [done|lia|]. replace (S l - l')%nat with (S (l - l')) by lia.
    rewrite Nat2Z.inj_succ, Z.pow_succ_r, (Z.mul_comm 512), <- Z.div_div, Hd by lia.
    rewrite Z.div_add_l, (Z.div_small i) by lia. lia.
Qed.
Lemma below_not_self l p pre i : pos !! p = Some (l, pre) → 0 ≤ i < 512 → p ∉ below l m0 p i.
Proof.
  destruct l as [|l]; cbn [below]; [set_solver|]. intros Hp Hi Hin.
  destruct (child m0 p i) as [c|] eqn:Hc; [|done].
  destruct (tables_pos l c _ p (child_pos l p pre i c Hp Hi Hc) Hin) as (l' & pre' & Hp' & Hle & _).
  rewrite Hp in Hp'. injection Hp' as <- _. lia.
Qed.
Lemma below_disjoint l p pre i j q :
  pos !! p = Some (l, pre) → 0 ≤ i < 512 → 0 ≤ j < 512 →
  q ∈ below l m0 p i → q ∈ below l m0 p j → i = j.
Proof.
  destruct l as [|l]; cbn [below]; [set_solver|]. intros Hp Hi Hj Hqi Hqj.
  destruct (child m0 p i) as [c|] eqn:Hc; [|done]. destruct (child m0 p j) as [d|] eqn:Hd; [|done].
  destruct (tables_pos l c _ q (child_pos l p pre i c Hp Hi Hc) Hqi) as (l1 & pre1 & H1 & _ & E1).
  destruct (tables_pos l d _ q (child_pos l p pre j d Hp Hj Hd) Hqj) as (l2 & pre2 & H2 & _ & E2).
  rewrite H1 in H2. injection H2 as -> ->. lia.
Qed.

(** ** The recursion *)
(** The pages of [R] are as they were in [m0], each with one reference. *)
Definition intact_tables (R : gset Z) m : Prop := ∀ q, q ∈ R → ram m !! q = ram m0 !! q ∧ owned m q.
Lemma intact_frees R m fl R' m' fl' :
  kinv heap m fl → intact_tables R m → frees m fl R' m' fl' → R ## R' → intact_tables R m'.
Proof.
  intros K Hi F Hd q Hq. destruct (Hi q Hq) as [E [Hin Hh Hc]].
  assert (q ∉ R') by (intros ?; by eapply (Hd q)). assert (is_page q) by (by eapply kinv_page).
  rewrite (fr_ram _ _ _ _ _ F) by done. split; [done|].
  split; [by rewrite (fr_ram _ _ _ _ _ F)|done|by rewrite (fr_cnt _ _ _ _ _ F)].
Qed.
(** No entry of a table of level 0 points to a table. *)
Context (Hleaf : ∀ p pre i, pos !! p = Some (0%nat, pre) → 0 ≤ i < 512 → child m0 p i = None).

Lemma drop_loop l p pre is_ m fl :
  (∀ m fl c pre, kinv heap m fl → (∃ l', l = S l' ∧ pos !! c = Some (l', pre)) → intact_tables (tables (pred l) m0 c) m →
    ∃ m' fl', PageTable.drop_box l c m = Done (tt, m') ∧ frees m fl (tables (pred l) m0 c) m' fl') →
  kinv heap m fl → pos !! p = Some (l, pre) → NoDup is_ → (∀ i, i ∈ is_ → 0 ≤ i < 512) →
  is_Some (ram m !! p) → ram m !! p = ram m0 !! p → intact_tables (⋃ (below l m0 p <$> is_)) m →
  ∃ m' fl', for_each is_ (λ i,
      e ← read_word (PageTable.entry p i);
      if is_valid e && negb (is_leaf e) then PageTable.drop_box l (as_pagetable e) else mret tt) m = Done (tt, m') ∧
    frees m fl (⋃ (below l m0 p <$> is_)) m' fl'.
Proof.
  intros IH K Hp. revert m fl K. induction is_ as [|i is_ IHi]; intros m fl K Hnd Hr Hin Hram Hint.
  { exists m, fl. split; [done|]. by apply frees_nil. }
  apply NoDup_cons in Hnd as [Hni Hnd]. cbn [for_each]. rewrite fmap_cons, union_list_cons in *.
  assert (0 ≤ i < 512) as Hi by (apply Hr; left).
  assert (p mod PGSIZE = 0) as Hal by (by eapply (kinv_page heap m fl p K)).
  destruct (word_is_Some m p i) as (e & He & _); [apply K|done|done|].
  assert (word m0 p i = Some e) as He0 by (by rewrite <- (word_ram_eq _ _ p i Hram)).
  assert (∃ m1 fl1, (e ← read_word (PageTable.entry p i);
      if is_valid e && negb (is_leaf e) then PageTable.drop_box l (as_pagetable e) else mret tt) m = Done (tt, m1) ∧
    frees m fl (below l m0 p i) m1 fl1) as (m1 & fl1 & E1 & F1).
  { mstep (word_run m p i e He Hal Hi). destruct (is_valid e && negb (is_leaf e)) eqn:Hb.
    - assert (child m0 p i = Some (as_pagetable e)) as Hc by (unfold child; rewrite He0; simpl; by rewrite Hb).
      destruct l as [|l]; [by rewrite (Hleaf p pre i) in Hc|]. cbn [below pred] in *. rewrite Hc in Hint |- *.
      apply (IH m fl (as_pagetable e) (pre * 512 + i)); [done| |].
      + exists l. split; [done|]. by eapply child_pos.
      + intros q Hq. apply Hint, elem_of_union. by left.
    - exists m, fl. split; [done|].
      assert (below l m0 p i = ∅) as ->; [|by apply frees_nil].
      destruct l; [done|]. cbn [below]. unfold child. rewrite He0. simpl. by rewrite Hb. }
  mstep E1.
  assert (∀ j, j ∈ is_ → below l m0 p j ## below l m0 p i) as Hd.
  { intros j Hj q Hqj Hqi. apply Hni. rewrite (below_disjoint l p pre i j q); [done..|apply Hr; by right|done|done]. }
  pose proof (below_not_self l p pre i Hp Hi) as Hself.
  destruct (IHi m1 fl1) as (m' & fl' & E & F).
  - apply F1.
  - done.
  - intros j Hj. apply Hr. by right.
  - by rewrite (fr_ram _ _ _ _ _ F1).
  - by rewrite (fr_ram _ _ _ _ _ F1).
  - eapply intact_frees; [exact K| |exact F1|].
    + intros q Hq. apply Hint, elem_of_union. by right.
    + intros q Hq Hqi. apply elem_of_union_list in Hq as (X & (j & -> & Hj)%list_elem_of_fmap & Hq).
      by eapply (Hd j Hj q).
  - exists m', fl'. split; [done|]. by eapply frees_app.
Qed.
Lemma drop_box_run l m fl p pre :
  kinv heap m fl → pos !! p = Some (l, pre) → intact_tables (tables l m0 p) m →
  ∃ m' fl', PageTable.drop_box (S l) p m = Done (tt, m') ∧ frees m fl (tables l m0 p) m' fl'.
Proof.
  revert m fl p pre. induction l as [l IH] using lt_wf_ind; intros m fl p pre K Hp Hint.
  rewrite tables_below in Hint |- *. cbn [PageTable.drop_box]. set (R := ⋃ (below l m0 p <$> seqZ 0 512)) in *.
  assert (∀ i, i ∈ seqZ 0 512 → 0 ≤ i < 512) as Hr by (intros i Hi%elem_of_seqZ; lia).
  destruct (Hint p ltac:(apply elem_of_union; left; by apply elem_of_singleton)) as [Hram Ho].
  assert (p ∉ R) as HpR.
  { intros (X & (i & -> & Hi%Hr)%list_elem_of_fmap & Hq)%elem_of_union_list. by eapply below_not_self. }
  destruct (drop_loop l p pre (seqZ 0 512) m fl) as (m1 & fl1 & E1 & F1).
  - intros m2 fl2 c pre2 K2 (l' & -> & Hc) Hint2. cbn [pred] in *. by eapply IH; [lia|..].
  - done.
  - done.
  - apply NoDup_seqZ.
  - done.
  - apply Ho.
  - done.
  - intros q Hq. apply Hint. apply elem_of_union. by right.
  - fold R in F1. mstep E1.
    assert (owned m1 p) as Ho1.
    { destruct Ho as [Hin Hh Hc]. assert (is_page p) by (by eapply kinv_page).
      split; [by rewrite (fr_ram _ _ _ _ _ F1)|done|by rewrite (fr_cnt _ _ _ _ _ F1)]. }
    destruct (drop_owned m1 fl1 p (fr_kinv _ _ _ _ _ F1) Ho1) as (m2 & fl2 & E2 & F2).
    exists m2, fl2. split; [done|]. rewrite (union_comm_L {[p]} R). by eapply frees_app.
Qed.

(** [PageTableEntry::free] on an entry that points to a table of level [l]:
    it frees the tables below that table, and not the table. *)
Lemma entry_free_run l m fl e pre :
  is_valid e = true → is_leaf e = false →
  kinv heap m fl → pos !! as_pagetable e = Some (l, pre) →
  intact_tables (tables l m0 (as_pagetable e)) m →
  ∃ m' fl', Entry.free l e m = Done (tt, m')
    ∧ frees m fl (tables l m0 (as_pagetable e) ∖ {[as_pagetable e]}) m' fl'.
Proof.
  intros Hv Hlf K Hp Hint. set (p := as_pagetable e) in *.
  assert (∀ i, i ∈ seqZ 0 512 → 0 ≤ i < 512) as Hr by (intros i Hi%elem_of_seqZ; lia).
  destruct (Hint p) as [Hram Ho].
  { rewrite tables_below. apply elem_of_union. left. by apply elem_of_singleton. }
  assert (tables l m0 p ∖ {[p]} = ⋃ (below l m0 p <$> seqZ 0 512)) as ->.
  { rewrite tables_below. assert (p ∉ ⋃ (below l m0 p <$> seqZ 0 512)) as HpR.
    - intros (X & (i & -> & Hi%Hr)%list_elem_of_fmap & Hq)%elem_of_union_list. by eapply below_not_self.
    - revert HpR. generalize (⋃ (below l m0 p <$> seqZ 0 512)). clear. intros R HpR.
      apply set_eq. set_solver. }
  unfold Entry.free. rewrite Hv, Hlf. cbn [negb]. fold p.
  apply (drop_loop l p pre); [|done|done|apply NoDup_seqZ|done|apply Ho|done|].
  - intros m2 fl2 c pre2 K2 (l' & -> & Hc) Hint2. cbn [pred] in *. by eapply drop_box_run.
  - intros q Hq. apply Hint. rewrite tables_below. apply elem_of_union. by right.
Qed.
End drop.

(** C30. Dropping the box of a page table ends, and frees the whole table. On a
    user table whose pages have one reference each and whose last level maps
    pages only, the recursion of [Drop for PageTable] goes through its three
    levels and stops; afterwards exactly the pages of the table have joined
    the free list, and no other page has changed its contents or its count:
    the pages that were mapped are left to whoever owns them. *)
Theorem drop_table_frees heap root m fl pos :
  kinv heap m fl → pt_wf heap false m fl root pos →
  (∀ q, q ∈ tables 2 m root → heap ≤ q ∧ cnt m q = 1) →
  (∀ p pre i e, pos !! p = Some (0%nat, pre) → 0 ≤ i < 512 → word m p i = Some e → is_valid e = true → is_leaf e = true) →
  ∃ m' fl', PageTable.drop_box 3 root m = Done (tt, m') ∧ kinv heap m' fl' ∧
    (∀ q, q ∈ fl' ↔ q ∈ fl ∨ q ∈ tables 2 m root) ∧
    (∀ q, q ∉ tables 2 m root → ram m' !! q = ram m !! q) ∧
    (∀ q, is_page q → q ∉ tables 2 m root → cnt m' q = cnt m q).
Proof.
  intros K W Hc Hl. destruct (drop_box_run heap root m fl pos W) with (l := 2%nat) (m := m) (fl := fl) (p := root) (pre := 0)
    as (m' & fl' & E & [F1 F2 F3 F4]); [|done|apply W| |by exists m', fl'].
  - intros p pre i Hp Hi. unfold child. destruct (word m p i) as [e|] eqn:He; [|done]. cbn [mbind option_bind].
    destruct (is_valid e) eqn:Hv; [|done]. by rewrite (Hl p pre i e).
  - intros q Hq. split; [done|]. destruct (Hc q Hq) as [Hh Hcq]. split; [|done|done].
    destruct (tables_pos heap root m fl pos W 2 root 0 q (pw_root _ _ _ _ _ _ W) Hq) as (l' & pre' & Hp & _).
    apply (pw_page _ _ _ _ _ _ W _ _ Hp).
Qed.

(** A table with one page at every level. *)
Lemma boot_table :
  ∃ heap root z1 m pos, kinv heap m [] ∧ pt_wf heap false m [] root pos ∧ child m root 0 = Some z1 ∧
    (∀ q x, pos !! q = Some x → heap ≤ q ∧ cnt m q = 1) ∧
    (∀ p pre i e, pos !! p = Some (0%nat, pre) → 0 ≤ i < 512 → word m p i = Some e → is_valid e = false).
Proof.
  destruct (boot_root 2) as (m & fl & root & K & Hz & Hf & Hh & Hc & Hl); [lia|].
  destruct fl as [|z1 [|z2 [|]]]; [done|done| |done].
  destruct (empty_root (heap_of 3) root m [z1; z2] K Hz Hf Hh) as [W _].
  destruct (kinv_free_page _ _ _ z1 K) as (Hz1 & Hh1 & _); [left|].
  destruct (kinv_free_page _ _ _ z2 K) as (Hz2 & Hh2 & _); [right; left|].
  assert (word m root 0 = Some 0) as He0.
  { unfold word. rewrite Hz. by apply zero_page_word. }
  assert (root_pos root !! root = Some (2%nat, 0)) as Hp0 by apply lookup_singleton_eq.
  pose proof (add_table_kinv (heap_of 3) false root m [z2] (root_pos root) z1 root 0 1 0 0 K W Hp0 ltac:(lia) He0 eq_refl) as K1.
  pose proof (add_table_wf (heap_of 3) false root m [z2] (root_pos root) z1 root 0 1 0 0 K W Hp0 ltac:(lia) He0 eq_refl) as W1.
  pose proof (λ q j, add_table_word (heap_of 3) false root m [z2] (root_pos root) z1 root 0 1 0 0 K W Hp0 ltac:(lia) He0 eq_refl q j) as Hw1.
  set (m1 := add_table m [z2] root 0 z1) in *. set (pos1 := <[z1 := _]> (root_pos root)) in *.
  assert (pos1 !! z1 = Some (1%nat, 0)) as Hp1 by apply lookup_insert_eq.
  assert (word m1 z1 0 = Some 0) as He1 by (rewrite Hw1 by lia; by rewrite decide_True).
  pose proof (add_table_kinv (heap_of 3) false root m1 [] pos1 z2 z1 0 0 0 0 K1 W1 Hp1 ltac:(lia) He1 eq_refl) as K2.
  pose proof (add_table_wf (heap_of 3) false root m1 [] pos1 z2 z1 0 0 0 0 K1 W1 Hp1 ltac:(lia) He1 eq_refl) as W2.
  pose proof (λ q j, add_table_word (heap_of 3) false root m1 [] pos1 z2 z1 0 0 0 0 K1 W1 Hp1 ltac:(lia) He1 eq_refl q j) as Hw2.
  set (m2 := add_table m1 [] z1 0 z2) in *. set (pos2 := <[z2 := _]> pos1) in *.
  assert (root ≠ z1 ∧ root ≠ z2 ∧ z1 ≠ z2) as (N1 & N2 & N3).
  { pose proof (ki_nodup _ _ _ K) as [? _]%NoDup_cons. set_solver. }
  assert (∀ q, is_page q → cnt m2 q = if decide (z2 = q) then 1 else if decide (z1 = q) then 1 else cnt m q) as Hcnt.
  { intros q Hq. unfold m2, m1, add_table. rewrite cnt_set_word. unfold alloc_post at 1. rewrite cnt_insert by done.
    case_decide; [done|]. rewrite cnt_set_word. unfold alloc_post. by rewrite cnt_insert. }
  assert (is_page root) as Hrp by (eapply (kinv_page _ _ _ root K); by eexists).
  exists (heap_of 3), root, z1, m2, pos2. split_and!; [done|done| | |].
  - unfold child. rewrite Hw2, decide_False, decide_False, Hw1, decide_False, decide_True by (done || lia || naive_solver).
    cbn [mbind option_bind]. destruct (write_perm_table z1 Hz1) as (-> & -> & -> & _). done.
  - intros q x. unfold pos2, pos1, root_pos. rewrite !lookup_insert_Some, lookup_singleton_Some.
    intros [[<- _]|[_ [[<- _]|[_ [<- _]]]]]; rewrite Hcnt by done; repeat case_decide; try done; congruence.
  - intros p pre i e. unfold pos2, pos1, root_pos. rewrite !lookup_insert_Some, lookup_singleton_Some.
    intros [[<- _]|[_ [[<- [=]]|[_ [<- [=]]]]]] Hi. rewrite Hw2, decide_True by done. by intros [= <-].
Qed.
Lemma drop_table_frees_witness :
  ∃ root z m m' (fl' : list Z), PageTable.drop_box 3 root m = Done (tt, m') ∧ child m root 0 = Some z ∧ root ∈ fl' ∧ z ∈ fl' ∧
    (∀ q, q ∈ fl' ↔ q ∈ tables 2 m root).
Proof.
  destruct boot_table as (heap & root & z & m & pos & K & W & Hz & Hc & Hl).
  destruct (drop_table_frees heap root m [] pos K W) as (m' & fl' & E & _ & Hfl & _).
  - intros q Hq. destruct (tables_pos heap root m [] pos W 2 root 0 q (pw_root _ _ _ _ _ _ W) Hq) as (? & ? & Hp & _).
    by eapply Hc.
  - intros p pre i e Hp Hi He Hv. by rewrite (Hl p pre i e) in Hv.
  - assert (∀ q, q ∈ fl' ↔ q ∈ tables 2 m root) as Hq.
    { intros q. rewrite Hfl. split; [intros [?%elem_of_nil|?]; done|by right]. }
    exists root, z, m, m', fl'. split_and!; [done|done| | |done]; apply Hq.
    + rewrite tables_below. apply elem_of_union. left. by apply elem_of_singleton.
    + rewrite tables_below. apply elem_of_union. right. apply elem_of_union_list. exists (below 2 m root 0). split.
      * apply list_elem_of_fmap. exists 0. split; [done|]. by apply elem_of_seqZ.
      * cbn [below]. rewrite Hz, tables_below. apply elem_of_union. left. by apply elem_of_singleton.
Defined.
