(* ===== verification/Tests.v ===== *)
(** * The unit tests of the memory system

    The test cases of [memory/mapping/pagetable.rs] and [memory/mod.rs],
    translated like the code they test and run on a machine whose allocator
    has been initialised, as [rust_main] does before [test_main]. *)
From S2P Require Import Prelude Layout Pte Kalloc PageTable UserSpace DropTable.

Module Tests.
(** [assert_eq!]. *)
Definition assert_eq {S} (a b : Z) (msg : string) : M S unit := assert (a =? b) msg.

(** The end of a scope that owns a [Box<PageTable>]. *)
Definition drop_pgt (pgt : Z) : M mem unit := PageTable.drop_box 3 pgt.

Definition URW : Z := Z.lor (Z.lor PTE_U PTE_R) PTE_W.

Definition pgt_has_same_addr : M mem unit :=
  zerod_pgt ← new_zeroed;
  let addr_from_arr := PageTable.entry zerod_pgt 0 in
  let addr := zerod_pgt in
  assert_eq addr addr_from_arr "数组首地址和页表地址不同" ;;
  drop_pgt zerod_pgt.

(** [used] is [kalloc::ALLOCATOR.lock().used()]: that heap is not the global
    allocator, and no code initialises it or allocates from it. *)
Definition pgt_free (used : Z) : M mem unit :=
  let prev := used in
  pgt ← PageTable.unew;
  apage ← new_zeroed;
  PageTable.map pgt 0 apage PGSIZE (Z.lor (Z.lor (Z.lor PTE_U PTE_R) PTE_W) PTE_X) ;;
  PageTable.ufree pgt PGSIZE ;;
  drop_pgt pgt ;;
  let after := used in
  assert_eq prev after "you do not clear all page table".

(** The two pages of the copy tests: [for apage in [p1, p2]]. *)
Fixpoint map_pages (pgt addr : Z) (pages : list Z) : M mem unit :=
  match pages with
  | [] => mret tt
  | apage :: pages =>
    PageTable.map pgt addr apage PGSIZE URW ;;
    addr' ← uadd 64 addr PGSIZE;
    map_pages pgt addr' pages
  end.

(** [translate(va, false).unwrap().as_pagetable()]. *)
Definition page_at (pgt va : Z) : M mem Z :=
  r ← PageTable.translate pgt va false;
  e ← unwrap r PageTable.unwrap_msg;
  w ← read_word e;
  mret (PageTableEntry.as_pagetable w).

Definition data0 (p : Z) : M mem Z :=
  bs ← PageTable.load_bytes p 0 1;
  unwrap (bs !! 0%nat) "index out of bounds".

Definition pgt_copy_out : M mem unit :=
  pgt ← PageTable.unew;
  p1 ← new_zeroed;
  p2 ← new_zeroed;
  map_pages pgt 0 [p1; p2] ;;
  prev1 ← page_at pgt 0;
  prev2 ← page_at pgt PGSIZE;
  PageTable.store_bytes prev1 0 [222] ;;
  PageTable.store_bytes prev2 0 [255] ;;
  let data := replicate (Z.to_nat (PGSIZE * 2)) 111 in
  PageTable.copy_out pgt 0 data ;;
  b1 ← data0 prev1;
  assert_eq b1 111 "assertion failed" ;;
  b2 ← data0 prev2;
  assert_eq b2 111 "assertion failed" ;;
  PageTable.ufree pgt (PGSIZE * 2) ;;
  drop_pgt pgt.

Definition pgt_copy_in : M mem unit :=
  pgt ← PageTable.unew;
  p1 ← new_zeroed;
  p2 ← new_zeroed;
  map_pages pgt 0 [p1; p2] ;;
  prev1 ← page_at pgt 0;
  prev2 ← page_at pgt PGSIZE;
  PageTable.store_bytes prev1 0 [222] ;;
  PageTable.store_bytes prev2 0 [255] ;;
  data ← PageTable.copy_in pgt (PGSIZE * 2) 0;
  d0 ← unwrap (data !! 0%nat) "index out of bounds";
  assert_eq d0 222 "assertion failed" ;;
  d1 ← unwrap (data !! Z.to_nat PGSIZE) "index out of bounds";
  assert_eq d1 255 "assertion failed" ;;
  PageTable.ufree pgt (PGSIZE * 2) ;;
  drop_pgt pgt.

Definition same_mapping : M mem unit :=
  pgt ← PageTable.unew;
  p1 ← new_zeroed;
  let addr := p1 in
  PageTable.kernel_map pgt addr addr PGSIZE (Z.lor (Z.lor PTE_W PTE_R) PTE_U) ;;
  r ← PageTable.pgt_translate pgt addr;
  pa ← unwrap r PageTable.unwrap_msg;
  assert_eq addr pa "assertion failed" ;;
  PageTable.uunmap pgt addr 1 true ;;
  drop_pgt pgt.

(** [used] as above. *)
Definition test_drop_in_place (used : Z) : M mem unit :=
  let prev := used in
  pg ← new_zeroed;
  let mid := used in
  drop_page pg ;;
  let after := used in
  assert_eq prev after "Not Allocated or Not Deallocated" ;;
  p ← uadd 64 prev PGSIZE;
  assert_eq p mid "Not Allocated".

(** [etext], [trampoline] and [rust_main] are addresses the linker chooses.
    The table is leaked; the result is the value written to [satp]. *)
Definition test_kernel_map (etext trampoline rust_main : Z) : M mem Z :=
  kp ← PageTable.unew;
  PageTable.kernel_map kp VIRT_TEST VIRT_TEST PGSIZE (Z.lor PTE_R PTE_W) ;;
  PageTable.kernel_map kp UART0 UART0 PGSIZE (Z.lor PTE_R PTE_W) ;;
  text ← usub 64 etext KERNEL_BASE;
  PageTable.kernel_map kp KERNEL_BASE KERNEL_BASE text (Z.lor PTE_R PTE_X) ;;
  rest ← usub 64 PHYSTOP etext;
  PageTable.kernel_map kp etext etext rest (Z.lor PTE_R PTE_W) ;;
  PageTable.kernel_map kp TRAMPOLINE trampoline PGSIZE (Z.lor PTE_R PTE_X) ;;
  main_lookup ← PageTable.translate kp rust_main false;
  e ← unwrap main_lookup PageTable.unwrap_msg;
  w ← read_word e;
  assert_eq (page_round_down rust_main) (PageTableEntry.as_pagetable w) "assertion failed" ;;
  mret (PageTable.as_satp kp).
End Tests.
Import Tests.

(** The machine the tests run on: eight pages, all free. *)
Definition tested (t : M mem unit) : outcome (unit * mem) :=
  (Kalloc.init (heap_of 8) ;; t) (bootn 8).

Definition all_free (m : mem) : bool :=
  forallb (λ c, c =? 0) (snd <$> map_to_list (count m)).
Definition passes (t : M mem unit) : bool :=
  match tested t with Done (_, m) => all_free m | _ => false end.

(** The tests of the page tables pass, one after the other on one machine, and
    give back every page they take. *)
Lemma unit_tests_pass used :
  passes (pgt_has_same_addr ;; pgt_free used ;; pgt_copy_out ;; pgt_copy_in ;; same_mapping) = true.
Proof.
  assert (pgt_free used = pgt_free 0) as ->.
  { unfold pgt_free, assert_eq. by rewrite !Z.eqb_refl. }
  vm_compute. reflexivity.
Qed.

(** The test of the kernel's table passes for a kernel of 128 KiB, which is
    mapped in small pages. For one whose code fills 2 MiB it panics: the code
    is mapped by a large page, whose entry names the first of its pages. *)
Definition test_kernel_map_at (etext : Z) : outcome (Z * mem) :=
  (Kalloc.init (heap_of 16) ;;
   test_kernel_map etext (KERNEL_BASE + 0x1F000) (KERNEL_BASE + 0x1ABC)) (bootn 16).
Lemma test_kernel_map_runs :
  match test_kernel_map_at (KERNEL_BASE + 0x20000) with Done _ => True | _ => False end
  ∧ match test_kernel_map_at (KERNEL_BASE + 0x200000) with
    | Panic e => e = "assertion failed" | _ => False
    end.
Proof. split; vm_compute; done. Qed.

(** The test of the allocator fails on every machine with a free page: it
    expects the use of a heap to grow that the allocation does not touch. *)
Lemma test_drop_in_place_fails heap m p fl used :
  kinv heap m (p :: fl) → 0 ≤ used → used + PGSIZE < 2 ^ 64 →
  test_drop_in_place used m = Panic "Not Allocated".
Proof.
  intros K H0 H1. destruct (kinv_free_page _ _ _ p K) as (Hp & Hh & _); [left|].
  destruct (new_zeroed_run heap m p fl K) as [E K1]. unfold test_drop_in_place. mstep E.
  destruct (DropTable.drop_owned heap (alloc_post m p zero_page fl) fl p) as (m2 & fl2 & E2 & _); [done| |].
  { split; [unfold alloc_post; cbn; rewrite lookup_insert_eq; by eexists|done|].
    unfold alloc_post. rewrite cnt_insert by done. by rewrite decide_True. }
  mstep E2. unfold assert_eq. rewrite Z.eqb_refl, bind_assert, bind_uadd by done.
  unfold assert. by rewrite (proj2 (Z.eqb_neq _ _)) by layout_lia.
Qed.
