(* ===== verification/BufLru.v ===== *)
(** * The LRU list of the buffer cache

    [BufLru] of [fs/bio.rs]: the control blocks of the [NBUF] buffers, linked
    into a ring by array indices. The ring is a refinement of a plain list in
    most-recently-used order. *)
From S2P Require Import Prelude Layout.

(** ** The code *)
Record BufCtrl := mkBufCtrl {
  dev : Z;
  blockno : Z;
  prev : Z;
  next : Z;
  refcnt : Z;
  index : Z
}.

#[global] Instance BufCtrl_eq_dec : EqDecision BufCtrl.
Proof. solve_decision. Defined.

Module BufCtrl.
Definition new (idx : Z) : BufCtrl :=
  mkBufCtrl 0 0 (if idx =? 0 then 0 else idx - 1) (idx + 1) 0 idx.
Definition set_prev (c : BufCtrl) (p : Z) : BufCtrl :=
  mkBufCtrl (dev c) (blockno c) p (next c) (refcnt c) (index c).
Definition set_next (c : BufCtrl) (n : Z) : BufCtrl :=
  mkBufCtrl (dev c) (blockno c) (prev c) n (refcnt c) (index c).
Definition set_refcnt (c : BufCtrl) (r : Z) : BufCtrl :=
  mkBufCtrl (dev c) (blockno c) (prev c) (next c) r (index c).
Definition set_block (c : BufCtrl) (d b : Z) : BufCtrl :=
  mkBufCtrl d b (prev c) (next c) (refcnt c) (index c).
End BufCtrl.

Record BufLru := mkBufLru {
  inner : list BufCtrl;
  head : Z;
  tail : Z
}.

Module BufLru.
Import BufCtrl.

(** [self.inner[i]], bounds checked. *)
Definition ctrl (i : Z) : M BufLru BufCtrl := λ s,
  match inner s !! Z.to_nat i with
  | Some c => Done (c, s)
  | None => Panic "index out of bounds"
  end.
Definition update (i : Z) (f : BufCtrl → BufCtrl) : M BufLru unit :=
  c ← ctrl i;
  modify (λ s, mkBufLru (<[Z.to_nat i := f c]> (inner s)) (head s) (tail s)).
Definition set_head (h : Z) : M BufLru unit := modify (λ s, mkBufLru (inner s) h (tail s)).
Definition set_tail (t : Z) : M BufLru unit := modify (λ s, mkBufLru (inner s) (head s) t).

(** [BufLru::new] *)
Definition new : BufLru :=
  let inner := BufCtrl.new <$> seqZ 0 NBUF in
  let inner := alter (λ c, set_prev c (NBUF - 1)) 0%nat inner in
  let inner := alter (λ c, set_next c 0) (Z.to_nat (NBUF - 1)) inner in
  mkBufLru inner 0 (NBUF - 1).

(** [bref.refcnt += 1] *)
Definition incr (b : Z) : M BufLru unit :=
  c ← ctrl b; r ← uadd 64 (refcnt c) 1; update b (λ c, set_refcnt c r).

(** The returned pointer to the reference count is the ring index [b]. *)
Fixpoint find_cached_loop (fuel : nat) (b d bn : Z) : M BufLru (option (Z * Z)) :=
  match fuel with
  | O => hang
  | S fuel' =>
    bref ← ctrl b;
    if (dev bref =? d) && (blockno bref =? bn) then
      incr b ;;
      mret (Some (index bref, b))
    else
      h ← gets head;
      if next bref =? h then mret None else find_cached_loop fuel' (next bref) d bn
  end.
Definition find_cached (d bn : Z) : M BufLru (option (Z * Z)) :=
  h ← gets head; find_cached_loop (Z.to_nat NBUF) h d bn.

Fixpoint recycle_loop (fuel : nat) (b d bn : Z) : M BufLru (option (Z * Z)) :=
  match fuel with
  | O => hang
  | S fuel' =>
    bref ← ctrl b;
    if refcnt bref =? 0 then
      incr b ;;
      update b (λ c, set_block c d bn) ;;
      mret (Some (index bref, b))
    else
      t ← gets tail;
      if prev bref =? t then mret None else recycle_loop fuel' (prev bref) d bn
  end.
Definition recycle (d bn : Z) : M BufLru (option (Z * Z)) :=
  t ← gets tail; recycle_loop (Z.to_nat NBUF) t d bn.

Definition move_if_no_ref (index : Z) : M BufLru unit :=
  c ← ctrl index;
  r ← usub 64 (refcnt c) 1;
  update index (λ c, set_refcnt c r) ;;
  bref ← ctrl index;
  h ← gets head;
  if (refcnt bref =? 0) && negb (index =? h) then
    t ← gets tail;
    (if t =? index then set_tail (prev bref) else mret tt) ;;
    let prev := prev bref in
    let next := next bref in
    update prev (λ c, set_next c next) ;;
    update next (λ c, set_prev c prev) ;;
    t ← gets tail;
    update index (λ c, set_prev c t) ;;
    update index (λ c, set_next c h) ;;
    update h (λ c, set_prev c index) ;;
    update t (λ c, set_next c index) ;;
    set_head index
  else mret tt.
End BufLru.

(** ** The ring *)
Section linked.
Implicit Types (N P : Z → Z) (l : list Z).

(** Neighbours in [l] point at each other. *)
Fixpoint linked N P l : Prop :=
  match l with
  | x :: ((y :: _) as l') => N x = y ∧ P y = x ∧ linked N P l'
  | _ => True
  end.

Lemma linked_app N P l1 x l2 :
  linked N P (l1 ++ x :: l2) ↔ linked N P (l1 ++ [x]) ∧ linked N P (x :: l2).
Proof.
  induction l1 as [|y l1 IH]; simpl app; [destruct l2; simpl; naive_solver|].
  destruct l1 as [|z l1]; simpl in *; naive_solver.
Qed.

Lemma linked_last N P l z h :
  last l = Some z → linked N P (l ++ [h]) → N z = h ∧ P h = z.
Proof.
  intros [l' ->]%last_Some Hl. rewrite <- app_assoc in Hl.
  apply linked_app in Hl as [_ (? & ? & _)]. done.
Qed.

Lemma linked_frame N P N' P' l :
  NoDup l → linked N P l →
  (∀ x, x ∈ l → last l ≠ Some x → N' x = N x) →
  (∀ y, y ∈ l → hd_error l ≠ Some y → P' y = P y) → linked N' P' l.
Proof.
  induction l as [|x l IH]; intros Hnd Hl HN HP; [done|].
  destruct l as [|y l]; [done|]. destruct Hl as (HNx & HPy & Hl).
  apply NoDup_cons in Hnd as [Hx Hnd]. split_and!.
  - rewrite HN; [done|set_solver|]. simpl. intros E. apply Hx.
    apply last_Some_elem_of. done.
  - rewrite HP; [done|set_solver|]. simpl. set_solver.
  - apply IH; [done|done| |].
    + intros z Hz Hlast. apply HN; [set_solver|]. done.
    + intros z Hz Hh. apply HP; [set_solver|]. simpl. intros [= ->]. done.
Qed.
End linked.

(** ** The abstract list

    One entry per buffer, most recently used first. *)
Record lent := mkLent { l_idx : Z; l_dev : Z; l_bno : Z; l_ref : Z }.
Definition set_ref (e : lent) (r : Z) : lent := mkLent (l_idx e) (l_dev e) (l_bno e) r.
Definition set_blk (e : lent) (d b : Z) : lent := mkLent (l_idx e) d b (l_ref e).

Definition is_block (d bn : Z) (e : lent) : Prop := l_dev e = d ∧ l_bno e = bn.
#[global] Instance is_block_dec d bn e : Decision (is_block d bn e).
Proof. unfold is_block. apply _. Defined.

(** What the three operations promise. *)
Definition spec_find (d bn : Z) (l : list lent) : option Z * list lent :=
  match list_find (is_block d bn) l with
  | Some (i, e) => (Some (l_idx e), <[i := set_ref e (l_ref e + 1)]> l)
  | None => (None, l)
  end.
(** The least recently used entry without references. *)
Fixpoint lru_free (l : list lent) : option (nat * lent) :=
  match l with
  | [] => None
  | e :: l' =>
    match lru_free l' with
    | Some (i, e') => Some (S i, e')
    | None => if decide (l_ref e = 0) then Some (0%nat, e) else None
    end
  end.
Definition spec_recycle (d bn : Z) (l : list lent) : option Z * list lent :=
  match lru_free l with
  | Some (i, e) => (Some (l_idx e), <[i := mkLent (l_idx e) d bn 1]> l)
  | None => (None, l)
  end.
Definition spec_release (i : nat) (e : lent) (l : list lent) : list lent :=
  let e' := set_ref e (l_ref e - 1) in
  if decide (l_ref e = 1) then e' :: delete i l else <[i := e']> l.

Definition ctrl_of (e : lent) (p n : Z) : BufCtrl :=
  mkBufCtrl (l_dev e) (l_bno e) p n (l_ref e) (l_idx e).
Definition nextf (s : BufLru) (x : Z) : Z := default (-1) (next <$> inner s !! Z.to_nat x).
Definition prevf (s : BufLru) (x : Z) : Z := default (-1) (prev <$> inner s !! Z.to_nat x).

Record rep (s : BufLru) (l : list lent) : Prop := {
  rep_nodup : NoDup (l_idx <$> l);
  rep_ctrl : ∀ e, e ∈ l → 0 ≤ l_idx e ∧ 0 ≤ l_ref e < 2 ^ 63 ∧
    inner s !! Z.to_nat (l_idx e) =
      Some (ctrl_of e (prevf s (l_idx e)) (nextf s (l_idx e)));
  rep_head : hd_error (l_idx <$> l) = Some (head s);
  rep_tail : last (l_idx <$> l) = Some (tail s);
  rep_links : linked (nextf s) (prevf s) ((l_idx <$> l) ++ [head s]);
  rep_len : Z.of_nat (length l) = NBUF
}.

Section rep.
Implicit Types (s : BufLru) (l : list lent) (e : lent) (i : nat).

Lemma rep_idx_inj s l i j e e' :
  rep s l → l !! i = Some e → l !! j = Some e' →
  Z.to_nat (l_idx e) = Z.to_nat (l_idx e') → i = j.
Proof.
  intros R Hi Hj E.
  destruct (rep_ctrl _ _ R e) as [? _]; [by eapply list_elem_of_lookup_2|].
  destruct (rep_ctrl _ _ R e') as [? _]; [by eapply list_elem_of_lookup_2|].
  eapply (NoDup_lookup (l_idx <$> l)); [apply R|by rewrite list_lookup_fmap, Hi|].
  rewrite list_lookup_fmap, Hj. simpl. f_equal. lia.
Qed.

Lemma ctrl_run s l e :
  rep s l → e ∈ l →
  BufLru.ctrl (l_idx e) s = Done (ctrl_of e (prevf s (l_idx e)) (nextf s (l_idx e)), s).
Proof.
  intros R He. unfold BufLru.ctrl. destruct (rep_ctrl _ _ R e He) as (_ & _ & ->). done.
Qed.

Lemma update_run s l e f :
  rep s l → e ∈ l →
  BufLru.update (l_idx e) f s =
    Done (tt, mkBufLru (<[Z.to_nat (l_idx e) :=
      f (ctrl_of e (prevf s (l_idx e)) (nextf s (l_idx e)))]> (inner s)) (head s) (tail s)).
Proof. intros R He. unfold BufLru.update. mstep (ctrl_run s l e R He). done. Qed.

(** Changing an entry's payload. *)
Lemma rep_update s l i e e' f :
  rep s l → l !! i = Some e → l_idx e' = l_idx e → 0 ≤ l_ref e' < 2 ^ 63 →
  (∀ p n, f (ctrl_of e p n) = ctrl_of e' p n) →
  ∃ s', BufLru.update (l_idx e) f s = Done (tt, s') ∧ rep s' (<[i := e']> l) ∧
    head s' = head s ∧ tail s' = tail s.
Proof.
  intros R Hi Hidx Href Hf. pose proof (list_elem_of_lookup_2 _ _ _ Hi) as He.
  rewrite (update_run s l e) by done. rewrite Hf. eexists. split; [done|].
  set (p := prevf s (l_idx e)). set (n := nextf s (l_idx e)).
  set (s' := mkBufLru _ _ _).
  destruct (rep_ctrl _ _ R e He) as (H0 & _ & Hctrl).
  pose proof (lookup_lt_Some _ _ _ Hctrl) as Hlt.
  assert (∀ x, nextf s' x = nextf s x ∧ prevf s' x = prevf s x) as Hf'.
  { intros x. unfold nextf, prevf, s'. simpl.
    destruct (decide (Z.to_nat (l_idx e) = Z.to_nat x)) as [E|].
    - rewrite <- E, list_lookup_insert_eq, Hctrl by done. done.
    - by rewrite list_lookup_insert_ne. }
  assert (l_idx <$> <[i := e']> l = l_idx <$> l) as Hmap.
  { rewrite list_fmap_insert. apply list_insert_id. by rewrite list_lookup_fmap, Hi, Hidx. }
  split; [|done]. split; rewrite ?Hmap, ?length_insert; try apply R.
  - intros e0 [j Hj]%list_elem_of_lookup. destruct (Hf' (l_idx e0)) as [-> ->].
    apply list_lookup_insert_Some in Hj as [(<- & <- & _)|[Hne Hj]].
    + rewrite Hidx. split_and!; [lia..|]. unfold s'. simpl. by rewrite list_lookup_insert_eq.
    + destruct (rep_ctrl _ _ R e0) as (? & ? & Hc); [by eapply list_elem_of_lookup_2|].
      split_and!; [lia..|]. unfold s'. simpl. rewrite list_lookup_insert_ne; [done|].
      intros E. apply Hne. by eapply rep_idx_inj.
  - assert (∀ l0 : list Z, linked (nextf s) (prevf s) l0 → linked (nextf s') (prevf s') l0) as Hl.
    { induction l0 as [|x [|y l0] IH]; [done|done|]. intros (? & ? & ?).
      destruct (Hf' x) as [Hx _], (Hf' y) as [_ Hy]. split; [by rewrite Hx|].
      split; [by rewrite Hy|]. by apply IH. }
    apply Hl, R.
Qed.

Lemma incr_run s l i e :
  rep s l → l !! i = Some e → l_ref e + 1 < 2 ^ 63 →
  ∃ s', BufLru.incr (l_idx e) s = Done (tt, s') ∧
    rep s' (<[i := set_ref e (l_ref e + 1)]> l) ∧ head s' = head s ∧ tail s' = tail s.
Proof.
  intros R Hi Hr. pose proof (list_elem_of_lookup_2 _ _ _ Hi) as He.
  destruct (rep_ctrl _ _ R e He) as (_ & ? & _).
  unfold BufLru.incr. mstep (ctrl_run s l e R He). rewrite bind_uadd by (simpl; lia).
  apply (rep_update s l i e); [done|done|done|simpl; lia|done].
Qed.

Lemma rep_nonempty s l : rep s l → ∃ e l', l = e :: l' ∧ head s = l_idx e.
Proof.
  intros R. destruct l as [|e l']; [by pose proof (rep_head _ _ R)|].
  exists e, l'. split; [done|]. pose proof (rep_head _ _ R) as H. by injection H.
Qed.

(** The successor and predecessor of an entry in the ring. *)
Lemma ring_next s l l1 e l2 :
  rep s l → l = l1 ++ e :: l2 →
  nextf s (l_idx e) = default (head s) (l_idx <$> hd_error l2).
Proof.
  intros R ->. pose proof (rep_links _ _ R) as Hl. rewrite fmap_app, fmap_cons in Hl.
  rewrite <- app_assoc in Hl. apply linked_app in Hl as [_ Hl].
  destruct l2 as [|e2 l2]; simpl in Hl; naive_solver.
Qed.

Lemma ring_prev s l l1 e l2 :
  rep s l → l = l1 ++ e :: l2 →
  prevf s (l_idx e) = default (tail s) (l_idx <$> last l1).
Proof.
  intros R ->. pose proof (rep_links _ _ R) as Hl. rewrite fmap_app, fmap_cons in Hl.
  destruct l1 as [|e1 l1] using rev_ind; [|clear IHl1].
  - destruct (linked_last _ _ _ _ _ (rep_tail _ _ R) (rep_links _ _ R)) as [_ <-].
    pose proof (rep_head _ _ R) as Hh. by injection Hh as ->.
  - rewrite fmap_app, <- !app_assoc in Hl. simpl app in Hl.
    apply linked_app in Hl as [_ Hl]. rewrite last_snoc. simpl in *. by destruct Hl as (_ & ? & _).
Qed.

Lemma idx_eq_head s l l1 e l2 e2 :
  rep s l → l = l1 ++ e :: e2 :: l2 → l_idx e2 ≠ head s.
Proof.
  intros R ->. destruct (rep_nonempty _ _ R) as (e0 & l' & El & ->).
  pose proof (rep_nodup _ _ R) as Hnd. rewrite El in Hnd.
  apply NoDup_cons in Hnd as [Hnin _]. intros Eq. apply Hnin. rewrite <- Eq.
  apply list_elem_of_fmap_2. destruct l1; injection El as -> <-; set_solver.
Qed.

Lemma find_cached_loop_run fuel s l l1 e l2 d bn :
  rep s l → l = l1 ++ e :: l2 → (length (e :: l2) ≤ fuel)%nat →
  (∀ e', e' ∈ l → l_ref e' + 1 < 2 ^ 63) →
  match list_find (is_block d bn) (e :: l2) with
  | Some (i, e') => ∃ s', BufLru.find_cached_loop fuel (l_idx e) d bn s =
        Done (Some (l_idx e', l_idx e'), s') ∧
      rep s' (<[(length l1 + i)%nat := set_ref e' (l_ref e' + 1)]> l)
  | None => BufLru.find_cached_loop fuel (l_idx e) d bn s = Done (None, s)
  end.
Proof.
  intros R. revert l1 e l2. induction fuel as [|fuel IH]; intros l1 e l2 Hl Hfuel Href;
    [simpl in Hfuel; lia|].
  assert (e ∈ l) as He by set_solver.
  cbn [BufLru.find_cached_loop list_find]. mstep (ctrl_run s l e R He). cbn [dev blockno index ctrl_of].
  destruct (decide (is_block d bn e)) as [[Hd Hb]|Hnb].
  - rewrite Hd, Hb, !Z.eqb_refl. cbn [andb].
    destruct (incr_run s l (length l1) e) as (s' & E & R' & _); [done| |by apply Href|].
    { rewrite Hl. by apply list_lookup_middle. }
    exists s'. mstep E. by rewrite Nat.add_0_r.
  - assert ((l_dev e =? d) && (l_bno e =? bn) = false) as ->.
    { apply andb_false_iff. destruct (Z.eqb_spec (l_dev e) d); [|by left].
      right. apply Z.eqb_neq. intros ?. by apply Hnb. }
    rewrite bind_gets. cbn [next ctrl_of]. rewrite (ring_next s l l1 e l2) by done.
    destruct l2 as [|e2 l2]; cbn [hd_error fmap option_fmap option_map default from_option].
    { simpl. by rewrite Z.eqb_refl. }
    rewrite (proj2 (Z.eqb_neq _ _)) by (by eapply idx_eq_head).
    specialize (IH (l1 ++ [e]) e2 l2). rewrite <- app_assoc in IH.
    specialize (IH Hl ltac:(simpl in *; lia) Href).
    destruct (list_find (is_block d bn) (e2 :: l2)) as [[i e']|]; simpl; [|done].
    rewrite length_app in IH. simpl in IH. by rewrite <- Nat.add_assoc in IH.
Qed.

Lemma find_cached_run s l d bn :
  rep s l → (∀ e', e' ∈ l → l_ref e' + 1 < 2 ^ 63) →
  ∃ s', BufLru.find_cached d bn s =
      Done ((λ b, (b, b)) <$> fst (spec_find d bn l), s') ∧ rep s' (snd (spec_find d bn l)).
Proof.
  intros R Href. destruct (rep_nonempty _ _ R) as (e & l' & -> & Hh).
  unfold BufLru.find_cached. rewrite bind_gets, Hh.
  pose proof (find_cached_loop_run (Z.to_nat NBUF) s (e :: l') [] e l' d bn R eq_refl) as H.
  pose proof (rep_len _ _ R). specialize (H ltac:(lia) Href). unfold spec_find.
  destruct (list_find _ _) as [[i e']|]; simpl; [done|]. by exists s.
Qed.

Lemma lru_free_snoc l e :
  lru_free (l ++ [e]) =
    if decide (l_ref e = 0) then Some (length l, e) else lru_free l.
Proof.
  induction l as [|e0 l IH]; simpl; [done|]. rewrite IH.
  case_decide; [done|]. done.
Qed.

Lemma lru_free_lookup l i e : lru_free l = Some (i, e) → l !! i = Some e ∧ l_ref e = 0.
Proof.
  revert i. induction l as [|e0 l IH]; intros i; simpl; [done|].
  destruct (lru_free l) as [[j e']|].
  - intros [= <- <-]. apply (IH j). done.
  - case_decide; [|done]. by intros [= <- <-].
Qed.

Lemma recycle_loop_run fuel s l l1 e l2 d bn :
  rep s l → l = l1 ++ e :: l2 → (length l1 < fuel)%nat →
  match lru_free (l1 ++ [e]) with
  | Some (i, e') => ∃ s', BufLru.recycle_loop fuel (l_idx e) d bn s =
        Done (Some (l_idx e', l_idx e'), s') ∧ rep s' (<[i := mkLent (l_idx e') d bn 1]> l)
  | None => BufLru.recycle_loop fuel (l_idx e) d bn s = Done (None, s)
  end.
Proof.
  intros R. revert l1 e l2. induction fuel as [|fuel IH]; intros l1 e l2 Hl Hfuel; [lia|].
  assert (e ∈ l) as He by set_solver.
  assert (l !! length l1 = Some e) as Hi by (rewrite Hl; by apply list_lookup_middle).
  rewrite lru_free_snoc. cbn [BufLru.recycle_loop]. mstep (ctrl_run s l e R He).
  cbn [refcnt index ctrl_of]. destruct (decide (l_ref e = 0)) as [H0|Hn0].
  - rewrite H0, Z.eqb_refl.
    destruct (incr_run s l (length l1) e) as (s1 & E & R1 & _); [done|done|lia|].
    mstep E. set (e1 := set_ref e (l_ref e + 1)) in *.
    destruct (rep_update s1 (<[length l1 := e1]> l) (length l1) e1 (mkLent (l_idx e) d bn 1)
      (λ c, BufCtrl.set_block c d bn)) as (s2 & E2 & R2 & _); [done| |done|simpl; lia| |].
    { apply list_lookup_insert_eq. by eapply lookup_lt_Some. }
    { intros p n. unfold ctrl_of, BufCtrl.set_block. simpl. by rewrite H0. }
    exists s2. change (l_idx e) with (l_idx e1) at 1. mstep E2.
    by rewrite list_insert_insert_eq in R2.
  - rewrite (proj2 (Z.eqb_neq _ _)) by done. rewrite bind_gets. cbn [prev ctrl_of].
    rewrite (ring_prev s l l1 e l2) by done.
    destruct l1 as [|e1 l1] using rev_ind; [|clear IHl1]; simpl.
    { by rewrite Z.eqb_refl. }
    rewrite last_snoc. simpl. rewrite (proj2 (Z.eqb_neq _ _)).
    + rewrite <- app_assoc in Hl. apply (IH l1 e1 (e :: l2) Hl).
      rewrite length_app in Hfuel. simpl in Hfuel. lia.
    + intros Et. pose proof (rep_tail _ _ R) as Ht. rewrite Hl, fmap_app in Ht.
      rewrite last_app in Ht. pose proof (rep_nodup _ _ R) as Hnd.
      rewrite Hl, fmap_app, NoDup_app in Hnd. destruct Hnd as (_ & Hnd & _).
      destruct (last (l_idx <$> e :: l2)) as [t|] eqn:El; [|by apply last_None in El].
      apply (Hnd t); [|by apply last_Some_elem_of].
      injection Ht as ->. rewrite fmap_app. set_solver.
Qed.

Lemma recycle_run s l d bn :
  rep s l →
  ∃ s', BufLru.recycle d bn s =
      Done ((λ b, (b, b)) <$> fst (spec_recycle d bn l), s') ∧ rep s' (snd (spec_recycle d bn l)).
Proof.
  intros R. destruct (rep_nonempty _ _ R) as (e0 & l' & El & _).
  destruct l as [|e l1 _] using rev_ind; [done|]. clear e0 l' El.
  pose proof (rep_tail _ _ R) as Ht. rewrite fmap_app in Ht. simpl in Ht.
  rewrite last_snoc in Ht. injection Ht as Ht.
  unfold BufLru.recycle. rewrite bind_gets, <- Ht.
  pose proof (recycle_loop_run (Z.to_nat NBUF) s (l1 ++ [e]) l1 e [] d bn R eq_refl) as H.
  pose proof (rep_len _ _ R) as Hlen. rewrite length_app in Hlen. simpl in Hlen.
  specialize (H ltac:(lia)). unfold spec_recycle.
  destruct (lru_free _) as [[i e']|]; simpl; [done|]. by exists s.
Qed.

(** *** Relinking *)
Definition lput s (x : Z) (f : BufCtrl → BufCtrl) : BufLru :=
  mkBufLru (alter f (Z.to_nat x) (inner s)) (head s) (tail s).

Lemma update_lput s x f :
  is_Some (inner s !! Z.to_nat x) → BufLru.update x f s = Done (tt, lput s x f).
Proof.
  intros [c Hc]. unfold BufLru.update, BufLru.ctrl, lput.
  unfold mbind, M_bind. rewrite Hc. unfold modify. do 3 f_equal.
  apply list_eq. intros j. rewrite list_lookup_alter.
  destruct (decide (Z.to_nat x = j)) as [<-|].
  - rewrite Hc, list_lookup_insert_eq by (by eapply lookup_lt_Some). done.
  - by rewrite list_lookup_insert_ne.
Qed.

Lemma lput_dom s x f j : is_Some (inner (lput s x f) !! j) ↔ is_Some (inner s !! j).
Proof.
  simpl. rewrite list_lookup_alter. case_decide; [subst; apply fmap_is_Some|done].
Qed.

(** The fields relinking leaves alone. *)
Definition payload (c : BufCtrl) : Z * Z * Z * Z := (dev c, blockno c, refcnt c, index c).

Section lput.
Context (s : BufLru) (x v : Z) (Hx : is_Some (inner s !! Z.to_nat x)).

Lemma nextf_set_next y :
  nextf (lput s x (λ c, BufCtrl.set_next c v)) y =
    if decide (Z.to_nat x = Z.to_nat y) then v else nextf s y.
Proof.
  unfold nextf. simpl. rewrite list_lookup_alter. case_decide as E; [|done].
  rewrite <- ?E. by destruct Hx as [c ->].
Qed.
Lemma prevf_set_prev y :
  prevf (lput s x (λ c, BufCtrl.set_prev c v)) y =
    if decide (Z.to_nat x = Z.to_nat y) then v else prevf s y.
Proof.
  unfold prevf. simpl. rewrite list_lookup_alter. case_decide as E; [|done].
  rewrite <- ?E. by destruct Hx as [c ->].
Qed.
Lemma nextf_set_prev y : nextf (lput s x (λ c, BufCtrl.set_prev c v)) y = nextf s y.
Proof.
  unfold nextf. simpl. rewrite list_lookup_alter. case_decide as E; [|done].
  rewrite <- ?E. by destruct Hx as [c ->].
Qed.
Lemma prevf_set_next y : prevf (lput s x (λ c, BufCtrl.set_next c v)) y = prevf s y.
Proof.
  unfold prevf. simpl. rewrite list_lookup_alter. case_decide as E; [|done].
  rewrite <- ?E. by destruct Hx as [c ->].
Qed.
Lemma payload_set_next j :
  payload <$> inner (lput s x (λ c, BufCtrl.set_next c v)) !! j = payload <$> inner s !! j.
Proof. simpl. rewrite list_lookup_alter. case_decide; [subst|done]. by destruct Hx as [c ->]. Qed.
Lemma payload_set_prev j :
  payload <$> inner (lput s x (λ c, BufCtrl.set_prev c v)) !! j = payload <$> inner s !! j.
Proof. simpl. rewrite list_lookup_alter. case_decide; [subst|done]. by destruct Hx as [c ->]. Qed.
End lput.

(** The seven stores of [move_if_no_ref]. *)
Definition relink s (p n b t h : Z) : BufLru :=
  let s := lput s p (λ c, BufCtrl.set_next c n) in
  let s := lput s n (λ c, BufCtrl.set_prev c p) in
  let s := lput s b (λ c, BufCtrl.set_prev c t) in
  let s := lput s b (λ c, BufCtrl.set_next c h) in
  let s := lput s h (λ c, BufCtrl.set_prev c b) in
  let s := lput s t (λ c, BufCtrl.set_next c b) in
  mkBufLru (inner s) b t.

Lemma relink_spec s p n b t h :
  is_Some (inner s !! Z.to_nat p) → is_Some (inner s !! Z.to_nat n) →
  is_Some (inner s !! Z.to_nat b) → is_Some (inner s !! Z.to_nat t) →
  is_Some (inner s !! Z.to_nat h) →
  let s' := relink s p n b t h in
  (∀ j, payload <$> inner s' !! j = payload <$> inner s !! j) ∧
  (∀ y, nextf s' y = if decide (Z.to_nat t = Z.to_nat y) then b
     else if decide (Z.to_nat b = Z.to_nat y) then h
     else if decide (Z.to_nat p = Z.to_nat y) then n else nextf s y) ∧
  (∀ y, prevf s' y = if decide (Z.to_nat h = Z.to_nat y) then b
     else if decide (Z.to_nat b = Z.to_nat y) then t
     else if decide (Z.to_nat n = Z.to_nat y) then p else prevf s y).
Proof.
  intros Hp Hn Hb Ht Hh s'. unfold s', relink. cbv zeta.
  assert (∀ s0 y, nextf (mkBufLru (inner s0) b t) y = nextf s0 y) as E1 by done.
  assert (∀ s0 y, prevf (mkBufLru (inner s0) b t) y = prevf s0 y) as E2 by done.
  split_and!; intros y; rewrite ?E1, ?E2.
  - cbn [inner]. rewrite payload_set_next, payload_set_prev, payload_set_next,
      !payload_set_prev, payload_set_next; rewrite ?lput_dom; done.
  - rewrite nextf_set_next, nextf_set_prev, nextf_set_next, !nextf_set_prev, nextf_set_next;
      rewrite ?lput_dom; done.
  - rewrite prevf_set_next, prevf_set_prev, prevf_set_next, !prevf_set_prev, prevf_set_next;
      rewrite ?lput_dom; done.
Qed.

(** The index lists around the moved entry: [a] before it, [bb] after it. *)
Lemma relink_links N P N' P' (a bb : list Z) (b p h : Z) :
  let n := default h (hd_error bb) in
  let t := default p (last bb) in
  NoDup (a ++ b :: bb) → hd_error a = Some h → last a = Some p →
  linked N P ((a ++ b :: bb) ++ [h]) →
  (∀ y, y ∈ a ++ b :: bb → N' y =
     if decide (t = y) then b else if decide (b = y) then h
     else if decide (p = y) then n else N y) →
  (∀ y, y ∈ a ++ b :: bb → P' y =
     if decide (h = y) then b else if decide (b = y) then t
     else if decide (n = y) then p else P y) →
  linked N' P' ((b :: a ++ bb) ++ [b]).
Proof.
  intros n t Hnd Hh Hp Hl HN HP.
  assert (h ∈ a) as Hha by (destruct a; simplify_eq/=; set_solver).
  pose proof (last_Some_elem_of _ _ Hp) as Hpa.
  apply NoDup_app in Hnd as (Hnda & Hdisj & Hndb). apply NoDup_cons in Hndb as [Hb Hndb].
  assert (b ∉ a) as Hba by (intros ?; apply (Hdisj b); set_solver).
  assert (∀ x, x ∈ a → x ∉ bb) as Hab.
  { intros x Hx Hx'. apply (Hdisj x); [done|]. by apply elem_of_cons; right. }
  assert (∀ y, y ∈ a → y ∈ a ++ b :: bb) as Hina by (intros; apply elem_of_app; by left).
  assert (∀ y, y ∈ bb → y ∈ a ++ b :: bb) as Hinb.
  { intros. apply elem_of_app. right. apply elem_of_cons. by right. }
  assert (b ∈ a ++ b :: bb) as Hinm by (apply elem_of_app; right; apply elem_of_cons; by left).
  assert (t = p ∧ bb = [] ∨ t ∈ bb ∧ last bb = Some t) as Ht.
  { unfold t. destruct (last bb) as [t0|] eqn:E; [right|left].
    - split; [by apply last_Some_elem_of|done].
    - by apply last_None in E. }
  assert (n = h ∧ bb = [] ∨ n ∈ bb ∧ hd_error bb = Some n) as Hn.
  { unfold n. destruct bb; [by left|right]. simpl. set_solver. }
  clearbody n t.
  rewrite <- app_assoc in Hl. simpl app in Hl. apply linked_app in Hl as [Hl1 Hl2].
  assert (linked N P a) as Hla.
  { apply last_Some in Hp as [a2 ->]. rewrite <- app_assoc in Hl1. by apply linked_app in Hl1 as [? _]. }
  assert (linked N' P' a) as Hla'.
  { apply (linked_frame N P); [done..| |].
    - intros x Hx Hlast. rewrite HN by auto. rewrite !decide_False; [done|congruence|congruence|].
      intros <-. destruct Ht as [[-> _]|[? _]]; [done|by eapply Hab].
    - intros y Hy Hhd. rewrite HP by auto. rewrite !decide_False; [done| |congruence|congruence].
      intros <-. destruct Hn as [[-> _]|[? _]]; [done|by eapply Hab]. }
  assert (t ∈ a ++ b :: bb) as Hint by (destruct Ht as [[-> _]|[? _]]; auto).
  assert (t ≠ b) as Htb by (destruct Ht as [[-> _]|[? _]]; congruence).
  assert (N' t = b ∧ P' b = t) as [HNt HPb].
  { rewrite HN, HP by auto. rewrite decide_True by done.
    rewrite decide_False by congruence. by rewrite decide_True. }
  assert (N' b = h ∧ P' h = b) as [HNb HPh].
  { rewrite HN, HP by auto. rewrite (decide_True (P := h = h)) by done.
    rewrite decide_False by done. by rewrite decide_True. }
  assert (linked N' P' (a ++ bb ++ [b])) as Hmain.
  { apply last_Some in Hp as [a2 ->]. rewrite <- app_assoc. simpl app.
    apply linked_app. split; [done|]. destruct bb as [|n0 bb'].
    { destruct Ht as [[-> _]|[? _]]; [done|set_solver]. }
    destruct Ht as [[_ ?]|[Htbb Hlast]]; [done|]. destruct Hn as [[_ ?]|[Hnb [= En]]]; [done|].
    assert (p ≠ t) by (intros ->; by eapply Hab).
    assert (h ≠ n) by (intros ->; by eapply Hab).
    subst n0. split; [|split].
    - rewrite HN by auto. rewrite !decide_False by congruence. by rewrite decide_True.
    - rewrite HP by auto. rewrite !decide_False by congruence. by rewrite decide_True.
    - change (linked N' P' ((n :: bb') ++ [b])).
      assert (linked N' P' (n :: bb')) as Hlb.
      { apply (linked_frame N P); [done| | |].
        - destruct Hl2 as (_ & _ & Hl2). change (linked N P ((n :: bb') ++ [h])) in Hl2.
          apply last_Some in Hlast as [b2 E2].
          rewrite E2, <- app_assoc in Hl2. rewrite E2. by apply linked_app in Hl2 as [? _].
        - intros x Hx Hlx. rewrite HN by auto.
          rewrite !decide_False; first [done|congruence|intros ->; by eapply Hab].
        - intros y Hy Hhd. rewrite HP by auto.
          rewrite !decide_False; first [done|congruence|intros ->; by eapply Hab]. }
      apply last_Some in Hlast as [b2 E2]. rewrite E2, <- app_assoc. simpl app.
      apply linked_app. rewrite <- E2. done. }
  destruct a as [|h0 a']; [done|]. injection Hh as ->. simpl app.
  rewrite <- app_assoc. split; [done|]. split; [done|]. exact Hmain.
Qed.

Lemma payload_ctrl s s' e :
  (∀ j, payload <$> inner s' !! j = payload <$> inner s !! j) →
  inner s !! Z.to_nat (l_idx e) = Some (ctrl_of e (prevf s (l_idx e)) (nextf s (l_idx e))) →
  inner s' !! Z.to_nat (l_idx e) = Some (ctrl_of e (prevf s' (l_idx e)) (nextf s' (l_idx e))).
Proof.
  intros Hp Hs. specialize (Hp (Z.to_nat (l_idx e))). rewrite Hs in Hp.
  unfold prevf, nextf. destruct (inner s' !! Z.to_nat (l_idx e)) as [[d b p n r ix]|]; [|done].
  simpl in *. unfold payload, ctrl_of in *. simpl in *. by simplify_eq.
Qed.

(** Moving an entry that is not the head to the front of the ring. *)
Lemma relink_rep s A e B p :
  rep s (A ++ e :: B) → last (l_idx <$> A) = Some p →
  rep (relink s p (default (head s) (l_idx <$> hd_error B)) (l_idx e)
         (default p (last (l_idx <$> B))) (head s)) (e :: A ++ B).
Proof.
  intros R Hp. set (n := default (head s) _). set (t := default p _).
  pose proof (rep_nodup _ _ R) as Hnd. rewrite fmap_app, fmap_cons in Hnd.
  assert (hd_error (l_idx <$> A) = Some (head s)) as Hh.
  { rewrite <- (rep_head _ _ R). destruct A; [done|]. done. }
  assert (∀ y, y ∈ (l_idx <$> A) ++ l_idx e :: (l_idx <$> B) →
    0 ≤ y ∧ is_Some (inner s !! Z.to_nat y)) as Hdom.
  { intros y Hy. assert (y ∈ l_idx <$> (A ++ e :: B)) as (e0 & -> & He0)%list_elem_of_fmap
      by (by rewrite fmap_app, fmap_cons).
    destruct (rep_ctrl _ _ R e0 He0) as (? & _ & ->). split; [done|by eexists]. }
  assert (p ∈ (l_idx <$> A) ++ l_idx e :: (l_idx <$> B)) as Hpin.
  { apply elem_of_app. left. by apply last_Some_elem_of. }
  assert (head s ∈ (l_idx <$> A) ++ l_idx e :: (l_idx <$> B)) as Hhin.
  { apply elem_of_app. left. destruct (l_idx <$> A); simplify_eq/=; set_solver. }
  assert (n ∈ (l_idx <$> A) ++ l_idx e :: (l_idx <$> B)) as Hnin.
  { unfold n. destruct B; simpl; [done|]. apply elem_of_app. right. set_solver. }
  assert (t ∈ (l_idx <$> A) ++ l_idx e :: (l_idx <$> B)) as Htin.
  { unfold t. destruct (last (l_idx <$> B)) as [z|] eqn:Ez; [|done]. simpl.
    apply elem_of_app. right. apply elem_of_cons. right. by apply last_Some_elem_of. }
  assert (l_idx e ∈ (l_idx <$> A) ++ l_idx e :: (l_idx <$> B)) as Hbin.
  { apply elem_of_app. right. apply elem_of_cons. by left. }
  destruct (relink_spec s p n (l_idx e) t (head s)) as (Hpay & HN & HP); [by apply Hdom..|].
  assert (∀ x y, x ∈ (l_idx <$> A) ++ l_idx e :: (l_idx <$> B) →
    y ∈ (l_idx <$> A) ++ l_idx e :: (l_idx <$> B) → Z.to_nat x = Z.to_nat y ↔ x = y) as Hinj.
  { intros x y Hx%Hdom Hy%Hdom. lia. }
  pose proof (rep_len _ _ R) as Hlen.
  split.
  - rewrite fmap_cons, fmap_app. by rewrite <- Permutation_middle in Hnd.
  - intros e0 He0. destruct (rep_ctrl _ _ R e0) as (? & ? & Hc); [by rewrite <- Permutation_middle|].
    split_and!; [lia..|]. by apply (payload_ctrl s).
  - done.
  - simpl. rewrite fmap_app, <- fmap_app, last_cons, fmap_app, last_app. unfold t.
    rewrite Hp. by destruct (last (l_idx <$> B)).
  - rewrite fmap_cons, fmap_app. apply (relink_links (nextf s) (prevf s) _ _ _ _ _ p (head s)).
    + done.
    + done.
    + done.
    + pose proof (rep_links _ _ R) as Hl. by rewrite fmap_app, fmap_cons in Hl.
    + intros y Hy. rewrite HN.
      assert (n = default (head s) (hd_error (l_idx <$> B))) as <- by (by destruct B).
      rewrite (decide_ext _ _ _ _ (Hinj _ y Htin Hy)), (decide_ext _ _ _ _ (Hinj _ y Hbin Hy)),
        (decide_ext _ _ _ _ (Hinj _ y Hpin Hy)). done.
    + intros y Hy. rewrite HP.
      assert (n = default (head s) (hd_error (l_idx <$> B))) as <- by (by destruct B).
      rewrite (decide_ext _ _ _ _ (Hinj _ y Hhin Hy)), (decide_ext _ _ _ _ (Hinj _ y Hbin Hy)),
        (decide_ext _ _ _ _ (Hinj _ y Hnin Hy)). done.
  - rewrite <- Hlen. simpl. rewrite !length_app. simpl. lia.
Qed.

Lemma rep_dom s l e : rep s l → e ∈ l → is_Some (inner s !! Z.to_nat (l_idx e)).
Proof. intros R He. destruct (rep_ctrl _ _ R e He) as (_ & _ & ->). by eexists. Qed.

Lemma rep_dom_idx s l x : rep s l → x ∈ l_idx <$> l → is_Some (inner s !! Z.to_nat x).
Proof. intros R (e & -> & He)%list_elem_of_fmap. by eapply rep_dom. Qed.

Lemma rep_head_elem s l : rep s l → head s ∈ l_idx <$> l.
Proof.
  intros R. destruct (rep_nonempty _ _ R) as (e & l' & -> & ->). rewrite fmap_cons.
  apply elem_of_cons. by left.
Qed.

(** The relinking of [move_if_no_ref], run from a state with the count
    already dropped. *)
Lemma relink_run s A e B p :
  rep s (A ++ e :: B) → last (l_idx <$> A) = Some p →
  let n := default (head s) (l_idx <$> hd_error B) in
  let t := default p (last (l_idx <$> B)) in
  let b := l_idx e in
  ((if tail s =? b then BufLru.set_tail p else mret tt) ;;
   BufLru.update p (λ c, BufCtrl.set_next c n) ;;
   BufLru.update n (λ c, BufCtrl.set_prev c p) ;;
   (t ← gets tail;
    BufLru.update b (λ c, BufCtrl.set_prev c t) ;;
    BufLru.update b (λ c, BufCtrl.set_next c (head s)) ;;
    BufLru.update (head s) (λ c, BufCtrl.set_prev c b) ;;
    BufLru.update t (λ c, BufCtrl.set_next c b) ;;
    BufLru.set_head b)) s = Done (tt, relink s p n b t (head s)).
Proof.
  intros R Hp n t b. pose proof (rep_tail _ _ R) as Ht.
  assert (∀ x, x ∈ l_idx <$> (A ++ e :: B) → is_Some (inner s !! Z.to_nat x)) as Hdom.
  { intros x. by apply rep_dom_idx. }
  rewrite fmap_app, fmap_cons, last_app, last_cons in Ht.
  assert (tail s = default b (last (l_idx <$> B))) as Htail.
  { destruct (last (l_idx <$> B)); by injection Ht. }
  assert (p ∈ l_idx <$> (A ++ e :: B)) as Hpin.
  { rewrite fmap_app. apply elem_of_app. left. by apply last_Some_elem_of. }
  assert (is_Some (inner s !! Z.to_nat n)) as Hn.
  { unfold n. destruct B as [|e2 B]; simpl; [apply Hdom; by eapply rep_head_elem|].
    eapply rep_dom; [done|set_solver]. }
  assert (is_Some (inner s !! Z.to_nat b)) as Hb by (eapply rep_dom; [done|set_solver]).
  assert (t = if tail s =? b then p else tail s) as Ht'.
  { unfold t. rewrite Htail. destruct (last (l_idx <$> B)) as [z|] eqn:Ez; simpl.
    - apply last_Some_elem_of in Ez. pose proof (rep_nodup _ _ R) as Hnd.
      rewrite fmap_app, fmap_cons, NoDup_app, NoDup_cons in Hnd.
      rewrite (proj2 (Z.eqb_neq z b)); [done|]. intros ->. naive_solver.
    - by rewrite Z.eqb_refl. }
  assert (is_Some (inner s !! Z.to_nat t)) as Htd.
  { unfold t. destruct (last (l_idx <$> B)) as [z|] eqn:Ez; simpl; [|by apply Hdom].
    apply Hdom. rewrite fmap_app, fmap_cons. apply elem_of_app. right.
    apply elem_of_cons. right. by apply last_Some_elem_of. }
  set (s0 := mkBufLru (inner s) (head s) t).
  assert ((if tail s =? b then BufLru.set_tail p else mret tt) s = Done (tt, s0)) as E0.
  { unfold s0. rewrite Ht'. destruct (tail s =? b); [done|]. by destruct s. }
  mstep E0.
  pose proof (Hdom _ (rep_head_elem _ _ R)) as Hh. pose proof (Hdom _ Hpin) as Hpd.
  do 2 (erewrite bind_run; [|apply update_lput; rewrite ?lput_dom; done]). rewrite bind_gets.
  cbn [tail lput s0].
  do 4 (erewrite bind_run; [|apply update_lput; rewrite ?lput_dom; done]). done.
Qed.

Lemma move_if_no_ref_run s l i e :
  rep s l → l !! i = Some e → 1 ≤ l_ref e →
  ∃ s', BufLru.move_if_no_ref (l_idx e) s = Done (tt, s') ∧ rep s' (spec_release i e l).
Proof.
  intros R Hi Hr. pose proof (list_elem_of_lookup_2 _ _ _ Hi) as He.
  destruct (rep_ctrl _ _ R e He) as (_ & Hr' & _).
  unfold BufLru.move_if_no_ref. mstep (ctrl_run s l e R He). cbn [refcnt ctrl_of].
  rewrite bind_usub by lia. set (e' := set_ref e (l_ref e - 1)).
  destruct (rep_update s l i e e' (λ c, BufCtrl.set_refcnt c (l_ref e - 1)))
    as (s1 & E1 & R1 & Hh1 & Ht1); [done|done|done|simpl; lia|done|].
  mstep E1. change (l_idx e) with (l_idx e').
  assert (e' ∈ <[i := e']> l) as He'.
  { eapply list_elem_of_lookup_2, list_lookup_insert_eq. by eapply lookup_lt_Some. }
  mstep (ctrl_run s1 _ e' R1 He'). rewrite bind_gets. cbn [refcnt prev next ctrl_of].
  unfold spec_release. fold e'. change (l_ref e') with (l_ref e - 1).
  destruct (Z.eqb_spec (l_ref e - 1) 0) as [H0|H0].
  2:{ rewrite decide_False by lia. exists s1. by split. }
  rewrite decide_True by lia. cbn [andb].
  pose proof (take_drop_middle l i e Hi) as Hsplit.
  assert (<[i := e']> l = take i l ++ e' :: drop (S i) l) as Hl'.
  { rewrite insert_take_drop by (by eapply lookup_lt_Some). done. }
  assert (delete i l = take i l ++ drop (S i) l) as -> by apply delete_take_drop.
  rewrite Hl' in R1. destruct (Z.eqb_spec (l_idx e') (head s1)) as [Eh|Eh]; cbn [negb].
  - exists s1. split; [done|]. destruct (take i l) as [|e0 A] eqn:EA; [done|exfalso].
    destruct (rep_nonempty _ _ R1) as (e1 & l' & [= -> _] & Hh).
    pose proof (rep_nodup _ _ R1) as Hnd. simpl in Hnd. apply NoDup_cons in Hnd as [Hnd _].
    apply Hnd. rewrite <- Hh, <- Eh, fmap_app. set_solver.
  - rewrite bind_gets. destruct (last (l_idx <$> take i l)) as [p|] eqn:Ep.
    2:{ exfalso. apply last_None, fmap_nil_inv in Ep. rewrite Ep in R1.
        apply Eh. pose proof (rep_head _ _ R1) as Hh. by injection Hh. }
    exists (relink s1 p (default (head s1) (l_idx <$> hd_error (drop (S i) l))) (l_idx e')
      (default p (last (l_idx <$> drop (S i) l))) (head s1)).
    split; [|by apply relink_rep].
    rewrite (ring_prev s1 _ (take i l) e' (drop (S i) l) R1 eq_refl).
    rewrite (ring_next s1 _ (take i l) e' (drop (S i) l) R1 eq_refl).
    assert (default (tail s1) (l_idx <$> last (take i l)) = p) as ->.
    { rewrite fmap_last in Ep. by rewrite Ep. }
    by apply (relink_run s1 (take i l) e' (drop (S i) l) p).
Qed.
End rep.

(** The initial ring. *)
Definition new_list : list lent := (λ i, mkLent i 0 0 0) <$> seqZ 0 NBUF.

Lemma new_rep : rep BufLru.new new_list.
Proof.
  split.
  - apply (bool_decide_unpack _). by vm_compute.
  - intros e He. assert (Forall (λ e, 0 ≤ l_idx e ∧ 0 ≤ l_ref e < 2 ^ 63 ∧
      inner BufLru.new !! Z.to_nat (l_idx e) =
        Some (ctrl_of e (prevf BufLru.new (l_idx e)) (nextf BufLru.new (l_idx e)))) new_list) as Hall.
    { apply (bool_decide_unpack _). by vm_compute. }
    by apply (proj1 (Forall_forall _ _) Hall).
  - done.
  - done.
  - vm_compute. tauto.
  - done.
Qed.

(** ** Refinement *)

(** The operations a client may issue, and their result on the abstract list. *)
Inductive lru_op :=
| OpFind (d bn : Z)
| OpRecycle (d bn : Z)
| OpRelease (idx : Z).

Definition run_op (o : lru_op) : M BufLru (option Z) :=
  match o with
  | OpFind d bn => r ← BufLru.find_cached d bn; mret (fst <$> r)
  | OpRecycle d bn => r ← BufLru.recycle d bn; mret (fst <$> r)
  | OpRelease idx => BufLru.move_if_no_ref idx ;; mret None
  end.

Definition has_idx (idx : Z) (e : lent) : Prop := l_idx e = idx.
#[global] Instance has_idx_dec idx e : Decision (has_idx idx e).
Proof. unfold has_idx. apply _. Defined.

(** [None]: a release without a reference, which the code does not allow. *)
Definition spec_op (o : lru_op) (l : list lent) : option (option Z * list lent) :=
  match o with
  | OpFind d bn =>
    if forallb (λ e, l_ref e + 1 <? 2 ^ 63) l then Some (spec_find d bn l) else None
  | OpRecycle d bn => Some (spec_recycle d bn l)
  | OpRelease idx =>
    '(i, e) ← list_find (has_idx idx) l;
    if 0 <? l_ref e then Some (None, spec_release i e l) else None
  end.

Fixpoint run_ops (os : list lru_op) : M BufLru (list (option Z)) :=
  match os with
  | [] => mret []
  | o :: os' => r ← run_op o; rs ← run_ops os'; mret (r :: rs)
  end.
Fixpoint spec_ops (os : list lru_op) (l : list lent) : option (list (option Z) * list lent) :=
  match os with
  | [] => Some ([], l)
  | o :: os' => '(r, l1) ← spec_op o l; '(rs, l2) ← spec_ops os' l1; Some (r :: rs, l2)
  end.

Lemma run_op_spec s l o r l' :
  rep s l → spec_op o l = Some (r, l') → ∃ s', run_op o s = Done (r, s') ∧ rep s' l'.
Proof.
  intros R. destruct o as [d bn|d bn|idx]; simpl.
  - destruct (forallb _ l) eqn:Ha; [|done]. intros [= Hs].
    destruct (find_cached_run s l d bn) as (s' & E & R'); [done| |].
    { intros e He. rewrite forallb_forall in Ha. apply Z.ltb_lt, Ha.
      by apply list_elem_of_In. }
    rewrite Hs in E, R'. simpl in *. exists s'. mstep E. by destruct r.
  - intros [= Hs]. destruct (recycle_run s l d bn R) as (s' & E & R').
    rewrite Hs in E, R'. simpl in *. exists s'. mstep E. by destruct r.
  - destruct (list_find (has_idx idx) l) as [[i e]|] eqn:Hf; [|done]. simpl.
    apply list_find_Some in Hf as (Hi & Hidx & _). unfold has_idx in Hidx.
    destruct (Z.ltb_spec 0 (l_ref e)); [|done]. intros [= <- <-].
    destruct (move_if_no_ref_run s l i e) as (s' & E & R'); [done|done|lia|].
    rewrite Hidx in E. exists s'. by mstep E.
Qed.

(** C2. The array-linked LRU ring of the buffer cache implements a list: from
    [BufLru::new], any sequence of lookups, recyclings and releases that never
    releases an unreferenced buffer returns exactly what it returns on a plain
    most-recently-used list (a lookup takes the matching entry, a recycling
    the least recently used unreferenced one, the last release of an entry
    moves it to the front), without a panic and without looping forever, and
    the links stay those of that list. *)
Theorem lru_refines os rs l' :
  spec_ops os new_list = Some (rs, l') →
  ∃ s', run_ops os BufLru.new = Done (rs, s') ∧ rep s' l'.
Proof.
  generalize new_rep. generalize BufLru.new, new_list.
  revert rs. induction os as [|o os IH]; intros rs s l R; simpl.
  { intros [= <- <-]. by exists s. }
  destruct (spec_op o l) as [[r l1]|] eqn:Ho; [|done]. simpl.
  destruct (spec_ops os l1) as [[rs1 l2]|] eqn:Hos; [|done]. intros [= <- <-].
  destruct (run_op_spec s l o r l1 R Ho) as (s1 & E1 & R1).
  destruct (IH rs1 s1 l1 R1 Hos) as (s2 & E2 & R2).
  exists s2. mstep E1. by mstep E2.
Qed.

(** Two blocks brought in, the first released and found again. *)
Lemma lru_refines_witness :
  ∃ s' l', run_ops [OpFind 1 7; OpRecycle 1 7; OpRecycle 1 8; OpRelease 29; OpFind 1 7] BufLru.new =
    Done ([None; Some 29; Some 28; None; Some 29], s') ∧ rep s' l'.
Proof.
  destruct (lru_refines [OpFind 1 7; OpRecycle 1 7; OpRecycle 1 8; OpRelease 29; OpFind 1 7]
    [None; Some 29; Some 28; None; Some 29]
    (snd (default ([], []) (spec_ops [OpFind 1 7; OpRecycle 1 7; OpRecycle 1 8; OpRelease 29; OpFind 1 7] new_list))))
    as (s' & E & R); [by vm_compute|].
  by exists s', (snd (default ([], []) (spec_ops [OpFind 1 7; OpRecycle 1 7; OpRecycle 1 8; OpRelease 29; OpFind 1 7] new_list))).
Defined.
