(* ===== verification/Bcache.v ===== *)
(** * The buffer cache

    [BCache] and [Buf] of [fs/bio.rs] over a block device, and what they
    promise to the file system: the interface [BufferCache]. An unreferenced
    buffer is invisible through the interface; the cache may forget it. *)
From S2P Require Import Prelude Layout BufLru.

(** ** The block device

    What the cache relies on of the disk behind [DISK.rw]: a block read
    returns what was last written to it. *)
Abbreviation block := (list Z).

Class BlockDev (D : Type) := {
  dev_read : D → Z → block;
  dev_write : D → Z → block → D
}.
Class BlockDevLaws (D : Type) `{BlockDev D} := {
  dev_read_write d b x b' :
    dev_read (dev_write d b x) b' = if decide (b = b') then x else dev_read d b'
}.

(** ** The code *)
Record BufInner := mkBufInner { valid : bool; data_locked : bool; data : block }.
Definition zero_block : block := replicate (Z.to_nat BSIZE) 0.

Module BufInner.
Definition new : BufInner := mkBufInner false false zero_block.
Definition set_valid (v : bool) (b : BufInner) : BufInner := mkBufInner v (data_locked b) (data b).
Definition set_locked (v : bool) (b : BufInner) : BufInner := mkBufInner (valid b) v (data b).
Definition set_data (x : block) (b : BufInner) : BufInner := mkBufInner (valid b) (data_locked b) x.
End BufInner.

Record bcache (D : Type) := mkBcache { ctrl : BufLru; bufs : list BufInner; disk : D }.
Arguments mkBcache {D} _ _ _.
Arguments ctrl {D} _.
Arguments bufs {D} _.
Arguments disk {D} _.

(** A handle; its data is the locked data of buffer [b_index]. [b_rc] is the
    buffer whose reference count [rc_ptr] points to. *)
Record Buf := mkBuf { b_index : Z; b_dev : Z; b_blockno : Z; b_rc : Z }.

Module BCache.
Section bcache.
Context {D : Type} `{!BlockDev D}.

Definition new (d : D) : bcache D :=
  mkBcache BufLru.new (replicate (Z.to_nat NBUF) BufInner.new) d.

Definition with_ctrl {A} (m : M BufLru A) : M (bcache D) A :=
  zoom ctrl (λ c s, mkBcache c (bufs s) (disk s)) m.
Definition buf_at (i : Z) : M (bcache D) BufInner := λ s,
  match bufs s !! Z.to_nat i with
  | Some b => Done (b, s)
  | None => Panic "index out of bounds"
  end.
Definition set_buf (i : Z) (f : BufInner → BufInner) : M (bcache D) unit :=
  b ← buf_at i;
  modify (λ s, mkBcache (ctrl s) (<[Z.to_nat i := f b]> (bufs s)) (disk s)).

(** [self.data.lock()]: a caller that finds the sleep lock taken waits for
    its holder, here the outcome [Hang]. *)
Definition lock_data (i : Z) : M (bcache D) unit :=
  b ← buf_at i;
  if data_locked b then hang else set_buf i (BufInner.set_locked true).

Definition get (dev blockno : Z) : M (bcache D) Buf :=
  r ← with_ctrl (BufLru.find_cached dev blockno);
  match r with
  | Some (idx, rc) =>
    lock_data idx ;; mret (mkBuf idx dev blockno rc)
  | None =>
    r ← with_ctrl (BufLru.recycle dev blockno);
    match r with
    | Some (idx, rc) =>
      set_buf idx (BufInner.set_valid false) ;;
      lock_data idx ;;
      mret (mkBuf idx dev blockno rc)
    | None => panic "no usable buffer"
    end
  end.

(** [DISK.rw(buf, writing)]: the device ignores [dev]. *)
Definition rw (b : Buf) (writing : bool) : M (bcache D) unit :=
  x ← buf_at (b_index b);
  if writing then
    modify (λ s, mkBcache (ctrl s) (bufs s) (dev_write (disk s) (b_blockno b) (data x)))
  else
    d ← gets disk;
    set_buf (b_index b) (BufInner.set_data (dev_read d (b_blockno b))).

Definition read (dev blockno : Z) : M (bcache D) Buf :=
  b ← get dev blockno;
  x ← buf_at (b_index b);
  (if negb (valid x) then
     rw b false ;;
     set_buf (b_index b) (BufInner.set_valid true)
   else mret tt) ;;
  mret b.

Definition release (index : Z) : M (bcache D) unit := with_ctrl (BufLru.move_if_no_ref index).

Definition write (b : Buf) : M (bcache D) unit := rw b true.
(** Reading and overwriting the block through [raw_data], [raw_data_mut]. *)
Definition raw_data (b : Buf) : M (bcache D) block := x ← buf_at (b_index b); mret (data x).
Definition raw_data_mut (b : Buf) (x : block) : M (bcache D) unit :=
  set_buf (b_index b) (BufInner.set_data x).

Definition pin (b : Buf) : M (bcache D) unit := with_ctrl (BufLru.incr (b_rc b)).
Definition unpin (b : Buf) : M (bcache D) unit :=
  with_ctrl (c ← BufLru.ctrl (b_rc b);
    if refcnt c <=? 1 then panic "buf unpin not match"
    else BufLru.update (b_rc b) (λ c, BufCtrl.set_refcnt c (refcnt c - 1))).

(** [Drop for Buf] *)
Definition drop_buf (b : Buf) : M (bcache D) unit :=
  set_buf (b_index b) (BufInner.set_locked false) ;;
  release (b_index b).
End bcache.
End BCache.

(** ** The promise *)

(** A referenced block: the buffer that holds it, its contents, the number of
    references, whether a handle holds its lock. *)
Record abuf := mkAbuf { ab_idx : Z; ab_data : block; ab_ref : Z; ab_held : bool }.
Record acache (D : Type) := mkAcache { a_bufs : gmap Z abuf; a_disk : D }.
Arguments mkAcache {D} _ _.
Arguments a_bufs {D} _.
Arguments a_disk {D} _.

Definition a_set {D} (a : acache D) (b : Z) (x : abuf) : acache D :=
  mkAcache (<[b := x]> (a_bufs a)) (a_disk a).
Definition a_del {D} (a : acache D) (b : Z) : acache D :=
  mkAcache (delete b (a_bufs a)) (a_disk a).

(** What a block reads as: the referenced contents, or the disk's. *)
Definition a_view {D} `{!BlockDev D} (a : acache D) (b : Z) : block :=
  match a_bufs a !! b with Some x => ab_data x | None => dev_read (a_disk a) b end.

(** Reference counts stay far from the width of [usize]. *)
Definition MAXREF : Z := 2 ^ 62.

(** The interface of the cache for one device [dv]. [bc_drop] of the last
    reference is promised only for a block whose contents are on disk: the
    cache would forget a modification. *)
Class BufferCache (D S : Type) `{!BlockDev D} (dv : Z) := {
  bc_read : Z → Z → M S Buf;
  bc_write : Buf → M S unit;
  bc_data : Buf → M S block;
  bc_set : Buf → block → M S unit;
  bc_pin : Buf → M S unit;
  bc_unpin : Buf → M S unit;
  bc_drop : Buf → M S unit;
  bc_rep : S → acache D → Prop;
  bc_read_hit s a b i x r :
    bc_rep s a → a_bufs a !! b = Some (mkAbuf i x r false) → r < MAXREF →
    ∃ s', bc_read dv b s = Done (mkBuf i dv b i, s') ∧
      bc_rep s' (a_set a b (mkAbuf i x (r + 1) true));
  bc_read_miss s a b :
    bc_rep s a → a_bufs a !! b = None → Z.of_nat (size (a_bufs a)) < NBUF →
    ∃ s' i, bc_read dv b s = Done (mkBuf i dv b i, s') ∧
      bc_rep s' (a_set a b (mkAbuf i (dev_read (a_disk a) b) 1 true));
  bc_write_run s a b i x r :
    bc_rep s a → a_bufs a !! b = Some (mkAbuf i x r true) →
    ∃ s', bc_write (mkBuf i dv b i) s = Done (tt, s') ∧
      bc_rep s' (mkAcache (a_bufs a) (dev_write (a_disk a) b x));
  bc_data_run s a b i x r :
    bc_rep s a → a_bufs a !! b = Some (mkAbuf i x r true) →
    bc_data (mkBuf i dv b i) s = Done (x, s);
  bc_set_run s a b i x r y :
    bc_rep s a → a_bufs a !! b = Some (mkAbuf i x r true) →
    ∃ s', bc_set (mkBuf i dv b i) y s = Done (tt, s') ∧
      bc_rep s' (a_set a b (mkAbuf i y r true));
  bc_pin_run s a b i x r :
    bc_rep s a → a_bufs a !! b = Some (mkAbuf i x r true) → r < MAXREF →
    ∃ s', bc_pin (mkBuf i dv b i) s = Done (tt, s') ∧
      bc_rep s' (a_set a b (mkAbuf i x (r + 1) true));
  bc_unpin_run s a b i x r :
    bc_rep s a → a_bufs a !! b = Some (mkAbuf i x r true) → 1 < r →
    ∃ s', bc_unpin (mkBuf i dv b i) s = Done (tt, s') ∧
      bc_rep s' (a_set a b (mkAbuf i x (r - 1) true));
  bc_drop_shared s a b i x r :
    bc_rep s a → a_bufs a !! b = Some (mkAbuf i x r true) → 1 < r →
    ∃ s', bc_drop (mkBuf i dv b i) s = Done (tt, s') ∧
      bc_rep s' (a_set a b (mkAbuf i x (r - 1) false));
  bc_drop_last s a b i x :
    bc_rep s a → a_bufs a !! b = Some (mkAbuf i x 1 true) → dev_read (a_disk a) b = x →
    ∃ s', bc_drop (mkBuf i dv b i) s = Done (tt, s') ∧ bc_rep s' (a_del a b)
}.
