(* ===== verification/BcacheFacts.v ===== *)
(** * The buffer cache keeps its promise

    The concrete cache of [fs/bio.rs] is an instance of [BufferCache]. *)
From S2P Require Import Prelude Layout BufLru Bcache.

(** ** A device that remembers its writes *)
Record tdev := mkTdev { t_base : gmap Z block; t_log : list (Z * block) }.

Definition t_read (t : tdev) (b : Z) : block :=
  default (default zero_block (t_base t !! b))
    (list_to_map (M := gmap Z block) (reverse (t_log t)) !! b).
#[global] Instance tdev_BlockDev : BlockDev tdev := {
  dev_read := t_read;
  dev_write t b x := mkTdev (t_base t) (t_log t ++ [(b, x)])
}.
#[global] Instance tdev_BlockDevLaws : BlockDevLaws tdev.
Proof.
  split. intros t b x b'. cbn [dev_read dev_write tdev_BlockDev]. unfold t_read.
  cbn [t_log t_base]. rewrite reverse_app. simpl. case_decide; subst.
  - by rewrite lookup_insert_eq.
  - by rewrite lookup_insert_ne.
Qed.

Section refine.
Context {D : Type} `{!BlockDev D} `{!BlockDevLaws D} (dv : Z).
Implicit Types (s : bcache D) (a : acache D) (l : list lent) (e : lent) (B : BufInner)
  (m : gmap Z abuf) (d : D).

(** The state of one buffer: unreferenced, unlocked and not ahead of the disk,
    or referenced and visible through the interface. *)
Definition buf_ok d m e B : Prop :=
  (l_ref e = 0 ∧ data_locked B = false ∧
     (valid B = true → l_dev e = dv → data B = dev_read d (l_bno e))) ∨
  (1 ≤ l_ref e ≤ MAXREF ∧ l_dev e = dv ∧ valid B = true ∧
     m !! l_bno e = Some (mkAbuf (l_idx e) (data B) (l_ref e) (data_locked B))).

Record cache_ok s a l : Prop := {
  co_rep : rep (ctrl s) l;
  co_buf : ∀ e, e ∈ l → ∃ B, bufs s !! Z.to_nat (l_idx e) = Some B ∧
    buf_ok (disk s) (a_bufs a) e B;
  co_uniq : ∀ e1 e2, e1 ∈ l → e2 ∈ l → l_dev e1 = dv → l_dev e2 = dv →
    l_bno e1 = l_bno e2 → l_idx e1 = l_idx e2;
  co_abs : ∀ b x, a_bufs a !! b = Some x →
    ∃ e, e ∈ l ∧ l_dev e = dv ∧ l_bno e = b ∧ 1 ≤ l_ref e;
  co_disk : disk s = a_disk a
}.

Lemma rep_elem_inj c l e1 e2 : rep c l → e1 ∈ l → e2 ∈ l → l_idx e1 = l_idx e2 → e1 = e2.
Proof.
  intros R [i Hi]%list_elem_of_lookup [j Hj]%list_elem_of_lookup E.
  assert (i = j) as -> by (eapply rep_idx_inj; [done..|by rewrite E]). congruence.
Qed.

(** One buffer changes, with what is visible of its block. *)
Lemma co_update s a l e e' c' l' B' m' d' :
  cache_ok s a l → e ∈ l → rep c' l' →
  (∀ e0, e0 ∈ l' ↔ e0 = e' ∨ (e0 ∈ l ∧ l_idx e0 ≠ l_idx e)) →
  l_idx e' = l_idx e → l_dev e' = dv →
  (∀ e0, e0 ∈ l → l_idx e0 ≠ l_idx e → l_dev e0 = dv → l_bno e0 ≠ l_bno e') →
  (l_bno e' = l_bno e ∨ l_ref e = 0) →
  (∀ b, b ≠ l_bno e' → m' !! b = a_bufs a !! b ∧ dev_read d' b = dev_read (disk s) b) →
  buf_ok d' m' e' B' → (is_Some (m' !! l_bno e') → 1 ≤ l_ref e') →
  cache_ok (mkBcache c' (<[Z.to_nat (l_idx e) := B']> (bufs s)) d') (mkAcache m' d') l'.
Proof.
  intros C He R' Hl' Hidx Hdev Huniq Hb Hoff Hok' Hsome.
  destruct (co_buf _ _ _ C e He) as (B & HB & _). pose proof (lookup_lt_Some _ _ _ HB) as Hlt.
  pose proof (co_rep _ _ _ C) as R. split; simpl.
  - done.
  - intros e0 [->|[He0 Hne]]%Hl'.
    { exists B'. rewrite Hidx. split; [by apply list_lookup_insert_eq|done]. }
    destruct (co_buf _ _ _ C e0 He0) as (B0 & HB0 & Hok0). exists B0. split.
    { rewrite list_lookup_insert_ne; [done|].
      destruct (rep_ctrl _ _ R e0 He0) as [? _], (rep_ctrl _ _ R e He) as [? _]. lia. }
    destruct Hok0 as [(H0 & Hlk & Hcl)|(Hr & Hd & Hv & Hm)]; [left|right].
    + split_and!; [done..|]. intros Hv Hd. rewrite Hcl by done. symmetry.
      apply Hoff. by apply Huniq.
    + split_and!; [lia..|done|done|]. rewrite <- Hm. apply Hoff. by apply Huniq.
  - intros e1 e2 [->|[He1 Hne1]]%Hl' [->|[He2 Hne2]]%Hl' Hd1 Hd2 E; [done| | |].
    + by destruct (Huniq e2 He2 Hne2 Hd2).
    + by destruct (Huniq e1 He1 Hne1 Hd1).
    + by apply (co_uniq _ _ _ C).
  - intros b x Hx. destruct (decide (b = l_bno e')) as [->|Hne].
    { exists e'. split_and!; [apply Hl'; by left|done|done|]. apply Hsome. by eexists. }
    rewrite (proj1 (Hoff b Hne)) in Hx.
    destruct (co_abs _ _ _ C b x Hx) as (e0 & He0 & Hd0 & Hb0 & Hr0).
    exists e0. split_and!; [|done..]. apply Hl'. right. split; [done|].
    intros Ei. assert (e0 = e) as -> by (by eapply rep_elem_inj).
    destruct Hb as [Hb|Hb]; [congruence|lia].
  - done.
Qed.

(** The entry of a visible block. *)
Lemma co_lookup s a l b i x r h :
  cache_ok s a l → a_bufs a !! b = Some (mkAbuf i x r h) →
  ∃ k e B, l !! k = Some e ∧ e ∈ l ∧ l_idx e = i ∧ l_dev e = dv ∧ l_bno e = b ∧ l_ref e = r ∧
    1 ≤ r ≤ MAXREF ∧ bufs s !! Z.to_nat i = Some B ∧ valid B = true ∧ data B = x ∧
    data_locked B = h.
Proof.
  intros C Hb. destruct (co_abs _ _ _ C b _ Hb) as (e & He & Hd & Hbn & Hr).
  destruct (co_buf _ _ _ C e He) as (B & HB & [(H0 & _)|(Hr' & _ & Hv & Hm)]); [lia|].
  rewrite Hbn, Hb in Hm. injection Hm as -> -> -> ->.
  apply list_elem_of_lookup in He as Hk. destruct Hk as [k Hk].
  by exists k, e, B.
Qed.

(** A block that is not visible is held by no referenced buffer. *)
Lemma co_unref s a l b e :
  cache_ok s a l → a_bufs a !! b = None → e ∈ l → l_dev e = dv → l_bno e = b → l_ref e = 0.
Proof.
  intros C Hb He Hd Hbn.
  destruct (co_buf _ _ _ C e He) as (B & HB & [(H0 & _)|(_ & _ & _ & Hm)]); [done|congruence].
Qed.

Lemma co_refs s a l e : cache_ok s a l → e ∈ l → 0 ≤ l_ref e ≤ MAXREF.
Proof.
  intros C He. destruct (co_buf _ _ _ C e He) as (B & HB & [(H0 & _)|(? & _)]); unfold MAXREF in *; lia.
Qed.

(** Membership after one entry changed. *)
Lemma elem_insert c l k e e' :
  rep c l → l !! k = Some e → l_idx e' = l_idx e →
  ∀ e0, e0 ∈ <[k := e']> l ↔ e0 = e' ∨ (e0 ∈ l ∧ l_idx e0 ≠ l_idx e).
Proof.
  intros R Hk Hidx e0. pose proof (lookup_lt_Some _ _ _ Hk) as Hlt. split.
  - intros [j Hj]%list_elem_of_lookup.
    apply list_lookup_insert_Some in Hj as [(-> & -> & _)|[Hne Hj]]; [by left|right].
    split; [by eapply list_elem_of_lookup_2|]. intros E. apply Hne.
    eapply rep_idx_inj; [done..|by rewrite E].
  - intros [->|[[j Hj]%list_elem_of_lookup Hne]]; apply list_elem_of_lookup.
    + exists k. by apply list_lookup_insert_eq.
    + exists j. rewrite list_lookup_insert_ne; [done|]. intros ->. congruence.
Qed.

Lemma elem_same c l e :
  rep c l → e ∈ l → ∀ e0, e0 ∈ l ↔ e0 = e ∨ (e0 ∈ l ∧ l_idx e0 ≠ l_idx e).
Proof.
  intros R He e0. split; [|naive_solver]. intros He0.
  destruct (decide (l_idx e0 = l_idx e)); [left|by right]. by eapply rep_elem_inj.
Qed.

Lemma elem_release c l k e :
  rep c l → l !! k = Some e →
  ∀ e0, e0 ∈ spec_release k e l ↔
    e0 = set_ref e (l_ref e - 1) ∨ (e0 ∈ l ∧ l_idx e0 ≠ l_idx e).
Proof.
  intros R Hk e0. unfold spec_release. case_decide; [|by eapply elem_insert].
  rewrite elem_of_cons. pose proof (elem_insert c l k e e R Hk eq_refl e0) as Hins.
  rewrite list_insert_id in Hins by done.
  assert (e0 ∈ delete k l ↔ e0 ∈ l ∧ l_idx e0 ≠ l_idx e) as ->; [|done].
  rewrite list_elem_of_lookup. split.
  - intros [j Hj]. rewrite delete_take_drop in Hj.
    assert (∃ j', l !! j' = Some e0 ∧ j' ≠ k) as (j' & Hj' & Hne).
    { rewrite lookup_app_Some, lookup_take_Some, lookup_drop in Hj.
      destruct Hj as [[? ?]|[? ?]]; [exists j; split; [done|lia]|].
      eexists. split; [done|]. rewrite length_take in *. lia. }
    split; [by eapply list_elem_of_lookup_2|]. intros E. apply Hne.
    eapply rep_idx_inj; [done..|by rewrite E].
  - intros [[j Hj]%list_elem_of_lookup Hne]. assert (j ≠ k) as Hjk by congruence.
    rewrite delete_take_drop. pose proof (lookup_lt_Some _ _ _ Hk).
    destruct (decide (j < k)%nat).
    + exists j. rewrite lookup_app_l by (rewrite length_take; lia).
      by rewrite lookup_take_lt by lia.
    + exists (j - 1)%nat. rewrite lookup_app_r by (rewrite length_take; lia).
      rewrite length_take, lookup_drop. replace (S k + _)%nat with j by lia. done.
Qed.

(** *** Running the primitives *)
Lemma buf_at_run s i B :
  bufs s !! Z.to_nat i = Some B → BCache.buf_at i s = Done (B, s).
Proof. intros H. unfold BCache.buf_at. by rewrite H. Qed.

Lemma set_buf_run s i B f :
  bufs s !! Z.to_nat i = Some B →
  BCache.set_buf i f s =
    Done (tt, mkBcache (ctrl s) (<[Z.to_nat i := f B]> (bufs s)) (disk s)).
Proof. intros H. unfold BCache.set_buf. by mstep (buf_at_run s i B H). Qed.

Lemma with_ctrl_run {A} (m : M BufLru A) s x c' :
  m (ctrl s) = Done (x, c') →
  BCache.with_ctrl m s = Done (x, mkBcache c' (bufs s) (disk s)).
Proof. intros H. unfold BCache.with_ctrl, zoom. by rewrite H. Qed.

Lemma lock_data_run s i B :
  bufs s !! Z.to_nat i = Some B → data_locked B = false →
  BCache.lock_data i s =
    Done (tt, mkBcache (ctrl s) (<[Z.to_nat i := BufInner.set_locked true B]> (bufs s)) (disk s)).
Proof.
  intros H Hl. unfold BCache.lock_data. mstep (buf_at_run s i B H). rewrite Hl.
  by apply set_buf_run.
Qed.

(** The state while a handle on block [b] is used: only its buffer changes. *)
Lemma co_handle s a l b i x r h y r' h' e c' l' B d' :
  cache_ok s a l → a_bufs a !! b = Some (mkAbuf i x r h) →
  e ∈ l → l_idx e = i → l_dev e = dv → l_bno e = b → 1 ≤ r' ≤ MAXREF →
  rep c' l' → (∀ e0, e0 ∈ l' ↔ e0 = set_ref e r' ∨ (e0 ∈ l ∧ l_idx e0 ≠ l_idx e)) →
  valid B = true → data B = y → data_locked B = h' →
  (∀ b', b' ≠ b → dev_read d' b' = dev_read (disk s) b') →
  cache_ok (mkBcache c' (<[Z.to_nat i := B]> (bufs s)) d')
    (mkAcache (<[b := mkAbuf i y r' h']> (a_bufs a)) d') l'.
Proof.
  intros C Hb He Hi Hd Hbn Hr' R' Hl' Hv Hy Hh Hoff. rewrite <- Hi.
  apply (co_update s a l e (set_ref e r')); simpl; try done.
  - intros e0 He0 Hne Hd0 E. apply Hne. by eapply (co_uniq _ _ _ C).
  - by left.
  - intros b' Hne. rewrite Hbn in Hne. by rewrite lookup_insert_ne, Hoff.
  - right. simpl. split_and!; [lia|lia|done|done|]. rewrite Hbn, lookup_insert_eq.
    by rewrite Hi, Hy, Hh.
  - intros _. lia.
Qed.

Definition cache_rep s a : Prop := ∃ l, cache_ok s a l.

Lemma set_ref_id e : set_ref e (l_ref e) = e.
Proof. by destruct e. Qed.

Lemma cache_data s a b i x r :
  cache_rep s a → a_bufs a !! b = Some (mkAbuf i x r true) →
  BCache.raw_data (mkBuf i dv b i) s = Done (x, s).
Proof.
  intros [l C] Hb.
  destruct (co_lookup s a l b i x r true C Hb) as (k & e & B & _ & _ & _ & _ & _ & _ & _ & HB & _ & Hx & _).
  unfold BCache.raw_data. mstep (buf_at_run s (b_index (mkBuf i dv b i)) B HB). by rewrite <- Hx.
Qed.

Lemma cache_set s a b i x r y :
  cache_rep s a → a_bufs a !! b = Some (mkAbuf i x r true) →
  ∃ s', BCache.raw_data_mut (mkBuf i dv b i) y s = Done (tt, s') ∧
    cache_rep s' (a_set a b (mkAbuf i y r true)).
Proof.
  intros [l C] Hb.
  destruct (co_lookup s a l b i x r true C Hb)
    as (k & e & B & Hk & He & Hi & Hd & Hbn & Hr & Hr' & HB & Hv & Hx & Hh).
  pose proof (co_rep _ _ _ C) as R. eexists. split; [by apply set_buf_run|].
  exists l. unfold a_set. rewrite <- (co_disk _ _ _ C).
  eapply (co_handle s a l b i x r true y r true e); try done.
  rewrite <- Hr, set_ref_id. by eapply elem_same.
Qed.

Lemma cache_write s a b i x r :
  cache_rep s a → a_bufs a !! b = Some (mkAbuf i x r true) →
  ∃ s', BCache.write (mkBuf i dv b i) s = Done (tt, s') ∧
    cache_rep s' (mkAcache (a_bufs a) (dev_write (a_disk a) b x)).
Proof.
  intros [l C] Hb.
  destruct (co_lookup s a l b i x r true C Hb)
    as (k & e & B & Hk & He & Hi & Hd & Hbn & Hr & Hr' & HB & Hv & Hx & Hh).
  pose proof (co_rep _ _ _ C) as R. eexists. split.
  { unfold BCache.write, BCache.rw. by mstep (buf_at_run s (b_index (mkBuf i dv b i)) B HB). }
  exists l. cbn [b_blockno].
  rewrite <- (insert_id (a_bufs a) b (mkAbuf i x r true)) by done.
  rewrite <- (list_insert_id (bufs s) (Z.to_nat i) B) by done.
  rewrite Hx, (co_disk _ _ _ C).
  eapply (co_handle s a l b i x r true x r true e); try done.
  - rewrite <- Hr, set_ref_id. by eapply elem_same.
  - intros b' Hne. rewrite dev_read_write, decide_False by done. by rewrite (co_disk _ _ _ C).
Qed.

Lemma cache_pin s a b i x r :
  cache_rep s a → a_bufs a !! b = Some (mkAbuf i x r true) → r < MAXREF →
  ∃ s', BCache.pin (mkBuf i dv b i) s = Done (tt, s') ∧
    cache_rep s' (a_set a b (mkAbuf i x (r + 1) true)).
Proof.
  intros [l C] Hb Hlt.
  destruct (co_lookup s a l b i x r true C Hb)
    as (k & e & B & Hk & He & Hi & Hd & Hbn & Hr & Hr' & HB & Hv & Hx & Hh).
  pose proof (co_rep _ _ _ C) as R.
  destruct (incr_run (ctrl s) l k e) as (c' & E & R' & _); [done|done|unfold MAXREF in *; lia|].
  rewrite Hi in E. eexists. split; [by apply with_ctrl_run|].
  exists (<[k := set_ref e (l_ref e + 1)]> l). unfold a_set. rewrite <- (co_disk _ _ _ C).
  rewrite <- (list_insert_id (bufs s) (Z.to_nat i) B) by done.
  eapply (co_handle s a l b i x r true x (r + 1) true e); try done; [lia| ].
  rewrite Hr. by eapply elem_insert.
Qed.

Lemma cache_unpin s a b i x r :
  cache_rep s a → a_bufs a !! b = Some (mkAbuf i x r true) → 1 < r →
  ∃ s', BCache.unpin (mkBuf i dv b i) s = Done (tt, s') ∧
    cache_rep s' (a_set a b (mkAbuf i x (r - 1) true)).
Proof.
  intros [l C] Hb Hlt.
  destruct (co_lookup s a l b i x r true C Hb)
    as (k & e & B & Hk & He & Hi & Hd & Hbn & Hr & Hr' & HB & Hv & Hx & Hh).
  pose proof (co_rep _ _ _ C) as R.
  destruct (rep_update (ctrl s) l k e (set_ref e (r - 1)) (λ c, BufCtrl.set_refcnt c (refcnt c - 1)))
    as (c' & E & R' & _); [done|done|done|unfold MAXREF in *; simpl; lia| |].
  { intros p n. unfold BufCtrl.set_refcnt, ctrl_of. simpl. by rewrite Hr. }
  eexists. split.
  { apply with_ctrl_run. cbn [b_rc]. rewrite <- Hi.
    mstep (ctrl_run (ctrl s) l e R He). cbn [refcnt ctrl_of].
    rewrite (proj2 (Z.leb_gt _ _)) by lia. exact E. }
  exists (<[k := set_ref e (r - 1)]> l). unfold a_set. rewrite <- (co_disk _ _ _ C).
  rewrite <- (list_insert_id (bufs s) (Z.to_nat i) B) by done.
  eapply (co_handle s a l b i x r true x (r - 1) true e); try done; [lia| ].
  by eapply elem_insert.
Qed.

Lemma drop_buf_run s a l b i x r :
  cache_ok s a l → a_bufs a !! b = Some (mkAbuf i x r true) →
  ∃ k e B c', l !! k = Some e ∧ e ∈ l ∧ l_idx e = i ∧ l_dev e = dv ∧ l_bno e = b ∧ l_ref e = r ∧
    1 ≤ r ≤ MAXREF ∧ valid B = true ∧ data B = x ∧ data_locked B = false ∧
    BCache.drop_buf (mkBuf i dv b i) s =
      Done (tt, mkBcache c' (<[Z.to_nat i := B]> (bufs s)) (disk s)) ∧
    rep c' (spec_release k e l).
Proof.
  intros C Hb.
  destruct (co_lookup s a l b i x r true C Hb)
    as (k & e & B & Hk & He & Hi & Hd & Hbn & Hr & Hr' & HB & Hv & Hx & Hh).
  destruct (move_if_no_ref_run (ctrl s) l k e) as (c' & E & R');
    [apply C|done|lia|].
  exists k, e, (BufInner.set_locked false B), c'. split_and!; try done || lia.
  unfold BCache.drop_buf. mstep (set_buf_run s (b_index (mkBuf i dv b i)) B
    (BufInner.set_locked false) HB). cbn [b_index]. unfold BCache.release.
  rewrite Hi in E. by erewrite with_ctrl_run by exact E.
Qed.

Lemma cache_drop_shared s a b i x r :
  cache_rep s a → a_bufs a !! b = Some (mkAbuf i x r true) → 1 < r →
  ∃ s', BCache.drop_buf (mkBuf i dv b i) s = Done (tt, s') ∧
    cache_rep s' (a_set a b (mkAbuf i x (r - 1) false)).
Proof.
  intros [l C] Hb Hlt. destruct (drop_buf_run s a l b i x r C Hb)
    as (k & e & B & c' & Hk & He & Hi & Hd & Hbn & Hr & Hr' & Hv & Hx & Hh & E & R').
  eexists. split; [exact E|]. exists (spec_release k e l).
  unfold a_set. rewrite <- (co_disk _ _ _ C).
  eapply (co_handle s a l b i x r true x (r - 1) false e); try done; [lia|].
  rewrite <- Hr. eapply elem_release; [apply C|done].
Qed.

Lemma cache_drop_last s a b i x :
  cache_rep s a → a_bufs a !! b = Some (mkAbuf i x 1 true) → dev_read (a_disk a) b = x →
  ∃ s', BCache.drop_buf (mkBuf i dv b i) s = Done (tt, s') ∧ cache_rep s' (a_del a b).
Proof.
  intros [l C] Hb Hdk. destruct (drop_buf_run s a l b i x 1 C Hb)
    as (k & e & B & c' & Hk & He & Hi & Hd & Hbn & Hr & Hr' & Hv & Hx & Hh & E & R').
  eexists. split; [exact E|]. exists (spec_release k e l).
  unfold a_del. rewrite <- (co_disk _ _ _ C), <- Hi.
  apply (co_update s a l e (set_ref e (l_ref e - 1))); simpl; try done.
  - eapply elem_release; [apply C|done].
  - intros e0 He0 Hne Hd0 Eb. apply Hne. by eapply (co_uniq _ _ _ C).
  - by left.
  - intros b' Hne. rewrite Hbn in Hne. by rewrite lookup_delete_ne.
  - left. simpl. split_and!; [lia|done|]. intros _ _.
    by rewrite Hbn, (co_disk _ _ _ C), Hdk.
  - rewrite Hbn, lookup_delete_eq. by intros [? ?].
Qed.

(** *** Reading *)
Lemma find_block l b : 
  (∃ k e, list_find (is_block dv b) l = Some (k, e) ∧ l !! k = Some e ∧ e ∈ l ∧
     l_dev e = dv ∧ l_bno e = b) ∨
  (list_find (is_block dv b) l = None ∧ ∀ e, e ∈ l → l_dev e = dv → l_bno e ≠ b).
Proof.
  destruct (list_find (is_block dv b) l) as [[k e]|] eqn:Hf; [left|right].
  - apply list_find_Some in Hf as (Hk & [Hd Hb] & _). exists k, e.
    split_and!; try done. by eapply list_elem_of_lookup_2.
  - split; [done|]. apply list_find_None in Hf. intros e He Hd Hb.
    rewrite Forall_forall in Hf. by apply (Hf e He).
Qed.

Lemma cache_refs_small s a l : cache_ok s a l → ∀ e, e ∈ l → l_ref e + 1 < 2 ^ 63.
Proof. intros C e He. pose proof (co_refs _ _ _ _ C He). unfold MAXREF in *. lia. Qed.

Lemma cache_read_hit s a b i x r :
  cache_rep s a → a_bufs a !! b = Some (mkAbuf i x r false) → r < MAXREF →
  ∃ s', BCache.read dv b s = Done (mkBuf i dv b i, s') ∧
    cache_rep s' (a_set a b (mkAbuf i x (r + 1) true)).
Proof.
  intros [l C] Hb Hlt.
  destruct (co_lookup s a l b i x r false C Hb)
    as (k & e & B & Hk & He & Hi & Hd & Hbn & Hr & Hr' & HB & Hv & Hx & Hh).
  pose proof (co_rep _ _ _ C) as R.
  destruct (find_cached_run (ctrl s) l dv b R (cache_refs_small _ _ _ C)) as (c' & E & R').
  destruct (find_block l b) as [(k' & e' & Hf & Hk' & He' & Hd' & Hb')|[_ Hno]].
  2:{ by destruct (Hno e He Hd). }
  assert (e' = e) as ->.
  { apply (rep_elem_inj _ _ _ _ R); [done..|]. eapply (co_uniq _ _ _ C); congruence. }
  unfold spec_find in E, R'. rewrite Hf, Hi in E. rewrite Hf in R'. simpl in E, R'.
  eexists. split.
  { unfold BCache.read, BCache.get. rewrite bind_assoc. mstep (with_ctrl_run _ s _ _ E).
    cbv beta iota. rewrite bind_assoc. mstep (lock_data_run (mkBcache c' (bufs s) (disk s)) i B HB Hh).
    rewrite bind_ret_l. erewrite bind_run.
    2:{ apply buf_at_run. cbn [bufs b_index]. apply list_lookup_insert_eq. by eapply lookup_lt_Some. }
    cbn [valid BufInner.set_locked]. rewrite Hv. cbn [negb]. rewrite bind_ret_l. done. }
  exists (<[k' := set_ref e (l_ref e + 1)]> l). unfold a_set. rewrite <- (co_disk _ _ _ C).
  eapply (co_handle s a l b i x r false x (r + 1) true e); try done; [lia|].
  rewrite <- Hr. by eapply elem_insert.
Qed.

(** The buffer after the second half of [read]. *)
Definition filled d (b : Z) B : BufInner :=
  if valid B then B else BufInner.set_valid true (BufInner.set_data (dev_read d b) B).

Lemma read_fill s (h : Buf) B :
  bufs s !! Z.to_nat (b_index h) = Some B →
  (x ← BCache.buf_at (b_index h);
   (if negb (valid x) then
      BCache.rw h false ;; BCache.set_buf (b_index h) (BufInner.set_valid true)
    else mret tt) ;;
   mret h) s =
  Done (h, mkBcache (ctrl s)
    (<[Z.to_nat (b_index h) := filled (disk s) (b_blockno h) B]> (bufs s)) (disk s)).
Proof.
  intros HB. mstep (buf_at_run s _ B HB). unfold filled.
  destruct (valid B); cbn [negb].
  { rewrite bind_ret_l, list_insert_id by done. by destruct s. }
  unfold BCache.rw. rewrite !bind_assoc. mstep (buf_at_run s _ B HB). cbv beta iota.
  rewrite bind_assoc, bind_gets.
  mstep (set_buf_run s _ B (BufInner.set_data (dev_read (disk s) (b_blockno h))) HB).
  erewrite bind_run.
  2:{ apply set_buf_run. cbn [bufs]. apply list_lookup_insert_eq. by eapply lookup_lt_Some. }
  cbn [ctrl bufs disk]. by rewrite list_insert_insert_eq.
Qed.

Lemma lru_free_None l : lru_free l = None → ∀ e, e ∈ l → l_ref e ≠ 0.
Proof.
  induction l as [|e0 l IH]; simpl; [set_solver|].
  destruct (lru_free l) as [[j e']|]; [done|]. case_decide; [done|].
  intros _ e [->|He]%elem_of_cons; [done|]. by apply IH.
Qed.

(** With every buffer referenced, as many blocks are visible. *)
Lemma all_referenced s a l :
  cache_ok s a l → lru_free l = None → NBUF ≤ Z.of_nat (size (a_bufs a)).
Proof.
  intros C Hfree. pose proof (co_rep _ _ _ C) as R.
  assert (∀ e, e ∈ l → l_dev e = dv ∧ l_bno e ∈ dom (a_bufs a)) as Hall.
  { intros e He. pose proof (lru_free_None l Hfree e He).
    destruct (co_buf _ _ _ C e He) as (B & _ & [(? & _)|(_ & ? & _ & Hm)]); [done|].
    split; [done|]. apply elem_of_dom. by eexists. }
  assert (NoDup (l_bno <$> l)) as Hnd.
  { apply NoDup_alt. intros i j b Hi Hj. rewrite list_lookup_fmap in Hi, Hj.
    destruct (l !! i) as [e1|] eqn:E1, (l !! j) as [e2|] eqn:E2; simplify_eq/=.
    apply list_elem_of_lookup_2 in E1 as He1. apply list_elem_of_lookup_2 in E2 as He2.
    eapply rep_idx_inj; [done..|]. f_equal.
    eapply (co_uniq _ _ _ C); try done; by apply Hall. }
  rewrite <- (rep_len _ _ R), <- (length_fmap l_bno l), <- size_dom.
  rewrite <- (size_list_to_set (C := gset Z) (l_bno <$> l)) by done.
  apply Nat2Z.inj_le, subseteq_size. intros b Hin.
  apply elem_of_list_to_set, list_elem_of_fmap in Hin as (e & -> & He). by apply Hall.
Qed.

(** What [get] leaves behind when the block was not referenced: one buffer,
    unreferenced before, taken and locked for it. *)
Lemma get_unref s a l b :
  cache_ok s a l → a_bufs a !! b = None → Z.of_nat (size (a_bufs a)) < NBUF →
  ∃ e B c' l', e ∈ l ∧ l_ref e = 0 ∧
    BCache.get dv b s = Done (mkBuf (l_idx e) dv b (l_idx e),
      mkBcache c' (<[Z.to_nat (l_idx e) := B]> (bufs s)) (disk s)) ∧
    rep c' l' ∧
    (∀ e0, e0 ∈ l' ↔ e0 = mkLent (l_idx e) dv b 1 ∨ (e0 ∈ l ∧ l_idx e0 ≠ l_idx e)) ∧
    (∀ e0, e0 ∈ l → l_idx e0 ≠ l_idx e → l_dev e0 = dv → l_bno e0 ≠ b) ∧
    data_locked B = true ∧ (valid B = true → data B = dev_read (disk s) b).
Proof.
  intros C Hb Hsz. pose proof (co_rep _ _ _ C) as R.
  destruct (find_cached_run (ctrl s) l dv b R (cache_refs_small _ _ _ C)) as (c' & E & R').
  destruct (find_block l b) as [(k & e & Hf & Hk & He & Hd & Hbn)|[Hf Hno]];
    unfold spec_find in E, R'; rewrite Hf in E, R'; simpl in E, R'.
  - pose proof (co_unref s a l b e C Hb He Hd Hbn) as H0.
    destruct (co_buf _ _ _ C e He) as (B & HB & [(_ & Hlk & Hcl)|(? & _)]); [|lia].
    exists e, (BufInner.set_locked true B), c', (<[k := set_ref e (l_ref e + 1)]> l).
    split_and!; try done.
    + unfold BCache.get. mstep (with_ctrl_run _ s _ _ E). cbv beta iota.
      by mstep (lock_data_run (mkBcache c' (bufs s) (disk s)) (l_idx e) B HB Hlk).
    + assert (set_ref e (l_ref e + 1) = mkLent (l_idx e) dv b 1) as ->.
      { unfold set_ref. by rewrite Hd, Hbn, H0. }
      by eapply elem_insert.
    + intros e0 He0 Hne Hd0 Eb. apply Hne. eapply (co_uniq _ _ _ C); congruence.
    + simpl. intros Hv. by rewrite Hcl, Hbn.
  - destruct (recycle_run c' l dv b R') as (c2 & E2 & R2). unfold spec_recycle in E2, R2.
    destruct (lru_free l) as [[k e]|] eqn:Hfree.
    2:{ pose proof (all_referenced _ _ _ C Hfree). lia. }
    apply lru_free_lookup in Hfree as [Hk H0].
    pose proof (list_elem_of_lookup_2 _ _ _ Hk) as He. simpl in E2, R2.
    destruct (co_buf _ _ _ C e He) as (B & HB & [(_ & Hlk & Hcl)|(? & _)]); [|lia].
    exists e, (BufInner.set_locked true (BufInner.set_valid false B)), c2,
      (<[k := mkLent (l_idx e) dv b 1]> l).
    split_and!; try done.
    + unfold BCache.get. mstep (with_ctrl_run _ s _ _ E). cbv beta iota.
      mstep (with_ctrl_run _ (mkBcache c' (bufs s) (disk s)) _ _ E2). cbv beta iota.
      mstep (set_buf_run (mkBcache c2 (bufs s) (disk s)) (l_idx e) B (BufInner.set_valid false) HB).
      erewrite bind_run.
      2:{ apply (lock_data_run _ _ (BufInner.set_valid false B)); [|exact Hlk]. cbn [bufs]. apply list_lookup_insert_eq.
          by eapply lookup_lt_Some. }
      cbn [ctrl bufs disk]. by rewrite list_insert_insert_eq.
    + by eapply elem_insert.
    + intros e0 He0 _ Hd0. by apply Hno.
Qed.

Lemma cache_read_miss s a b :
  cache_rep s a → a_bufs a !! b = None → Z.of_nat (size (a_bufs a)) < NBUF →
  ∃ s' i, BCache.read dv b s = Done (mkBuf i dv b i, s') ∧
    cache_rep s' (a_set a b (mkAbuf i (dev_read (a_disk a) b) 1 true)).
Proof.
  intros [l C] Hb Hsz.
  destruct (get_unref s a l b C Hb Hsz)
    as (e & B & c' & l' & He & H0 & E & R' & Hl' & Huniq & Hlk & Hcl).
  destruct (co_buf _ _ _ C e He) as (B0 & HB0 & _).
  eexists _, (l_idx e). split.
  { unfold BCache.read. mstep E. eapply (read_fill _ (mkBuf (l_idx e) dv b (l_idx e)) B).
    cbn [bufs b_index]. apply list_lookup_insert_eq. by eapply lookup_lt_Some. }
  cbn [ctrl bufs disk b_index b_blockno]. rewrite list_insert_insert_eq.
  exists l'. unfold a_set. rewrite <- (co_disk _ _ _ C).
  apply (co_update s a l e (mkLent (l_idx e) dv b 1)); simpl; try done.
  - by right.
  - intros b' Hne. by rewrite lookup_insert_ne.
  - right. simpl. rewrite lookup_insert_eq. unfold filled, MAXREF.
    destruct (valid B) eqn:Hv; simpl; rewrite ?Hlk, ?Hv.
    + rewrite Hcl by done. split_and!; done || lia.
    + split_and!; done || lia.
Qed.

#[global] Instance bcache_BufferCache : BufferCache D (bcache D) dv := {
  bc_read := BCache.read;
  bc_write := BCache.write;
  bc_data := BCache.raw_data;
  bc_set := BCache.raw_data_mut;
  bc_pin := BCache.pin;
  bc_unpin := BCache.unpin;
  bc_drop := BCache.drop_buf;
  bc_rep := cache_rep;
  bc_read_hit := cache_read_hit;
  bc_read_miss := cache_read_miss;
  bc_write_run := cache_write;
  bc_data_run := cache_data;
  bc_set_run := cache_set;
  bc_pin_run := cache_pin;
  bc_unpin_run := cache_unpin;
  bc_drop_shared := cache_drop_shared;
  bc_drop_last := cache_drop_last
}.

(** The empty cache over any disk. *)
Lemma new_cache_rep (d : D) : dv ≠ 0 → cache_rep (BCache.new d) (mkAcache ∅ d).
Proof.
  intros Hdv. exists new_list. split; cbn [ctrl bufs disk a_bufs a_disk BCache.new].
  - apply new_rep.
  - intros e He. apply list_elem_of_fmap in He as (i & -> & Hi). cbn [l_idx].
    apply elem_of_seqZ in Hi. exists BufInner.new. split.
    + apply lookup_replicate. split; [done|lia].
    + left. by split_and!.
  - intros e1 e2 (i & -> & _)%list_elem_of_fmap _ Hd. simpl in Hd. congruence.
  - intros b x. by rewrite lookup_empty.
  - done.
Qed.

(** C33. Coherence. Reading a block through the cache gives a locked handle on
    the block's current contents (those of a referenced buffer, or the
    disk's); it changes no block's contents and writes nothing to the disk,
    whichever buffer is found or recycled for it. *)
Theorem cache_read_coherent s a b :
  cache_rep s a → (∀ x, a_bufs a !! b = Some x → ab_held x = false ∧ ab_ref x < MAXREF) →
  Z.of_nat (size (a_bufs a)) < NBUF →
  ∃ s' a' h, BCache.read dv b s = Done (h, s') ∧ cache_rep s' a' ∧
    BCache.raw_data h s' = Done (a_view a b, s') ∧ disk s' = disk s ∧
    ∀ b', a_view a' b' = a_view a b'.
Proof.
  intros R Hfree Hsz.
  assert (∀ x, ab_data x = a_view a b → ∀ b', a_view (a_set a b x) b' = a_view a b') as Hv.
  { intros x Hx b'. unfold a_view, a_set. cbn [a_bufs a_disk].
    destruct (decide (b = b')) as [<-|]; [|by rewrite lookup_insert_ne].
    rewrite lookup_insert_eq. exact Hx. }
  assert (∀ s' a', cache_rep s' a' → a_disk a' = a_disk a → disk s' = disk s) as Hdk.
  { intros s' a' [l' C'] E. destruct R as [l C].
    by rewrite (co_disk _ _ _ C), (co_disk _ _ _ C'). }
  destruct (a_bufs a !! b) as [[i x r h]|] eqn:Hb.
  - destruct (Hfree _ eq_refl) as [Hh Hr]. simpl in Hh, Hr. subst h.
    destruct (cache_read_hit s a b i x r R Hb Hr) as (s' & E & R').
    assert (a_view a b = x) as Hx by (unfold a_view; by rewrite Hb).
    eexists s', _, _. split; [exact E|]. split; [exact R'|]. split_and!.
    + rewrite Hx. eapply cache_data; [exact R'|]. apply lookup_insert_eq.
    + by eapply Hdk.
    + by apply Hv.
  - destruct (cache_read_miss s a b R Hb Hsz) as (s' & i & E & R').
    assert (a_view a b = dev_read (a_disk a) b) as Hx by (unfold a_view; by rewrite Hb).
    eexists s', _, _. split; [exact E|]. split; [exact R'|]. split_and!.
    + rewrite Hx. eapply cache_data; [exact R'|]. apply lookup_insert_eq.
    + by eapply Hdk.
    + by apply Hv.
Qed.

(** Fill block [b] with [x], write it through and give it back. *)
Definition store_block (b : Z) (x : block) : M (bcache D) unit :=
  h ← BCache.read dv b;
  BCache.raw_data_mut h x ;;
  BCache.write h ;;
  BCache.drop_buf h.
Definition load_block (b : Z) : M (bcache D) block :=
  h ← BCache.read dv b;
  x ← BCache.raw_data h;
  BCache.drop_buf h ;;
  mret x.

Lemma store_block_run s a b x :
  cache_rep s a → a_bufs a !! b = None → Z.of_nat (size (a_bufs a)) < NBUF →
  ∃ s', store_block b x s = Done (tt, s') ∧
    cache_rep s' (mkAcache (a_bufs a) (dev_write (a_disk a) b x)).
Proof.
  intros R Hb Hsz. destruct (cache_read_miss s a b R Hb Hsz) as (s1 & i & E1 & R1).
  unfold store_block. mstep E1.
  destruct (cache_set s1 _ b i (dev_read (a_disk a) b) 1 x R1) as (s2 & E2 & R2);
    [apply lookup_insert_eq|]. mstep E2.
  destruct (cache_write s2 _ b i x 1 R2) as (s3 & E3 & R3); [apply lookup_insert_eq|]. mstep E3.
  destruct (cache_drop_last s3 _ b i x R3) as (s4 & E4 & R4); [apply lookup_insert_eq| |].
  { simpl. rewrite dev_read_write. by rewrite decide_True. }
  exists s4. split; [done|]. unfold a_del, a_set in R4. simpl in R4.
  by rewrite insert_insert_eq, delete_insert_id in R4.
Qed.

Lemma load_block_run s a b :
  cache_rep s a → a_bufs a !! b = None → Z.of_nat (size (a_bufs a)) < NBUF →
  ∃ s', load_block b s = Done (dev_read (a_disk a) b, s') ∧ cache_rep s' a.
Proof.
  intros R Hb Hsz. destruct (cache_read_miss s a b R Hb Hsz) as (s1 & i & E1 & R1).
  unfold load_block. mstep E1.
  erewrite bind_run; [|by eapply cache_data; [exact R1|apply lookup_insert_eq]].
  destruct (cache_drop_last s1 _ b i (dev_read (a_disk a) b) R1) as (s4 & E4 & R4);
    [apply lookup_insert_eq|done|].
  exists s4. mstep E4. split; [done|]. unfold a_del, a_set in R4. simpl in R4.
  rewrite delete_insert_id in R4 by done. by destruct a.
Qed.

(** Round trip. What was stored into a free block is what a later load
    returns, and another block's load is unaffected, with any block cached,
    recycled or evicted in between by the store. *)
Theorem store_load s a b b' x :
  cache_rep s a → a_bufs a !! b = None → a_bufs a !! b' = None →
  Z.of_nat (size (a_bufs a)) < NBUF →
  ∃ s1 s2, store_block b x s = Done (tt, s1) ∧
    load_block b' s1 = Done (if decide (b = b') then x else dev_read (disk s) b', s2) ∧
    dev_read (disk s1) b = x.
Proof.
  intros R Hb Hb' Hsz. destruct (store_block_run s a b x R Hb Hsz) as (s1 & E1 & R1).
  destruct (load_block_run s1 _ b' R1 Hb' Hsz) as (s2 & E2 & _).
  exists s1, s2. split; [done|]. destruct R as [l C], R1 as [l1 C1].
  rewrite (co_disk _ _ _ C), (co_disk _ _ _ C1). cbn [a_disk] in *.
  rewrite E2, !dev_read_write. by rewrite (decide_True (P := b = b)).
Qed.
End refine.

Lemma cache_read_coherent_witness :
  ∃ s' h, BCache.read 1 5 (BCache.new (mkTdev ∅ [(5, [1])])) = Done (h, s') ∧
    BCache.raw_data h s' = Done ([1], s').
Proof.
  destruct (cache_read_coherent 1 (BCache.new (mkTdev ∅ [(5, [1])]))
    (mkAcache ∅ (mkTdev ∅ [(5, [1])])) 5) as (s' & a' & h & E & _ & Hd & _);
    [by apply new_cache_rep|by intros x|by vm_compute|].
  exists s', h. split; [exact E|]. exact Hd.
Defined.

Lemma store_load_witness :
  ∃ s1 s2, store_block 1 5 [1; 2] (BCache.new (mkTdev ∅ [])) = Done (tt, s1) ∧
    load_block 1 5 s1 = Done ([1; 2], s2).
Proof.
  destruct (store_load 1 (BCache.new (mkTdev ∅ [])) (mkAcache ∅ (mkTdev ∅ [])) 5 5 [1; 2])
    as (s1 & s2 & E1 & E2 & _); [by apply new_cache_rep|done|done|by vm_compute|].
  by exists s1, s2.
Defined.
