(* ===== verification/Log.v ===== *)
(** * The write-ahead log

    [fs/log.rs], over any buffer cache. The log occupies the blocks
    [start .. start + size): a header block, then one block per logged
    block. *)
From S2P Require Import Prelude Layout BufLru Bcache.

(** ** The header on disk *)
Record LogHeader := mkLogHeader { len : Z; blocknos : list Z }.

(** The 120 bytes of [LogHeader] at the front of the header block. *)
Definition header_bytes (lh : LogHeader) : list Z :=
  le_bytes 4 (len lh) ++ (blocknos lh ≫= le_bytes 4).
Definition HEADER_SIZE : Z := 4 * LOGSIZE.
Fixpoint words4 (n : nat) (bs : list Z) : list Z :=
  match n with
  | O => []
  | S n' => le_word (take 4 bs) :: words4 n' (drop 4 bs)
  end.
Definition header_of (x : block) : LogHeader :=
  mkLogHeader (le_word (take 4 x)) (words4 (Z.to_nat (LOGSIZE - 1)) (drop 4 x)).
(** Overwriting the header, or only its first word, in a block. *)
Definition put_header (lh : LogHeader) (x : block) : block :=
  header_bytes lh ++ drop (Z.to_nat HEADER_SIZE) x.
Definition put_len (n : Z) (x : block) : block := le_bytes 4 n ++ drop 4 x.

Record Log := mkLog {
  start : Z;
  size_ : Z;
  dev_ : Z;
  outstanding : Z;
  commiting : bool;
  lh : LogHeader
}.

(** The log and the cache behind it. *)
Record logst (S : Type) := mkLogst { lg : Log; bc : S }.
Arguments mkLogst {S} _ _.
Arguments lg {S} _.
Arguments bc {S} _.

Module Log.
Definition unint : Log :=
  mkLog 0 0 0 0 false (mkLogHeader 0 (replicate (Z.to_nat (LOGSIZE - 1)) 0)).

Definition set_lh (g : Log) (h : LogHeader) : Log :=
  mkLog (start g) (size_ g) (dev_ g) (outstanding g) (commiting g) h.
Definition set_outstanding (g : Log) (n : Z) : Log :=
  mkLog (start g) (size_ g) (dev_ g) n (commiting g) (lh g).
Definition set_commiting (g : Log) (c : bool) : Log :=
  mkLog (start g) (size_ g) (dev_ g) (outstanding g) c (lh g).

Section log.
Context {D S : Type} `{!BlockDev D} (dv : Z) `{!BufferCache D S dv}.

Definition cache {A} (m : M S A) : M (logst S) A := zoom bc (λ c s, mkLogst (lg s) c) m.
Definition upd (f : Log → Log) : M (logst S) unit := modify (λ s, mkLogst (f (lg s)) (bc s)).

(** [self.lh.blocknos[i]] *)
Definition blockno_at (g : Log) (i : Z) : M (logst S) Z :=
  unwrap (blocknos (lh g) !! Z.to_nat i) "index out of bounds".

Definition read_head : M (logst S) unit :=
  g ← gets lg;
  buf ← cache (bc_read (dev_ g) (start g));
  x ← cache (bc_data buf);
  upd (λ g, set_lh g (header_of x)) ;;
  cache (bc_drop buf).

Definition write_head : M (logst S) unit :=
  g ← gets lg;
  buf ← cache (bc_read (dev_ g) (start g));
  x ← cache (bc_data buf);
  cache (bc_set buf (put_header (lh g) x)) ;;
  cache (bc_write buf) ;;
  cache (bc_drop buf).

Definition empty_head : M (logst S) unit :=
  upd (λ g, set_lh g (mkLogHeader 0 (blocknos (lh g)))) ;;
  g ← gets lg;
  buf ← cache (bc_read (dev_ g) (start g));
  x ← cache (bc_data buf);
  cache (bc_set buf (put_len 0 x)) ;;
  cache (bc_write buf) ;;
  cache (bc_drop buf).

(** One iteration of the loop over [1..=self.lh.len]. *)
Definition install_one (recovering : bool) (i : Z) : M (logst S) unit :=
  g ← gets lg;
  lb ← uadd 32 (start g) i;
  log_buf ← cache (bc_read (dev_ g) lb);
  home ← blockno_at g (i - 1);
  disk_buf ← cache (bc_read (dev_ g) home);
  x ← cache (bc_data log_buf);
  cache (bc_set disk_buf x) ;;
  cache (bc_write disk_buf) ;;
  (if recovering then mret tt else cache (bc_unpin disk_buf)) ;;
  cache (bc_drop log_buf) ;;
  cache (bc_drop disk_buf).
Definition install_trans (recovering : bool) : M (logst S) unit :=
  n ← gets (λ s, len (lh (lg s)));
  for_each (seqZ 1 n) (install_one recovering).

Definition write_log_one (i : Z) : M (logst S) unit :=
  g ← gets lg;
  lb ← uadd 32 (start g) i;
  log_buf ← cache (bc_read (dev_ g) lb);
  home ← blockno_at g (i - 1);
  cache_buf ← cache (bc_read (dev_ g) home);
  x ← cache (bc_data cache_buf);
  cache (bc_set log_buf x) ;;
  cache (bc_write log_buf) ;;
  cache (bc_drop cache_buf) ;;
  cache (bc_drop log_buf).
Definition write_log : M (logst S) unit :=
  n ← gets (λ s, len (lh (lg s)));
  for_each (seqZ 1 n) write_log_one.

Definition recover : M (logst S) unit :=
  read_head ;;
  n ← gets (λ s, len (lh (lg s)));
  if 0 <? n then
    install_trans true ;;
    empty_head
  else mret tt.

(** [start] and [nlog] are what [SuperBlock::read_log] returns. *)
Definition init (dev start nlog : Z) : M (logst S) unit :=
  upd (λ g, mkLog start nlog dev (outstanding g) (commiting g) (lh g)) ;;
  recover.

Definition commit_no_lock : M (logst S) unit :=
  g ← gets lg;
  assert (commiting g) "log: committing while the committing flag is not set" ;;
  if 0 <? len (lh g) then
    write_log ;;
    write_head ;;
    install_trans false ;;
    empty_head
  else mret tt.

(** [commit], under the lock of the log. *)
Definition commit : M (logst S) unit :=
  g ← gets lg;
  assert (commiting g) "log : commiting while the commiting flag is not set" ;;
  if 0 <? len (lh g) then
    write_log ;;
    write_head ;;
    install_trans false ;;
    empty_head
  else mret tt.

(** A process that may not start yet sleeps on the log: the outcome [Hang]. *)
Definition admitted (g : Log) : bool :=
  negb (commiting g || (LOGSIZE <? 1 + len (lh g) + (outstanding g + 1) * MAXOPBLOCKS)).
Definition begin_op : M (logst S) unit :=
  g ← gets lg;
  if admitted g then
    n ← uadd 32 (outstanding g) 1;
    upd (λ g, set_outstanding g n)
  else hang.

Definition write (buf : Buf) : M (logst S) unit :=
  g ← gets lg;
  if (LOGSIZE <=? len (lh g) + 1) || (size_ g <=? len (lh g) + 1)
  then panic "log: not enough space for ongoing trasactions" else
  if outstanding g <? 1 then panic "log: this log write is out of recording" else
  if bool_decide (b_blockno buf ∈ take (Z.to_nat (len (lh g))) (blocknos (lh g)))
  then cache (bc_drop buf) else
  if (LOGSIZE <=? len (lh g) + 2) || (size_ g <=? len (lh g) + 2)
  then panic "log: not enough space for this transaction" else
  cache (bc_pin buf) ;;
  (if len (lh g) <? LOGSIZE - 1 then
     upd (λ g, set_lh g (mkLogHeader (len (lh g) + 1)
       (<[Z.to_nat (len (lh g)) := b_blockno buf]> (blocknos (lh g)))))
   else panic "index out of bounds") ;;
  cache (bc_drop buf).

Definition no_space (g : Log) : bool :=
  (LOGSIZE <=? len (lh g) + 2) || (size_ g <=? len (lh g) + 2).

(** The wake-ups of sleeping processes are not visible here. *)
Definition end_op : M (logst S) unit :=
  g ← gets lg;
  n ← usub 32 (outstanding g) 1;
  upd (λ g, set_outstanding g n) ;;
  if commiting g then panic "logs: end fs op while the log is committing" else
  if n =? 0 then
    upd (λ g, set_commiting g true) ;;
    commit_no_lock ;;
    upd (λ g, set_commiting g false)
  else mret tt.
End log.
End Log.
