(* ===== verification/LogFacts.v ===== *)
(** * The log: what commits and recoveries do to the disk *)
From S2P Require Import Prelude Layout BufLru Bcache Log.

(** ** Sequences of disk writes *)
Section writes.
Context {D : Type} `{!BlockDev D} `{!BlockDevLaws D}.
Implicit Types (d : D) (ws : list (Z * block)).

Definition write_all d ws : D := foldl (λ d '(b, x), dev_write d b x) d ws.

Lemma write_all_app d ws1 ws2 : write_all d (ws1 ++ ws2) = write_all (write_all d ws1) ws2.
Proof. apply foldl_app. Qed.

Lemma write_all_ne d ws b : b ∉ ws.*1 → dev_read (write_all d ws) b = dev_read d b.
Proof.
  revert d. induction ws as [|[b' x] ws IH]; intros d Hb; [done|]. simpl in *.
  apply not_elem_of_cons in Hb as [Hne Hb]. rewrite IH by done.
  rewrite dev_read_write. by rewrite decide_False by congruence.
Qed.

Lemma write_all_in d ws b x :
  NoDup ws.*1 → (b, x) ∈ ws → dev_read (write_all d ws) b = x.
Proof.
  revert d. induction ws as [|[b' x'] ws IH]; intros d Hnd Hin; [set_solver|].
  simpl in *. apply NoDup_cons in Hnd as [Hn Hnd].
  apply elem_of_cons in Hin as [[= -> ->]|Hin]; [|by apply IH].
  rewrite write_all_ne by done. rewrite dev_read_write. by rewrite decide_True.
Qed.
End writes.

(** ** The header *)
Section header.
Implicit Types (h : LogHeader) (x : block).

Definition header_ok h : Prop :=
  0 ≤ len h < LOGSIZE ∧ length (blocknos h) = Z.to_nat (LOGSIZE - 1) ∧
  Forall (in_u 32) (blocknos h).

Lemma words4_bytes bs rest :
  Forall (in_u 32) bs → words4 (length bs) ((bs ≫= le_bytes 4) ++ rest) = bs.
Proof.
  induction bs as [|b bs IH]; intros Hb; [done|]. apply Forall_cons in Hb as [Hb Hbs].
  change ((b :: bs) ≫= le_bytes 4) with (le_bytes 4 b ++ (bs ≫= le_bytes 4)).
  rewrite <- app_assoc. cbn [length words4].
  rewrite take_app_length' by (by rewrite length_le_bytes).
  rewrite drop_app_length' by (by rewrite length_le_bytes).
  rewrite IH by done. f_equal. apply le_word_bytes. exact Hb.
Qed.

Lemma put_header_of h x : header_ok h → header_of (put_header h x) = h.
Proof.
  intros (Hl & Hn & Hb). unfold header_of, put_header, header_bytes.
  rewrite <- app_assoc. rewrite take_app_length' by (by rewrite length_le_bytes).
  rewrite drop_app_length' by (by rewrite length_le_bytes).
  rewrite le_word_bytes by (unfold LOGSIZE, MAXOPBLOCKS in *; lia).
  rewrite <- Hn, words4_bytes by done. by destruct h.
Qed.

Lemma put_len_of n x :
  0 ≤ n < LOGSIZE → len (header_of (put_len n x)) = n.
Proof.
  intros Hn. unfold put_len, header_of. cbn [len].
  rewrite take_app_length' by (by rewrite length_le_bytes).
  apply le_word_bytes. unfold LOGSIZE, MAXOPBLOCKS in *. lia.
Qed.
End header.

Section log.
Context {D T : Type} `{!BlockDev D} `{!BlockDevLaws D} (dv : Z) `{!BufferCache D T dv}.
Implicit Types (g : Log) (c : T) (a : acache D) (b i : Z) (x y : block) (d : D)
  (m : gmap Z abuf) (hs : list Z).

Lemma cache_run {A} (k : M T A) g c v c' :
  k c = Done (v, c') → Log.cache k (mkLogst g c) = Done (v, mkLogst g c').
Proof. intros H. unfold Log.cache, zoom. simpl. by rewrite H. Qed.

(** Read, modify, write and drop a block nobody else uses. *)
Lemma rewrite_block g c a b f :
  bc_rep c a → a_bufs a !! b = None → Z.of_nat (size (a_bufs a)) < NBUF →
  ∃ c', (buf ← Log.cache (bc_read dv b);
         x ← Log.cache (bc_data buf);
         Log.cache (bc_set buf (f x)) ;;
         Log.cache (bc_write buf) ;;
         Log.cache (bc_drop buf)) (mkLogst g c) = Done (tt, mkLogst g c') ∧
    bc_rep c' (mkAcache (a_bufs a) (dev_write (a_disk a) b (f (dev_read (a_disk a) b)))).
Proof.
  intros R Hb Hsz. destruct (bc_read_miss c a b R Hb Hsz) as (c1 & i & E1 & R1).
  mstep (cache_run _ g _ _ _ E1).
  assert (a_bufs (a_set a b (mkAbuf i (dev_read (a_disk a) b) 1 true)) !! b =
    Some (mkAbuf i (dev_read (a_disk a) b) 1 true)) as H1 by apply lookup_insert_eq.
  mstep (cache_run _ g _ _ _ (bc_data_run _ _ _ _ _ _ R1 H1)).
  destruct (bc_set_run _ _ _ _ _ _ (f (dev_read (a_disk a) b)) R1 H1) as (c2 & E2 & R2).
  mstep (cache_run _ g _ _ _ E2).
  set (y := f (dev_read (a_disk a) b)) in *.
  assert (a_bufs (a_set (a_set a b (mkAbuf i (dev_read (a_disk a) b) 1 true)) b
    (mkAbuf i y 1 true)) !! b = Some (mkAbuf i y 1 true)) as H2 by apply lookup_insert_eq.
  destruct (bc_write_run _ _ _ _ _ _ R2 H2) as (c3 & E3 & R3). mstep (cache_run _ g _ _ _ E3).
  destruct (bc_drop_last _ _ b i y R3 H2) as (c4 & E4 & R4).
  { simpl. rewrite dev_read_write. by rewrite decide_True. }
  exists c4. split; [by apply cache_run|].
  unfold a_del, a_set in R4. simpl in R4. by rewrite insert_insert_eq, delete_insert_id in R4.
Qed.

(** A pinned block: referenced, and no handle on it. *)
Definition pinned a b : Prop :=
  ∃ j x r, a_bufs a !! b = Some (mkAbuf j x r false) ∧ 1 ≤ r < MAXREF.

(** One iteration of [write_log]. *)
Lemma write_log_one_run g c a i hb :
  bc_rep c a → dev_ g = dv → Z.of_nat (size (a_bufs a)) < NBUF →
  start g + i < 2 ^ 32 → a_bufs a !! (start g + i) = None →
  blocknos (lh g) !! Z.to_nat (i - 1) = Some hb → pinned a hb →
  ∃ c', Log.write_log_one dv i (mkLogst g c) = Done (tt, mkLogst g c') ∧
    bc_rep c' (mkAcache (a_bufs a) (dev_write (a_disk a) (start g + i) (a_view a hb))).
Proof.
  intros R Hdev Hsz Hov HL Hblk (j & x & r & Hh & Hr). set (L := start g + i) in *.
  assert (L ≠ hb) as HLh by congruence.
  assert (a_view a hb = x) as -> by (unfold a_view; by rewrite Hh).
  unfold Log.write_log_one. rewrite bind_gets. cbn [lg]. rewrite bind_uadd by done. fold L.
  rewrite Hdev. destruct (bc_read_miss c a L R HL Hsz) as (c1 & k & E1 & R1).
  mstep (cache_run _ g _ _ _ E1). unfold Log.blockno_at. rewrite Hblk, bind_unwrap.
  destruct (bc_read_hit _ _ hb j x r R1) as (c2 & E2 & R2); [|lia|].
  { simpl. by rewrite lookup_insert_ne. }
  mstep (cache_run _ g _ _ _ E2).
  erewrite bind_run; [|apply cache_run, (bc_data_run _ _ hb j x (r + 1) R2), lookup_insert_eq].
  destruct (bc_set_run _ _ L k (dev_read (a_disk a) L) 1 x R2) as (c3 & E3 & R3).
  { simpl. rewrite lookup_insert_ne by done. apply lookup_insert_eq. }
  mstep (cache_run _ g _ _ _ E3).
  destruct (bc_write_run _ _ L k x 1 R3) as (c4 & E4 & R4); [apply lookup_insert_eq|].
  mstep (cache_run _ g _ _ _ E4).
  destruct (bc_drop_shared _ _ hb j x (r + 1) R4) as (c5 & E5 & R5); [|lia|].
  { simpl. rewrite lookup_insert_ne by done. apply lookup_insert_eq. }
  mstep (cache_run _ g _ _ _ E5).
  destruct (bc_drop_last _ _ L k x R5) as (c6 & E6 & R6).
  { simpl. rewrite lookup_insert_ne by congruence. apply lookup_insert_eq. }
  { simpl. rewrite dev_read_write. by rewrite decide_True. }
  exists c6. split; [by apply cache_run|].
  revert R6. unfold a_del, a_set. simpl. match goal with |- bc_rep _ (mkAcache ?m _) → _ =>
    replace m with (a_bufs a); [done|] end.
  apply map_eq. intros b. destruct (decide (b = L)) as [->|]; [by rewrite lookup_delete_eq|].
  rewrite lookup_delete_ne by done. destruct (decide (b = hb)) as [->|].
  - rewrite lookup_insert_eq, Hh. by replace (r + 1 - 1) with r by lia.
  - by rewrite !lookup_insert_ne.
Qed.

(** The loops run over [i = k + 1 .. k + length hs] where [hs] are the home
    blocks from position [k] of the header. *)
Definition homes_at g (k : nat) hs : Prop :=
  ∀ j hb, hs !! j = Some hb → blocknos (lh g) !! (k + j)%nat = Some hb.

Lemma homes_at_cons g k hb hs :
  homes_at g k (hb :: hs) → blocknos (lh g) !! k = Some hb ∧ homes_at g (S k) hs.
Proof.
  intros H. split.
  - specialize (H 0%nat hb eq_refl). by rewrite Nat.add_0_r in H.
  - intros j hb' Hj. specialize (H (S j) hb' Hj). by rewrite Nat.add_succ_r in H.
Qed.

Definition log_writes (f : Z → block) (s : Z) hs : list (Z * block) :=
  imap (λ j hb, (s + Z.of_nat j, f hb)) hs.

Lemma log_writes_cons f s hb hs :
  log_writes f s (hb :: hs) = (s, f hb) :: log_writes f (s + 1) hs.
Proof.
  unfold log_writes. rewrite imap_cons. rewrite Z.add_0_r. f_equal.
  apply imap_ext. intros j x _. simpl. f_equal. lia.
Qed.

Lemma seqZ_shift k hs hb :
  seqZ (Z.of_nat k + 1) (Z.of_nat (length (hb :: hs))) =
    (Z.of_nat k + 1) :: seqZ (Z.of_nat (S k) + 1) (Z.of_nat (length hs)).
Proof. cbn [length]. rewrite seqZ_cons by lia. do 2 f_equal; lia. Qed.

Lemma write_log_loop hs g c a k :
  bc_rep c a → dev_ g = dv → Z.of_nat (size (a_bufs a)) < NBUF →
  start g + Z.of_nat k + Z.of_nat (length hs) < 2 ^ 32 → homes_at g k hs →
  (∀ i, Z.of_nat k < i ≤ Z.of_nat k + Z.of_nat (length hs) → a_bufs a !! (start g + i) = None) →
  (∀ hb, hb ∈ hs → pinned a hb) →
  ∃ c', for_each (seqZ (Z.of_nat k + 1) (Z.of_nat (length hs))) (Log.write_log_one dv) (mkLogst g c) =
      Done (tt, mkLogst g c') ∧
    bc_rep c' (mkAcache (a_bufs a)
      (write_all (a_disk a) (log_writes (a_view a) (start g + Z.of_nat k + 1) hs))).
Proof.
  revert c a k. induction hs as [|hb hs IH]; intros c a k R Hdev Hsz Hov Hat HL Hpin.
  { exists c. by destruct a. }
  apply homes_at_cons in Hat as [Hk Hat]. rewrite seqZ_shift. cbn [for_each length] in *.
  assert (a_bufs a !! (start g + (Z.of_nat k + 1)) = None) as HL1 by (apply HL; lia).
  destruct (write_log_one_run g c a (Z.of_nat k + 1) hb) as (c1 & E1 & R1);
    [done|done|done|lia|done| |apply Hpin; set_solver|].
  { by replace (Z.to_nat (Z.of_nat k + 1 - 1)) with k by lia. }
  mstep E1. set (a1 := mkAcache _ _) in R1.
  destruct (IH c1 a1 (S k) R1) as (c' & E' & R'); [done|done|lia|done| | |].
  { intros i Hi. apply HL. lia. }
  { intros hb' Hin. by apply Hpin; set_solver. }
  exists c'. split; [done|]. rewrite log_writes_cons. simpl in R'.
  replace (start g + Z.of_nat k + 1 + 1) with (start g + Z.of_nat (S k) + 1) by lia.
  replace (start g + Z.of_nat k + 1) with (start g + (Z.of_nat k + 1)) by lia.
  replace (log_writes (a_view a) (start g + Z.of_nat (S k) + 1) hs)
    with (log_writes (a_view a1) (start g + Z.of_nat (S k) + 1) hs); [done|].
  unfold log_writes. apply imap_ext. intros j hb' Hj. f_equal.
  destruct (Hpin hb') as (? & ? & ? & Hb & _); [apply elem_of_cons; right; by eapply list_elem_of_lookup_2|].
  unfold a_view, a1. simpl. by rewrite Hb.
Qed.

(** One iteration of [install_trans] during a commit. *)
Definition unpin_one m b : gmap Z abuf :=
  match m !! b with
  | Some (mkAbuf j x r h) => if r =? 1 then delete b m else <[b := mkAbuf j x (r - 1) h]> m
  | None => m
  end.

Lemma install_one_run g c a i hb :
  bc_rep c a → dev_ g = dv → Z.of_nat (size (a_bufs a)) < NBUF →
  start g + i < 2 ^ 32 → a_bufs a !! (start g + i) = None →
  blocknos (lh g) !! Z.to_nat (i - 1) = Some hb → pinned a hb →
  dev_read (a_disk a) (start g + i) = a_view a hb →
  ∃ c', Log.install_one dv false i (mkLogst g c) = Done (tt, mkLogst g c') ∧
    bc_rep c' (mkAcache (unpin_one (a_bufs a) hb) (dev_write (a_disk a) hb (a_view a hb))).
Proof.
  intros R Hdev Hsz Hov HL Hblk (j & x & r & Hh & Hr). set (L := start g + i) in *.
  assert (L ≠ hb) as HLh by congruence.
  assert (a_view a hb = x) as -> by (unfold a_view; by rewrite Hh). intros HLx.
  unfold Log.install_one. rewrite bind_gets. cbn [lg]. rewrite bind_uadd by done. fold L.
  rewrite Hdev. destruct (bc_read_miss c a L R HL Hsz) as (c1 & k & E1 & R1).
  mstep (cache_run _ g _ _ _ E1). unfold Log.blockno_at. rewrite Hblk, bind_unwrap.
  rewrite HLx in R1. destruct (bc_read_hit _ _ hb j x r R1) as (c2 & E2 & R2); [|lia|].
  { simpl. by rewrite lookup_insert_ne. }
  mstep (cache_run _ g _ _ _ E2).
  erewrite bind_run; [|apply cache_run, (bc_data_run _ _ L k x 1 R2);
    simpl; rewrite lookup_insert_ne by done; apply lookup_insert_eq].
  destruct (bc_set_run _ _ hb j x (r + 1) x R2) as (c3 & E3 & R3); [apply lookup_insert_eq|].
  mstep (cache_run _ g _ _ _ E3).
  destruct (bc_write_run _ _ hb j x (r + 1) R3) as (c4 & E4 & R4); [apply lookup_insert_eq|].
  mstep (cache_run _ g _ _ _ E4).
  destruct (bc_unpin_run _ _ hb j x (r + 1) R4) as (c5 & E5 & R5); [apply lookup_insert_eq|lia|].
  mstep (cache_run _ g _ _ _ E5).
  destruct (bc_drop_last _ _ L k x R5) as (c6 & E6 & R6).
  { simpl. rewrite !lookup_insert_ne by done. apply lookup_insert_eq. }
  { simpl. rewrite dev_read_write, decide_False by congruence. done. }
  mstep (cache_run _ g _ _ _ E6). replace (r + 1 - 1) with r in * by lia.
  assert (bc_rep c6 (mkAcache (<[hb := mkAbuf j x r true]> (a_bufs a)) (dev_write (a_disk a) hb x)))
    as R6'.
  { revert R6. unfold a_del, a_set. simpl. match goal with |- bc_rep _ (mkAcache ?m _) → _ =>
      replace m with (<[hb := mkAbuf j x r true]> (a_bufs a)); [done|] end.
    apply map_eq. intros b. destruct (decide (b = L)) as [->|].
    - rewrite lookup_delete_eq, lookup_insert_ne by done. done.
    - rewrite lookup_delete_ne by done. destruct (decide (b = hb)) as [->|].
      + by rewrite !lookup_insert_eq.
      + by rewrite !lookup_insert_ne. }
  unfold unpin_one. rewrite Hh. destruct (Z.eqb_spec r 1) as [->|Hr1].
  - destruct (bc_drop_last _ _ hb j x R6') as (c7 & E7 & R7); [apply lookup_insert_eq| |].
    { simpl. rewrite dev_read_write. by rewrite decide_True. }
    exists c7. split; [by apply cache_run|]. unfold a_del in R7. simpl in R7.
    by rewrite delete_insert_eq in R7.
  - destruct (bc_drop_shared _ _ hb j x r R6') as (c7 & E7 & R7); [apply lookup_insert_eq|lia|].
    exists c7. split; [by apply cache_run|]. unfold a_set in R7. simpl in R7.
    by rewrite insert_insert_eq in R7.
Qed.

Definition home_writes (f : Z → block) hs : list (Z * block) := (λ hb, (hb, f hb)) <$> hs.

Lemma unpin_one_ne m b b' : b ≠ b' → unpin_one m b !! b' = m !! b'.
Proof.
  intros. unfold unpin_one. destruct (m !! b) as [[j x r h]|]; [|done].
  destruct (r =? 1); [by rewrite lookup_delete_ne|by rewrite lookup_insert_ne].
Qed.

Lemma unpin_one_size m b : (size (unpin_one m b) ≤ size m)%nat.
Proof.
  unfold unpin_one. destruct (m !! b) as [[j x r h]|] eqn:E; [|done].
  destruct (r =? 1).
  - rewrite map_size_delete, E. simpl. lia.
  - rewrite map_size_insert, E. done.
Qed.

Lemma install_loop hs g c a k :
  bc_rep c a → dev_ g = dv → Z.of_nat (size (a_bufs a)) < NBUF →
  start g + Z.of_nat k + Z.of_nat (length hs) < 2 ^ 32 → homes_at g k hs → NoDup hs →
  (∀ i, Z.of_nat k < i ≤ Z.of_nat k + Z.of_nat (length hs) →
     a_bufs a !! (start g + i) = None ∧ start g + i ∉ hs) →
  (∀ hb, hb ∈ hs → pinned a hb) →
  (∀ j hb, hs !! j = Some hb →
     dev_read (a_disk a) (start g + (Z.of_nat k + Z.of_nat j + 1)) = a_view a hb) →
  ∃ c', for_each (seqZ (Z.of_nat k + 1) (Z.of_nat (length hs))) (Log.install_one dv false)
      (mkLogst g c) = Done (tt, mkLogst g c') ∧
    bc_rep c' (mkAcache (foldl unpin_one (a_bufs a) hs)
      (write_all (a_disk a) (home_writes (a_view a) hs))).
Proof.
  revert c a k. induction hs as [|hb hs IH]; intros c a k R Hdev Hsz Hov Hat Hnd HL Hpin Hlog.
  { exists c. by destruct a. }
  apply homes_at_cons in Hat as [Hk Hat]. rewrite seqZ_shift. cbn [for_each length] in *.
  apply NoDup_cons in Hnd as [Hnin Hnd].
  destruct (HL (Z.of_nat k + 1) ltac:(lia)) as [HL1 HL1'].
  destruct (install_one_run g c a (Z.of_nat k + 1) hb) as (c1 & E1 & R1);
    [done|done|done|lia|done| |apply Hpin; set_solver| |].
  { by replace (Z.to_nat (Z.of_nat k + 1 - 1)) with k by lia. }
  { specialize (Hlog 0%nat hb eq_refl). by rewrite Z.add_0_r in Hlog. }
  mstep E1. set (a1 := mkAcache _ _) in R1.
  assert (∀ b, b ≠ hb → a_bufs a1 !! b = a_bufs a !! b) as Hoff.
  { intros b Hb. by apply unpin_one_ne. }
  assert (∀ hb', hb' ∈ hs → pinned a1 hb' ∧ a_view a1 hb' = a_view a hb') as Hpin1.
  { intros hb' Hin. assert (hb' ≠ hb) as Hne by congruence.
    destruct (Hpin hb') as (j & x & r & Hb & Hr); [set_solver|].
    split; [exists j, x, r; by rewrite Hoff|].
    unfold a_view. rewrite Hoff by done. by rewrite Hb. }
  destruct (IH c1 a1 (S k) R1) as (c' & E' & R'); [done| |lia|done|done| | | |].
  { pose proof (unpin_one_size (a_bufs a) hb). simpl. lia. }
  { intros i Hi. destruct (HL i ltac:(lia)) as [? Hi'].
    rewrite Hoff; set_solver. }
  { intros hb' Hin. by apply Hpin1. }
  { intros j hb' Hj. destruct (Hpin1 hb') as [_ ->]; [by eapply list_elem_of_lookup_2|].
    rewrite <- (Hlog (S j) hb' Hj). simpl. pose proof (lookup_lt_Some _ _ _ Hj).
    rewrite dev_read_write, decide_False; [f_equal; lia|]. intros Eq.
    destruct (HL (Z.of_nat k + Z.of_nat (S j) + 1) ltac:(lia)) as [_ HLj].
    apply HLj, elem_of_cons. left. lia. }
  exists c'. split; [done|]. simpl in *.
  replace (home_writes (a_view a) hs) with (home_writes (a_view a1) hs); [done|].
  apply list_fmap_ext. intros j hb' Hj. f_equal. apply Hpin1. by eapply list_elem_of_lookup_2.
Qed.

(** One iteration of [install_trans] during recovery. *)
Lemma recover_one_run g c a i hb :
  bc_rep c a → dev_ g = dv → Z.of_nat (size (a_bufs a)) + 1 < NBUF →
  start g + i < 2 ^ 32 → a_bufs a !! (start g + i) = None →
  blocknos (lh g) !! Z.to_nat (i - 1) = Some hb → a_bufs a !! hb = None → start g + i ≠ hb →
  ∃ c', Log.install_one dv true i (mkLogst g c) = Done (tt, mkLogst g c') ∧
    bc_rep c' (mkAcache (a_bufs a) (dev_write (a_disk a) hb (dev_read (a_disk a) (start g + i)))).
Proof.
  intros R Hdev Hsz Hov HL Hblk Hh HLh. set (L := start g + i) in *.
  unfold Log.install_one. rewrite bind_gets. cbn [lg]. rewrite bind_uadd by done. fold L.
  rewrite Hdev. destruct (bc_read_miss c a L R HL ltac:(lia)) as (c1 & k & E1 & R1).
  mstep (cache_run _ g _ _ _ E1). unfold Log.blockno_at. rewrite Hblk, bind_unwrap.
  set (x := dev_read (a_disk a) L) in *.
  destruct (bc_read_miss _ _ hb R1) as (c2 & j & E2 & R2).
  { simpl. by rewrite lookup_insert_ne. }
  { simpl. rewrite map_size_insert, HL. simpl. lia. }
  mstep (cache_run _ g _ _ _ E2).
  erewrite bind_run; [|apply cache_run, (bc_data_run _ _ L k x 1 R2);
    simpl; rewrite lookup_insert_ne by done; apply lookup_insert_eq].
  destruct (bc_set_run _ _ hb j (dev_read (a_disk a) hb) 1 x R2) as (c3 & E3 & R3); [apply lookup_insert_eq|].
  mstep (cache_run _ g _ _ _ E3).
  destruct (bc_write_run _ _ hb j x 1 R3) as (c4 & E4 & R4); [apply lookup_insert_eq|].
  mstep (cache_run _ g _ _ _ E4). rewrite bind_ret_l.
  destruct (bc_drop_last _ _ L k x R4) as (c5 & E5 & R5).
  { simpl. rewrite !lookup_insert_ne by done. apply lookup_insert_eq. }
  { simpl. rewrite dev_read_write, decide_False by congruence. done. }
  mstep (cache_run _ g _ _ _ E5).
  destruct (bc_drop_last _ _ hb j x R5) as (c6 & E6 & R6).
  { simpl. rewrite lookup_delete_ne by done. apply lookup_insert_eq. }
  { simpl. rewrite dev_read_write. by rewrite decide_True. }
  exists c6. split; [by apply cache_run|].
  revert R6. unfold a_del, a_set. simpl. match goal with |- bc_rep _ (mkAcache ?m _) → _ =>
    replace m with (a_bufs a); [done|] end.
  apply map_eq. intros b. destruct (decide (b = hb)) as [->|]; [by rewrite lookup_delete_eq|].
  rewrite lookup_delete_ne by done. destruct (decide (b = L)) as [->|].
  - by rewrite lookup_delete_eq.
  - by rewrite lookup_delete_ne, !lookup_insert_ne.
Qed.

Definition recover_writes d (s : Z) hs : list (Z * block) :=
  imap (λ j hb, (hb, dev_read d (s + Z.of_nat j))) hs.

Lemma recover_writes_cons d s hb hs :
  recover_writes d s (hb :: hs) = (hb, dev_read d s) :: recover_writes d (s + 1) hs.
Proof.
  unfold recover_writes. rewrite imap_cons. rewrite Z.add_0_r. f_equal.
  apply imap_ext. intros j x _. simpl. do 2 f_equal. lia.
Qed.

Lemma recover_loop hs g c a k :
  bc_rep c a → dev_ g = dv → Z.of_nat (size (a_bufs a)) + 1 < NBUF →
  start g + Z.of_nat k + Z.of_nat (length hs) < 2 ^ 32 → homes_at g k hs →
  (∀ i, Z.of_nat k < i ≤ Z.of_nat k + Z.of_nat (length hs) →
     a_bufs a !! (start g + i) = None ∧ start g + i ∉ hs) →
  (∀ hb, hb ∈ hs → a_bufs a !! hb = None) →
  ∃ c', for_each (seqZ (Z.of_nat k + 1) (Z.of_nat (length hs))) (Log.install_one dv true)
      (mkLogst g c) = Done (tt, mkLogst g c') ∧
    bc_rep c' (mkAcache (a_bufs a)
      (write_all (a_disk a) (recover_writes (a_disk a) (start g + Z.of_nat k + 1) hs))).
Proof.
  revert c a k. induction hs as [|hb hs IH]; intros c a k R Hdev Hsz Hov Hat HL Hhs.
  { exists c. by destruct a. }
  apply homes_at_cons in Hat as [Hk Hat]. rewrite seqZ_shift. cbn [for_each length] in *.
  destruct (HL (Z.of_nat k + 1) ltac:(lia)) as [HL1 HL1'].
  destruct (recover_one_run g c a (Z.of_nat k + 1) hb) as (c1 & E1 & R1);
    [done|done|done|lia|done| |apply Hhs; set_solver|set_solver|].
  { by replace (Z.to_nat (Z.of_nat k + 1 - 1)) with k by lia. }
  mstep E1. set (a1 := mkAcache _ _) in R1.
  destruct (IH c1 a1 (S k) R1) as (c' & E' & R'); [done|done|lia|done| | |].
  { intros i Hi. destruct (HL i ltac:(lia)) as [? Hi']. set_solver. }
  { intros hb' Hin. apply Hhs. set_solver. }
  exists c'. split; [done|]. rewrite recover_writes_cons. simpl in R'.
  replace (start g + Z.of_nat k + 1 + 1) with (start g + Z.of_nat (S k) + 1) by lia.
  replace (start g + Z.of_nat k + 1) with (start g + (Z.of_nat k + 1)) by lia.
  replace (recover_writes (a_disk a) (start g + Z.of_nat (S k) + 1) hs)
    with (recover_writes (a_disk a1) (start g + Z.of_nat (S k) + 1) hs); [done|].
  unfold recover_writes. apply imap_ext. intros j hb' Hj. simpl. f_equal.
  pose proof (lookup_lt_Some _ _ _ Hj). rewrite dev_read_write, decide_False; [done|].
  intros Eq. destruct (HL (Z.of_nat (S k) + 1 + Z.of_nat j) ltac:(lia)) as [_ HLj].
  apply HLj, elem_of_cons. left. lia.
Qed.

(** *** Whole operations *)

(** The blocks a header lists. *)
Definition homes (h : LogHeader) : list Z := take (Z.to_nat (len h)) (blocknos h).

Lemma homes_homes_at g : homes_at g 0 (homes (lh g)).
Proof. intros j hb Hj. by apply lookup_take_Some in Hj as [? _]. Qed.

Lemma length_homes h : header_ok h → Z.of_nat (length (homes h)) = len h.
Proof. intros (Hl & Hn & _). unfold homes. rewrite length_take. lia. Qed.

(** The log area does not overlap the blocks it logs nor the blocks in use. *)
Record log_area g a hs : Prop := {
  la_dev : dev_ g = dv;
  la_ok : header_ok (lh g);
  la_width : 0 ≤ start g ∧ start g + LOGSIZE ≤ 2 ^ 32;
  la_apart : ∀ i, 0 ≤ i < LOGSIZE → a_bufs a !! (start g + i) = None ∧ start g + i ∉ hs
}.

(** All writes of a commit, in order. *)
Definition commit_writes g (f : Z → block) (old : block) : list (Z * block) :=
  let hs := homes (lh g) in
  log_writes f (start g + 1) hs ++ [(start g, put_header (lh g) old)] ++
  home_writes f hs ++ [(start g, put_len 0 (put_header (lh g) old))].

Lemma log_writes_fst f s hs b :
  b ∈ (log_writes f s hs).*1 → ∃ j, 0 ≤ j < Z.of_nat (length hs) ∧ b = s + j.
Proof.
  intros (p & -> & Hp)%list_elem_of_fmap. apply list_elem_of_lookup in Hp as [j Hj].
  unfold log_writes in Hj. rewrite list_lookup_imap in Hj.
  destruct (hs !! j) eqn:E; [|done]. injection Hj as <-. apply lookup_lt_Some in E.
  exists (Z.of_nat j). simpl. lia.
Qed.

Lemma home_writes_fst f hs : (home_writes f hs).*1 = hs.
Proof.
  unfold home_writes. rewrite <- list_fmap_compose. unfold compose. simpl. apply list_fmap_id.
Qed.

Lemma log_writes_nodup f s hs : NoDup (log_writes f s hs).*1.
Proof.
  revert s. induction hs as [|hb hs IH]; intros s; [constructor|].
  rewrite log_writes_cons. simpl. constructor; [|apply IH].
  intros (j & ? & ?)%log_writes_fst. lia.
Qed.

Lemma log_writes_in f s hs j hb : hs !! j = Some hb → (s + Z.of_nat j, f hb) ∈ log_writes f s hs.
Proof.
  intros Hj. eapply list_elem_of_lookup_2. unfold log_writes.
  by rewrite list_lookup_imap, Hj.
Qed.

Lemma write_head_run g c a :
  bc_rep c a → dev_ g = dv → a_bufs a !! start g = None → Z.of_nat (size (a_bufs a)) < NBUF →
  ∃ c', Log.write_head dv (mkLogst g c) = Done (tt, mkLogst g c') ∧
    bc_rep c' (mkAcache (a_bufs a)
      (dev_write (a_disk a) (start g) (put_header (lh g) (dev_read (a_disk a) (start g))))).
Proof.
  intros R Hd Hb Hsz. unfold Log.write_head. rewrite bind_gets. cbn [lg]. rewrite Hd.
  by apply (rewrite_block g c a (start g) (put_header (lh g))).
Qed.

Lemma empty_head_run g c a :
  bc_rep c a → dev_ g = dv → a_bufs a !! start g = None → Z.of_nat (size (a_bufs a)) < NBUF →
  ∃ c', Log.empty_head dv (mkLogst g c) =
      Done (tt, mkLogst (Log.set_lh g (mkLogHeader 0 (blocknos (lh g)))) c') ∧
    bc_rep c' (mkAcache (a_bufs a)
      (dev_write (a_disk a) (start g) (put_len 0 (dev_read (a_disk a) (start g))))).
Proof.
  intros R Hd Hb Hsz. unfold Log.empty_head, Log.upd. rewrite bind_modify, bind_gets.
  cbn [lg bc dev_ start Log.set_lh]. rewrite Hd.
  by apply (rewrite_block (Log.set_lh g (mkLogHeader 0 (blocknos (lh g)))) c a (start g) (put_len 0)).
Qed.

Lemma foldl_unpin_size m hs : (size (foldl unpin_one m hs) ≤ size m)%nat.
Proof.
  revert m. induction hs as [|hb hs IH]; intros m; simpl; [done|].
  pose proof (IH (unpin_one m hb)). pose proof (unpin_one_size m hb). lia.
Qed.

Lemma foldl_unpin_ne m hs b : b ∉ hs → foldl unpin_one m hs !! b = m !! b.
Proof.
  revert m. induction hs as [|hb hs IH]; intros m Hb; simpl; [done|].
  rewrite IH, unpin_one_ne by set_solver. done.
Qed.

(** [commit_no_lock] performs exactly [commit_writes], unpins the logged
    blocks and empties the log. *)
Lemma commit_run g c a :
  let hs := homes (lh g) in
  bc_rep c a → log_area g a hs → commiting g = true → 0 < len (lh g) →
  Z.of_nat (size (a_bufs a)) < NBUF → NoDup hs → (∀ hb, hb ∈ hs → pinned a hb) →
  ∃ c', Log.commit_no_lock dv (mkLogst g c) =
      Done (tt, mkLogst (Log.set_lh g (mkLogHeader 0 (blocknos (lh g)))) c') ∧
    bc_rep c' (mkAcache (foldl unpin_one (a_bufs a) hs)
      (write_all (a_disk a) (commit_writes g (a_view a) (dev_read (a_disk a) (start g))))).
Proof.
  intros hs R [Hdev Hok Hw Hap] Hcom Hlen Hsz Hnd Hpin.
  pose proof (length_homes _ Hok) as Hlh. fold hs in Hlh. pose proof Hok as [Hl _].
  assert (∀ i, 0 ≤ i ≤ Z.of_nat (length hs) → a_bufs a !! (start g + i) = None ∧ start g + i ∉ hs)
    as Hap' by (intros i Hi; apply Hap; lia).
  destruct (Hap' 0 ltac:(lia)) as [Hst Hst']. rewrite Z.add_0_r in Hst, Hst'.
  unfold Log.commit_no_lock. rewrite bind_gets. cbn [lg]. rewrite bind_assert by done.
  rewrite (proj2 (Z.ltb_lt _ _)) by done.
  destruct (write_log_loop hs g c a 0) as (c1 & E1 & R1);
    [done|done|done|lia|apply homes_homes_at|intros i Hi; apply Hap'; lia|done|].
  unfold Log.write_log. rewrite bind_assoc, bind_gets. cbn [lg]. rewrite <- Hlh. mstep E1.
  set (d1 := write_all _ _) in R1.
  assert (dev_read d1 (start g) = dev_read (a_disk a) (start g)) as Hold.
  { apply write_all_ne. intros (j & ? & ?)%log_writes_fst. lia. }
  destruct (write_head_run g c1 _ R1) as (c2 & E2 & R2); [done|done|done|].
  mstep E2. simpl in R2. rewrite Hold in R2. set (h1 := put_header _ _) in R2.
  set (a2 := mkAcache (a_bufs a) (dev_write d1 (start g) h1)) in R2.
  assert (∀ hb, hb ∈ hs → a_view a2 hb = a_view a hb) as Hview.
  { intros hb Hin. destruct (Hpin hb Hin) as (? & ? & ? & Hb & _).
    unfold a_view. simpl. by rewrite Hb. }
  destruct (install_loop hs g c2 a2 0) as (c3 & E3 & R3);
    [done|done|done|lia|apply homes_homes_at|done|intros i Hi; apply Hap'; lia|done| |].
  { intros j hb Hj. rewrite Hview by (by eapply list_elem_of_lookup_2). simpl.
    rewrite dev_read_write, decide_False by lia.
    pose proof (log_writes_in (a_view a) (start g + Z.of_nat 0 + 1) hs j hb Hj) as Hin.
    rewrite <- (write_all_in (a_disk a) _ _ _ (log_writes_nodup _ _ _) Hin).
    f_equal. lia. }
  unfold Log.install_trans. rewrite bind_assoc, bind_gets. cbn [lg]. rewrite <- Hlh. mstep E3.
  simpl in R3.
  replace (home_writes (a_view a2) hs) with (home_writes (a_view a) hs) in R3.
  2:{ apply list_fmap_ext. intros j hb Hj. by rewrite Hview by (by eapply list_elem_of_lookup_2). }
  set (d3 := write_all _ _) in R3.
  destruct (empty_head_run g c3 _ R3) as (c4 & E4 & R4); [done| | |].
  { simpl. by rewrite foldl_unpin_ne. }
  { simpl. pose proof (foldl_unpin_size (a_bufs a) hs). lia. }
  exists c4. split; [done|]. simpl in R4.
  assert (dev_read d3 (start g) = h1) as Hh1.
  { unfold d3. rewrite write_all_ne by (by rewrite home_writes_fst).
    rewrite dev_read_write. by rewrite decide_True. }
  rewrite Hh1 in R4. unfold commit_writes. fold hs h1. rewrite !write_all_app.
  unfold d3, d1 in R4. change (Z.of_nat 0) with 0 in R4. rewrite Z.add_0_r in R4. exact R4.
Qed.

Lemma read_head_run g c d :
  bc_rep c (mkAcache ∅ d) → dev_ g = dv →
  ∃ c', Log.read_head dv (mkLogst g c) =
      Done (tt, mkLogst (Log.set_lh g (header_of (dev_read d (start g)))) c') ∧
    bc_rep c' (mkAcache ∅ d).
Proof.
  intros R Hd. unfold Log.read_head. rewrite bind_gets. cbn [lg]. rewrite Hd.
  destruct (bc_read_miss c _ (start g) R) as (c1 & i & E1 & R1); [done|done|].
  mstep (cache_run _ g _ _ _ E1).
  erewrite bind_run; [|apply cache_run, (bc_data_run _ _ (start g) i (dev_read d (start g)) 1 R1),
    lookup_insert_eq].
  unfold Log.upd. rewrite bind_modify. cbn [lg bc].
  destruct (bc_drop_last _ _ (start g) i (dev_read d (start g)) R1) as (c2 & E2 & R2);
    [apply lookup_insert_eq|done|].
  exists c2. split; [by apply cache_run|].
  unfold a_del, a_set in R2. simpl in R2. by rewrite delete_insert_id in R2.
Qed.

(** What recovery makes of a disk. *)
Definition recovered (s : Z) d : D :=
  let h := header_of (dev_read d s) in
  if 0 <? len h then
    let d' := write_all d (recover_writes d (s + 1) (homes h)) in
    dev_write d' s (put_len 0 (dev_read d' s))
  else d.

(** Homes a header may list: nothing in the log area. *)
Definition homes_apart (s : Z) hs : Prop := ∀ i, 0 ≤ i < LOGSIZE → s + i ∉ hs.

Lemma recover_run g c d :
  let h := header_of (dev_read d (start g)) in
  bc_rep c (mkAcache ∅ d) → dev_ g = dv → header_ok h → homes_apart (start g) (homes h) →
  0 ≤ start g → start g + LOGSIZE ≤ 2 ^ 32 →
  ∃ g' c', Log.recover dv (mkLogst g c) = Done (tt, mkLogst g' c') ∧ len (lh g') = 0 ∧
    bc_rep c' (mkAcache ∅ (recovered (start g) d)).
Proof.
  intros h R Hd Hok Hap H0 Hw. destruct (read_head_run g c d R Hd) as (c1 & E1 & R1).
  fold h in E1. unfold Log.recover. mstep E1. rewrite bind_gets. cbn [lg lh Log.set_lh].
  unfold recovered. fold h. pose proof (length_homes _ Hok) as Hlh. pose proof Hok as [Hl _].
  destruct (Z.ltb_spec 0 (len h)) as [Hpos|Hz].
  2:{ exists (Log.set_lh g h), c1. split_and!; [done|change (len h = 0); lia|done]. }
  set (g1 := Log.set_lh g h).
  destruct (recover_loop (homes h) g1 c1 (mkAcache ∅ d) 0) as (c2 & E2 & R2);
    [done|done|by vm_compute|simpl; lia|apply (homes_homes_at g1)| |done|].
  { intros i Hi. split; [done|]. apply Hap. lia. }
  unfold Log.install_trans. rewrite bind_assoc, bind_gets.
  change (len (lh (lg (mkLogst g1 c1)))) with (len h). rewrite <- Hlh. mstep E2. simpl in R2. rewrite Z.add_0_r in R2.
  destruct (empty_head_run g1 c2 _ R2) as (c3 & E3 & R3); [done|done|by vm_compute|].
  eexists _, c3. split; [exact E3|]. done.
Qed.

(** The log area of a header block at [s]. *)
Definition outside (s b : Z) : Prop := ¬ (s ≤ b < s + LOGSIZE).

Lemma recovered_outside s d b :
  let h := header_of (dev_read d s) in
  header_ok h → homes_apart s (homes h) → NoDup (homes h) → outside s b →
  dev_read (recovered s d) b =
    match list_find (b =.) (homes h) with
    | Some (j, _) => if 0 <? len h then dev_read d (s + 1 + Z.of_nat j) else dev_read d b
    | None => dev_read d b
    end.
Proof.
  intros h Hok Hap Hnd Hb. unfold recovered. fold h. pose proof (length_homes _ Hok) as Hlh.
  destruct (Z.ltb_spec 0 (len h)) as [Hpos|Hz].
  2:{ destruct (list_find (b =.) (homes h)) as [[j x]|]; done. }
  assert ((recover_writes d (s + 1) (homes h)).*1 = homes h) as Hfst.
  { unfold recover_writes. rewrite fmap_imap. apply list_eq. intros j.
    rewrite list_lookup_imap. by destruct (homes h !! j). }
  rewrite dev_read_write, decide_False by (unfold outside in Hb; unfold LOGSIZE, MAXOPBLOCKS in *; lia).
  destruct (list_find (b =.) (homes h)) as [[j x]|] eqn:Hf.
  - apply list_find_Some in Hf as (Hj & <- & _).
    apply write_all_in; [by rewrite Hfst|]. apply list_elem_of_lookup. exists j.
    unfold recover_writes. by rewrite list_lookup_imap, Hj.
  - apply write_all_ne. rewrite Hfst. apply list_find_None in Hf. intros Hin.
    rewrite Forall_forall in Hf. by apply (Hf b Hin).
Qed.

(** ** Crashes *)
Lemma header_put_len n x :
  0 ≤ n < LOGSIZE → header_of (put_len n x) = mkLogHeader n (blocknos (header_of x)).
Proof.
  intros Hn. unfold put_len, header_of. cbn [blocknos].
  rewrite take_app_length' by (by rewrite length_le_bytes).
  rewrite drop_app_length' by (by rewrite length_le_bytes).
  rewrite le_word_bytes by (unfold LOGSIZE, MAXOPBLOCKS in *; lia). done.
Qed.

(** A header that makes recovery a no-op. *)
Lemma recovered_empty s d : len (header_of (dev_read d s)) = 0 → recovered s d = d.
Proof. intros E. unfold recovered. by rewrite E. Qed.

Lemma homes_empty h : len h = 0 → homes h = [].
Proof. intros E. unfold homes. by rewrite E. Qed.

(** The disk [d'] is usable by recovery, which leaves the blocks outside the
    log as [f] says. *)
Record recovers_to (s : Z) d' (f : Z → block) : Prop := {
  rt_ok : header_ok (header_of (dev_read d' s));
  rt_apart : homes_apart s (homes (header_of (dev_read d' s)));
  rt_view : ∀ b, outside s b → dev_read (recovered s d') b = f b
}.

Definition installed d hs (f : Z → block) (b : Z) : block :=
  if decide (b ∈ hs) then f b else dev_read d b.

Section crash.
Context (g : Log) (d : D) (f : Z → block).
Let s := start g.
Let hs := homes (lh g).
Let old := dev_read d s.
Context (Hok : header_ok (lh g)) (Hnd : NoDup hs) (Hap : homes_apart s hs).
Context (Hold : header_ok (header_of old)) (Hold0 : len (header_of old) = 0).

#[local] Lemma log_area_in j : 0 ≤ j < LOGSIZE → ¬ outside s (s + j).
Proof. unfold outside. lia. Qed.

#[local] Lemma log_part_read ws b :
  (∀ b', b' ∈ ws.*1 → ∃ j, 0 ≤ j < Z.of_nat (length hs) ∧ b' = s + 1 + j) →
  outside s b ∨ b = s → dev_read (write_all d ws) b = dev_read d b.
Proof.
  intros Hws Hb. apply write_all_ne. intros (j & Hj & ->)%Hws.
  pose proof (length_homes _ Hok) as Hl. fold hs in Hl. pose proof Hok as [? _].
  unfold outside in Hb. lia.
Qed.

(** Before the header is on disk. *)
Lemma crash_before n :
  (n ≤ length (log_writes f (s + 1) hs))%nat →
  recovers_to s (write_all d (take n (log_writes f (s + 1) hs))) (dev_read d).
Proof.
  intros _. set (ws := take n _).
  assert (∀ b', b' ∈ ws.*1 → ∃ j, 0 ≤ j < Z.of_nat (length hs) ∧ b' = s + 1 + j) as Hws.
  { intros b' (p & -> & Hp)%list_elem_of_fmap. apply (log_writes_fst f).
    apply list_elem_of_fmap_2. unfold ws in Hp. by eapply elem_of_take in Hp as (i & Hp & _);
    eapply list_elem_of_lookup_2. }
  assert (dev_read (write_all d ws) s = old) as Hs by (apply log_part_read; [done|by right]).
  split; rewrite ?Hs.
  - done.
  - rewrite homes_empty by done. intros i _. set_solver.
  - intros b Hb. rewrite recovered_empty by (by rewrite Hs). apply log_part_read; [done|by left].
Qed.

(** With the header on disk and any part of the installation done. *)
Lemma crash_during k :
  recovers_to s
    (write_all d (log_writes f (s + 1) hs ++ (s, put_header (lh g) old) :: take k (home_writes f hs)))
    (installed d hs f).
Proof.
  set (d1 := write_all d (log_writes f (s + 1) hs)).
  set (d2 := dev_write d1 s (put_header (lh g) old)).
  rewrite write_all_app. fold d1. simpl. fold d2.
  set (ws := take k (home_writes f hs)).
  assert (∀ b, b ∈ ws.*1 → b ∈ hs) as Hws.
  { intros b (p & -> & Hp)%list_elem_of_fmap. rewrite <- (home_writes_fst f hs).
    apply list_elem_of_fmap_2. unfold ws in Hp. by eapply elem_of_take in Hp as (i & Hp & _);
    eapply list_elem_of_lookup_2. }
  pose proof (length_homes _ Hok) as Hl. fold hs in Hl. pose proof Hok as [Hlen _].
  assert (∀ j, 0 ≤ j < LOGSIZE → dev_read (write_all d2 ws) (s + j) = dev_read d2 (s + j)) as Harea.
  { intros j Hj. apply write_all_ne. intros Hin%Hws. by apply (Hap j). }
  assert (dev_read (write_all d2 ws) s = put_header (lh g) old) as Hs.
  { pose proof (Harea 0 ltac:(unfold LOGSIZE, MAXOPBLOCKS; lia)) as E0.
    rewrite Z.add_0_r in E0. rewrite E0. unfold d2. rewrite dev_read_write. by rewrite decide_True. }
  split; rewrite ?Hs, ?put_header_of by done; [done|done|]. intros b Hb.
  rewrite recovered_outside by (rewrite ?Hs, ?put_header_of; done).
  rewrite Hs, put_header_of by done. fold hs. unfold installed.
  destruct (list_find (b =.) hs) as [[j x]|] eqn:Hf.
  - apply list_find_Some in Hf as (Hj & <- & _). pose proof (lookup_lt_Some _ _ _ Hj).
    rewrite (proj2 (Z.ltb_lt 0 (len (lh g)))) by lia.
    rewrite decide_True by (by eapply list_elem_of_lookup_2).
    rewrite <- Z.add_assoc, Harea by lia. unfold d2. rewrite dev_read_write, decide_False by lia.
    rewrite Z.add_assoc. apply write_all_in; [apply log_writes_nodup|by apply log_writes_in].
  - apply list_find_None in Hf. rewrite Forall_forall in Hf.
    assert (b ∉ hs) as Hnin by (intros Hin; by apply (Hf b Hin)).
    rewrite decide_False by done. rewrite write_all_ne by (intros ?%Hws; done).
    unfold d2. rewrite dev_read_write, decide_False by (unfold outside, LOGSIZE, MAXOPBLOCKS in *; lia).
    apply log_part_read; [apply log_writes_fst|by left].
Qed.

(** After the last write. *)
Lemma crash_after :
  recovers_to s (write_all d (commit_writes g f old)) (installed d hs f).
Proof.
  unfold commit_writes. fold s hs. rewrite !app_assoc, write_all_app.
  set (d3 := write_all d _). set (h2 := put_len 0 (put_header (lh g) old)).
  change (write_all d3 [(s, h2)]) with (dev_write d3 s h2).
  assert (dev_read (dev_write d3 s h2) s = h2) as Hs.
  { rewrite dev_read_write. by rewrite decide_True. }
  assert (header_of h2 = mkLogHeader 0 (blocknos (lh g))) as Hh2.
  { unfold h2. rewrite header_put_len by (unfold LOGSIZE, MAXOPBLOCKS; lia).
    by rewrite put_header_of. }
  pose proof Hok as (? & ? & ?).
  split; rewrite ?Hs, ?Hh2.
  - split_and!; [simpl; unfold LOGSIZE, MAXOPBLOCKS; lia..|done|done].
  - rewrite homes_empty by done. intros i _. set_solver.
  - intros b Hb. rewrite recovered_empty by (by rewrite Hs, Hh2).
    rewrite dev_read_write, decide_False by (unfold outside, LOGSIZE, MAXOPBLOCKS in *; lia).
    unfold d3, installed. rewrite <- app_assoc, write_all_app. case_decide as Hin.
    + simpl. apply write_all_in; [by rewrite home_writes_fst|]. apply list_elem_of_fmap. by exists b.
    + rewrite write_all_ne.
      * apply log_part_read; [apply log_writes_fst|by left].
      * simpl. rewrite home_writes_fst. apply not_elem_of_cons. split; [|done].
        unfold outside, LOGSIZE, MAXOPBLOCKS in *. lia.
Qed.
End crash.

(** Every prefix of a commit's writes recovers to the old or the new state. *)
Lemma crash_cases g d f n :
  let s := start g in
  let hs := homes (lh g) in
  header_ok (lh g) → NoDup hs → homes_apart s hs →
  header_ok (header_of (dev_read d s)) → len (header_of (dev_read d s)) = 0 →
  let d' := write_all d (take n (commit_writes g f (dev_read d s))) in
  recovers_to s d' (dev_read d) ∨ recovers_to s d' (installed d hs f).
Proof.
  intros s hs Hok Hnd Hap Hold Hold0 d'. unfold d', commit_writes. fold s hs.
  set (W1 := log_writes f (s + 1) hs). set (W3 := home_writes f hs).
  destruct (decide (n ≤ length W1)%nat) as [Hn|Hn].
  { left. rewrite take_app_le by done. by apply (crash_before g). }
  right. rewrite take_app_ge by lia.
  destruct (n - length W1)%nat as [|k] eqn:Ek; [lia|]. simpl app. cbn [take].
  destruct (decide (k ≤ length W3)%nat) as [Hk|Hk].
  { rewrite take_app_le by done. by apply (crash_during g d f). }
  rewrite (take_ge (W3 ++ _)) by (rewrite length_app; simpl; lia).
  by apply (crash_after g d f).
Qed.
End log.
