(* ===== verification/LogSpec.v ===== *)
(** * Transactions

    The invariant of the log between file-system operations, what [write] and
    [end_op] do, and what a crash at any point of a commit leaves behind. *)
From S2P Require Import Prelude Layout BufLru Bcache BcacheFacts Log LogFacts.

(** ** A device that remembers its writes *)

(** Its state after a sequence of writes. *)
Lemma write_all_log (t : tdev) ws :
  write_all t ws = mkTdev (t_base t) (t_log t ++ ws).
Proof.
  revert t. induction ws as [|[b x] ws IH]; intros t; simpl.
  - rewrite app_nil_r. by destruct t.
  - rewrite IH. simpl. by rewrite <- app_assoc.
Qed.

(** ** The log between operations *)
Section inv.
Context {D T : Type} `{!BlockDev D} `{!BlockDevLaws D} (dv : Z) `{!BufferCache D T dv}.
Implicit Types (g : Log) (c : T) (a : acache D).

(** A logged block keeps a reference of its own beside that of a handle. *)
Definition logged a b : Prop :=
  ∃ j x r (h : bool), a_bufs a !! b = Some (mkAbuf j x r h) ∧ (if h then 2 else 1) ≤ r < MAXREF.
Definition not_held a b : Prop :=
  match a_bufs a !! b with Some ab => ab_held ab = false | None => True end.

Lemma logged_pinned a b : logged a b → not_held a b → pinned a b.
Proof.
  intros (j & x & r & h & Hb & Hr). unfold not_held. rewrite Hb. simpl. intros ->.
  by exists j, x, r.
Qed.

(** The logged blocks are distinct, pinned and apart from the log area; the
    header on disk is empty; nothing else referenced would be lost. *)
Record log_inv g a : Prop := {
  li_area : log_area dv g a (homes (lh g));
  li_nodup : NoDup (homes (lh g));
  li_logged : ∀ hb, hb ∈ homes (lh g) → logged a hb;
  li_disk : header_ok (header_of (dev_read (a_disk a) (start g)));
  li_empty : len (header_of (dev_read (a_disk a) (start g))) = 0
}.

Lemma li_apart g a : log_inv g a → homes_apart (start g) (homes (lh g)).
Proof. intros I i Hi. by apply (la_apart _ _ _ _ (li_area _ _ I)). Qed.

(** *** Recording a block *)
Lemma homes_snoc h b :
  header_ok h → len h + 1 < LOGSIZE →
  homes (mkLogHeader (len h + 1) (<[Z.to_nat (len h) := b]> (blocknos h))) = homes h ++ [b].
Proof.
  intros (Hl & Hn & _) Hlt. unfold homes. simpl.
  replace (Z.to_nat (len h + 1)) with (S (Z.to_nat (len h))) by lia.
  erewrite take_S_r by (apply list_lookup_insert_eq; lia).
  by rewrite take_insert_ge by lia.
Qed.

Lemma header_ok_snoc h b :
  header_ok h → len h + 1 < LOGSIZE → in_u 32 b →
  header_ok (mkLogHeader (len h + 1) (<[Z.to_nat (len h) := b]> (blocknos h))).
Proof.
  intros (Hl & Hn & Hf) Hlt Hb. split_and!; simpl; [lia|lia|by rewrite length_insert|].
  by apply Forall_insert.
Qed.

(** [Log::write] on a block that is not logged yet. *)
Lemma write_new_run g c a b i x r :
  bc_rep c a → log_inv g a → 1 ≤ outstanding g → a_bufs a !! b = Some (mkAbuf i x r true) →
  1 ≤ r → r + 1 < MAXREF → b ∉ homes (lh g) → in_u 32 b →
  len (lh g) + 2 < LOGSIZE → len (lh g) + 2 < size_ g → outside (start g) b →
  ∃ c' g', Log.write dv (mkBuf i dv b i) (mkLogst g c) = Done (tt, mkLogst g' c') ∧
    bc_rep c' (a_set a b (mkAbuf i x r false)) ∧ log_inv g' (a_set a b (mkAbuf i x r false)) ∧
    homes (lh g') = homes (lh g) ++ [b] ∧ len (lh g') = len (lh g) + 1 ∧
    g' = Log.set_lh g (lh g').
Proof.
  intros R I Hout Hb Hr Hr' Hnin Hu Hl Hs Hoff. pose proof I as [[Hd Hok Hw Hap] Hnd Hpin Hdk He].
  unfold Log.write. rewrite bind_gets. cbn [lg b_blockno].
  rewrite (proj2 (Z.leb_gt LOGSIZE (len (lh g) + 1))), (proj2 (Z.leb_gt (size_ g) (len (lh g) + 1))) by lia.
  rewrite (proj2 (Z.ltb_ge (outstanding g) 1)) by lia. cbn [orb].
  rewrite bool_decide_eq_false_2 by done.
  rewrite (proj2 (Z.leb_gt LOGSIZE (len (lh g) + 2))), (proj2 (Z.leb_gt (size_ g) (len (lh g) + 2))) by lia.
  cbn [orb]. destruct (bc_pin_run c a b i x r R Hb ltac:(lia)) as (c1 & E1 & R1).
  mstep (cache_run _ g _ _ _ E1).
  rewrite (proj2 (Z.ltb_lt (len (lh g)) (LOGSIZE - 1))) by lia.
  unfold Log.upd. rewrite bind_modify. cbn [lg bc]. set (g' := Log.set_lh g _).
  destruct (bc_drop_shared _ _ b i x (r + 1) R1) as (c2 & E2 & R2); [apply lookup_insert_eq|lia|].
  exists c2, g'. replace (r + 1 - 1) with r in R2 by lia.
  assert (a_set (a_set a b (mkAbuf i x (r + 1) true)) b (mkAbuf i x r false) =
    a_set a b (mkAbuf i x r false)) as Ea.
  { unfold a_set. simpl. by rewrite insert_insert_eq. }
  rewrite Ea in R2. split_and!; [by apply cache_run|done| |apply homes_snoc; [done|lia]|done|done].
  assert (homes (lh g') = homes (lh g) ++ [b]) as Hh by (apply homes_snoc; [done|lia]).
  assert (∀ i0, 0 ≤ i0 < LOGSIZE → start g + i0 ≠ b) as Hne.
  { intros i0 Hi0 <-. unfold outside in Hoff. lia. }
  split.
  - rewrite Hh. split; [done|apply header_ok_snoc; [done|lia|done]|done|].
    intros i0 Hi0. destruct (Hap i0 Hi0) as [Ha Hb']. specialize (Hne i0 Hi0).
    split; [simpl; by rewrite lookup_insert_ne|]. intros [?|?%list_elem_of_singleton]%elem_of_app; done.
  - rewrite Hh. apply NoDup_app. split_and!; [done| |apply NoDup_singleton].
    intros z Hz ->%list_elem_of_singleton. done.
  - rewrite Hh. intros hb [Hin| ->%list_elem_of_singleton]%elem_of_app.
    + destruct (Hpin hb Hin) as (j & y & q & h & ? & ?). exists j, y, q, h. split; [|done].
      simpl. rewrite lookup_insert_ne; [done|]. congruence.
    + exists i, x, r, false. split; [apply lookup_insert_eq|lia].
  - done.
  - done.
Qed.

(** [Log::write] on a block that is logged already: the handle is dropped. *)
Lemma write_again_run g c a b i x r :
  bc_rep c a → log_inv g a → 1 ≤ outstanding g → a_bufs a !! b = Some (mkAbuf i x r true) →
  b ∈ homes (lh g) → len (lh g) + 1 < LOGSIZE → len (lh g) + 1 < size_ g →
  ∃ c', Log.write dv (mkBuf i dv b i) (mkLogst g c) = Done (tt, mkLogst g c') ∧
    bc_rep c' (a_set a b (mkAbuf i x (r - 1) false)) ∧
    log_inv g (a_set a b (mkAbuf i x (r - 1) false)).
Proof.
  intros R I Hout Hb Hin Hl Hs. pose proof I as [[Hd Hok Hw Hap] Hnd Hpin Hdk He].
  unfold Log.write. rewrite bind_gets. cbn [lg b_blockno].
  rewrite (proj2 (Z.leb_gt LOGSIZE (len (lh g) + 1))), (proj2 (Z.leb_gt (size_ g) (len (lh g) + 1))) by lia.
  rewrite (proj2 (Z.ltb_ge (outstanding g) 1)) by lia. cbn [orb].
  rewrite bool_decide_eq_true_2 by done.
  destruct (Hpin b Hin) as (j0 & x0 & r0 & h0 & Hb0 & Hr0). rewrite Hb in Hb0. simplify_eq.
  destruct (bc_drop_shared _ _ b j0 x0 r0 R Hb) as (c2 & E2 & R2); [lia|].
  exists c2. split_and!; [by apply cache_run|done|].
  assert (∀ i0, 0 ≤ i0 < LOGSIZE → start g + i0 ≠ b) as Hne.
  { intros i0 Hi0 <-. by apply (Hap i0 Hi0). }
  split; [|done| |done|done].
  - split; [done..|]. intros i0 Hi0. destruct (Hap i0 Hi0) as [? ?]. specialize (Hne i0 Hi0).
    split; [simpl; by rewrite lookup_insert_ne|done].
  - intros hb Hhb. destruct (decide (hb = b)) as [->|].
    + exists j0, x0, (r0 - 1), false. split; [apply lookup_insert_eq|lia].
    + destruct (Hpin hb Hhb) as (j & y & q & h & ? & ?). exists j, y, q, h.
      split; [|done]. simpl. by rewrite lookup_insert_ne.
Qed.

Lemma commit_header_empty (d : D) g (f : Z → block) :
  header_ok (lh g) →
  header_of (dev_read (write_all d (commit_writes g f (dev_read d (start g)))) (start g)) =
    mkLogHeader 0 (blocknos (lh g)).
Proof.
  intros Hok. unfold commit_writes. rewrite !app_assoc, write_all_app.
  set (h2 := put_len 0 _). change (write_all ?d [(?b, ?x)]) with (dev_write d b x).
  rewrite dev_read_write, decide_True by done. unfold h2.
  rewrite header_put_len by (unfold LOGSIZE, MAXOPBLOCKS; lia). by rewrite put_header_of.
Qed.

(** The last operation to end commits. *)
Lemma end_op_run g c a :
  let d' := write_all (a_disk a) (commit_writes g (a_view a) (dev_read (a_disk a) (start g))) in
  bc_rep c a → log_inv g a → outstanding g = 1 → commiting g = false → 0 < len (lh g) →
  Z.of_nat (size (a_bufs a)) < NBUF → (∀ hb, hb ∈ homes (lh g) → not_held a hb) →
  ∃ c' g', Log.end_op dv (mkLogst g c) = Done (tt, mkLogst g' c') ∧
    bc_rep c' (mkAcache (foldl unpin_one (a_bufs a) (homes (lh g))) d') ∧
    log_inv g' (mkAcache (foldl unpin_one (a_bufs a) (homes (lh g))) d') ∧
    homes (lh g') = [] ∧ outstanding g' = 0 ∧ commiting g' = false ∧ start g' = start g.
Proof.
  intros d' R I Hout Hcom Hlen Hsz Hheld. pose proof I as [[Hd Hok Hw Hap] Hnd Hpin Hdk He].
  unfold Log.end_op. rewrite bind_gets. cbn [lg]. rewrite bind_usub by lia.
  unfold Log.upd. rewrite bind_modify. cbn [lg bc]. rewrite Hcom, Hout.
  change (1 - 1 =? 0) with true. cbv iota. rewrite bind_modify. cbn [lg bc].
  set (g1 := Log.set_commiting _ true).
  destruct (commit_run dv g1 c a R) as (c' & E & R').
  { by split. } { done. } { done. } { done. } { done. }
  { intros hb Hin. apply logged_pinned; [by apply Hpin|by apply Hheld]. }
  mstep E. eexists c', _. split; [done|]. change (start g1) with (start g) in R'.
  change (homes (lh g1)) with (homes (lh g)) in R'.
  change (commit_writes g1) with (commit_writes g) in R'. fold d' in R'.
  split_and!; [exact R'| |done..].
  pose proof (commit_header_empty (a_disk a) g (a_view a) Hok) as Hhd. fold d' in Hhd.
  pose proof Hok as (? & ? & ?).
  assert (header_ok (mkLogHeader 0 (blocknos (lh g)))) as Hok0.
  { split_and!; [simpl; unfold LOGSIZE, MAXOPBLOCKS; lia..|done|done]. }
  split.
  - split; [done|done|done|]. intros i Hi. split; [|cbn; set_solver].
    destruct (Hap i Hi) as [? ?]. cbn [a_bufs]. by rewrite foldl_unpin_ne.
  - constructor.
  - intros hb Hin. by apply elem_of_nil in Hin.
  - cbn [a_disk start]. change (header_ok (header_of (dev_read d' (start g)))). by rewrite Hhd.
  - change (len (header_of (dev_read d' (start g))) = 0). by rewrite Hhd.
Qed.

Lemma foldl_unpin_in (m : gmap Z abuf) hs b :
  NoDup hs → b ∈ hs → foldl unpin_one m hs !! b = unpin_one m b !! b.
Proof.
  revert m. induction hs as [|hb hs IH]; intros m Hnd Hin; [by apply elem_of_nil in Hin|].
  apply NoDup_cons in Hnd as [Hn Hnd]. simpl. destruct (decide (b = hb)) as [->|Hne].
  - by rewrite foldl_unpin_ne.
  - rewrite IH by set_solver. unfold unpin_one at 1 3. rewrite unpin_one_ne by congruence.
    destruct (m !! b) as [[j x r h]|] eqn:Eb.
    + destruct (r =? 1); [by rewrite !lookup_delete_eq|by rewrite !lookup_insert_eq].
    + rewrite unpin_one_ne by congruence. done.
Qed.

(** The disk after a complete commit. *)
Lemma committed_disk g a :
  log_inv g a → ∀ b, outside (start g) b →
  dev_read (write_all (a_disk a) (commit_writes g (a_view a) (dev_read (a_disk a) (start g)))) b =
    installed (a_disk a) (homes (lh g)) (a_view a) b.
Proof.
  intros I b Hb. pose proof I as [[Hd Hok Hw Hap] Hnd Hpin Hdk He].
  destruct (crash_after g (a_disk a) (a_view a)) as [_ _ Hv]; [done|done|by apply (li_apart g a)|done|done|].
  rewrite <- Hv by done. f_equal. symmetry. apply recovered_empty.
  by rewrite commit_header_empty.
Qed.

Lemma commit_view g a b :
  let d' := write_all (a_disk a) (commit_writes g (a_view a) (dev_read (a_disk a) (start g))) in
  log_inv g a → outside (start g) b →
  a_view (mkAcache (foldl unpin_one (a_bufs a) (homes (lh g))) d') b = a_view a b.
Proof.
  intros d' I Hb. pose proof (committed_disk g a I b Hb) as Hd. fold d' in Hd.
  unfold installed in Hd. unfold a_view at 1. cbn [a_bufs a_disk].
  destruct (decide (b ∈ homes (lh g))) as [Hin|Hin].
  - destruct (li_logged _ _ I b Hin) as (j & x & r & h & Eb & _).
    rewrite foldl_unpin_in by (done || apply I). unfold unpin_one. rewrite Eb.
    destruct (r =? 1); [by rewrite lookup_delete_eq|].
    rewrite lookup_insert_eq. unfold a_view. by rewrite Eb.
  - rewrite foldl_unpin_ne by done. unfold a_view.
    destruct (a_bufs a !! b) as [ab|]; [done|]. exact Hd.
Qed.

(** Committing. When the last outstanding operation ends, [end_op]
    completes without a panic; afterwards every logged block is on disk with
    the contents the operations gave it, no other block outside the log
    changed on disk, reads through the cache give what they gave before, and
    the log is empty again and ready for the next operation. *)
Theorem end_op_commits g c a :
  bc_rep c a → log_inv g a → outstanding g = 1 → commiting g = false → 0 < len (lh g) →
  Z.of_nat (size (a_bufs a)) < NBUF → (∀ hb, hb ∈ homes (lh g) → not_held a hb) →
  ∃ c' g' a', Log.end_op dv (mkLogst g c) = Done (tt, mkLogst g' c') ∧
    bc_rep c' a' ∧ log_inv g' a' ∧ homes (lh g') = [] ∧ Log.admitted g' = true ∧
    (∀ b, outside (start g) b → dev_read (a_disk a') b =
       if decide (b ∈ homes (lh g)) then a_view a b else dev_read (a_disk a) b) ∧
    (∀ b, outside (start g) b → a_view a' b = a_view a b).
Proof.
  intros R I Hout Hcom Hlen Hsz Hheld.
  destruct (end_op_run g c a R I Hout Hcom Hlen Hsz Hheld)
    as (c' & g' & E & R' & I' & Hh' & Ho' & Hc' & Hs').
  exists c', g', (mkAcache (foldl unpin_one (a_bufs a) (homes (lh g)))
    (write_all (a_disk a) (commit_writes g (a_view a) (dev_read (a_disk a) (start g))))).
  split_and!; [done|done|done|done| | |].
  - unfold Log.admitted. rewrite Hc', Ho'. pose proof (la_ok _ _ _ _ (li_area _ _ I')) as Hok'.
    apply length_homes in Hok'. rewrite Hh' in Hok'. simpl in Hok'. rewrite <- Hok'. done.
  - intros b Hb. by apply committed_disk.
  - intros b Hb. by apply commit_view.
Qed.

(** Recording. A handle passed to [Log::write] inside an operation, with
    room in the log, is consumed; the block is logged exactly once however
    often it is written, it stays referenced until the commit, its contents
    and every other block read as before, and the log's invariant holds. *)
Theorem log_write_records g c a b i x r :
  bc_rep c a → log_inv g a → 1 ≤ outstanding g → a_bufs a !! b = Some (mkAbuf i x r true) →
  1 ≤ r → r + 1 < MAXREF → in_u 32 b → outside (start g) b →
  len (lh g) + 2 < LOGSIZE → len (lh g) + 2 < size_ g →
  ∃ c' g' a', Log.write dv (mkBuf i dv b i) (mkLogst g c) = Done (tt, mkLogst g' c') ∧
    bc_rep c' a' ∧ log_inv g' a' ∧ not_held a' b ∧ b ∈ homes (lh g') ∧
    homes (lh g') = (if decide (b ∈ homes (lh g)) then homes (lh g) else homes (lh g) ++ [b]) ∧
    a_disk a' = a_disk a ∧ (∀ b', a_view a' b' = a_view a b').
Proof.
  intros R I Hout Hb Hr Hr' Hu Hoff Hl Hs.
  assert (∀ r', ∀ b', a_view (a_set a b (mkAbuf i x r' false)) b' = a_view a b') as Hv.
  { intros r' b'. unfold a_view, a_set. cbn [a_bufs a_disk].
    destruct (decide (b = b')) as [<-|]; [by rewrite lookup_insert_eq, Hb|by rewrite lookup_insert_ne]. }
  destruct (decide (b ∈ homes (lh g))) as [Hin|Hin].
  - destruct (write_again_run g c a b i x r) as (c' & E & R' & I'); [done..|lia|lia|].
    exists c', g, (a_set a b (mkAbuf i x (r - 1) false)). split_and!; try done.
    unfold not_held, a_set. cbn [a_bufs]. by rewrite lookup_insert_eq.
  - destruct (write_new_run g c a b i x r) as (c' & g' & E & R' & I' & Hh & _); [done..|].
    exists c', g', (a_set a b (mkAbuf i x r false)). split_and!; try done.
    + unfold not_held, a_set. cbn [a_bufs]. by rewrite lookup_insert_eq.
    + rewrite Hh. apply elem_of_app. right. by apply list_elem_of_singleton.
Qed.
End inv.

(** C1. Crash atomicity. Let the disk record its writes. Committing performs
    some sequence of writes; whatever prefix of it reached the disk when the
    machine stopped, booting (an empty cache, [Log::init] on the disk as it
    is) completes and leaves every block outside the log area either all as
    before the commit or all as after it, and the latter if every write
    arrived. *)
Theorem commit_crash_atomic dv g (c : bcache tdev) (a : acache tdev) nlog :
  dv ≠ 0 → cache_rep dv c a → log_inv dv g a → outstanding g = 1 → commiting g = false →
  0 < len (lh g) → Z.of_nat (size (a_bufs a)) < NBUF →
  (∀ hb, hb ∈ homes (lh g) → not_held a hb) →
  ∃ c' g' ws, Log.end_op dv (mkLogst g c) = Done (tt, mkLogst g' c') ∧
    t_log (disk c') = t_log (disk c) ++ ws ∧
    ∀ n, let crashed := mkTdev (t_base (disk c)) (t_log (disk c) ++ take n ws) in
      ∃ g2 c2, Log.init dv dv (start g) nlog (mkLogst Log.unint (BCache.new crashed)) =
          Done (tt, mkLogst g2 c2) ∧
        (((n < length ws)%nat ∧
            ∀ b, outside (start g) b → dev_read (disk c2) b = dev_read (disk c) b) ∨
         (∀ b, outside (start g) b → dev_read (disk c2) b =
            installed (disk c) (homes (lh g)) (a_view a) b)).
Proof.
  intros Hdv R I Hout Hcom Hlen Hsz Hheld.
  destruct (end_op_run (BufferCache0 := bcache_BufferCache dv) dv g c a R I Hout Hcom Hlen Hsz Hheld)
    as (c' & g' & E & [l' R'] & _).
  pose proof I as [[Hd Hok Hw Hap] Hnd Hpin Hdk He].
  assert (disk c = a_disk a) as Hdisk by (destruct R as [l C]; apply C).
  set (ws := commit_writes g (a_view a) (dev_read (a_disk a) (start g))) in *.
  exists c', g', ws. rewrite Hdisk. split_and!; [done| |].
  { rewrite (co_disk _ _ _ _ R'). cbn [a_disk]. by rewrite write_all_log. }
  intros n crashed.
  assert (crashed = write_all (a_disk a) (take n ws)) as Hcr by (by rewrite write_all_log).
  assert (recovers_to (start g) crashed (dev_read (a_disk a)) ∧ (n < length ws)%nat ∨
    recovers_to (start g) crashed (installed (a_disk a) (homes (lh g)) (a_view a))) as Hcase.
  { rewrite Hcr. destruct (decide (n < length ws)%nat).
    - destruct (crash_cases g (a_disk a) (a_view a) n Hok Hnd (li_apart dv g a I) Hdk He); auto.
    - right. rewrite take_ge by lia. apply crash_after; [done|done|by apply (li_apart dv g a)|done|done]. }
  set (g0 := mkLog (start g) nlog dv 0 false (lh Log.unint)).
  assert (header_ok (header_of (dev_read crashed (start g))) ∧
    homes_apart (start g) (homes (header_of (dev_read crashed (start g))))) as [Hokc Hapc].
  { destruct Hcase as [[[? ? ?] _]|[? ? ?]]; done. }
  destruct (recover_run dv g0 (BCache.new crashed) crashed) as (g2 & c2 & E2 & _ & [l2 R2]);
    [by apply new_cache_rep|done|done|done|apply Hw|apply Hw|].
  exists g2, c2. split; [exact E2|]. rewrite (co_disk _ _ _ _ R2). cbn [a_disk start].
  destruct Hcase as [[[_ _ Hv] Hn]|[_ _ Hv]]; [left|right]; done.
Qed.

(** ** A first transaction *)
Definition t0 : tdev := mkTdev ∅ [].
Definition g0 : Log := mkLog 2 30 1 1 false (lh Log.unint).

Lemma boot_inv m :
  (∀ i, 0 ≤ i < LOGSIZE → m !! (2 + i) = None) → log_inv 1 g0 (mkAcache m t0).
Proof.
  intros Hm.
  assert (header_ok (lh Log.unint) ∧ header_ok (header_of zero_block)) as [Hu Hz].
  { split; (split_and!; [by vm_compute|by vm_compute|by vm_compute|]);
      apply (bool_decide_unpack _); by vm_compute. }
  split; [|constructor| |exact Hz|done].
  - split; [done|exact Hu|by vm_compute|]. intros i Hi. split; [by apply Hm|cbn; apply not_elem_of_nil].
  - intros hb Hin. by apply elem_of_nil in Hin.
Qed.

(** A handle on block 100 of the empty disk, with one changed byte. *)
Definition x0 : block := <[0%nat := 7]> zero_block.
Lemma boot_handle :
  ∃ c i, cache_rep 1 c (mkAcache {[100 := mkAbuf i x0 1 true]} t0) ∧
    log_inv 1 g0 (mkAcache {[100 := mkAbuf i x0 1 true]} t0).
Proof.
  destruct (bc_read_miss (BufferCache := bcache_BufferCache 1) (BCache.new t0) (mkAcache ∅ t0) 100)
    as (c1 & i & _ & R1); [by apply new_cache_rep|done|by vm_compute|].
  destruct (bc_set_run (BufferCache := bcache_BufferCache 1) c1 _ 100 i zero_block 1 x0 R1)
    as (c2 & _ & R2); [apply lookup_insert_eq|].
  unfold a_set in R2. cbn [a_bufs a_disk] in R2. rewrite insert_insert_eq, insert_empty in R2.
  exists c2, i. split; [exact R2|]. apply boot_inv. intros j Hj.
  apply lookup_singleton_ne. unfold LOGSIZE, MAXOPBLOCKS in *. lia.
Qed.

Lemma log_write_records_witness :
  ∃ c c' g' i, Log.write 1 (mkBuf i 1 100 i) (mkLogst g0 c) = Done (tt, mkLogst g' (c' : bcache tdev)) ∧
    homes (lh g') = [100].
Proof.
  destruct boot_handle as (c & i & R & I).
  destruct (log_write_records (BufferCache0 := bcache_BufferCache 1) 1 g0 c _ 100 i x0 1 R I)
    as (c' & g' & a' & E & _ & _ & _ & _ & Hh & _);
    [by vm_compute|apply lookup_singleton_eq|by vm_compute|by vm_compute|by vm_compute|
     by intros [_ H]; vm_compute in H|by vm_compute|by vm_compute|].
  exists c, c', g', i. split; [exact E|]. exact Hh.
Defined.

(** The log with block 100 recorded and its handle dropped. *)
Lemma boot_logged :
  ∃ c g a, cache_rep 1 c a ∧ log_inv 1 g a ∧ outstanding g = 1 ∧ commiting g = false ∧
    0 < len (lh g) ∧ Z.of_nat (size (a_bufs a)) < NBUF ∧
    (∀ hb, hb ∈ homes (lh g) → not_held a hb) ∧ homes (lh g) = [100] ∧ start g = 2 ∧
    disk c = t0 ∧ a_view a 100 = x0.
Proof.
  destruct boot_handle as (c & i & R & I).
  destruct (write_new_run (BufferCache0 := bcache_BufferCache 1) 1 g0 c _ 100 i x0 1 R I)
    as (c' & g' & E & R' & I' & Hh & Hl & Hg);
    [by vm_compute|apply lookup_singleton_eq|by vm_compute|by vm_compute|by apply not_elem_of_nil|
     by vm_compute|by vm_compute|by vm_compute|by intros [_ H]; vm_compute in H|].
  assert (outstanding g' = 1 ∧ commiting g' = false ∧ start g' = 2) as (Ho & Hc & Hs).
  { split_and!; by rewrite Hg. }
  eexists c', g', _. split_and!; [exact R'|exact I'|done|done| | | |done|done| |].
  - rewrite Hl. by vm_compute.
  - unfold a_set. cbn [a_bufs]. rewrite insert_singleton_eq. by vm_compute.
  - rewrite Hh. intros hb ->%list_elem_of_singleton. unfold not_held, a_set. cbn [a_bufs].
    by rewrite lookup_insert_eq.
  - destruct R' as [l C]. apply C.
  - unfold a_view, a_set. cbn [a_bufs]. by rewrite lookup_insert_eq.
Qed.

Lemma end_op_commits_witness :
  ∃ g c c' g' a', Log.end_op 1 (mkLogst g c) = Done (tt, mkLogst g' (c' : bcache tdev)) ∧
    cache_rep 1 c' a' ∧ dev_read (a_disk a') 100 = x0.
Proof.
  destruct boot_logged as (c & g & a & R & I & Ho & Hc & Hl & Hsz & Hheld & Hh & Hs & _ & Hx).
  destruct (end_op_commits (BufferCache0 := bcache_BufferCache 1) 1 g c a R I Ho Hc Hl Hsz Hheld)
    as (c' & g' & a' & E & R' & _ & _ & _ & Hd & _).
  exists g, c, c', g', a'. split; [exact E|]. split; [exact R'|].
  assert (outside (start g) 100) as Hout by (rewrite Hs; intros [_ H]; by vm_compute in H).
  rewrite Hd by done. rewrite decide_True; [exact Hx|]. rewrite Hh. set_solver.
Defined.

Lemma commit_crash_atomic_witness :
  ∃ g c c' g' ws, Log.end_op 1 (mkLogst g c) = Done (tt, mkLogst g' (c' : bcache tdev)) ∧
    t_log (disk c') = ws ∧
    ∃ g2 c2, Log.init 1 1 2 30 (mkLogst Log.unint (BCache.new (mkTdev ∅ (take 1 ws)))) =
      Done (tt, mkLogst g2 (c2 : bcache tdev)) ∧
      (dev_read (disk c2) 100 = zero_block ∨ dev_read (disk c2) 100 = x0).
Proof.
  destruct boot_logged as (c & g & a & R & I & Ho & Hc & Hl & Hsz & Hheld & Hh & Hs & Hd & Hx).
  destruct (commit_crash_atomic 1 g c a 30 ltac:(done) R I Ho Hc Hl Hsz Hheld)
    as (c' & g' & ws & E & Hlog & Hcr).
  exists g, c, c', g', ws. split; [exact E|]. rewrite Hd in *. split; [exact Hlog|].
  destruct (Hcr 1%nat) as (g2 & c2 & E2 & Hcase). rewrite Hs in E2, Hcase.
  exists g2, c2. split; [exact E2|].
  assert (outside 2 100) as Hout by (intros [_ H]; vm_compute in H; done).
  destruct Hcase as [[_ Hv]|Hv]; [left|right]; rewrite Hv by done; [done|].
  unfold installed. rewrite Hh, decide_True by set_solver. exact Hx.
Defined.

(** ** Admission *)

(** An operation changes block [b]. *)
Definition touch (b : Z) : M (logst (bcache tdev)) unit :=
  buf ← Log.cache (BCache.read 1 b); Log.write 1 buf.

(** Three operations that overlap; each touches at most [MAXOPBLOCKS] blocks
    and each is admitted by [begin_op]. *)
Definition three_ops : M (logst (bcache tdev)) unit :=
  Log.begin_op ;;
  Log.begin_op ;;
  for_each (seqZ 100 9) touch ;;
  Log.end_op 1 ;;
  Log.begin_op ;;
  for_each (seqZ 109 10) touch ;;
  for_each (seqZ 119 10) touch.

