(* ===== verification/Spin.v ===== *)
(** * Harts, interrupts and spin locks

    [arch/riscv/register/sstatus.rs] (the interrupt enable bit),
    [process/context.rs] (the registers saved by a context switch),
    [process/cpu.rs] (per-hart state, [push_off] and [pop_off], the guards of
    [sched]) and [lock/mutex.rs] (the spin lock). Each
    operation runs to its end on one hart; SpinSafe has the theorems and the
    interleavings. *)
From S2P Require Import Prelude.
From S2P Require Import Layout.

(** ** The supervisor status register *)
Definition SSTATUS_SPP : Z := Z.shiftl 1 8.
Definition SSTATUS_SPIE : Z := Z.shiftl 1 5.
Definition SSTATUS_SIE : Z := Z.shiftl 1 1.

Definition is_from_supervisor (st : Z) : bool := negb (Z.land st SSTATUS_SPP =? 0).
Definition is_from_user (st : Z) : bool := Z.land st SSTATUS_SPP =? 0.
Definition clear_spp (st : Z) : Z := Z.land st (unot 64 SSTATUS_SPP).
Definition user_intr_on (st : Z) : Z := Z.lor st SSTATUS_SPIE.
(** The values [intr_on] and [intr_off] write, and what [intr_get] tests. *)
Definition sie_on (st : Z) : Z := Z.lor st SSTATUS_SIE.
Definition sie_off (st : Z) : Z := Z.land st (unot 64 SSTATUS_SIE).
Definition sie_get (st : Z) : bool := negb (Z.land st SSTATUS_SIE =? 0).

(** ** Saved registers *)
Record Context := mkContext { c_ra : Z; c_sp : Z; c_s : list Z (* s0 to s11 *) }.

Module Context.
Definition new : Context := mkContext 0 0 (replicate 12 0).
Definition write_zero (c : Context) : Context := mkContext 0 0 (replicate 12 0).
Definition write_ra (c : Context) (ra : Z) : Context := mkContext ra (c_sp c) (c_s c).
Definition write_sp (c : Context) (sp : Z) : Context := mkContext (c_ra c) sp (c_s c).
End Context.

(** ** Harts and locks *)
Record CPU := mkCPU {
  process : option nat;   (* index of the process that runs here *)
  context : Context;
  noff : Z;               (* depth of push_off nesting *)
  intena : bool           (* were interrupts enabled before push_off? *)
}.

Module CPU.
Definition new : CPU := mkCPU None Context.new 0 false.
Definition set_proc (c : CPU) (p : option nat) : CPU :=
  mkCPU p (context c) (noff c) (intena c).
End CPU.

Definition set_noff (c : CPU) (n : Z) : CPU := mkCPU (process c) (context c) n (intena c).
Definition set_intena (c : CPU) (b : bool) : CPU := mkCPU (process c) (context c) (noff c) b.

(** A hart: its status register and the entry of [CPU_MANAGER] its [tp]
    selects. *)
Record hart := mkHart { sstatus : Z; cpu : CPU }.

(** The lock word of a [Mutex], apart from the data it guards. *)
Record mutex := mkMutex { locked : bool; cpu_id : Z }.

(** The spin locks of the kernel that the process layer takes. *)
Inductive lockid :=
| LProc (i : nat)       (* [PROC_MANAGER.proc[i].meta] *)
| LWait                 (* [PROC_MANAGER.wait_list] *)
| LIdxPids              (* [PROC_MANAGER.idx_pids] *)
| LSigsets              (* [SIGNALS.sigsets_received] *)
| LTicks                (* [TICKS] *)
| LOther (n : nat).     (* any other lock *)

#[global] Instance lockid_eq_dec : EqDecision lockid.
Proof. solve_decision. Defined.
#[global] Instance lockid_countable : Countable lockid.
Proof.
  refine (inj_countable'
    (λ l, match l with
          | LProc i => (0%nat, i) | LWait => (1%nat, 0%nat) | LIdxPids => (2%nat, 0%nat)
          | LSigsets => (3%nat, 0%nat) | LTicks => (4%nat, 0%nat) | LOther n => (5%nat, n) end)
    (λ x, match x with
          | (0%nat, i) => LProc i | (1%nat, _) => LWait | (2%nat, _) => LIdxPids
          | (3%nat, _) => LSigsets | (4%nat, _) => LTicks | (_, n) => LOther n end) _).
  by intros [].
Defined.

Record mach := mkMach { harts : list hart; mutexes : gmap lockid mutex }.

Module Mutex0.
(** [Mutex::new]: every lock starts like this. *)
Definition new : mutex := mkMutex false (-1).
End Mutex0.

Definition mutex_of (m : mach) (l : lockid) : mutex := default Mutex0.new (mutexes m !! l).
Definition set_mutex (l : lockid) (x : mutex) (m : mach) : mach :=
  mkMach (harts m) (<[l := x]> (mutexes m)).
Definition set_hart (h : nat) (x : hart) (m : mach) : mach :=
  mkMach (<[h := x]> (harts m)) (mutexes m).

(** The hart that executes; [CPU_MANAGER.cpus[cpuid()]] panics out of range. *)
Definition hart_at (h : nat) : M mach hart :=
  m ← get; unwrap (harts m !! h) "index out of bounds".
Definition put_hart (h : nat) (x : hart) : M mach unit := modify (set_hart h x).

Definition mycpu (h : nat) : M mach CPU := x ← hart_at h; mret (cpu x).
Definition put_cpu (h : nat) (c : CPU) : M mach unit :=
  x ← hart_at h; put_hart h (mkHart (sstatus x) c).

Definition intr_get (h : nat) : M mach bool := x ← hart_at h; mret (sie_get (sstatus x)).
Definition intr_on (h : nat) : M mach unit :=
  x ← hart_at h; put_hart h (mkHart (sie_on (sstatus x)) (cpu x)).
Definition intr_off (h : nat) : M mach unit :=
  x ← hart_at h; put_hart h (mkHart (sie_off (sstatus x)) (cpu x)).

Definition push_off (h : nat) : M mach unit :=
  old_enable ← intr_get h;
  intr_off h ;;
  c ← mycpu h;
  (if noff c =? 0 then put_cpu h (set_intena c old_enable) else mret tt) ;;
  c ← mycpu h;
  n ← uadd 64 (noff c) 1;
  put_cpu h (set_noff c n).

Definition pop_off (h : nat) : M mach unit :=
  on ← intr_get h;
  assert (negb on) "pop_off(): interruptable" ;;
  c ← mycpu h;
  assert (negb (noff c <? 1)) "pop_off(): count not match" ;;
  n ← usub 64 (noff c) 1;
  put_cpu h (set_noff c n) ;;
  if (n =? 0) && intena c then intr_on h else mret tt.

Definition myproc (h : nat) : M mach (option nat) :=
  push_off h ;; c ← mycpu h; pop_off h ;; mret (process c).

(** ** The spin lock *)
Module Mutex.

Definition is_locked (l : lockid) : M mach bool := gets (λ m, locked (mutex_of m l)).
Definition holding (h : nat) (l : lockid) : M mach bool :=
  gets (λ m, locked (mutex_of m l) && (cpu_id (mutex_of m l) =? Z.of_nat h)).

(** The compare-exchange of [try_lock] and [try_lock_weak], then the store of
    the hart's id. (The weak form may also fail on a free lock; the loop of
    [lock] then tries again.) *)
Definition try_lock_weak (h : nat) (l : lockid) : M mach bool :=
  b ← is_locked l;
  if (b : bool) then mret false
  else modify (set_mutex l (mkMutex true (Z.of_nat h))) ;; mret true.

Definition try_lock (h : nat) (l : lockid) : M mach bool :=
  push_off h ;;
  ok ← try_lock_weak h l;
  if (ok : bool) then mret true else pop_off h ;; mret false.

(** On a lock another hart holds, the loop spins for as long as that hart
    keeps it: run on its own, the operation is blocked ([Hang]). *)
Definition lock (h : nat) (l : lockid) : M mach unit :=
  push_off h ;;
  held ← holding h l;
  assert (negb held) "mutex acquire." ;;
  ok ← try_lock_weak h l;
  if (ok : bool) then mret tt else hang.

(** [force_unlock], and with it the drop of a [MutexGuard]. *)
Definition force_unlock (h : nat) (l : lockid) : M mach unit :=
  held ← holding h l;
  assert held "Spinmutex release" ;;
  m ← get;
  put (set_mutex l (mkMutex (locked (mutex_of m l)) (-1)) m) ;;
  m ← get;
  put (set_mutex l (mkMutex false (cpu_id (mutex_of m l))) m) ;;
  pop_off h.

End Mutex.

(** ** The status bits *)
Lemma sie_bit st : sie_get st = Z.testbit st 1.
Proof.
  unfold sie_get, SSTATUS_SIE. change (Z.shiftl 1 1) with (2 ^ 1).
  rewrite <- (land_pow2_pos st 1) by lia.
  destruct (Z.eqb_spec (Z.land st (2 ^ 1)) 0) as [->|Hn]; [done|].
  symmetry. apply Z.ltb_lt. assert (0 ≤ Z.land st (2 ^ 1)); [|lia].
  apply Z.land_nonneg. right. done.
Qed.
Lemma sie_off_bits st i :
  in_u 64 st → 0 ≤ i → Z.testbit (sie_off st) i = Z.testbit st i && negb (i =? 1).
Proof.
  intros Hst Hi. unfold sie_off, unot, SSTATUS_SIE. change (Z.shiftl 1 1) with (2 ^ 1).
  rewrite Z.land_spec, Z.ldiff_spec, Z.pow2_bits_eqb, Z.testbit_ones_nonneg by lia.
  rewrite (Z.eqb_sym 1 i). destruct (Z.ltb_spec i 64); [done|].
  by rewrite (high_bits_zero st 64).
Qed.
Lemma sie_on_bits st i : 0 ≤ i → Z.testbit (sie_on st) i = Z.testbit st i || (i =? 1).
Proof.
  intros Hi. unfold sie_on, SSTATUS_SIE. change (Z.shiftl 1 1) with (2 ^ 1).
  by rewrite Z.lor_spec, Z.pow2_bits_eqb, (Z.eqb_sym 1 i) by lia.
Qed.
Lemma sie_get_off st : in_u 64 st → sie_get (sie_off st) = false.
Proof. intros. by rewrite sie_bit, sie_off_bits, andb_false_r by done. Qed.
Lemma sie_get_on st : sie_get (sie_on st) = true.
Proof. by rewrite sie_bit, sie_on_bits, orb_true_r by done. Qed.
Lemma sie_on_off st : in_u 64 st → sie_get st = true → sie_on (sie_off st) = st.
Proof.
  rewrite sie_bit. intros Hst Hs. apply Z.bits_inj'. intros i Hi.
  rewrite sie_on_bits, sie_off_bits by done.
  destruct (Z.eqb_spec i 1) as [->|]; [by rewrite Hs|by rewrite andb_true_r, orb_false_r].
Qed.
Lemma sie_off_id st : in_u 64 st → sie_get st = false → sie_off st = st.
Proof.
  rewrite sie_bit. intros Hst Hs. apply Z.bits_inj'. intros i Hi.
  rewrite sie_off_bits by done.
  destruct (Z.eqb_spec i 1) as [->|]; [by rewrite Hs|by rewrite andb_true_r].
Qed.
Lemma sie_off_range st : in_u 64 st → in_u 64 (sie_off st).
Proof.
  intros Hst. assert (0 ≤ sie_off st) as Hn by (apply Z.land_nonneg; left; apply Hst).
  split; [done|]. apply bits_bound; [done..|]. intros i Hi.
  rewrite sie_off_bits by (done || lia). by rewrite (high_bits_zero st 64).
Qed.
Lemma sie_on_range st : in_u 64 st → in_u 64 (sie_on st).
Proof. intros. by apply lor_in_u. Qed.

(** ** One hart: nesting of [push_off] and [pop_off] *)
Definition pushed (x : hart) : hart :=
  mkHart (sie_off (sstatus x))
    (mkCPU (process (cpu x)) (context (cpu x)) (noff (cpu x) + 1)
       (if noff (cpu x) =? 0 then sie_get (sstatus x) else intena (cpu x))).
Definition popped (x : hart) : hart :=
  mkHart (if (noff (cpu x) - 1 =? 0) && intena (cpu x) then sie_on (sstatus x) else sstatus x)
    (set_noff (cpu x) (noff (cpu x) - 1)).

Lemma hart_at_run h m x : harts m !! h = Some x → hart_at h m = Done (x, m).
Proof. intros E. unfold hart_at. rewrite bind_get. by rewrite E. Qed.
Lemma set_hart_lookup h m x y :
  harts m !! h = Some x → harts (set_hart h y m) !! h = Some y.
Proof. intros E. simpl. apply list_lookup_insert_eq. by eapply lookup_lt_Some. Qed.
Lemma set_hart_other h h' m y : h ≠ h' → harts (set_hart h y m) !! h' = harts m !! h'.
Proof. intros. simpl. by apply list_lookup_insert_ne. Qed.
Lemma set_hart_twice h m x y : set_hart h y (set_hart h x m) = set_hart h y m.
Proof. unfold set_hart. simpl. by rewrite list_insert_insert_eq. Qed.
Lemma set_hart_mutex_of h x m l : mutex_of (set_hart h x m) l = mutex_of m l.
Proof. done. Qed.
Lemma set_mutex_of l x m l' :
  mutex_of (set_mutex l x m) l' = if decide (l = l') then x else mutex_of m l'.
Proof.
  unfold mutex_of, set_mutex. simpl. case_decide as E.
  - subst. by rewrite lookup_insert_eq.
  - by rewrite lookup_insert_ne.
Qed.
#[export] Hint Resolve set_hart_lookup hart_at_run : rxos.

Lemma put_cpu_run h m x c :
  harts m !! h = Some x →
  put_cpu h c m = Done (tt, set_hart h (mkHart (sstatus x) c) m).
Proof. intros E. unfold put_cpu. mstep (hart_at_run _ _ _ E). done. Qed.

Lemma push_off_eq h m x :
  harts m !! h = Some x →
  push_off h m = if noff (cpu x) + 1 <? 2 ^ 64 then Done (tt, set_hart h (pushed x) m)
                 else Panic "attempt to add with overflow".
Proof.
  intros E. unfold push_off, intr_get, intr_off, mycpu.
  rewrite !bind_assoc. mstep (hart_at_run _ _ _ E). rewrite bind_ret_l.
  rewrite bind_assoc. mstep (hart_at_run _ _ _ E). unfold put_hart at 1. rewrite bind_modify.
  set (m1 := set_hart h _ m).
  assert (harts m1 !! h = Some (mkHart (sie_off (sstatus x)) (cpu x))) as E1
    by (by eapply set_hart_lookup).
  rewrite bind_assoc. mstep (hart_at_run _ _ _ E1). rewrite bind_ret_l. cbn [cpu].
  unfold pushed, uadd. destruct (noff (cpu x) =? 0).
  - mstep (put_cpu_run _ _ _ (set_intena (cpu x) (sie_get (sstatus x))) E1).
    cbn [sstatus]. unfold m1. rewrite set_hart_twice. set (m2 := set_hart h _ m).
    assert (harts m2 !! h = Some (mkHart (sie_off (sstatus x))
      (set_intena (cpu x) (sie_get (sstatus x))))) as E2 by (by eapply set_hart_lookup).
    rewrite bind_assoc. mstep (hart_at_run _ _ _ E2). rewrite bind_ret_l. cbn [cpu noff set_intena].
    destruct (_ <? _); [|done]. rewrite bind_ret_l, (put_cpu_run _ _ _ _ E2). unfold m2.
    by rewrite set_hart_twice.
  - rewrite bind_ret_l. rewrite bind_assoc. mstep (hart_at_run _ _ _ E1). rewrite bind_ret_l.
    cbn [cpu noff]. destruct (_ <? _); [|done]. rewrite bind_ret_l, (put_cpu_run _ _ _ _ E1).
    unfold m1. by rewrite set_hart_twice.
Qed.
Lemma push_off_run h m x :
  harts m !! h = Some x → noff (cpu x) + 1 < 2 ^ 64 →
  push_off h m = Done (tt, set_hart h (pushed x) m).
Proof. intros E Hn. by rewrite (push_off_eq _ _ _ E), (proj2 (Z.ltb_lt _ _)). Qed.
Lemma push_off_inv h m m' :
  push_off h m = Done (tt, m') → ∃ x, harts m !! h = Some x ∧ m' = set_hart h (pushed x) m.
Proof.
  intros E. destruct (harts m !! h) as [x|] eqn:Ex.
  - rewrite (push_off_eq _ _ _ Ex) in E. destruct (_ <? _); simplify_eq. eauto.
  - unfold push_off, intr_get, hart_at, get in E. unfold mbind, M_bind in E. simpl in E.
    by rewrite Ex in E.
Qed.

Lemma pop_off_run h m x :
  harts m !! h = Some x → sie_get (sstatus x) = false → 1 ≤ noff (cpu x) →
  pop_off h m = Done (tt, set_hart h (popped x) m).
Proof.
  intros E Hs Hn. unfold pop_off, intr_get, mycpu.
  rewrite bind_assoc. mstep (hart_at_run _ _ _ E). rewrite bind_ret_l, Hs.
  rewrite bind_assert by done. rewrite bind_assoc. mstep (hart_at_run _ _ _ E).
  rewrite bind_ret_l, bind_assert by (rewrite (proj2 (Z.ltb_ge _ _)); done).
  rewrite bind_usub by lia. mstep (put_cpu_run _ _ _ (set_noff (cpu x) (noff (cpu x) - 1)) E).
  unfold popped. destruct (_ && _); [|done].
  unfold intr_on. set (m1 := set_hart h _ m).
  assert (harts m1 !! h = Some (mkHart (sstatus x) (set_noff (cpu x) (noff (cpu x) - 1)))) as E1
    by (by eapply set_hart_lookup).
  mstep (hart_at_run _ _ _ E1). unfold put_hart, modify, m1. cbn [cpu sstatus].
  by rewrite set_hart_twice.
Qed.

Lemma pop_off_panic h m x :
  harts m !! h = Some x → noff (cpu x) = 0 →
  pop_off h m = Panic (if sie_get (sstatus x) then "pop_off(): interruptable"
                       else "pop_off(): count not match").
Proof.
  intros E Hn. unfold pop_off, intr_get, mycpu.
  rewrite bind_assoc. mstep (hart_at_run _ _ _ E). rewrite bind_ret_l.
  destruct (sie_get (sstatus x)); [by apply bind_panic|].
  rewrite bind_assert by done. rewrite bind_assoc. mstep (hart_at_run _ _ _ E).
  rewrite bind_ret_l, Hn. by apply bind_panic.
Qed.

(** A run of [push_off] ([true]) and [pop_off] ([false]) calls, and the
    nesting depth they reach; [None] when a call pops an empty nest. *)
Fixpoint run_off (h : nat) (ops : list bool) : M mach unit :=
  match ops with
  | [] => mret tt
  | b :: ops' => (if (b : bool) then push_off h else pop_off h) ;; run_off h ops'
  end.
Fixpoint nest (d : Z) (ops : list bool) : option Z :=
  match ops with
  | [] => Some d
  | true :: ops' => nest (d + 1) ops'
  | false :: ops' => if d =? 0 then None else nest (d - 1) ops'
  end.

(** The state of a hart that found its status register to be [st] and is
    [d] deep. *)
Record nested (st : Z) (p : option nat) (c : Context) (d : Z) (x : hart) : Prop := {
  ne_proc : process (cpu x) = p;
  ne_ctx : context (cpu x) = c;
  ne_noff : noff (cpu x) = d;
  ne_pos : 0 ≤ d;
  ne_st : sstatus x = if d =? 0 then st else sie_off st;
  ne_intena : d ≠ 0 → intena (cpu x) = sie_get st
}.

Lemma pushed_nested st p c d x :
  in_u 64 st → nested st p c d x → nested st p c (d + 1) (pushed x).
Proof.
  intros Hst [Hp Hc Hd Hpos Hs Hi]. unfold pushed. rewrite Hd, Hs.
  split; cbn [cpu process context noff intena sstatus]; try done; [lia| |].
  - rewrite (proj2 (Z.eqb_neq (d + 1) 0)) by lia. destruct (Z.eqb_spec d 0); [done|].
    by rewrite (sie_off_id (sie_off st)) by auto using sie_off_range, sie_get_off.
  - intros _. destruct (Z.eqb_spec d 0); auto.
Qed.
Lemma popped_nested st p c d x :
  in_u 64 st → nested st p c d x → d ≠ 0 → nested st p c (d - 1) (popped x).
Proof.
  intros Hst [Hp Hc Hd Hpos Hs Hi] Hd0. unfold popped. rewrite Hd, Hs, Hi by done.
  rewrite (proj2 (Z.eqb_neq d 0)) by done.
  split; cbn [cpu process context noff intena sstatus set_noff]; try done; [lia| |by auto].
  destruct (Z.eqb_spec (d - 1) 0); [|done]. destruct (sie_get st) eqn:Es; simpl.
  - by apply sie_on_off.
  - by apply sie_off_id.
Qed.
Lemma nested_sie st p c d x : in_u 64 st → nested st p c d x → d ≠ 0 → sie_get (sstatus x) = false.
Proof.
  intros Hst [Hp Hc Hd Hpos Hs Hi] Hd0. rewrite Hs, (proj2 (Z.eqb_neq d 0)) by done.
  by apply sie_get_off.
Qed.

(** A status register of this width, popped at depth 0, tells which guard of
    [pop_off] fires. *)
Definition pop_message (st : Z) : string :=
  if sie_get st then "pop_off(): interruptable" else "pop_off(): count not match".

Lemma run_off_nested h st p c ops m x d :
  in_u 64 st → harts m !! h = Some x → nested st p c d x →
  d + Z.of_nat (length ops) < 2 ^ 64 →
  match nest d ops with
  | Some d' => ∃ x', run_off h ops m = Done (tt, set_hart h x' m) ∧ nested st p c d' x'
  | None => run_off h ops m = Panic (pop_message st)
  end.
Proof.
  intros Hst. revert m x d. induction ops as [|b ops IH]; intros m x d E N Hlen; cbn [nest run_off].
  { exists x. split; [|done]. unfold mret, M_ret, set_hart. rewrite list_insert_id by done.
    by destruct m. }
  cbn [length] in Hlen. pose proof (ne_noff _ _ _ _ _ N) as Hd. pose proof (ne_pos _ _ _ _ _ N).
  assert (∀ y d', nested st p c d' y → d' + Z.of_nat (length ops) < 2 ^ 64 →
    match nest d' ops with
    | Some d'' => ∃ x', run_off h ops (set_hart h y m) = Done (tt, set_hart h x' m) ∧
                    nested st p c d'' x'
    | None => run_off h ops (set_hart h y m) = Panic (pop_message st)
    end) as Hgo.
  { intros y d' Ny Hl'. specialize (IH (set_hart h y m) y d').
    assert (harts (set_hart h y m) !! h = Some y) as Ey by (by eapply set_hart_lookup).
    specialize (IH Ey Ny Hl'). destruct (nest d' ops); [|done].
    destruct IH as (x' & E' & N'). rewrite set_hart_twice in E'. eauto. }
  destruct b.
  - mstep (push_off_run h m x E ltac:(lia)). apply Hgo; [by apply pushed_nested|lia].
  - destruct (Z.eqb_spec d 0) as [->|Hd0].
    + rewrite (bind_panic _ _ _ _ (pop_off_panic h m x E Hd)).
      unfold pop_message. by rewrite (ne_st _ _ _ _ _ N).
    + mstep (pop_off_run h m x E (nested_sie _ _ _ _ _ Hst N Hd0) ltac:(lia)).
      apply Hgo; [by apply popped_nested|lia].
Qed.
