(* ===== verification/SpinSafe.v ===== *)
(** * Spin locks: nesting, sequential use and mutual exclusion

    What [lock/mutex.rs] and [process/cpu.rs] guarantee: interrupts come back
    as they were after balanced [push_off]/[pop_off] calls, a hart that
    takes and drops locks in any order keeps its nesting count and the lock
    words in step, and under every interleaving of the atomic accesses of
    any number of harts at most one of them is inside a lock. *)
From stdpp Require Import functions.
From S2P Require Import Prelude.
From S2P Require Import Layout.
From S2P Require Import Spin.

(** ** One hart that holds a set of locks

    [holds O h st p L m]: hart [h] runs process [p] and holds exactly the
    locks [L], nobody else holds a lock, the hart's status register was [st]
    before it took the first of them, and the other harts are [O]. *)
Record holds (O : nat → option hart) (h : nat) (st : Z) (p : option nat) (L : gset lockid)
    (m : mach) : Prop := {
  ho_st : in_u 64 st;
  ho_hart : ∃ x c, harts m !! h = Some x ∧ nested st p c (Z.of_nat (size L)) x;
  ho_lock : ∀ l, mutex_of m l = if decide (l ∈ L) then mkMutex true (Z.of_nat h) else Mutex0.new;
  ho_other : ∀ h', h' ≠ h → harts m !! h' = O h'
}.

(** The bound on the number of locks is that of the nesting counter. *)
Definition few (L : gset lockid) : Prop := Z.of_nat (size L) + 1 < 2 ^ 64.

Section one_hart.
Context (O : nat → option hart) (h : nat) (st : Z) (p : option nat).
Abbreviation holds := (holds O h st p).

Lemma holds_held m L l : holds L m → l ∈ L → Mutex.holding h l m = Done (true, m).
Proof.
  intros H Hl. unfold Mutex.holding, gets. rewrite (ho_lock _ _ _ _ _ _ H), decide_True by done.
  simpl. by rewrite Z.eqb_refl.
Qed.

(** Taking a lock the hart does not hold. *)
Lemma lock_run m L l :
  holds L m → l ∉ L → few L →
  ∃ m', Mutex.lock h l m = Done (tt, m') ∧ holds ({[l]} ∪ L) m'.
Proof.
  intros H Hl Hf. destruct (ho_hart _ _ _ _ _ _ H) as (x & c & Ex & N).
  pose proof (ne_noff _ _ _ _ _ N) as Hn. unfold few in Hf.
  unfold Mutex.lock. mstep (push_off_run h m x Ex ltac:(lia)).
  unfold Mutex.holding. rewrite bind_gets, set_hart_mutex_of.
  rewrite (ho_lock _ _ _ _ _ _ H), decide_False by done. cbn [Mutex0.new locked andb negb].
  rewrite bind_assert by done.
  unfold Mutex.try_lock_weak, Mutex.is_locked. rewrite bind_assoc, bind_gets, set_hart_mutex_of.
  rewrite (ho_lock _ _ _ _ _ _ H), decide_False by done. cbn [Mutex0.new locked].
  eexists. split; [reflexivity|]. split; [apply H| | |].
  - exists (pushed x), c. split; [by eapply set_hart_lookup|].
    rewrite size_union, size_singleton by set_solver.
    replace (Z.of_nat (1 + size L)) with (Z.of_nat (size L) + 1) by lia.
    by apply pushed_nested; [apply H|].
  - intros l'. rewrite set_mutex_of, set_hart_mutex_of, (ho_lock _ _ _ _ _ _ H).
    repeat case_decide; subst; try done; exfalso; set_solver.
  - intros h' Hne. cbn [harts set_mutex]. rewrite set_hart_other by done. by apply H.
Qed.

(** Dropping a guard. *)
Lemma unlock_run m L l :
  holds L m → l ∈ L →
  ∃ m', Mutex.force_unlock h l m = Done (tt, m') ∧ holds (L ∖ {[l]}) m'.
Proof.
  intros H Hl. destruct (ho_hart _ _ _ _ _ _ H) as (x & c & Ex & N).
  pose proof (ne_noff _ _ _ _ _ N) as Hn.
  assert (Z.of_nat (size L) ≠ 0) as Hz.
  { intros Hz. assert (size L = 0%nat) as Hs%size_empty_inv by lia. set_solver. }
  unfold Mutex.force_unlock. mstep (holds_held m L l H Hl).
  rewrite bind_assert by done. rewrite bind_get, bind_put, bind_get, bind_put.
  set (m1 := set_mutex l _ (set_mutex l _ m)).
  assert (harts m1 !! h = Some x) as E1 by done.
  rewrite (pop_off_run h m1 x E1 (nested_sie _ _ _ _ _ (ho_st _ _ _ _ _ _ H) N Hz)) by lia.
  eexists. split; [reflexivity|]. split; [apply H| | |].
  - exists (popped x), c. split; [by eapply set_hart_lookup|].
    rewrite size_difference, size_singleton by set_solver.
    replace (Z.of_nat (size L - 1)) with (Z.of_nat (size L) - 1) by lia.
    by apply popped_nested; [apply H| |].
  - intros l'. rewrite set_hart_mutex_of. unfold m1.
    rewrite !set_mutex_of, (decide_True _ _ eq_refl), (ho_lock _ _ _ _ _ _ H l'). cbn [cpu_id].
    destruct (decide (l = l')) as [<-|]; [rewrite decide_False by set_solver; done|].
    apply decide_ext. set_solver.
  - intros h' Hne. rewrite set_hart_other by done. by apply H.
Qed.

Lemma myproc_run m L :
  holds L m → few L → ∃ m', myproc h m = Done (p, m') ∧ holds L m'.
Proof.
  intros H Hf. destruct (ho_hart _ _ _ _ _ _ H) as (x & c & Ex & N).
  pose proof (ne_noff _ _ _ _ _ N) as Hn. unfold few in Hf.
  pose proof (pushed_nested _ _ _ _ _ (ho_st _ _ _ _ _ _ H) N) as N1.
  unfold myproc. mstep (push_off_run h m x Ex ltac:(lia)).
  set (m1 := set_hart h _ m).
  assert (harts m1 !! h = Some (pushed x)) as E1 by (by eapply set_hart_lookup).
  unfold mycpu. rewrite bind_assoc. mstep (hart_at_run _ _ _ E1). rewrite bind_ret_l.
  pose proof (ne_noff _ _ _ _ _ N1) as Hn1.
  assert (Z.of_nat (size L) + 1 ≠ 0) as Hz by lia.
  mstep (pop_off_run h m1 _ E1 (nested_sie _ _ _ _ _ (ho_st _ _ _ _ _ _ H) N1 Hz) ltac:(lia)).
  rewrite (ne_proc _ _ _ _ _ N1). eexists. split; [reflexivity|].
  split; [apply H| |intros l; apply H|].
  - exists (popped (pushed x)), c. split; [by eapply set_hart_lookup|].
    replace (Z.of_nat (size L)) with (Z.of_nat (size L) + 1 - 1) by lia.
    by apply popped_nested; [apply H| |].
  - intros h' Hne. unfold m1. rewrite !set_hart_other by done. by apply H.
Qed.
End one_hart.

(** ** Many harts

    The atomic accesses of [lock], [try_lock] and [force_unlock], in program
    order. [push_off] and [pop_off] touch only the hart's own state. *)
Definition lock_enter (h : nat) (l : lockid) : M mach unit :=
  push_off h ;; held ← Mutex.holding h l; assert (negb held) "mutex acquire.".
Definition exchange (l : lockid) : M mach bool :=
  m ← get;
  if locked (mutex_of m l) then mret false
  else put (set_mutex l (mkMutex true (cpu_id (mutex_of m l))) m) ;; mret true.
Definition store_id (l : lockid) (i : Z) : M mach unit :=
  m ← get; put (set_mutex l (mkMutex (locked (mutex_of m l)) i) m).
Definition unlock_enter (h : nat) (l : lockid) : M mach unit :=
  held ← Mutex.holding h l; assert held "Spinmutex release" ;; store_id l (-1).
Definition unlock_word (h : nat) (l : lockid) : M mach unit :=
  m ← get;
  put (set_mutex l (mkMutex false (cpu_id (mutex_of m l))) m) ;; pop_off h.

(** Run without interference they are the operations of the lock. *)
Lemma lock_is_steps h l m :
  Mutex.lock h l m =
    (lock_enter h l ;; ok ← exchange l;
     if (ok : bool) then store_id l (Z.of_nat h) else hang) m.
Proof.
  unfold Mutex.lock, lock_enter. rewrite !bind_assoc. unfold mbind, M_bind.
  destruct (push_off h m) as [[[] m1]| | |]; try done.
  unfold Mutex.holding, gets, assert.
  destruct (locked (mutex_of m1 l) && _); [done|]. cbn [negb].
  unfold Mutex.try_lock_weak, Mutex.is_locked, exchange, store_id, gets, get, put, modify,
    mbind, M_bind, mret, M_ret.
  destruct (locked (mutex_of m1 l)); [done|].
  rewrite set_mutex_of, decide_True by done. unfold set_mutex. simpl.
  by rewrite insert_insert_eq.
Qed.
Lemma unlock_is_steps h l m :
  Mutex.force_unlock h l m = (unlock_enter h l ;; unlock_word h l) m.
Proof.
  unfold Mutex.force_unlock, unlock_enter, unlock_word, store_id, Mutex.holding.
  rewrite bind_assoc, !bind_gets. destruct (_ && _); done.
Qed.

(** Where a hart is in these operations, and the guards it owns. *)
Inductive phase :=
| Idle                 (* outside the lock code *)
| Spinning (l : lockid) (* in the loop of [lock] *)
| Trying (l : lockid)   (* before the exchange of [try_lock] *)
| Won (l : lockid)      (* the exchange succeeded, the id is not stored yet *)
| Releasing (l : lockid) (* the id is cleared, the lock word is still set *).

Record conc := mkConc {
  cm : mach;
  ph : nat → phase;
  guards : nat → gset lockid
}.

Inductive step : conc → conc → Prop :=
| step_lock h l m m' f g :
    f h = Idle → lock_enter h l m = Done (tt, m') →
    step (mkConc m f g) (mkConc m' (<[h := Spinning l]> f) g)
| step_try_lock h l m m' f g :
    f h = Idle → push_off h m = Done (tt, m') →
    step (mkConc m f g) (mkConc m' (<[h := Trying l]> f) g)
| step_exchange h l m m' f g :
    f h = Spinning l ∨ f h = Trying l → exchange l m = Done (true, m') →
    step (mkConc m f g) (mkConc m' (<[h := Won l]> f) g)
| step_try_fails h l m m' f g :
    f h = Trying l → exchange l m = Done (false, m) → pop_off h m = Done (tt, m') →
    step (mkConc m f g) (mkConc m' (<[h := Idle]> f) g)
| step_store_id h l m m' f g :
    f h = Won l → store_id l (Z.of_nat h) m = Done (tt, m') →
    step (mkConc m f g) (mkConc m' (<[h := Idle]> f) (<[h := {[l]} ∪ g h]> g))
| step_unlock h l m m' f g :
    f h = Idle → l ∈ g h → unlock_enter h l m = Done (tt, m') →
    step (mkConc m f g) (mkConc m' (<[h := Releasing l]> f) (<[h := g h ∖ {[l]}]> g))
| step_unlock_word h l m m' f g :
    f h = Releasing l → unlock_word h l m = Done (tt, m') →
    step (mkConc m f g) (mkConc m' (<[h := Idle]> f) g).

(** The locks whose word hart [h] has set. *)
Definition owned (f : nat → phase) (g : nat → gset lockid) (h : nat) : gset lockid :=
  g h ∪ match f h with Won l | Releasing l => {[l]} | _ => ∅ end.
Definition busy (f : phase) : nat := match f with Idle => 0 | _ => 1 end.
(** The lock word that goes with a set of owners. *)
Definition word_ok (f : nat → phase) (g : nat → gset lockid) (m : mach) (l : lockid) : Prop :=
  (locked (mutex_of m l) = true → ∃ h, l ∈ owned f g h) ∧
  (∀ h, l ∈ owned f g h → locked (mutex_of m l) = true) ∧
  (∀ h, l ∈ g h → cpu_id (mutex_of m l) = Z.of_nat h) ∧
  (∀ h, cpu_id (mutex_of m l) = Z.of_nat h → l ∈ g h) ∧
  ∀ h h', l ∈ owned f g h → l ∈ owned f g h' → h = h'.
(** A hart's own state. *)
Definition hart_ok (f : nat → phase) (g : nat → gset lockid) (m : mach) (h : nat) : Prop :=
  (match f h with Won l | Releasing l => l ∉ g h | _ => True end) ∧
  match harts m !! h with
  | Some x => ∃ st p c, in_u 64 st ∧ nested st p c (Z.of_nat (size (g h) + busy (f h))) x
  | None => g h = ∅ ∧ f h = Idle
  end.
Definition conc_inv (s : conc) : Prop :=
  (∀ l, word_ok (ph s) (guards s) (cm s) l) ∧ ∀ h, hart_ok (ph s) (guards s) (cm s) h.

(** The start: every lock free, every hart outside the lock code. *)
Definition conc_init (s : conc) : Prop :=
  (∀ l, mutex_of (cm s) l = Mutex0.new) ∧ (∀ h, ph s h = Idle) ∧ (∀ h, guards s h = ∅) ∧
  ∀ h x, harts (cm s) !! h = Some x → in_u 64 (sstatus x) ∧ noff (cpu x) = 0.

Lemma conc_init_inv s : conc_init s → conc_inv s.
Proof.
  intros (Hl & Hp & Hg & Hh). split.
  - intros l. unfold word_ok, owned. rewrite Hl.
    split_and!; intros h; simpl; rewrite ?Hp, ?Hg; try set_solver. simpl. lia.
  - intros h. unfold hart_ok. rewrite Hp, Hg. split; [done|].
    destruct (harts (cm s) !! h) as [x|] eqn:E; [|done]. destruct (Hh _ _ E) as [H0 H1].
    exists (sstatus x), (process (cpu x)), (context (cpu x)). split; [done|].
    rewrite size_empty. by split.
Qed.

Lemma word_same f g f' g' m m' l :
  (∀ h, l ∈ owned f' g' h ↔ l ∈ owned f g h) → (∀ h, l ∈ g' h ↔ l ∈ g h) →
  mutex_of m' l = mutex_of m l → word_ok f g m l → word_ok f' g' m' l.
Proof.
  intros Ho Hg Hm (H1 & H2 & H3 & H4 & H5). unfold word_ok. rewrite Hm.
  split_and!; intros *; rewrite ?Ho, ?Hg; eauto.
  intros Hl. destruct (H1 Hl) as [h Hh]. exists h. by apply Ho.
Qed.
Lemma hart_same f g f' g' m m' h :
  f' h = f h → g' h = g h → harts m' !! h = harts m !! h →
  hart_ok f g m h → hart_ok f' g' m' h.
Proof. unfold hart_ok. by intros -> -> ->. Qed.

Lemma owned_other f g h h' x y : h ≠ h' → owned (<[h := x]> f) (<[h := y]> g) h' = owned f g h'.
Proof. intros. unfold owned. by rewrite !fn_lookup_insert_ne by done. Qed.
Lemma owned_phase f g h h' x :
  owned (<[h := x]> f) g h' =
    if decide (h = h') then g h ∪ match x with Won l | Releasing l => {[l]} | _ => ∅ end
    else owned f g h'.
Proof.
  unfold owned. case_decide as E; [subst; by rewrite fn_lookup_insert|].
  by rewrite fn_lookup_insert_ne.
Qed.

(** A hart that enters or leaves the lock code without owning a word. *)
Lemma inv_local m f g h x y ph' :
  conc_inv (mkConc m f g) → harts m !! h = Some x →
  (∀ l, f h ≠ Won l ∧ f h ≠ Releasing l) → (∀ l, ph' ≠ Won l ∧ ph' ≠ Releasing l) →
  (∀ st p c, in_u 64 st → nested st p c (Z.of_nat (size (g h) + busy (f h))) x →
     nested st p c (Z.of_nat (size (g h) + busy ph')) y) →
  conc_inv (mkConc (set_hart h y m) (<[h := ph']> f) g).
Proof.
  intros [Hw Hh] Ex Hf Hp Hn. split; simpl in *.
  - intros l. apply (word_same f g _ _ m); try done. intros h'. rewrite owned_phase.
    case_decide as E; [subst|done]. unfold owned.
    destruct (f h') eqn:?, ph' eqn:?; naive_solver.
  - intros h'. destruct (decide (h = h')) as [<-|Hne].
    + specialize (Hh h) as [_ Hx]. rewrite Ex in Hx. destruct Hx as (st & p & c & Hst & N).
      unfold hart_ok. rewrite fn_lookup_insert, (set_hart_lookup _ _ _ _ Ex).
      split; [destruct ph'; naive_solver|eauto 10].
    + apply (hart_same f g _ _ m); [by rewrite fn_lookup_insert_ne|done| |done].
      by apply set_hart_other.
Qed.

(** A hart that changes one lock word. *)
Lemma inv_word m f g h l w ph' g' :
  conc_inv (mkConc m f g) → is_Some (harts m !! h) →
  (match ph' with Won l' | Releasing l' => l' ∉ g' h | _ => True end) →
  (size (g' h) + busy ph' = size (g h) + busy (f h))%nat →
  (∀ h', h' ≠ h → g' h' = g h') →
  (∀ l', l' ≠ l → (l' ∈ g' h ↔ l' ∈ g h) ∧
     (l' ∈ g' h ∪ match ph' with Won k | Releasing k => {[k]} | _ => ∅ end ↔ l' ∈ owned f g h)) →
  word_ok (<[h := ph']> f) g' (set_mutex l w m) l →
  conc_inv (mkConc (set_mutex l w m) (<[h := ph']> f) g').
Proof.
  intros [Hw Hh] [x Ex] Hp Hs Hg' Hother Hl. split; simpl in *.
  - intros l'. destruct (decide (l = l')) as [<-|Hne]; [done|].
    destruct (Hother l' ltac:(done)) as [Hg Ho].
    apply (word_same f g _ _ m); [| |by rewrite set_mutex_of, decide_False|done].
    + intros h'. rewrite owned_phase. case_decide as E; [by subst|].
      unfold owned. by rewrite Hg' by done.
    + intros h'. destruct (decide (h' = h)) as [->|]; [done|by rewrite Hg'].
  - intros h'. destruct (decide (h = h')) as [<-|Hne].
    + specialize (Hh h) as [_ Hx]. rewrite Ex in Hx. destruct Hx as (st & p & c & Hst & N).
      unfold hart_ok. rewrite fn_lookup_insert. simpl. rewrite Ex, Hs. split; [|eauto 10].
      done.
    + apply (hart_same f g _ _ m); [by rewrite fn_lookup_insert_ne|by apply Hg'|done..].
Qed.

Lemma guards_sizes (g : nat → gset lockid) h l : l ∈ g h → (size (g h ∖ {[l]}) + 1 = size (g h))%nat.
Proof.
  intros Hl. rewrite size_difference, size_singleton by set_solver.
  assert (size (g h) ≠ 0%nat); [intros Hz%size_empty_inv; set_solver|lia].
Qed.

Section preservation.
Context (m : mach) (f : nat → phase) (g : nat → gset lockid).
Hypothesis (I : conc_inv (mkConc m f g)).

Lemma inv_hart h : f h ≠ Idle ∨ g h ≠ ∅ →
  ∃ x st p c, harts m !! h = Some x ∧ in_u 64 st ∧
    nested st p c (Z.of_nat (size (g h) + busy (f h))) x.
Proof.
  intros Hb. destruct I as [_ Hh]. specialize (Hh h) as [_ Hx]. simpl in Hx.
  destruct (harts m !! h) as [x|]; [naive_solver|tauto].
Qed.

Lemma push_preserves h m' ph' :
  f h = Idle → push_off h m = Done (tt, m') → busy ph' = 1%nat →
  (∀ l, ph' ≠ Won l ∧ ph' ≠ Releasing l) → conc_inv (mkConc m' (<[h := ph']> f) g).
Proof.
  intros Hf E Hb Hp. apply push_off_inv in E as (x & Ex & ->).
  eapply inv_local; [done..|by rewrite Hf|done|]. intros st p c Hst N. rewrite Hf in N. rewrite Hb.
  replace (Z.of_nat (size (g h) + 1)) with (Z.of_nat (size (g h) + busy Idle) + 1)
    by (simpl; lia). by apply pushed_nested.
Qed.

Lemma pop_preserves h m' :
  f h ≠ Idle → (∀ l, f h ≠ Won l ∧ f h ≠ Releasing l) → pop_off h m = Done (tt, m') →
  conc_inv (mkConc m' (<[h := Idle]> f) g).
Proof.
  intros Hf Hp E. destruct (inv_hart h) as (x & st & p & c & Ex & Hst & N); [by left|].
  assert (busy (f h) = 1%nat) as Hb by (by destruct (f h)). rewrite Hb in N.
  pose proof (ne_noff _ _ _ _ _ N) as Hn.
  rewrite (pop_off_run h m x Ex (nested_sie _ _ _ _ _ Hst N ltac:(lia))) in E by lia.
  simplify_eq. eapply inv_local; [done..|].
  intros st' p' c' Hst' N'. rewrite Hb in N'.
  replace (Z.of_nat (size (g h) + busy Idle)) with (Z.of_nat (size (g h) + 1) - 1)
    by (simpl; lia). apply popped_nested; [done..|lia].
Qed.

Lemma exchange_preserves h l m' :
  f h = Spinning l ∨ f h = Trying l → exchange l m = Done (true, m') →
  conc_inv (mkConc m' (<[h := Won l]> f) g).
Proof.
  intros Hf E. unfold exchange in E. rewrite bind_get in E.
  destruct (locked (mutex_of m l)) eqn:El; [done|]. rewrite bind_put in E.
  unfold mret, M_ret in E. simplify_outcome.
  destruct (inv_hart h) as (x & _ & _ & _ & Ex & _); [left; destruct Hf as [-> | ->]; done|].
  assert (busy (f h) = 1%nat) as Hb by (destruct Hf as [-> | ->]; done).
  assert (owned f g h = g h) as Ho.
  { unfold owned. destruct Hf as [-> | ->]; by rewrite union_empty_r_L. }
  pose proof I as [Hw _]. destruct (Hw l) as (H1 & H2 & H3 & H4 & H5). simpl in *.
  assert (∀ h', l ∉ owned f g h') as Hno.
  { intros h' Hh'. rewrite (H2 _ Hh') in El. done. }
  apply (inv_word m f g); [done|by eexists| |by rewrite Hb|done| |].
  - intros Hl. apply (Hno h). by rewrite Ho.
  - intros l' Hl'. rewrite Ho. set_solver.
  - unfold word_ok. rewrite set_mutex_of, decide_True by done. cbn [locked cpu_id].
    split_and!; [|done..|].
    + intros _. exists h. rewrite owned_phase, decide_True by done. set_solver.
    + intros h1 h2. rewrite !owned_phase.
      repeat case_decide; subst; try done; intros Ha Hb'; exfalso; by eapply Hno.
Qed.

Lemma store_id_preserves h l m' :
  f h = Won l → store_id l (Z.of_nat h) m = Done (tt, m') →
  conc_inv (mkConc m' (<[h := Idle]> f) (<[h := {[l]} ∪ g h]> g)).
Proof.
  intros Hf E. unfold store_id in E. rewrite bind_get in E. unfold put in E. simplify_outcome.
  destruct (inv_hart h) as (x & _ & _ & _ & Ex & _); [left; by rewrite Hf|].
  assert (owned f g h = g h ∪ {[l]}) as Ho by (unfold owned; by rewrite Hf).
  pose proof I as [Hw Hh]. destruct (Hw l) as (H1 & H2 & H3 & H4 & H5). simpl in *.
  destruct (Hh h) as [Hnot _]. simpl in Hnot. rewrite Hf in Hnot.
  assert (l ∈ owned f g h) as Hl by (rewrite Ho; set_solver).
  assert (∀ h', l ∈ g h' → h' = h) as Huniq.
  { intros h' Hh'. apply (H5 h' h); [|done]. unfold owned. set_solver. }
  assert (∀ h', owned (<[h:=Idle]> f) (<[h:={[l]} ∪ g h]> g) h' ≡ owned f g h') as Hsame.
  { intros h'. rewrite owned_phase. case_decide as E; [subst|].
    - rewrite fn_lookup_insert, Ho. set_solver.
    - unfold owned. by rewrite fn_lookup_insert_ne. }
  apply (inv_word m f g); [done|by eexists|done| | | |].
  - rewrite fn_lookup_insert, Hf, size_union, size_singleton by set_solver. simpl. lia.
  - intros h' Hne. by rewrite fn_lookup_insert_ne.
  - intros l' Hl'. rewrite fn_lookup_insert, Ho. set_solver.
  - unfold word_ok. rewrite set_mutex_of, decide_True by done. cbn [locked cpu_id].
    split_and!.
    + intros _. exists h. by apply Hsame.
    + intros h' Hh'. by apply (H2 h'), Hsame.
    + intros h' Hh'. destruct (decide (h' = h)) as [->|Hne]; [done|].
      rewrite fn_lookup_insert_ne in Hh' by done. by apply Huniq in Hh'.
    + intros h' Hh'. assert (h' = h) as -> by lia. rewrite fn_lookup_insert. set_solver.
    + intros h1 h2 Ha Hb. apply Hsame in Ha. apply Hsame in Hb. by apply H5.
Qed.

Lemma unlock_preserves h l m' :
  f h = Idle → l ∈ g h → unlock_enter h l m = Done (tt, m') →
  conc_inv (mkConc m' (<[h := Releasing l]> f) (<[h := g h ∖ {[l]}]> g)).
Proof.
  intros Hf Hl E. pose proof I as [Hw Hh]. destruct (Hw l) as (H1 & H2 & H3 & H4 & H5). simpl in *.
  unfold unlock_enter, Mutex.holding in E. rewrite bind_gets in E.
  destruct (_ && _); [|done]. rewrite bind_assert in E by done. unfold store_id in E.
  rewrite bind_get in E. unfold put in E. simplify_outcome.
  destruct (inv_hart h) as (x & _ & _ & _ & Ex & _); [right; set_solver|].
  assert (owned f g h = g h) as Ho by (unfold owned; rewrite Hf; by rewrite union_empty_r_L).
  assert (∀ h', l ∈ g h' → h' = h) as Huniq.
  { intros h' Hh'. apply (H5 h' h); [|by rewrite Ho]. unfold owned. set_solver. }
  assert (∀ h', l ∈ owned (<[h:=Releasing l]> f) (<[h:=g h ∖ {[l]}]> g) h' ↔ l ∈ owned f g h') as Hsame.
  { intros h'. rewrite owned_phase. case_decide as E; [subst|].
    - rewrite fn_lookup_insert, Ho. set_solver.
    - unfold owned. by rewrite fn_lookup_insert_ne. }
  apply (inv_word m f g); [done|by eexists| | | | |].
  - rewrite fn_lookup_insert. set_solver.
  - rewrite fn_lookup_insert, Hf. simpl. pose proof (guards_sizes g h l Hl). lia.
  - intros h' Hne. by rewrite fn_lookup_insert_ne.
  - intros l' Hl'. rewrite fn_lookup_insert, Ho. set_solver.
  - unfold word_ok. rewrite set_mutex_of, decide_True by done. cbn [locked cpu_id].
    split_and!.
    + intros _. exists h. apply Hsame. by rewrite Ho.
    + intros h' Hh'. by apply (H2 h'), Hsame.
    + intros h' Hh'. exfalso. destruct (decide (h' = h)) as [->|Hne].
      * rewrite fn_lookup_insert in Hh'. set_solver.
      * rewrite fn_lookup_insert_ne in Hh' by done. by apply Huniq in Hh'.
    + intros h' Hh'. lia.
    + intros h1 h2 Ha Hb. apply Hsame in Ha. apply Hsame in Hb. by apply H5.
Qed.
End preservation.

Lemma conc_inv_ext m f f' g :
  (∀ h, f' h = f h) → conc_inv (mkConc m f g) → conc_inv (mkConc m f' g).
Proof.
  intros Hf [Hw Hh]. split; simpl in *.
  - intros l. apply (word_same f g _ _ m); try done. intros h. unfold owned. by rewrite Hf.
  - intros h. by apply (hart_same f g _ _ m).
Qed.

Lemma unlock_word_preserves m f g h l m' :
  conc_inv (mkConc m f g) → f h = Releasing l → unlock_word h l m = Done (tt, m') →
  conc_inv (mkConc m' (<[h := Idle]> f) g).
Proof.
  intros I Hf E. unfold unlock_word in E. rewrite bind_get, bind_put in E.
  destruct (inv_hart m f g I h) as (x & _ & _ & _ & Ex & _); [left; by rewrite Hf|].
  assert (owned f g h = g h ∪ {[l]}) as Ho by (unfold owned; by rewrite Hf).
  pose proof I as [Hw Hh]. destruct (Hw l) as (H1 & H2 & H3 & H4 & H5). simpl in *.
  destruct (Hh h) as [Hnot _]. simpl in Hnot. rewrite Hf in Hnot.
  assert (∀ h', l ∈ owned f g h' → h' = h) as Huniq.
  { intros h' Hh'. apply (H5 h' h); [done|]. rewrite Ho. set_solver. }
  assert (∀ h', l ∉ owned (<[h:=Trying l]> f) g h') as Hno.
  { intros h'. rewrite owned_phase. case_decide as Eh; [subst; set_solver|].
    intros Hl. apply Huniq in Hl. done. }
  eapply (conc_inv_ext _ (<[h:=Idle]> (<[h:=Trying l]> f))).
  { intros h'. destruct (decide (h = h')) as [<-|]; [by rewrite !fn_lookup_insert|].
    by rewrite !fn_lookup_insert_ne. }
  eapply (pop_preserves (set_mutex l (mkMutex false (cpu_id (mutex_of m l))) m)); [|by rewrite fn_lookup_insert..|done].
  apply (inv_word m f g); [done|by eexists|done|by rewrite Hf|done| |].
  - intros l' Hl'. rewrite Ho. set_solver.
  - unfold word_ok. rewrite set_mutex_of, decide_True by done. cbn [locked cpu_id].
    split_and!; [done| |done..|]; [by intros h' ?%Hno|by intros h1 h2 ?%Hno].
Qed.

Lemma step_preserves s s' : step s s' → conc_inv s → conc_inv s'.
Proof.
  intros St I. destruct St.
  - eapply (push_preserves m f g I h); [done| |done|done].
    unfold lock_enter in H0. apply bind_Done in H0 as ([] & m1 & Hp & H0). rewrite Hp.
    unfold Mutex.holding in H0. rewrite bind_gets in H0. unfold assert in H0.
    destruct (negb _); [|done]. unfold mret, M_ret in H0. by simplify_outcome.
  - by eapply push_preserves.
  - by eapply exchange_preserves.
  - eapply pop_preserves; [done| | |done]; by rewrite H.
  - by eapply store_id_preserves.
  - by eapply unlock_preserves.
  - by eapply unlock_word_preserves.
Qed.

Lemma reachable_inv s0 s : conc_init s0 → rtc step s0 s → conc_inv s.
Proof.
  intros Hi St. apply conc_init_inv in Hi. revert Hi.
  induction St; eauto using step_preserves.
Qed.

(** What the invariant says of a hart outside the lock code. *)
Lemma inv_unlock_runs m f g h l :
  conc_inv (mkConc m f g) → l ∈ g h → ∃ m', Mutex.force_unlock h l m = Done (tt, m').
Proof.
  intros I Hl. destruct (inv_hart m f g I h) as (x & st & p & c & Ex & Hst & N);
    [right; set_solver|].
  pose proof I as [Hw _]. destruct (Hw l) as (_ & H2 & H3 & _). simpl in *.
  pose proof (guards_sizes g h l Hl). pose proof (ne_noff _ _ _ _ _ N).
  unfold Mutex.force_unlock, Mutex.holding. rewrite bind_gets, (H2 h), (H3 h), Z.eqb_refl
    by (done || (unfold owned; set_solver)).
  rewrite bind_assert, bind_get, bind_put, bind_get, bind_put by done.
  eexists. eapply (pop_off_run h _ x); [done|eapply nested_sie; [done..|lia]|lia].
Qed.

Lemma inv_lock_enter m f g h l x :
  conc_inv (mkConc m f g) → harts m !! h = Some x → noff (cpu x) + 1 < 2 ^ 64 →
  lock_enter h l m =
    if decide (l ∈ g h) then Panic "mutex acquire." else Done (tt, set_hart h (pushed x) m).
Proof.
  intros I Ex Hn. pose proof I as [Hw _]. destruct (Hw l) as (H1 & H2 & H3 & H4 & _). simpl in *.
  unfold lock_enter. mstep (push_off_run h m x Ex Hn).
  unfold Mutex.holding. rewrite bind_gets, set_hart_mutex_of. case_decide as Hl.
  - by rewrite (H2 h), (H3 h), Z.eqb_refl by (done || (unfold owned; set_solver)).
  - destruct (Z.eqb_spec (cpu_id (mutex_of m l)) (Z.of_nat h)) as [E|]; [by apply H4 in E|].
    by rewrite andb_false_r.
Qed.

(** ** The properties *)

(** Interrupt nesting. Any run of [push_off] and [pop_off] on a hart that
    starts outside a nest either pops more than it pushed, and then panics
    at that call, or completes at the depth it reached: at depth 0 the
    status register is what it was before the run, at any other depth
    interrupts are off and nothing else of the register changed, and the
    hart's process, saved context, the other harts and the locks are
    untouched throughout. *)
Theorem intr_nesting h m x ops :
  harts m !! h = Some x → in_u 64 (sstatus x) → noff (cpu x) = 0 →
  Z.of_nat (length ops) < 2 ^ 64 →
  match nest 0 ops with
  | Some d => ∃ x', run_off h ops m = Done (tt, set_hart h x' m) ∧ noff (cpu x') = d ∧
      sstatus x' = (if d =? 0 then sstatus x else sie_off (sstatus x)) ∧
      process (cpu x') = process (cpu x) ∧ context (cpu x') = context (cpu x)
  | None => run_off h ops m = Panic (pop_message (sstatus x))
  end.
Proof.
  intros Ex Hst Hn Hl.
  assert (nested (sstatus x) (process (cpu x)) (context (cpu x)) 0 x) as N by (by split).
  pose proof (run_off_nested h _ _ _ ops m x 0 Hst Ex N ltac:(lia)) as H.
  destruct (nest 0 ops) as [d|]; [|done]. destruct H as (x' & E & [? ? ? ? ? ?]). eauto 10.
Qed.

(** C3. Mutual exclusion. Under every interleaving of the atomic accesses of
    [lock], [try_lock] and guard drops of any number of harts on any number
    of locks, starting with every lock free: no lock is guarded by two
    harts; a hart that owns a guard runs with interrupts off; dropping an
    owned guard never panics; and entering [lock] panics exactly when the
    hart already owns the lock, which is the self-deadlock. *)
Theorem mutual_exclusion s0 s :
  conc_init s0 → rtc step s0 s →
  (∀ h1 h2 l, l ∈ guards s h1 → l ∈ guards s h2 → h1 = h2) ∧
  (∀ h l, l ∈ guards s h → ∃ x, harts (cm s) !! h = Some x ∧ sie_get (sstatus x) = false) ∧
  (∀ h l, l ∈ guards s h → ∃ m', Mutex.force_unlock h l (cm s) = Done (tt, m')) ∧
  (∀ h l x, harts (cm s) !! h = Some x → noff (cpu x) + 1 < 2 ^ 64 →
     (lock_enter h l (cm s) = Panic "mutex acquire." ↔ l ∈ guards s h)).
Proof.
  intros Hi St. pose proof (reachable_inv _ _ Hi St) as I. destruct s as [m f g].
  pose proof I as [Hw _]. simpl in *. split_and!.
  - intros h1 h2 l Ha Hb. destruct (Hw l) as (_ & _ & _ & _ & H5).
    apply H5; unfold owned; set_solver.
  - intros h l Hl. destruct (inv_hart m f g I h) as (x & st & p & c & Ex & Hst & N);
      [right; set_solver|].
    exists x. split; [done|]. pose proof (guards_sizes g h l Hl).
    eapply nested_sie; [done..|lia].
  - intros h l Hl. by eapply inv_unlock_runs.
  - intros h l x Ex Hn. rewrite (inv_lock_enter m f g h l x) by done. case_decide; naive_solver.
Qed.

(** ** Witnesses *)
Definition hart0 : hart := mkHart 2 CPU.new.
Definition mach0 : mach := mkMach [hart0; hart0] ∅.

Lemma intr_nesting_witness :
  ∃ x', run_off 0 [true; true; false; false] mach0 = Done (tt, set_hart 0 x' mach0) ∧
    sstatus x' = 2.
Proof.
  destruct (intr_nesting 0 mach0 hart0 [true; true; false; false]) as (x' & E & _ & Hs & _);
    [reflexivity|split; [discriminate|reflexivity]|reflexivity|reflexivity|].
  exists x'. split; [exact E|exact Hs].
Defined.

(** Hart 0 takes the wait lock while hart 1 spins for it. *)
Definition conc0 : conc := mkConc mach0 (λ _, Idle) (λ _, ∅).
Lemma mutual_exclusion_witness :
  ∃ s, rtc step conc0 s ∧ LWait ∈ guards s 0%nat ∧ ph s 1%nat = Spinning LWait ∧
    LWait ∉ guards s 1%nat.
Proof.
  assert (conc_init conc0) as Hi.
  { split_and!; [reflexivity..|]. intros [|[|h]] x E; simpl in E; simplify_eq;
      (split; [split; [discriminate|reflexivity]|reflexivity]). }
  eexists.
  match goal with |- rtc step conc0 ?s ∧ _ => assert (rtc step conc0 s) as St end.
  { eapply rtc_l; [apply (step_lock 1 LWait mach0); [reflexivity|reflexivity]|].
    eapply rtc_l; [eapply (step_lock 0 LWait); [reflexivity|reflexivity]|].
    eapply rtc_l; [eapply (step_exchange 0 LWait); [left; reflexivity|reflexivity]|].
    eapply rtc_l; [eapply (step_store_id 0 LWait); [reflexivity|reflexivity]|].
    apply rtc_refl. }
  split_and!; [exact St| |reflexivity|].
  - apply (bool_decide_unpack _). vm_compute. exact Logic.I.
  - intros H. destruct (mutual_exclusion _ _ Hi St) as (Hx & _).
    assert (0%nat = 1%nat) as Hbad; [|discriminate Hbad].
    apply (Hx 0%nat 1%nat LWait); [apply (bool_decide_unpack _); vm_compute; exact Logic.I|exact H].
Defined.
