(* ===== verification/Proc.v ===== *)
(** * Processes: the operations

    [process/process.rs], [process/manager.rs] and [process/trapframe.rs]:
    the process table, allocation and release of table entries, fork, exit,
    wait, kill, sleep and wake-up, and the hart's side of the scheduler in
    [process/cpu.rs]. Every operation takes and drops the spin locks the
    source takes and drops, through the model of Spin; a call of [sched]
    ends the run of the kernel thread on this hart, and the code after it
    is a definition of its own ([..._resume]). *)
From S2P Require Import Prelude.
From S2P Require Import Layout.
From S2P Require Import Pte.
From S2P Require Import Kalloc.
From S2P Require Import PageTable.
From S2P Require Import Spin.

(** ** Data *)
Inductive ProcState := Unused | Used | Sleeping | Runnable | Running | Zombie | Allocated.
#[global] Instance ProcState_eq_dec : EqDecision ProcState.
Proof. solve_decision. Defined.

Record ProcMeta := mkMeta {
  state : ProcState;
  chan : Z;
  killed : bool;
  xstate : Z;
  pid : Z
}.

Module ProcMeta.
Definition new : ProcMeta := mkMeta Unused 0 false 0 0.
Definition set_state (m : ProcMeta) (s : ProcState) : ProcMeta :=
  mkMeta s (chan m) (killed m) (xstate m) (pid m).
End ProcMeta.

(** [Box<PageTable>] is the address of the root page, [*mut Trapframe] the
    address of the trapframe page, [Arc<VFile>] and [Inode] are references
    of the file layer. *)
Record ProcData := mkData {
  kstack : Z;
  psize : Z;
  pagetable : option Z;
  trapframe : Z;
  pcontext : Context;
  name : list Z;
  pd_id : nat;
  open_files : list (option Z);
  cwd : option Z
}.

Module ProcData.
Definition new (id : nat) : ProcData :=
  mkData 0 0 None 0 Context.new (replicate 16 0) id (replicate (Z.to_nat NFILE) None) None.

Definition set_name (d : ProcData) (nm : list Z) : ProcData :=
  let e := Nat.min (length (name d)) (length nm) in
  mkData (kstack d) (psize d) (pagetable d) (trapframe d) (pcontext d)
    (take e nm ++ drop e (name d)) (pd_id d) (open_files d) (cwd d).
Definition set_kstack (d : ProcData) (k : Z) : ProcData :=
  mkData k (psize d) (pagetable d) (trapframe d) (pcontext d) (name d) (pd_id d) (open_files d) (cwd d).
Definition set_size (d : ProcData) (n : Z) : ProcData :=
  mkData (kstack d) n (pagetable d) (trapframe d) (pcontext d) (name d) (pd_id d) (open_files d) (cwd d).
Definition set_pagetable (d : ProcData) (p : option Z) : ProcData :=
  mkData (kstack d) (psize d) p (trapframe d) (pcontext d) (name d) (pd_id d) (open_files d) (cwd d).
Definition set_trapframe (d : ProcData) (t : Z) : ProcData :=
  mkData (kstack d) (psize d) (pagetable d) t (pcontext d) (name d) (pd_id d) (open_files d) (cwd d).
Definition set_context (d : ProcData) (c : Context) : ProcData :=
  mkData (kstack d) (psize d) (pagetable d) (trapframe d) c (name d) (pd_id d) (open_files d) (cwd d).
Definition set_files (d : ProcData) (fs : list (option Z)) (c : option Z) : ProcData :=
  mkData (kstack d) (psize d) (pagetable d) (trapframe d) (pcontext d) (name d) (pd_id d) fs c.

(** The first free slot of a list of file descriptors. *)
Fixpoint first_free (fs : list (option Z)) : option nat :=
  match fs with
  | [] => None
  | None :: _ => Some 0%nat
  | Some _ :: fs' => S <$> first_free fs'
  end.
Definition find_unallocated_fd (d : ProcData) : result nat :=
  match first_free (open_files d) with
  | Some fd => Ok fd
  | None => Err "Failed to find unallocated fd"
  end.
End ProcData.

Record Process := mkProcess { meta : ProcMeta; data : ProcData }.

(** Offsets of the fields of [Trapframe] that kernel code accesses. *)
Definition TF_KERNEL_SATP : Z := 0.
Definition TF_KERNEL_SP : Z := 8.
Definition TF_KERNEL_TRAP : Z := 16.
Definition TF_EPC : Z := 24.
Definition TF_KERNEL_HARTID : Z := 32.
Definition TF_SP : Z := 48.
Definition TF_AX : Z := 112.
(** [size_of::<Trapframe>()]: 36 registers. *)
Definition TF_SIZE : Z := 288.

(** Addresses the linker chooses: the process table, the functions whose
    addresses kernel code stores, and the kernel's page table in [satp]. *)
Class Symbols := {
  proc_base : Z;
  proc_stride : Z;
  fork_ret_addr : Z;
  user_trap_addr : Z;
  trampoline_addr : Z;
  kernel_satp : Z
}.
(** [p as *const Process as usize] of the [i]-th entry of the table. *)
Definition proc_addr `{Symbols} (i : nat) : Z := proc_base + Z.of_nat i * proc_stride.

(** The state the process layer works on. [F] is the state of the file
    layer. *)
Record kst (F : Type) := mkKst {
  kmach : mach;
  kmem : mem;
  procs : list Process;
  pids : Z;
  init_proc : option Z;
  wait_list : list Z;
  idx_pids : list Z;
  ticks : Z;
  kfs : F
}.
Arguments mkKst {F}. Arguments kmach {F}. Arguments kmem {F}. Arguments procs {F}.
Arguments pids {F}. Arguments init_proc {F}. Arguments wait_list {F}. Arguments idx_pids {F}.
Arguments ticks {F}. Arguments kfs {F}.

Section setters.
Context {F : Type}.
Implicit Types k : kst F.
Definition set_kmach (x : mach) k : kst F :=
  mkKst x (kmem k) (procs k) (pids k) (init_proc k) (wait_list k) (idx_pids k) (ticks k) (kfs k).
Definition set_kmem (x : mem) k : kst F :=
  mkKst (kmach k) x (procs k) (pids k) (init_proc k) (wait_list k) (idx_pids k) (ticks k) (kfs k).
Definition set_procs (x : list Process) k : kst F :=
  mkKst (kmach k) (kmem k) x (pids k) (init_proc k) (wait_list k) (idx_pids k) (ticks k) (kfs k).
Definition set_pids (x : Z) k : kst F :=
  mkKst (kmach k) (kmem k) (procs k) x (init_proc k) (wait_list k) (idx_pids k) (ticks k) (kfs k).
Definition set_init_proc (x : option Z) k : kst F :=
  mkKst (kmach k) (kmem k) (procs k) (pids k) x (wait_list k) (idx_pids k) (ticks k) (kfs k).
Definition set_wait_list (x : list Z) k : kst F :=
  mkKst (kmach k) (kmem k) (procs k) (pids k) (init_proc k) x (idx_pids k) (ticks k) (kfs k).
Definition set_idx_pids (x : list Z) k : kst F :=
  mkKst (kmach k) (kmem k) (procs k) (pids k) (init_proc k) (wait_list k) x (ticks k) (kfs k).
Definition set_ticks (x : Z) k : kst F :=
  mkKst (kmach k) (kmem k) (procs k) (pids k) (init_proc k) (wait_list k) (idx_pids k) x (kfs k).

Definition on_mach {A} : M mach A → M (kst F) A := zoom kmach set_kmach.
Definition on_mem {A} : M mem A → M (kst F) A := zoom kmem set_kmem.

Definition oob : string := "index out of bounds".
Definition proc_at (i : nat) : M (kst F) Process := k ← get; unwrap (procs k !! i) oob.
Definition put_proc (i : nat) (p : Process) : M (kst F) unit :=
  modify (λ k, set_procs (<[i := p]> (procs k)) k).
Definition meta_at (i : nat) : M (kst F) ProcMeta := p ← proc_at i; mret (meta p).
Definition put_meta (i : nat) (x : ProcMeta) : M (kst F) unit :=
  p ← proc_at i; put_proc i (mkProcess x (data p)).
Definition data_at (i : nat) : M (kst F) ProcData := p ← proc_at i; mret (data p).
Definition put_data (i : nat) (x : ProcData) : M (kst F) unit :=
  p ← proc_at i; put_proc i (mkProcess (meta p) x).

Definition lock (h : nat) (l : lockid) : M (kst F) unit := on_mach (Mutex.lock h l).
Definition unlock (h : nat) (l : lockid) : M (kst F) unit := on_mach (Mutex.force_unlock h l).
End setters.

(** What the process layer calls of the file layer: cloning and dropping an
    [Arc<VFile>] and an [Inode], the brackets of a logged operation, and the
    lookup of the root directory. *)
Class FileOps (F : Type) := {
  file_clone : Z → M (kst F) unit;
  file_drop : Z → M (kst F) unit;
  inode_clone : Z → M (kst F) unit;
  inode_drop : Z → M (kst F) unit;
  log_begin_op : M (kst F) unit;
  log_end_op : M (kst F) unit;
  namei_root : M (kst F) Z
}.

(** Do something for the contents of an option. *)
Definition when_some {S A} (o : option A) (f : A → M S unit) : M S unit :=
  match o with Some a => f a | None => mret tt end.

Section operations.
Context {F : Type} `{Symbols} `{FileOps F}.
Implicit Types (h i : nat).
Abbreviation K := (M (kst F)).

Definition all_procs : K (list nat) := gets (λ k, seq 0 (length (procs k))).
Definition the_proc h : K nat := r ← on_mach (myproc h); unwrap r PageTable.unwrap_msg.

(** ** Process (process.rs) *)
Definition init_one i (kst : Z) : K unit :=
  d ← data_at i;
  put_data i (ProcData.set_kstack
    (ProcData.set_files d (replicate (Z.to_nat NFILE) None) (cwd d)) kst).

Definition get_killed h i : K bool :=
  lock h (LProc i) ;; m ← meta_at i; unlock h (LProc i) ;; mret (killed m).
Definition get_pid h i : K Z :=
  lock h (LProc i) ;; m ← meta_at i; unlock h (LProc i) ;; mret (pid m).
Definition set_killed h i (b : bool) : K unit :=
  lock h (LProc i) ;; m ← meta_at i;
  put_meta i (mkMeta (state m) (chan m) b (xstate m) (pid m)) ;;
  unlock h (LProc i).

Definition init_context i : K unit :=
  d ← data_at i;
  sp ← uadd 64 (kstack d) STACK_SIZE;
  put_data i (ProcData.set_context d
    (Context.write_sp (Context.write_ra (Context.write_zero (pcontext d)) fork_ret_addr) sp)).

(** A failed [map] frees nothing but the root box, which [pgt] going out of
    scope drops. *)
Definition proc_pagetable i : K (option Z) :=
  d ← data_at i;
  on_mem (
    pgt ← PageTable.unew;
    ok ← PageTable.map pgt TRAMPOLINE trampoline_addr PGSIZE (Z.lor PTE_R PTE_X);
    if negb ok then PageTable.ufree pgt 0 ;; PageTable.drop_box 3 pgt ;; mret None else
    ok ← PageTable.map pgt TRAPFRAME (trapframe d) PGSIZE (Z.lor PTE_R PTE_W);
    if negb ok then PageTable.ufree pgt 0 ;; PageTable.drop_box 3 pgt ;; mret None else
    mret (Some pgt)).

Definition user_init h i : K unit :=
  d ← data_at i;
  sp ← uadd 64 (kstack d) STACK_SIZE;
  on_mem (
    write_word (trapframe d + TF_KERNEL_SATP) kernel_satp ;;
    write_word (trapframe d + TF_KERNEL_SP) sp ;;
    write_word (trapframe d + TF_KERNEL_TRAP) user_trap_addr ;;
    write_word (trapframe d + TF_KERNEL_HARTID) (Z.of_nat h)).

Definition free_proc h i : K unit :=
  d ← data_at i;
  on_mem (dealloc (trapframe d) TF_SIZE) ;;
  put_data i (ProcData.set_pagetable d None) ;;
  when_some (pagetable d) (λ pgt,
    on_mem (PageTable.proc_free_pagetable pgt (psize d) ;; PageTable.drop_box 3 pgt)) ;;
  d ← data_at i;
  put_data i (ProcData.set_size d 0) ;;
  lock h (LProc i) ;;
  put_meta i (mkMeta Unused 0 false 0 0) ;;
  unlock h (LProc i).

(** [isize] addition, checked. *)
Definition isize_add (a b : Z) : K Z :=
  if (- 2 ^ 63 <=? a + b) && (a + b <? 2 ^ 63) then mret (a + b)
  else panic "attempt to add with overflow".

(** [count] is the [isize] argument. *)
Definition grow_proc i (count : Z) : K (result unit) :=
  d ← data_at i;
  r ← match pagetable d with
      | None => mret (Some (psize d))
      | Some pgt =>
        if count <? 0 then
          nsz ← isize_add (to_signed 64 (psize d)) count;
          sz ← on_mem (PageTable.udealloc pgt (psize d) (wrap 64 nsz));
          mret (Some sz)
        else if count =? 0 then mret (Some (psize d))
        else
          nsz ← uadd 64 (psize d) count;
          on_mem (PageTable.ualloc pgt (psize d) nsz)
      end;
  match r with
  | Some sz => d ← data_at i; put_data i (ProcData.set_size d sz) ;; mret (Ok tt)
  | None => mret (Err "Fail to allocate virtual memory for user")
  end.

Definition fd_alloc i (file : Z) : K (result nat) :=
  d ← data_at i;
  match ProcData.find_unallocated_fd d with
  | Ok fd =>
    put_data i (ProcData.set_files d (<[fd := Some file]> (open_files d)) (cwd d)) ;;
    mret (Ok fd)
  | Err e => mret (Err e)
  end.

(** ** Leaving the hart

    [CPU::sched], called by the kernel thread of process [i] that holds its
    own lock. After the checks, [switch] continues on this hart behind the
    [switch] of [scheduler], which clears the hart's process and drops the
    lock. The result is the local [intena] that the thread keeps on its
    stack. *)
Definition sched h i : K bool :=
  c ← on_mach (mycpu h);
  assert (noff c =? 1) "sched: cpu hold multiple locks" ;;
  m ← meta_at i;
  assert (negb (bool_decide (state m = Running))) "sched: proc is running" ;;
  on ← on_mach (intr_get h);
  assert (negb on) "sched: interruptible" ;;
  on_mach (c ← mycpu h; put_cpu h (CPU.set_proc c None)) ;;
  unlock h (LProc i) ;;
  mret (intena c).

(** Coming back: [scheduler] has taken the lock of process [i] and switched
    to it, behind the [switch] of [sched]. *)
Definition sched_resume h (intena0 : bool) : K unit :=
  on_mach (c ← mycpu h; put_cpu h (set_intena c intena0)).

Definition yielding h i : K bool :=
  lock h (LProc i) ;;
  m ← meta_at i;
  put_meta i (ProcMeta.set_state m Runnable) ;;
  sched h i.
Definition yielding_resume h i (intena0 : bool) : K unit :=
  sched_resume h intena0 ;; unlock h (LProc i).

(** [CPU::try_yield_proc]: whether the thread left the hart, and with which
    [intena]. *)
Definition try_yield_proc h : K (option (nat * bool)) :=
  c ← on_mach (mycpu h);
  match process c with
  | None => mret None
  | Some i =>
    lock h (LProc i) ;;
    m ← meta_at i;
    unlock h (LProc i) ;;
    if bool_decide (state m = Running) then b ← yielding h i; mret (Some (i, b)) else mret None
  end.

(** [CPUManager::yield_proc], from code that has a process. *)
Definition yield_proc h : K (option (nat * bool)) :=
  p ← on_mach (myproc h);
  match p with
  | None => mret None
  | Some i =>
    lock h (LProc i) ;;
    m ← meta_at i;
    unlock h (LProc i) ;;
    if bool_decide (state m = Running) then b ← yielding h i; mret (Some (i, b)) else mret None
  end.

(** [sleep], with [l] the lock of the guard that is passed in. *)
Definition sleep h i (channel : Z) (l : lockid) : K bool :=
  lock h (LProc i) ;;
  unlock h l ;;
  m ← meta_at i;
  put_meta i (mkMeta Sleeping channel (killed m) (xstate m) (pid m)) ;;
  sched h i.
Definition sleep_resume h i (intena0 : bool) : K unit :=
  sched_resume h intena0 ;;
  m ← meta_at i;
  put_meta i (mkMeta (state m) 0 (killed m) (xstate m) (pid m)) ;;
  unlock h (LProc i).

(** ** The process table (manager.rs) *)
Definition manager_init : K unit :=
  ps ← all_procs;
  for_each ps (λ i, init_one i (kernel_stack (Z.of_nat i))).

(** [fetch_add] wraps. *)
Definition alloc_pid : K Z :=
  k ← get; put (set_pids (wrap 64 (pids k + 1)) k) ;; mret (pids k).

Fixpoint seek_loop h (ps : list nat) : K (option nat) :=
  match ps with
  | [] => mret None
  | i :: ps' =>
    lock h (LProc i) ;;
    m ← meta_at i;
    if bool_decide (state m = Runnable) then
      put_meta i (ProcMeta.set_state m Allocated) ;;
      unlock h (LProc i) ;;
      mret (Some i)
    else unlock h (LProc i) ;; seek_loop h ps'
  end.
Definition seek_runnable h : K (option nat) := ps ← all_procs; seek_loop h ps.

(** One round of the loop of [scheduler]: the process the hart switches to,
    whose lock it then holds. *)
Definition scheduler_round h : K (option nat) :=
  on_mach (intr_on h) ;;
  r ← seek_runnable h;
  match r with
  | Some i =>
    on_mach (c ← mycpu h; put_cpu h (CPU.set_proc c (Some i))) ;;
    lock h (LProc i) ;;
    m ← meta_at i;
    put_meta i (ProcMeta.set_state m Running) ;;
    mret (Some i)
  | None => mret None
  end.

Fixpoint alloc_loop h (pid0 : Z) (ps : list nat) : K (option nat) :=
  match ps with
  | [] => mret None
  | i :: ps' =>
    lock h (LProc i) ;;
    m ← meta_at i;
    if bool_decide (state m = Unused) then
      put_meta i (mkMeta Allocated (chan m) (killed m) (xstate m) pid0) ;;
      tf ← on_mem new_zeroed;
      d ← data_at i;
      put_data i (ProcData.set_trapframe d tf) ;;
      pgt ← proc_pagetable i;
      d ← data_at i;
      put_data i (ProcData.set_pagetable d pgt) ;;
      when_some (pagetable d) (λ old, on_mem (PageTable.drop_box 3 old)) ;;
      init_context i ;;
      lock h LIdxPids ;;
      k ← get;
      (if (pd_id d <? length (idx_pids k))%nat
       then put (set_idx_pids (<[pd_id d := pid0]> (idx_pids k)) k) else panic oob) ;;
      unlock h LIdxPids ;;
      unlock h (LProc i) ;;
      mret (Some i)
    else unlock h (LProc i) ;; alloc_loop h pid0 ps'
  end.
Definition alloc_proc h : K (option nat) :=
  pid0 ← alloc_pid;
  ps ← all_procs;
  alloc_loop h pid0 ps.

Definition wake_one h (channel : Z) i : K unit :=
  mp ← on_mach (myproc h);
  if bool_decide (mp = Some i) then mret tt else
  lock h (LProc i) ;;
  m ← meta_at i;
  (if bool_decide (state m = Sleeping) && (chan m =? channel)
   then put_meta i (ProcMeta.set_state m Runnable) else mret tt) ;;
  unlock h (LProc i).
Definition wake_up h (channel : Z) : K unit :=
  ps ← all_procs; for_each ps (wake_one h channel).

Definition wait_at (j : nat) : K Z := k ← get; unwrap (wait_list k !! j) oob.
Definition put_wait (j : nat) (a : Z) : K unit :=
  k ← get;
  if (j <? length (wait_list k))%nat then put (set_wait_list (<[j := a]> (wait_list k)) k)
  else panic oob.

Definition reparent_one h (addr : Z) (j : nat) : K unit :=
  a ← wait_at j;
  if a =? addr then
    k ← get;
    ip ← unwrap (init_proc k) PageTable.unwrap_msg;
    put_wait j ip ;;
    wake_up h ip
  else mret tt.
Definition reparent h (addr : Z) : K unit :=
  k ← get; for_each (seq 0 (length (wait_list k))) (reparent_one h addr).

(** [for fd in &mut pdata.open_files { let _ = fd.take(); }]. *)
Definition close_one i (fd : nat) : K unit :=
  d ← data_at i;
  when_some (mjoin (open_files d !! fd)) (λ f,
    put_data i (ProcData.set_files d (<[fd := None]> (open_files d)) (cwd d)) ;;
    file_drop f).
Definition close_files i : K unit :=
  d ← data_at i; for_each (seq 0 (length (open_files d))) (close_one i).
Definition drop_cwd i : K unit :=
  log_begin_op ;;
  d ← data_at i;
  put_data i (ProcData.set_files d (open_files d) None) ;;
  when_some (cwd d) inode_drop ;;
  log_end_op.

(** [exit] of the manager (the system call), up to its [sched]; it never
    comes back. *)
Definition exit h (status : Z) : K unit :=
  r ← on_mach (myproc h);
  i ← unwrap r "Curretn Process has no cpu";
  d ← data_at i;
  lock h LIdxPids ;;
  k ← get;
  (if (pd_id d <? length (idx_pids k))%nat
   then put (set_idx_pids (<[pd_id d := NPROC]> (idx_pids k)) k) else panic oob) ;;
  unlock h LIdxPids ;;
  close_files i ;;
  drop_cwd i ;;
  lock h LWait ;;
  reparent h (proc_addr i) ;;
  a ← wait_at (pd_id d);
  wake_up h a ;;
  lock h (LProc i) ;;
  m ← meta_at i;
  put_meta i (mkMeta Zombie (chan m) (killed m) status (pid m)) ;;
  unlock h LWait ;;
  sched h i ;;
  mret tt.

(** [exit] of process/mod.rs, which ends killed processes, up to its call of
    [scheduler]. *)
Definition process_exit h (status : Z) : K unit :=
  r ← on_mach (myproc h);
  i ← unwrap r "Curretn Process has no cpu";
  d ← data_at i;
  close_files i ;;
  drop_cwd i ;;
  lock h LWait ;;
  reparent h (proc_addr i) ;;
  a ← wait_at (pd_id d);
  wake_up h a ;;
  lock h (LProc i) ;;
  m ← meta_at i;
  put_meta i (mkMeta Zombie (chan m) (killed m) (wrap 64 status) (pid m)) ;;
  unlock h LWait ;;
  unlock h (LProc i).

(** How a call that may sleep ends on this hart: it returns, or its thread
    has left the hart and will go on with this [intena]. *)
Inductive wres := Returned (r : option Z) | Slept (intena0 : bool).

(** The [for p in &self.proc] loop of [wait]: the first zombie child is
    reaped ([inl]); without one the result tells if there are children. *)
Fixpoint wait_scan h (me : nat) (addr : Z) (have_kids : bool) (ps : list nat)
    : K (option Z + bool) :=
  match ps with
  | [] => mret (inr have_kids)
  | i :: ps' =>
    d ← data_at i;
    parent ← wait_at (pd_id d);
    if parent =? proc_addr me then
      lock h (LProc i) ;;
      m ← meta_at i;
      if bool_decide (state m = Zombie) then
        pgt ← unwrap (pagetable d) PageTable.unwrap_msg;
        r ← (if addr =? 0 then mret (Ok tt)
             else on_mem (PageTable.copy_out pgt addr (le_bytes 8 (xstate m))));
        match r with
        | Err _ => unlock h (LProc i) ;; unlock h LWait ;; mret (inl None)
        | Ok _ =>
          unlock h (LProc i) ;;
          free_proc h i ;;
          unlock h LWait ;;
          mret (inl (Some (pid m)))
        end
      else unlock h (LProc i) ;; wait_scan h me addr true ps'
    else wait_scan h me addr have_kids ps'
  end.

(** One round of [wait], entered with the wait lock held. *)
Definition wait_round h (me : nat) (addr : Z) : K wres :=
  ps ← all_procs;
  r ← wait_scan h me addr false ps;
  match r with
  | inl res => mret (Returned res)
  | inr have_kids =>
    lock h (LProc me) ;;
    m ← meta_at me;
    if negb have_kids || killed m then
      unlock h LWait ;; unlock h (LProc me) ;; mret (Returned None)
    else
      unlock h (LProc me) ;;
      s ← sleep h me (proc_addr me) LWait;
      mret (Slept s)
  end.
Definition wait h (addr : Z) : K wres :=
  me ← the_proc h;
  lock h LWait ;;
  wait_round h me addr.
Definition wait_resume h (me : nat) (addr : Z) (intena0 : bool) : K wres :=
  sleep_resume h me intena0 ;;
  lock h LWait ;;
  wait_round h me addr.

Fixpoint kill_loop h (pid0 : Z) (ps : list nat) : K (option Z) :=
  match ps with
  | [] => mret None
  | i :: ps' =>
    lock h (LProc i) ;;
    m ← meta_at i;
    if pid m =? pid0 then
      put_meta i (mkMeta (state m) (chan m) true (xstate m) (pid m)) ;;
      if bool_decide (state m = Sleeping) then
        put_meta i (mkMeta Runnable (chan m) true (xstate m) (pid m)) ;;
        unlock h (LProc i) ;;
        mret (Some 0)
      else unlock h (LProc i) ;; kill_loop h pid0 ps'
    else unlock h (LProc i) ;; kill_loop h pid0 ps'
  end.
(** [Err(())] is [None]. *)
Definition kill h (pid0 : Z) : K (option Z) := ps ← all_procs; kill_loop h pid0 ps.

(** ** fork *)
Definition clone_file (o : option Z) : K unit := when_some o file_clone.

(** [clone_from], slot by slot: the parent's entry is cloned into the
    child's, and what the child had there is dropped. *)
Definition clone_slot (i c fd : nat) : K unit :=
  d ← data_at i;
  let o := mjoin (open_files d !! fd) in
  clone_file o ;;
  cd ← data_at c;
  put_data c (ProcData.set_files cd (<[fd := o]> (open_files cd)) (cwd cd)) ;;
  when_some (mjoin (open_files cd !! fd)) file_drop.
Definition clone_files (i c : nat) : K unit :=
  cd ← data_at c;
  for_each (seq 0 (length (open_files cd))) (clone_slot i c) ;;
  d ← data_at i;
  when_some (cwd d) inode_clone ;;
  cd ← data_at c;
  put_data c (ProcData.set_files cd (open_files cd) (cwd d)) ;;
  when_some (cwd cd) inode_drop.

Definition fork h i : K (option nat) :=
  r ← alloc_proc h;
  match r with
  | None => mret None
  | Some c =>
    d ← data_at i;
    cd ← data_at c;
    match pagetable d, pagetable cd with
    | Some pgt, Some ch_pgt =>
      r ← on_mem (PageTable.ucopy_nocopy (S (Z.to_nat (psize d / PGSIZE))) pgt ch_pgt 0 (psize d));
      match r with
      | Ok _ => on_mem (PageTable.ucopy_stack pgt ch_pgt)
      | Err _ => panic "fork: Failed to copy data from parent process."
      end
    | _, _ => mret tt
    end ;;
    on_mem (
      ws ← read_page (trapframe d);
      cws ← read_page (trapframe cd);
      write_page (trapframe cd)
        (take (Z.to_nat (TF_SIZE / 8)) ws ++ drop (Z.to_nat (TF_SIZE / 8)) cws) ;;
      write_word (trapframe cd + TF_AX) 0) ;;
    clone_files i c ;;
    cd ← data_at c;
    put_data c (mkData (kstack cd) (psize d) (pagetable cd) (trapframe cd) (pcontext cd)
      (name d) (pd_id cd) (open_files cd) (cwd cd)) ;;
    lock h (LProc c) ;;
    m ← meta_at c;
    put_meta c (ProcMeta.set_state m Runnable) ;;
    unlock h (LProc c) ;;
    lock h LWait ;;
    put_wait (pd_id cd) (proc_addr i) ;;
    unlock h LWait ;;
    mret (Some c)
  end.

(** [fork_ret]: the first thing a new process runs. The scheduler holds its
    lock. *)
Definition fork_ret h : K unit :=
  i ← the_proc h; unlock h (LProc i).

(** ** The first process and the kernel stacks *)
Definition user_init_proc h (initcode initname : list Z) : K unit :=
  r ← alloc_proc h;
  i ← unwrap r "Failed to get unused process";
  d ← data_at i;
  pgt ← unwrap (pagetable d) PageTable.unwrap_msg;
  on_mem (PageTable.uinit pgt initcode) ;;
  put_data i (ProcData.set_size d PGSIZE) ;;
  on_mem (write_word (trapframe d + TF_EPC) 0 ;;
          write_word (trapframe d + TF_SP) (USTACK_BASE + USTACK_SIZE)) ;;
  d ← data_at i;
  put_data i (ProcData.set_name d initname) ;;
  root ← namei_root;
  d ← data_at i;
  put_data i (ProcData.set_files d (open_files d) (Some root)) ;;
  when_some (cwd d) inode_drop ;;
  lock h (LProc i) ;;
  m ← meta_at i;
  put_meta i (ProcMeta.set_state m Runnable) ;;
  unlock h (LProc i) ;;
  k ← get;
  put (set_init_proc (match init_proc k with Some a => Some a | None => Some (proc_addr i) end) k).

Definition proc_mapstacks (kpgt : Z) : K unit :=
  ps ← all_procs;
  for_each ps (λ i, for_each (seqZ 0 (STACK_SIZE / PGSIZE)) (λ j,
    on_mem (
      pa ← new_zeroed;
      PageTable.kernel_map kpgt (kernel_stack (Z.of_nat i) + j * PGSIZE) pa PGSIZE
        (Z.lor PTE_R PTE_W)))).

(** ** System calls on processes (syscall/mod.rs, syscall/proc.rs, trap.rs) *)
Definition arg i (n : Z) : K Z :=
  d ← data_at i;
  if 5 <? n then panic "too many argument." else on_mem (read_word (trapframe d + TF_AX + n * 8)).

Definition sys_fork h i : K (option Z) :=
  r ← fork h i;
  match r with
  | None => mret None
  | Some c => lock h (LProc c) ;; m ← meta_at c; unlock h (LProc c) ;; mret (Some (pid m))
  end.
Definition sys_exit h i : K unit := status ← arg i 0; exit h status.
Definition sys_wait h i : K wres := addr ← arg i 0; wait h addr.
Definition sys_getpid h i : K (option Z) := p ← get_pid h i; mret (Some p).
Definition sys_sbrk i : K (option Z) :=
  n ← arg i 0;
  d ← data_at i;
  r ← grow_proc i (to_signed 64 n);
  match r with
  | Err e => panic "err"
  | Ok _ => mret (Some (psize d))
  end.

Definition clock_intr h : K unit :=
  if Nat.eqb h 0 then
    lock h LTicks ;;
    k ← get; t ← uadd 64 (ticks k) 1;
    modify (set_ticks t) ;;
    unlock h LTicks
  else mret tt.
Definition uptime h : K Z :=
  lock h LTicks ;; k ← get; unlock h LTicks ;; mret (ticks k / 10).
Definition sys_uptime h : K (option Z) := t ← uptime h; mret (Some t).
End operations.
