(* ===== verification/ProcSpec.v ===== *)
(** * Reasoning about process operations

    A small program logic for the operations of Proc: [wp t m Q k] says that
    running [m] from [k] ends in a state that satisfies [Q], and, when [t] is
    [true], that it does end (no panic, no deadlock). Assertions describe the
    part of the state the process table consists of ([view]) and the locks
    the running hart holds. *)
From S2P Require Import Prelude.
From S2P Require Import Layout.
From S2P Require Import Kalloc.
From S2P Require Import PageTable.
From S2P Require Import Spin.
From S2P Require Import SpinSafe.
From S2P Require Import Proc.

(** ** Weakest preconditions *)
Definition wp {S A} (t : bool) (m : M S A) (Q : A → S → Prop) (s : S) : Prop :=
  match m s with
  | Done (a, s') => Q a s'
  | _ => t = false
  end.

Section wp.
Context {S A B : Type} (t : bool).
Implicit Types (m : M S A) (s : S).

Lemma wp_bind m (f : A → M S B) Q s :
  wp t m (λ a, wp t (f a) Q) s → wp t (m ≫= f) Q s.
Proof. unfold wp, mbind, M_bind. by destruct (m s) as [[??]| | |]. Qed.
Lemma wp_ret (a : A) Q s : Q a s → wp t (mret a) Q s.
Proof. done. Qed.
Lemma wp_mono m (Q Q' : A → S → Prop) s :
  wp t m Q s → (∀ a s', Q a s' → Q' a s') → wp t m Q' s.
Proof. unfold wp. destruct (m s) as [[??]| | |]; eauto. Qed.
Lemma wp_done m Q s a s' : m s = Done (a, s') → Q a s' → wp t m Q s.
Proof. unfold wp. by intros ->. Qed.
Lemma wp_assert b msg (Q : unit → S → Prop) s :
  (t = true → b = true) → (b = true → Q tt s) → wp t (assert b msg) Q s.
Proof. unfold wp, assert. destruct b; simpl; [auto|]. destruct t; naive_solver. Qed.
Lemma wp_unwrap (o : option A) msg Q s :
  (t = true → is_Some o) → (∀ a, o = Some a → Q a s) → wp t (unwrap o msg) Q s.
Proof.
  unfold wp, unwrap. destruct o; simpl; [auto|]. destruct t; [|done].
  intros Hs _. by destruct (Hs eq_refl).
Qed.
Lemma wp_get (Q : S → S → Prop) s : Q s s → wp t get Q s.
Proof. done. Qed.
Lemma wp_put (Q : unit → S → Prop) s s' : Q tt s' → wp t (put s') Q s.
Proof. done. Qed.
Lemma wp_when_some (o : option A) (f : A → M S unit) (Q : unit → S → Prop) s :
  (o = None → Q tt s) → (∀ a, o = Some a → wp t (f a) Q s) → wp t (when_some o f) Q s.
Proof. destruct o; simpl; intros H1 H2; [by apply H2|by apply H1]. Qed.
End wp.

Lemma wp_uadd {S} t w a b (Q : Z → S → Prop) s :
  (t = true → a + b < 2 ^ w) → (a + b < 2 ^ w → Q (a + b) s) → wp t (uadd w a b) Q s.
Proof.
  intros Ht HQ. unfold wp, uadd. destruct (Z.ltb_spec (a + b) (2 ^ w)); simpl; [auto|].
  destruct t; [|done]. specialize (Ht eq_refl). lia.
Qed.

Lemma wp_total {S A} (m : M S A) Q s : wp true m Q s → ∃ a s', m s = Done (a, s') ∧ Q a s'.
Proof. unfold wp. destruct (m s) as [[a s']| | |]; [eauto|done..]. Qed.
Lemma wp_partial {S A} (m : M S A) Q s a s' : wp false m Q s → m s = Done (a, s') → Q a s'.
Proof. unfold wp. by intros H E; rewrite E in H. Qed.

(** A loop, with an invariant that depends on what is left to do. *)
Lemma wp_for_each {S A} t (xs : list A) (f : A → M S unit) (I : list A → S → Prop) s :
  (∀ x xs' s, I (x :: xs') s → wp t (f x) (λ _, I xs') s) → I xs s →
  wp t (for_each xs f) (λ _, I []) s.
Proof.
  intros Hf. revert s. induction xs as [|x xs IH]; intros s HI; [done|]. simpl.
  apply wp_bind. eapply wp_mono; [by apply Hf|]. intros u s' H'. by apply IH.
Qed.

(** ** The view of a state *)
Record view := mkView {
  v_ms : list ProcMeta;
  v_wl : list Z;
  v_ip : option Z;
  v_pids : Z
}.
Definition v_set_ms (ms : list ProcMeta) (v : view) : view := mkView ms (v_wl v) (v_ip v) (v_pids v).
Definition v_put (i : nat) (m : ProcMeta) (v : view) : view := v_set_ms (<[i := m]> (v_ms v)) v.
Definition v_set_wl (wl : list Z) (v : view) : view := mkView (v_ms v) wl (v_ip v) (v_pids v).
Definition v_set_pids (n : Z) (v : view) : view := mkView (v_ms v) (v_wl v) (v_ip v) n.

Section logic.
Context {F : Type} (O : nat → option hart) (h : nat) (st : Z).
Implicit Types (k : kst F) (v : view) (L : gset lockid) (p : option nat) (t : bool).

Record sees p L v k : Prop := {
  se_holds : holds O h st p L (kmach k);
  se_ms : meta <$> procs k = v_ms v;
  se_ids : (λ q, pd_id (data q)) <$> procs k = seq 0 (length (v_ms v));
  se_wl : wait_list k = v_wl v;
  se_idx : length (idx_pids k) = length (v_ms v);
  se_ip : init_proc k = v_ip v;
  se_pids : pids k = v_pids v
}.

Lemma sees_length p L v k : sees p L v k → length (procs k) = length (v_ms v).
Proof. intros Hs. rewrite <- (se_ms _ _ _ _ Hs). by rewrite length_fmap. Qed.
Lemma sees_lookup p L v k i m :
  sees p L v k → v_ms v !! i = Some m →
  ∃ q, procs k !! i = Some q ∧ meta q = m ∧ pd_id (data q) = i.
Proof.
  intros Hs Hm. rewrite <- (se_ms _ _ _ _ Hs) in Hm. apply list_lookup_fmap_Some in Hm as (q & -> & Hq).
  exists q. split_and!; [done..|].
  assert (((λ q, pd_id (data q)) <$> procs k) !! i = Some (pd_id (data q))) as Hi
    by (by rewrite list_lookup_fmap, Hq).
  rewrite (se_ids _ _ _ _ Hs) in Hi. apply lookup_seq in Hi. simpl in Hi. lia.
Qed.

Lemma wp_lock t p L v k l Q :
  sees p L v k → l ∉ L → few L → (∀ k', sees p ({[l]} ∪ L) v k' → Q tt k') →
  wp t (lock h l) Q k.
Proof.
  intros Hs Hl Hf HQ. destruct (lock_run O h st p _ L l (se_holds _ _ _ _ Hs) Hl Hf) as (m' & E & H').
  unfold lock, on_mach, zoom, wp. rewrite E. apply HQ. destruct Hs. by split.
Qed.
Lemma wp_unlock t p L v k l Q :
  sees p L v k → l ∈ L → (∀ k', sees p (L ∖ {[l]}) v k' → Q tt k') →
  wp t (unlock h l) Q k.
Proof.
  intros Hs Hl HQ. destruct (unlock_run O h st p _ L l (se_holds _ _ _ _ Hs) Hl) as (m' & E & H').
  unfold unlock, on_mach, zoom, wp. rewrite E. apply HQ. destruct Hs. by split.
Qed.
Lemma wp_myproc t p L v k Q :
  sees p L v k → few L → (∀ k', sees p L v k' → Q p k') → wp t (on_mach (myproc h)) Q k.
Proof.
  intros Hs Hf HQ. destruct (myproc_run O h st p _ L (se_holds _ _ _ _ Hs) Hf) as (m' & E & H').
  unfold on_mach, zoom, wp. rewrite E. apply HQ. destruct Hs. by split.
Qed.
(** Memory operations do not touch the table; they are not known to end. *)
Lemma wp_on_mem {A} p L v k (m : M mem A) (Q : A → kst F → Prop) :
  sees p L v k → (∀ a k', sees p L v k' → Q a k') → wp false (on_mem m) Q k.
Proof.
  intros Hs HQ. unfold on_mem, zoom, wp. destruct (m (kmem k)) as [[a s]| | |]; try done.
  apply HQ. destruct Hs. by split.
Qed.

Lemma wp_proc_at t p L v k i (Q : Process → kst F → Prop) :
  sees p L v k → (t = true → is_Some (v_ms v !! i)) →
  (∀ q, procs k !! i = Some q → v_ms v !! i = Some (meta q) → pd_id (data q) = i → Q q k) →
  wp t (proc_at i) Q k.
Proof.
  intros Hs Hi HQ. unfold proc_at. apply wp_bind, wp_get, wp_unwrap.
  - intros Ht. destruct (Hi Ht) as [m Hm]. destruct (sees_lookup _ _ _ _ _ _ Hs Hm) as (q & Hq & _).
    eauto.
  - intros q Hq.
    assert (v_ms v !! i = Some (meta q)) as Hm
      by (by rewrite <- (se_ms _ _ _ _ Hs), list_lookup_fmap, Hq).
    destruct (sees_lookup _ _ _ _ _ _ Hs Hm) as (q' & Hq' & _ & Hd). simplify_eq. by apply HQ.
Qed.
Lemma wp_meta_at t p L v k i (Q : ProcMeta → kst F → Prop) :
  sees p L v k → (t = true → is_Some (v_ms v !! i)) →
  (∀ m, v_ms v !! i = Some m → Q m k) → wp t (meta_at i) Q k.
Proof.
  intros Hs Hi HQ. unfold meta_at. apply wp_bind.
  eapply wp_proc_at; [done..|]. intros q Hq Hm _. by apply HQ.
Qed.
Lemma wp_data_at t p L v k i (Q : ProcData → kst F → Prop) :
  sees p L v k → (t = true → is_Some (v_ms v !! i)) →
  (∀ d, is_Some (v_ms v !! i) → pd_id d = i → Q d k) → wp t (data_at i) Q k.
Proof.
  intros Hs Hi HQ. unfold data_at. apply wp_bind.
  eapply wp_proc_at; [done..|]. intros q Hq Hm Hd. by apply HQ.
Qed.
Lemma sees_put_proc p L v k i q x :
  sees p L v k → procs k !! i = Some q → pd_id (data x) = i →
  sees p L (v_put i (meta x) v) (set_procs (<[i := x]> (procs k)) k).
Proof.
  intros [H1 H2 H3 H4 H5 H6 H7] Hq Hx. split; simpl; try done.
  - by rewrite list_fmap_insert, H2.
  - rewrite list_fmap_insert, H3, length_insert. apply list_insert_id.
    rewrite Hx. apply lookup_seq. split; [done|]. rewrite <- H2, length_fmap.
    by eapply lookup_lt_Some.
  - by rewrite length_insert.
Qed.
Lemma wp_put_meta t p L v k i x Q :
  sees p L v k → (t = true → is_Some (v_ms v !! i)) →
  (∀ k', sees p L (v_put i x v) k' → Q tt k') → wp t (put_meta i x) Q k.
Proof.
  intros Hs Hi HQ. unfold put_meta. apply wp_bind.
  eapply wp_proc_at; [done..|]. intros q Hq Hm Hd. apply HQ.
  by apply (sees_put_proc p L v k i q (mkProcess x (data q))).
Qed.
Lemma v_put_id i m v : v_ms v !! i = Some m → v_put i m v = v.
Proof. intros Hm. unfold v_put, v_set_ms. rewrite list_insert_id by done. by destruct v. Qed.
Lemma wp_put_data t p L v k i x Q :
  sees p L v k → (t = true → is_Some (v_ms v !! i)) → pd_id x = i →
  (∀ k', sees p L v k' → Q tt k') → wp t (put_data i x) Q k.
Proof.
  intros Hs Hi Hx HQ. unfold put_data. apply wp_bind.
  eapply wp_proc_at; [done..|]. intros q Hq Hm Hd. apply HQ.
  rewrite <- (v_put_id i (meta q) v Hm).
  by apply (sees_put_proc p L v k i q (mkProcess (meta q) x)).
Qed.
Lemma wp_all_procs t p L v k (Q : list nat → kst F → Prop) :
  sees p L v k → Q (seq 0 (length (v_ms v))) k → wp t all_procs Q k.
Proof.
  intros Hs HQ. unfold all_procs, wp, gets. by rewrite (sees_length _ _ _ _ Hs).
Qed.
Lemma wp_wait_at t p L v k j (Q : Z → kst F → Prop) :
  sees p L v k → (t = true → is_Some (v_wl v !! j)) →
  (∀ a, v_wl v !! j = Some a → Q a k) → wp t (wait_at j) Q k.
Proof.
  intros Hs Hj HQ. unfold wait_at. apply wp_bind, wp_get, wp_unwrap;
    rewrite (se_wl _ _ _ _ Hs); auto.
Qed.
Lemma wp_put_wait t p L v k j a Q :
  sees p L v k → (t = true → is_Some (v_wl v !! j)) →
  (∀ k', sees p L (v_set_wl (<[j := a]> (v_wl v)) v) k' → Q tt k') → wp t (put_wait j a) Q k.
Proof.
  intros Hs Hj HQ. unfold put_wait. apply wp_bind, wp_get.
  rewrite (se_wl _ _ _ _ Hs). destruct (Nat.ltb_spec j (length (v_wl v))) as [Hlt|Hge].
  - apply wp_put, HQ. destruct Hs. by split.
  - destruct t; [|done]. destruct (Hj eq_refl) as [x Hx]. apply lookup_lt_Some in Hx. lia.
Qed.
End logic.

(** ** Table transformations *)
Definition wake_meta (channel : Z) (m : ProcMeta) : ProcMeta :=
  if bool_decide (state m = Sleeping) && (chan m =? channel)
  then ProcMeta.set_state m Runnable else m.
(** [wake_up]: every sleeper on the channel but the caller. *)
Definition wake_tab (p : option nat) (channel : Z) (ms : list ProcMeta) : list ProcMeta :=
  imap (λ i m, if decide (p = Some i) then m else wake_meta channel m) ms.
(** What any number of wake-ups may do to an entry. *)
Definition woken (m m' : ProcMeta) : Prop :=
  m' = m ∨ state m = Sleeping ∧ m' = ProcMeta.set_state m Runnable.

Lemma wake_meta_woken ch m : woken m (wake_meta ch m).
Proof. unfold woken, wake_meta. case_bool_decide; simpl; [destruct (_ =? _); auto|auto]. Qed.
Lemma woken_trans m1 m2 m3 : woken m1 m2 → woken m2 m3 → woken m1 m3.
Proof.
  intros [-> | [Hs ->]] [-> | [Hs' ->]]; unfold woken; [auto..|]. by simpl in Hs'.
Qed.
#[global] Instance woken_preorder : PreOrder woken.
Proof. split; [by left|intros m1 m2 m3; apply woken_trans]. Qed.
Lemma wake_tab_woken p ch ms : Forall2 woken ms (wake_tab p ch ms).
Proof.
  apply Forall2_same_length_lookup. split; [unfold wake_tab; by rewrite length_imap|].
  intros i x y Hx. unfold wake_tab. rewrite list_lookup_imap, Hx. intros [= <-].
  case_decide; [reflexivity|apply wake_meta_woken].
Qed.
Lemma length_wake_tab p ch ms : length (wake_tab p ch ms) = length ms.
Proof. unfold wake_tab. by rewrite length_imap. Qed.

(** The first [j] entries transformed. *)
Definition upto (j : nat) (g : nat → ProcMeta → ProcMeta) (ms : list ProcMeta) : list ProcMeta :=
  imap (λ i m, if decide (i < j)%nat then g i m else m) ms.
Lemma upto_0 g ms : upto 0 g ms = ms.
Proof.
  apply list_eq. intros i. unfold upto. rewrite list_lookup_imap.
  destruct (ms !! i); [cbn [fmap option_fmap option_map]; by rewrite decide_False by lia|done].
Qed.
Lemma upto_all g ms : upto (length ms) g ms = imap g ms.
Proof.
  apply list_eq. intros i. unfold upto. rewrite !list_lookup_imap.
  destruct (ms !! i) eqn:E; [|done]. apply lookup_lt_Some in E. cbn [fmap option_fmap option_map]. by rewrite decide_True.
Qed.
Lemma upto_lookup j g ms : upto j g ms !! j = ms !! j.
Proof.
  unfold upto. rewrite list_lookup_imap.
  destruct (ms !! j); [cbn [fmap option_fmap option_map]; by rewrite decide_False by lia|done].
Qed.
Lemma upto_S j g ms m :
  ms !! j = Some m → <[j := g j m]> (upto j g ms) = upto (S j) g ms.
Proof.
  intros Hm. apply list_eq. intros i. pose proof (lookup_lt_Some _ _ _ Hm).
  destruct (decide (i = j)) as [->|Hne].
  - rewrite list_lookup_insert_eq by (unfold upto; by rewrite length_imap).
    unfold upto. rewrite list_lookup_imap, Hm. cbn [fmap option_fmap option_map]. by rewrite decide_True by lia.
  - rewrite list_lookup_insert_ne by done. unfold upto. rewrite !list_lookup_imap.
    destruct (ms !! i); [|done]. cbn [fmap option_fmap option_map]. f_equal. apply decide_ext. lia.
Qed.
Lemma length_upto j g ms : length (upto j g ms) = length ms.
Proof. unfold upto. by rewrite length_imap. Qed.

(** Set algebra of taking and dropping a lock. *)
Lemma lock_unlock (l : lockid) (L : gset lockid) : l ∉ L → ({[l]} ∪ L) ∖ {[l]} = L.
Proof. set_solver. Qed.

Section specs.
Context {F : Type} (O : nat → option hart) (h : nat) (st : Z).
Implicit Types (k : kst F) (v : view) (L : gset lockid) (p : option nat) (t : bool).
Local Abbreviation sees := (sees O h st).
Local Abbreviation K := (M (kst F)).

(** A loop over the table that transforms each entry on its own. *)
Lemma wp_table t p L v k (f : nat → K unit) (g : nat → ProcMeta → ProcMeta) Q :
  (∀ i m v k Q, sees p L v k → v_ms v !! i = Some m →
     (∀ k', sees p L (v_put i (g i m) v) k' → Q tt k') → wp t (f i) Q k) →
  sees p L v k →
  (∀ k', sees p L (v_set_ms (imap g (v_ms v)) v) k' → Q tt k') →
  wp t (for_each (seq 0 (length (v_ms v))) f) Q k.
Proof.
  intros Hf Hs HQ. set (n := length (v_ms v)).
  eapply wp_mono; [apply (wp_for_each t _ f (λ xs k, ∃ j, (j ≤ n)%nat ∧ xs = seq j (n - j) ∧
    sees p L (v_set_ms (upto j g (v_ms v)) v) k))|].
  - clear k Hs. intros x xs k (j & Hj & Exs & Hs).
    destruct (n - j)%nat as [|r] eqn:Hr; [done|]. simpl in Exs. simplify_eq.
    destruct (lookup_lt_is_Some_2 (v_ms v) j) as [m Hm]; [unfold n in *; lia|].
    eapply (Hf j m); [exact Hs|simpl; by rewrite upto_lookup|].
    intros k' Hk'. exists (S j). split_and!; [lia|f_equal; lia|].
    by rewrite <- (upto_S j g _ m Hm).
  - exists 0%nat. split_and!; [lia|by rewrite Nat.sub_0_r|]. rewrite upto_0. by destruct v.
  - intros [] k' (j & Hj & E & Hk'). apply HQ. rewrite <- upto_all.
    assert (j = n) as -> by (destruct (n - j)%nat eqn:?; [lia|done]). done.
Qed.

Lemma wp_wake_one t p L v k ch i m Q :
  sees p L v k → (∀ i, p ≠ Some i → LProc i ∉ L) → few L → v_ms v !! i = Some m →
  (∀ k', sees p L (v_put i (if decide (p = Some i) then m else wake_meta ch m) v) k' → Q tt k') →
  wp t (wake_one h ch i) Q k.
Proof.
  intros Hs HL Hf Hm HQ. unfold wake_one. apply wp_bind.
  eapply wp_myproc; [done..|]. clear k Hs. intros k Hs.
  case_bool_decide as Hp.
  { apply HQ. rewrite decide_True by done. by rewrite v_put_id. }
  apply wp_bind. eapply wp_lock; [done|by apply HL|done|]. clear k Hs. intros k Hs.
  apply wp_bind. eapply wp_meta_at; [done|by eauto|]. intros m' Hm'. simplify_eq.
  apply wp_bind. rewrite decide_False in HQ by done. unfold wake_meta in HQ.
  destruct (_ && _).
  - eapply wp_put_meta; [done|by eauto|]. clear k Hs. intros k Hs.
    eapply wp_unlock; [done|set_solver|]. clear k Hs. intros k Hs.
    rewrite lock_unlock in Hs by (by apply HL). by apply HQ.
  - apply wp_ret. eapply wp_unlock; [done|set_solver|]. clear k Hs. intros k Hs.
    rewrite lock_unlock in Hs by (by apply HL). rewrite v_put_id in HQ by done. by apply HQ.
Qed.

Lemma wp_wake_up t p L v k ch Q :
  sees p L v k → (∀ i, p ≠ Some i → LProc i ∉ L) → few L →
  (∀ k', sees p L (v_set_ms (wake_tab p ch (v_ms v)) v) k' → Q tt k') →
  wp t (wake_up h ch) Q k.
Proof.
  intros Hs HL Hf HQ. unfold wake_up. apply wp_bind. eapply wp_all_procs; [done|].
  eapply (wp_table t p L v k _ (λ i m, if decide (p = Some i) then m else wake_meta ch m));
    [|done|done].
  intros. by eapply wp_wake_one.
Qed.

(** Taking the lock of an entry, reading it and dropping the lock. *)
Lemma wp_unlock_back t p L v k l Q :
  sees p ({[l]} ∪ L) v k → l ∉ L → (∀ k', sees p L v k' → Q tt k') → wp t (unlock h l) Q k.
Proof.
  intros Hs Hl HQ. eapply wp_unlock; [done|set_solver|]. intros k' Hk'.
  rewrite lock_unlock in Hk' by done. by apply HQ.
Qed.
End specs.

(** ** Switching *)

(** The status register of a hart with [intena] set to [b] in a nest. *)
Definition with_intena (st : Z) (b : bool) : Z :=
  if b then sie_on (sie_off st) else sie_off st.
Lemma with_intena_range st b : in_u 64 st → in_u 64 (with_intena st b).
Proof. intros. destruct b; simpl; auto using sie_on_range, sie_off_range. Qed.
Lemma sie_off_idem st : in_u 64 st → sie_off (sie_off st) = sie_off st.
Proof. intros. by apply sie_off_id; [apply sie_off_range|apply sie_get_off]. Qed.
Lemma sie_off_on st : in_u 64 st → sie_off (sie_on st) = sie_off st.
Proof.
  intros Hst. apply Z.bits_inj'. intros i Hi.
  rewrite !sie_off_bits, sie_on_bits by auto using sie_on_range.
  destruct (i =? 1); [by rewrite !andb_false_r|by rewrite orb_false_r].
Qed.
Lemma with_intena_off st b : in_u 64 st → sie_off (with_intena st b) = sie_off st.
Proof.
  intros. destruct b; simpl; [|by apply sie_off_idem].
  by rewrite sie_off_on, sie_off_idem by auto using sie_off_range.
Qed.
Lemma with_intena_get st b : in_u 64 st → sie_get (with_intena st b) = b.
Proof. intros. destruct b; simpl; [apply sie_get_on|by apply sie_get_off]. Qed.

Section switching.
Context {F : Type} (O : nat → option hart) (h : nat).
Implicit Types (k : kst F) (v : view) (L : gset lockid) (p : option nat) (t : bool) (st : Z).
Local Abbreviation sees := (sees O h).

(** Replacing the hart's own record. *)
Lemma sees_set_hart st st' p p' L v k x y c :
  sees st p L v k → harts (kmach k) !! h = Some x → in_u 64 st' →
  nested st' p' c (Z.of_nat (size L)) y →
  sees st' p' L v (set_kmach (set_hart h y (kmach k)) k).
Proof.
  intros [[H1 H2 H3 H3'] H4 H5 H6 H7 H8 H9] Ex Hst N. split; try done. split; try done.
  - exists y, c. split; [by eapply set_hart_lookup|done].
  - intros h' Hne. simpl. rewrite list_lookup_insert_ne by done. by apply H3'.
Qed.
Lemma sees_hart st p L v k :
  sees st p L v k → in_u 64 st ∧ ∃ x c, harts (kmach k) !! h = Some x ∧
    nested st p c (Z.of_nat (size L)) x.
Proof. intros [[H1 H2 H3 H3'] H4 H5 H6 H7 H8 H9]. eauto. Qed.

(** Reads of the hart's record. *)
Lemma wp_hart {A} t k x (f : hart → A) (Q : A → kst F → Prop) :
  harts (kmach k) !! h = Some x → Q (f x) k → wp t (on_mach (y ← hart_at h; mret (f y))) Q k.
Proof.
  intros Ex HQ. eapply wp_done; [|exact HQ]. unfold on_mach, zoom.
  rewrite (bind_run _ _ _ _ _ (hart_at_run _ _ _ Ex)). unfold mret, M_ret. by destruct k.
Qed.

(** A write of the hart's [CPU] record. *)
Lemma wp_put_cpu t k x (f : CPU → CPU) (Q : unit → kst F → Prop) :
  harts (kmach k) !! h = Some x →
  Q tt (set_kmach (set_hart h (mkHart (sstatus x) (f (cpu x))) (kmach k)) k) →
  wp t (on_mach (c ← mycpu h; put_cpu h (f c))) Q k.
Proof.
  intros Ex HQ. eapply wp_done; [|exact HQ]. unfold on_mach, zoom.
  assert ((c ← mycpu h; put_cpu h (f c)) (kmach k) =
    Done (tt, set_hart h (mkHart (sstatus x) (f (cpu x))) (kmach k))) as ->; [|done].
  unfold mycpu. rewrite bind_assoc. mstep (hart_at_run _ _ _ Ex).
  rewrite bind_ret_l. by apply put_cpu_run.
Qed.

Lemma wp_set_proc t st p p' L v k (Q : unit → kst F → Prop) :
  sees st p L v k → (∀ k', sees st p' L v k' → Q tt k') →
  wp t (on_mach (c ← mycpu h; put_cpu h (CPU.set_proc c p'))) Q k.
Proof.
  intros Hs HQ. destruct (sees_hart _ _ _ _ _ Hs) as (Hst & x & c & Ex & N).
  eapply (wp_put_cpu t k x (λ c, CPU.set_proc c p')); [done|]. apply HQ.
  eapply sees_set_hart; [done..|]. destruct N. by split.
Qed.
Lemma wp_sched_resume t st p L v k b (Q : unit → kst F → Prop) :
  sees st p L v k → L ≠ ∅ → (∀ k', sees (with_intena st b) p L v k' → Q tt k') →
  wp t (sched_resume h b) Q k.
Proof.
  intros Hs HL HQ. destruct (sees_hart _ _ _ _ _ Hs) as (Hst & x & c & Ex & N).
  eapply (wp_put_cpu t k x (λ c, set_intena c b)); [done|]. apply HQ.
  assert (Z.of_nat (size L) ≠ 0) as Hz.
  { intros Hz. apply HL, leibniz_equiv, size_empty_inv. lia. }
  eapply sees_set_hart; [done..|by apply with_intena_range|].
  destruct N as [N1 N2 N3 N4 N5 N6]. split; simpl; try done.
  - rewrite N5, (proj2 (Z.eqb_neq _ _) Hz). by rewrite with_intena_off.
  - intros _. by rewrite with_intena_get.
Qed.
Lemma wp_intr_on t st p v k (Q : unit → kst F → Prop) :
  sees st p ∅ v k → (∀ k', sees (sie_on st) p ∅ v k' → Q tt k') → wp t (on_mach (intr_on h)) Q k.
Proof.
  intros Hs HQ. destruct (sees_hart _ _ _ _ _ Hs) as (Hst & x & c & Ex & N).
  eapply wp_done; [|apply HQ].
  - unfold on_mach, zoom. unfold intr_on. rewrite (bind_run _ _ _ _ _ (hart_at_run _ _ _ Ex)).
    reflexivity.
  - eapply sees_set_hart; [done..|by apply sie_on_range|].
    destruct N as [N1 N2 N3 N4 N5 N6]. rewrite size_empty in *.
    split; try done. simpl. by rewrite N5.
Qed.

(** [sched] leaves the hart without a process and without locks. *)
Lemma wp_sched t st i v k m (Q : bool → kst F → Prop) :
  sees st (Some i) {[LProc i]} v k → v_ms v !! i = Some m → state m ≠ Running →
  (∀ k', sees st None ∅ v k' → Q (sie_get st) k') → wp t (sched h i) Q k.
Proof.
  intros Hs Hm Hr HQ. destruct (sees_hart _ _ _ _ _ Hs) as (Hst & x & c & Ex & N).
  rewrite size_singleton in N. unfold sched. apply wp_bind.
  eapply (wp_hart t k x cpu); [done|].
  apply wp_bind, wp_assert; [by rewrite (ne_noff _ _ _ _ _ N)|]. intros _.
  apply wp_bind. eapply wp_meta_at; [done|by eauto|]. intros m' Hm'. simplify_eq.
  apply wp_bind, wp_assert; [by rewrite bool_decide_eq_false_2|]. intros _.
  apply wp_bind. eapply (wp_hart t k x (λ y, sie_get (sstatus y))); [done|].
  apply wp_bind, wp_assert; [by rewrite (nested_sie _ _ _ _ _ Hst N)|]. intros _.
  apply wp_bind. eapply (wp_set_proc _ _ _ None); [done|]. clear k Hs Ex. intros k Hs.
  apply wp_bind. eapply wp_unlock; [done|set_solver|]. clear k Hs. intros k Hs.
  apply wp_ret. rewrite (ne_intena _ _ _ _ _ N) by done. apply HQ.
  by rewrite difference_diag_L in Hs.
Qed.

Lemma few_small L : (size L ≤ 3)%nat → few L.
Proof. unfold few. lia. Qed.

(** [yielding] and [sleep]: the entry changes, the hart is free. *)
Lemma wp_yielding t st i v k m (Q : bool → kst F → Prop) :
  sees st (Some i) ∅ v k → v_ms v !! i = Some m →
  (∀ k', sees st None ∅ (v_put i (ProcMeta.set_state m Runnable) v) k' → Q (sie_get st) k') →
  wp t (yielding h i) Q k.
Proof.
  intros Hs Hm HQ. unfold yielding. apply wp_bind.
  eapply wp_lock; [done|set_solver|by apply few_small; rewrite size_empty; lia|].
  clear k Hs. intros k Hs. rewrite union_empty_r_L in Hs.
  apply wp_bind. eapply wp_meta_at; [done|by eauto|]. intros m' Hm'. simplify_eq.
  apply wp_bind. eapply wp_put_meta; [done|by eauto|]. clear k Hs. intros k Hs.
  eapply wp_sched; [done|simpl; rewrite list_lookup_insert_eq; [done|by eapply lookup_lt_Some]
    |done|done].
Qed.

Lemma wp_sleep t st i v k m ch l (Q : bool → kst F → Prop) :
  sees st (Some i) {[l]} v k → l ≠ LProc i → v_ms v !! i = Some m →
  (∀ k', sees st None ∅ (v_put i (mkMeta Sleeping ch (killed m) (xstate m) (pid m)) v) k' →
     Q (sie_get st) k') →
  wp t (sleep h i ch l) Q k.
Proof.
  intros Hs Hl Hm HQ. unfold sleep. apply wp_bind.
  eapply wp_lock; [done|set_solver|by apply few_small; rewrite size_singleton; lia|].
  clear k Hs. intros k Hs. apply wp_bind.
  eapply wp_unlock; [done|set_solver|]. clear k Hs. intros k Hs.
  replace (({[LProc i]} ∪ {[l]}) ∖ {[l]} : gset lockid) with ({[LProc i]} : gset lockid) in Hs
    by set_solver.
  apply wp_bind. eapply wp_meta_at; [done|by eauto|]. intros m' Hm'. simplify_eq.
  apply wp_bind. eapply wp_put_meta; [done|by eauto|]. clear k Hs. intros k Hs.
  eapply wp_sched; [done|simpl; rewrite list_lookup_insert_eq; [done|by eapply lookup_lt_Some]
    |done|done].
Qed.

(** Coming back: the lock of the entry is dropped, a sleeper forgets its
    channel. *)
Lemma wp_sleep_resume t st i v k m b (Q : unit → kst F → Prop) :
  sees st (Some i) {[LProc i]} v k → v_ms v !! i = Some m →
  (∀ k', sees (with_intena st b) (Some i) ∅
     (v_put i (mkMeta (state m) 0 (killed m) (xstate m) (pid m)) v) k' → Q tt k') →
  wp t (sleep_resume h i b) Q k.
Proof.
  intros Hs Hm HQ. unfold sleep_resume. apply wp_bind.
  eapply wp_sched_resume; [done|set_solver|]. clear k Hs. intros k Hs.
  apply wp_bind. eapply wp_meta_at; [done|by eauto|]. intros m' Hm'. simplify_eq.
  apply wp_bind. eapply wp_put_meta; [done|by eauto|]. clear k Hs. intros k Hs.
  eapply wp_unlock; [done|set_solver|]. clear k Hs. intros k Hs.
  rewrite difference_diag_L in Hs. by apply HQ.
Qed.
Lemma wp_yielding_resume t st i v k b (Q : unit → kst F → Prop) :
  sees st (Some i) {[LProc i]} v k →
  (∀ k', sees (with_intena st b) (Some i) ∅ v k' → Q tt k') → wp t (yielding_resume h i b) Q k.
Proof.
  intros Hs HQ. unfold yielding_resume. apply wp_bind.
  eapply wp_sched_resume; [done|set_solver|]. clear k Hs. intros k Hs.
  eapply wp_unlock; [done|set_solver|]. clear k Hs. intros k Hs.
  rewrite difference_diag_L in Hs. by apply HQ.
Qed.
Lemma wp_fork_ret t st i v k (Q : unit → kst F → Prop) :
  sees st (Some i) {[LProc i]} v k →
  (∀ k', sees st (Some i) ∅ v k' → Q tt k') → wp t (fork_ret h) Q k.
Proof.
  intros Hs HQ. unfold fork_ret, the_proc. apply wp_bind, wp_bind.
  eapply wp_myproc; [done|by apply few_small; rewrite size_singleton; lia|].
  clear k Hs. intros k Hs. apply wp_unwrap; [by eauto|]. intros ? [= <-].
  eapply wp_unlock; [done|set_solver|]. clear k Hs. intros k Hs.
  rewrite difference_diag_L in Hs. by apply HQ.
Qed.
End switching.
