(* ===== verification/ProcOps.v ===== *)
(** * What the process operations do to the table

    Specifications, in the logic of ProcSpec, of the operations of Proc that
    change the process table: scheduling, exit, wait, kill, allocation, fork
    and release. *)
From S2P Require Import Prelude.
From S2P Require Import Layout.
From S2P Require Import Kalloc.
From S2P Require Import PageTable.
From S2P Require Import Spin.
From S2P Require Import SpinSafe.
From S2P Require Import Proc.
From S2P Require Import ProcSpec.

(** The first entry in a given state. *)
Definition first_in (s : ProcState) (ms : list ProcMeta) : option nat :=
  fst <$> list_find (λ m, state m = s) ms.

Lemma first_in_Some s ms i :
  first_in s ms = Some i ↔
  (∃ m, ms !! i = Some m ∧ state m = s) ∧
  ∀ j m, (j < i)%nat → ms !! j = Some m → state m ≠ s.
Proof.
  unfold first_in. split.
  - intros ([i' m] & Hf & ->)%fmap_Some. apply list_find_Some in Hf as (Hm & Hs & Hj).
    simpl. eauto 10.
  - intros [(m & Hm & Hs) Hj]. apply fmap_Some. exists (i, m). split; [|done].
    apply list_find_Some. eauto.
Qed.
Lemma first_in_None s ms : first_in s ms = None ↔ ∀ j m, ms !! j = Some m → state m ≠ s.
Proof.
  unfold first_in. rewrite fmap_None, list_find_None, Forall_lookup. done.
Qed.

(** The file layer may wake sleepers and change its own state; it gives back
    the locks it takes. *)
Definition fs_safe {F} (t : bool) (m : M (kst F) unit) : Prop :=
  ∀ O h st p v k, sees O h st p ∅ v k →
    wp t m (λ _ k', ∃ ms, Forall2 woken (v_ms v) ms ∧ sees O h st p ∅ (v_set_ms ms v) k') k.
(** With [t = true] they also complete. *)
Class FileLaws (t : bool) (F : Type) `{FileOps F} := {
  file_clone_safe f : fs_safe t (file_clone f);
  file_drop_safe f : fs_safe t (file_drop f);
  inode_clone_safe n : fs_safe t (inode_clone n);
  inode_drop_safe n : fs_safe t (inode_drop n);
  log_begin_op_safe : fs_safe t log_begin_op;
  log_end_op_safe : fs_safe t log_end_op
}.

Section ops.
Context {F : Type} `{Sym : Symbols} `{FileOps F} (O : nat → option hart) (h : nat).
Implicit Types (k : kst F) (v : view) (L : gset lockid) (p : option nat) (t : bool) (st : Z).
Local Abbreviation sees := (sees O h).
Local Abbreviation K := (M (kst F)).

Lemma few_empty : few ∅.
Proof. apply few_small. rewrite size_empty. lia. Qed.
Lemma few_one l : few {[l]}.
Proof. apply few_small. rewrite size_singleton. lia. Qed.
Lemma few_two l l' : few ({[l]} ∪ {[l']}).
Proof.
  apply few_small. pose proof (size_union_alt ({[l]} : gset lockid) {[l']}) as E.
  rewrite size_singleton in E.
  pose proof (subseteq_size ({[l']} ∖ {[l]} : gset lockid) {[l']} ltac:(set_solver)) as Hs.
  rewrite size_singleton in Hs. lia.
Qed.
Hint Resolve few_empty few_one few_two : rxos.

(** ** Scheduling *)
Lemma wp_seek_loop t st p v k j n (Q : option nat → kst F → Prop) :
  sees st p ∅ v k → (j + n = length (v_ms v))%nat →
  (∀ i m, (i < j)%nat → v_ms v !! i = Some m → state m ≠ Runnable) →
  (first_in Runnable (v_ms v) = None → ∀ k', sees st p ∅ v k' → Q None k') →
  (∀ i m, first_in Runnable (v_ms v) = Some i → v_ms v !! i = Some m →
     ∀ k', sees st p ∅ (v_put i (ProcMeta.set_state m Allocated) v) k' → Q (Some i) k') →
  wp t (seek_loop h (seq j n)) Q k.
Proof.
  revert j k. induction n as [|n IH]; intros j k Hs Hn Hj HN HS; simpl.
  { apply wp_ret. apply HN; [|done]. apply first_in_None. intros i m Hi.
    apply (Hj i); [|done]. apply lookup_lt_Some in Hi. lia. }
  apply wp_bind. eapply wp_lock; [done|set_solver|auto with rxos|]. clear k Hs. intros k Hs.
  destruct (lookup_lt_is_Some_2 (v_ms v) j) as [m Hm]; [lia|].
  apply wp_bind. eapply wp_meta_at; [done|by eauto|]. intros m' Hm'. simplify_eq.
  case_bool_decide as Hr.
  - apply wp_bind. eapply wp_put_meta; [done|by eauto|]. clear k Hs. intros k Hs.
    apply wp_bind. eapply wp_unlock_back; [done|set_solver|]. clear k Hs. intros k Hs.
    apply wp_ret. apply (HS j m); [|done..]. apply first_in_Some. eauto.
  - apply wp_bind. eapply wp_unlock_back; [done|set_solver|]. clear k Hs. intros k Hs.
    apply IH; [done|lia| |done..]. intros i m' Hi Hm'.
    destruct (decide (i = j)) as [->|]; [by simplify_eq|apply (Hj i); [lia|done]].
Qed.

Lemma wp_seek_runnable t st p v k (Q : option nat → kst F → Prop) :
  sees st p ∅ v k →
  (first_in Runnable (v_ms v) = None → ∀ k', sees st p ∅ v k' → Q None k') →
  (∀ i m, first_in Runnable (v_ms v) = Some i → v_ms v !! i = Some m →
     ∀ k', sees st p ∅ (v_put i (ProcMeta.set_state m Allocated) v) k' → Q (Some i) k') →
  wp t (seek_runnable h) Q k.
Proof.
  intros Hs HN HS. unfold seek_runnable. apply wp_bind. eapply wp_all_procs; [done|].
  eapply wp_seek_loop; [done|lia|intros; lia|done..].
Qed.

Lemma v_put_lookup i m v : (i < length (v_ms v))%nat → v_ms (v_put i m v) !! i = Some m.
Proof. intros. simpl. by apply list_lookup_insert_eq. Qed.
Lemma v_put_twice i m m' v : v_put i m' (v_put i m v) = v_put i m' v.
Proof. unfold v_put, v_set_ms. simpl. by rewrite list_insert_insert_eq. Qed.

(** A round of the scheduler takes the first runnable entry, if any, and
    ends with its lock. *)
Lemma wp_scheduler_round t st v k (Q : option nat → kst F → Prop) :
  sees st None ∅ v k →
  (first_in Runnable (v_ms v) = None → ∀ k', sees (sie_on st) None ∅ v k' → Q None k') →
  (∀ i m, first_in Runnable (v_ms v) = Some i → v_ms v !! i = Some m →
     ∀ k', sees (sie_on st) (Some i) {[LProc i]} (v_put i (ProcMeta.set_state m Running) v) k' →
     Q (Some i) k') →
  wp t (scheduler_round h) Q k.
Proof.
  intros Hs HN HS. unfold scheduler_round. apply wp_bind.
  eapply wp_intr_on; [done|]. clear k Hs. intros k Hs.
  apply wp_bind. eapply wp_seek_runnable; [done| |].
  { intros HF k' Hs'. apply wp_ret. by apply HN. }
  intros i m Hi Hm k' Hs'. clear k Hs.
  apply wp_bind. eapply (wp_set_proc _ _ _ _ _ (Some i)); [done|]. clear k' Hs'. intros k Hs.
  apply wp_bind. eapply wp_lock; [done|set_solver|auto with rxos|]. clear k Hs. intros k Hs.
  rewrite union_empty_r_L in Hs. pose proof (lookup_lt_Some _ _ _ Hm) as Hlt.
  apply wp_bind. eapply wp_meta_at; [done|by rewrite v_put_lookup by done; eauto|].
  intros m' Hm'. rewrite v_put_lookup in Hm' by done. simplify_eq.
  apply wp_bind. eapply wp_put_meta; [done|by rewrite v_put_lookup by done; eauto|].
  clear k Hs. intros k Hs. apply wp_ret. rewrite v_put_twice in Hs. by apply (HS i m).
Qed.

(** ** exit *)
Definition reparent_wl (addr ip : Z) (wl : list Z) : list Z :=
  (λ a, if a =? addr then ip else a) <$> wl.
(** The table after the children of [addr] went to [ip]: [ip] was woken if
    there were any. *)
Definition reparent_ms (p : option nat) (addr ip : Z) (wl : list Z) (ms : list ProcMeta)
    : list ProcMeta :=
  if existsb (λ a, a =? addr) wl then wake_tab p ip ms else ms.

Lemma wake_meta_idem ch m : wake_meta ch (wake_meta ch m) = wake_meta ch m.
Proof.
  unfold wake_meta at 2. destruct (bool_decide (state m = Sleeping) && (chan m =? ch)) eqn:E.
  - unfold wake_meta. by rewrite E.
  - unfold wake_meta. by rewrite E.
Qed.
Lemma wake_tab_idem p ch ms : wake_tab p ch (wake_tab p ch ms) = wake_tab p ch ms.
Proof.
  apply list_eq. intros i. unfold wake_tab. rewrite !list_lookup_imap.
  destruct (ms !! i); [|done]. cbn [fmap option_fmap option_map].
  case_decide; [done|]. by rewrite wake_meta_idem.
Qed.
Lemma reparent_ms_cons p addr ip a wl ms :
  reparent_ms p addr ip wl (if a =? addr then wake_tab p ip ms else ms) =
  reparent_ms p addr ip (a :: wl) ms.
Proof.
  unfold reparent_ms. simpl. destruct (a =? addr); simpl; [|done].
  destruct (existsb _ wl); [by rewrite wake_tab_idem|done].
Qed.

Lemma wp_reparent_loop t st p L v k addr pre post (Q : unit → kst F → Prop) :
  sees st p L v k → (∀ i, p ≠ Some i → LProc i ∉ L) → few L →
  (t = true → is_Some (v_ip v)) → v_wl v = pre ++ post →
  (∀ k', sees st p L (v_set_ms (reparent_ms p addr (default 0 (v_ip v)) post (v_ms v))
      (v_set_wl (pre ++ reparent_wl addr (default 0 (v_ip v)) post) v)) k' → Q tt k') →
  wp t (for_each (seq (length pre) (length post)) (reparent_one h addr)) Q k.
Proof.
  revert pre v k. induction post as [|a post IH]; intros pre v k Hs HL Hf Hip Hwl HQ; simpl.
  { apply wp_ret. apply HQ. simpl. rewrite <- Hwl. by destruct v. }
  assert (v_wl v !! length pre = Some a) as Ha by (by rewrite Hwl, list_lookup_middle).
  replace (S (length pre)) with (length (pre ++ [if a =? addr then default 0 (v_ip v) else a]))
    by (rewrite length_app; simpl; lia).
  apply wp_bind. unfold reparent_one. apply wp_bind.
  eapply wp_wait_at; [done|by eauto|]. intros a' Ha'. rewrite Ha in Ha'. injection Ha' as <-.
  rewrite <- reparent_ms_cons in HQ. unfold reparent_wl in HQ. simpl in HQ.
  destruct (a =? addr) eqn:E.
  - apply wp_bind, wp_get. apply wp_bind, wp_unwrap; [by rewrite (se_ip _ _ _ _ _ _ _ Hs)|].
    intros ip Hsip. rewrite (se_ip _ _ _ _ _ _ _ Hs) in Hsip. rewrite Hsip in HQ |- *. simpl in HQ.
    apply wp_bind. eapply wp_put_wait; [done|by eauto|]. clear k Hs. intros k Hs.
    eapply wp_wake_up; [done..|]. clear k Hs. intros k Hs.
    eapply IH; [exact Hs|done|done|simpl; by rewrite Hsip| |].
    + simpl. rewrite Hwl, insert_app_r_alt, Nat.sub_diag, <- app_assoc by lia. done.
    + simpl. rewrite Hsip. simpl. rewrite <- app_assoc. exact HQ.
  - apply wp_ret. eapply (IH _ v); [done..|by rewrite Hwl, <- app_assoc|].
    rewrite <- app_assoc. exact HQ.
Qed.

Lemma wp_reparent t st p L v k addr (Q : unit → kst F → Prop) :
  sees st p L v k → (∀ i, p ≠ Some i → LProc i ∉ L) → few L → (t = true → is_Some (v_ip v)) →
  (∀ k', sees st p L (v_set_ms (reparent_ms p addr (default 0 (v_ip v)) (v_wl v) (v_ms v))
      (v_set_wl (reparent_wl addr (default 0 (v_ip v)) (v_wl v)) v)) k' → Q tt k') →
  wp t (reparent h addr) Q k.
Proof.
  intros Hs HL Hf Hip HQ. unfold reparent. apply wp_bind, wp_get.
  rewrite (se_wl _ _ _ _ _ _ _ Hs). by eapply (wp_reparent_loop t st p L v k addr [] (v_wl v)).
Qed.

Lemma wp_put_idx t st p L v k (j : nat) a (Q : unit → kst F → Prop) :
  sees st p L v k → (j < length (v_ms v))%nat → (∀ k', sees st p L v k' → Q tt k') →
  wp t (if (j <? length (idx_pids k))%nat
        then put (set_idx_pids (<[j := a]> (idx_pids k)) k) else panic oob) Q k.
Proof.
  intros Hs Hj HQ. rewrite (se_idx _ _ _ _ _ _ _ Hs), (proj2 (Nat.ltb_lt _ _) Hj).
  apply wp_put, HQ. destruct Hs. split; try done. simpl. by rewrite length_insert.
Qed.

Definition zombie (status : Z) (m : ProcMeta) : ProcMeta :=
  mkMeta Zombie (chan m) (killed m) status (pid m).

Section files.
Context (t : bool) {Laws : FileLaws t F}.

Lemma sees_ms st p L v k : sees st p L v k → sees st p L (v_set_ms (v_ms v) v) k.
Proof. by destruct v. Qed.

(** What the operations on files need of the entry. *)
Definition fs_safe_at (i : nat) (m : K unit) : Prop :=
  ∀ O h st p v k, ProcSpec.sees O h st p ∅ v k → is_Some (v_ms v !! i) →
    wp t m (λ _ k', ∃ ms, Forall2 woken (v_ms v) ms ∧
      ProcSpec.sees O h st p ∅ (v_set_ms ms v) k') k.
Lemma woken_is_Some ms ms' i : Forall2 woken ms ms' → is_Some (ms !! i) → is_Some (ms' !! i).
Proof. intros W%Forall2_length. rewrite !lookup_lt_is_Some. lia. Qed.

Lemma close_one_safe i fd : fs_safe_at i (close_one i fd).
Proof.
  intros O' h' st p v k Hs Hin. unfold close_one. apply wp_bind. eapply wp_data_at; [done..|].
  intros d Hi Hd. apply wp_when_some.
  { intros _. exists (v_ms v). split; [reflexivity|by destruct v]. }
  intros f _. apply wp_bind. eapply wp_put_data; [done..|]. clear k Hs. intros k Hs.
  by eapply file_drop_safe.
Qed.
Lemma close_files_safe i : fs_safe_at i (close_files i).
Proof.
  intros O' h' st p v k Hs Hin. unfold close_files. apply wp_bind. eapply wp_data_at; [done..|].
  intros d Hi Hd. eapply wp_mono; [apply (wp_for_each t _ _ (λ _ k, ∃ ms,
    Forall2 woken (v_ms v) ms ∧ ProcSpec.sees O' h' st p ∅ (v_set_ms ms v) k))|].
  - clear k Hs. intros x _ k (ms & Hw & Hs).
    eapply wp_mono; [apply (close_one_safe i x _ _ _ _ _ _ Hs); by eapply woken_is_Some|].
    intros [] k' (ms' & Hw' & Hs'). exists ms'. split; [|done]. by etrans.
  - exists (v_ms v). split; [reflexivity|by destruct v].
  - intros [] k' Hk'. done.
Qed.
Lemma drop_cwd_safe i : fs_safe_at i (drop_cwd i).
Proof.
  intros O' h' st p v k Hs Hin. unfold drop_cwd. apply wp_bind.
  eapply wp_mono; [by eapply log_begin_op_safe|]. clear k Hs. intros [] k (ms1 & W1 & Hs).
  apply wp_bind. eapply wp_data_at; [done|intros _; by eapply woken_is_Some|]. intros d Hi Hd.
  apply wp_bind. eapply wp_put_data; [done..|]. clear k Hs. intros k Hs.
  apply wp_bind. apply wp_when_some.
  - intros _. eapply wp_mono; [by eapply log_end_op_safe|]. clear k Hs.
    intros [] k (ms2 & W2 & Hs). exists ms2. split; [by etrans|done].
  - intros f _. eapply wp_mono; [by eapply inode_drop_safe|]. clear k Hs.
    intros [] k (ms2 & W2 & Hs). eapply wp_mono; [by eapply log_end_op_safe|]. clear k Hs.
    intros [] k (ms3 & W3 & Hs). exists ms3. split; [|done]. simpl in *. etrans; [done|by etrans].
Qed.

(** The table after the last part of [exit] of process [i], which runs under
    the wait lock. *)
Definition exit_wl (i : nat) (v : view) : list Z :=
  reparent_wl (proc_addr i) (default 0 (v_ip v)) (v_wl v).
Definition exit_ms (i : nat) (status : Z) (v : view) : list ProcMeta :=
  let ms1 := reparent_ms (Some i) (proc_addr i) (default 0 (v_ip v)) (v_wl v) (v_ms v) in
  let ms2 := wake_tab (Some i) (default 0 (exit_wl i v !! i)) ms1 in
  alter (zombie status) i ms2.

Lemma length_reparent_ms p addr ip wl ms : length (reparent_ms p addr ip wl ms) = length ms.
Proof. unfold reparent_ms. destruct (existsb _ wl); [apply length_wake_tab|done]. Qed.

Lemma wp_exit st i v k status (Q : unit → kst F → Prop) :
  sees st (Some i) ∅ v k → is_Some (v_ms v !! i) →
  (t = true → is_Some (v_ip v) ∧ is_Some (v_wl v !! i)) →
  (∀ ms k', Forall2 woken (v_ms v) ms →
     let v1 := v_set_ms ms v in
     sees st None ∅ (v_set_ms (exit_ms i status v1) (v_set_wl (exit_wl i v1) v1)) k' → Q tt k') →
  wp t (exit h status) Q k.
Proof.
  intros Hs Hi Ht HQ. unfold exit. apply wp_bind. eapply wp_myproc; [done|auto with rxos|].
  clear k Hs. intros k Hs. apply wp_bind, wp_unwrap; [by eauto|]. intros ? [= <-].
  apply wp_bind. eapply wp_data_at; [done..|]. intros d _ Hd.
  apply wp_bind. eapply wp_lock; [done|set_solver|auto with rxos|]. clear k Hs. intros k Hs.
  apply wp_bind, wp_get. apply wp_bind.
  eapply wp_put_idx; [done|rewrite Hd; by apply lookup_lt_is_Some|]. clear k Hs. intros k Hs.
  apply wp_bind. eapply wp_unlock_back; [done|set_solver|]. clear k Hs. intros k Hs.
  apply wp_bind. eapply wp_mono; [by eapply close_files_safe|]. clear k Hs.
  intros [] k (ms1 & W1 & Hs).
  apply wp_bind. eapply wp_mono; [eapply drop_cwd_safe; [done|by eapply woken_is_Some]|].
  clear k Hs. intros [] k (ms2 & W2 & Hs).
  simpl in W2. assert (Forall2 woken (v_ms v) ms2) as W by (by etrans).
  specialize (HQ ms2). apply Forall2_length in W as Hlen. specialize (fun k' => HQ k' W). simpl in HQ.
  change (v_set_ms ms2 (v_set_ms _ v)) with (v_set_ms ms2 v) in Hs. clear W1 W2 ms1.
  set (v1 := v_set_ms ms2 v) in *.
  apply wp_bind. eapply wp_lock; [done|set_solver|auto with rxos|]. clear k Hs. intros k Hs.
  rewrite union_empty_r_L in Hs. apply wp_bind.
  eapply wp_reparent; [done|set_solver|auto with rxos|by intros [? ?]%Ht|]. clear k Hs. intros k Hs.
  apply wp_bind. eapply wp_wait_at; [done| |].
  { intros [_ Hw]%Ht. rewrite Hd. simpl. unfold reparent_wl. rewrite list_lookup_fmap.
    destruct Hw as [a ->]. by eexists. }
  intros a Ha. rewrite Hd in Ha. simpl in Ha.
  apply wp_bind. eapply wp_wake_up; [done|set_solver|auto with rxos|]. clear k Hs. intros k Hs.
  apply wp_bind. eapply wp_lock; [done|set_solver|auto with rxos|]. clear k Hs. intros k Hs.
  assert (is_Some (wake_tab (Some i) a (reparent_ms (Some i) (proc_addr i) (default 0 (v_ip v1))
    (v_wl v1) (v_ms v1)) !! i)) as Hi'.
  { apply lookup_lt_is_Some. rewrite length_wake_tab, length_reparent_ms. unfold v1. simpl.
    rewrite <- Hlen. by apply lookup_lt_is_Some. }
  apply wp_bind. eapply wp_meta_at; [done..|]. intros m Hm. simpl in Hm.
  apply wp_bind. eapply wp_put_meta; [done..|]. clear k Hs. intros k Hs.
  apply wp_bind. eapply wp_unlock; [done|set_solver|]. clear k Hs. intros k Hs.
  replace (({[LProc i]} ∪ {[LWait]}) ∖ {[LWait]} : gset lockid) with ({[LProc i]} : gset lockid)
    in Hs by set_solver.
  apply wp_bind. eapply (wp_sched O h _ _ _ _ _ (zombie status m)); [done| |done|].
  { apply v_put_lookup. by apply lookup_lt_is_Some. }
  clear k Hs. intros k Hs. apply wp_ret, HQ.
  replace (exit_ms i status v1) with (<[i := zombie status m]>
    (wake_tab (Some i) a (reparent_ms (Some i) (proc_addr i) (default 0 (v_ip v1)) (v_wl v1)
      (v_ms v1)))); [done|].
  unfold exit_ms, exit_wl, v1 in *. cbn [v_ip v_wl v_ms v_set_ms] in *. rewrite Ha.
  cbn [default from_option id] in *. rewrite list_insert_alter. apply list_alter_ext; [|done].
  intros x Hx. by simplify_eq.
Qed.
End files.

(** ** wait *)
Definition freed : ProcMeta := mkMeta Unused 0 false 0 0.

Lemma wp_free_proc st p L v k i (Q : unit → kst F → Prop) :
  sees st p L v k → LProc i ∉ L → few L →
  (∀ k', sees st p L (v_put i freed v) k' → Q tt k') → wp false (free_proc h i) Q k.
Proof.
  intros Hs Hl Hf HQ. unfold free_proc. apply wp_bind. eapply wp_data_at; [done..|].
  intros d Hi Hd. apply wp_bind. eapply wp_on_mem; [done|]. clear k Hs. intros _ k Hs.
  apply wp_bind. eapply wp_put_data; [done..|]. clear k Hs. intros k Hs.
  assert (∀ k, sees st p L v k → wp false (d ← data_at i; put_data i (ProcData.set_size d 0) ;;
    lock h (LProc i) ;; put_meta i (mkMeta Unused 0 false 0 0) ;; unlock h (LProc i)) Q k) as Hrest.
  { clear k Hs. intros k Hs. apply wp_bind. eapply wp_data_at; [done..|]. intros d' _ Hd'.
    apply wp_bind. eapply wp_put_data; [done..|]. clear k Hs. intros k Hs.
    apply wp_bind. eapply wp_lock; [done..|]. clear k Hs. intros k Hs.
    apply wp_bind. eapply wp_put_meta; [done..|]. clear k Hs. intros k Hs.
    by eapply wp_unlock_back. }
  apply wp_bind, wp_when_some; [intros _; by apply Hrest|]. intros pgt _.
  eapply wp_on_mem; [done|]. intros [] k' Hs'. by apply Hrest.
Qed.

(** Entry [i] is a child of process [me]. *)
Definition child (me : nat) (v : view) (i : nat) : Prop := v_wl v !! i = Some (proc_addr me).

Lemma wp_wait_scan t st me addr v k j n b (Q : option Z + bool → kst F → Prop) :
  sees st (Some me) {[LWait]} v k → (j + n = length (v_ms v))%nat →
  length (v_wl v) = length (v_ms v) →
  (t = true → ∀ i m, child me v i → v_ms v !! i = Some m → state m ≠ Zombie) →
  (∀ i m, (i < j)%nat → child me v i → v_ms v !! i = Some m → state m ≠ Zombie) →
  (∀ i m, child me v i → v_ms v !! i = Some m → state m = Zombie →
     ∀ k', sees st (Some me) ∅ (v_put i freed v) k' → Q (inl (Some (pid m))) k') →
  (∀ i m, child me v i → v_ms v !! i = Some m → state m = Zombie →
     ∀ k', sees st (Some me) ∅ v k' → Q (inl None) k') →
  ((∀ i m, child me v i → v_ms v !! i = Some m → state m ≠ Zombie) →
   ∀ b' k', (b' = true ↔ b = true ∨ ∃ i, (j ≤ i < j + n)%nat ∧ child me v i) →
     sees st (Some me) {[LWait]} v k' → Q (inr b') k') →
  wp t (wait_scan h me addr b (seq j n)) Q k.
Proof.
  revert j b k. induction n as [|n IH]; intros j b k Hs Hn Hwl Ht Hj HZ HE HN; simpl.
  { apply wp_ret. apply HN; [| |done].
    - intros i m Hc Hi. apply (Hj i); [|done..]. apply lookup_lt_Some in Hi. lia.
    - split; [by left|]. intros [?|(i & ? & ?)]; [done|lia]. }
  assert (j < length (v_ms v))%nat as Hlt by lia.
  destruct (lookup_lt_is_Some_2 _ _ Hlt) as [m Hm].
  destruct (lookup_lt_is_Some_2 (v_wl v) j) as [a Ha]; [lia|].
  apply wp_bind. eapply wp_data_at; [done|by eauto|]. intros d _ Hd.
  apply wp_bind. eapply wp_wait_at; [done|by rewrite Hd; eauto|]. intros a' Ha'.
  rewrite Hd, Ha in Ha'. injection Ha' as <-.
  destruct (Z.eqb_spec a (proc_addr me)) as [Heq|Hne].
  - apply wp_bind. eapply wp_lock; [done|set_solver|auto with rxos|]. clear k Hs. intros k Hs.
    apply wp_bind. eapply wp_meta_at; [done|by eauto|]. intros m' Hm'. simplify_eq.
    case_bool_decide as Hz.
    + destruct t.
      { exfalso. by apply (Ht eq_refl (pd_id d) m). }
      apply wp_bind, wp_unwrap; [done|]. intros pgt _. apply wp_bind.
      assert (∀ (r : result unit) k, sees st (Some me) ({[LProc (pd_id d)]} ∪ {[LWait]}) v k →
        wp false match r with
          | Ok _ => unlock h (LProc (pd_id d)) ;; free_proc h (pd_id d) ;; unlock h LWait ;;
                    mret (inl (Some (pid m)))
          | Err _ => unlock h (LProc (pd_id d)) ;; unlock h LWait ;; mret (inl None)
          end Q k) as Hrest.
      { clear k Hs. intros r k Hs. destruct r.
        - apply wp_bind. eapply wp_unlock_back; [done|set_solver|]. clear k Hs. intros k Hs.
          apply wp_bind. eapply wp_free_proc; [done|set_solver|auto with rxos|].
          clear k Hs. intros k Hs. apply wp_bind. eapply wp_unlock; [done|set_solver|].
          clear k Hs. intros k Hs. apply wp_ret. rewrite difference_diag_L in Hs. by eapply HZ.
        - apply wp_bind. eapply wp_unlock_back; [done|set_solver|]. clear k Hs. intros k Hs.
          apply wp_bind. eapply wp_unlock; [done|set_solver|].
          clear k Hs. intros k Hs. apply wp_ret. rewrite difference_diag_L in Hs. by eapply HE. }
      destruct (addr =? 0); [apply wp_ret; by apply (Hrest (Ok tt))|].
      eapply wp_on_mem; [done|]. intros r k' Hs'. by apply Hrest.
    + apply wp_bind. eapply wp_unlock_back; [done|set_solver|]. clear k Hs. intros k Hs.
      eapply (IH (S (pd_id d)) true); [done|lia|done|done| |done|done|].
      * intros i m' Hi Hc Hm'. destruct (decide (i = pd_id d)) as [->|]; [by simplify_eq|].
        apply (Hj i); [lia|done..].
      * intros Hno b' k' Hb Hs'. apply HN; [done| |done]. rewrite Hb.
        split; [intros _; right; exists (pd_id d); split; [lia|done]|by left].
  - eapply (IH (S j) b); [done|lia|done|done| |done|done|].
    + intros i m' Hi Hc Hm'. destruct (decide (i = j)) as [->|];
        [unfold child in Hc; by simplify_eq|]. apply (Hj i); [lia|done..].
    + intros Hno b' k' Hb Hs'. apply HN; [done| |done]. rewrite Hb.
      split; (intros [?|(i & ? & Hc)]; [by left|]); right; exists i; (split; [|done]); [lia|].
      assert (i ≠ j) by (intros ->; unfold child in Hc; by simplify_eq). lia.
Qed.

(** No child of [me] is a zombie. *)
Definition no_zombie (me : nat) (v : view) : Prop :=
  ∀ i m, child me v i → v_ms v !! i = Some m → state m ≠ Zombie.
Definition asleep (ch : Z) (m : ProcMeta) : ProcMeta :=
  mkMeta Sleeping ch (killed m) (xstate m) (pid m).

Lemma wp_wait_round t st me addr v k mm (Q : wres → kst F → Prop) :
  sees st (Some me) {[LWait]} v k → length (v_wl v) = length (v_ms v) →
  v_ms v !! me = Some mm → (t = true → no_zombie me v) →
  (∀ i m, child me v i → v_ms v !! i = Some m → state m = Zombie →
     ∀ k', sees st (Some me) ∅ (v_put i freed v) k' → Q (Returned (Some (pid m))) k') →
  (¬ no_zombie me v ∨ (∀ i, ¬ child me v i) ∨ killed mm = true →
     ∀ k', sees st (Some me) ∅ v k' → Q (Returned None) k') →
  (no_zombie me v → (∃ i, child me v i) → killed mm = false →
     ∀ k', sees st None ∅ (v_put me (asleep (proc_addr me) mm) v) k' → Q (Slept (sie_get st)) k') →
  wp t (wait_round h me addr) Q k.
Proof.
  intros Hs Hwl Hme Ht HZ HN HS. unfold wait_round. apply wp_bind. eapply wp_all_procs; [done|].
  apply wp_bind.
  eapply (wp_wait_scan t st me addr v k 0 (length (v_ms v)) false);
    [done|lia|done|done|intros; lia| | |].
  { intros i m Hc Hm Hz k' Hs'. apply wp_ret. by eapply HZ. }
  { intros i m Hc Hm Hz k' Hs'. apply wp_ret. apply HN; [|done]. left. intros Hno.
    by apply (Hno i m). }
  clear k Hs. intros Hno b k Hb Hs. apply wp_bind.
  assert (b = true ↔ ∃ i, child me v i) as Hkids.
  { rewrite Hb. split; [intros [?|(i & ? & ?)]; [done|eauto]|].
    intros [i Hi]. right. exists i. split; [|done]. apply lookup_lt_Some in Hi. lia. }
  eapply wp_lock; [done|set_solver|auto with rxos|]. clear k Hs. intros k Hs.
  apply wp_bind. eapply wp_meta_at; [done|by eauto|]. intros m' Hm'. simplify_eq.
  destruct (negb b || killed mm) eqn:E.
  - apply wp_bind. eapply wp_unlock; [done|set_solver|]. clear k Hs. intros k Hs.
    apply wp_bind. eapply wp_unlock; [done|set_solver|]. clear k Hs. intros k Hs.
    apply wp_ret. apply HN.
    + right. apply orb_true_iff in E as [E|E]; [left|by right].
      intros i Hi. assert (b = true) as Hbt by (apply Hkids; eauto). by rewrite Hbt in E.
    + replace (∅ : gset lockid) with
        ((({[LProc me]} ∪ {[LWait]}) ∖ {[LWait]}) ∖ {[LProc me]} : gset lockid) by set_solver.
      done.
  - apply orb_false_iff in E as [E1 E2]. apply negb_false_iff in E1.
    apply wp_bind. eapply wp_unlock_back; [done|set_solver|]. clear k Hs. intros k Hs.
    apply wp_bind. eapply wp_sleep; [done|done|done|]. clear k Hs. intros k Hs.
    apply wp_ret. apply HS; [done|by apply Hkids|done..].
Qed.

Lemma wp_wait t st me addr v k mm (Q : wres → kst F → Prop) :
  sees st (Some me) ∅ v k → length (v_wl v) = length (v_ms v) →
  v_ms v !! me = Some mm → (t = true → no_zombie me v) →
  (∀ i m, child me v i → v_ms v !! i = Some m → state m = Zombie →
     ∀ k', sees st (Some me) ∅ (v_put i freed v) k' → Q (Returned (Some (pid m))) k') →
  (¬ no_zombie me v ∨ (∀ i, ¬ child me v i) ∨ killed mm = true →
     ∀ k', sees st (Some me) ∅ v k' → Q (Returned None) k') →
  (no_zombie me v → (∃ i, child me v i) → killed mm = false →
     ∀ k', sees st None ∅ (v_put me (asleep (proc_addr me) mm) v) k' → Q (Slept (sie_get st)) k') →
  wp t (wait h addr) Q k.
Proof.
  intros Hs Hwl Hme Ht HZ HN HS. unfold wait, the_proc. apply wp_bind, wp_bind.
  eapply wp_myproc; [done|auto with rxos|]. clear k Hs. intros k Hs.
  apply wp_unwrap; [by eauto|]. intros ? [= <-].
  apply wp_bind. eapply wp_lock; [done|set_solver|auto with rxos|]. clear k Hs. intros k Hs.
  rewrite union_empty_r_L in Hs. by eapply wp_wait_round.
Qed.

(** ** kill *)

(** The effect of [kill]: entries with the pid are marked; the first of them
    that sleeps is made runnable and ends the search. *)
Fixpoint kill_ms (pid0 : Z) (ms : list ProcMeta) : option Z * list ProcMeta :=
  match ms with
  | [] => (None, [])
  | m :: ms' =>
    if pid m =? pid0 then
      if bool_decide (state m = Sleeping)
      then (Some 0, mkMeta Runnable (chan m) true (xstate m) (pid m) :: ms')
      else let r := kill_ms pid0 ms' in
           (fst r, mkMeta (state m) (chan m) true (xstate m) (pid m) :: snd r)
    else let r := kill_ms pid0 ms' in (fst r, m :: snd r)
  end.

Lemma wp_kill_loop t st p v k pid0 pre post (Q : option Z → kst F → Prop) :
  sees st p ∅ v k → v_ms v = pre ++ post →
  (∀ k', sees st p ∅ (v_set_ms (pre ++ snd (kill_ms pid0 post)) v) k' →
     Q (fst (kill_ms pid0 post)) k') →
  wp t (kill_loop h pid0 (seq (length pre) (length post))) Q k.
Proof.
  revert pre v k Q. induction post as [|m post IH]; intros pre v k Q Hs Hms HQ; simpl.
  { apply wp_ret. apply HQ. simpl. rewrite <- Hms. by destruct v. }
  assert (v_ms v !! length pre = Some m) as Hm by (by rewrite Hms, list_lookup_middle).
  assert (∀ x, v_put (length pre) x v = v_set_ms (pre ++ x :: post) v) as Hput.
  { intros x. unfold v_put. by rewrite Hms, insert_app_r_alt, Nat.sub_diag by lia. }
  assert (∀ x, S (length pre) = length (pre ++ [x : ProcMeta])) as Hlen.
  { intros x. rewrite length_app. simpl. lia. }
  apply wp_bind. eapply wp_lock; [done|set_solver|auto with rxos|]. clear k Hs. intros k Hs.
  apply wp_bind. eapply wp_meta_at; [done|by eauto|]. intros m' Hm'. rewrite Hm in Hm'.
  injection Hm' as <-. simpl in HQ. destruct (pid m =? pid0).
  - apply wp_bind. eapply wp_put_meta; [done|by eauto|]. clear k Hs. intros k Hs.
    case_bool_decide as Hsl.
    + apply wp_bind. eapply wp_put_meta;
        [done|by rewrite v_put_lookup by (by eapply lookup_lt_Some); eauto|].
      clear k Hs. intros k Hs. rewrite v_put_twice in Hs.
      apply wp_bind. eapply wp_unlock_back; [done|set_solver|]. clear k Hs. intros k Hs.
      apply wp_ret. rewrite Hput in Hs. by apply HQ.
    + apply wp_bind. eapply wp_unlock_back; [done|set_solver|]. clear k Hs. intros k Hs.
      rewrite Hput in Hs. rewrite (Hlen (mkMeta (state m) (chan m) true (xstate m) (pid m))).
      eapply IH; [exact Hs|simpl; by rewrite <- app_assoc|]. intros k' Hk'. apply HQ.
      by rewrite <- app_assoc in Hk'.
  - apply wp_bind. eapply wp_unlock_back; [done|set_solver|]. clear k Hs. intros k Hs.
    rewrite (Hlen m). eapply IH; [exact Hs|by rewrite Hms, <- app_assoc|].
    intros k' Hk'. apply HQ. by rewrite <- app_assoc in Hk'.
Qed.

Lemma wp_kill t st p v k pid0 (Q : option Z → kst F → Prop) :
  sees st p ∅ v k →
  (∀ k', sees st p ∅ (v_set_ms (snd (kill_ms pid0 (v_ms v))) v) k' →
     Q (fst (kill_ms pid0 (v_ms v))) k') →
  wp t (kill h pid0) Q k.
Proof.
  intros Hs HQ. unfold kill. apply wp_bind. eapply wp_all_procs; [done|].
  by eapply (wp_kill_loop t st p v k pid0 [] (v_ms v)).
Qed.

(** ** Allocation and fork *)
Definition allocated (pid0 : Z) (m : ProcMeta) : ProcMeta :=
  mkMeta Allocated (chan m) (killed m) (xstate m) pid0.

(** Filling the entry in under its lock. *)
Lemma wp_alloc_body st p v k pid0 i (Q : option nat → kst F → Prop) :
  sees st p {[LProc i]} v k → is_Some (v_ms v !! i) →
  (∀ k', sees st p ∅ v k' → Q (Some i) k') →
  wp false (tf ← on_mem new_zeroed;
    d ← data_at i;
    put_data i (ProcData.set_trapframe d tf) ;;
    pgt ← proc_pagetable i;
    d ← data_at i;
    put_data i (ProcData.set_pagetable d pgt) ;;
    when_some (pagetable d) (λ old, on_mem (PageTable.drop_box 3 old)) ;;
    init_context i ;;
    lock h LIdxPids ;;
    k ← get;
    (if (pd_id d <? length (idx_pids k))%nat
     then put (set_idx_pids (<[pd_id d := pid0]> (idx_pids k)) k) else panic oob) ;;
    unlock h LIdxPids ;;
    unlock h (LProc i) ;;
    mret (Some i)) Q k.
Proof.
  intros Hs Hi HQ.
  apply wp_bind. eapply wp_on_mem; [done|]. clear k Hs. intros tf k Hs.
  apply wp_bind. eapply wp_data_at; [done..|]. intros d _ Hd.
  apply wp_bind. eapply wp_put_data; [done..|]. clear k Hs. intros k Hs.
  apply wp_bind. unfold proc_pagetable. apply wp_bind. eapply wp_data_at; [done..|]. intros d1 _ _.
  eapply wp_on_mem; [done|]. clear k Hs. intros pgt k Hs.
  apply wp_bind. eapply wp_data_at; [done..|]. intros d2 _ Hd2.
  apply wp_bind. eapply wp_put_data; [done..|]. clear k Hs. intros k Hs.
  assert (∀ k, sees st p {[LProc i]} v k → wp false (init_context i ;; lock h LIdxPids ;;
    k ← get;
    (if (pd_id d2 <? length (idx_pids k))%nat
     then put (set_idx_pids (<[pd_id d2 := pid0]> (idx_pids k)) k) else panic oob) ;;
    unlock h LIdxPids ;; unlock h (LProc i) ;; mret (Some i)) Q k) as Hrest.
  { clear k Hs. intros k Hs. apply wp_bind. unfold init_context. apply wp_bind.
    eapply wp_data_at; [done..|]. intros d3 _ Hd3. apply wp_bind, wp_uadd; [done|]. intros _.
    eapply wp_put_data; [done..|]. clear k Hs. intros k Hs.
    apply wp_bind. eapply wp_lock; [done|set_solver|auto with rxos|]. clear k Hs. intros k Hs.
    apply wp_bind, wp_get. apply wp_bind.
    eapply wp_put_idx; [done|rewrite Hd2; by apply lookup_lt_is_Some|]. clear k Hs. intros k Hs.
    apply wp_bind. eapply wp_unlock_back; [done|set_solver|]. clear k Hs. intros k Hs.
    apply wp_bind. eapply wp_unlock; [done|set_solver|]. clear k Hs. intros k Hs.
    rewrite difference_diag_L in Hs. apply wp_ret. by apply HQ. }
  apply wp_bind, wp_when_some; [intros _; by apply Hrest|]. intros old _.
  eapply wp_on_mem; [done|]. intros [] k' Hs'. by apply Hrest.
Qed.

Lemma wp_alloc_loop st p v k pid0 j n (Q : option nat → kst F → Prop) :
  sees st p ∅ v k → (j + n = length (v_ms v))%nat →
  (∀ k', sees st p ∅ v k' → Q None k') →
  (∀ i m, v_ms v !! i = Some m → state m = Unused →
     ∀ k', sees st p ∅ (v_put i (allocated pid0 m) v) k' → Q (Some i) k') →
  wp false (alloc_loop h pid0 (seq j n)) Q k.
Proof.
  revert j k. induction n as [|n IH]; intros j k Hs Hn HN HS; cbn [seq alloc_loop].
  { apply wp_ret. by apply HN. }
  destruct (lookup_lt_is_Some_2 (v_ms v) j) as [m Hm]; [lia|].
  pose proof (lookup_lt_Some _ _ _ Hm) as Hlt.
  apply wp_bind. eapply wp_lock; [done|set_solver|auto with rxos|]. clear k Hs. intros k Hs.
  apply wp_bind. eapply wp_meta_at; [done|by eauto|]. intros m' Hm'. simplify_eq.
  case_bool_decide as Hu.
  - apply wp_bind. eapply wp_put_meta; [done|by eauto|]. clear k Hs. intros k Hs.
    rewrite union_empty_r_L in Hs.
    eapply wp_alloc_body; [done|by rewrite v_put_lookup|]. intros k' Hs'. by eapply (HS j m).
  - apply wp_bind. eapply wp_unlock_back; [done|set_solver|]. clear k Hs. intros k Hs.
    eapply IH; [done|lia|done..].
Qed.

Lemma wp_alloc_proc st p v k (Q : option nat → kst F → Prop) :
  sees st p ∅ v k →
  let v1 := v_set_pids (wrap 64 (v_pids v + 1)) v in
  (∀ k', sees st p ∅ v1 k' → Q None k') →
  (∀ i m, v_ms v !! i = Some m → state m = Unused →
     ∀ k', sees st p ∅ (v_put i (allocated (v_pids v) m) v1) k' → Q (Some i) k') →
  wp false (alloc_proc h) Q k.
Proof.
  intros Hs v1 HN HS. unfold alloc_proc, alloc_pid. apply wp_bind, wp_bind, wp_get.
  apply wp_bind, wp_put, wp_ret. rewrite (se_pids _ _ _ _ _ _ _ Hs).
  assert (sees st p ∅ v1 (set_pids (wrap 64 (v_pids v + 1)) k)) as Hs1 by (destruct Hs; by split).
  apply wp_bind. eapply wp_all_procs; [done|].
  eapply wp_alloc_loop; [done|simpl; lia|done|done].
Qed.

Section fork.
Context {Laws : FileLaws false F}.

Lemma fs_safe_ret : fs_safe false (mret tt : K unit).
Proof.
  intros O' h' st p v k Hs. apply wp_ret. exists (v_ms v). split; [reflexivity|by destruct v].
Qed.
Lemma fs_safe_bind {A} (m : K A) (f : A → K unit) :
  (∀ O h st p v k, ProcSpec.sees O h st p ∅ v k →
     wp false m (λ _ k', ∃ ms, Forall2 woken (v_ms v) ms ∧
       ProcSpec.sees O h st p ∅ (v_set_ms ms v) k') k) →
  (∀ a, fs_safe false (f a)) → fs_safe false (m ≫= f).
Proof.
  intros Hm Hf O' h' st p v k Hs. apply wp_bind. eapply wp_mono; [by apply Hm|].
  intros a k' (ms & W & Hs'). eapply wp_mono; [by apply Hf|].
  intros [] k2 (ms2 & W2 & Hs2). exists ms2. split; [by etrans|done].
Qed.
Lemma fs_safe_when {A} (o : option A) (f : A → K unit) :
  (∀ a, fs_safe false (f a)) → fs_safe false (when_some o f).
Proof. intros Hf. destruct o; simpl; [done|apply fs_safe_ret]. Qed.
Lemma fs_safe_for {A} (xs : list A) (f : A → K unit) :
  (∀ a, fs_safe false (f a)) → fs_safe false (for_each xs f).
Proof.
  intros Hf. induction xs as [|x xs IH]; simpl; [apply fs_safe_ret|].
  apply fs_safe_bind; [|done]. intros. by eapply Hf.
Qed.
(** Reading and writing the data of an entry. *)
Lemma fs_safe_data i (f : ProcData → K unit) :
  (∀ d, pd_id d = i → fs_safe false (f d)) → fs_safe false (d ← data_at i; f d).
Proof.
  intros Hf O' h' st p v k Hs. apply wp_bind. eapply wp_data_at; [done..|].
  intros d _ Hd. by eapply Hf.
Qed.
Lemma fs_safe_put i d : pd_id d = i → fs_safe false (put_data i d : K unit).
Proof.
  intros Hd O' h' st p v k Hs. eapply wp_put_data; [done..|]. intros k' Hs'.
  exists (v_ms v). split; [reflexivity|by destruct v].
Qed.
Lemma fs_safe_seq (m f : K unit) : fs_safe false m → fs_safe false f → fs_safe false (m ;; f).
Proof. intros Hm Hf. apply fs_safe_bind; [|done]. intros. by eapply Hm. Qed.

Lemma clone_files_safe i c : fs_safe false (clone_files i c : K unit).
Proof.
  unfold clone_files. apply fs_safe_data. intros cd Hcd. apply fs_safe_seq.
  - apply fs_safe_for. intros fd. unfold clone_slot. apply fs_safe_data. intros d Hd.
    apply fs_safe_seq; [apply fs_safe_when, file_clone_safe|].
    apply fs_safe_data. intros cd' Hcd'.
    apply fs_safe_seq; [by apply fs_safe_put|apply fs_safe_when, file_drop_safe].
  - apply fs_safe_data. intros d Hd.
    apply fs_safe_seq; [apply fs_safe_when, inode_clone_safe|].
    apply fs_safe_data. intros cd' Hcd'.
    apply fs_safe_seq; [by apply fs_safe_put|apply fs_safe_when, inode_drop_safe].
Qed.

(** A fork by process [i] fails, or makes an unused entry [c] a runnable
    child with a fresh pid. *)
Lemma wp_fork st i v k (Q : option nat → kst F → Prop) :
  sees st (Some i) ∅ v k →
  let v1 := v_set_pids (wrap 64 (v_pids v + 1)) v in
  (∀ k', sees st (Some i) ∅ v1 k' → Q None k') →
  (∀ c m ms m', v_ms v !! c = Some m → state m = Unused →
     Forall2 woken (<[c := allocated (v_pids v) m]> (v_ms v)) ms → ms !! c = Some m' →
     ∀ k', sees st (Some i) ∅ (v_set_wl (<[c := proc_addr i]> (v_wl v))
       (v_set_ms (<[c := ProcMeta.set_state m' Runnable]> ms) v1)) k' → Q (Some c) k') →
  wp false (fork h i) Q k.
Proof.
  intros Hs v1 HN HS. unfold fork. apply wp_bind. eapply wp_alloc_proc; [done| |].
  { intros k' Hs'. apply wp_ret. by apply HN. }
  clear k Hs. intros c m Hm Hu k Hs. fold v1 in Hs. set (v2 := v_put c _ v1) in *.
  assert (is_Some (v_ms v2 !! c)) as Hc.
  { unfold v2. rewrite v_put_lookup; [done|]. by eapply lookup_lt_Some. }
  apply wp_bind. eapply wp_data_at; [done..|]. intros d _ Hd.
  apply wp_bind. eapply wp_data_at; [done..|]. intros cd _ Hcd.
  apply wp_bind.
  match goal with |- wp _ _ ?R k => assert (∀ k, sees st (Some i) ∅ v2 k → R tt k) as Hrest end.
  { clear k Hs. intros k Hs. apply wp_bind. eapply wp_on_mem; [done|]. clear k Hs. intros _ k Hs.
    apply wp_bind. eapply wp_mono; [by eapply clone_files_safe|]. clear k Hs.
    intros [] k (ms & W & Hs).
    apply wp_bind. eapply wp_data_at; [done..|]. intros cd' _ Hcd'.
    apply wp_bind. eapply wp_put_data; [done..|]. clear k Hs. intros k Hs.
    apply wp_bind. eapply wp_lock; [done|set_solver|auto with rxos|]. clear k Hs. intros k Hs.
    apply wp_bind. eapply wp_meta_at; [done..|]. intros m' Hm'.
    apply wp_bind. eapply wp_put_meta; [done..|]. clear k Hs. intros k Hs.
    apply wp_bind. eapply wp_unlock_back; [done|set_solver|]. clear k Hs. intros k Hs.
    apply wp_bind. eapply wp_lock; [done|set_solver|auto with rxos|]. clear k Hs. intros k Hs.
    apply wp_bind. eapply wp_put_wait; [done..|]. clear k Hs. intros k Hs.
    apply wp_bind. eapply wp_unlock_back; [done|set_solver|]. clear k Hs. intros k Hs.
    apply wp_ret. rewrite Hcd' in Hs. by eapply (HS c m ms m'). }
  destruct (pagetable d) as [pgt|]; [|apply wp_ret; by apply Hrest].
  destruct (pagetable cd) as [ch_pgt|]; [|apply wp_ret; by apply Hrest].
  apply wp_bind. eapply wp_on_mem; [done|]. clear k Hs. intros r k Hs. destruct r; [|done].
  eapply wp_on_mem; [done|]. intros [] k' Hs'. by apply Hrest.
Qed.
End fork.
End ops.
