(* ===== verification/ProcInv.v ===== *)
(** * The process table under every schedule

    The harts of the machine run scheduler rounds, system calls and
    interrupt handlers in any order; each step of [kstep] is one operation
    of Proc, from a moment where the hart holds no lock to the next such
    moment. The invariants of the table hold in every reachable state: a
    process runs on one hart, no exit of a child is lost on a waiting
    parent, and no two processes share a pid. *)
From stdpp Require Import functions.
From S2P Require Import Prelude.
From S2P Require Import Layout.
From S2P Require Import Kalloc.
From S2P Require Import Spin.
From S2P Require Import SpinSafe.
From S2P Require Import Proc.
From S2P Require Import ProcSpec.
From S2P Require Import ProcOps.

(** ** The invariants, on the table alone *)

(** Changes that only wake or mark entries. *)
Definition mild (m m' : ProcMeta) : Prop :=
  pid m' = pid m ∧
  (state m' = state m ∧ chan m' = chan m ∨ state m = Sleeping ∧ state m' = Runnable).
Lemma woken_mild m m' : woken m m' → mild m m'.
Proof. intros [-> | [Hs ->]]; split; auto. Qed.
Lemma kill_mild pid0 ms : Forall2 mild ms (snd (kill_ms pid0 ms)).
Proof.
  induction ms as [|m ms IH]; simpl; [done|].
  assert (Forall2 mild ms ms) as Hrefl by (apply Forall_Forall2_diag, Forall_true; by split; auto).
  destruct (pid m =? pid0); [case_bool_decide|]; simpl; constructor; auto; split; simpl; auto.
Qed.
Lemma mild_lookup ms ms' i m' :
  Forall2 mild ms ms' → ms' !! i = Some m' → ∃ m, ms !! i = Some m ∧ mild m m'.
Proof. intros H Hi. destruct (Forall2_lookup_r _ _ _ _ _ H Hi) as (m & ? & ?). eauto. Qed.
Lemma mild_lookup' ms ms' i m :
  Forall2 mild ms ms' → ms !! i = Some m → ∃ m', ms' !! i = Some m' ∧ mild m m'.
Proof. intros H Hi. destruct (Forall2_lookup_l _ _ _ _ _ H Hi) as (m' & ? & ?). eauto. Qed.

Definition running (ms : list ProcMeta) (i : nat) : Prop :=
  ∃ m, ms !! i = Some m ∧ state m = Running.

(** Harts and running processes correspond one to one. *)
Definition inv_run (ms : list ProcMeta) (pr : nat → option nat) : Prop :=
  (∀ i, running ms i ↔ ∃ h, pr h = Some i) ∧
  ∀ h h' i, pr h = Some i → pr h' = Some i → h = h'.

Lemma running_put ms i m' j :
  is_Some (ms !! i) →
  running (<[i := m']> ms) j ↔ (if decide (i = j) then state m' = Running else running ms j).
Proof.
  intros Hi%lookup_lt_is_Some. unfold running. case_decide as E.
  - subst. rewrite list_lookup_insert_eq by done. naive_solver.
  - by rewrite list_lookup_insert_ne.
Qed.
Lemma running_mild ms ms' i : Forall2 mild ms ms' → running ms' i ↔ running ms i.
Proof.
  intros H. split.
  - intros (m' & Hm' & Hr). destruct (mild_lookup _ _ _ _ H Hm') as (m & Hm & _ & Hs).
    exists m. split; [done|]. destruct Hs as [[? _]|[_ ?]]; congruence.
  - intros (m & Hm & Hr). destruct (mild_lookup' _ _ _ _ H Hm) as (m' & Hm' & _ & Hs).
    exists m'. split; [done|]. destruct Hs as [[? _]|[? _]]; congruence.
Qed.
Lemma run_mild ms ms' pr : Forall2 mild ms ms' → inv_run ms pr → inv_run ms' pr.
Proof. intros H [H1 H2]. split; [|done]. intros i. by rewrite running_mild. Qed.
(** A change of an entry that does not run. *)
Lemma run_put ms pr i m m' :
  inv_run ms pr → ms !! i = Some m → (state m = Running ↔ state m' = Running) →
  inv_run (<[i := m']> ms) pr.
Proof.
  intros [H1 H2] Hm Hs. split; [|done]. intros j. rewrite running_put by eauto.
  case_decide as E; [subst|done]. rewrite <- H1, <- Hs. unfold running. naive_solver.
Qed.
Lemma run_leave ms pr h i m' :
  inv_run ms pr → pr h = Some i → is_Some (ms !! i) → state m' ≠ Running →
  inv_run (<[i := m']> ms) (<[h := None]> pr).
Proof.
  intros [H1 H2] Hh Hi Hs. split.
  - intros j. rewrite running_put by done. case_decide as E; [subst|].
    + split; [done|]. intros [h' Hh']. destruct (decide (h' = h)) as [->|];
        [by rewrite fn_lookup_insert in Hh'|]. rewrite fn_lookup_insert_ne in Hh' by done.
      by pose proof (H2 _ _ _ Hh Hh').
    + rewrite H1. split; intros [h' Hh']; exists h'.
      * rewrite fn_lookup_insert_ne; [done|]. intros ->. congruence.
      * destruct (decide (h' = h)) as [->|]; [by rewrite fn_lookup_insert in Hh'|].
        by rewrite fn_lookup_insert_ne in Hh'.
  - intros h1 h2 j. destruct (decide (h1 = h)) as [->|]; [by rewrite fn_lookup_insert|].
    destruct (decide (h2 = h)) as [->|]; [by rewrite fn_lookup_insert|].
    rewrite !fn_lookup_insert_ne by done. apply H2.
Qed.
Lemma run_enter ms pr h i m m' :
  inv_run ms pr → pr h = None → ms !! i = Some m → state m ≠ Running → state m' = Running →
  inv_run (<[i := m']> ms) (<[h := Some i]> pr).
Proof.
  intros [H1 H2] Hh Hm Hs Hs'.
  assert (∀ h', pr h' ≠ Some i) as Hno.
  { intros h' Hh'. destruct (proj2 (H1 i)) as (m0 & ? & ?); [eauto|]. congruence. }
  split.
  - intros j. rewrite running_put by eauto. case_decide as E; [subst|].
    + split; [|done]. intros _. exists h. by rewrite fn_lookup_insert.
    + rewrite H1. split; intros [h' Hh']; exists h'.
      * rewrite fn_lookup_insert_ne; [done|]. intros ->. congruence.
      * destruct (decide (h' = h)) as [->|]; [rewrite fn_lookup_insert in Hh'; congruence|].
        by rewrite fn_lookup_insert_ne in Hh'.
  - intros h1 h2 j. destruct (decide (h1 = h)) as [->|], (decide (h2 = h)) as [->|]; try done;
      rewrite ?fn_lookup_insert, ?fn_lookup_insert_ne by done; naive_solver.
Qed.

(** No process has the pid of another, and the next pid is free. *)
Definition inv_pid (ms : list ProcMeta) (n : Z) : Prop :=
  (∀ i m, ms !! i = Some m → state m ≠ Unused → 0 ≤ pid m < n) ∧
  ∀ i j mi mj, ms !! i = Some mi → ms !! j = Some mj → state mi ≠ Unused → state mj ≠ Unused →
    pid mi = pid mj → i = j.

Lemma pid_mild ms ms' n : Forall2 mild ms ms' → inv_pid ms n → inv_pid ms' n.
Proof.
  intros H [H1 H2].
  assert (∀ i m', ms' !! i = Some m' → state m' ≠ Unused →
    ∃ m, ms !! i = Some m ∧ state m ≠ Unused ∧ pid m' = pid m) as Hb.
  { intros i m' Hm' Hu. destruct (mild_lookup _ _ _ _ H Hm') as (m & Hm & Hp & Hs).
    exists m. split_and!; [done| |done]. destruct Hs as [[? _]|[? _]]; congruence. }
  split.
  - intros i m' Hm' Hu. destruct (Hb _ _ Hm' Hu) as (m & ? & ? & ->). eauto.
  - intros i j mi mj Hi Hj Hui Huj E. destruct (Hb _ _ Hi Hui) as (? & ? & ? & ?).
    destruct (Hb _ _ Hj Huj) as (? & ? & ? & ?). eapply H2; eauto. congruence.
Qed.
Lemma pid_put ms n i m m' :
  inv_pid ms n → ms !! i = Some m →
  (state m' = Unused ∨ pid m' = pid m ∧ state m ≠ Unused) → inv_pid (<[i := m']> ms) n.
Proof.
  intros [H1 H2] Hm Hc.
  assert (∀ j mj, <[i := m']> ms !! j = Some mj → state mj ≠ Unused →
    ∃ m0, ms !! j = Some m0 ∧ state m0 ≠ Unused ∧ pid mj = pid m0) as Hb.
  { intros j mj Hj Hu. destruct (decide (i = j)) as [<-|].
    - rewrite list_lookup_insert_eq in Hj by (by eapply lookup_lt_Some). simplify_eq.
      destruct Hc as [?|[? ?]]; [done|]. eauto.
    - rewrite list_lookup_insert_ne in Hj by done. eauto. }
  split.
  - intros j mj Hj Hu. destruct (Hb _ _ Hj Hu) as (m0 & ? & ? & ->). eauto.
  - intros a b ma mb Ha Hbb Hua Hub E. destruct (Hb _ _ Ha Hua) as (? & ? & ? & ?).
    destruct (Hb _ _ Hbb Hub) as (? & ? & ? & ?). eapply H2; eauto. congruence.
Qed.
Lemma pid_alloc ms n i m m' :
  inv_pid ms n → 0 ≤ n → ms !! i = Some m → pid m' = n → inv_pid (<[i := m']> ms) (n + 1).
Proof.
  intros [H1 H2] Hn Hm Hp.
  assert (∀ j mj, <[i := m']> ms !! j = Some mj → state mj ≠ Unused →
    i = j ∧ mj = m' ∨ i ≠ j ∧ ms !! j = Some mj) as Hb.
  { intros j mj Hj Hu. destruct (decide (i = j)) as [<-|].
    - rewrite list_lookup_insert_eq in Hj by (by eapply lookup_lt_Some). simplify_eq. auto.
    - rewrite list_lookup_insert_ne in Hj by done. auto. }
  split.
  - intros j mj Hj Hu. destruct (Hb _ _ Hj Hu) as [[<- ->]|[? Hj']]; [lia|].
    specialize (H1 _ _ Hj' Hu). lia.
  - intros a b ma mb Ha Hbb Hua Hub E.
    destruct (Hb _ _ Ha Hua) as [[<- ->]|[? Ha']], (Hb _ _ Hbb Hub) as [[<- ->]|[? Hb']].
    + done.
    + specialize (H1 _ _ Hb' Hub). lia.
    + specialize (H1 _ _ Ha' Hua). lia.
    + by eapply H2.
Qed.
Lemma pid_grow ms n : inv_pid ms n → inv_pid ms (n + 1).
Proof. intros [H1 H2]. split; [|done]. intros i m Hm Hu. specialize (H1 _ _ Hm Hu). lia. Qed.

(** ** Waiting parents *)
Lemma wake_meta_sleeping ch m :
  state (wake_meta ch m) = Sleeping → wake_meta ch m = m ∧ chan m ≠ ch.
Proof.
  unfold wake_meta. destruct (_ && _) eqn:E; [done|]. intros Hs.
  rewrite bool_decide_eq_true_2 in E by done. simpl in E. apply Z.eqb_neq in E. done.
Qed.
Lemma wake_meta_zombie ch m : state (wake_meta ch m) = Zombie → wake_meta ch m = m.
Proof. unfold wake_meta. by destruct (_ && _). Qed.
Lemma wake_tab_lookup p ch ms j m' :
  wake_tab p ch ms !! j = Some m' →
  ∃ m, ms !! j = Some m ∧ m' = if decide (p = Some j) then m else wake_meta ch m.
Proof.
  unfold wake_tab. rewrite list_lookup_imap. destruct (ms !! j) as [m|]; [|done].
  intros [= <-]. eauto.
Qed.
(** An entry that still sleeps after a wake-up by another process slept on
    another channel; the dead stay dead. *)
Lemma wake_tab_sleeping i ch ms j m' :
  wake_tab (Some i) ch ms !! j = Some m' → state m' = Sleeping → i ≠ j →
  ms !! j = Some m' ∧ chan m' ≠ ch.
Proof.
  intros (m & Hm & ->)%wake_tab_lookup Hs Hne.
  assert (Some i ≠ Some j) as Hne' by (intros [= ?]; done).
  rewrite (decide_False (P := Some i = Some j)) in Hs |- * by done.
  destruct (wake_meta_sleeping _ _ Hs) as [-> Hc]. done.
Qed.
Lemma wake_tab_zombie p ch ms j m' :
  wake_tab p ch ms !! j = Some m' → state m' = Zombie → ms !! j = Some m'.
Proof.
  intros (m & Hm & ->)%wake_tab_lookup Hs. case_decide; [done|].
  by rewrite (wake_meta_zombie _ _ Hs).
Qed.

Section waiting.
Context `{Sym : Symbols}.
Implicit Types (ms : list ProcMeta) (wl : list Z).

(** A process asleep in [wait] (on its own address) has no zombie child. *)
Definition inv_wait ms wl : Prop :=
  ∀ i m c mc, ms !! i = Some m → state m = Sleeping → chan m = proc_addr i →
    wl !! c = Some (proc_addr i) → ms !! c = Some mc → state mc ≠ Zombie.

Lemma wait_mild ms ms' wl : Forall2 mild ms ms' → inv_wait ms wl → inv_wait ms' wl.
Proof.
  intros H I i m' c mc' Hi Hs Hc Hw Hmc Hz.
  destruct (mild_lookup _ _ _ _ H Hi) as (m & Hm & _ & [[E1 E2]|[_ E]]); [|congruence].
  destruct (mild_lookup _ _ _ _ H Hmc) as (mc & Hmc0 & _ & [[E3 _]|[_ E]]); [|congruence].
  apply (I i m c mc); congruence.
Qed.
Lemma wait_put ms wl i m' :
  inv_wait ms wl → is_Some (ms !! i) → state m' ≠ Zombie →
  (state m' = Sleeping → chan m' = proc_addr i →
   ∀ c mc, wl !! c = Some (proc_addr i) → ms !! c = Some mc → state mc ≠ Zombie) →
  inv_wait (<[i := m']> ms) wl.
Proof.
  intros I Hi%lookup_lt_is_Some Hz Hc j m c mc Hj Hs Hch Hw Hmc.
  assert (<[i:=m']> ms !! i = Some m') as Ei by (by apply list_lookup_insert_eq).
  destruct (decide (i = c)) as [<-|Hne]; [by simplify_eq|].
  rewrite list_lookup_insert_ne in Hmc by done.
  destruct (decide (i = j)) as [<-|Hne'].
  - simplify_eq. by apply (Hc Hs Hch c mc).
  - rewrite list_lookup_insert_ne in Hj by done. by apply (I j m c mc).
Qed.
(** A new child of a process that does not sleep. *)
Lemma wait_child ms wl i c :
  inv_wait ms wl → (∀ j m, proc_addr j = proc_addr i → ms !! j = Some m → state m ≠ Sleeping) →
  inv_wait ms (<[c := proc_addr i]> wl).
Proof.
  intros I Hi j m c' mc Hj Hs Hch Hw Hmc. destruct (decide (c = c')) as [<-|Hne].
  - destruct (decide (c < length wl)%nat).
    + rewrite list_lookup_insert_eq in Hw by done. simplify_eq. by destruct (Hi j m).
    + rewrite list_insert_ge in Hw by lia. by apply (I j m c mc).
  - rewrite list_lookup_insert_ne in Hw by done. by apply (I j m c' mc).
Qed.

Lemma wait_exit v i status m :
  inv_wait (v_ms v) (v_wl v) → v_ms v !! i = Some m → inv_wait (exit_ms i status v) (exit_wl i v).
Proof.
  intros I Hi j mj c mc Hj Hs Hch Hw Hmc Hz.
  set (ip := default 0 (v_ip v)) in *. set (a := default 0 (exit_wl i v !! i)) in *.
  set (ms1 := reparent_ms (Some i) (proc_addr i) ip (v_wl v) (v_ms v)) in *.
  assert (∃ m1, wake_tab (Some i) a ms1 !! i = Some m1) as [m1 Hm1].
  { apply lookup_lt_is_Some. unfold ms1. rewrite length_wake_tab, length_reparent_ms.
    by eapply lookup_lt_Some. }
  assert (exit_ms i status v !! i = Some (zombie status m1)) as Ei.
  { unfold exit_ms. fold ip ms1 a. by rewrite list_lookup_alter_eq, Hm1. }
  assert (i ≠ j) as Hij by (intros ->; simplify_eq).
  unfold exit_ms in Hj, Hmc. fold ip ms1 a in Hj, Hmc.
  rewrite list_lookup_alter_ne in Hj by done.
  destruct (wake_tab_sleeping _ _ _ _ _ Hj Hs Hij) as [Hj1 Ha].
  assert (v_ms v !! j = Some mj ∧
    (existsb (λ x, x =? proc_addr i) (v_wl v) = true → chan mj ≠ ip)) as [Hj0 Hip].
  { unfold ms1, reparent_ms in Hj1. destruct (existsb _ (v_wl v)); [|done].
    destruct (wake_tab_sleeping _ _ _ _ _ Hj1 Hs Hij). done. }
  destruct (decide (i = c)) as [<-|Hic]; [unfold a in Ha; rewrite Hw in Ha; simpl in Ha; congruence|].
  rewrite list_lookup_alter_ne in Hmc by done.
  assert (v_ms v !! c = Some mc) as Hmc0.
  { apply wake_tab_zombie in Hmc; [|done]. unfold ms1, reparent_ms in Hmc.
    destruct (existsb _ (v_wl v)); [|done]. by apply wake_tab_zombie in Hmc. }
  unfold exit_wl, reparent_wl in Hw. rewrite list_lookup_fmap in Hw.
  destruct (v_wl v !! c) as [x|] eqn:Ex; [|done]. simpl in Hw. injection Hw as Hw. fold ip in Hw.
  destruct (Z.eqb_spec x (proc_addr i)) as [->|Hx].
  - apply Hip; [|congruence]. apply existsb_exists. exists (proc_addr i).
    split; [|apply Z.eqb_refl]. apply list_elem_of_In. by eapply list_elem_of_lookup_2.
  - subst x. by apply (I j mj c mc).
Qed.
End waiting.

(** ** The system *)
Section system.
Context {F : Type} `{Sym : Symbols} `{Ops : FileOps F}.
Implicit Types (k : kst F) (v : view) (pr : nat → option nat).

(** Between operations: hart [h] runs [pr h], nobody holds a lock, and the
    process layer's state is the view [v]. *)
Record sys k v pr : Prop := {
  sy_harts : ∀ h x, harts (kmach k) !! h = Some x → ∃ st c, in_u 64 st ∧ nested st (pr h) c 0 x;
  sy_locks : ∀ l, mutex_of (kmach k) l = Mutex0.new;
  sy_ms : meta <$> procs k = v_ms v;
  sy_ids : (λ q, pd_id (data q)) <$> procs k = seq 0 (length (v_ms v));
  sy_wl : wait_list k = v_wl v;
  sy_idx : length (idx_pids k) = length (v_ms v);
  sy_ip : init_proc k = v_ip v;
  sy_pids : pids k = v_pids v
}.

Lemma sys_sees k v pr h :
  sys k v pr → is_Some (harts (kmach k) !! h) →
  ∃ st, sees (λ h', harts (kmach k) !! h') h st (pr h) ∅ v k.
Proof.
  intros [H1 H2 H3 H4 H5 H6 H7 H8] [x Ex]. destruct (H1 _ _ Ex) as (st & c & Hst & N).
  exists st. split; try done. split; [done|exists x, c; by rewrite size_empty| |done].
  intros l. by rewrite H2, decide_False by set_solver.
Qed.
Lemma sees_sys k k' v v' pr h st p :
  sys k v pr → is_Some (harts (kmach k) !! h) →
  sees (λ h', harts (kmach k) !! h') h st p ∅ v' k' → sys k' v' (<[h := p]> pr).
Proof.
  intros [H1 H2 H3 H4 H5 H6 H7 H8] [x Ex] [[S1 S2 S3 S4] G1 G2 G3 G4 G5 G6]. split; try done.
  intros h' x' Ex'. destruct (decide (h' = h)) as [->|Hne].
  - destruct S2 as (y & c & Ey & N). rewrite size_empty in N. simplify_eq.
    rewrite fn_lookup_insert. eauto.
  - rewrite S4 in Ex' by done. rewrite fn_lookup_insert_ne by done. eauto.
Qed.
Lemma sys_same k v pr h p : sys k v (<[h := p]> pr) → pr h = p → sys k v pr.
Proof.
  intros [H1 H2 H3 H4 H5 H6 H7 H8] Hp. split; try done. intros h' x Ex.
  destruct (H1 _ _ Ex) as (st & c & Hst & N). exists st, c. split; [done|].
  destruct (decide (h' = h)) as [->|]; [rewrite fn_lookup_insert in N; by rewrite Hp|].
  by rewrite fn_lookup_insert_ne in N.
Qed.

(** The process a hart runs. *)
Definition proc_of k (h : nat) : option nat :=
  x ← harts (kmach k) !! h; process (cpu x).

(** What a hart may do next. A sleep is entered with a lock that guards the
    condition, on a channel that is not the address of a process (only
    [wait] sleeps on those); the pid counter is not at its end. *)
Inductive kstep k : kst F → Prop :=
| ks_idle h k' :
    is_Some (harts (kmach k) !! h) → proc_of k h = None →
    scheduler_round h k = Done (None, k') → kstep k k'
| ks_first h i k1 k' :
    is_Some (harts (kmach k) !! h) → proc_of k h = None →
    scheduler_round h k = Done (Some i, k1) → fork_ret h k1 = Done (tt, k') → kstep k k'
| ks_back h i b k1 k' :
    is_Some (harts (kmach k) !! h) → proc_of k h = None →
    scheduler_round h k = Done (Some i, k1) → yielding_resume h i b k1 = Done (tt, k') → kstep k k'
| ks_wakes h i b k1 k' :
    is_Some (harts (kmach k) !! h) → proc_of k h = None →
    scheduler_round h k = Done (Some i, k1) → sleep_resume h i b k1 = Done (tt, k') → kstep k k'
| ks_yield h i b k' :
    proc_of k h = Some i → yielding h i k = Done (b, k') → kstep k k'
| ks_sleep h i b ch l k1 k' :
    proc_of k h = Some i → l ≠ LProc i → (∀ j, ch ≠ proc_addr j) →
    lock h l k = Done (tt, k1) → sleep h i ch l k1 = Done (b, k') → kstep k k'
| ks_wake_up h ch k' :
    is_Some (harts (kmach k) !! h) → wake_up h ch k = Done (tt, k') → kstep k k'
| ks_kill h pid0 r k' :
    is_Some (harts (kmach k) !! h) → kill h pid0 k = Done (r, k') → kstep k k'
| ks_fork h i r k' :
    proc_of k h = Some i → pids k + 1 < 2 ^ 64 → fork h i k = Done (r, k') → kstep k k'
| ks_wait h i addr r k' :
    proc_of k h = Some i → wait h addr k = Done (r, k') → kstep k k'
| ks_exit h i status k' :
    proc_of k h = Some i → exit h status k = Done (tt, k') → kstep k k'.

(** The invariant of the whole system. *)
Record kinvariant k v pr : Prop := {
  ki_sys : sys k v pr;
  ki_harts : ∀ h, harts (kmach k) !! h = None → pr h = None;
  ki_len : length (v_wl v) = length (v_ms v);
  ki_run : inv_run (v_ms v) pr;
  ki_wait : inv_wait (v_ms v) (v_wl v);
  ki_pid : inv_pid (v_ms v) (v_pids v);
  ki_pos : 0 ≤ v_pids v
}.

Lemma proc_of_pr k v pr h : sys k v pr → is_Some (harts (kmach k) !! h) → proc_of k h = pr h.
Proof.
  intros [H1 _ _ _ _ _ _ _] [x Ex]. unfold proc_of. rewrite Ex. simpl.
  destruct (H1 _ _ Ex) as (st & c & _ & N). apply N.
Qed.
Lemma proc_of_hart k h i : proc_of k h = Some i → is_Some (harts (kmach k) !! h).
Proof. unfold proc_of. destruct (harts (kmach k) !! h); [eauto|done]. Qed.

Lemma woken_milds ms ms' : Forall2 woken ms ms' → Forall2 mild ms ms'.
Proof. intros W. eapply Forall2_impl; [done|apply woken_mild]. Qed.

(** How the pieces fit: what is left to show after a step of hart [h]. *)
Lemma kinvariant_next k k' v v' pr h st p :
  kinvariant k v pr → is_Some (harts (kmach k) !! h) →
  sees (λ h', harts (kmach k) !! h') h st p ∅ v' k' →
  length (v_wl v') = length (v_wl v) → length (v_ms v') = length (v_ms v) →
  inv_run (v_ms v') (<[h := p]> pr) → inv_wait (v_ms v') (v_wl v') →
  inv_pid (v_ms v') (v_pids v') → 0 ≤ v_pids v' →
  kinvariant k' v' (<[h := p]> pr).
Proof.
  intros [I1 I2 I3 I4 I5 I6 I7] Hh Hs L1 L2 R W P Pos. split; try done.
  - by eapply sees_sys.
  - intros h' Hh'. destruct Hs as [[_ (x & c & Ex & _) _ S4] _ _ _ _ _ _].
    destruct (decide (h' = h)) as [->|Hne]; [by rewrite Hh' in Ex|].
    rewrite fn_lookup_insert_ne by done. apply I2. by rewrite <- S4.
  - congruence.
Qed.
Lemma inv_run_same ms pr h : inv_run ms pr → inv_run ms (<[h := pr h]> pr).
Proof.
  intros [H1 H2]. assert (∀ h', <[h := pr h]> pr h' = pr h') as E.
  { intros h'. destruct (decide (h' = h)) as [->|];
      [by rewrite fn_lookup_insert|by rewrite fn_lookup_insert_ne]. }
  split; [intros i; rewrite H1; by setoid_rewrite E|].
  intros h1 h2 i. rewrite !E. apply H2.
Qed.
Lemma inv_run_same' ms pr h p : inv_run ms pr → pr h = p → inv_run ms (<[h := p]> pr).
Proof. intros ? <-. by apply inv_run_same. Qed.

(** Steps that wake or mark entries. *)
Lemma next_mild k k' v pr h st ms :
  kinvariant k v pr → is_Some (harts (kmach k) !! h) → Forall2 mild (v_ms v) ms →
  sees (λ h', harts (kmach k) !! h') h st (pr h) ∅ (v_set_ms ms v) k' →
  kinvariant k' (v_set_ms ms v) (<[h := pr h]> pr).
Proof.
  intros I Hh W Hs. eapply kinvariant_next; [done..| | | | |]; simpl.
  - by rewrite (Forall2_length _ _ _ W).
  - apply inv_run_same. by eapply run_mild, I.
  - by eapply wait_mild, I.
  - by eapply pid_mild, I.
  - apply I.
Qed.
(** Steps after which the hart has left process [i]. *)
Lemma next_leave k k' v pr h st i m m' :
  kinvariant k v pr → is_Some (harts (kmach k) !! h) → pr h = Some i → v_ms v !! i = Some m →
  sees (λ h', harts (kmach k) !! h') h st None ∅ (v_put i m' v) k' →
  state m' ≠ Running → state m' ≠ Zombie → pid m' = pid m → state m ≠ Unused →
  (state m' = Sleeping → chan m' = proc_addr i → no_zombie i v) →
  kinvariant k' (v_put i m' v) (<[h := None]> pr).
Proof.
  intros I Hh Hp Hm Hs Hr Hz Hpid Hu Hw. eapply kinvariant_next; [done..| | | | |]; simpl.
  - by rewrite length_insert.
  - eapply run_leave; [apply I|done|by eexists|done].
  - apply wait_put; [apply I|by eexists|done|]. intros H1 H2 c mc Hc Hmc. by eapply (Hw H1 H2 c).
  - eapply pid_put; [apply I|done|auto].
  - apply I.
Qed.
(** The process a hart runs is in the running state. *)
Lemma pr_running k v pr h i :
  kinvariant k v pr → pr h = Some i → ∃ m, v_ms v !! i = Some m ∧ state m = Running.
Proof. intros I Hp. apply (ki_run _ _ _ I). eauto. Qed.
(** A new process on a hart: the table after a scheduler round, with the
    entry in its final form. *)
Lemma next_enter k k' v pr h st i m m' :
  kinvariant k v pr → is_Some (harts (kmach k) !! h) → pr h = None →
  first_in Runnable (v_ms v) = Some i → v_ms v !! i = Some m →
  sees (λ h', harts (kmach k) !! h') h st (Some i) ∅ (v_put i m' v) k' →
  state m' = Running → pid m' = pid m →
  kinvariant k' (v_put i m' v) (<[h := Some i]> pr).
Proof.
  intros I Hh Hp [(m0 & Hm0 & Hr0) _]%first_in_Some Hm Hs Hr Hpid. simplify_eq.
  eapply kinvariant_next; [done..| | | | |]; simpl.
  - by rewrite length_insert.
  - eapply run_enter; [apply I|done|done|congruence|done].
  - apply wait_put; [apply I|by eexists|congruence|]. congruence.
  - eapply pid_put; [apply I|done|]. right. split; [done|congruence].
  - apply I.
Qed.

(** Some view of the state satisfies the invariant. *)
Definition good k : Prop := ∃ v pr, kinvariant k v pr.

Section steps.
Context {Laws : FileLaws false F}.
Context (stride : 0 < proc_stride).

Lemma proc_addr_inj i j : proc_addr i = proc_addr j → i = j.
Proof. unfold proc_addr. nia. Qed.

Lemma fork_step k k' v pr h i r :
  kinvariant k v pr → pr h = Some i → is_Some (harts (kmach k) !! h) → pids k + 1 < 2 ^ 64 →
  fork h i k = Done (r, k') → good k'.
Proof.
  intros I Hp Hh Hn E. destruct (sys_sees _ _ _ _ (ki_sys _ _ _ I) Hh) as [st Hs].
  rewrite Hp in Hs. rewrite (sy_pids _ _ _ (ki_sys _ _ _ I)) in Hn. pose proof (ki_pos _ _ _ I).
  destruct (pr_running _ _ _ _ _ I Hp) as (mi & Hmi & Hri).
  eapply (wp_partial (fork h i) (λ _, good)); [|exact E]. eapply wp_fork; [done|done| |].
  - rewrite wrap_id by (split; lia). intros k1 Hs1. eexists _, (<[h := Some i]> pr).
    eapply kinvariant_next; [done..| | | |simpl; lia]; simpl.
    + by apply inv_run_same'; [apply I|].
    + apply I.
    + apply pid_grow, I.
  - rewrite wrap_id by (split; lia). intros c m ms m' Hm Hu W Hm' k1 Hs1.
    eexists _, (<[h := Some i]> pr). apply woken_milds in W.
    pose proof (Forall2_length _ _ _ W) as Hlen. rewrite length_insert in Hlen.
    assert (i ≠ c) as Hic by (intros ->; congruence).
    destruct (mild_lookup _ _ _ _ W Hm') as (mc & Hmc & Hpc & Hsc).
    rewrite list_lookup_insert_eq in Hmc by (by eapply lookup_lt_Some). simplify_eq. simpl in *.
    assert (inv_run ms pr) as Rms.
    { eapply run_mild; [done|]. eapply run_put; [apply I|done|]. rewrite Hu. done. }
    assert (inv_wait ms (v_wl v)) as Wms.
    { eapply wait_mild; [done|]. apply wait_put; [apply I|by eexists|done|done]. }
    assert (inv_pid ms (v_pids v + 1)) as Pms.
    { eapply pid_mild; [done|]. eapply pid_alloc; [apply I|done|done|done]. }
    assert (state m' = Allocated) as Hsm by (destruct Hsc as [[? _]|[? _]]; done).
    eapply kinvariant_next; [done..| | | | | |simpl; lia]; simpl.
    + by rewrite length_insert.
    + by rewrite length_insert.
    + apply inv_run_same'; [|done]. eapply run_put; [done..|]. by rewrite Hsm.
    + apply wait_child; [apply wait_put; [done|by eexists|done|done]|].
      intros j mj ->%proc_addr_inj. rewrite list_lookup_insert_ne by done. intros Hmj Hsj.
      destruct (mild_lookup _ _ _ _ W Hmj) as (mi' & Hmi' & _ & Hst).
      rewrite list_lookup_insert_ne in Hmi' by done. simplify_eq.
      destruct Hst as [[? _]|[? _]]; congruence.
    + eapply pid_put; [done..|]. right. split; [done|congruence].
Qed.

Lemma wait_step k k' v pr h i addr r :
  kinvariant k v pr → pr h = Some i → is_Some (harts (kmach k) !! h) →
  wait h addr k = Done (r, k') → good k'.
Proof.
  intros I Hp Hh E. destruct (sys_sees _ _ _ _ (ki_sys _ _ _ I) Hh) as [st Hs].
  rewrite Hp in Hs. destruct (pr_running _ _ _ _ _ I Hp) as (mi & Hmi & Hri).
  eapply (wp_partial (wait h addr) (λ _, good)); [|exact E]. eapply wp_wait; [done|apply I|done|done| | |].
  - intros c m Hc Hm Hz k1 Hs1. eexists _, (<[h := Some i]> pr).
    eapply kinvariant_next; [done..| | | | |]; simpl.
    + by rewrite length_insert.
    + apply inv_run_same'; [|done]. eapply run_put; [apply I|done|]. by rewrite Hz.
    + apply wait_put; [apply I|by eexists|done|done].
    + eapply pid_put; [apply I|done|by left].
    + apply I.
  - intros _ k1 Hs1. eexists _, (<[h := Some i]> pr).
    eapply kinvariant_next; [done..| | | |]; [|apply I..].
    apply inv_run_same'; [apply I|done].
  - intros Hno _ _ k1 Hs1. eexists _, _.
    eapply next_leave; [done..|simpl; congruence|done].
Qed.

Lemma exit_step k k' v pr h i status :
  kinvariant k v pr → pr h = Some i → is_Some (harts (kmach k) !! h) →
  exit h status k = Done (tt, k') → good k'.
Proof.
  intros I Hp Hh E. destruct (sys_sees _ _ _ _ (ki_sys _ _ _ I) Hh) as [st Hs].
  rewrite Hp in Hs. destruct (pr_running _ _ _ _ _ I Hp) as (mi & Hmi & Hri).
  eapply (wp_partial (exit h status) (λ _, good)); [|exact E]. eapply wp_exit; [done|done|by eexists|done|].
  intros ms k1 W v1 Hs1. apply woken_milds in W. pose proof (Forall2_length _ _ _ W) as Hlen.
  destruct (mild_lookup' _ _ _ _ W Hmi) as (mi1 & Hmi1 & Hp1 & Hs1').
  assert (state mi1 = Running) as Hr1 by (destruct Hs1' as [[? _]|[? _]]; congruence).
  set (tab := wake_tab (Some i) (default 0 (exit_wl i v1 !! i))
    (reparent_ms (Some i) (proc_addr i) (default 0 (v_ip v1)) (v_wl v1) (v_ms v1))).
  assert (Forall2 mild ms tab) as Wt.
  { apply woken_milds. unfold tab, reparent_ms. simpl. etrans; [|apply wake_tab_woken].
    destruct (existsb _ _); [apply wake_tab_woken|reflexivity]. }
  destruct (mild_lookup' _ _ _ _ Wt Hmi1) as (mi2 & Hmi2 & Hp2 & Hs2).
  assert (state mi2 = Running) as Hr2 by (destruct Hs2 as [[? _]|[? _]]; congruence).
  assert (exit_ms i status v1 = <[i := zombie status mi2]> tab) as Et.
  { unfold exit_ms. fold tab. rewrite list_insert_alter. apply list_alter_ext; [|done].
    intros x Hx. by simplify_eq. }
  eexists _, (<[h := None]> pr). eapply kinvariant_next; [done..| | | | | |apply I]; simpl.
  - unfold exit_wl, reparent_wl. by rewrite length_fmap.
  - rewrite Et, length_insert, <- (Forall2_length _ _ _ Wt). by rewrite Hlen.
  - rewrite Et. eapply run_leave; [|done|by eexists|done].
    eapply run_mild; [done|]. eapply run_mild; [done|apply I].
  - eapply (wait_exit v1 i status mi1); [|done]. by eapply wait_mild, I.
  - rewrite Et. eapply pid_put; [|done|right; split; [done|congruence]].
    eapply pid_mild; [done|]. eapply pid_mild; [done|apply I].
Qed.

(** The code a scheduled process resumes with drops its lock and may clear
    the entry's channel. *)
Definition resumes (h : nat) (R : nat → M (kst F) unit) : Prop :=
  ∀ O st i v k m (Q : unit → kst F → Prop),
    sees O h st (Some i) {[LProc i]} v k → v_ms v !! i = Some m →
    (∀ st' ch k', sees O h st' (Some i) ∅ (v_put i (mkMeta (state m) ch (killed m) (xstate m)
       (pid m)) v) k' → Q tt k') →
    wp false (R i) Q k.
Lemma fork_ret_resumes h : resumes h (λ _, fork_ret h).
Proof.
  intros O st i v k m Q Hs Hm HQ. eapply wp_fork_ret; [done|]. intros k' Hs'.
  apply (HQ st (chan m)). rewrite v_put_id by (by destruct m). done.
Qed.
Lemma yielding_resumes h b : resumes h (λ i, yielding_resume h i b).
Proof.
  intros O st i v k m Q Hs Hm HQ. eapply wp_yielding_resume; [done|]. intros k' Hs'.
  apply (HQ (with_intena st b) (chan m)). rewrite v_put_id by (by destruct m). done.
Qed.
Lemma sleep_resumes h b : resumes h (λ i, sleep_resume h i b).
Proof. intros O st i v k m Q Hs Hm HQ. eapply wp_sleep_resume; [done..|]. intros k' Hs'. eauto. Qed.

Lemma enter_step k k1 k' v pr h i R :
  kinvariant k v pr → is_Some (harts (kmach k) !! h) → pr h = None → resumes h R →
  scheduler_round h k = Done (Some i, k1) → R i k1 = Done (tt, k') → good k'.
Proof.
  intros I Hh Hp HR E1 E2. destruct (sys_sees _ _ _ _ (ki_sys _ _ _ I) Hh) as [st Hs].
  rewrite Hp in Hs. revert k' E2.
  cut (∀ j k', Some i = Some j → R j k1 = Done (tt, k') → good k'); [by eauto|].
  eapply (wp_partial (scheduler_round h)
    (λ r k1, ∀ j k', r = Some j → R j k1 = Done (tt, k') → good k')); [|exact E1].
  eapply wp_scheduler_round; [done|done|]. intros j m Hj Hm k2 Hs2 j' k' [= <-] E2.
  eapply (wp_partial (R j) (λ _, good)); [|exact E2].
  eapply HR; [done|apply v_put_lookup; by eapply lookup_lt_Some|].
  intros st' ch k3 Hs3. rewrite v_put_twice in Hs3. eexists _, _. by eapply next_enter.
Qed.

Lemma idle_step k k' v pr h :
  kinvariant k v pr → is_Some (harts (kmach k) !! h) → pr h = None →
  scheduler_round h k = Done (None, k') → good k'.
Proof.
  intros I Hh Hn E. destruct (sys_sees _ _ _ _ (ki_sys _ _ _ I) Hh) as [st Hs].
  rewrite Hn in Hs. cut (None = None (A := nat) → good k'); [by eauto|].
  eapply (wp_partial (scheduler_round h) (λ r k1, r = None → good k1)); [|exact E].
  eapply wp_scheduler_round; [done| |done]. intros _ k1 Hs1 _.
  eexists _, (<[h := None]> pr). eapply kinvariant_next; [done..| | | |]; [|apply I..].
  apply inv_run_same'; [apply I|done].
Qed.

Lemma sleep_step k k1 k' v pr h i b ch l :
  kinvariant k v pr → is_Some (harts (kmach k) !! h) → pr h = Some i →
  l ≠ LProc i → (∀ j, ch ≠ proc_addr j) →
  lock h l k = Done (tt, k1) → sleep h i ch l k1 = Done (b, k') → good k'.
Proof.
  intros I Hh Hp Hl Hch E1 E2. destruct (sys_sees _ _ _ _ (ki_sys _ _ _ I) Hh) as [st Hs].
  rewrite Hp in Hs. destruct (pr_running _ _ _ _ _ I Hp) as (mi & Hmi & Hri).
  revert E2. eapply (wp_partial (lock h l) (λ _ k1, sleep h i ch l k1 = Done (b, k') → good k'));
    [|exact E1].
  eapply wp_lock; [done|set_solver|apply few_empty|]. intros k2 Hs2 E2.
  rewrite union_empty_r_L in Hs2.
  eapply (wp_partial (sleep h i ch l) (λ _, good)); [|exact E2].
  eapply wp_sleep; [done..|]. intros k3 Hs3. eexists _, _.
  eapply next_leave; [done..|simpl; congruence|]. simpl. intros _ Ech. by destruct (Hch i).
Qed.

Lemma kstep_inv k k' : kstep k k' → good k → good k'.
Proof.
  intros St (v & pr & I). pose proof (ki_sys _ _ _ I) as Sy.
  assert (∀ h i, proc_of k h = Some i → is_Some (harts (kmach k) !! h) ∧ pr h = Some i) as Hproc.
  { intros h i E. pose proof (proc_of_hart _ _ _ E) as Hh.
    by rewrite <- (proc_of_pr _ _ _ _ Sy Hh). }
  destruct St as [h k' Hh Hn E|h i k1 k' Hh Hn E1 E2|h i b k1 k' Hh Hn E1 E2
    |h i b k1 k' Hh Hn E1 E2|h i b k' Hp E|h i b ch l k1 k' Hp Hl Hch E1 E2|h ch k' Hh E
    |h pid0 r k' Hh E|h i r k' Hp Hn E|h i addr r k' Hp E|h i status k' Hp E].
  all: try (rewrite (proc_of_pr _ _ _ _ Sy Hh) in Hn).
  all: try (apply Hproc in Hp as [Hh Hp]).
  - by eapply idle_step.
  - eapply (enter_step k k1 k' v pr h i (λ _, fork_ret h)); [done..|apply fork_ret_resumes|done|done].
  - eapply (enter_step k k1 k' v pr h i (λ i, yielding_resume h i b));
      [done..|apply yielding_resumes|done|done].
  - eapply (enter_step k k1 k' v pr h i (λ i, sleep_resume h i b));
      [done..|apply sleep_resumes|done|done].
  - destruct (sys_sees _ _ _ _ Sy Hh) as [st Hs]. rewrite Hp in Hs.
    destruct (pr_running _ _ _ _ _ I Hp) as (mi & Hmi & Hri).
    eapply (wp_partial (yielding h i) (λ _, good)); [|exact E]. eapply wp_yielding; [done..|].
    intros k1 Hs1. eexists _, _. eapply next_leave; [done..|congruence|done].
  - by eapply sleep_step.
  - destruct (sys_sees _ _ _ _ Sy Hh) as [st Hs].
    eapply (wp_partial (wake_up h ch) (λ _, good)); [|exact E].
    eapply wp_wake_up; [done|set_solver|apply few_empty|]. intros k1 Hs1. eexists _, _.
    eapply next_mild; [done..|apply woken_milds, wake_tab_woken|done].
  - destruct (sys_sees _ _ _ _ Sy Hh) as [st Hs].
    eapply (wp_partial (kill h pid0) (λ _, good)); [|exact E].
    eapply wp_kill; [done|]. intros k1 Hs1. eexists _, _.
    eapply next_mild; [done..|apply kill_mild|done].
  - by eapply fork_step.
  - by eapply wait_step.
  - by eapply exit_step.
Qed.

Lemma reachable_good k k' : rtc kstep k k' → good k → good k'.
Proof. induction 1; eauto using kstep_inv. Qed.
End steps.
End system.
