(* ===== verification/ProcSafe.v ===== *)
(** * Processes: the theorems

    What the process layer guarantees under every schedule, and what exit
    and wait do. *)
From stdpp Require Import functions.
From S2P Require Import Prelude.
From S2P Require Import Layout.
From S2P Require Import Kalloc.
From S2P Require Import Spin.
From S2P Require Import SpinSafe.
From S2P Require Import Proc.
From S2P Require Import ProcSpec.
From S2P Require Import ProcOps.
From S2P Require Import ProcInv.

Section theorems.
Context {F : Type} `{Sym : Symbols} `{Ops : FileOps F}.
Implicit Types k : kst F.

(** The entry of a process, without its data. *)
Definition entry k (i : nat) : option ProcMeta := meta <$> procs k !! i.

(** The machine as the boot hart leaves it: harts idle, locks free, the
    table empty but for first processes ready to run. *)
Record booted k : Prop := {
  bo_harts : ∀ h x, harts (kmach k) !! h = Some x →
    in_u 64 (sstatus x) ∧ noff (cpu x) = 0 ∧ process (cpu x) = None;
  bo_locks : ∀ l, mutex_of (kmach k) l = Mutex0.new;
  bo_ids : (λ q, pd_id (data q)) <$> procs k = seq 0 (length (procs k));
  bo_wl : length (wait_list k) = length (procs k);
  bo_idx : length (idx_pids k) = length (procs k);
  bo_pids : 0 ≤ pids k;
  bo_table : ∀ i m, entry k i = Some m →
    state m = Unused ∨ state m = Runnable ∧ pid m = Z.of_nat i ∧ pid m < pids k
}.

Definition view_of k : view := mkView (meta <$> procs k) (wait_list k) (init_proc k) (pids k).

Lemma booted_good k : booted k → good k.
Proof.
  intros [B1 B2 B3 B4 B5 B6 B7].
  assert (∀ i m, v_ms (view_of k) !! i = Some m →
    state m = Unused ∨ state m = Runnable ∧ pid m = Z.of_nat i ∧ pid m < pids k) as Ht.
  { intros i m. simpl. rewrite list_lookup_fmap. apply B7. }
  exists (view_of k), (λ _, None). split; simpl; try done.
  - split; simpl; try done; [|by rewrite length_fmap..].
    intros h x Ex. destruct (B1 _ _ Ex) as (H1 & H2 & H3). exists (sstatus x), (context (cpu x)).
    split; [done|]. by split.
  - by rewrite length_fmap.
  - split; [|done]. intros i. split; [|by intros [h ?]].
    intros (m & Hm & Hr). destruct (Ht _ _ Hm) as [?|[? _]]; congruence.
  - intros i m c mc Hm Hs _ _ Hmc Hz. destruct (Ht _ _ Hmc) as [?|[? _]]; congruence.
  - split.
    + intros i m Hm Hu. destruct (Ht _ _ Hm) as [?|(_ & ? & ?)]; [congruence|lia].
    + intros i j mi mj Hi Hj Hui Huj E.
      destruct (Ht _ _ Hi) as [?|(_ & ? & _)], (Ht _ _ Hj) as [?|(_ & ? & _)]; try congruence.
      lia.
Qed.

(** Reading the invariant off a state. *)
Lemma good_entry k v pr i : kinvariant k v pr → entry k i = v_ms v !! i.
Proof. intros I. unfold entry. by rewrite <- (sy_ms _ _ _ (ki_sys _ _ _ I)), list_lookup_fmap. Qed.
Lemma good_proc_of k v pr h i : kinvariant k v pr → proc_of k h = Some i ↔ pr h = Some i.
Proof.
  intros I. destruct (harts (kmach k) !! h) as [x|] eqn:E.
  - rewrite (proc_of_pr _ _ _ _ (ki_sys _ _ _ I)); [done|by eexists].
  - unfold proc_of. rewrite E, (ki_harts _ _ _ I _ E). done.
Qed.

Section reachable.
Context {Laws : FileLaws false F} (stride : 0 < proc_stride).



(** Pids are unique. In every reachable state, no two entries in use have
    the same pid, and every pid in use was handed out by the counter. *)
Theorem pids_unique k0 k i j mi mj :
  booted k0 → rtc kstep k0 k →
  entry k i = Some mi → entry k j = Some mj → state mi ≠ Unused → state mj ≠ Unused →
  pid mi < pids k ∧ (pid mi = pid mj → i = j).
Proof using stride Laws.
  intros B St. destruct (reachable_good stride _ _ St (booted_good _ B)) as (v & pr & I).
  rewrite !(good_entry _ _ _ _ I), (sy_pids _ _ _ (ki_sys _ _ _ I)).
  intros Hi Hj Hui Huj. destruct (ki_pid _ _ _ I) as [H1 H2]. split; [by eapply H1|by eapply H2].
Qed.
End reachable.

(** ** exit and wait *)

(** The caller's entry, and its parent's, after [exit]. *)
Lemma exit_ms_self i status v :
  (i < length (v_ms v))%nat →
  ∃ m', exit_ms i status v !! i = Some m' ∧ state m' = Zombie ∧ xstate m' = status.
Proof.
  intros Hi. unfold exit_ms.
  set (tab := wake_tab _ _ _).
  assert (i < length tab)%nat as Hlt by (unfold tab; by rewrite length_wake_tab, length_reparent_ms).
  apply lookup_lt_is_Some in Hlt as [m Hm]. rewrite list_lookup_alter_eq, Hm.
  by exists (zombie status m).
Qed.
Lemma exit_ms_parent i status v j m :
  i ≠ j → v_wl v !! i = Some (proc_addr j) → proc_addr i ≠ proc_addr j →
  v_ms v !! j = Some m → (state m = Sleeping ∧ chan m = proc_addr j ∨ state m = Runnable) →
  ∃ m', exit_ms i status v !! j = Some m' ∧ state m' = Runnable.
Proof.
  intros Hij Hw Hne Hm Hs. unfold exit_ms. rewrite list_lookup_alter_ne by done.
  assert (exit_wl i v !! i = Some (proc_addr j)) as ->.
  { unfold exit_wl, reparent_wl. rewrite list_lookup_fmap, Hw. simpl.
    by rewrite (proj2 (Z.eqb_neq _ _)) by done. }
  simpl. set (ms1 := reparent_ms _ _ _ _ _).
  assert (∃ m1, ms1 !! j = Some m1 ∧
    (state m1 = Sleeping ∧ chan m1 = proc_addr j ∨ state m1 = Runnable)) as (m1 & Hm1 & Hs1).
  { unfold ms1, reparent_ms. destruct (existsb _ _); [|eauto].
    destruct (Forall2_lookup_l _ _ _ _ _
      (wake_tab_woken (Some i) (default 0 (v_ip v)) (v_ms v)) Hm) as (m1 & Hm1 & [-> | [? ->]]);
      eauto. }
  unfold wake_tab. rewrite list_lookup_imap, Hm1. simpl.
  rewrite decide_False by (intros [= ?]; done). eexists. split; [reflexivity|].
  unfold wake_meta. destruct Hs1 as [[-> ->]|Hr].
  - by rewrite Z.eqb_refl.
  - rewrite Hr. done.
Qed.


(** wait without a zombie child. [wait] completes: it returns [None] at
    once when the caller has no entry as its child or was killed, and
    otherwise the caller sleeps on the address of its own entry, off its
    hart, with every lock released. *)
Theorem wait_without_zombie k v pr h me addr mm :
  sys k v pr → proc_of k h = Some me → entry k me = Some mm →
  length (wait_list k) = length (procs k) →
  (∀ c m, wait_list k !! c = Some (proc_addr me) → entry k c = Some m → state m ≠ Zombie) →
  ∃ r k', wait h addr k = Done (r, k') ∧ (∀ l, mutex_of (kmach k') l = Mutex0.new) ∧
    if decide (proc_addr me ∈ wait_list k ∧ killed mm = false) then
      r = Slept (sie_get (default 0 (sstatus <$> harts (kmach k) !! h))) ∧ proc_of k' h = None ∧
      ∃ m', entry k' me = Some m' ∧ state m' = Sleeping ∧ chan m' = proc_addr me
    else r = Returned None ∧ proc_of k' h = Some me ∧ entry k' me = Some mm.
Proof.
  intros Sy Hp Hme Hlen Hno. pose proof (proc_of_hart _ _ _ Hp) as Hh.
  rewrite (proc_of_pr _ _ _ _ Sy Hh) in Hp.
  assert (∀ n, entry k n = v_ms v !! n) as Hent.
  { intros n. unfold entry. by rewrite <- (sy_ms _ _ _ Sy), list_lookup_fmap. }
  rewrite (sy_wl _ _ _ Sy) in *. rewrite Hent in Hme.
  assert (no_zombie me v) as Hno'.
  { intros c m Hc Hm. apply (Hno c m Hc). by rewrite Hent. }
  destruct (sys_sees _ _ _ _ Sy Hh) as [st Hse]. rewrite Hp in Hse.
  assert (default 0 (sstatus <$> harts (kmach k) !! h) = st) as ->.
  { destruct (se_holds _ _ _ _ _ _ _ Hse) as [_ (x & c & Ex & N) _ _].
    rewrite Ex. simpl. rewrite size_empty in N. apply N. }
  assert (proc_addr me ∈ v_wl v ↔ ∃ c, child me v c) as Hkid by apply list_elem_of_lookup.
  destruct (wp_total (wait h addr) (λ r k',
    (r = Returned None ∧ ((∀ c, ¬ child me v c) ∨ killed mm = true) ∧
      sees (λ h', harts (kmach k) !! h') h st (Some me) ∅ v k') ∨
    (r = Slept (sie_get st) ∧ (∃ c, child me v c) ∧ killed mm = false ∧
      sees (λ h', harts (kmach k) !! h') h st None ∅ (v_put me (asleep (proc_addr me) mm) v) k')) k)
    as (r & k' & E & Hk').
  { eapply (wp_wait _ h true); [done|by rewrite Hlen, (sees_length _ _ _ _ _ _ _ Hse)
      |done|done| | |].
    - intros c m Hc Hm Hz. by destruct (Hno' c m).
    - intros [?|Hc] k1 Hs1; [done|]. left. done.
    - intros _ Hc Hk k1 Hs1. right. done. }
  assert (∀ k' v', sys k' v' (<[h := proc_of k' h]> pr) → entry k' me = v_ms v' !! me) as Hent2.
  { intros k1 v1 S1. unfold entry. by rewrite <- list_lookup_fmap, (sy_ms _ _ _ S1). }
  exists r, k'. split; [done|].
  assert (∀ p v', sees (λ h', harts (kmach k) !! h') h st p ∅ v' k' →
    sys k' v' (<[h := proc_of k' h]> pr) ∧ proc_of k' h = p) as Hsys.
  { intros p v' Hs'. pose proof (sees_sys _ _ _ _ _ _ _ _ Sy Hh Hs') as Sy'.
    assert (proc_of k' h = p) as ->; [|done].
    rewrite (proc_of_pr _ _ _ _ Sy'); [by rewrite fn_lookup_insert|].
    destruct (se_holds _ _ _ _ _ _ _ Hs') as [_ (x & c & Ex & _) _ _]. by eexists. }
  destruct Hk' as [(-> & Hc & Hs')|(-> & Hc & Hk & Hs')]; destruct (Hsys _ _ Hs') as [Sy' ->].
  - split; [apply Sy'|]. rewrite decide_False; [by rewrite (Hent2 _ _ Sy')|].
    intros [[c Hcc]%Hkid Hkk]. destruct Hc as [Hc|Hc]; [by apply (Hc c)|congruence].
  - split; [apply Sy'|]. rewrite decide_True by (by rewrite Hkid).
    rewrite (Hent2 _ _ Sy'), v_put_lookup by (by eapply lookup_lt_Some). eauto 10.
Qed.
End theorems.

(** ** A small machine: two harts, two processes, and a file layer without
    files *)
#[local] Instance sym0 : Symbols := {|
  proc_base := 0x80100000; proc_stride := 0x200; fork_ret_addr := 0x80000100;
  user_trap_addr := 0x80000200; trampoline_addr := 0x80001000; kernel_satp := 0 |}.
#[local] Instance nofiles : FileOps unit := {|
  file_clone _ := mret tt; file_drop _ := mret tt; inode_clone _ := mret tt;
  inode_drop _ := mret tt; log_begin_op := mret tt; log_end_op := mret tt;
  namei_root := mret 0 |}.
#[local] Instance nofiles_laws t : FileLaws t unit.
Proof.
  assert (fs_safe t (mret tt : M (kst unit) unit)) as Hr.
  { intros O h st p v k Hs. apply wp_ret. exists (v_ms v). split; [reflexivity|by destruct v]. }
  split; intros; exact Hr.
Qed.

Lemma stride0 : 0 < proc_stride.
Proof. reflexivity. Qed.

Definition idle_hart : hart := mkHart 0 CPU.new.
Definition small_kst (hs : list hart) (ms : list ProcMeta) (wl : list Z) : kst unit :=
  mkKst (mkMach hs ∅) (mkMem ∅ None ∅)
    (zip_with (λ m i, mkProcess m (ProcData.new i)) ms (seq 0 (length ms)))
    (Z.of_nat (length ms)) (Some (proc_addr 0)) wl (replicate (length ms) 0) 0 tt.

(** Parent (entry 0) and child (entry 1), ready to run. *)
Definition family : kst unit :=
  small_kst [idle_hart; idle_hart]
    [mkMeta Runnable 0 false 0 0; mkMeta Runnable 0 false 0 1] [0; proc_addr 0].

Lemma family_booted : booted family.
Proof.
  split.
  - intros [|[|h]] x E; simpl in E; simplify_eq; split_and!; try done;
      by apply (bool_decide_unpack _).
  - reflexivity.
  - reflexivity.
  - reflexivity.
  - reflexivity.
  - discriminate.
  - intros [|[|i]] m E; vm_compute in E; simplify_eq; right; split_and!; reflexivity.
Qed.

Definition the_state {A} (o : outcome (A * kst unit)) : kst unit :=
  match o with Done (_, k) => k | _ => family end.
(** The parent is scheduled on hart 0 ... *)
Definition family1 : kst unit := the_state ((scheduler_round 0 ;; fork_ret 0) family).
(** ... and waits for the child. *)
Definition family2 : kst unit := the_state (wait 0 0 family1).

Lemma family_runs : rtc kstep family family1.
Proof.
  eapply rtc_l; [|apply rtc_refl].
  eapply (ks_first _ 0%nat 0%nat (the_state (scheduler_round 0 family)));
    [by eexists|reflexivity|vm_compute; reflexivity|vm_compute; reflexivity].
Qed.
Lemma family_waits : rtc kstep family family2.
Proof.
  eapply rtc_r; [apply family_runs|].
  eapply (ks_wait _ 0%nat 0%nat 0 (Slept true));
    [vm_compute; reflexivity|vm_compute; reflexivity].
Qed.



Lemma pids_unique_witness :
  ∃ m0 m1, entry family2 0 = Some m0 ∧ entry family2 1 = Some m1 ∧ pid m0 ≠ pid m1.
Proof.
  eexists _, _. split_and!; [vm_compute; reflexivity|vm_compute; reflexivity|].
  intros E.
  destruct (pids_unique stride0 family family2 0%nat 1%nat _ _ family_booted
    family_waits ltac:(vm_compute; reflexivity) ltac:(vm_compute; reflexivity)
    ltac:(discriminate) ltac:(discriminate)) as [_ H].
  discriminate (H E).
Defined.

(** A child exits on hart 1 while its parent sleeps in [wait]. *)
Definition busy_hart (i : nat) : hart := mkHart 0 (CPU.set_proc CPU.new (Some i)).
Definition parting : kst unit :=
  small_kst [idle_hart; busy_hart 1]
    [mkMeta Sleeping (proc_addr 0) false 0 0; mkMeta Running 0 false 0 1] [0; proc_addr 0].
Definition small_view (k : kst unit) : view :=
  mkView (meta <$> procs k) (wait_list k) (init_proc k) (pids k).

Lemma parting_sys : sys parting (small_view parting) (proc_of parting).
Proof.
  split; try reflexivity.
  intros [|[|h]] x E; simpl in E; simplify_eq; exists 0, Context.new;
    (split; [by apply (bool_decide_unpack _)|by split]).
Qed.

(** After the parent's only child was reaped: its entry is free, the wait
    list still names the parent. *)
Definition reaped : kst unit :=
  small_kst [busy_hart 0; idle_hart]
    [mkMeta Running 0 false 0 0; mkMeta Unused 0 false 0 0] [0; proc_addr 0].
Lemma reaped_sys : sys reaped (small_view reaped) (proc_of reaped).
Proof.
  split; try reflexivity.
  intros [|[|h]] x E; simpl in E; simplify_eq; exists 0, Context.new;
    (split; [by apply (bool_decide_unpack _)|by split]).
Qed.



Lemma wait_without_zombie_witness :
  ∃ r k', wait 0 0 reaped = Done (r, k') ∧ r = Slept false.
Proof.
  destruct (wait_without_zombie reaped (small_view reaped) (proc_of reaped) 0%nat 0%nat 0
    (mkMeta Running 0 false 0 0) reaped_sys) as (r & k' & E & _ & H);
    [reflexivity|reflexivity|reflexivity| |].
  - intros [|[|c]] m Hw Hm; vm_compute in Hw, Hm; simplify_eq. discriminate.
  - rewrite decide_True in H.
    + exists r, k'. split; [exact E|apply H].
    + split; [|reflexivity]. apply (bool_decide_unpack _). vm_compute. exact Logic.I.
Defined.
