(* ===== verification/SleepLock.v ===== *)
(** * The sleep lock

    [lock/sleep_mutex.rs] on the process layer: the flag is guarded by a spin
    lock, a process that finds it set sleeps on the flag's address, and dropping
    the guard clears it and wakes the sleepers. *)
From stdpp Require Import functions.
From S2P Require Import Prelude.
From S2P Require Import Layout.
From S2P Require Import Kalloc.
From S2P Require Import Spin.
From S2P Require Import SpinSafe.
From S2P Require Import Proc.
From S2P Require Import ProcSpec.
From S2P Require Import ProcOps.
From S2P Require Import ProcInv.
From S2P Require Import ProcSafe.

(** ** The code *)

(** The kernel with the flag of one [SleepMutex]. *)
Record slst (F : Type) := mkSlst { sk : kst F; locked : bool }.
Arguments mkSlst {F}. Arguments sk {F}. Arguments locked {F}.

(** [lock] returns a guard, or leaves its thread asleep (with [intena] kept on
    the thread's stack) in the middle of its loop. *)
Inductive lres := Acquired | Asleep (intena0 : bool).

Module SleepMutex.
Section code.
Context {F : Type} `{Sym : Symbols} `{Ops : FileOps F}.
(** The spin lock around the flag, and the flag's address. *)
Context (inner : lockid) (flag : Z).
Abbreviation G := (M (slst F)).

Definition on_k {A} : M (kst F) A → G A := zoom sk (λ k s, mkSlst k (locked s)).

(** From the top of the loop, the guard of [inner] held. Without a process the
    guard is not given away, and the next [self.locked.lock()] is made with it
    still alive. *)
Definition lock_loop (h : nat) : G lres :=
  s ← get;
  if locked s then
    p ← on_k (on_mach (myproc h));
    match p with
    | Some i => b ← on_k (Proc.sleep h i flag inner); mret (Asleep b)
    | None => on_k (Proc.lock h inner) ;; hang
    end
  else
    put (mkSlst (sk s) true) ;;
    on_k (Proc.unlock h inner) ;;
    mret Acquired.
Definition lock (h : nat) : G lres := on_k (Proc.lock h inner) ;; lock_loop h.
(** The thread goes on behind [sleep]. *)
Definition lock_resume (h i : nat) (intena0 : bool) : G lres :=
  on_k (Proc.sleep_resume h i intena0) ;; lock h.
Definition unlock (h : nat) : G unit :=
  on_k (Proc.lock h inner) ;;
  modify (λ s, mkSlst (sk s) false) ;;
  on_k (Proc.wake_up h flag) ;;
  on_k (Proc.unlock h inner).
End code.
End SleepMutex.
Import SleepMutex.

(** ** What the operations do *)
Section proofs.
Context {F : Type} `{Sym : Symbols} `{Ops : FileOps F}.
Context (inner : lockid) (flag : Z) (Hinner : ∀ i, inner ≠ LProc i).
Implicit Types (k : kst F) (s : slst F).

Lemma wp_sk {A} t (m : M (kst F) A) (Q : A → slst F → Prop) k b :
  wp t m (λ a k', Q a (mkSlst k' b)) k → wp t (on_k m) Q (mkSlst k b).
Proof. unfold wp, on_k, zoom. cbn [sk]. by destruct (m k) as [[a k']| | |]. Qed.

Section one_hart.
Context (O : nat → option hart) (h : nat).

(** [lock] takes a free flag and sleeps on a taken one; no lock stays held. *)
Lemma wp_slock t st i v k b m (Q : lres → slst F → Prop) :
  sees O h st (Some i) ∅ v k → v_ms v !! i = Some m →
  (b = false → ∀ k', sees O h st (Some i) ∅ v k' → Q Acquired (mkSlst k' true)) →
  (b = true → ∀ k', sees O h st None ∅ (v_put i (mkMeta Sleeping flag (killed m) (xstate m) (pid m)) v) k' →
     Q (Asleep (sie_get st)) (mkSlst k' true)) →
  wp t (lock inner flag h) Q (mkSlst k b).
Proof.
  intros Hs Hm H0 H1. unfold lock. apply wp_bind, wp_sk.
  eapply wp_lock; [exact Hs|clear; set_solver|apply few_empty|]. clear k Hs. intros k Hs.
  unfold lock_loop. apply wp_bind, wp_get. cbn [locked sk].
  destruct b.
  - apply wp_bind, wp_sk. eapply wp_myproc; [exact Hs|rewrite union_empty_r_L; apply few_one|].
    clear k Hs. intros k Hs. rewrite union_empty_r_L in Hs. apply wp_bind, wp_sk.
    eapply wp_sleep; [exact Hs|apply Hinner|done|]. intros k' Hs'. apply wp_ret. by apply H1.
  - apply wp_bind, wp_put. apply wp_bind, wp_sk. eapply wp_unlock_back; [exact Hs|clear; set_solver|].
    intros k' Hs'. apply wp_ret. by apply H0.
Qed.
(** [unlock] clears the flag and wakes who sleeps on it. *)
Lemma wp_sunlock t st p v k b (Q : unit → slst F → Prop) :
  sees O h st p ∅ v k →
  (∀ k', sees O h st p ∅ (v_set_ms (wake_tab p flag (v_ms v)) v) k' → Q tt (mkSlst k' false)) →
  wp t (unlock inner flag h) Q (mkSlst k b).
Proof.
  intros Hs HQ. unfold unlock. apply wp_bind, wp_sk.
  eapply wp_lock; [exact Hs|clear; set_solver|apply few_empty|]. clear k Hs. intros k Hs.
  apply wp_bind. unfold wp, modify. cbn [sk]. apply wp_bind, wp_sk.
  eapply wp_wake_up; [exact Hs| |rewrite union_empty_r_L; apply few_one|].
  { intros i _. rewrite union_empty_r_L, elem_of_singleton. intros E. by apply (Hinner i). }
  clear k Hs. intros k Hs. apply wp_sk. eapply wp_unlock_back; [exact Hs|clear; set_solver|]. exact HQ.
Qed.
(** Taking a spin lock again. *)
Lemma relock_panics st p L m l : holds O h st p L m → l ∈ L → few L → Mutex.lock h l m = Panic "mutex acquire.".
Proof.
  intros H Hl Hf. destruct (ho_hart _ _ _ _ _ _ H) as (x & c & Ex & N). pose proof (ne_noff _ _ _ _ _ N) as Hn. unfold few in Hf.
  unfold Mutex.lock. mstep (push_off_run h m x Ex ltac:(lia)). unfold Mutex.holding. rewrite bind_gets, set_hart_mutex_of.
  rewrite (ho_lock _ _ _ _ _ _ H), decide_True by done. cbn. by rewrite Z.eqb_refl.
Qed.
(** Without a process, [lock] on a taken flag takes its spin lock twice. *)
Lemma slock_no_process st k :
  holds O h st None ∅ (kmach k) → lock inner flag h (mkSlst k true) = Panic "mutex acquire.".
Proof.
  intros H. destruct (lock_run O h st None (kmach k) ∅ inner H) as (x1 & E1 & H1); [clear; set_solver|apply few_empty|].
  rewrite union_empty_r_L in H1. destruct (myproc_run O h st None x1 {[inner]} H1 (few_one _)) as (x2 & E2 & H2).
  pose proof (relock_panics st None {[inner]} x2 inner H2 ltac:(clear; set_solver) (few_one _)) as E3.
  unfold lock. rewrite (bind_run _ _ _ tt (mkSlst (set_kmach x1 k) true)); [|by unfold on_k, Proc.lock, on_mach, zoom; cbn; rewrite E1].
  unfold lock_loop. rewrite bind_get. cbn [locked].
  rewrite (bind_run _ _ _ None (mkSlst (set_kmach x2 k) true)); [|by unfold on_k, on_mach, zoom; cbn; rewrite E2].
  unfold mbind, M_bind, on_k, Proc.lock, on_mach, zoom. cbn. by rewrite E3.
Qed.
End one_hart.

(** ** Under every schedule *)
Context (Hflag : ∀ j, flag ≠ proc_addr j).

(** A process waits for the lock. *)
Definition waits k (i : nat) : Prop := ∃ m, entry k i = Some m ∧ state m = Sleeping ∧ chan m = flag.

(** What may happen next, with the processes that have a guard: calls of [lock]
    and of [unlock] (by the drop of a guard), the return of a process that slept
    in [lock], and steps of the process layer that put nobody to sleep on the
    flag. *)
Inductive slstep : slst F * list nat → slst F * list nat → Prop :=
| sl_lock s H h i s' :
    proc_of (sk s) h = Some i → lock inner flag h s = Done (Acquired, s') → slstep (s, H) (s', i :: H)
| sl_lock_sleeps s H h i b s' :
    proc_of (sk s) h = Some i → lock inner flag h s = Done (Asleep b, s') → slstep (s, H) (s', H)
| sl_resume s H h i b k1 r s' :
    is_Some (harts (kmach (sk s)) !! h) → proc_of (sk s) h = None →
    scheduler_round h (sk s) = Done (Some i, k1) → lock_resume inner flag h i b (mkSlst k1 (locked s)) = Done (r, s') →
    slstep (s, H) (s', match r with Acquired => i :: H | Asleep _ => H end)
| sl_unlock s H1 H2 h i s' :
    proc_of (sk s) h = Some i → unlock inner flag h s = Done (tt, s') → slstep (s, H1 ++ i :: H2) (s', H1 ++ H2)
| sl_kernel s H k' :
    kstep (sk s) k' → (∀ i, waits k' i → waits (sk s) i) → slstep (s, H) (mkSlst k' (locked s), H).

(** The flag counts the guards, and nobody waits for a free lock. *)
Record slinv (s : slst F) (H : list nat) : Prop := {
  si_good : good (sk s);
  si_held : length H = if locked s then 1%nat else 0%nat;
  si_free : locked s = false → ∀ i, ¬ waits (sk s) i
}.

(** A hart that runs a process, seen through the invariant. *)
Lemma good_sees k h i :
  good k → proc_of k h = Some i →
  ∃ v pr st m, kinvariant k v pr ∧ is_Some (harts (kmach k) !! h) ∧ pr h = Some i ∧
    sees (λ h', harts (kmach k) !! h') h st (Some i) ∅ v k ∧ v_ms v !! i = Some m ∧ state m = Running.
Proof.
  intros (v & pr & I) Hp. pose proof (proc_of_hart _ _ _ Hp) as Hh. apply (good_proc_of _ _ _ _ _ I) in Hp.
  destruct (sys_sees _ _ _ _ (ki_sys _ _ _ I) Hh) as [st Hs]. rewrite Hp in Hs.
  destruct (pr_running _ _ _ _ _ I Hp) as (m & Hm & Hr). by exists v, pr, st, m.
Qed.
Lemma good_waits k v pr i :
  kinvariant k v pr → waits k i ↔ ∃ m, v_ms v !! i = Some m ∧ state m = Sleeping ∧ chan m = flag.
Proof. intros I. unfold waits. by rewrite (good_entry _ _ _ _ I). Qed.

(** [lock] from a good state. *)
Lemma slock_good h i k b :
  good k → proc_of k h = Some i →
  wp true (lock inner flag h) (λ r s', good (sk s') ∧ locked s' = true ∧
    match r with
    | Acquired => b = false ∧ proc_of (sk s') h = Some i ∧ ∀ j, waits (sk s') j ↔ waits k j
    | Asleep _ => b = true ∧ proc_of (sk s') h = None ∧ ∀ j, waits (sk s') j ↔ waits k j ∨ j = i
    end) (mkSlst k b).
Proof.
  intros G Hp. destruct (good_sees k h i G Hp) as (v & pr & st & m & I & Hh & Hpr & Hs & Hm & Hr).
  eapply wp_slock; [exact Hs|exact Hm|intros ->; intros k' Hs'..]; cbn [sk locked].
  - assert (kinvariant k' (v_set_ms (v_ms v) v) (<[h := pr h]> pr)) as I'.
    { eapply next_mild; [done|done|apply woken_milds; by apply Forall_Forall2_diag, Forall_true|]. rewrite Hpr. by destruct v. }
    split_and!; [by eexists _, _|done|done| |].
    + apply (good_proc_of _ _ _ _ _ I'). by rewrite Hpr, fn_lookup_insert.
    + intros j. by rewrite (good_waits _ _ _ _ I), (good_waits _ _ _ _ I').
  - assert (kinvariant k' (v_put i (mkMeta Sleeping flag (killed m) (xstate m) (pid m)) v) (<[h := None]> pr)) as I'.
    { eapply next_leave; [done..|cbn; congruence|]. cbn. intros _ E. by destruct (Hflag i). }
    split_and!; [by eexists _, _|done|done| |].
    + destruct (proc_of k' h) as [j|] eqn:E; [|done]. apply (good_proc_of _ _ _ _ _ I') in E.
      by rewrite fn_lookup_insert in E.
    + intros j. rewrite (good_waits _ _ _ _ I), (good_waits _ _ _ _ I'). cbn.
      destruct (decide (j = i)) as [->|Hne].
      * split; [by right|intros _]. eexists. split; [apply list_lookup_insert_eq; by eapply lookup_lt_Some|done].
      * rewrite list_lookup_insert_ne by done. naive_solver.
Qed.
(** [unlock] from a good state. *)
Lemma sunlock_good h i k b :
  good k → proc_of k h = Some i →
  wp true (unlock inner flag h) (λ _ s', good (sk s') ∧ locked s' = false ∧ proc_of (sk s') h = Some i ∧
    (∀ j, ¬ waits (sk s') j) ∧
    ∀ j m, waits k j → entry k j = Some m → entry (sk s') j = Some (ProcMeta.set_state m Runnable)) (mkSlst k b).
Proof.
  intros G Hp. destruct (good_sees k h i G Hp) as (v & pr & st & m & I & Hh & Hpr & Hs & Hm & Hr).
  eapply wp_sunlock; [exact Hs|]. intros k' Hs'. cbn [sk locked].
  assert (kinvariant k' (v_set_ms (wake_tab (Some i) flag (v_ms v)) v) (<[h := pr h]> pr)) as I'.
  { eapply next_mild; [done|done|apply woken_milds, wake_tab_woken|]. by rewrite Hpr. }
  assert (∀ j m', v_ms v !! j = Some m' → state m' = Sleeping → chan m' = flag → j ≠ i ∧
    wake_tab (Some i) flag (v_ms v) !! j = Some (ProcMeta.set_state m' Runnable)) as Hw.
  { intros j m' Hj Hsl Hc. assert (j ≠ i) as Hne by (intros ->; congruence). split; [done|].
    unfold wake_tab. rewrite list_lookup_imap, Hj. cbn [fmap option_fmap option_map].
    rewrite decide_False by congruence. unfold wake_meta. by rewrite bool_decide_eq_true_2, Hc, Z.eqb_refl by done. }
  split_and!; [by eexists _, _|done|apply (good_proc_of _ _ _ _ _ I'); by rewrite Hpr, fn_lookup_insert| |].
  - intros j (m' & Hj & Hsl & Hc)%(good_waits _ _ _ _ I'). cbn [v_ms v_set_ms] in Hj.
    pose proof (wake_tab_woken (Some i) flag (v_ms v)) as W.
    destruct (Forall2_lookup_r _ _ _ _ _ W Hj) as (m0 & Hm0 & [-> | [_ ->]]); [|done].
    destruct (Hw j m0 Hm0 Hsl Hc) as [_ E]. rewrite Hj in E. injection E as E. by rewrite E in Hsl.
  - intros j m' Hwj. rewrite (good_entry _ _ _ _ I), (good_entry _ _ _ _ I'). intros Hj.
    apply (good_waits _ _ _ _ I) in Hwj as (m0 & Hm0 & Hsl & Hc). rewrite Hj in Hm0. injection Hm0 as <-.
    by apply Hw.
Qed.

Section reachable.
Context {Laws : FileLaws false F} (stride : 0 < proc_stride).

(** Coming back from [sleep]: a step of the process layer that makes nobody
    wait. *)
Lemma resume_good h i b k k1 k2 :
  good k → is_Some (harts (kmach k) !! h) → proc_of k h = None →
  scheduler_round h k = Done (Some i, k1) → sleep_resume h i b k1 = Done (tt, k2) →
  good k2 ∧ proc_of k2 h = Some i ∧ ∀ j, waits k2 j → waits k j.
Proof.
  intros (v & pr & I) Hh Hp E1 E2. rewrite (proc_of_pr _ _ _ _ (ki_sys _ _ _ I) Hh) in Hp.
  destruct (sys_sees _ _ _ _ (ki_sys _ _ _ I) Hh) as [st Hs]. rewrite Hp in Hs. revert k2 E2.
  cut (∀ j k2, Some i = Some j → sleep_resume h j b k1 = Done (tt, k2) →
    good k2 ∧ proc_of k2 h = Some j ∧ ∀ l, waits k2 l → waits k l); [intros H k2 E2; by apply (H i k2)|].
  eapply (wp_partial (scheduler_round h) (λ r k1, ∀ j k2, r = Some j → sleep_resume h j b k1 = Done (tt, k2) →
    good k2 ∧ proc_of k2 h = Some j ∧ ∀ l, waits k2 l → waits k l)); [|exact E1].
  eapply wp_scheduler_round; [done|done|]. intros j m Hj Hm k3 Hs3 j' k2 [= <-] E2.
  eapply (wp_partial (sleep_resume h j b) (λ _ k2, good k2 ∧ proc_of k2 h = Some j ∧ ∀ l, waits k2 l → waits k l)); [|exact E2].
  eapply wp_sleep_resume; [exact Hs3|apply v_put_lookup; by eapply lookup_lt_Some|]. intros k4 Hs4. rewrite v_put_twice in Hs4.
  eapply next_enter in Hs4; [|done..]. split_and!; [by eexists _, _|apply (good_proc_of _ _ _ _ _ Hs4); by rewrite fn_lookup_insert|].
  intros l (m' & Hl & Hsl & Hc)%(good_waits _ _ _ _ Hs4). apply (good_waits _ _ _ _ I). cbn in Hl.
  apply list_lookup_insert_Some in Hl as [(<- & <- & _)|[_ Hl]]; [done|eauto].
Qed.

Lemma slock_inv h i s r s' H :
  slinv s H → proc_of (sk s) h = Some i → lock inner flag h s = Done (r, s') →
  slinv s' (match r with Acquired => i :: H | Asleep _ => H end).
Proof.
  intros [G L Fr] Hp E. destruct s as [k b]. cbn [sk locked] in *.
  destruct (wp_total _ _ _ (slock_good h i k b G Hp)) as (r' & s1 & E' & G' & Hl & Hr). rewrite E in E'. injection E' as <- <-.
  split; [done| |by rewrite Hl]. rewrite Hl. destruct r; destruct Hr as [-> _]; simpl; lia.
Qed.
Lemma slstep_inv x y : slstep x y → slinv x.1 x.2 → slinv y.1 y.2.
Proof using stride Laws Hinner Hflag.
  intros [s H h i s' Hp E|s H h i b s' Hp E|s H h i b k1 r s' Hh Hn E1 E2|s H1 H2 h i s' Hp E|s H k' St Hq] I; cbn [fst snd] in *.
  - exact (slock_inv h i s Acquired s' H I Hp E).
  - exact (slock_inv h i s (Asleep b) s' H I Hp E).
  - unfold lock_resume in E2. apply bind_Done in E2 as ([] & s2 & E2 & E3).
    unfold on_k, zoom in E2. cbn [sk] in E2. destruct (sleep_resume h i b k1) as [[[] k2]| | |] eqn:E; try done. injection E2 as <-.
    destruct (resume_good h i b (sk s) k1 k2 (si_good _ _ I) Hh Hn E1 E) as (G2 & P2 & W2).
    apply (slock_inv h i (mkSlst k2 (locked s)) r s' H); [|done|done].
    split; [done|apply I|]. intros Hl j Hj. eapply (si_free _ _ I Hl), W2, Hj.
  - destruct s as [k b]. destruct I as [G L Fr]. cbn [sk locked] in *.
    destruct (wp_total _ _ _ (sunlock_good h i k b G Hp)) as ([] & s1 & E' & G' & Hl & _ & Hw & _). rewrite E in E'. injection E' as <-.
    split; [done| |done]. rewrite Hl. rewrite length_app in *. simpl in L. destruct b; lia.
  - destruct I as [G L Fr]. split; cbn [sk locked]; [by eapply (kstep_inv stride)|done|].
    intros Hl i Hw. by apply (Fr Hl i), Hq.
Qed.

Lemma slsteps_inv x y : rtc slstep x y → slinv x.1 x.2 → slinv y.1 y.2.
Proof using stride Laws Hinner Hflag. induction 1; eauto using slstep_inv. Qed.

End reachable.
End proofs.

(** ** Two processes and one lock *)
#[local] Existing Instances sym0 nofiles nofiles_laws.
Definition the_slst {A} (o : outcome (A * slst unit)) : slst unit :=
  match o with Done (_, s) => s | _ => mkSlst family false end.
(** Both processes run, the first takes the lock, the second waits. *)
Definition both_run : kst unit := the_state ((scheduler_round 1 ;; fork_ret 1) family1).
Definition one_holds_lock : slst unit := the_slst (lock (LOther 5) 8 0 (mkSlst both_run false)).
Definition one_waits : slst unit := the_slst (lock (LOther 5) 8 1 one_holds_lock).
Lemma not_waiting k : (∀ i, state <$> entry k i ≠ Some Sleeping) → ∀ i, ¬ waits (F := unit) 8 k i.
Proof. intros H i (m & E & Hs & _). apply (H i). by rewrite E, <- Hs. Qed.
Lemma family_awake k : (∀ i, (2 ≤ i)%nat → entry k i = None) → state <$> entry k 0 ≠ Some Sleeping → state <$> entry k 1 ≠ Some Sleeping →
  ∀ i, ¬ waits (F := unit) 8 k i.
Proof. intros H H0 H1. apply not_waiting. intros [|[|i]]; [done|done|by rewrite H by lia]. Qed.
Lemma waiting_run : rtc (slstep (LOther 5) 8) (mkSlst family false, []) (one_waits, [0%nat]).
Proof.
  eapply rtc_l; [eapply (sl_kernel _ _ (mkSlst family false) [] family1)|].
  { by eapply (ks_first _ 0%nat 0%nat); [by eexists|vm_compute; reflexivity..]. }
  { intros i Hw. exfalso. revert Hw. apply family_awake; [intros [|[|j]] ?; [lia|lia|done]|by vm_compute..]. }
  eapply rtc_l; [eapply (sl_kernel _ _ (mkSlst family1 false) [] both_run)|].
  { by eapply (ks_first _ 1%nat 1%nat); [by eexists|vm_compute; reflexivity..]. }
  { intros i Hw. exfalso. revert Hw. apply family_awake; [intros [|[|j]] ?; [lia|lia|done]|by vm_compute..]. }
  eapply rtc_l; [eapply (sl_lock _ _ _ _ 0%nat 0%nat one_holds_lock); vm_compute; reflexivity|].
  eapply rtc_l; [eapply (sl_lock_sleeps _ _ one_holds_lock _ 1%nat 1%nat); vm_compute; reflexivity|apply rtc_refl].
Qed.
Lemma second_sleeps : entry (sk one_waits) 1 = Some (mkMeta Sleeping 8 false 0 1).
Proof. vm_compute. reflexivity. Qed.
Lemma second_waits : waits 8 (sk one_waits) 1.
Proof. eexists. split; [exact second_sleeps|done]. Qed.
