(* ===== verification/KernelMap.v ===== *)
(** * The kernel's address space: the operations

    [memory/mapping/kernel_map.rs]: the page table every hart runs kernel code
    under. [KERNEL_PAGETABLE] is a static page at [kpgt]; [etext], the end of
    the kernel's code, is chosen by the linker, like the symbols of Proc. *)
From S2P Require Import Prelude Layout Pte Kalloc PageTable Proc.

Module KernelMap.
Section kernel_map.
Context `{Symbols} {F : Type} (etext kpgt : Z).

Definition kernel_map : M (kst F) unit :=
  on_mem (PageTable.kernel_map kpgt VIRT_TEST VIRT_TEST PGSIZE (Z.lor PTE_R PTE_W)) ;;
  on_mem (PageTable.kernel_map kpgt UART0 UART0 PGSIZE (Z.lor PTE_R PTE_W)) ;;
  on_mem (PageTable.kernel_map kpgt VIRTIO0 VIRTIO0 PGSIZE (Z.lor PTE_R PTE_W)) ;;
  on_mem (PageTable.kernel_map kpgt ECAM ECAM 0x10000000 (Z.lor PTE_R PTE_W)) ;;
  on_mem (PageTable.kernel_map kpgt E1000_REGS E1000_REGS 0x20000 (Z.lor PTE_R PTE_W)) ;;
  on_mem (PageTable.kernel_map kpgt CLINT CLINT 0x10000 (Z.lor PTE_R PTE_W)) ;;
  on_mem (PageTable.kernel_map kpgt PLIC_BASE PLIC_BASE 0x4000000 (Z.lor PTE_R PTE_W)) ;;
  text ← usub 64 etext KERNEL_BASE;
  on_mem (PageTable.kernel_map kpgt KERNEL_BASE KERNEL_BASE text (Z.lor PTE_R PTE_X)) ;;
  rest ← usub 64 PHYSTOP etext;
  on_mem (PageTable.kernel_map kpgt etext etext rest (Z.lor PTE_R PTE_W)) ;;
  on_mem (PageTable.kernel_map kpgt TRAMPOLINE trampoline_addr PGSIZE (Z.lor PTE_R PTE_X)) ;;
  proc_mapstacks kpgt.

(** The assertions in front compare sizes the compiler fixes: a page and a
    page table are both 4096 bytes, aligned to 4096. *)
Definition init : M (kst F) unit := kernel_map.
End kernel_map.

(** [init_hart]: the hart's [satp] register points to the kernel's table. *)
Definition init_hart (kpgt : Z) : M Z unit := put (PageTable.as_satp kpgt).
End KernelMap.
