(* ===== verification/KernelSpace.v ===== *)
(** * The kernel's address space

    What [KernelMap.init] builds, seen through the walk of the hardware: the
    regions of [kernel_regions] and nothing else. And [map_with_huge] against
    [map]. *)
From S2P Require Import Prelude Layout Pte Kalloc PageTable PageTableFacts MapFacts UserSpace HugeFacts.
From S2P Require Import Spin Proc KernelMap.
Import Addr PageTableEntry.

Definition RW : Z := Z.lor PTE_R PTE_W.
Definition RX : Z := Z.lor PTE_R PTE_X.

(** A range of [r_size] bytes from [r_va], mapped to the one from [r_pa]. *)
Record region := mkRegion { r_va : Z; r_size : Z; r_pa : Z; r_perm : Z }.
Definition in_region (r : region) (va : Z) : Prop := r_va r ≤ va < r_va r + r_size r.
#[global] Instance in_region_dec r va : Decision (in_region r va).
Proof. unfold in_region. apply _. Defined.

(** The hardware translates the addresses of the regions as they say, and no
    other address. *)
Definition maps_exactly (m : mem) (root : Z) (rs : list region) : Prop :=
  (∀ r va, r ∈ rs → in_region r va → 0 ≤ va ≤ MAXVA →
     sv39 m root va = Some (r_pa r + (va - r_va r), Z.lor (r_perm r) PTE_V)) ∧
  (∀ va, 0 ≤ va ≤ MAXVA → (∀ r, r ∈ rs → ¬ in_region r va) → sv39 m root va = None).

(** ** The layout the kernel intends

    [stacks] lists, for every process, the pages of its kernel stack. *)
Definition stack_region (i j : nat) (pa : Z) : region :=
  mkRegion (kernel_stack (Z.of_nat i) + Z.of_nat j * PGSIZE) PGSIZE pa RW.
Definition stack_regions (i : nat) (pas : list Z) : list region := imap (stack_region i) pas.
Definition identity (va size perm : Z) : region := mkRegion va size va perm.
Definition fixed_regions (etext trampoline : Z) : list region :=
  [ identity VIRT_TEST PGSIZE RW; identity UART0 PGSIZE RW; identity VIRTIO0 PGSIZE RW;
    identity ECAM 0x10000000 RW; identity E1000_REGS 0x20000 RW; identity CLINT 0x10000 RW;
    identity PLIC_BASE 0x4000000 RW;
    identity KERNEL_BASE (etext - KERNEL_BASE) RX; identity etext (PHYSTOP - etext) RW;
    mkRegion TRAMPOLINE PGSIZE trampoline RX ].
Definition kernel_regions (etext trampoline : Z) (stacks : list (list Z)) : list region :=
  fixed_regions etext trampoline ++ concat (imap stack_regions stacks).

Section kernel_space.
Context (heap root : Z).
Implicit Types (m : mem) (fl : list Z) (pos : gmap Z (nat * Z)) (va : Z) (r : region) (rs : list region).
Abbreviation wf := (pt_wf heap true).

(** The state between two calls of [kernel_map]. *)
Record kspace rs m fl pos : Prop := {
  ks_kinv : kinv heap m fl;
  ks_wf : wf m fl root pos;
  ks_maps : maps_exactly m root rs;
  ks_none : ∀ va, 0 ≤ va ≤ MAXVA → (∀ r, r ∈ rs → ¬ in_region r va) → pte_at m root va = None;
  ks_tab : ∀ va, 0 ≤ va ≤ MAXVA → tab m root va = true →
    ∃ r v, r ∈ rs ∧ in_region r v ∧ v / HUGE_PGSIZE = va / HUGE_PGSIZE
}.

(** A region the code may add: whole pages, clear of the others. *)
Record region_ok r : Prop := {
  ro_va : r_va r mod PGSIZE = 0; ro_size : r_size r mod PGSIZE = 0; ro_pa : r_pa r mod PGSIZE = 0;
  ro_low : 0 ≤ r_va r ∧ 0 ≤ r_size r ∧ r_va r + r_size r ≤ MAXVA;
  ro_phys : 0 ≤ r_pa r ∧ r_pa r + r_size r ≤ 2 ^ 56;
  ro_perm : leaf_perm (r_perm r);
  ro_huge : (r_pa r - r_va r) mod HUGE_PGSIZE = 0 ∨ r_size r < HUGE_PGSIZE
}.
Definition clear_of rs r : Prop := ∀ r', r' ∈ rs → disjoint_ranges (r_va r') (r_size r') (r_va r) (r_size r).

Lemma region_run r v : region_ok r → in_run (r_va r) (r_size r / PGSIZE) v ↔ in_region r v.
Proof.
  intros [Hva Hsz _ _ _ _ _]. unfold in_run, in_region.
  pose proof (Z.div_mod (r_va r) PGSIZE). pose proof (Z.div_mod (r_size r) PGSIZE).
  pose proof (Z.div_mod v PGSIZE). pose proof (Z.mod_pos_bound v PGSIZE ltac:(done)). layout_lia.
Qed.
Lemma run_pages_aligned va size :
  va mod PGSIZE = 0 → size mod PGSIZE = 0 → run_pages va size = size / PGSIZE ∧ va / PGSIZE * PGSIZE = va.
Proof.
  intros Hva Hsz. unfold run_pages. pose proof (Z.div_mod va PGSIZE). pose proof (Z.div_mod size PGSIZE).
  split; [|layout_lia].
  replace (va + size + PGSIZE - 1) with (PGSIZE - 1 + (va / PGSIZE + size / PGSIZE) * PGSIZE) by layout_lia.
  rewrite Z.div_add by done. change ((PGSIZE - 1) / PGSIZE) with 0. lia.
Qed.

Lemma kspace_map rs r m fl pos :
  kspace rs m fl pos → region_ok r → clear_of rs r →
  2 * hcost (r_va r) (r_size r / PGSIZE) ≤ Z.of_nat (length fl) →
  ∃ m' fl' pos',
    PageTable.kernel_map root (r_va r) (r_pa r) (r_size r) (r_perm r) m = Done (tt, m') ∧
    kspace (r :: rs) m' fl' pos' ∧ grows m fl pos m' fl' pos' ∧
    Z.of_nat (length fl) ≤ Z.of_nat (length fl') + 2 * hcost (r_va r) (r_size r / PGSIZE).
Proof.
  intros Ks Ro Hcl Hfl. pose proof Ro as [Hva Hsz Hpa (H0 & Hs0 & Hmax) (Hp0 & Hp1) Hperm Hh].
  destruct (run_pages_aligned _ _ Hva Hsz) as [Hrp Hva0]. pose proof (Z.div_mod (r_size r) PGSIZE) as Hdm.
  set (n := r_size r / PGSIZE) in *.   assert (∀ v r', in_region r v → r' ∈ rs → ¬ in_region r' v) as Hdisj.
  { intros v r' Hv Hr'. pose proof (Hcl r' Hr'). unfold in_region, disjoint_ranges in *. lia. }
  destruct (map_with_huge_run heap root m fl pos (r_va r) (r_pa r) (r_size r) (r_perm r))
    as (m' & fl' & pos' & E & Md); rewrite ?Hrp, ?Hva0; try done; try lia.
  - split; [apply Ks|apply Ks|done|layout_lia|layout_lia|].
    intros v Hv Hr%(region_run r v Ro). apply Ks; [done|]. eauto.
  - intros b Hb1 Hb2. destruct (tab m root (b * HUGE_PGSIZE)) eqn:Ht; [|done]. exfalso.
    apply (ks_tab _ _ _ _ Ks) in Ht as (r' & v & Hr' & Hv & Hb); [|layout_lia].
    rewrite Z.div_mul in Hb by done. apply (Hdisj v r'); [|done|done]. unfold in_region.
    pose proof (Z.div_mod v HUGE_PGSIZE). pose proof (Z.mod_pos_bound v HUGE_PGSIZE ltac:(done)). layout_lia.
  - destruct Hh as [?|?]; [by left|right]. layout_lia.
  - rewrite Hrp, Hva0 in Md. fold n in Md. exists m', fl', pos'. split_and!; [|..|apply Md|apply Md].
    { unfold PageTable.kernel_map. by mstep E. }
    destruct (ks_maps _ _ _ _ Ks) as [Hin Hout]. split; [apply Md|apply Md| | |].
    + split.
      * intros r' v Hr' Hv Hv0. rewrite (md_sv39 _ _ _ _ _ _ _ _ _ _ _ _ _ Md) by done.
        apply elem_of_cons in Hr' as [->|Hr']; [by rewrite decide_True by by apply region_run|].
        rewrite decide_False; [by apply Hin|]. intros Hr%region_run; [|done]. by apply (Hdisj v r').
      * intros v Hv0 Hnv. rewrite (md_sv39 _ _ _ _ _ _ _ _ _ _ _ _ _ Md) by done. rewrite decide_False.
        -- apply Hout; [done|]. intros r' Hr'. apply Hnv. by right.
        -- intros Hr%region_run; [|done]. apply (Hnv r); [by left|done].
    + intros v Hv0 Hnv. rewrite (md_pte _ _ _ _ _ _ _ _ _ _ _ _ _ Md); [|done|].
      * apply Ks; [done|]. intros r' Hr'. apply Hnv. by right.
      * intros Hr%region_run; [|done]. apply (Hnv r); [by left|done].
    + intros v Hv0 Ht. apply (md_tab _ _ _ _ _ _ _ _ _ _ _ _ _ Md) in Ht as [Ht|(w & Hw & Hb)]; [|..|done].
      * apply (ks_tab _ _ _ _ Ks) in Ht as (r' & w & ? & ? & ?); [|done]. exists r', w. split_and!; [by right|done..].
      * exists r, w. split_and!; [by left|by apply region_run|done].
Qed.

(** Regions are told apart by membership only. *)
Lemma kspace_equiv rs rs' m fl pos : (∀ r, r ∈ rs ↔ r ∈ rs') → kspace rs m fl pos → kspace rs' m fl pos.
Proof.
  intros E [K W [Hin Hout] Hnone Htab]. split; [done|done| | |].
  - split; intros; [apply Hin; try done; by apply E|]. apply Hout; [done|]. intros r Hr%E. auto.
  - intros va Hva Hn. apply Hnone; [done|]. intros r Hr%E. auto.
  - intros va Hva Ht. destruct (Htab va Hva Ht) as (r & v & Hr%E & ?). eauto.
Qed.

(** Changes outside the table and its pages change no translation. *)
Lemma kspace_frame rs m fl pos m' fl' :
  kspace rs m fl pos → kinv heap m' fl' →
  (∀ p x, pos !! p = Some x → ram m' !! p = ram m !! p ∧ p ∉ fl') → kspace rs m' fl' pos.
Proof.
  intros [K W [Hin Hout] Hnone Htab] K' Hfr.
  destruct (pt_frame_gen heap true root m fl pos m' fl' W Hfr) as (W' & _ & Hpte).
  assert (∀ va, 0 ≤ va ≤ MAXVA → mid m' root va = mid m root va) as Hmid.
  { intros va Hva.
    assert (∀ p x j, pos !! p = Some x → word m' p j = word m p j) as Hw.
    { intros p x j Hp. by apply word_ram_eq, (Hfr p x). }
    unfold mid. rewrite (Hw root _ _ (pw_root _ _ _ _ _ _ W)).
    destruct (word m root (page_num va 2)) as [e2|] eqn:He2; [|done]. cbn [mbind option_bind].
    destruct (is_valid e2) eqn:Hv2; [|done].
    destruct (root_entry heap root m fl pos va e2) as [_ Hp]; [done..|]. by rewrite (Hw _ _ _ Hp). }
  assert (∀ va, 0 ≤ va ≤ MAXVA → sv39 m' root va = sv39 m root va) as Hsv.
  { intros va Hva. rewrite (sv39_eq heap root m' fl' pos), (sv39_eq heap root m fl pos) by done.
    unfold big. by rewrite Hpte, Hmid. }
  split; [done|done| | |].
  - split; intros; rewrite Hsv by done; auto.
  - intros va Hva Hn. rewrite Hpte by done. auto.
  - intros va Hva. unfold tab. rewrite Hmid by done. by apply Htab.
Qed.

(** Taking a page off the free list changes no translation. *)
Lemma kspace_alloc rs m z fl pos :
  kspace rs m (z :: fl) pos →
  ∃ m1, new_zeroed m = Done (z, m1) ∧ kspace rs m1 fl pos ∧ grows m (z :: fl) pos m1 fl pos ∧
    is_page z ∧ fresh_pages heap (z :: fl) m1 fl pos [z].
Proof.
  intros Ks. pose proof (ks_kinv _ _ _ _ Ks) as K. pose proof (ks_wf _ _ _ _ Ks) as W.
  destruct (new_zeroed_grows heap root m z fl pos K W) as (E & K1 & W1 & G & D & Hzf & Hc & Hr & Hpte).
  set (m1 := alloc_post m z zero_page fl) in *.
  exists m1. split_and!; [done| |done|by eapply kinv_page, D|].
  - eapply kspace_frame; [done|done|]. intros p x Hp. split; [|by apply (pw_page _ _ _ _ _ _ W1 p x)].
    unfold m1. cbn [alloc_post ram]. apply lookup_insert_ne. intros ->. destruct D as (_ & _ & _ & ?). congruence.
  - split; [apply NoDup_singleton|]. intros p ->%list_elem_of_singleton. split_and!; [left|done|done|done|done].
Qed.

Lemma leaf_RW : leaf_perm RW.
Proof. split; [by unfold perm_ok|]. intros pa Hpa. by rewrite is_leaf_bits, !write_perm_bit by (done || lia). Qed.
Lemma leaf_RX : leaf_perm RX.
Proof. split; [by unfold perm_ok|]. intros pa Hpa. by rewrite is_leaf_bits, !write_perm_bit by (done || lia). Qed.

Lemma stack_region_ok i j pa : (i < 64)%nat → (j < 16)%nat → is_page pa → region_ok (stack_region i j pa).
Proof.
  intros Hi Hj [Hal Hr]. split; cbn [stack_region r_va r_size r_pa r_perm].
  - unfold kernel_stack, TRAPFRAME, TRAMPOLINE, STACK_SIZE.
    replace (MAXVA - PGSIZE - PGSIZE - (Z.of_nat i + 1) * (PGSIZE * 16 + PGSIZE) + Z.of_nat j * PGSIZE)
      with (0 + (0x4000000 - 2 - (Z.of_nat i + 1) * 17 + Z.of_nat j) * PGSIZE) by layout_lia.
    by rewrite Z.mod_add.
  - done.
  - done.
  - layout_lia.
  - layout_lia.
  - apply leaf_RW.
  - right. done.
Qed.

(** ** The kernel stacks *)
Context {F : Type}.
Implicit Types k : kst F.

Lemma on_mem_done {A} (op : M mem A) k m' a : op (kmem k) = Done (a, m') → on_mem op k = Done (a, set_kmem m' k).
Proof. intros E. unfold on_mem, zoom. by rewrite E. Qed.

Definition avoids rs (lo hi : Z) : Prop := ∀ r, r ∈ rs → r_va r + r_size r ≤ lo ∨ hi ≤ r_va r.
Lemma avoids_weaken rs lo hi lo' hi' : avoids rs lo hi → lo ≤ lo' → hi' ≤ hi → avoids rs lo' hi'.
Proof. intros Ha ?? r Hr. specialize (Ha r Hr). lia. Qed.

(** What a loop over stack pages has done when it ends: [pas] are the pages
    it took, [news] the regions it mapped. *)
Record stacked k rs m fl pos (news : list region) (pas : list Z) (res : outcome (unit * kst F)) m' fl' pos' : Prop := {
  sd_run : res = Done (tt, set_kmem m' k);
  sd_kspace : kspace (news ++ rs) m' fl' pos';
  sd_grows : grows m fl pos m' fl' pos';
  sd_fresh : fresh_pages heap fl m' fl' pos' pas;
  sd_len : (length fl ≤ length fl' + 3 * length pas)%nat
}.

Lemma stack_pages i n j k rs fl pos :
  (i < 64)%nat → (j + n = 16)%nat → kspace rs (kmem k) fl pos →
  avoids rs (kernel_stack (Z.of_nat i) + Z.of_nat j * PGSIZE) (kernel_stack (Z.of_nat i) + STACK_SIZE) →
  (3 * n ≤ length fl)%nat →
  ∃ pas m' fl' pos', length pas = n ∧
    stacked k rs (kmem k) fl pos (imap (λ t, stack_region i (j + t)) pas) pas
      (for_each (seqZ (Z.of_nat j) (Z.of_nat n)) (λ j, on_mem (
         pa ← new_zeroed;
         PageTable.kernel_map root (kernel_stack (Z.of_nat i) + j * PGSIZE) pa PGSIZE RW)) k) m' fl' pos'.
Proof.
  intros Hi. revert j k rs fl pos. induction n as [|n IH]; intros j k rs fl pos Hj Ks Hav Hfl.
  { exists [], (kmem k), fl, pos. split; [done|]. split; [by destruct k|done|apply grows_refl| |lia].
    split; [constructor|set_solver]. }
  destruct fl as [|z fl]; [simpl in Hfl; lia|].
  destruct (kspace_alloc rs (kmem k) z fl pos Ks) as (m1 & E1 & Ks1 & G1 & Hz & Fr1).
  destruct (kspace_map rs (stack_region i j z) m1 fl pos Ks1)
    as (m2 & fl2 & pos2 & E2 & Ks2 & G2 & Hl2).
  { apply stack_region_ok; [done|lia|done]. }
  { intros r Hr. specialize (Hav r Hr). unfold disjoint_ranges. cbn [stack_region r_va r_size]. layout_lia. }
  { change (hcost _ _) with 1. simpl in Hfl. lia. }
  change (hcost _ _) with 1 in Hl2.
  destruct (IH (S j) (set_kmem m2 k) (stack_region i j z :: rs) fl2 pos2)
    as (pas & m' & fl' & pos' & Hn & [E Ks' G Fr Hl]); [lia|done| |simpl in Hfl; lia|].
  { intros r [->|Hr]%elem_of_cons; cbn [stack_region r_va r_size].
    - left. layout_lia.
    - specialize (Hav r Hr). layout_lia. }
  assert (grows (kmem k) (z :: fl) pos m2 fl2 pos2) as G12 by (by eapply grows_trans).
  exists (z :: pas), m', fl', pos'. split; [simpl; lia|]. split.
  - rewrite seqZ_cons by lia. cbn [for_each].
    erewrite bind_run; [|apply on_mem_done; mstep E1; exact E2].
    replace (Z.succ (Z.of_nat j)) with (Z.of_nat (S j)) by lia.
    replace (Z.pred (Z.of_nat (S n))) with (Z.of_nat n) by lia. exact E.
  - eapply kspace_equiv; [|exact Ks']. intros r. rewrite imap_cons, !elem_of_app, !elem_of_cons.
    rewrite Nat.add_0_r.
    assert (imap ((λ t, stack_region i (j + t)) ∘ S) pas = imap (λ t, stack_region i (S j + t)) pas) as ->; [|tauto].
    apply imap_ext. intros t x _. unfold compose. f_equal. lia.
  - by eapply grows_trans.
  - change (z :: pas) with ([z] ++ pas). apply (fresh_app heap (z :: fl) fl2).
    + apply G12.
    + intros p ->%list_elem_of_singleton Hin. apply (proj1 (NoDup_cons _ _) (ki_nodup _ _ _ (ks_kinv _ _ _ _ Ks))).
      destruct (gr_fl _ _ _ _ _ _ G2) as [x ->]. apply elem_of_app. by right.
    + eapply fresh_grows; [apply Ks1|exact Fr1|]. by eapply grows_trans.
    + done.
  - simpl in *. lia.
Qed.

Lemma stack_procs n i k rs fl pos lo :
  (i + n = 64)%nat → kspace rs (kmem k) fl pos → lo ≤ kernel_stack 63 →
  avoids rs lo (kernel_stack (Z.of_nat i) + STACK_SIZE) → (48 * n ≤ length fl)%nat →
  ∃ stacks m' fl' pos', length stacks = n ∧ Forall (λ pas, length pas = 16%nat) stacks ∧
    stacked k rs (kmem k) fl pos (concat (imap (λ t, stack_regions (i + t)) stacks)) (concat stacks)
      (for_each (seq i n) (λ i, for_each (seqZ 0 (STACK_SIZE / PGSIZE)) (λ j, on_mem (
         pa ← new_zeroed;
         PageTable.kernel_map root (kernel_stack (Z.of_nat i) + j * PGSIZE) pa PGSIZE RW))) k) m' fl' pos'.
Proof.
  revert i k rs fl pos. induction n as [|n IH]; intros i k rs fl pos Hi Ks Hlo Hav Hfl.
  { exists [], (kmem k), fl, pos. split_and!; [done|constructor|]. split; [by destruct k|done|apply grows_refl| |lia].
    split; [constructor|set_solver]. }
  destruct (stack_pages i 16 0 k rs fl pos) as (pas & m1 & fl1 & pos1 & Hn1 & [E1 Ks1 G1 Fr1 Hl1]);
    [lia|done|done| |lia|].
  { eapply avoids_weaken; [exact Hav| |done]. layout_lia. }
  destruct (IH (S i) (set_kmem m1 k) (stack_regions i pas ++ rs) fl1 pos1)
    as (stacks & m' & fl' & pos' & Hn & Hall & [E Ks' G Fr Hl]); [lia|done|done| |lia|].
  { intros r [Hr|Hr]%elem_of_app.
    - unfold stack_regions in Hr. apply elem_of_lookup_imap in Hr as (j & pa & -> & _). right.
      cbn [stack_region r_va]. layout_lia.
    - specialize (Hav r Hr). layout_lia. }
  exists (pas :: stacks), m', fl', pos'. split_and!; [simpl; lia|by constructor|]. split.
  - cbn [seq for_each]. change (STACK_SIZE / PGSIZE) with (Z.of_nat 16) at 1.
    change 0 with (Z.of_nat 0) at 1. mstep E1. exact E.
  - eapply kspace_equiv; [|exact Ks']. intros r. rewrite imap_cons. cbn [concat]. rewrite !elem_of_app, Nat.add_0_r.
    assert (imap ((λ t, stack_regions (i + t)) ∘ S) stacks = imap (λ t, stack_regions (S i + t)) stacks) as ->;
      [|tauto].
    apply imap_ext. intros t x _. unfold compose. f_equal. lia.
  - by eapply grows_trans.
  - cbn [concat]. apply (fresh_app heap fl fl1); [apply G1| | |done].
    + intros p Hp. by apply Fr1.
    + eapply fresh_grows; [apply Ks1|exact Fr1|done].
  - cbn [concat]. rewrite length_app. lia.
Qed.

(** ** The fixed regions *)
Definition region_cost r : Z := hcost (r_va r) (r_size r / PGSIZE).
Definition map_region r : M (kst F) unit :=
  on_mem (PageTable.kernel_map root (r_va r) (r_pa r) (r_size r) (r_perm r)).

Lemma region_cost_pos r : region_ok r → 0 ≤ region_cost r.
Proof.
  intros [_ _ _ (_ & Hs & _) _ _ _]. unfold region_cost, hcost.
  pose proof (Z.div_pos (r_size r) PGSIZE Hs ltac:(done)). pose proof (Z.div_pos (r_size r / PGSIZE) 512).
  pose proof (Z.mod_pos_bound (- (r_va r / PGSIZE)) 512 ltac:(done)). destruct (Z.ltb_spec (r_size r / PGSIZE) 512); lia.
Qed.
Lemma map_regions_run news rs k fl pos :
  kspace rs (kmem k) fl pos → Forall region_ok news → Forall (clear_of rs) news →
  ForallOrdPairs (λ r r', disjoint_ranges (r_va r) (r_size r) (r_va r') (r_size r')) news →
  2 * foldr Z.add 0 (region_cost <$> news) ≤ Z.of_nat (length fl) →
  ∃ m' fl' pos',
    for_each news map_region k = Done (tt, set_kmem m' k) ∧
    kspace (news ++ rs) m' fl' pos' ∧ grows (kmem k) fl pos m' fl' pos' ∧
    Z.of_nat (length fl) ≤ Z.of_nat (length fl') + 2 * foldr Z.add 0 (region_cost <$> news).
Proof.
  revert rs k fl pos. induction news as [|r news IH]; intros rs k fl pos Ks Hok Hcl Hpw Hfl.
  { exists (kmem k), fl, pos. split_and!; [by destruct k|done|apply grows_refl|simpl; lia]. }
  apply Forall_cons in Hok as [Hr Hok]. apply Forall_cons in Hcl as [Hrcl Hcl]. inversion Hpw as [|? ? Hrn Hpw']; subst.
  cbn [fmap list_fmap foldr] in *.
  assert (0 ≤ foldr Z.add 0 (region_cost <$> news)) as Hpos.
  { clear - Hok. induction Hok as [|x l Hx _ IH']; [done|]. cbn [fmap list_fmap foldr].
    pose proof (region_cost_pos x Hx). lia. }
  destruct (kspace_map rs r (kmem k) fl pos Ks Hr Hrcl) as (m1 & fl1 & pos1 & E1 & Ks1 & G1 & Hl1).
  { fold (region_cost r). lia. }
  fold (region_cost r) in Hl1.
  destruct (IH (r :: rs) (set_kmem m1 k) fl1 pos1) as (m' & fl' & pos' & E & Ks' & G & Hl); [done|done| |done|lia|].
  { apply Forall_forall. intros r' Hr' x [->|Hx]%elem_of_cons.
    - by eapply (proj1 (Forall_forall _ _) Hrn).
    - by eapply (proj1 (Forall_forall _ _) Hcl). }
  exists m', fl', pos'. split_and!; [| |by eapply grows_trans|lia].
  - cbn [for_each]. erewrite bind_run; [|by apply on_mem_done]. exact E.
  - eapply kspace_equiv; [|exact Ks']. intros x. rewrite !elem_of_app, !elem_of_cons. tauto.
Qed.

(** An empty table. *)
Lemma kspace_empty m fl :
  kinv heap m fl → ram m !! root = Some zero_page → root ∉ fl → kspace [] m fl {[root := (2%nat, 0)]}.
Proof.
  intros K Hr Hf. assert (∀ i, 0 ≤ i < 512 → word m root i = Some 0) as Hw.
  { intros i Hi. unfold word. rewrite Hr. by apply zero_page_word. }
  assert (∀ va, word m root (page_num va 2) = Some 0) as Hw2 by (intros; apply Hw, page_num_range; lia).
  split; [done| | | |].
  - split.
    + apply lookup_singleton_eq.
    + intros p x [<- <-]%lookup_singleton_Some. split_and!; [by eexists|done|done|simpl; lia].
    + intros p l pre i e [<- [= <- <-]]%lookup_singleton_Some Hi He Hv. rewrite Hw in He by done. by injection He as <-.
  - split; [set_solver|]. intros va _ _. unfold sv39. cbn [sv39_walk]. change (Z.of_nat 2) with 2. by rewrite Hw2.
  - intros va _ _. unfold pte_at, leaf_at. cbn [walk]. change (Z.of_nat 2) with 2. by rewrite Hw2.
  - intros va _. unfold tab, mid. by rewrite Hw2.
Qed.
End kernel_space.

(** ** The intended layout is consistent *)
Section layout.
Context (etext trampoline : Z).
Context (He : etext mod PGSIZE = 0) (Hb : KERNEL_BASE ≤ etext ≤ PHYSTOP).
Context (Ht : trampoline mod PGSIZE = 0) (Htb : KERNEL_BASE ≤ trampoline < PHYSTOP).

Lemma fixed_ok : Forall region_ok (fixed_regions etext trampoline).
Proof.
  pose proof leaf_RW. pose proof leaf_RX.
  assert ((etext - KERNEL_BASE) mod PGSIZE = 0) by (by rewrite Zminus_mod, He).
  assert ((PHYSTOP - etext) mod PGSIZE = 0) by (by rewrite Zminus_mod, He).
  repeat (constructor; [split; cbn [identity r_va r_size r_pa r_perm];
    try done; try (left; by rewrite ?Z.sub_diag); try (right; done); layout_lia|]). constructor.
Qed.
Lemma fixed_disjoint :
  ForallOrdPairs (λ r r', disjoint_ranges (r_va r) (r_size r) (r_va r') (r_size r')) (fixed_regions etext trampoline).
Proof.
  repeat (constructor; [repeat (constructor; [cbn [identity r_va r_size]; unfold disjoint_ranges, VIRT_TEST, UART0,
    VIRTIO0, ECAM, E1000_REGS, CLINT, PLIC_BASE; layout_lia|]); constructor|]). constructor.
Qed.
Lemma fixed_cost : foldr Z.add 0 (region_cost <$> fixed_regions etext trampoline) ≤ 5400.
Proof.
  unfold fixed_regions. cbn [fmap list_fmap foldr]. unfold region_cost. cbn [identity r_va r_size].
  pose proof (hcost_bound KERNEL_BASE ((etext - KERNEL_BASE) / PGSIZE)) as H1.
  pose proof (hcost_bound etext ((PHYSTOP - etext) / PGSIZE)) as H2.
  change (hcost VIRT_TEST _) with 1. change (hcost UART0 _) with 1. change (hcost VIRTIO0 _) with 1.
  change (hcost ECAM _) with 639. change (hcost E1000_REGS _) with 32. change (hcost CLINT _) with 16.
  change (hcost PLIC_BASE _) with 543. change (hcost TRAMPOLINE _) with 1.
  assert (0 ≤ (etext - KERNEL_BASE) / PGSIZE) by (apply Z.div_pos; layout_lia).
  assert (0 ≤ (PHYSTOP - etext) / PGSIZE) by (apply Z.div_pos; layout_lia).
  assert ((etext - KERNEL_BASE) / PGSIZE + (PHYSTOP - etext) / PGSIZE ≤ 0x100000).
  { pose proof (Z.div_mod (etext - KERNEL_BASE) PGSIZE). pose proof (Z.div_mod (PHYSTOP - etext) PGSIZE).
    pose proof (Z.mod_pos_bound (etext - KERNEL_BASE) PGSIZE). pose proof (Z.mod_pos_bound (PHYSTOP - etext) PGSIZE).
    layout_lia. }
  revert H1 H2. generalize dependent ((etext - KERNEL_BASE) / PGSIZE). generalize dependent ((PHYSTOP - etext) / PGSIZE).
  intros. Z.to_euclidean_division_equations. lia.
Qed.
Lemma fixed_avoids : avoids (fixed_regions etext trampoline) PHYSTOP TRAMPOLINE.
Proof.
  intros r Hr. unfold fixed_regions in Hr. rewrite !elem_of_cons, elem_of_nil in Hr.
  unfold VIRT_TEST, UART0, VIRTIO0, ECAM, E1000_REGS, CLINT, PLIC_BASE in Hr.
  decompose [or] Hr; subst; try done; cbn [identity r_va r_size]; layout_lia.
Qed.
End layout.

(** ** The theorem *)
(** The [satp] register: mode and root of the table. *)
Definition satp_mode (satp : Z) : Z := Z.shiftr satp 60.
Definition satp_root (satp : Z) : Z := Z.land satp (Z.ones 44) * PGSIZE.

Lemma as_satp_fields p : is_page p → satp_mode (PageTable.as_satp p) = 8 ∧ satp_root (PageTable.as_satp p) = p.
Proof.
  intros [Hal Hr]. assert (PageTable.as_satp p = 8 * 2 ^ 60 + p / 4096) as ->.
  { unfold PageTable.as_satp. change PageTable.SATP_SV39 with (8 * 2 ^ 60).
    rewrite Z.shiftr_div_pow2 by done. change (2 ^ PGSHIFT) with 4096. symmetry. apply Z.add_nocarry_lor.
    apply Z.bits_inj'. intros i Hi. rewrite Z.land_spec, Z.bits_0, Z.mul_pow2_bits by lia.
    destruct (Z.lt_ge_cases i 60); [by rewrite Z.testbit_neg_r by lia|].
    rewrite (Z.bits_above_log2 (p / 4096)); [by rewrite andb_false_r|apply Z.div_pos; layout_lia|].
    destruct (decide (p / 4096 = 0)) as [->|]; [simpl; lia|].
    apply Z.log2_lt_pow2; [apply Z.le_neq; split; [apply Z.div_pos; layout_lia|lia]|].
    apply Z.div_lt_upper_bound; [lia|]. apply (Z.lt_le_trans _ (4096 * 2 ^ 60)); [layout_lia|].
    apply Z.mul_le_mono_nonneg_l; [lia|]. by apply Z.pow_le_mono_r. }
  unfold satp_mode, satp_root. rewrite Z.shiftr_div_pow2, Z.land_ones by done.
  pose proof (Z.div_mod p 4096 ltac:(done)). assert (0 ≤ p / 4096 < 2 ^ 44).
  { split; [apply Z.div_pos; layout_lia|apply Z.div_lt_upper_bound; layout_lia]. }
  split.
  - rewrite Z.div_add_l, Z.div_small by lia. done.
  - replace (8 * 2 ^ 60) with (8 * 2 ^ 16 * 2 ^ 44) by done.
    rewrite Z.add_comm, Z.mod_add, Z.mod_small by lia. unfold PGSIZE in *. lia.
Qed.

Section init.
Context `{Sym : Symbols} {F : Type} (heap etext kpgt : Z).
Implicit Types k : kst F.

(** [kernel_map] is the fixed regions in order, then the stacks. *)
Lemma for_each_seq {S A B} x xs (f : A → M S unit) (p : M S B) s :
  (for_each (x :: xs) f ;; p) s = (f x ;; (for_each xs f ;; p)) s.
Proof. apply bind_assoc. Qed.
Lemma bind_ext {S A B} (m : M S A) (f g : A → M S B) s : (∀ a s', f a s' = g a s') → (m ≫= f) s = (m ≫= g) s.
Proof. intros E. unfold mbind, M_bind. destruct (m s) as [[a s']| | |]; [apply E|done..]. Qed.

Lemma kernel_map_regions k :
  KERNEL_BASE ≤ etext ≤ PHYSTOP →
  KernelMap.kernel_map etext kpgt k =
    (for_each (fixed_regions etext trampoline_addr) (map_region kpgt) ;; proc_mapstacks kpgt) k.
Proof.
  intros Hb. unfold KernelMap.kernel_map, fixed_regions, identity, map_region, RW, RX.
  do 7 (rewrite for_each_seq; cbn [r_va r_size r_pa r_perm]; apply bind_ext; intros _ ?). rewrite bind_usub by lia.
  rewrite for_each_seq. cbn [r_va r_size r_pa r_perm]. apply bind_ext. intros _ ?. rewrite bind_usub by lia.
  do 2 (rewrite for_each_seq; cbn [r_va r_size r_pa r_perm]; apply bind_ext; intros _ ?). done.
Qed.

(** The regions of the kernel: who is where, with which permissions. *)
Lemma stack_regions_elem stacks r :
  r ∈ concat (imap stack_regions stacks) ↔
  ∃ i j pas pa, stacks !! i = Some pas ∧ pas !! j = Some pa ∧ r = stack_region i j pa.
Proof.
  rewrite list_elem_of_In, in_concat. setoid_rewrite <- list_elem_of_In. split.
  - intros (l & Hl & Hr). apply elem_of_lookup_imap in Hl as (i & pas & -> & Hi).
    apply elem_of_lookup_imap in Hr as (j & pa & -> & Hj). eauto 10.
  - intros (i & j & pas & pa & Hi & Hj & ->). exists (stack_regions i pas).
    split; apply elem_of_lookup_imap; eauto.
Qed.
Lemma kernel_regions_perm stacks r :
  r ∈ kernel_regions etext trampoline_addr stacks → r_perm r = RW ∨ r_perm r = RX.
Proof.
  intros [Hr|Hr]%elem_of_app.
  - unfold fixed_regions in Hr. rewrite !elem_of_cons, elem_of_nil in Hr. decompose [or] Hr; subst; auto. done.
  - apply stack_regions_elem in Hr as (i & j & pas & pa & _ & _ & ->). by left.
Qed.
Lemma guard_clear stacks r i va :
  Forall (λ pas : list Z, length pas = 16%nat) stacks → KERNEL_BASE ≤ etext ≤ PHYSTOP →
  (i < 64)%nat → kernel_stack (Z.of_nat i) - PGSIZE ≤ va < kernel_stack (Z.of_nat i) →
  (length stacks = 64%nat) → r ∈ kernel_regions etext trampoline_addr stacks → ¬ in_region r va.
Proof.
  intros Hall Hb Hi Hva Hlen [Hr|Hr]%elem_of_app.
  - pose proof (fixed_avoids etext trampoline_addr Hb r Hr). unfold in_region. layout_lia.
  - apply stack_regions_elem in Hr as (i' & j & pas & pa & Hi' & Hj%lookup_lt_Some & ->).
    rewrite Forall_lookup in Hall. rewrite (Hall _ _ Hi') in Hj. apply lookup_lt_Some in Hi'.
    unfold in_region. cbn [stack_region r_va r_size]. layout_lia.
Qed.

(** [init] runs, takes less than 14000 pages, and leaves the kernel's space
    with its stacks. *)
Lemma kernel_init_run k fl :
  kinv heap (kmem k) fl → ram (kmem k) !! kpgt = Some zero_page → kpgt ∉ fl →
  length (procs k) = Z.to_nat NPROC →
  etext mod PGSIZE = 0 → KERNEL_BASE ≤ etext ≤ PHYSTOP →
  trampoline_addr mod PGSIZE = 0 → KERNEL_BASE ≤ trampoline_addr < PHYSTOP →
  (14000 ≤ Z.of_nat (length fl)) →
  ∃ m' fl' pos' stacks,
    KernelMap.init etext kpgt k = Done (tt, set_kmem m' k) ∧
    kspace heap kpgt (kernel_regions etext trampoline_addr stacks) m' fl' pos' ∧
    grows (kmem k) fl {[kpgt := (2%nat, 0)]} m' fl' pos' ∧ (100 ≤ length fl')%nat ∧
    length stacks = Z.to_nat NPROC ∧ Forall (λ pas, length pas = 16%nat) stacks ∧
    fresh_pages heap fl m' fl' pos' (concat stacks).
Proof.
  intros K Hr Hf Hn He Hb Ht Htb Hfl.
  pose proof (kspace_empty heap kpgt (kmem k) fl K Hr Hf) as Ks0.
  pose proof (fixed_cost etext trampoline_addr Hb) as Hcost.
  destruct (map_regions_run heap kpgt (fixed_regions etext trampoline_addr) [] k fl {[kpgt := (2%nat, 0)]})
    as (m1 & fl1 & pos1 & E1 & Ks1 & G1 & Hl1);
    [done|by apply fixed_ok|apply Forall_true; intros ? ? ?%elem_of_nil; done|by apply fixed_disjoint|lia|].
  rewrite app_nil_r in Ks1.
  destruct (stack_procs heap kpgt 64 0 (set_kmem m1 k) (fixed_regions etext trampoline_addr) fl1 pos1 PHYSTOP)
    as (stacks & m' & fl' & pos' & Hns & Hall & [E Ks G [Hnd Hfr] Hl]); [done|done|layout_lia| |lia|].
  { eapply avoids_weaken; [by apply fixed_avoids|done|]. layout_lia. }
  assert (length (concat stacks) = 1024%nat) as Hcat.
  { rewrite <- (Nat.mul_1_r 1024). change 1024%nat with (64 * 16)%nat. rewrite <- Hns, Nat.mul_1_r. clear -Hall.
    induction Hall as [|pas l Hp _ IH]; [done|]. simpl. rewrite length_app, IH, Hp. lia. }
  exists m', fl', pos', stacks. split_and!; [| |by eapply grows_trans|lia|done|done|].
  - unfold KernelMap.init. rewrite kernel_map_regions by done. mstep E1. unfold proc_mapstacks.
    rewrite (bind_run _ _ _ (seq 0 64) (set_kmem m1 k)); [exact E|].
    unfold all_procs, gets. cbn [procs set_kmem]. by rewrite Hn.
  - eapply kspace_equiv; [|exact Ks]. intros r. unfold kernel_regions. rewrite !elem_of_app. tauto.
  - split; [done|]. intros p Hp. destruct (Hfr p Hp) as (Hpf & ?). split; [|done].
    destruct (gr_fl _ _ _ _ _ _ G1) as [x ->]. apply elem_of_app. by right.
Qed.

(** C8. Boot builds the kernel's address space. With [KERNEL_PAGETABLE] a
    zeroed page outside the heap's free list, 14000 free pages, 64 entries in
    the process table and page-aligned [etext] and trampoline, [init] neither
    panics nor runs out of memory; afterwards the hardware, with [satp] as
    [init_hart] sets it, translates exactly the intended regions: devices and
    RAM to themselves, the kernel's code read-execute and the rest of RAM
    read-write, the trampoline at the top, and for every process sixteen
    read-write stack pages, all distinct, zeroed and owned once. Below every
    stack lies an unmapped guard page, and no page is writable and
    executable. *)
Theorem kernel_address_space k fl satp0 :
  kinv heap (kmem k) fl → ram (kmem k) !! kpgt = Some zero_page → kpgt ∉ fl →
  length (procs k) = Z.to_nat NPROC →
  etext mod PGSIZE = 0 → KERNEL_BASE ≤ etext ≤ PHYSTOP →
  trampoline_addr mod PGSIZE = 0 → KERNEL_BASE ≤ trampoline_addr < PHYSTOP →
  (14000 ≤ Z.of_nat (length fl)) →
  ∃ k' stacks satp,
    KernelMap.init etext kpgt k = Done (tt, k') ∧
    KernelMap.init_hart kpgt satp0 = Done (tt, satp) ∧ satp_mode satp = 8 ∧
    length stacks = Z.to_nat NPROC ∧ Forall (λ pas, length pas = 16%nat) stacks ∧ NoDup (concat stacks) ∧
    (∀ p, p ∈ concat stacks → p ∈ fl ∧ ram (kmem k') !! p = Some zero_page ∧ cnt (kmem k') p = 1) ∧
    maps_exactly (kmem k') (satp_root satp) (kernel_regions etext trampoline_addr stacks) ∧
    (∀ i va, (i < Z.to_nat NPROC)%nat → kernel_stack (Z.of_nat i) - PGSIZE ≤ va < kernel_stack (Z.of_nat i) →
       sv39 (kmem k') (satp_root satp) va = None) ∧
    (∀ va pa f, 0 ≤ va ≤ MAXVA → sv39 (kmem k') (satp_root satp) va = Some (pa, f) →
       is_write f && is_execute f = false).
Proof.
  intros K Hr Hf Hn He Hb Ht Htb Hfl.
  destruct (kernel_init_run k fl) as (m' & fl' & pos' & stacks & E & Ks & _ & _ & Hns & Hall & Hnd & Hfr); [done..|].
  destruct (as_satp_fields kpgt) as [Hmode Hroot]; [by eapply (kinv_page heap _ _ kpgt K); eexists|].
  exists (set_kmem m' k), stacks, (PageTable.as_satp kpgt). rewrite Hroot.
  pose proof (ks_maps _ _ _ _ _ _ Ks) as Hmaps.
  split_and!; [done..| |done| |].
  - intros p Hp. by destruct (Hfr p Hp) as (? & _ & _ & ? & ?).
  - intros i va Hi Hva. apply Hmaps; [layout_lia|]. intros r Hr'. by eapply guard_clear.
  - intros va pa f Hva Hsv. destruct Hmaps as [Hin Hout].
    destruct (decide (Exists (λ r, in_region r va) (kernel_regions etext trampoline_addr stacks))) as [Hex|Hnex].
    + apply Exists_exists in Hex as (r & Hr' & Hv). cbn [set_kmem kmem] in Hsv. rewrite (Hin r va Hr' Hv Hva) in Hsv.
      injection Hsv as _ <-. by destruct (kernel_regions_perm stacks r Hr') as [-> | ->].
    + cbn [set_kmem kmem] in Hsv. rewrite Hout in Hsv; [done|done|]. intros r Hr' Hv. apply Hnex, Exists_exists. eauto.
Qed.
End init.

(** A booted machine with 14000 free pages, and [KERNEL_PAGETABLE] a page of
    its own. *)
#[local] Instance sym1 : Symbols := {|
  proc_base := 0x80100000; proc_stride := 0x200; fork_ret_addr := 0x80000100;
  user_trap_addr := 0x80000200; trampoline_addr := 0x80007000; kernel_satp := 0 |}.
Definition boot_kst (m : mem) : kst unit :=
  mkKst (mkMach [] ∅) m ((λ i, mkProcess ProcMeta.new (ProcData.new i)) <$> seq 0 64) 0 None [] [] 0 tt.

Lemma kernel_address_space_witness :
  ∃ m kpgt k', KernelMap.init 0x80020000 kpgt (boot_kst m) = Done (tt, k') ∧
    sv39 (kmem k') kpgt 0x8001ffff = Some (0x8001ffff, Z.lor RX PTE_V) ∧
    sv39 (kmem k') kpgt 0x80020000 = Some (0x80020000, Z.lor RW PTE_V) ∧
    sv39 (kmem k') kpgt (kernel_stack 3 - 1) = None.
Proof.
  assert (∃ n, Z.of_nat n = 14000) as [n Hn] by (exists (Z.to_nat 14000); by rewrite Z2Nat.id).
  destruct (boot_root n) as (m & fl & root & K & Hz & Hf & _ & _ & Hl); [lia|].
  destruct (kernel_address_space (heap_of (S n)) 0x80020000 root (boot_kst m) fl 0)
    as (k' & stacks & satp & E & Es & _ & _ & _ & _ & _ & [Hin _] & Hg & _);
    [done|done|done|reflexivity|reflexivity|layout_lia|reflexivity|simpl; layout_lia|lia|].
  injection Es as <-.
  destruct (as_satp_fields root) as [_ Hroot]; [by eapply (kinv_page _ _ _ root K); eexists|]. rewrite Hroot in *.
  exists m, root, k'. split_and!; [done| | |].
  - rewrite (Hin (identity KERNEL_BASE 0x20000 RX)); [done| |unfold in_region; simpl; layout_lia|layout_lia].
    apply elem_of_app. left. do 7 right. left.
  - rewrite (Hin (identity 0x80020000 (PHYSTOP - 0x80020000) RW)); [done| |unfold in_region; simpl; layout_lia|layout_lia].
    apply elem_of_app. left. do 8 right. left.
  - apply (Hg 3%nat); [by apply Nat.ltb_lt|layout_lia].
Defined.

(** ** [map_with_huge] against [map] *)


