(* ===== verification/Fs.v ===== *)
(** * The file system: the operations

    [fs/superblock.rs], [fs/bitmap.rs], [fs/dinode.rs] and [fs/inode.rs] over
    the log and the buffer cache, with the copies between kernel and user
    memory of [memory/mod.rs]. Every operation reads and writes disk blocks
    through handles of the cache and passes modified handles to the log. *)
From S2P Require Import Prelude.
From S2P Require Import Layout.
From S2P Require Import Kalloc.
From S2P Require Import PageTable.
From S2P Require Import BufLru.
From S2P Require Import Bcache.
From S2P Require Import Log.

(** ** On-disk structures *)
Record RawSuperBlock := mkSuper {
  magic : Z; sb_size : Z; nblocks : Z; ninodes : Z; nlog : Z;
  logstart : Z; inodestart : Z; bmapstart : Z
}.
(** [ptr::copy_nonoverlapping] of the structure from the block. *)
Definition super_of (x : block) : RawSuperBlock :=
  match words4 8 x with
  | [a; b; c; d; e; f; g; h] => mkSuper a b c d e f g h
  | _ => mkSuper 0 0 0 0 0 0 0 0
  end.

Inductive InodeType := Empty | Directory | File | Device.
#[global] Instance InodeType_eq_dec : EqDecision InodeType.
Proof. solve_decision. Defined.
Definition itype_u16 (t : InodeType) : Z :=
  match t with Empty => 0 | Directory => 1 | File => 2 | Device => 3 end.
Definition itype_of (w : Z) : option InodeType :=
  if w =? 0 then Some Empty else if w =? 1 then Some Directory
  else if w =? 2 then Some File else if w =? 3 then Some Device else None.

(** The [i16] fields are kept as signed numbers. *)
Record DiskInode := mkDinode {
  itype : InodeType; major : Z; minor : Z; nlink : Z; dsize : Z; addrs : list Z
}.

Module DiskInode.
Definition new : DiskInode := mkDinode Empty 0 0 0 0 (replicate (Z.to_nat NDIRECT + 1) 0).

(** The 64 bytes of the structure. *)
Definition to_bytes (d : DiskInode) : list Z :=
  le_bytes 2 (itype_u16 (itype d)) ++ le_bytes 2 (wrap 16 (major d)) ++
  le_bytes 2 (wrap 16 (minor d)) ++ le_bytes 2 (wrap 16 (nlink d)) ++
  le_bytes 4 (dsize d) ++ (addrs d ≫= le_bytes 4).
(** A type field that is no [InodeType] is undefined behaviour. *)
Definition of_bytes (bs : list Z) : option DiskInode :=
  t ← itype_of (le_word (take 2 bs));
  Some (mkDinode t (to_signed 16 (le_word (take 2 (drop 2 bs))))
    (to_signed 16 (le_word (take 2 (drop 4 bs))))
    (to_signed 16 (le_word (take 2 (drop 6 bs))))
    (le_word (take 4 (drop 8 bs))) (words4 (Z.to_nat NDIRECT + 1) (drop 12 bs))).

(** [Err(())] is [None]. *)
Definition try_alloc (d : DiskInode) (t : InodeType) : option DiskInode :=
  if bool_decide (itype d = Empty)
  then Some (mkDinode t 0 0 0 0 (replicate (Z.to_nat NDIRECT + 1) 0)) else None.
End DiskInode.

(** Bytes [off, off + length bs) of a block. *)
Definition slice (x : block) (off n : Z) : list Z := take (Z.to_nat n) (drop (Z.to_nat off) x).
Definition splice (x : block) (off : Z) (bs : list Z) : block :=
  take (Z.to_nat off) x ++ bs ++ drop (Z.to_nat off + length bs) x.

(** [size_of::<DirEntry>()] *)
Definition DIRENT_SIZE : Z := 2 + DIRSIZ.
Record DirEntry := mkDirent { de_inum : Z; de_name : list Z }.
Module DirEntry.
Definition new : DirEntry := mkDirent 0 (replicate (Z.to_nat DIRSIZ) 0).
Definition to_bytes (e : DirEntry) : list Z := le_bytes 2 (de_inum e) ++ de_name e.
Definition of_bytes (bs : list Z) : DirEntry := mkDirent (le_word (take 2 bs)) (drop 2 bs).
End DirEntry.

(** ** The state *)
Record InodeMeta := mkImeta { im_dev : Z; im_blockno : Z; im_inum : Z; refs : Z }.
Record InodeData := mkIdata {
  id_valid : bool; id_dev : Z; id_inum : Z; dinode : DiskInode; id_locked : bool
}.
(** A reference; [index] is its slot in the cache. *)
Record Inode := mkInode { i_dev : Z; i_inum : Z; index : nat }.
Module InodeMeta.
Definition new : InodeMeta := mkImeta 0 0 0 0.
End InodeMeta.
Module InodeData.
Definition new : InodeData := mkIdata false 0 0 DiskInode.new false.
End InodeData.
Definition id_set_dinode (d : InodeData) (x : DiskInode) : InodeData :=
  mkIdata (id_valid d) (id_dev d) (id_inum d) x (id_locked d).
Definition id_set_valid (d : InodeData) (b : bool) : InodeData :=
  mkIdata b (id_dev d) (id_inum d) (dinode d) (id_locked d).
Definition id_set_locked (d : InodeData) (b : bool) : InodeData :=
  mkIdata (id_valid d) (id_dev d) (id_inum d) (dinode d) b.
Definition d_set_addr (d : DiskInode) (n : nat) (a : Z) : DiskInode :=
  mkDinode (itype d) (major d) (minor d) (nlink d) (dsize d) (<[n := a]> (addrs d)).
Definition d_set_size (d : DiskInode) (n : Z) : DiskInode :=
  mkDinode (itype d) (major d) (minor d) (nlink d) n (addrs d).
Definition d_set_nlink (d : DiskInode) (n : Z) : DiskInode :=
  mkDinode (itype d) (major d) (minor d) n (dsize d) (addrs d).
Definition d_set_itype (d : DiskInode) (t : InodeType) : DiskInode :=
  mkDinode t (major d) (minor d) (nlink d) (dsize d) (addrs d).

(** The log with the cache, the super block, the inode cache, and what the
    file system needs of the running process: memory, page table and
    working directory. *)
Record fsst (S : Type) := mkFsst {
  fl : logst S;
  super : RawSuperBlock;
  sb_ready : bool;
  imetas : list InodeMeta;
  idatas : list InodeData;
  umem : mem;
  cur_pgt : option Z;
  cur_cwd : option Inode
}.
Arguments mkFsst {S}. Arguments fl {S}. Arguments super {S}. Arguments sb_ready {S}.
Arguments imetas {S}. Arguments idatas {S}. Arguments umem {S}. Arguments cur_pgt {S}.
Arguments cur_cwd {S}.

(** [BitField] of the crate bit_field, for [u8]. *)
Class BitField := { get_bit : Z → Z → bool; set_bit : Z → Z → bool → Z }.

Section fs.
Context {D S : Type} `{!BlockDev D} (dv : Z) `{!BufferCache D S dv}.
Abbreviation FS := (M (fsst S)).

Definition on_log {A} : M (logst S) A → FS A :=
  zoom fl (λ l s, mkFsst l (super s) (sb_ready s) (imetas s) (idatas s) (umem s) (cur_pgt s)
    (cur_cwd s)).
Definition on_umem {A} : M mem A → FS A :=
  zoom umem (λ m s, mkFsst (fl s) (super s) (sb_ready s) (imetas s) (idatas s) m (cur_pgt s)
    (cur_cwd s)).
Definition set_super (x : RawSuperBlock) (b : bool) : FS unit :=
  modify (λ s, mkFsst (fl s) x b (imetas s) (idatas s) (umem s) (cur_pgt s) (cur_cwd s)).

Definition bread (dev b : Z) : FS Buf := on_log (Log.cache (bc_read dev b)).
Definition bdata (buf : Buf) : FS block := on_log (Log.cache (bc_data buf)).
Definition bset (buf : Buf) (x : block) : FS unit := on_log (Log.cache (bc_set buf x)).
Definition bdrop (buf : Buf) : FS unit := on_log (Log.cache (bc_drop buf)).
Definition log_write (buf : Buf) : FS unit := on_log (Log.write dv buf).

Definition oob : string := "index out of bounds".
Definition imeta_at (i : nat) : FS InodeMeta := s ← get; unwrap (imetas s !! i) oob.
Definition put_imeta (i : nat) (x : InodeMeta) : FS unit :=
  modify (λ s, mkFsst (fl s) (super s) (sb_ready s) (<[i := x]> (imetas s)) (idatas s) (umem s)
    (cur_pgt s) (cur_cwd s)).
Definition idata_at (i : nat) : FS InodeData := s ← get; unwrap (idatas s !! i) oob.
Definition put_idata (i : nat) (x : InodeData) : FS unit :=
  modify (λ s, mkFsst (fl s) (super s) (sb_ready s) (imetas s) (<[i := x]> (idatas s)) (umem s)
    (cur_pgt s) (cur_cwd s)).
Definition put_dinode (i : nat) (x : DiskInode) : FS unit :=
  d ← idata_at i; put_idata i (id_set_dinode d x).

(** ** The super block *)
Definition sb_init (dev : Z) : FS unit :=
  s ← get;
  if sb_ready s then mret tt else
  buf ← bread dev 1;
  x ← bdata buf;
  set_super (super_of x) false ;;
  assert (magic (super_of x) =? FSMAGIC) "invalid file system magic num" ;;
  set_super (super_of x) true ;;
  bdrop buf.

Definition read_log : FS (Z * Z) := gets (λ s, (logstart (super s), nlog (super s))).
Definition sb_total : FS Z := gets (λ s, sb_size (super s)).
Definition read_inode : FS (Z * Z) := gets (λ s, (inodestart (super s), ninodes (super s))).
Definition read_bmp : FS Z := gets (λ s, bmapstart (super s)).
Definition locate_inode (inum : Z) : FS Z :=
  s ← get;
  if ninodes (super s) <=? inum then panic "query inum larger than maximum inode nums"
  else uadd 32 (inum / IPB) (inodestart (super s)).
Definition locate_bmp (blockno : Z) : FS Z :=
  s ← get; uadd 32 (bmapstart (super s)) (blockno / BPB).

(** [fs::init] *)
Definition fs_init (dev : Z) : FS unit :=
  sb_init dev ;;
  l ← read_log;
  on_log (Log.init dv dev (fst l) (snd l)).

(** ** The free map *)
Section bitmap.
Context `{!BitField}.
Definition bitmap_free (dev blockno : Z) : FS unit :=
  bm_blockno ← read_bmp;
  let bm_offset := blockno mod BPB in
  let idx := bm_offset / 8 in
  let bit := bm_offset mod 8 in
  buf ← bread dev bm_blockno;
  x ← bdata buf;
  byte ← unwrap (x !! Z.to_nat idx) oob;
  assert (get_bit byte bit) "bitmap: double freeing a block." ;;
  bset buf (<[Z.to_nat idx := set_bit byte bit false]> x) ;;
  log_write buf.
End bitmap.

(** The inner loop of [alloc] over one bitmap block: the first clear bit. *)
Fixpoint find_clear (x : block) (n : nat) (i : Z) : option Z :=
  match n with
  | O => None
  | Datatypes.S n' =>
    match x !! Z.to_nat (i / 8) with
    | Some byte => if Z.land byte (Z.shiftl 1 (i mod 8)) =? 0 then Some i
                   else find_clear x n' (i + 1)
    | None => None
    end
  end.
Fixpoint bitmap_alloc_loop (dev : Z) (bs : list Z) : FS Z :=
  match bs with
  | [] => panic "bitmap: out of the block ranges."
  | b :: bs' =>
    bm_blockno ← locate_bmp b;
    buf ← bread dev bm_blockno;
    x ← bdata buf;
    n ← sb_total;
    match find_clear x (Z.to_nat (Z.min BPB (n - b))) 0 with
    | Some i =>
      byte ← unwrap (x !! Z.to_nat (i / 8)) oob;
      bset buf (<[Z.to_nat (i / 8) := Z.lor byte (Z.shiftl 1 (i mod 8))]> x) ;;
      log_write buf ;;
      mret (b + i)
    | None => bdrop buf ;; bitmap_alloc_loop dev bs'
    end
  end.
(** [(0..size).step_by(BPB)] *)
Definition bitmap_alloc (dev : Z) : FS Z :=
  n ← sb_total;
  bitmap_alloc_loop dev ((λ k, k * BPB) <$> seqZ 0 (Z.of_nat (step_count 0 n BPB))).

(** ** Inodes on disk *)
Definition locate_inode_offset (inum : Z) : Z := inum mod IPB.
(** The handle, the byte offset of the inode in its block, and the inode. *)
Definition find_inode (dev inum : Z) : FS (Buf * Z * DiskInode) :=
  blockno ← locate_inode inum;
  let off := locate_inode_offset inum * DINODE_SIZE in
  buf ← bread dev blockno;
  x ← bdata buf;
  match DiskInode.of_bytes (slice x off DINODE_SIZE) with
  | Some d => mret (buf, off, d)
  | None => fault
  end.
(** [*dinode = d] through the reference into the block. *)
Definition set_inode (buf : Buf) (off : Z) (d : DiskInode) : FS unit :=
  x ← bdata buf; bset buf (splice x off (DiskInode.to_bytes d)).

Fixpoint dinode_alloc_loop (dev : Z) (t : InodeType) (inums : list Z) : FS Z :=
  match inums with
  | [] => panic "not enough inode to alloc"
  | inum :: rest =>
    r ← find_inode dev inum;
    let '(buf, off, d) := r in
    match DiskInode.try_alloc d t with
    | Some d' => set_inode buf off d' ;; log_write buf ;; mret inum
    | None => bdrop buf ;; dinode_alloc_loop dev t rest
    end
  end.
Definition dinode_alloc (dev : Z) (t : InodeType) : FS Z :=
  n ← sb_total; dinode_alloc_loop dev t (seqZ 1 (n - 1)).

(** ** Inodes in memory: [InodeData] of cache slot [i] *)
Definition update (i : nat) : FS unit :=
  d ← idata_at i;
  r ← find_inode (id_dev d) (id_inum d);
  let '(buf, off, _) := r in
  set_inode buf off (dinode d) ;;
  log_write buf.

(** The block that holds block [offset_bn] of the file. *)
Definition map (i : nat) (offset_bn : Z) : FS Z :=
  d ← idata_at i;
  if offset_bn <? NDIRECT then
    a ← unwrap (addrs (dinode d) !! Z.to_nat offset_bn) oob;
    if a =? 0 then
      addr ← bitmap_alloc (id_dev d);
      put_dinode i (d_set_addr (dinode d) (Z.to_nat offset_bn) addr) ;;
      mret addr
    else mret a
  else if offset_bn <? NINDIRECT + NDIRECT then
    a ← unwrap (addrs (dinode d) !! Z.to_nat NDIRECT) oob;
    (if negb (a =? 0) then
       n ← bitmap_alloc (id_dev d);
       put_dinode i (d_set_addr (dinode d) (Z.to_nat NDIRECT) n)
     else mret tt) ;;
    d ← idata_at i;
    a ← unwrap (addrs (dinode d) !! Z.to_nat NDIRECT) oob;
    addr_block ← bread (id_dev d) a;
    x ← bdata addr_block;
    let off := (offset_bn - NDIRECT) * 4 in
    if le_word (slice x off 4) =? 0 then
      addr ← bitmap_alloc (id_dev d);
      x ← bdata addr_block;
      bset addr_block (splice x off (le_bytes 4 addr)) ;;
      log_write addr_block ;;
      mret addr
    else bdrop addr_block ;; mret 0
  else mret 0.

(** Where [read] puts the bytes: at a user address, or in a kernel buffer,
    whose contents the model returns. *)
Inductive place := User | Kernel.
Definition copy_from_kernel (pl : place) (dst : Z) (src : list Z) : FS unit :=
  match pl with
  | User =>
    s ← get;
    pgt ← unwrap (cur_pgt s) PageTable.unwrap_msg;
    on_umem (PageTable.copy_out pgt dst src ;; mret tt)
  | Kernel => mret tt
  end.
(** The kernel source buffer is [ksrc], from position [src] on. *)
Definition copy_to_kernel (pl : place) (ksrc : list Z) (src len : Z) : FS (list Z) :=
  match pl with
  | User =>
    s ← get;
    pgt ← unwrap (cur_pgt s) PageTable.unwrap_msg;
    on_umem (PageTable.copy_in pgt len src)
  | Kernel => mret (slice ksrc src len)
  end.

(** The loop of [read]: the bytes copied out, in order. *)
Fixpoint read_loop (fuel : nat) (i : nat) (pl : place) (dst offset total count : Z)
    : FS (list Z) :=
  if count <=? total then mret [] else
  match fuel with
  | O => hang
  | Datatypes.S fuel' =>
    d ← idata_at i;
    let block_offset := offset mod BSIZE in
    block_no ← map i (offset / BSIZE);
    buf ← bread (id_dev d) block_no;
    x ← bdata buf;
    let write_len := Z.min (count - total) (BSIZE - block_offset) in
    let src := slice x block_offset write_len in
    copy_from_kernel pl dst src ;;
    bdrop buf ;;
    rest ← read_loop fuel' i pl (dst + write_len) (offset + write_len) (total + write_len) count;
    mret (src ++ rest)
  end.
Definition iread (i : nat) (pl : place) (dst offset count : Z) : FS (result (list Z)) :=
  if 2 ^ 32 <=? offset + count then mret (Err "Failed to add count.") else
  d ← idata_at i;
  if dsize (dinode d) <? offset + count
  then mret (Err "inode read: end is more than diskinode's size") else
  bs ← read_loop (Datatypes.S (Z.to_nat count)) i pl dst offset 0 count;
  mret (Ok bs).

Fixpoint write_loop (fuel : nat) (i : nat) (pl : place) (ksrc : list Z)
    (src offset total count : Z) : FS Z :=
  if count <=? total then mret offset else
  match fuel with
  | O => hang
  | Datatypes.S fuel' =>
    d ← idata_at i;
    let block_offset := offset mod BSIZE in
    block_no ← map i (offset / BSIZE);
    buf ← bread (id_dev d) block_no;
    let read_len := Z.min (count - total) (BSIZE - block_offset) in
    bs ← copy_to_kernel pl ksrc src read_len;
    x ← bdata buf;
    bset buf (splice x block_offset bs) ;;
    log_write buf ;;
    write_loop fuel' i pl ksrc (src + read_len) (offset + read_len) (total + read_len) count
  end.
Definition iwrite (i : nat) (pl : place) (ksrc : list Z) (src offset count : Z) : FS (result Z) :=
  offset' ← write_loop (Datatypes.S (Z.to_nat count)) i pl ksrc src offset 0 count;
  d ← idata_at i;
  (if dsize (dinode d) <? wrap 32 offset'
   then put_dinode i (d_set_size (dinode d) (wrap 32 offset')) else mret tt) ;;
  update i ;;
  mret (Ok count).

Record Stat := mkStat { st_dev : Z; st_inum : Z; st_itype : InodeType; st_nlink : Z; st_size : Z }.
Definition stat (i : nat) : FS Stat :=
  d ← idata_at i;
  mret (mkStat (id_dev d) (id_inum d) (itype (dinode d)) (nlink (dinode d)) (dsize (dinode d))).

Section truncate.
Context `{!BitField}.
Definition truncate_direct (i : nat) (dev : Z) (n : nat) : FS unit :=
  d ← idata_at i;
  a ← unwrap (addrs (dinode d) !! n) oob;
  if 0 <? a then
    bitmap_free dev a ;;
    d ← idata_at i;
    put_dinode i (d_set_addr (dinode d) n 0)
  else mret tt.
Definition truncate (i : nat) (dev : Z) : FS unit :=
  for_each (seq 0 (Z.to_nat NDIRECT)) (truncate_direct i dev) ;;
  d ← idata_at i;
  a ← unwrap (addrs (dinode d) !! Z.to_nat NDIRECT) oob;
  (if 0 <? a then
     buf ← bread dev a;
     x ← bdata buf;
     for_each (words4 (Z.to_nat NINDIRECT) x) (λ addr,
       if 0 <? addr then bitmap_free dev addr else mret tt) ;;
     bdrop buf ;;
     bitmap_free dev a ;;
     d ← idata_at i;
     put_dinode i (d_set_addr (dinode d) (Z.to_nat NDIRECT) 0)
   else mret tt) ;;
  d ← idata_at i;
  put_dinode i (d_set_size (dinode d) 0) ;;
  update i.
End truncate.
End fs.
