(* ===== verification/FsFacts.v ===== *)
(** * Blocks inside a transaction

    What the file system sees of the layers below while an operation is
    open: [txn s a] ties the state to the abstract cache [a], whose
    referenced blocks are exactly the logged ones; [hold] adds the one handle
    the running operation has. Reading, modifying and logging a block change
    nothing but the view of that block. *)
From S2P Require Import Prelude.
From S2P Require Import Layout.
From S2P Require Import Kalloc.
From S2P Require Import BufLru.
From S2P Require Import Bcache.
From S2P Require Import Log.
From S2P Require Import LogFacts.
From S2P Require Import LogSpec.
From S2P Require Import Fs.

Section txn.
Context {D S : Type} `{!BlockDev D} `{!BlockDevLaws D} (dv : Z) `{!BufferCache D S dv}.
Implicit Types (s : fsst S) (a : acache D) (b i : Z) (x y : block).

Definition with_fl (l : logst S) s : fsst S :=
  mkFsst l (super s) (sb_ready s) (imetas s) (idatas s) (umem s) (cur_pgt s) (cur_cwd s).
Definition log_of s : Log := lg (fl s).
Definition logged_blocks s : list Z := homes (lh (log_of s)).

Record txn s a : Prop := {
  tx_rep : bc_rep (bc (fl s)) a;
  tx_inv : log_inv dv (log_of s) a;
  tx_out : 1 ≤ outstanding (log_of s);
  tx_bufs : ∀ b ab, a_bufs a !! b = Some ab → b ∈ logged_blocks s ∧
    ∃ i x, ab = mkAbuf i x 1 false
}.

(** Room in the log for [n] more blocks. *)
Definition room (n : Z) s : Prop :=
  len (lh (log_of s)) + n + 1 < LOGSIZE ∧ len (lh (log_of s)) + n + 1 < size_ (log_of s).
(** A block the file system may log. *)
Definition loggable s b : Prop := in_u 32 b ∧ outside (start (log_of s)) b.

(** The handle on block [b], with contents [x]. *)
Definition handle s b i x : abuf := mkAbuf i x (if decide (b ∈ logged_blocks s) then 2 else 1) true.
Record hold s a b i x : Prop := {
  hd_rep : bc_rep (bc (fl s)) (a_set a b (handle s b i x));
  hd_inv : log_inv dv (log_of s) a;
  hd_out : 1 ≤ outstanding (log_of s);
  hd_bufs : ∀ b ab, a_bufs a !! b = Some ab → b ∈ logged_blocks s ∧
    ∃ i x, ab = mkAbuf i x 1 false;
  hd_same : ∀ ab, a_bufs a !! b = Some ab → ab_idx ab = i
}.

Lemma with_fl_log s : with_fl (fl s) s = s.
Proof. by destruct s. Qed.

Lemma on_log_cache {A} (m : M S A) s v c :
  m (bc (fl s)) = Done (v, c) →
  on_log (Log.cache m) s = Done (v, with_fl (mkLogst (log_of s) c) s).
Proof.
  intros E. unfold on_log, zoom. unfold log_of. destruct (fl s) as [g c0] eqn:Ef. simpl in *.
  by rewrite (cache_run m g c0 v c E).
Qed.

Lemma txn_logged_lookup s a b :
  txn s a → b ∈ logged_blocks s ↔ is_Some (a_bufs a !! b).
Proof.
  intros T. split.
  - intros Hb. destruct (li_logged _ _ _ (tx_inv _ _ T) b Hb) as (j & x & r & h & E & _). eauto.
  - intros [ab Hab]. by apply (tx_bufs _ _ T b ab).
Qed.

Lemma txn_size s a : txn s a → Z.of_nat (size (a_bufs a)) < NBUF.
Proof.
  intros T. pose proof (la_ok _ _ _ _ (li_area _ _ _ (tx_inv _ _ T))) as Hok.
  pose proof (length_homes _ Hok) as Hl. destruct Hok as (Hlen & _ & _).
  assert (size (a_bufs a) ≤ length (logged_blocks s))%nat as Hs.
  { rewrite <- size_dom. transitivity (size (list_to_set (logged_blocks s) : gset Z)).
    - apply subseteq_size. intros b Hb. apply elem_of_dom in Hb.
      apply elem_of_list_to_set. by apply (txn_logged_lookup s a b T).
    - rewrite size_list_to_set; [done|apply T]. }
  unfold logged_blocks in Hs. unfold NBUF, LOGSIZE in *. lia.
Qed.

(** Reading a block gives a handle on its view. *)
Lemma bread_run s a b :
  txn s a →
  ∃ l i, bread dv dv b s = Done (mkBuf i dv b i, with_fl l s) ∧
    hold (with_fl l s) a b i (a_view a b) ∧ lg l = log_of s.
Proof.
  intros T. pose proof T as [R I O Hb]. unfold bread, a_view.
  destruct (a_bufs a !! b) as [ab|] eqn:E.
  - destruct (Hb _ _ E) as (Hin & i & x & ->).
    destruct (bc_read_hit _ _ b i x 1 R E) as (c & Ec & Rc); [unfold MAXREF; lia|].
    exists (mkLogst (log_of s) c), i. split; [by apply on_log_cache|]. split; [|done].
    split; try done; simpl.
    + unfold handle. rewrite decide_True by done. done.
    + intros ab Hab. by simplify_eq.
  - destruct (bc_read_miss _ _ b R E (txn_size _ _ T)) as (c & i & Ec & Rc).
    exists (mkLogst (log_of s) c), i. split; [by apply on_log_cache|]. split; [|done].
    split; try done; simpl; [|by rewrite E].
    unfold handle. rewrite decide_False; [done|].
    intros Hin. apply (txn_logged_lookup s a b T) in Hin as [? ?]. congruence.
Qed.

Lemma hold_lookup s a b i x : a_bufs (a_set a b (handle s b i x)) !! b = Some (handle s b i x).
Proof. apply lookup_insert_eq. Qed.

Lemma bdata_run s a b i x :
  hold s a b i x → bdata dv (mkBuf i dv b i) s = Done (x, s).
Proof.
  intros H. unfold bdata. rewrite <- (with_fl_log s) at 2. unfold with_fl.
  rewrite (on_log_cache _ s x (bc (fl s))).
  - unfold with_fl, log_of. by destruct (fl s).
  - eapply bc_data_run; [apply H|apply hold_lookup].
Qed.

Lemma bset_run s a b i x y :
  hold s a b i x →
  ∃ l, bset dv (mkBuf i dv b i) y s = Done (tt, with_fl l s) ∧ hold (with_fl l s) a b i y ∧
    lg l = log_of s.
Proof.
  intros H. destruct (bc_set_run _ _ b i x _ y (hd_rep _ _ _ _ _ H) (hold_lookup _ _ _ _ _))
    as (c & Ec & Rc).
  exists (mkLogst (log_of s) c). split; [by apply on_log_cache|]. split; [|done].
  destruct H as [R I O Hb Hsame]. split; try done; simpl.
  replace (a_set a b (handle (with_fl _ s) b i y)) with
    (a_set (a_set a b (handle s b i x)) b (mkAbuf i y (if decide (b ∈ logged_blocks s) then 2 else 1)
      true)); [done|].
  unfold a_set. simpl. rewrite insert_insert_eq. done.
Qed.

(** Dropping an unmodified handle. *)
Lemma bdrop_run s a b i :
  hold s a b i (a_view a b) →
  ∃ l, bdrop dv (mkBuf i dv b i) s = Done (tt, with_fl l s) ∧ txn (with_fl l s) a ∧
    lg l = log_of s.
Proof.
  intros H. pose proof H as [R I O Hb Hsame]. unfold handle in R.
  destruct (decide (b ∈ logged_blocks s)) as [Hin|Hnin].
  - destruct (li_logged _ _ _ I b Hin) as (j & x & r & hh & E & _).
    destruct (Hb _ _ E) as (_ & i' & x' & Eab). simplify_eq.
    pose proof (Hsame _ E) as Hi. simpl in Hi. subst i'.
    assert (a_view a b = x') as Hv by (unfold a_view; by rewrite E).
    destruct (bc_drop_shared _ _ b i (a_view a b) 2 R (lookup_insert_eq _ _ _)) as (c & Ec & Rc); [lia|].
    exists (mkLogst (log_of s) c). split; [by apply on_log_cache|]. split; [|done].
    split; try done. simpl.
    replace a with (a_set (a_set a b (mkAbuf i (a_view a b) 2 true)) b (mkAbuf i (a_view a b) (2 - 1) false));
      [done|].
    unfold a_set. simpl. rewrite insert_insert_eq, insert_id by (by rewrite Hv). by destruct a.
  - assert (a_bufs a !! b = None) as E.
    { destruct (a_bufs a !! b) eqn:E; [|done]. by destruct (Hb _ _ E). }
    destruct (bc_drop_last _ _ b i (a_view a b) R (lookup_insert_eq _ _ _)) as (c & Ec & Rc).
    { unfold a_view. by rewrite E. }
    exists (mkLogst (log_of s) c). split; [by apply on_log_cache|]. split; [|done].
    split; try done. simpl.
    replace a with (a_del (a_set a b (mkAbuf i (a_view a b) 1 true)) b); [done|].
    unfold a_set, a_del. simpl. rewrite delete_insert_id by done. by destruct a.
Qed.

(** Passing the handle to the log: the view of the block becomes its
    contents, and the block is logged. *)
Lemma log_inv_handle s a b i x :
  hold s a b i x → outside (start (log_of s)) b →
  log_inv dv (log_of s) (a_set a b (handle s b i x)).
Proof.
  intros [R I O Hb Hsame] Hout. pose proof I as [[Hd Hok Hw Hap] Hnd Hpin Hdk He].
  assert (∀ i0, 0 ≤ i0 < LOGSIZE → start (log_of s) + i0 ≠ b) as Hne.
  { intros i0 Hi0 <-. unfold outside in Hout. lia. }
  split; [|done| |done|done].
  - split; [done..|]. intros i0 Hi0. destruct (Hap i0 Hi0). specialize (Hne i0 Hi0).
    split; [simpl; by rewrite lookup_insert_ne|done].
  - intros hb Hhb. destruct (decide (hb = b)) as [->|].
    + exists i, x, 2, true. split; [|unfold MAXREF; lia]. unfold handle.
      rewrite decide_True by done. apply lookup_insert_eq.
    + destruct (Hpin hb Hhb) as (j & z & q & h & ? & ?). exists j, z, q, h.
      split; [|done]. simpl. by rewrite lookup_insert_ne.
Qed.

Lemma log_write_run s a b i y :
  hold s a b i y → loggable s b → room (if decide (b ∈ logged_blocks s) then 0 else 1) s →
  ∃ l, log_write dv (mkBuf i dv b i) s = Done (tt, with_fl l s) ∧
    txn (with_fl l s) (a_set a b (mkAbuf i y 1 false)) ∧
    (if decide (b ∈ logged_blocks s) then lg l = log_of s
     else lg l = Log.set_lh (log_of s) (lh (lg l)) ∧ len (lh (lg l)) = len (lh (log_of s)) + 1 ∧
          homes (lh (lg l)) = logged_blocks s ++ [b]).
Proof.
  intros H [Hu Hout] [Hr1 Hr2]. pose proof (log_inv_handle _ _ _ _ _ H Hout) as Ih.
  pose proof H as [R I O Hb Hsame].
  assert (∀ m l, m (fl s) = Done (tt, l) → on_log m s = Done (tt, with_fl l s)) as Hon.
  { intros m l Em. unfold on_log, zoom. by rewrite Em. }
  assert (mkLogst (log_of s) (bc (fl s)) = fl s) as Efl by (unfold log_of; by destruct (fl s)).
  unfold handle in *. destruct (decide (b ∈ logged_blocks s)) as [Hin|Hnin].
  - destruct (write_again_run dv _ _ _ b i y 2 R Ih O (lookup_insert_eq _ _ _) Hin)
      as (c & E & Rc & Ic); [lia|lia|].
    rewrite Efl in E. exists (mkLogst (log_of s) c). split; [by apply Hon|]. split; [|done].
    replace (a_set (a_set a b _) b _) with (a_set a b (mkAbuf i y 1 false)) in Rc, Ic
      by (unfold a_set; simpl; by rewrite insert_insert_eq).
    split; try done. simpl. intros b' ab. destruct (decide (b' = b)) as [->|].
    + rewrite lookup_insert_eq. intros [= <-]. eauto.
    + rewrite lookup_insert_ne by done. apply Hb.
  - destruct (write_new_run dv _ _ _ b i y 1 R Ih O (lookup_insert_eq _ _ _))
      as (c & g' & E & Rc & Ic & Eh & El & Eg); [lia|unfold MAXREF; lia|done|done|lia|lia|done|].
    rewrite Efl in E. exists (mkLogst g' c). split; [by apply Hon|]. split; [|done].
    replace (a_set (a_set a b _) b _) with (a_set a b (mkAbuf i y 1 false)) in Rc, Ic
      by (unfold a_set; simpl; by rewrite insert_insert_eq).
    assert (outstanding g' = outstanding (log_of s)) as Eo by (rewrite Eg; done).
    split; simpl; [done|done|unfold log_of at 1; simpl; by rewrite Eo|].
    intros b' ab. unfold logged_blocks, log_of. simpl. rewrite Eh.
    destruct (decide (b' = b)) as [->|].
    + rewrite lookup_insert_eq. intros [= <-]. rewrite elem_of_app.
      split; [right; by apply list_elem_of_singleton|eauto].
    + rewrite lookup_insert_ne by done. intros Hab. destruct (Hb _ _ Hab). rewrite elem_of_app.
      auto.
Qed.

Lemma view_set a b i y b' :
  a_view (a_set a b (mkAbuf i y 1 false)) b' = if decide (b = b') then y else a_view a b'.
Proof.
  unfold a_view. simpl. case_decide as E.
  - subst. by rewrite lookup_insert_eq.
  - by rewrite lookup_insert_ne.
Qed.

(** The log did not move, and lost at most [n] blocks of room. *)
Definition same_log (n : Z) s s' : Prop :=
  start (log_of s') = start (log_of s) ∧ size_ (log_of s') = size_ (log_of s) ∧
  len (lh (log_of s')) ≤ len (lh (log_of s)) + n ∧
  (∀ b, b ∈ logged_blocks s → b ∈ logged_blocks s').

Lemma same_log_refl n s s' : lg (fl s') = log_of s → 0 ≤ n → same_log n s s'.
Proof.
  intros E Hn. assert (log_of s' = log_of s) as E' by done.
  unfold same_log, logged_blocks. rewrite E'. split_and!; [done|done|lia|done].
Qed.
Lemma same_log_trans n n' s1 s2 s3 : same_log n s1 s2 → same_log n' s2 s3 → same_log (n + n') s1 s3.
Proof.
  intros (A1 & A2 & A3 & A4) (B1 & B2 & B3 & B4). split_and!; [congruence|congruence|lia|auto].
Qed.
Lemma same_log_room n m s s' : same_log n s s' → room (n + m) s → room m s'.
Proof. intros (A1 & A2 & A3 & A4) [? ?]. unfold room. lia. Qed.
Lemma same_log_loggable n s s' b : same_log n s s' → loggable s b → loggable s' b.
Proof. intros (A1 & A2 & A3 & A4) [? ?]. split; [done|]. by rewrite A1. Qed.
Lemma same_log_le n m s s' : same_log n s s' → n ≤ m → same_log m s s'.
Proof. intros (A1 & A2 & A3 & A4) ?. split_and!; auto. lia. Qed.

(** Read, modify and log, as one step: every bitmap and inode update and
    every block of a file write has this form. *)
Lemma bset_log_run s a b i x y :
  hold s a b i x → loggable s b → room 1 s →
  ∃ l, (bset dv (mkBuf i dv b i) y ;; log_write dv (mkBuf i dv b i)) s = Done (tt, with_fl l s) ∧
    txn (with_fl l s) (a_set a b (mkAbuf i y 1 false)) ∧ same_log 1 s (with_fl l s) ∧
    b ∈ logged_blocks (with_fl l s).
Proof.
  intros H Hl [Hr1 Hr2]. destruct (bset_run s a b i x y H) as (l1 & E1 & H1 & Eg1).
  mstep E1. set (s1 := with_fl l1 s) in *.
  assert (log_of s1 = log_of s) as Es1 by done.
  assert (loggable s1 b) as Hl1 by (unfold loggable; by rewrite Es1).
  assert (room (if decide (b ∈ logged_blocks s1) then 0 else 1) s1) as Hr.
  { unfold room. rewrite Es1. destruct (decide _); lia. }
  destruct (log_write_run s1 a b i y H1 Hl1 Hr) as (l2 & E2 & T2 & Hg2).
  exists l2. change (with_fl l2 s1) with (with_fl l2 s) in *. split_and!; [done..| |].
  - destruct (decide (b ∈ logged_blocks s1)).
    + apply same_log_refl; [|lia]. simpl. by rewrite Hg2.
    + destruct Hg2 as (Eg & El & Eh).
      assert (start (lg l2) = start (log_of s)) as Est by (rewrite Eg, Es1; done).
      assert (size_ (lg l2) = size_ (log_of s)) as Esz by (rewrite Eg, Es1; done).
      assert (log_of (with_fl l2 s) = lg l2) as Elg by done.
      unfold same_log, logged_blocks. rewrite Elg. split_and!; [done|done|rewrite El, Es1; lia|].
      intros b' Hb'. rewrite Eh, elem_of_app. left. unfold logged_blocks. by rewrite Es1.
  - unfold logged_blocks, log_of. simpl. destruct (decide (b ∈ logged_blocks s1)) as [Hin|].
    + by rewrite Hg2.
    + destruct Hg2 as (Eg & El & Eh). rewrite Eh, elem_of_app. right.
      by apply list_elem_of_singleton.
Qed.
End txn.
