(* ===== verification/FsBitmap.v ===== *)
(** * The free-block bitmap

    What [BitMap::alloc] and [BitMap::free] of [fs/bitmap.rs] do to the bits
    on disk. *)
From S2P Require Import Prelude.
From S2P Require Import Layout.
From S2P Require Import Kalloc.
From S2P Require Import BufLru.
From S2P Require Import Bcache.
From S2P Require Import BcacheFacts.
From S2P Require Import Log.
From S2P Require Import LogFacts.
From S2P Require Import LogSpec.
From S2P Require Import Fs.
From S2P Require Import FsFacts.

(** ** Bits of a block *)
Definition block_ok (x : list Z) : Prop := length x = Z.to_nat BSIZE ∧ Forall (in_u 8) x.
Definition bit (x : list Z) (n : Z) : bool :=
  match x !! Z.to_nat (n / 8) with Some byte => Z.testbit byte (n mod 8) | None => true end.

Lemma land_bit w k : 0 ≤ k → (Z.land w (Z.shiftl 1 k) =? 0) = negb (Z.testbit w k).
Proof.
  intros Hk. rewrite Z.shiftl_1_l, <- (land_pow2_pos w k Hk).
  assert (0 ≤ Z.land w (2 ^ k)) by (apply Z.land_nonneg; right; by apply Z.pow_nonneg).
  destruct (Z.eqb_spec (Z.land w (2 ^ k)) 0) as [->|]; [done|].
  symmetry. apply negb_false_iff, Z.ltb_lt. lia.
Qed.

Lemma byte_at x n : block_ok x → 0 ≤ n < BPB → ∃ w, x !! Z.to_nat (n / 8) = Some w ∧ in_u 8 w.
Proof.
  intros [Hl Hb] Hn. destruct (lookup_lt_is_Some_2 x (Z.to_nat (n / 8))) as [w Hw].
  { rewrite Hl. assert (n / 8 < BSIZE) by (apply Z.div_lt_upper_bound; [lia|unfold BPB in *; lia]).
    assert (0 ≤ n / 8) by (apply Z.div_pos; lia). lia. }
  exists w. split; [done|]. by apply (Forall_lookup_1 _ _ _ _ Hb Hw).
Qed.

Lemma find_clear_spec x n i :
  block_ok x → 0 ≤ i → i + Z.of_nat n ≤ BPB →
  match find_clear x n i with
  | Some j => i ≤ j < i + Z.of_nat n ∧ bit x j = false ∧ ∀ k, i ≤ k < j → bit x k = true
  | None => ∀ k, i ≤ k < i + Z.of_nat n → bit x k = true
  end.
Proof.
  intros Hx. revert i. induction n as [|n IH]; intros i Hi Hn; cbn [find_clear]; [lia|].
  destruct (byte_at x i Hx ltac:(lia)) as (w & Hw & _). rewrite Hw.
  assert (bit x i = Z.testbit w (i mod 8)) as Hb by (unfold bit; by rewrite Hw).
  rewrite land_bit by (apply Z.mod_pos_bound; lia).
  destruct (Z.testbit w (i mod 8)) eqn:Ew; simpl.
  - specialize (IH (i + 1) ltac:(lia) ltac:(lia)). destruct (find_clear x n (i + 1)) as [j|].
    + destruct IH as (H1 & H2 & H3). split_and!; [lia|lia|done|]. intros k Hk.
      destruct (decide (k = i)) as [->|]; [by rewrite Hb|apply H3; lia].
    + intros k Hk. destruct (decide (k = i)) as [->|]; [by rewrite Hb|apply IH; lia].
  - split_and!; [lia|lia|by rewrite Hb|lia].
Qed.

(** Two bit positions are the same byte and bit or differ in one of them. *)
Lemma bit_pos k n : 0 ≤ k → 0 ≤ n → k / 8 = n / 8 → k mod 8 = n mod 8 → k = n.
Proof. intros. pose proof (Z.div_mod k 8). pose proof (Z.div_mod n 8). lia. Qed.

(** Replacing byte [n / 8] by one that differs in bit [n mod 8] only. *)
Lemma bit_update (x : list Z) n w w' v k :
  0 ≤ k → 0 ≤ n → x !! Z.to_nat (n / 8) = Some w →
  (∀ j, 0 ≤ j → Z.testbit w' j = if j =? n mod 8 then v else Z.testbit w j) →
  bit (<[Z.to_nat (n / 8) := w']> x) k = if k =? n then v else bit x k.
Proof.
  intros Hk Hn Hw Hbits. unfold bit.
  assert (0 ≤ k / 8 ∧ 0 ≤ n / 8) as [Hk8 Hn8] by (split; apply Z.div_pos; lia).
  destruct (Z.eq_dec (k / 8) (n / 8)) as [E|E].
  - rewrite E, list_lookup_insert_eq, Hw by (by eapply lookup_lt_Some).
    rewrite Hbits by (apply Z.mod_pos_bound; lia).
    destruct (Z.eqb_spec k n) as [->|Hne]; [by rewrite Z.eqb_refl|].
    destruct (Z.eqb_spec (k mod 8) (n mod 8)) as [E8|]; [|done].
    destruct Hne. by apply bit_pos.
  - rewrite list_lookup_insert_ne by lia.
    destruct (Z.eqb_spec k n) as [->|]; [done|done].
Qed.

Lemma set_bits w n j : 0 ≤ n → 0 ≤ j →
  Z.testbit (Z.lor w (Z.shiftl 1 n)) j = if j =? n then true else Z.testbit w j.
Proof.
  intros Hn Hj. rewrite Z.shiftl_1_l, Z.lor_spec, Z.pow2_bits_eqb, Z.eqb_sym by lia.
  destruct (j =? n); [by rewrite orb_true_r|by rewrite orb_false_r].
Qed.

Lemma block_ok_insert (x : list Z) i w : block_ok x → in_u 8 w → block_ok (<[i := w]> x).
Proof. intros [Hl Hb] Hw. split; [by rewrite length_insert|by apply Forall_insert]. Qed.
Lemma lor_byte w n : in_u 8 w → 0 ≤ n < 8 → in_u 8 (Z.lor w (Z.shiftl 1 n)).
Proof.
  intros Hw Hn. apply lor_in_u; [lia|done|]. rewrite Z.shiftl_1_l. split; [by apply Z.pow_nonneg|].
  apply Z.pow_lt_mono_r; lia.
Qed.

(** ** The map on disk *)
Section bitmap.
Context {D S : Type} `{!BlockDev D} `{!BlockDevLaws D} (dv : Z) `{!BufferCache D S dv}.
Implicit Types (s : fsst S) (a : acache D).

Definition blocks_ok a : Prop := ∀ b, block_ok (a_view a b).
(** The bit of block [n]. *)
Definition bm_bit s a (n : Z) : bool := bit (a_view a (bmapstart (super s) + n / BPB)) (n mod BPB).
(** The bitmap of a disk of [sb_size] blocks lies outside the log. *)
Record map_ok s : Prop := {
  mo_size : 0 ≤ sb_size (super s);
  mo_start : 0 ≤ bmapstart (super s);
  mo_blocks : ∀ k, 0 ≤ k → k * BPB < sb_size (super s) ∨ k = 0 →
    loggable s (bmapstart (super s) + k)
}.

Lemma block_ok_set a b i y : blocks_ok a → block_ok y → blocks_ok (a_set a b (mkAbuf i y 1 false)).
Proof. intros Ha Hy b'. rewrite view_set. by case_decide. Qed.

Lemma BPB_pos : 0 < BPB.
Proof. reflexivity. Qed.

(** After the block of bit [n] was given the new contents [y]. *)
Lemma bm_bit_set s a i y n v m :
  0 ≤ n → 0 ≤ m →
  (∀ k, 0 ≤ k < BPB → bit y k = if k =? n mod BPB then v
     else bit (a_view a (bmapstart (super s) + n / BPB)) k) →
  bm_bit s (a_set a (bmapstart (super s) + n / BPB) (mkAbuf i y 1 false)) m =
    if m =? n then v else bm_bit s a m.
Proof.
  intros Hn Hm Hy. pose proof BPB_pos. unfold bm_bit. rewrite view_set. case_decide as E.
  - assert (m / BPB = n / BPB) as Ediv by lia. rewrite Hy by (by apply Z.mod_pos_bound).
    rewrite Ediv. destruct (Z.eqb_spec m n) as [->|Hne]; [by rewrite Z.eqb_refl|].
    destruct (Z.eqb_spec (m mod BPB) (n mod BPB)) as [Em|]; [|done].
    destruct Hne. rewrite (Z.div_mod m BPB), (Z.div_mod n BPB), Ediv, Em by lia. done.
  - destruct (Z.eqb_spec m n) as [->|]; [done|done].
Qed.

(** [BitMap::alloc] from bitmap block [k] on, with the blocks before full. *)
Lemma alloc_loop_run s a k n :
  txn dv s a → blocks_ok a → map_ok s → room 1 s → 0 ≤ k →
  (k + Z.of_nat n - 1) * BPB < sb_size (super s) →
  sb_size (super s) ≤ (k + Z.of_nat n) * BPB →
  (∀ m, 0 ≤ m < k * BPB → m < sb_size (super s) → bm_bit s a m = true) →
  (∃ j l i y, let b := bmapstart (super s) + j / BPB in
     0 ≤ j < sb_size (super s) ∧ bm_bit s a j = false ∧
     (∀ m, 0 ≤ m < j → bm_bit s a m = true) ∧
     bitmap_alloc_loop dv dv ((λ k, k * BPB) <$> seqZ k (Z.of_nat n)) s = Done (j, with_fl l s) ∧
     txn dv (with_fl l s) (a_set a b (mkAbuf i y 1 false)) ∧ same_log 1 s (with_fl l s) ∧
     block_ok y ∧
     ∀ m, 0 ≤ m → bm_bit s (a_set a b (mkAbuf i y 1 false)) m = bm_bit s a m || (m =? j)) ∨
  ((∀ m, 0 ≤ m < sb_size (super s) → bm_bit s a m = true) ∧
   bitmap_alloc_loop dv dv ((λ k, k * BPB) <$> seqZ k (Z.of_nat n)) s =
     Panic "bitmap: out of the block ranges.").
Proof.
  revert s k. induction n as [|n IH]; intros s k T Hok Hmap Hroom Hk Hn1 Hn2 Hfull.
  { right. split; [|done]. intros m Hm. apply Hfull; lia. }
  pose proof BPB_pos as HB. pose proof (mo_size _ Hmap) as Hsz.
  rewrite seqZ_cons by lia. cbn [fmap list_fmap bitmap_alloc_loop].
  assert (k * BPB < sb_size (super s)) as Hlt by nia.
  destruct (mo_blocks _ Hmap k Hk ltac:(auto)) as [Hu Hout].
  unfold locate_bmp. rewrite bind_assoc, bind_get, Z.div_mul by lia.
  rewrite bind_uadd by apply Hu. set (b := bmapstart (super s) + k) in *.
  destruct (bread_run dv s a b T) as (l1 & i & E1 & H1 & Eg1). mstep E1.
  set (s1 := with_fl l1 s) in *. mstep (bdata_run dv s1 a b i _ H1).
  unfold sb_total. rewrite bind_gets. change (super s1) with (super s).
  set (x := a_view a b) in *. set (r := Z.min BPB (sb_size (super s) - k * BPB)).
  assert (bmapstart (super s) + k = b) as Eb by done.
  assert (∀ j, 0 ≤ j < BPB → bm_bit s a (k * BPB + j) = bit x j) as Hbits.
  { intros j Hj. unfold bm_bit. rewrite Z.div_add_l, (Z.div_small j), Z.add_0_r by lia.
    replace ((k * BPB + j) mod BPB) with j; [done|].
    rewrite (Z.add_comm (k * BPB)), Z.mod_add, Z.mod_small by lia. done. }
  pose proof (find_clear_spec x (Z.to_nat r) 0 (Hok b) ltac:(lia) ltac:(lia)) as Hfc.
  assert (loggable s1 b) as Hl1 by (split; [done|by rewrite <- Eg1 in Hout]).
  assert (room 1 s1) as Hr1 by (unfold room, log_of in *; simpl; by rewrite Eg1).
  destruct (find_clear x (Z.to_nat r) 0) as [j|].
  - left. destruct Hfc as (Hj & Hclear & Hfirst).
    assert (0 ≤ j < BPB) as Hj' by lia.
    destruct (byte_at x j (Hok b) Hj') as (w & Hw & Huw). rewrite Hw, bind_unwrap.
    set (y := <[_ := _]> x).
    destruct (bset_log_run dv s1 a b i x y H1 Hl1 Hr1) as (l2 & E2 & T2 & L2 & _).
    rewrite <- bind_assoc. mstep E2.
    assert ((k * BPB + j) / BPB = k) as Ediv by (rewrite Z.div_add_l, (Z.div_small j); lia).
    assert ((k * BPB + j) mod BPB = j) as Emod by (rewrite Z.add_comm, Z.mod_add, Z.mod_small; lia).
    assert (block_ok y) as Hy.
    { apply block_ok_insert; [apply Hok|]. apply lor_byte; [done|]. apply Z.mod_pos_bound. lia. }
    exists (k * BPB + j), l2, i, y. rewrite Ediv. fold b.
    split_and!; [nia|lia|by rewrite Hbits| |done|done| |done|].
    + intros m Hm. destruct (decide (m < k * BPB)); [apply Hfull; lia|].
      replace m with (k * BPB + (m - k * BPB)) by lia. rewrite Hbits by lia. apply Hfirst. lia.
    + destruct L2 as (A1 & A2 & A3 & A4). unfold same_log, logged_blocks, log_of in *. simpl in *.
      rewrite Eg1 in A1, A2, A3, A4. split_and!; try done.
    + intros m Hm. pose proof (bm_bit_set s a i y (k * BPB + j) true m ltac:(nia) Hm) as Hset.
      rewrite Ediv, Emod in Hset. fold b in Hset. rewrite Hset.
      * destruct (m =? _); [by rewrite orb_true_r|by rewrite orb_false_r].
      * intros m' Hm'. apply (bit_update x j w); [lia|lia|done|].
        intros j0 Hj0. apply set_bits; [apply Z.mod_pos_bound; lia|done].
  - destruct (bdrop_run dv s1 a b i H1) as (l2 & E2 & T2 & Eg2). mstep E2.
    change (with_fl l2 s1) with (with_fl l2 s) in *. set (s2 := with_fl l2 s) in *.
    assert (log_of s2 = log_of s) as Elog by (unfold log_of; simpl; rewrite Eg2; done).
    replace (Z.of_nat (Datatypes.S n) - 1) with (Z.of_nat n) by lia.
    replace (Z.pred (Z.of_nat (Datatypes.S n))) with (Z.of_nat n) by lia.
    rewrite <- Z.add_1_r.
    destruct (IH s2 (k + 1)) as [(j & l & i' & y & Hj)|Hnone]; try done.
    + destruct Hmap as [M1 M2 M3]. split; [done..|]. intros k' H1' H2'.
      unfold loggable. rewrite Elog. by apply M3.
    + unfold room. by rewrite Elog.
    + lia.
    + simpl. nia.
    + simpl. nia.
    + intros m Hm Hms. destruct (decide (m < k * BPB)); [apply Hfull; [lia|done]|].
      replace m with (k * BPB + (m - k * BPB)) by lia. change (bm_bit s2) with (bm_bit s).
      rewrite Hbits by lia. apply Hfc. change (super s2) with (super s) in Hms. lia.
    + left. exists j, l, i', y. destruct Hj as (H1' & H2' & H3' & H4' & H5' & H6' & H7' & H8').
      split_and!; try done; [apply H1'|apply H1'|].
      destruct H6' as (A1 & A2 & A3 & A4). unfold same_log, logged_blocks in *.
      rewrite Elog in A1, A2, A3, A4. split_and!; try done.
    + right. done.
Qed.

(** The number of bitmap blocks [(0..size).step_by(BPB)] visits. *)
Lemma step_count_bounds n :
  0 ≤ n → let c := Z.of_nat (step_count 0 n BPB) in (c - 1) * BPB < n ∧ n ≤ c * BPB ∨ n = 0 ∧ c = 0.
Proof.
  intros Hn c. unfold c, step_count. pose proof BPB_pos.
  assert (0 ≤ (n - 0 + BPB - 1) / BPB) by (apply Z.div_pos; lia).
  rewrite Z2Nat.id by done. pose proof (Z.div_mod (n - 0 + BPB - 1) BPB ltac:(lia)).
  pose proof (Z.mod_pos_bound (n - 0 + BPB - 1) BPB ltac:(lia)).
  destruct (Z.eq_dec n 0) as [->|]; [right|left; nia].
  split; [done|]. apply Z.div_small. lia.
Qed.

Lemma bitmap_alloc_run s a :
  txn dv s a → blocks_ok a → map_ok s → room 1 s →
  (∃ j l i y, let b := bmapstart (super s) + j / BPB in
     0 ≤ j < sb_size (super s) ∧ bm_bit s a j = false ∧
     (∀ m, 0 ≤ m < j → bm_bit s a m = true) ∧
     bitmap_alloc dv dv s = Done (j, with_fl l s) ∧
     txn dv (with_fl l s) (a_set a b (mkAbuf i y 1 false)) ∧ same_log 1 s (with_fl l s) ∧
     block_ok y ∧
     ∀ m, 0 ≤ m → bm_bit s (a_set a b (mkAbuf i y 1 false)) m = bm_bit s a m || (m =? j)) ∨
  ((∀ m, 0 ≤ m < sb_size (super s) → bm_bit s a m = true) ∧
   bitmap_alloc dv dv s = Panic "bitmap: out of the block ranges.").
Proof.
  intros T Hok Hmap Hroom. unfold bitmap_alloc, sb_total. rewrite bind_gets.
  destruct (step_count_bounds (sb_size (super s)) (mo_size _ Hmap)) as [[H1 H2]|[H1 H2]].
  - apply alloc_loop_run; try done; lia.
  - right. rewrite H2. split; [lia|done].
Qed.

(** Allocation of a block. With room in the log, [BitMap::alloc] returns
    the first block whose bit is clear and sets that bit, changing no other
    bit and no block but the one of the bitmap that holds it; it panics
    exactly when every bit of the disk is set. *)
Theorem bitmap_alloc_first s a :
  txn dv s a → blocks_ok a → map_ok s → room 1 s →
  (∃ j s' a', 0 ≤ j < sb_size (super s) ∧ bm_bit s a j = false ∧
     (∀ m, 0 ≤ m < j → bm_bit s a m = true) ∧
     bitmap_alloc dv dv s = Done (j, s') ∧ txn dv s' a' ∧ super s' = super s ∧
     (∀ m, 0 ≤ m → bm_bit s' a' m = bm_bit s a m || (m =? j)) ∧
     (∀ b, b ≠ bmapstart (super s) + j / BPB → a_view a' b = a_view a b)) ∨
  ((∀ m, 0 ≤ m < sb_size (super s) → bm_bit s a m = true) ∧
   bitmap_alloc dv dv s = Panic "bitmap: out of the block ranges.").
Proof.
  intros T Hok Hmap Hroom.
  destruct (bitmap_alloc_run s a T Hok Hmap Hroom) as [(j & l & i & y & H)|H]; [left|by right].
  destruct H as (H1 & H2 & H3 & H4 & H5 & _ & _ & H8). eexists j, _, _.
  split_and!; [apply H1|apply H1|done|done|exact H4|exact H5|done|exact H8|].
  intros b Hb. rewrite view_set, decide_False by done. done.
Qed.

(** What the crate bit_field promises of a byte. *)
Class BitFieldLaws `{!BitField} := {
  get_bit_spec w n : 0 ≤ n < 8 → get_bit w n = Z.testbit w n;
  set_bit_spec w n v j : 0 ≤ n < 8 → 0 ≤ j →
    Z.testbit (set_bit w n v) j = if j =? n then v else Z.testbit w j;
  set_bit_range w n v : in_u 8 w → 0 ≤ n < 8 → in_u 8 (set_bit w n v)
}.

(** Release of a block. [BitMap::free] clears one bit, that of block
    [blockno mod BPB] in the first block of the bitmap, and changes nothing
    else; it panics if that bit is clear. For a block below [BPB] it is the
    block's own bit; for any other block it is the bit of another block. *)
Theorem bitmap_free_clears `{!BitField} `{!BitFieldLaws} s a blockno :
  txn dv s a → blocks_ok a → map_ok s → room 1 s → 0 ≤ blockno →
  if bm_bit s a (blockno mod BPB) then
    ∃ s' a', bitmap_free dv dv blockno s = Done (tt, s') ∧ txn dv s' a' ∧ super s' = super s ∧
      (∀ m, 0 ≤ m → bm_bit s' a' m = bm_bit s a m && negb (m =? blockno mod BPB)) ∧
      ∀ b, b ≠ bmapstart (super s) → a_view a' b = a_view a b
  else bitmap_free dv dv blockno s = Panic "bitmap: double freeing a block.".
Proof.
  intros T Hok Hmap Hroom Hb. pose proof BPB_pos as HB. set (n := blockno mod BPB).
  assert (0 ≤ n < BPB) as Hn by (by apply Z.mod_pos_bound).
  set (b := bmapstart (super s)).
  destruct (mo_blocks _ Hmap 0 ltac:(lia) ltac:(auto)) as [Hu Hout]. rewrite Z.add_0_r in Hu, Hout.
  unfold bitmap_free, read_bmp. rewrite bind_gets. fold n b.
  destruct (bread_run dv s a b T) as (l1 & i & E1 & H1 & Eg1). mstep E1.
  set (s1 := with_fl l1 s) in *. mstep (bdata_run dv s1 a b i _ H1). set (x := a_view a b) in *.
  destruct (byte_at x n (Hok b) Hn) as (w & Hw & Huw). rewrite Hw, bind_unwrap.
  assert (0 ≤ n mod 8 < 8) as Hn8 by (apply Z.mod_pos_bound; lia).
  assert (bm_bit s a n = Z.testbit w (n mod 8)) as Hbit.
  { unfold bm_bit. rewrite Z.div_small, Z.mod_small, Z.add_0_r by lia. fold b x. unfold bit.
    by rewrite Hw. }
  rewrite get_bit_spec by done. rewrite Hbit. destruct (Z.testbit w (n mod 8)); [|done].
  rewrite bind_assert by done. set (y := <[_ := _]> x).
  assert (loggable s1 b) as Hl1 by (split; [done|by rewrite <- Eg1 in Hout]).
  assert (room 1 s1) as Hr1 by (unfold room, log_of in *; simpl; by rewrite Eg1).
  destruct (bset_log_run dv s1 a b i x y H1 Hl1 Hr1) as (l2 & E2 & T2 & _ & _).
  eexists _, _. split_and!; [exact E2|exact T2|done| |].
  - intros m Hm. change (bm_bit (with_fl l2 s1)) with (bm_bit s).
    pose proof (bm_bit_set s a i y n false m ltac:(lia) Hm) as Hset.
    rewrite Z.div_small, Z.mod_small, Z.add_0_r in Hset by lia. fold b x in Hset. rewrite Hset.
    + destruct (m =? n); [by rewrite andb_false_r|by rewrite andb_true_r].
    + intros k Hk. apply (bit_update x n w); [lia|lia|done|].
      intros j Hj. by apply set_bit_spec.
  - intros b' Hb'. rewrite view_set, decide_False by done. done.
Qed.
End bitmap.

(** ** A small disk

    Empty blocks, the log at block 2, the bitmap at block 50, inodes from
    block 40 on, 100 blocks in all, one operation open. *)
Definition super0 : RawSuperBlock := mkSuper FSMAGIC 100 40 64 30 2 40 50.
Definition fs0 (c : bcache tdev) : fsst (bcache tdev) :=
  mkFsst (mkLogst g0 c) super0 true (replicate 50 InodeMeta.new) (replicate 50 InodeData.new)
    (mkMem ∅ None ∅) None None.

Lemma fs0_txn :
  txn (BufferCache0 := bcache_BufferCache 1) 1 (fs0 (BCache.new t0)) (mkAcache ∅ t0).
Proof.
  split.
  - by apply new_cache_rep.
  - apply boot_inv. intros i Hi. by apply lookup_empty.
  - by vm_compute.
  - intros b ab Hab. cbn [a_bufs] in Hab. by rewrite lookup_empty in Hab.
Qed.
Lemma fs0_blocks : blocks_ok (mkAcache ∅ t0).
Proof.
  intros b. unfold a_view. cbn [a_bufs a_disk]. rewrite lookup_empty.
  cbn [dev_read tdev_BlockDev t0]. unfold t_read. cbn. split; [done|]. by apply Forall_replicate.
Qed.
Lemma fs0_map : map_ok (fs0 (BCache.new t0)).
Proof.
  split; [by vm_compute|by vm_compute|]. intros k Hk Hlt. assert (k = 0) as ->.
  { destruct Hlt as [Hlt| ->]; [|done]. unfold BPB, BSIZE in Hlt. simpl in Hlt. lia. }
  split; [split; by vm_compute|]. intros [_ H]. by vm_compute in H.
Qed.
Lemma bitmap_alloc_first_witness :
  ∃ s', bitmap_alloc (BufferCache0 := bcache_BufferCache 1) 1 1 (fs0 (BCache.new t0)) = Done (0, s').
Proof.
  destruct (bitmap_alloc_first (BufferCache0 := bcache_BufferCache 1) 1 (fs0 (BCache.new t0))
    (mkAcache ∅ t0) fs0_txn fs0_blocks fs0_map) as [(j & s' & a' & Hj & _ & Hfirst & E & _)|[Hall _]].
  - split; by vm_compute.
  - assert (j = 0) as ->; [|exists s'; exact E].
    destruct (Z.eq_dec j 0) as [|Hne]; [done|]. exfalso.
    assert (bm_bit (fs0 (BCache.new t0)) (mkAcache ∅ t0) 0 = true) as H by (apply Hfirst; lia).
    vm_compute in H. discriminate H.
  - assert (bm_bit (fs0 (BCache.new t0)) (mkAcache ∅ t0) 0 = true) as H
      by (apply Hall; by vm_compute).
    vm_compute in H. discriminate H.
Defined.

#[local] Instance bits0 : BitField := {|
  get_bit := Z.testbit; set_bit w n v := if (v : bool) then Z.setbit w n else Z.clearbit w n |}.
#[local] Instance bits0_laws : BitFieldLaws.
Proof.
  split; [done| |].
  - intros w n v j Hn Hj. simpl. destruct v.
    + rewrite Z.setbit_eqb, Z.eqb_sym by lia. by destruct (j =? n).
    + rewrite Z.clearbit_eqb, Z.eqb_sym by lia.
      destruct (j =? n); [by rewrite andb_false_r|by rewrite andb_true_r].
  - intros w n v Hw Hn. simpl. destruct v.
    + rewrite Z.setbit_spec', <- Z.shiftl_1_l. by apply lor_byte.
    + assert (0 ≤ Z.clearbit w n) as Hc.
      { unfold Z.clearbit. apply Z.ldiff_nonneg. left. apply Hw. }
      split; [done|]. apply bits_bound; [done|done|]. intros i Hi.
      rewrite Z.clearbit_eqb, (high_bits_zero w 8) by done. done.
Qed.
Lemma bitmap_free_clears_witness :
  bitmap_free (BufferCache0 := bcache_BufferCache 1) 1 1 60 (fs0 (BCache.new t0)) =
    Panic "bitmap: double freeing a block.".
Proof.
  assert (room 1 (fs0 (BCache.new t0))) as Hr by (split; by vm_compute).
  pose proof (bitmap_free_clears (BufferCache0 := bcache_BufferCache 1) 1 (fs0 (BCache.new t0))
    (mkAcache ∅ t0) 60 fs0_txn fs0_blocks fs0_map Hr ltac:(lia)) as H.
  assert (bm_bit (fs0 (BCache.new t0)) (mkAcache ∅ t0) (60 mod BPB) = false) as Hb
    by (by vm_compute).
  rewrite Hb in H. exact H.
Defined.
