(* ===== verification/FsFile.v ===== *)
(** * Inodes and file contents

    The on-disk encoding of inodes, the write-back of a cached inode, and
    reads and writes of file contents through [InodeData] of [fs/inode.rs]. *)
From S2P Require Import Prelude.
From S2P Require Import Layout.
From S2P Require Import Kalloc.
From S2P Require Import BufLru.
From S2P Require Import Bcache.
From S2P Require Import BcacheFacts.
From S2P Require Import Log.
From S2P Require Import LogFacts.
From S2P Require Import LogSpec.
From S2P Require Import Fs.
From S2P Require Import FsFacts.
From S2P Require Import FsBitmap.

(** ** Slices of a block *)
Lemma length_splice x off bs :
  0 ≤ off → off + Z.of_nat (length bs) ≤ Z.of_nat (length x) → length (splice x off bs) = length x.
Proof.
  intros H0 H1. unfold splice. rewrite !length_app, length_take, length_drop. lia.
Qed.
Lemma splice_lookup x off bs j :
  0 ≤ off → off + Z.of_nat (length bs) ≤ Z.of_nat (length x) →
  splice x off bs !! j =
    if decide (off ≤ Z.of_nat j < off + Z.of_nat (length bs))
    then bs !! Z.to_nat (Z.of_nat j - off) else x !! j.
Proof.
  intros H0 H1. unfold splice. case_decide as E.
  - rewrite lookup_app_r by (rewrite length_take; lia). rewrite length_take.
    rewrite lookup_app_l by lia. f_equal. lia.
  - destruct (decide (Z.of_nat j < off)).
    + rewrite lookup_app_l by (rewrite length_take; lia). rewrite lookup_take_lt by lia. done.
    + rewrite lookup_app_r by (rewrite length_take; lia). rewrite length_take.
      rewrite lookup_app_r by lia. rewrite lookup_drop. f_equal. lia.
Qed.
Lemma slice_lookup x off n j :
  0 ≤ off → slice x off n !! j = if decide (Z.of_nat j < n) then x !! (Z.to_nat off + j)%nat else None.
Proof.
  intros H0. unfold slice. case_decide as E.
  - rewrite lookup_take_lt by lia. by rewrite lookup_drop.
  - apply lookup_ge_None. rewrite length_take. lia.
Qed.
Lemma length_slice x off n :
  0 ≤ off → 0 ≤ n → off + n ≤ Z.of_nat (length x) → length (slice x off n) = Z.to_nat n.
Proof. intros. unfold slice. rewrite length_take, length_drop. lia. Qed.
(** Reading back what was written, and what lies beside it. *)
Lemma slice_splice x off bs :
  0 ≤ off → off + Z.of_nat (length bs) ≤ Z.of_nat (length x) →
  slice (splice x off bs) off (Z.of_nat (length bs)) = bs.
Proof.
  intros H0 H1. apply list_eq. intros j. rewrite slice_lookup by done. case_decide as E.
  - rewrite splice_lookup by done. rewrite decide_True by lia. f_equal. lia.
  - symmetry. apply lookup_ge_None. lia.
Qed.
Lemma slice_splice_ne x off bs off' n :
  0 ≤ off → off + Z.of_nat (length bs) ≤ Z.of_nat (length x) → 0 ≤ off' →
  off' + n ≤ off ∨ off + Z.of_nat (length bs) ≤ off' →
  slice (splice x off bs) off' n = slice x off' n.
Proof.
  intros H0 H1 H2 H3. apply list_eq. intros j. rewrite !slice_lookup by done.
  case_decide; [|done]. rewrite splice_lookup by done. rewrite decide_False by lia. done.
Qed.
Lemma splice_ok x off bs :
  block_ok x → 0 ≤ off → off + Z.of_nat (length bs) ≤ BSIZE → Forall (in_u 8) bs →
  block_ok (splice x off bs).
Proof.
  intros [Hl Hb] H0 H1 Hbs. split.
  - rewrite length_splice by (rewrite ?Hl; unfold BSIZE in *; lia). done.
  - unfold splice. apply Forall_app. split; [by apply Forall_take|].
    apply Forall_app. split; [done|by apply Forall_drop].
Qed.

(** ** The encoding of inodes *)
Record dinode_ok (d : DiskInode) : Prop := {
  do_major : - 2 ^ 15 ≤ major d < 2 ^ 15;
  do_minor : - 2 ^ 15 ≤ minor d < 2 ^ 15;
  do_nlink : - 2 ^ 15 ≤ nlink d < 2 ^ 15;
  do_size : in_u 32 (dsize d);
  do_len : length (addrs d) = (Z.to_nat NDIRECT + 1)%nat;
  do_addrs : Forall (in_u 32) (addrs d)
}.

Lemma signed_wrap w m : 0 < w → - 2 ^ (w - 1) ≤ m < 2 ^ (w - 1) → to_signed w (wrap w m) = m.
Proof.
  intros Hw Hm. unfold to_signed, wrap. rewrite Z.mod_mod by (apply Z.pow_nonzero; lia).
  assert (2 ^ w = 2 * 2 ^ (w - 1)) as E.
  { replace w with (Z.succ (w - 1)) at 1 by lia. apply Z.pow_succ_r. lia. }
  rewrite E. destruct (Z.leb_spec 0 m).
  - rewrite Z.mod_small by lia. by rewrite (proj2 (Z.ltb_lt _ _)) by lia.
  - rewrite <- (Z.mod_add _ 1), Z.mod_small by lia.
    rewrite (proj2 (Z.ltb_ge _ _)) by lia. lia.
Qed.
Lemma le_word_wrap16 m rest : le_word (take 2 (le_bytes 2 (wrap 16 m) ++ rest)) = wrap 16 m.
Proof.
  rewrite take_app_length' by (by rewrite length_le_bytes). apply le_word_bytes.
  unfold wrap. apply Z.mod_pos_bound. done.
Qed.
Lemma length_dinode_bytes d :
  length (addrs d) = (Z.to_nat NDIRECT + 1)%nat →
  Z.of_nat (length (DiskInode.to_bytes d)) = DINODE_SIZE.
Proof.
  intros Hl. unfold DiskInode.to_bytes. rewrite !length_app, !length_le_bytes.
  assert (∀ l : list Z, length (l ≫= le_bytes 4) = (4 * length l)%nat) as ->.
  { induction l as [|z l IH]; [done|]. cbn [mbind list_bind]. rewrite length_app, length_le_bytes.
    fold (mbind (le_bytes 4) l). rewrite IH. simpl. lia. }
  rewrite Hl. done.
Qed.
Lemma le_bytes_range n w : 0 ≤ w → Forall (in_u 8) (le_bytes n w).
Proof.
  revert w. induction n as [|n IH]; intros w Hw; simpl; [constructor|]. constructor.
  - by apply Z.mod_pos_bound.
  - apply IH, Z.div_pos; lia.
Qed.

Lemma dinode_bytes_range d : dinode_ok d → Forall (in_u 8) (DiskInode.to_bytes d).
Proof.
  assert (∀ m, 0 ≤ wrap 16 m) as Hwr by (intros; by apply Z.mod_pos_bound).
  intros Hd. unfold DiskInode.to_bytes. rewrite !Forall_app. split_and!; try apply le_bytes_range; auto.
  - by destruct (itype d).
  - apply Hd.
  - apply Forall_bind, (Forall_impl _ _ _ (do_addrs _ Hd)). intros w Hw. apply le_bytes_range, Hw.
Qed.

Lemma dinode_decode d rest : dinode_ok d → DiskInode.of_bytes (DiskInode.to_bytes d ++ rest) = Some d.
Proof.
  intros Hd. pose proof Hd as [H1 H2 H3 H4 H5 H6].
  unfold DiskInode.of_bytes, DiskInode.to_bytes. rewrite <- !app_assoc.
  assert (∀ n w r, drop n (le_bytes n w ++ r) = r) as Hdrop.
  { intros n w r. apply drop_app_length'. by rewrite length_le_bytes. }
  assert (∀ n m w r, (n ≤ m)%nat → drop m (le_bytes n w ++ r) = drop (m - n) r) as Hdrop'.
  { intros n m w r Hnm. rewrite drop_app_ge by (by rewrite length_le_bytes).
    by rewrite length_le_bytes. }
  assert (le_word (take 2 (le_bytes 2 (itype_u16 (itype d)) ++
    le_bytes 2 (wrap 16 (major d)) ++ le_bytes 2 (wrap 16 (minor d)) ++
    le_bytes 2 (wrap 16 (nlink d)) ++ le_bytes 4 (dsize d) ++ (addrs d ≫= le_bytes 4) ++ rest))
    = itype_u16 (itype d)) as ->.
  { rewrite take_app_length' by (by rewrite length_le_bytes). apply le_word_bytes. by destruct (itype d). }
  assert (itype_of (itype_u16 (itype d)) = Some (itype d)) as -> by (by destruct (itype d)).
  cbn [mbind option_bind].
  repeat match goal with |- context [drop ?m (le_bytes ?n ?w ++ ?r)] =>
    rewrite (Hdrop' n m w r) by lia; let k := eval compute in (m - n)%nat in
    change (m - n)%nat with k
  end. rewrite !drop_0.
  rewrite !le_word_wrap16, !signed_wrap by done.
  rewrite take_app_length' by (by rewrite length_le_bytes).
  rewrite le_word_bytes by apply H4.
  rewrite <- H5, words4_bytes by done. by destruct d.
Qed.

(** ** The inode table *)
Section inodes.
Context {D S : Type} `{!BlockDev D} `{!BlockDevLaws D} (dv : Z) `{!BufferCache D S dv}.
Implicit Types (s : fsst S) (a : acache D).

(** The block of inode [j], and the inode it holds. *)
Definition iblock s (j : Z) : Z := j / IPB + inodestart (super s).
Definition disk_inode s a (j : Z) : option DiskInode :=
  DiskInode.of_bytes (slice (a_view a (iblock s j)) (j mod IPB * DINODE_SIZE) DINODE_SIZE).
(** The table lies outside the log, and holds inodes only. *)
Record table_ok s a : Prop := {
  to_num : 0 ≤ ninodes (super s) ≤ sb_size (super s);
  to_blocks j : 0 ≤ j < ninodes (super s) → loggable s (iblock s j);
  to_decode j : 0 ≤ j < ninodes (super s) → is_Some (disk_inode s a j)
}.

Lemma inode_range j : 0 ≤ j mod IPB * DINODE_SIZE ∧ j mod IPB * DINODE_SIZE + DINODE_SIZE ≤ BSIZE.
Proof.
  pose proof (Z.mod_pos_bound j IPB ltac:(done)).
  change IPB with 16 in *. change DINODE_SIZE with 64. change BSIZE with 1024. lia.
Qed.

(** After inode [j] was overwritten in its block. *)
Lemma disk_inode_set s a i j d k :
  blocks_ok a → dinode_ok d → 0 ≤ j → 0 ≤ k →
  disk_inode s (a_set a (iblock s j) (mkAbuf i
    (splice (a_view a (iblock s j)) (j mod IPB * DINODE_SIZE) (DiskInode.to_bytes d)) 1 false)) k =
    if k =? j then Some d else disk_inode s a k.
Proof.
  intros Ha Hd Hj Hk. pose proof (length_dinode_bytes d (do_len _ Hd)) as Hlen.
  destruct (Ha (iblock s j)) as [Hl _]. destruct (inode_range j) as [R1 R2].
  destruct (inode_range k) as [R3 R4].
  assert (Z.of_nat (length (a_view a (iblock s j))) = BSIZE) as Hl' by (rewrite Hl; done).
  unfold disk_inode. rewrite view_set. case_decide as E.
  - unfold iblock in E. assert (k / IPB = j / IPB) as Ediv by lia.
    pose proof (Z.div_mod k IPB ltac:(done)) as Dk. pose proof (Z.div_mod j IPB ltac:(done)) as Dj.
    destruct (Z.eqb_spec k j) as [->|Hne].
    + pose proof (slice_splice (a_view a (iblock s j)) (j mod IPB * DINODE_SIZE)
        (DiskInode.to_bytes d) R1) as Hs. rewrite Hlen, Hl' in Hs. rewrite Hs by done.
      rewrite <- (app_nil_r (DiskInode.to_bytes d)). by apply dinode_decode.
    + assert (k mod IPB ≠ j mod IPB) as Hm by congruence.
      rewrite slice_splice_ne; [|lia|lia|lia|].
      * unfold iblock. by rewrite Ediv.
      * rewrite Hlen. change DINODE_SIZE with 64. lia.
  - destruct (Z.eqb_spec k j) as [->|]; [done|done].
Qed.

Lemma find_inode_run s a j d :
  txn dv s a → table_ok s a → 0 ≤ j < ninodes (super s) → disk_inode s a j = Some d →
  ∃ l i, let b := iblock s j in
    find_inode dv dv j s = Done (mkBuf i dv b i, j mod IPB * DINODE_SIZE, d, with_fl l s) ∧
    hold dv (with_fl l s) a b i (a_view a b) ∧ lg l = log_of s.
Proof.
  intros T Ht Hj Hd. pose proof (to_blocks _ _ Ht j Hj) as [Hu _].
  unfold find_inode, locate_inode, locate_inode_offset. rewrite bind_assoc, bind_get.
  rewrite (proj2 (Z.leb_gt _ _)) by lia. rewrite bind_uadd by apply Hu. fold (iblock s j).
  destruct (bread_run dv s a (iblock s j) T) as (l & i & E & H & Eg). mstep E.
  mstep (bdata_run dv _ _ _ _ _ H). exists l, i. unfold disk_inode in Hd. rewrite Hd. done.
Qed.

Lemma same_log_drop n s l1 l2 :
  lg l1 = log_of s → same_log n (with_fl l1 s) (with_fl l2 s) → same_log n s (with_fl l2 s).
Proof.
  intros Eg (A1 & A2 & A3 & A4). unfold same_log, logged_blocks, log_of in *. simpl in *.
  rewrite Eg in A1, A2, A3, A4. by split_and!.
Qed.

(** Overwrite of an inode through its handle. *)
Lemma set_inode_run s a b i x off d :
  hold dv s a b i x → loggable s b → room 1 s →
  ∃ l, (set_inode dv (mkBuf i dv b i) off d ;; log_write dv (mkBuf i dv b i)) s
       = Done (tt, with_fl l s) ∧
    txn dv (with_fl l s) (a_set a b (mkAbuf i (splice x off (DiskInode.to_bytes d)) 1 false)) ∧
    same_log 1 s (with_fl l s).
Proof.
  intros H Hl Hr. unfold set_inode. rewrite bind_assoc. mstep (bdata_run dv _ _ _ _ _ H).
  destruct (bset_log_run dv s a b i x (splice x off (DiskInode.to_bytes d)) H Hl Hr)
    as (l & E & T & L & _). eauto.
Qed.

Lemma iupdate_run s a i d :
  txn dv s a → blocks_ok a → table_ok s a → room 1 s → idatas s !! i = Some d → id_dev d = dv →
  0 ≤ id_inum d < ninodes (super s) → dinode_ok (dinode d) →
  ∃ l k, let b := iblock s (id_inum d) in
    let y := splice (a_view a b) (id_inum d mod IPB * DINODE_SIZE) (DiskInode.to_bytes (dinode d)) in
    update dv i s = Done (tt, with_fl l s) ∧
    txn dv (with_fl l s) (a_set a b (mkAbuf k y 1 false)) ∧ same_log 1 s (with_fl l s) ∧
    blocks_ok (a_set a b (mkAbuf k y 1 false)).
Proof.
  intros T Ha Ht Hr Hi Hdev Hnum Hd. unfold update, idata_at. rewrite bind_assoc, bind_get, Hi.
  rewrite bind_unwrap, Hdev. destruct (to_decode _ _ Ht _ Hnum) as [d0 Hd0].
  destruct (find_inode_run s a _ d0 T Ht Hnum Hd0) as (l1 & k & E1 & H1 & Eg1). mstep E1.
  cbv beta iota. set (b := iblock s (id_inum d)) in *. set (s1 := with_fl l1 s) in *.
  destruct (to_blocks _ _ Ht _ Hnum) as [Hu Hout].
  assert (loggable s1 b) as Hl1 by (split; [done|by rewrite <- Eg1 in Hout]).
  assert (room 1 s1) as Hr1 by (unfold room, log_of in *; simpl; by rewrite Eg1).
  destruct (set_inode_run s1 a b k _ (id_inum d mod IPB * DINODE_SIZE) (dinode d) H1 Hl1 Hr1)
    as (l2 & E2 & T2 & L2).
  exists l2, k. split_and!; [exact E2|exact T2|by eapply same_log_drop|].
  apply block_ok_set; [done|]. apply splice_ok; [apply Ha|apply inode_range| |].
  - rewrite length_dinode_bytes by apply Hd. apply inode_range.
  - by apply dinode_bytes_range.
Qed.

Lemma update_writes_back_run s a i d :
  txn dv s a → blocks_ok a → table_ok s a → room 1 s → idatas s !! i = Some d → id_dev d = dv →
  0 ≤ id_inum d < ninodes (super s) → dinode_ok (dinode d) →
  ∃ l a', update dv i s = Done (tt, with_fl l s) ∧ txn dv (with_fl l s) a' ∧ blocks_ok a' ∧
    same_log 1 s (with_fl l s) ∧
    (∀ k, 0 ≤ k →
       disk_inode s a' k = if k =? id_inum d then Some (dinode d) else disk_inode s a k) ∧
    (∀ b, b ≠ iblock s (id_inum d) → a_view a' b = a_view a b).
Proof.
  intros T Ha Ht Hr Hi Hdev Hnum Hd.
  destruct (iupdate_run s a i d T Ha Ht Hr Hi Hdev Hnum Hd) as (l & k & E & T' & L & Ha').
  eexists l, _. split_and!; [exact E|exact T'|exact Ha'|exact L| |].
  - intros k' Hk'. apply (disk_inode_set s a k (id_inum d) (dinode d) k'); [done|done|lia|done].
  - intros b' Hb'. by rewrite view_set, decide_False.
Qed.

(** Write-back of an inode. [InodeData::update] stores the cached inode
    in the table, through the log: afterwards the table decodes to it at its
    number, to the same inodes as before at every other number, and no block
    but the one that holds it has changed. *)
Theorem update_writes_back s a i d :
  txn dv s a → blocks_ok a → table_ok s a → room 1 s → idatas s !! i = Some d → id_dev d = dv →
  0 ≤ id_inum d < ninodes (super s) → dinode_ok (dinode d) →
  ∃ s' a', update dv i s = Done (tt, s') ∧ txn dv s' a' ∧ blocks_ok a' ∧ table_ok s' a' ∧
    idatas s' = idatas s ∧
    (∀ k, 0 ≤ k →
       disk_inode s' a' k = if k =? id_inum d then Some (dinode d) else disk_inode s a k) ∧
    (∀ b, b ≠ iblock s (id_inum d) → a_view a' b = a_view a b).
Proof.
  intros T Ha Ht Hr Hi Hdev Hnum Hd.
  destruct (update_writes_back_run s a i d T Ha Ht Hr Hi Hdev Hnum Hd)
    as (l & a' & E & T' & Ha' & L & Hdi & Hv).
  exists (with_fl l s), a'. split_and!; [done..| |done|done|done].
  destruct Ht as [H1 H2 H3]. split; [done|..].
  - intros j Hj. apply (same_log_loggable 1 s); [done|by apply H2].
  - intros j Hj. change (disk_inode (with_fl l s)) with (disk_inode s). rewrite Hdi by apply Hj.
    destruct (j =? _); [done|by apply H3].
Qed.

Lemma dinode_alloc_loop_run s a t j n :
  txn dv s a → blocks_ok a → table_ok s a → room 1 s → 1 ≤ j →
  (∃ q l i y, j ≤ q < j + Z.of_nat n ∧ q < ninodes (super s) ∧
     (itype <$> disk_inode s a q) = Some Empty ∧
     (∀ m, j ≤ m < q → (itype <$> disk_inode s a m) ≠ Some Empty) ∧
     dinode_alloc_loop dv dv t (seqZ j (Z.of_nat n)) s = Done (q, with_fl l s) ∧
     y = splice (a_view a (iblock s q)) (q mod IPB * DINODE_SIZE)
       (DiskInode.to_bytes (mkDinode t 0 0 0 0 (replicate (Z.to_nat NDIRECT + 1) 0))) ∧
     txn dv (with_fl l s) (a_set a (iblock s q) (mkAbuf i y 1 false)) ∧
     same_log 1 s (with_fl l s)) ∨
  ((∀ m, j ≤ m < j + Z.of_nat n → m < ninodes (super s) →
      (itype <$> disk_inode s a m) ≠ Some Empty) ∧
   ∃ msg, dinode_alloc_loop dv dv t (seqZ j (Z.of_nat n)) s = Panic msg).
Proof.
  revert s j. induction n as [|n IH]; intros s j T Ha Ht Hr Hj.
  { right. split; [lia|]. by eexists. }
  rewrite seqZ_cons by lia. cbn [dinode_alloc_loop].
  replace (Z.pred (Z.of_nat (Datatypes.S n))) with (Z.of_nat n) by lia. rewrite <- Z.add_1_r.
  destruct (decide (j < ninodes (super s))) as [Hlt|Hge].
  2:{ right. split; [lia|]. eexists. unfold find_inode, locate_inode.
      rewrite !bind_assoc, bind_get. by rewrite (proj2 (Z.leb_le _ _)) by lia. }
  destruct (to_decode _ _ Ht j ltac:(lia)) as [d Hd].
  destruct (find_inode_run s a j d T Ht ltac:(lia) Hd) as (l1 & i & E1 & H1 & Eg1). mstep E1.
  cbv beta iota. set (b := iblock s j) in *. set (s1 := with_fl l1 s) in *.
  unfold DiskInode.try_alloc. case_bool_decide as Et.
  - left. destruct (to_blocks _ _ Ht j ltac:(lia)) as [Hu Hout].
    assert (loggable s1 b) as Hl1 by (split; [done|by rewrite <- Eg1 in Hout]).
    assert (room 1 s1) as Hr1 by (unfold room, log_of in *; simpl; by rewrite Eg1).
    destruct (set_inode_run s1 a b i _ (j mod IPB * DINODE_SIZE)
      (mkDinode t 0 0 0 0 (replicate (Z.to_nat NDIRECT + 1) 0)) H1 Hl1 Hr1) as (l2 & E2 & T2 & L2).
    rewrite <- bind_assoc. mstep E2. exists j, l2, i. eexists.
    split_and!; [lia|lia|done|by rewrite Hd; simpl; f_equal|lia|done|done|exact T2|].
    by eapply same_log_drop.
  - destruct (bdrop_run dv s1 a b i H1) as (l2 & E2 & T2 & Eg2). mstep E2.
    change (with_fl l2 s1) with (with_fl l2 s) in *. set (s2 := with_fl l2 s) in *.
    assert (log_of s2 = log_of s) as Elog by (unfold log_of; simpl; rewrite Eg2; done).
    destruct (IH s2 (j + 1)) as [(q & l & i' & y & Hq)|[Hno Hp]]; try done.
    + destruct Ht as [H1' H2' H3']. split; [done| |done]. intros k Hk.
      unfold loggable. rewrite Elog. by apply H2'.
    + unfold room. by rewrite Elog.
    + lia.
    + left. exists q, l, i', y. destruct Hq as (Q1 & Q2 & Q3 & Q4 & Q5 & Q6 & Q7 & Q8).
      split_and!; [lia|lia|done|done| |done|done|done|by eapply same_log_drop].
      intros m Hm. destruct (decide (m = j)) as [->|]; [rewrite Hd; simpl; congruence|].
      apply Q4. lia.
    + right. split; [|done]. intros m Hm Hmn.
      destruct (decide (m = j)) as [->|]; [rewrite Hd; simpl; congruence|].
      apply (Hno m); [lia|done].
Qed.

(** The inode [try_alloc] leaves behind. *)
Definition fresh_inode (t : InodeType) : DiskInode :=
  mkDinode t 0 0 0 0 (replicate (Z.to_nat NDIRECT + 1) 0).
Lemma fresh_ok t : dinode_ok (fresh_inode t).
Proof. split; try done. by apply (Forall_replicate (in_u 32)). Qed.

(** Allocation of an inode. [DiskInode::alloc] returns the first number
    from 1 on whose inode in the table is empty, and leaves there an inode of
    the given type with no links, no size and no blocks, changing no other
    inode; if none is empty it panics. *)
Theorem dinode_alloc_first s a t :
  txn dv s a → blocks_ok a → table_ok s a → room 1 s → 1 ≤ sb_size (super s) →
  (∃ q s' a', 1 ≤ q < ninodes (super s) ∧ (itype <$> disk_inode s a q) = Some Empty ∧
     (∀ m, 1 ≤ m < q → (itype <$> disk_inode s a m) ≠ Some Empty) ∧
     dinode_alloc dv dv t s = Done (q, s') ∧ txn dv s' a' ∧
     (∀ k, 0 ≤ k → disk_inode s' a' k = if k =? q then Some (fresh_inode t) else disk_inode s a k) ∧
     (∀ b, b ≠ iblock s q → a_view a' b = a_view a b)) ∨
  ((∀ m, 1 ≤ m < ninodes (super s) → (itype <$> disk_inode s a m) ≠ Some Empty) ∧
   ∃ msg, dinode_alloc dv dv t s = Panic msg).
Proof.
  intros T Ha Ht Hr Hsz. unfold dinode_alloc, sb_total. rewrite bind_gets.
  pose proof (to_num _ _ Ht).
  replace (sb_size (super s) - 1) with (Z.of_nat (Z.to_nat (sb_size (super s) - 1))) by lia.
  destruct (dinode_alloc_loop_run s a t 1 (Z.to_nat (sb_size (super s) - 1)) T Ha Ht Hr ltac:(lia))
    as [(q & l & i & y & Q1 & Q2 & Q3 & Q4 & Q5 & -> & Q7 & Q8)|[Hno Hp]].
  - left. eexists q, _, _. split_and!; [lia|done|done|done|exact Q5|exact Q7| |].
    + intros k Hk. by apply (disk_inode_set s a i q (fresh_inode t) k Ha (fresh_ok t) ltac:(lia)).
    + intros b Hb. by rewrite view_set, decide_False.
  - right. split; [|done]. intros m Hm. apply Hno; lia.
Qed.
End inodes.

(** ** File contents

    Files of direct blocks, with a kernel buffer on the other side. *)
Section contents.
Context {D S : Type} `{!BlockDev D} `{!BlockDevLaws D} (dv : Z) `{!BufferCache D S dv}.
Implicit Types (s : fsst S) (a : acache D) (d : InodeData).

(** The disk block of byte [k] of the file, and the byte. *)
Definition byte_block (dn : DiskInode) (k : Z) : option Z :=
  b ← addrs dn !! Z.to_nat (k / BSIZE); if b =? 0 then None else Some b.
Definition file_byte a (dn : DiskInode) (k : Z) : option Z :=
  b ← byte_block dn k; a_view a b !! Z.to_nat (k mod BSIZE).
(** The direct blocks are allocated for bytes [off, off + n). *)
Definition mapped (dn : DiskInode) (off n : Z) : Prop :=
  0 ≤ off ∧ ∀ k, off ≤ k < off + n → k < NDIRECT * BSIZE ∧ is_Some (byte_block dn k).
(** The direct blocks are distinct, outside the log and the inode table. *)
Record file_ok s (dn : DiskInode) : Prop := {
  fo_log k b : 0 ≤ k < NDIRECT * BSIZE → byte_block dn k = Some b → loggable s b;
  fo_inj k k' b : 0 ≤ k < NDIRECT * BSIZE → 0 ≤ k' < NDIRECT * BSIZE →
    byte_block dn k = Some b → byte_block dn k' = Some b → k / BSIZE = k' / BSIZE;
  fo_table k b j : 0 ≤ k < NDIRECT * BSIZE → byte_block dn k = Some b →
    0 ≤ j < ninodes (super s) → b ≠ iblock s j
}.

Lemma BSIZE_pos : 0 < BSIZE.
Proof. reflexivity. Qed.

Lemma mapped_next dn off n m : mapped dn off n → 0 ≤ m ≤ n → mapped dn (off + m) (n - m).
Proof. intros [H0 H] Hm. split; [lia|]. intros k Hk. apply H. lia. Qed.

(** [map] on an allocated direct block changes nothing. *)
Lemma map_direct_run s i d off b :
  idatas s !! i = Some d → 0 ≤ off < NDIRECT * BSIZE → byte_block (dinode d) off = Some b →
  map dv i (off / BSIZE) s = Done (b, s).
Proof.
  intros Hi Hoff Hb. unfold map, idata_at. rewrite bind_assoc, bind_get, Hi, bind_unwrap.
  assert (off / BSIZE < NDIRECT) by (apply Z.div_lt_upper_bound; [done|lia]).
  rewrite (proj2 (Z.ltb_lt _ _)) by done. unfold byte_block in Hb.
  destruct (addrs (dinode d) !! Z.to_nat (off / BSIZE)) as [b'|]; [|done]. rewrite bind_unwrap.
  simpl in Hb. destruct (b' =? 0); [done|]. by simplify_eq.
Qed.

(** The part of one block that a step of the loops covers. *)
Lemma chunk_bounds off n :
  0 ≤ off → 0 < n → let c := Z.min n (BSIZE - off mod BSIZE) in
  0 < c ≤ n ∧ 0 ≤ off mod BSIZE ∧ off mod BSIZE + c ≤ BSIZE ∧
  (∀ k, off ≤ k < off + c → k / BSIZE = off / BSIZE ∧ k mod BSIZE = off mod BSIZE + (k - off)) ∧
  (c < n → (off + c) / BSIZE = off / BSIZE + 1).
Proof.
  intros H0 Hn c. pose proof BSIZE_pos. pose proof (Z.mod_pos_bound off BSIZE ltac:(lia)) as Hm.
  pose proof (Z.div_mod off BSIZE ltac:(lia)) as Hd. unfold c. split_and!; try lia.
  - intros k Hk. assert (k = BSIZE * (off / BSIZE) + (off mod BSIZE + (k - off))) as Ek by lia.
    split.
    + symmetry. apply (Z.div_unique k BSIZE _ (off mod BSIZE + (k - off))); [lia|done].
    + symmetry. apply (Z.mod_unique k BSIZE (off / BSIZE)); [lia|done].
  - intros Hc. symmetry. apply (Z.div_unique _ BSIZE _ 0); lia.
Qed.

(** A block of the file is a run of its bytes. *)
Lemma chunk_bytes a dn off n b :
  0 ≤ off → 0 < n → byte_block dn off = Some b → blocks_ok a →
  let c := Z.min n (BSIZE - off mod BSIZE) in
  let bs := slice (a_view a b) (off mod BSIZE) c in
  Z.of_nat (length bs) = c ∧
  ∀ k, 0 ≤ k < c → bs !! Z.to_nat k = file_byte a dn (off + k).
Proof.
  intros H0 Hn Hb Ha c bs. destruct (chunk_bounds off n H0 Hn) as (C1 & C2 & C3 & C4 & _).
  fold c in C1, C3, C4. destruct (Ha b) as [Hl _]. split.
  - unfold bs. rewrite length_slice; [lia|lia|lia|]. rewrite Hl. lia.
  - intros k Hk. destruct (C4 (off + k) ltac:(lia)) as [Ed Em]. unfold bs.
    rewrite slice_lookup by done. rewrite decide_True by lia. unfold file_byte, byte_block in *.
    rewrite Ed, Hb. cbn [mbind option_bind]. f_equal. rewrite Em. lia.
Qed.

(** ** Reading *)
Lemma read_loop_run s a i d dst count fuel : ∀ l0 off total,
  txn dv (with_fl l0 s) a → blocks_ok a → idatas s !! i = Some d → id_dev d = dv →
  total ≤ count → mapped (dinode d) off (count - total) → (Z.to_nat (count - total) < fuel)%nat →
  ∃ bs l, read_loop dv fuel i Kernel dst off total count (with_fl l0 s) = Done (bs, with_fl l s) ∧
    txn dv (with_fl l s) a ∧ lg l = lg l0 ∧ Z.of_nat (length bs) = count - total ∧
    ∀ k, 0 ≤ k < count - total → bs !! Z.to_nat k = file_byte a (dinode d) (off + k).
Proof.
  revert dst. induction fuel as [|fuel IH]; intros dst l0 off total T Ha Hi Hdev Htot Hmap Hf; [lia|].
  cbn [read_loop]. destruct (Z.leb_spec count total) as [Hle|Hlt].
  { exists [], l0. split_and!; [done..|simpl; lia|lia]. }
  set (n := count - total) in *. destruct Hmap as [H0 Hm].
  destruct (Hm off ltac:(lia)) as [Hoff [b Hb]].
  unfold idata_at. rewrite bind_assoc, bind_get. simpl idatas. rewrite Hi, bind_unwrap, Hdev.
  mstep (map_direct_run (with_fl l0 s) i d off b Hi ltac:(lia) Hb).
  destruct (bread_run dv _ a b T) as (l1 & j & E1 & H1 & Eg1). mstep E1.
  change (with_fl l1 (with_fl l0 s)) with (with_fl l1 s) in *.
  mstep (bdata_run dv _ a b j _ H1). cbn [copy_from_kernel]. rewrite bind_ret_l.
  destruct (bdrop_run dv _ a b j H1) as (l2 & E2 & T2 & Eg2). mstep E2.
  change (with_fl l2 (with_fl l1 s)) with (with_fl l2 s) in *.
  destruct (chunk_bounds off n H0 ltac:(lia)) as (C1 & C2 & C3 & C4 & C5).
  destruct (chunk_bytes a (dinode d) off n b H0 ltac:(lia) Hb Ha) as [B1 B2].
  set (c := Z.min n (BSIZE - off mod BSIZE)) in *. set (src := slice _ _ c) in *.
  assert (count - (total + c) = n - c) as En by lia.
  destruct (IH (dst + c) l2 (off + c) (total + c)) as (bs & l & E & T' & Eg & Hlen & Hbs);
    [done..|lia|rewrite En; apply mapped_next; [done|lia]|lia|].
  mstep E. exists (src ++ bs), l. rewrite En in Hlen, Hbs.
  split_and!; [done|done|rewrite Eg, Eg2; exact Eg1|rewrite length_app; lia|].
  intros k Hk. destruct (decide (k < c)).
  - rewrite lookup_app_l by lia. apply B2. lia.
  - rewrite lookup_app_r by lia.
    replace (Z.to_nat k - length src)%nat with (Z.to_nat (k - c)) by lia.
    rewrite Hbs by lia. f_equal. lia.
Qed.

Lemma iread_run s a i d dst off count :
  txn dv s a → blocks_ok a → idatas s !! i = Some d → id_dev d = dv → 0 ≤ count →
  mapped (dinode d) off count → off + count ≤ dsize (dinode d) → in_u 32 (dsize (dinode d)) →
  ∃ bs l, iread dv i Kernel dst off count s = Done (Ok bs, with_fl l s) ∧
    txn dv (with_fl l s) a ∧ lg l = log_of s ∧ Z.of_nat (length bs) = count ∧
    ∀ k, 0 ≤ k < count → bs !! Z.to_nat k = file_byte a (dinode d) (off + k).
Proof.
  intros T Ha Hi Hdev Hc Hm Hsz [_ Hu]. unfold iread.
  rewrite (proj2 (Z.leb_gt _ _)) by lia. unfold idata_at. rewrite bind_assoc, bind_get, Hi, bind_unwrap.
  rewrite (proj2 (Z.ltb_ge _ _)) by lia. rewrite <- (with_fl_log s) in T.
  destruct (read_loop_run s a i d dst count (Datatypes.S (Z.to_nat count)) (fl s) off 0)
    as (bs & l & E & T' & Eg & Hlen & Hbs); [done..|by rewrite Z.sub_0_r|lia|].
  rewrite with_fl_log in E. mstep E. rewrite Z.sub_0_r in *. exists bs, l. done.
Qed.

(** ** Writing *)

(** The number of blocks a write of [n] bytes at [off] touches. *)
Definition touched (off n : Z) : Z :=
  if n =? 0 then 0 else (off + n - 1) / BSIZE - off / BSIZE + 1.
Lemma touched_next off n :
  0 ≤ off → 0 < n → let c := Z.min n (BSIZE - off mod BSIZE) in
  1 + touched (off + c) (n - c) = touched off n.
Proof.
  intros H0 Hn c. destruct (chunk_bounds off n H0 Hn) as (C1 & C2 & C3 & C4 & C5).
  fold c in C1, C3, C4, C5. unfold touched. rewrite (proj2 (Z.eqb_neq n 0)) by lia.
  destruct (Z.eqb_spec (n - c) 0).
  - destruct (C4 (off + n - 1)) as [-> _]; lia.
  - rewrite C5 by lia. replace (off + c + (n - c) - 1) with (off + n - 1) by lia. lia.
Qed.
Lemma touched_nonneg off n : 0 ≤ n → 0 ≤ touched off n.
Proof.
  intros Hn. unfold touched. destruct (Z.eqb_spec n 0); [lia|].
  pose proof (Z.div_le_mono off (off + n - 1) BSIZE BSIZE_pos). lia.
Qed.

(** Overwriting a part of one block of the file. *)
Lemma chunk_set s a dn j off n b bs :
  file_ok s dn → blocks_ok a → 0 ≤ off < NDIRECT * BSIZE → 0 < n → byte_block dn off = Some b →
  Z.of_nat (length bs) = Z.min n (BSIZE - off mod BSIZE) →
  let a' := a_set a b (mkAbuf j (splice (a_view a b) (off mod BSIZE) bs) 1 false) in
  ∀ k, 0 ≤ k < NDIRECT * BSIZE → file_byte a' dn k =
    if decide (off ≤ k < off + Z.of_nat (length bs)) then bs !! Z.to_nat (k - off)
    else file_byte a dn k.
Proof.
  intros Hok Ha H0 Hn Hb Hlen a' k Hk.
  destruct (chunk_bounds off n ltac:(lia) Hn) as (C1 & C2 & C3 & C4 & C5). rewrite <- Hlen in *.
  destruct (Ha b) as [Hl _]. unfold file_byte at 1. case_decide as E.
  - destruct (C4 k E) as [Ed Em]. unfold byte_block in *. rewrite Ed, Hb. cbn [mbind option_bind].
    unfold a'. rewrite view_set, decide_True by done. rewrite splice_lookup; [|lia|rewrite Hl; lia].
    rewrite Em, decide_True by lia. f_equal. lia.
  - unfold file_byte. destruct (byte_block dn k) as [b'|] eqn:Ek; [|done]. cbn [mbind option_bind].
    unfold a'. rewrite view_set. case_decide as Eb; [|done]. subst b'.
    pose proof (fo_inj _ _ Hok k off b Hk H0 Ek Hb) as Ed. pose proof BSIZE_pos.
    rewrite splice_lookup; [|lia|rewrite Hl; lia]. rewrite decide_False; [done|].
    pose proof (Z.div_mod k BSIZE ltac:(lia)) as Hdk. rewrite Ed in Hdk.
    pose proof (Z.div_mod off BSIZE ltac:(lia)) as Hdo.
    pose proof (Z.mod_pos_bound k BSIZE ltac:(lia)). lia.
Qed.

Lemma file_ok_log n s s' dn :
  file_ok s dn → same_log n s s' → super s' = super s → file_ok s' dn.
Proof.
  intros [F1 F2 F3] L Es. split.
  - intros k b Hk Hb. eapply same_log_loggable; [done|by eapply F1].
  - exact F2.
  - intros k b j. unfold iblock. rewrite Es. apply F3.
Qed.

Section write_loop.
Context (s : fsst S) (i : nat) (d : InodeData) (ksrc : list Z).
Hypothesis Hi : idatas s !! i = Some d.
Hypothesis Hdev : id_dev d = dv.
Hypothesis Hsrc : Forall (in_u 8) ksrc.
Abbreviation dn := (dinode d).

(** Bytes [off, off + n) come from the buffer, the others are as before. *)
Definition written (a a' : acache D) (src off n : Z) : Prop :=
  (∀ k, 0 ≤ k < NDIRECT * BSIZE → file_byte a' dn k =
     if decide (off ≤ k < off + n) then ksrc !! Z.to_nat (src + (k - off)) else file_byte a dn k) ∧
  (∀ b, (∀ k, off ≤ k < off + n → byte_block dn k ≠ Some b) → a_view a' b = a_view a b).

Lemma written_trans a a1 a2 src off n c :
  0 ≤ c ≤ n → written a a1 src off c → written a1 a2 (src + c) (off + c) (n - c) →
  written a a2 src off n.
Proof.
  intros Hc [W1 V1] [W2 V2]. split.
  - intros k Hk. rewrite W2 by done. destruct (decide (off + c ≤ k < _)).
    + rewrite decide_True by lia. f_equal. lia.
    + rewrite W1 by done. destruct (decide (off ≤ k < off + c)).
      * by rewrite decide_True by lia.
      * by rewrite decide_False by lia.
  - intros b Hb. rewrite V2, V1; [done|..]; intros k Hk; apply Hb; lia.
Qed.

(** One iteration. *)
Lemma write_chunk_run l0 a off n src b :
  txn dv (with_fl l0 s) a → blocks_ok a → 0 ≤ off < NDIRECT * BSIZE → 0 < n →
  byte_block dn off = Some b → file_ok (with_fl l0 s) dn → 0 ≤ src →
  src + n ≤ Z.of_nat (length ksrc) → room 1 (with_fl l0 s) →
  let c := Z.min n (BSIZE - off mod BSIZE) in
  ∃ l a',
    (∀ A (K : M (fsst S) A), (buf ← bread dv dv b;
       bs ← copy_to_kernel Kernel ksrc src c;
       x ← bdata dv buf;
       bset dv buf (splice x (off mod BSIZE) bs) ;;
       log_write dv buf ;; K) (with_fl l0 s) = K (with_fl l s)) ∧
    txn dv (with_fl l s) a' ∧ blocks_ok a' ∧ same_log 1 (with_fl l0 s) (with_fl l s) ∧
    written a a' src off c.
Proof.
  intros T Ha H0 Hn Hb Hok Hs0 Hsl Hr c.
  destruct (chunk_bounds off n ltac:(lia) Hn) as (C1 & C2 & C3 & C4 & C5). fold c in C1, C3, C4, C5.
  destruct (bread_run dv _ a b T) as (l1 & j & E1 & H1 & Eg1).
  change (with_fl l1 (with_fl l0 s)) with (with_fl l1 s) in *.
  set (bs := slice ksrc src c).
  assert (Z.of_nat (length bs) = c) as Hlen by (unfold bs; rewrite length_slice; lia).
  destruct (fo_log _ _ Hok off b H0 Hb) as [Hu Hout].
  assert (log_of (with_fl l1 s) = log_of (with_fl l0 s)) as El by exact Eg1.
  assert (loggable (with_fl l1 s) b) as Hl1 by (split; [done|by rewrite El]).
  assert (room 1 (with_fl l1 s)) as Hr1 by (unfold room; by rewrite El).
  destruct (bset_log_run dv (with_fl l1 s) a b j _ (splice (a_view a b) (off mod BSIZE) bs) H1 Hl1 Hr1)
    as (l2 & E2 & T2 & L2 & _).
  change (with_fl l2 (with_fl l1 s)) with (with_fl l2 s) in *.
  exists l2. eexists. split_and!; [|exact T2| | |split].
  - intros A K. mstep E1. cbn [copy_to_kernel]. rewrite bind_ret_l.
    mstep (bdata_run dv _ a b j _ H1). rewrite <- bind_assoc. by mstep E2.
  - apply block_ok_set; [done|]. apply splice_ok; [apply Ha|lia|lia|].
    unfold bs, slice. by apply Forall_take, Forall_drop.
  - destruct L2 as (A1 & A2 & A3 & A4). unfold same_log, logged_blocks in *.
    rewrite El in A1, A2, A3, A4. by split_and!.
  - intros k Hk. rewrite (chunk_set (with_fl l0 s) a dn j off n b bs) by done. rewrite Hlen.
    case_decide; [|done]. unfold bs. rewrite slice_lookup by lia. rewrite decide_True by lia.
    f_equal. lia.
  - intros b' Hb'. rewrite view_set, decide_False; [done|]. intros ->. by apply (Hb' off); [lia|].
Qed.

Lemma write_loop_run count fuel : ∀ l0 a off total src,
  txn dv (with_fl l0 s) a → blocks_ok a → total ≤ count → mapped dn off (count - total) →
  file_ok (with_fl l0 s) dn → 0 ≤ src → src + (count - total) ≤ Z.of_nat (length ksrc) →
  room (touched off (count - total)) (with_fl l0 s) → (Z.to_nat (count - total) < fuel)%nat →
  ∃ l a', write_loop dv fuel i Kernel ksrc src off total count (with_fl l0 s)
      = Done (off + (count - total), with_fl l s) ∧
    txn dv (with_fl l s) a' ∧ blocks_ok a' ∧
    same_log (touched off (count - total)) (with_fl l0 s) (with_fl l s) ∧
    written a a' src off (count - total).
Proof.
  induction fuel as [|fuel IH]; intros l0 a off total src T Ha Htot Hmap Hok Hs0 Hsl Hr Hf; [lia|].
  cbn [write_loop]. destruct (Z.leb_spec count total) as [Hle|Hlt].
  { assert (count - total = 0) as -> by lia. exists l0, a. rewrite Z.add_0_r.
    split_and!; [done..|by apply same_log_refl|]. split; [|done]. intros k Hk.
    by rewrite decide_False by lia. }
  set (n := count - total) in *. pose proof Hmap as [H0 Hm].
  destruct (Hm off ltac:(lia)) as [Hoff [b Hb]].
  unfold idata_at. rewrite bind_assoc, bind_get. simpl idatas. rewrite Hi, bind_unwrap, Hdev.
  mstep (map_direct_run (with_fl l0 s) i d off b Hi ltac:(lia) Hb).
  destruct (chunk_bounds off n H0 ltac:(lia)) as (C1 & C2 & C3 & C4 & C5).
  pose proof (touched_next off n H0 ltac:(lia)) as Ht. cbv zeta in Ht.
  set (c := Z.min n (BSIZE - off mod BSIZE)) in *. rewrite <- Ht in *.
  assert (room 1 (with_fl l0 s)) as Hr1.
  { pose proof (touched_nonneg (off + c) (n - c)). destruct Hr. unfold room. lia. }
  destruct (write_chunk_run l0 a off n src b) as (l1 & a1 & E1 & T1 & Ha1 & L1 & W1);
    [done|done|lia|lia|done|done|done|lia|done|]. fold c in E1, W1.
  rewrite E1. assert (count - (total + c) = n - c) as En by lia.
  destruct (IH l1 a1 (off + c) (total + c) (src + c)) as (l & a' & E & T' & Ha' & L' & W');
    rewrite ?En; try done; try lia.
  - apply mapped_next; [done|lia].
  - by eapply file_ok_log.
  - by eapply same_log_room.
  - rewrite En in *. exists l, a'. split_and!; [rewrite E; do 2 f_equal; lia|done|done| |].
    + by eapply same_log_trans.
    + eapply written_trans; [|done|done]. lia.
Qed.
End write_loop.

(** The slot of an inode in use. *)
Record slot_ok s a d : Prop := {
  so_txn : txn dv s a;
  so_blocks : blocks_ok a;
  so_table : table_ok s a;
  so_dev : id_dev d = dv;
  so_num : 0 ≤ id_inum d < ninodes (super s);
  so_inode : dinode_ok (dinode d);
  so_file : file_ok s (dinode d)
}.
Definition grown (dn : DiskInode) (n : Z) : DiskInode := d_set_size dn (Z.max (dsize dn) n).

Lemma grown_ok dn n : dinode_ok dn → in_u 32 n → dinode_ok (grown dn n).
Proof. intros [H1 H2 H3 H4 H5 H6] Hn. split; try done. unfold in_u in *. simpl. lia. Qed.

(** The size is updated in the slot. *)
Lemma grow_run s i d n :
  idatas s !! i = Some d → in_u 32 n →
  (d0 ← idata_at i;
   if dsize (dinode d0) <? wrap 32 n
   then put_dinode i (d_set_size (dinode d0) (wrap 32 n)) else mret tt) s
  = Done (tt, mkFsst (fl s) (super s) (sb_ready s) (imetas s)
      (<[i := id_set_dinode d (grown (dinode d) n)]> (idatas s)) (umem s) (cur_pgt s) (cur_cwd s)).
Proof.
  intros Hi Hn. unfold put_dinode, put_idata, idata_at. rewrite bind_assoc, bind_get, Hi, bind_unwrap.
  unfold wrap. rewrite Z.mod_small by apply Hn. unfold grown.
  destruct (Z.ltb_spec (dsize (dinode d)) n) as [Hlt|Hge].
  - rewrite bind_assoc, bind_get, Hi, bind_unwrap. rewrite Z.max_r by lia. done.
  - rewrite Z.max_l by done. unfold d_set_size.
    rewrite list_insert_id; [by destruct s|]. rewrite Hi. by destruct d as [? ? ? [] ?].
Qed.

Lemma iwrite_run s a i d ksrc src off count :
  slot_ok s a d → idatas s !! i = Some d → Forall (in_u 8) ksrc → 0 < count →
  mapped (dinode d) off count → 0 ≤ src → src + count ≤ Z.of_nat (length ksrc) →
  room (touched off count + 1) s →
  ∃ s' a', iwrite dv i Kernel ksrc src off count s = Done (Ok count, s') ∧
    txn dv s' a' ∧ blocks_ok a' ∧
    idatas s' !! i = Some (id_set_dinode d (grown (dinode d) (off + count))) ∧
    disk_inode s' a' (id_inum d) = Some (grown (dinode d) (off + count)) ∧
    (∀ k, 0 ≤ k < NDIRECT * BSIZE → file_byte a' (dinode d) k =
       if decide (off ≤ k < off + count) then ksrc !! Z.to_nat (src + (k - off))
       else file_byte a (dinode d) k) ∧
    (∀ j, 0 ≤ j < ninodes (super s) → j ≠ id_inum d → disk_inode s' a' j = disk_inode s a j).
Proof.
  intros [T Ha Ht Hdev Hnum Hd Hf] Hi Hsrc Hc Hm Hs0 Hsl Hr.
  assert (in_u 32 (off + count)) as Hu.
  { destruct Hm as [H0 Hm]. destruct (Hm (off + count - 1)) as [Hlt _]; [lia|].
    change (NDIRECT * BSIZE) with 12288 in Hlt. unfold in_u. lia. }
  pose proof (touched_nonneg off count ltac:(lia)) as Hn0.
  rewrite <- (with_fl_log s) in T, Hf.
  assert (room (touched off count) (with_fl (fl s) s)) as Hr0.
  { rewrite with_fl_log. destruct Hr. split; lia. }
  destruct (write_loop_run s i d ksrc Hi Hdev Hsrc count (Datatypes.S (Z.to_nat count)) (fl s) a off 0 src)
    as (l & a1 & E1 & T1 & Ha1 & L1 & [W1 V1]); rewrite ?Z.sub_0_r in *; try done; [lia|lia|].
  rewrite with_fl_log in E1, L1, Hf. unfold iwrite. mstep E1. rewrite <- bind_assoc.
  mstep (grow_run (with_fl l s) i d (off + count) Hi Hu).
  set (d' := id_set_dinode d _). set (s2 := mkFsst _ _ _ _ _ _ _ _).
  assert (∀ j, 0 ≤ j < ninodes (super s) → a_view a1 (iblock s j) = a_view a (iblock s j)) as Htab.
  { intros j Hj. apply V1. intros k Hk Hb. destruct Hm as [H0 Hm].
    destruct (Hm k Hk). by apply (fo_table _ _ Hf k _ j ltac:(lia) Hb). }
  assert (table_ok s2 a1) as Ht2.
  { destruct Ht as [N1 N2 N3]. split; [done| |].
    - intros j Hj. apply (same_log_loggable _ s (with_fl l s) _ L1). by apply N2.
    - intros j Hj. unfold disk_inode. change (iblock s2 j) with (iblock s j).
      rewrite Htab by done. by apply N3. }
  assert (room 1 (with_fl l s)) as Hr2 by (by eapply same_log_room).
  assert (idatas s2 !! i = Some d') as Hi2.
  { apply list_lookup_insert_eq. by eapply lookup_lt_Some. }
  destruct (update_writes_back_run dv s2 a1 i d') as (l' & a' & E' & T' & Ha' & _ & Hdi & Hv);
    [by destruct T1|done|done|done|done|done|done|by apply grown_ok|].
  mstep E'. exists (with_fl l' s2), a'. split_and!; [done|done|done|done| | |].
 
  - etransitivity; [apply Hdi; lia|]. by rewrite Z.eqb_refl.
  - intros k Hk. rewrite <- W1 by done. unfold file_byte.
    destruct (byte_block (dinode d) k) as [b|] eqn:Eb; [|done]. cbn [mbind option_bind].
    rewrite Hv; [done|]. by apply (fo_table _ _ Hf k b (id_inum d) Hk Eb).
  - intros j Hj Hne. etransitivity; [apply Hdi; lia|]. rewrite (proj2 (Z.eqb_neq _ _)) by done.
    unfold disk_inode. change (iblock s2 j) with (iblock s j). by rewrite Htab.
Qed.

(** A file keeps what is written to it. Writing [count] bytes of a buffer
    at [off], over direct blocks the file has, succeeds and logs at most one
    block per file block touched and one for the inode; then reading [count]
    bytes at [off] returns exactly those bytes, every other byte of the file
    is as before, the size is the larger of the old one and [off + count], in
    the slot and in the inode table, and no other inode has changed. *)
Theorem write_then_read s a i d ksrc src off count dst :
  slot_ok s a d → idatas s !! i = Some d → Forall (in_u 8) ksrc → 0 < count →
  mapped (dinode d) off count → 0 ≤ src → src + count ≤ Z.of_nat (length ksrc) →
  room (touched off count + 1) s →
  ∃ s' a', iwrite dv i Kernel ksrc src off count s = Done (Ok count, s') ∧ txn dv s' a' ∧
    (∃ s'', iread dv i Kernel dst off count s' = Done (Ok (slice ksrc src count), s'') ∧
       txn dv s'' a') ∧
    (∀ k, 0 ≤ k < NDIRECT * BSIZE → ¬ off ≤ k < off + count →
       file_byte a' (dinode d) k = file_byte a (dinode d) k) ∧
    idatas s' !! i = Some (id_set_dinode d (grown (dinode d) (off + count))) ∧
    disk_inode s' a' (id_inum d) = Some (grown (dinode d) (off + count)) ∧
    (∀ j, 0 ≤ j < ninodes (super s) → j ≠ id_inum d → disk_inode s' a' j = disk_inode s a j).
Proof.
  intros Hok Hi Hsrc Hc Hm Hs0 Hsl Hr.
  destruct (iwrite_run s a i d ksrc src off count Hok Hi Hsrc Hc Hm Hs0 Hsl Hr)
    as (s' & a' & E & T & Ha & Ei & Ed & Hb & Ho).
  assert (mapped (dinode d) off count) as [H0 Hlt] by done.
  destruct (iread_run s' a' i _ dst off count T Ha Ei) as (bs & l & Er & Tr & _ & Hlen & Hbs);
    [apply Hok|lia|exact Hm|simpl; lia|apply (do_size (grown (dinode d) (off + count)))|].
  { apply grown_ok; [apply Hok|]. destruct (Hlt (off + count - 1)) as [Hb1 _]; [lia|].
    change (NDIRECT * BSIZE) with 12288 in Hb1. unfold in_u. lia. }
  exists s', a'. split_and!; [done|done| | |done|done|done].
  - exists (with_fl l s'). split; [|done]. rewrite Er. do 3 f_equal. apply list_eq. intros k.
    rewrite slice_lookup by done. case_decide as Ek.
    + rewrite <- (Nat2Z.id k), Hbs by lia. simpl dinode.
      change (file_byte a' (grown (dinode d) (off + count))) with (file_byte a' (dinode d)).
      rewrite Hb by (destruct (Hlt (off + Z.of_nat k)); lia). rewrite decide_True by lia.
      f_equal. lia.
    + apply lookup_ge_None. lia.
  - intros k Hk Hnk. rewrite Hb by done. by rewrite decide_False.
Qed.
End contents.

(** ** A file on the small disk

    Inode 5, of two blocks; block 1 holds an empty table. *)
Definition inode5 : DiskInode := mkDinode File 0 0 1 2048 ([60; 61] ++ replicate 11 0).
Definition idata5 : InodeData := mkIdata true 1 5 inode5 true.
Definition fs1 : fsst (bcache tdev) :=
  mkFsst (mkLogst g0 (BCache.new t0)) super0 true (replicate 50 InodeMeta.new)
    (<[3%nat := idata5]> (replicate 50 InodeData.new)) (mkMem ∅ None ∅) None None.
#[local] Instance bc1 : BufferCache tdev (bcache tdev) 1 := bcache_BufferCache 1.

Lemma fs1_txn : txn 1 fs1 (mkAcache ∅ t0).
Proof. pose proof fs0_txn as [H1 H2 H3 H4]. split; [exact H1|exact H2|exact H3|exact H4]. Qed.
Lemma zero_view b : a_view (mkAcache ∅ t0) b = replicate (Z.to_nat BSIZE) 0.
Proof. unfold a_view. cbn [a_bufs a_disk]. by rewrite lookup_empty. Qed.
Lemma small_block b : 32 ≤ b < 100 → loggable fs1 b.
Proof.
  intros Hb. split; [unfold in_u; lia|]. unfold outside.
  change (start (log_of fs1)) with 2. layout_lia.
Qed.
Lemma fs1_table : table_ok fs1 (mkAcache ∅ t0).
Proof.
  split; [by vm_compute| |]; change (ninodes (super fs1)) with 64; intros j Hj.
  - apply small_block. unfold iblock. change (inodestart (super fs1)) with 40.
    change IPB with 16. pose proof (Z.div_pos j 16 ltac:(lia) ltac:(lia)).
    pose proof (Z.div_lt_upper_bound j 16 4 ltac:(lia) ltac:(lia)). lia.
  - unfold disk_inode. rewrite zero_view. destruct (inode_range j) as [R1 R2].
    unfold slice. rewrite drop_replicate, take_replicate.
    replace (Z.to_nat DINODE_SIZE `min` _)%nat with 64%nat; [by vm_compute; eexists|].
    change DINODE_SIZE with 64 in *. change BSIZE with 1024 in *. lia.
Qed.
Lemma inode5_ok : dinode_ok inode5.
Proof. split; try done. apply (bool_decide_unpack _). by vm_compute. Qed.
Lemma inode5_blocks k b :
  0 ≤ k → byte_block inode5 k = Some b → k / BSIZE = 0 ∧ b = 60 ∨ k / BSIZE = 1 ∧ b = 61.
Proof.
  intros Hk. unfold byte_block. pose proof (Z.div_pos k BSIZE Hk BSIZE_pos) as Hq.
  rewrite <- (Z2Nat.id (k / BSIZE)) at 2 3 by done.
  destruct (Z.to_nat (k / BSIZE)) as [|[|q]]; simpl; [intros [= <-]; auto..|].
  do 11 (destruct q as [|q]; [done|]). done.
Qed.
Lemma fs1_slot : slot_ok 1 fs1 (mkAcache ∅ t0) idata5.
Proof.
  split; [exact fs1_txn|exact fs0_blocks|exact fs1_table|done|by vm_compute|exact inode5_ok|].
  split.
  - intros k b Hk Hb. destruct (inode5_blocks k b (proj1 Hk) Hb) as [[_ ->]|[_ ->]];
      apply small_block; lia.
  - intros k k' b Hk Hk' Hb Hb'. destruct (inode5_blocks k b (proj1 Hk) Hb) as [[-> ->]|[-> ->]];
      destruct (inode5_blocks k' _ (proj1 Hk') Hb') as [[-> ?]|[-> ?]]; done.
  - intros k b j Hk Hb. change (ninodes (super fs1)) with 64. intros Hj.
    assert (iblock fs1 j < 44) as Hlt.
    { unfold iblock. change (inodestart (super fs1)) with 40. change IPB with 16.
      pose proof (Z.div_lt_upper_bound j 16 4 ltac:(lia) ltac:(lia)). lia. }
    destruct (inode5_blocks k b (proj1 Hk) Hb) as [[_ ->]|[_ ->]]; lia.
Qed.

Lemma update_writes_back_witness :
  ∃ s' a', update 1 3 fs1 = Done (tt, s') ∧ disk_inode s' a' 5 = Some inode5.
Proof.
  destruct (update_writes_back 1 fs1 (mkAcache ∅ t0) 3 idata5 fs1_txn fs0_blocks fs1_table)
    as (s' & a' & E & _ & _ & _ & _ & H & _);
    [split; by vm_compute|reflexivity|reflexivity|by vm_compute|exact inode5_ok|].
  exists s', a'. split; [exact E|]. rewrite H by lia. reflexivity.
Defined.
Lemma dinode_alloc_first_witness : ∃ s', dinode_alloc 1 1 File fs1 = Done (1, s').
Proof.
  destruct (dinode_alloc_first 1 fs1 (mkAcache ∅ t0) File fs1_txn fs0_blocks fs1_table)
    as [(q & s' & a' & Hq & _ & Hfirst & E & _)|[Hno _]];
    [split; by vm_compute|by vm_compute| |].
  - destruct (Z.eq_dec q 1) as [->|Hne]; [exists s'; exact E|].
    exfalso. apply (Hfirst 1 ltac:(lia)). by vm_compute.
  - exfalso. apply (Hno 1); by vm_compute.
Defined.
(** Five bytes across the border of the two blocks. *)
Lemma write_then_read_witness :
  ∃ s' s'', iwrite 1 3 Kernel [1; 2; 3; 4; 5] 0 1022 5 fs1 = Done (Ok 5, s') ∧
    iread 1 3 Kernel 0 1022 5 s' = Done (Ok [1; 2; 3; 4; 5], s'').
Proof.
  destruct (write_then_read 1 fs1 (mkAcache ∅ t0) 3 idata5 [1; 2; 3; 4; 5] 0 1022 5 0 fs1_slot)
    as (s' & a' & E & _ & (s'' & E' & _) & _);
    [reflexivity|by repeat constructor|lia| |lia|done|split; by vm_compute|].
  - split; [lia|]. intros k Hk. split; [change (NDIRECT * BSIZE) with 12288; lia|].
    assert (k = 1022 ∨ k = 1023 ∨ k = 1024 ∨ k = 1025 ∨ k = 1026) as Hc by lia.
    destruct Hc as [->|[->|[->|[->| ->]]]]; by eexists.
  - exists s', s''. split; [exact E|exact E'].
Defined.
