(* ===== verification/Icache.v ===== *)
(** * Inode cache, directories and paths: the operations

    The rest of [fs/inode.rs]: the table of referenced inodes, directories,
    and path resolution. An [Inode] value is a counted reference; where the
    source drops one, the model calls [put]. *)
From S2P Require Import Prelude.
From S2P Require Import Layout.
From S2P Require Import Kalloc.
From S2P Require Import PageTable.
From S2P Require Import BufLru.
From S2P Require Import Bcache.
From S2P Require Import Log.
From S2P Require Import Fs.

(** ** Paths

    A path is a NUL-terminated byte string; indexing past its end panics. *)
Definition SLASH : Z := 47.

Section paths.
Context {S : Type}.
Definition path_at (path : list Z) (cur : nat) : M S Z :=
  unwrap (path !! cur) "index out of bounds".
(** [while p(path[cur]) { cur += 1 }] *)
Fixpoint skip_while (fuel : nat) (p : Z → bool) (path : list Z) (cur : nat) : M S nat :=
  match fuel with
  | O => hang
  | Datatypes.S fuel' =>
    c ← path_at path cur;
    if p c then skip_while fuel' p path (Datatypes.S cur) else mret cur
  end.

Definition is_slash (c : Z) : bool := c =? SLASH.
Definition in_name (c : Z) : bool := negb (c =? SLASH) && negb (c =? 0).

(** The next offset and the name found, 0 at the end of the path. *)
Definition skip_path (path : list Z) (cur : nat) (name : list Z) : M S (nat * list Z) :=
  let fuel := Datatypes.S (length path) in
  cur ← skip_while fuel is_slash path cur;
  c ← path_at path cur;
  if c =? 0 then mret (0%nat, name) else
  let start := cur in
  cur ← skip_while fuel in_name path cur;
  let count := (cur - start)%nat in
  assert (negb (Z.to_nat DIRSIZ <=? count)%nat) "assertion failed: false" ;;
  let name' := take count (drop start path) ++ [0] ++ drop (Datatypes.S count) name in
  cur ← skip_while fuel is_slash path cur;
  mret (cur, name').
End paths.

(** [name.iter().zip(dir_entry.name)]: equal up to and including a NUL. *)
Fixpoint name_match (a b : list Z) : bool :=
  match a, b with
  | x :: a', y :: b' => if negb (x =? y) then false else if y =? 0 then true else name_match a' b'
  | _, _ => false
  end.

(** The first slot of the cache that satisfies [p]. *)
Definition find_slot (p : InodeMeta → bool) (ms : list InodeMeta) : option nat :=
  fst <$> list_find (λ m, p m = true) ms.

Section icache.
Context {D S : Type} `{!BlockDev D} (dv : Z) `{!BufferCache D S dv} `{!BitField}.
Abbreviation FS := (M (fsst S)).

(** ** Locks and references *)

(** The sleep lock of a slot; a caller that has to wait is blocked. *)
Definition slot_lock (i : nat) : FS InodeData :=
  d ← idata_at i;
  if id_locked d then hang else put_idata i (id_set_locked d true) ;; mret (id_set_locked d true).
Definition slot_unlock (i : nat) : FS unit :=
  d ← idata_at i; put_idata i (id_set_locked d false).

(** [Inode::lock] and the drop of its guard. *)
Definition ilock (ip : Inode) : FS unit :=
  d ← slot_lock (index ip);
  if id_valid d then mret tt else
  r ← find_inode dv (i_dev ip) (i_inum ip);
  let '(buf, _, dn) := r in
  bdrop dv buf ;;
  put_idata (index ip) (mkIdata true (i_dev ip) (i_inum ip) dn true) ;;
  if bool_decide (itype dn = Empty)
  then panic "inode lock: trying to lock an inode whose type is empty" else mret tt.
Definition iunlock (ip : Inode) : FS unit := slot_unlock (index ip).

Definition dup (ip : Inode) : FS Inode :=
  m ← imeta_at (index ip);
  n ← uadd 64 (refs m) 1;
  put_imeta (index ip) (mkImeta (im_dev m) (im_blockno m) (im_inum m) n) ;;
  mret ip.

Definition unref (i : nat) : FS unit :=
  m ← imeta_at i;
  n ← usub 64 (refs m) 1;
  put_imeta i (mkImeta (im_dev m) (im_blockno m) (im_inum m) n).

(** [put], run by the drop of an [Inode]. *)
Definition put (ip : Inode) : FS unit :=
  let i := index ip in
  m ← imeta_at i;
  if refs m =? 1 then
    d ← slot_lock i;
    if negb (id_valid d) || (0 <? nlink (dinode d)) then
      put_idata i (id_set_valid d false) ;;
      slot_unlock i ;;
      unref i
    else
      put_dinode i (d_set_itype (dinode d) Empty) ;;
      truncate dv i (i_dev ip) ;;
      d ← idata_at i;
      put_idata i (id_set_valid d false) ;;
      slot_unlock i ;;
      unref i
  else unref i.

Definition get (dev inum : Z) : FS Inode :=
  s ← Prelude.get;
  match find_slot (λ m, (im_inum m =? inum) && (0 <? refs m) && (im_dev m =? dev)) (imetas s) with
  | Some idx =>
    m ← imeta_at idx;
    n ← uadd 64 (refs m) 1;
    put_imeta idx (mkImeta (im_dev m) (im_blockno m) (im_inum m) n) ;;
    mret (mkInode dev inum idx)
  | None =>
    match find_slot (λ m, refs m =? 0) (imetas s) with
    | Some idx =>
      m ← imeta_at idx;
      put_imeta idx (mkImeta dev (im_blockno m) inum 1) ;;
      d ← slot_lock idx;
      assert (negb (id_valid d)) "Empty cache is valid here" ;;
      slot_unlock idx ;;
      mret (mkInode dev inum idx)
    | None => panic "inode get: not enough cache."
    end
  end.

(** [InodeCache::alloc] *)
Fixpoint icache_alloc_loop (dev : Z) (t : InodeType) (inums : list Z) : FS (option Inode) :=
  match inums with
  | [] => mret None
  | inum :: rest =>
    r ← find_inode dv dev inum;
    let '(buf, off, d) := r in
    match DiskInode.try_alloc d t with
    | Some d' =>
      set_inode dv buf off d' ;;
      log_write dv buf ;;
      ip ← get dev inum;
      mret (Some ip)
    | None => bdrop dv buf ;; icache_alloc_loop dev t rest
    end
  end.
Definition icache_alloc (dev : Z) (t : InodeType) : FS (option Inode) :=
  r ← read_inode; icache_alloc_loop dev t (seqZ 1 (snd r)).

(** ** Directories *)

(** The offsets [(from..size).step_by(size_of::<DirEntry>())]. *)
Definition dirent_offsets (from size : Z) : list Z :=
  (λ k, from + k * DIRENT_SIZE) <$> seqZ 0 (Z.of_nat (step_count from size DIRENT_SIZE)).
Definition dirent_at (i : nat) (off : Z) (msg : string) : FS DirEntry :=
  r ← iread dv i Kernel 0 off DIRENT_SIZE;
  match r with
  | Ok bs => mret (DirEntry.of_bytes bs)
  | Err _ => panic msg
  end.

Fixpoint dir_lookup_loop (i : nat) (name : list Z) (offs : list Z) : FS (option Inode) :=
  match offs with
  | [] => mret None
  | off :: offs' =>
    e ← dirent_at i off "Cannot read entry in this dir";
    if de_inum e =? 0 then dir_lookup_loop i name offs' else
    if name_match name (de_name e) then
      d ← idata_at i;
      ip ← get (id_dev d) (de_inum e);
      mret (Some ip)
    else dir_lookup_loop i name offs'
  end.
Definition dir_lookup (i : nat) (name : list Z) : FS (option Inode) :=
  d ← idata_at i;
  assert (bool_decide (itype (dinode d) = Directory)) "dirlookup: inode is not a directory" ;;
  dir_lookup_loop i name (dirent_offsets 0 (dsize (dinode d))).

(** The loop of [dir_link]: where the new entry goes. *)
Fixpoint dir_link_loop (i : nat) (entry_offset : Z) (offs : list Z) : FS Z :=
  match offs with
  | [] => mret entry_offset
  | off :: offs' =>
    e ← dirent_at i off "Cannot read entry in this dir";
    if de_inum e =? 0 then mret (entry_offset + DIRENT_SIZE)
    else dir_link_loop i (entry_offset + DIRENT_SIZE) offs'
  end.
Definition dir_link (i : nat) (name : list Z) (inum : Z) : FS (result unit) :=
  d ← idata_at i;
  assert (bool_decide (itype (dinode d) = Directory)) "dirlookup: inode is not a directory" ;;
  entry_offset ← dir_link_loop i 0 (dirent_offsets 0 (dsize (dinode d)));
  assert (Z.of_nat (length name) <=? DIRSIZ) "range end index out of range for slice" ;;
  let e := mkDirent (wrap 16 inum)
             (name ++ replicate (Z.to_nat DIRSIZ - length name) 0) in
  r ← iwrite dv i Kernel (DirEntry.to_bytes e) 0 (wrap 32 entry_offset) DIRENT_SIZE;
  mret (match r with Ok _ => Ok tt | Err m => Err m end).

Fixpoint is_dir_empty_loop (i : nat) (offs : list Z) : FS bool :=
  match offs with
  | [] => mret false
  | off :: offs' =>
    e ← dirent_at i off "is_dir_empty: failed to read dir content";
    if negb (de_inum e =? 0) then mret true else is_dir_empty_loop i offs'
  end.
Definition is_dir_empty (i : nat) : FS bool :=
  d ← idata_at i;
  is_dir_empty_loop i (dirent_offsets (2 * DIRENT_SIZE) (dsize (dinode d))).

(** ** Path resolution *)
Fixpoint namex_loop (fuel : nat) (path : list Z) (is_parent : bool) (ip : Inode) (cur : nat)
    (name : list Z) : FS (option Inode * list Z) :=
  match fuel with
  | O => hang
  | Datatypes.S fuel' =>
    r ← skip_path path cur name;
    let '(cur, name) := r in
    if (cur =? 0)%nat then
      if is_parent then put ip ;; mret (None, name) else mret (Some ip, name)
    else
    ilock ip ;;
    d ← idata_at (index ip);
    if negb (bool_decide (itype (dinode d) = Directory))
    then iunlock ip ;; put ip ;; mret (None, name) else
    c ← (if is_parent then path_at path cur else mret 1);
    if c =? 0 then iunlock ip ;; mret (Some ip, name) else
    r ← dir_lookup (index ip) name;
    match r with
    | Some next => iunlock ip ;; put ip ;; namex_loop fuel' path is_parent next cur name
    | None => iunlock ip ;; put ip ;; mret (None, name)
    end
  end.
Definition namex (path name : list Z) (is_parent : bool) : FS (option Inode * list Z) :=
  c ← path_at path 0;
  ip ← (if c =? SLASH then get ROOTDEV ROOTINUM
        else s ← Prelude.get; cwd ← unwrap (cur_cwd s) PageTable.unwrap_msg; dup cwd);
  namex_loop (Datatypes.S (length path)) path is_parent ip 0 name.
Definition no_name : list Z := replicate (Z.to_nat DIRSIZ) 0.
Definition namei (path : list Z) : FS (option Inode) :=
  r ← namex path no_name false; mret (fst r).
Definition namei_parent (path name : list Z) : FS (option Inode * list Z) := namex path name true.

(** ** Creation *)

(** Guards and references are dropped in the order of the source: the guard
    of the new inode, the inode, the guard of the directory, the directory. *)
Definition create_dots (ip : Inode) : FS (result unit) :=
  d ← idata_at (index ip);
  put_dinode (index ip) (d_set_nlink (dinode d) (nlink (dinode d) + 1)) ;;
  update dv (index ip) ;;
  r ← dir_link (index ip) [46] (i_inum ip);
  match r with
  | Err m => mret (Err m)
  | Ok _ => dir_link (index ip) [46; 46] (i_inum ip)
  end.
Definition create (path : list Z) (t : InodeType) (maj min : Z) : FS (result Inode) :=
  r ← namei_parent path no_name;
  let name := snd r in
  dp ← unwrap (fst r) PageTable.unwrap_msg;
  ilock dp ;;
  found ← dir_lookup (index dp) name;
  match found with
  | Some ip =>
    iunlock dp ;;
    ilock ip ;;
    d ← idata_at (index ip);
    if (bool_decide (itype (dinode d) = Device) || bool_decide (itype (dinode d) = File))
       && bool_decide (t = File)
    then iunlock ip ;; put dp ;; mret (Ok ip)
    else iunlock ip ;; put ip ;; put dp ;; mret (Err "create: unmatched type")
  | None =>
    dd ← idata_at (index dp);
    inum ← dinode_alloc dv (id_dev dd) t;
    ip ← get (id_dev dd) inum;
    ilock ip ;;
    d ← idata_at (index ip);
    put_dinode (index ip)
      (mkDinode t maj min 1 (dsize (dinode d)) (addrs (dinode d))) ;;
    update dv (index ip) ;;
    r ← (if bool_decide (t = Directory) then create_dots ip else mret (Ok tt));
    match r with
    | Err m => iunlock ip ;; put ip ;; iunlock dp ;; put dp ;; mret (Err m)
    | Ok _ =>
      d ← idata_at (index ip);
      r ← dir_link (index dp) name (id_inum d);
      match r with
      | Err _ => panic "parent inode fail to link"
      | Ok _ => iunlock ip ;; iunlock dp ;; put dp ;; mret (Ok ip)
      end
    end
  end.
End icache.
