(* ===== verification/IcacheFacts.v ===== *)
(** * Inode references, directories and paths

    The table of inodes counts the outstanding references and holds each
    inode in one slot; lookups find the first matching entry of a directory;
    paths are split at their separators. *)
From S2P Require Import Prelude.
From S2P Require Import Layout.
From S2P Require Import Kalloc.
From S2P Require Import PageTable.
From S2P Require Import BufLru.
From S2P Require Import Bcache.
From S2P Require Import BcacheFacts.
From S2P Require Import Log.
From S2P Require Import LogFacts.
From S2P Require Import LogSpec.
From S2P Require Import Fs.
From S2P Require Import FsFacts.
From S2P Require Import FsBitmap.
From S2P Require Import FsFile.
From S2P Require Import Icache.

Create HintDb keeps.

Section icache.
Context {D S : Type} `{!BlockDev D} (dv : Z) `{!BufferCache D S dv} `{!BitField}.
Implicit Types (s : fsst S).

(** ** Operations that leave the table alone *)
Definition keeps {A} (m : M (fsst S) A) : Prop :=
  ∀ s v s', m s = Done (v, s') → imetas s' = imetas s ∧ length (idatas s') = length (idatas s).

Lemma keeps_bind {A B} (m : M (fsst S) A) (k : A → M (fsst S) B) :
  keeps m → (∀ a, keeps (k a)) → keeps (m ≫= k).
Proof.
  intros Hm Hk s v s' Hr. apply bind_Done in Hr as (a & s1 & H1 & H2).
  destruct (Hm _ _ _ H1) as [<- <-]. by apply (Hk _ _ _ _ H2).
Qed.
Lemma keeps_ret {A} (x : A) : keeps (mret x).
Proof. intros s v s' [= <- <-]. done. Qed.
Lemma keeps_get {B} (k : fsst S → M (fsst S) B) :
  (∀ s0, keeps (k s0)) → keeps (Prelude.get ≫= k).
Proof. intros Hk s v s' Hr. by apply (Hk s s v s'). Qed.
Lemma keeps_gets {A} (f : fsst S → A) : keeps (gets f).
Proof. intros s v s' [= <- <-]. done. Qed.
Lemma keeps_unwrap {A} (o : option A) msg : keeps (unwrap o msg).
Proof. destruct o; [apply keeps_ret|by intros s v s']. Qed.
Lemma keeps_panic {A} msg : keeps (panic msg : M (fsst S) A).
Proof. by intros s v s'. Qed.
Lemma keeps_fault {A} : keeps (fault : M (fsst S) A).
Proof. by intros s v s'. Qed.
Lemma keeps_hang {A} : keeps (hang : M (fsst S) A).
Proof. by intros s v s'. Qed.
Lemma keeps_assert b msg : keeps (assert b msg).
Proof. destruct b; [apply keeps_ret|apply keeps_panic]. Qed.
Lemma keeps_on_log {A} (m : M (logst S) A) : keeps (on_log m).
Proof.
  intros s v s'. unfold on_log, zoom. destruct (m (fl s)) as [[a l]| | |]; [|done..].
  intros [= <- <-]. done.
Qed.
Lemma keeps_for_each {A} (xs : list A) (f : A → M (fsst S) unit) :
  (∀ x, keeps (f x)) → keeps (for_each xs f).
Proof.
  intros Hf. induction xs as [|x xs IH]; simpl; [apply keeps_ret|]. by apply keeps_bind.
Qed.
Lemma keeps_put_idata i x : keeps (put_idata (S := S) i x).
Proof. intros s v s' [= <- <-]. simpl. by rewrite length_insert. Qed.
Lemma keeps_uadd w x y : keeps (uadd (S := fsst S) w x y).
Proof. unfold uadd. destruct (_ <? _); [apply keeps_ret|apply keeps_panic]. Qed.
End icache.
#[export] Hint Resolve keeps_ret keeps_gets keeps_unwrap keeps_panic keeps_fault keeps_hang
  keeps_assert   keeps_on_log keeps_put_idata keeps_uadd : keeps.
Ltac keeps :=
  repeat match goal with
  | |- keeps (mbind _ Prelude.get) => apply keeps_get; intros ?
  | |- keeps (mbind _ _) => apply keeps_bind; [|intros ?]
  | |- keeps (for_each _ _) => apply keeps_for_each; intros ?
  | |- keeps (match ?x with _ => _ end) => destruct x
  | |- keeps _ => solve [auto 1 with keeps nocore]
  end.

Section keeps_ops.
Context {D S : Type} `{!BlockDev D} (dv : Z) `{!BufferCache D S dv} `{!BitField}.

Lemma keeps_idata_at i : keeps (idata_at (S := S) i).
Proof. unfold idata_at. keeps. Qed.
Lemma keeps_put_dinode i x : keeps (put_dinode (S := S) i x).
Proof. unfold put_dinode. apply keeps_bind; [apply keeps_idata_at|]. intros. keeps. Qed.
Hint Resolve keeps_idata_at keeps_put_dinode : keeps.
Lemma keeps_bread dev b : keeps (bread dv dev b).
Proof. unfold bread. keeps. Qed.
Lemma keeps_bdata b : keeps (bdata dv b).
Proof. unfold bdata. keeps. Qed.
Lemma keeps_bset b x : keeps (bset dv b x).
Proof. unfold bset. keeps. Qed.
Lemma keeps_bdrop b : keeps (bdrop dv b).
Proof. unfold bdrop. keeps. Qed.
Lemma keeps_log_write b : keeps (log_write dv b).
Proof. unfold log_write. keeps. Qed.
Hint Resolve keeps_bread keeps_bdata keeps_bset keeps_bdrop keeps_log_write : keeps.
Lemma keeps_bitmap_free dev b : keeps (bitmap_free dv dev b).
Proof. unfold bitmap_free, read_bmp. keeps. Qed.
Lemma keeps_find_inode dev inum : keeps (find_inode dv dev inum).
Proof. unfold find_inode, locate_inode. keeps. Qed.
Lemma keeps_set_inode b off d : keeps (set_inode dv b off d).
Proof. unfold set_inode. keeps. Qed.
Hint Resolve keeps_bitmap_free keeps_find_inode keeps_set_inode : keeps.
Lemma keeps_update i : keeps (update dv i).
Proof. unfold update. keeps. Qed.
Lemma keeps_truncate_direct i dev n : keeps (truncate_direct dv i dev n).
Proof. unfold truncate_direct. keeps. Qed.
Hint Resolve keeps_update keeps_truncate_direct : keeps.
Lemma keeps_truncate i dev : keeps (truncate dv i dev).
Proof. unfold truncate. keeps. Qed.
End keeps_ops.
#[export] Hint Resolve keeps_truncate keeps_idata_at keeps_put_dinode keeps_find_inode
  keeps_bdrop : keeps.

(** ** Counting references *)
Section counting.
Context {D S : Type} `{!BlockDev D} (dv : Z) `{!BufferCache D S dv} `{!BitField}.
Implicit Types (s : fsst S) (hs : list Inode) (m : InodeMeta).

Definition handles_of (i : nat) hs : Z := Z.of_nat (length (filter (λ h, index h = i) hs)).
Definition im_add m (n : Z) : InodeMeta := mkImeta (im_dev m) (im_blockno m) (im_inum m) (refs m + n).

Record iinv s hs : Prop := {
  ii_len : length (idatas s) = length (imetas s);
  ii_refs i m : imetas s !! i = Some m → refs m = handles_of i hs;
  ii_key h : h ∈ hs → ∃ m, imetas s !! index h = Some m ∧ im_dev m = i_dev h ∧ im_inum m = i_inum h;
  ii_uniq i j mi mj : imetas s !! i = Some mi → imetas s !! j = Some mj → 0 < refs mi → 0 < refs mj →
    im_dev mi = im_dev mj → im_inum mi = im_inum mj → i = j
}.

Lemma handles_nonneg i hs : 0 ≤ handles_of i hs.
Proof. unfold handles_of. lia. Qed.
Lemma handles_cons i h hs :
  handles_of i (h :: hs) = (if decide (index h = i) then 1 else 0) + handles_of i hs.
Proof. unfold handles_of. rewrite filter_cons. case_decide; simpl; lia. Qed.
Lemma handles_del i h h1 h2 :
  handles_of i (h1 ++ h :: h2) = (if decide (index h = i) then 1 else 0) + handles_of i (h1 ++ h2).
Proof.
  unfold handles_of. rewrite !filter_app, filter_cons, !length_app.
  case_decide; simpl; lia.
Qed.
Lemma handles_pos h hs : h ∈ hs → 0 < handles_of (index h) hs.
Proof.
  intros Hh. apply list_elem_of_split in Hh as (h1 & h2 & ->). rewrite handles_del.
  rewrite decide_True by done. pose proof (handles_nonneg (index h) (h1 ++ h2)). lia.
Qed.

(** One slot gains or loses references. *)
Lemma iinv_change s s' hs hs' i m n :
  iinv s hs → imetas s !! i = Some m → imetas s' = <[i := im_add m n]> (imetas s) →
  length (idatas s') = length (idatas s) → 0 < refs m →
  (∀ j, handles_of j hs' = handles_of j hs + (if decide (j = i) then n else 0)) →
  (∀ h, h ∈ hs' → h ∈ hs ∨ index h = i ∧ im_dev m = i_dev h ∧ im_inum m = i_inum h) →
  iinv s' hs'.
Proof.
  intros [I1 I2 I3 I4] Hi E El Hpos Hn Hh.
  assert (∀ j mj, imetas s' !! j = Some mj → ∃ mj0, imetas s !! j = Some mj0 ∧
    im_dev mj = im_dev mj0 ∧ im_inum mj = im_inum mj0 ∧ (0 < refs mj0 ∨ refs mj = refs mj0)) as Hold.
  { intros j mj Hj. rewrite E in Hj. destruct (decide (i = j)) as [<-|Hne].
    - rewrite list_lookup_insert_eq in Hj by (by eapply lookup_lt_Some). simplify_eq.
      exists m. by auto.
    - rewrite list_lookup_insert_ne in Hj by done. exists mj. by auto. }
  split.
  - rewrite El, I1, E. by rewrite length_insert.
  - intros j mj Hj. rewrite Hn. rewrite E in Hj. case_decide as Ej.
    + subst j. rewrite list_lookup_insert_eq in Hj by (by eapply lookup_lt_Some). simplify_eq.
      simpl. by rewrite (I2 i m Hi).
    + rewrite list_lookup_insert_ne in Hj by done. rewrite (I2 j mj Hj). lia.
  - intros h Hin. destruct (Hh h Hin) as [Hin'|(<- & ? & ?)].
    + destruct (I3 h Hin') as (m0 & Hm0 & ? & ?). rewrite E. destruct (decide (i = index h)) as [->|].
      * rewrite list_lookup_insert_eq by (by eapply lookup_lt_Some). simplify_eq. by eexists.
      * rewrite list_lookup_insert_ne by done. eauto.
    + rewrite E, list_lookup_insert_eq by (by eapply lookup_lt_Some). by eexists.
  - intros j k mj mk Hj Hk Pj Pk Ed En.
    destruct (Hold j mj Hj) as (mj0 & Hj0 & D1 & D2 & D3).
    destruct (Hold k mk Hk) as (mk0 & Hk0 & D4 & D5 & D6).
    apply (I4 j k mj0 mk0); [done|done|lia|lia|congruence|congruence].
Qed.

(** A free slot is taken. *)
Lemma iinv_claim s s' hs i m dev inum :
  iinv s hs → imetas s !! i = Some m → refs m = 0 →
  (∀ j mj, imetas s !! j = Some mj → 0 < refs mj → im_dev mj = dev → im_inum mj = inum → False) →
  imetas s' = <[i := mkImeta dev (im_blockno m) inum 1]> (imetas s) →
  length (idatas s') = length (idatas s) → iinv s' (mkInode dev inum i :: hs).
Proof.
  intros [I1 I2 I3 I4] Hi Hfree Hno E El.
  assert (∀ h, h ∈ hs → index h ≠ i) as Hne.
  { intros h Hin <-. pose proof (handles_pos h hs Hin). pose proof (I2 _ _ Hi). lia. }
  assert (i < length (imetas s))%nat as Hlt by (by eapply lookup_lt_Some).
  split.
  - rewrite El, I1, E. by rewrite length_insert.
  - intros j mj Hj. rewrite handles_cons. simpl index. rewrite E in Hj. case_decide as Ej.
    + subst j. rewrite list_lookup_insert_eq in Hj by done. simplify_eq. simpl.
      rewrite <- (I2 i m Hi). lia.
    + rewrite list_lookup_insert_ne in Hj by done. by rewrite (I2 j mj Hj).
  - intros h. rewrite elem_of_cons, E. intros [->|Hin].
    + simpl. rewrite list_lookup_insert_eq by done. by eexists.
    + rewrite list_lookup_insert_ne by (by apply not_eq_sym, Hne). by apply I3.
  - intros j k mj mk Hj Hk Pj Pk Ed En. rewrite E in Hj, Hk.
    destruct (decide (i = j)) as [<-|Hj']; destruct (decide (i = k)) as [<-|Hk']; [done|..].
    + rewrite list_lookup_insert_eq in Hj by done. rewrite list_lookup_insert_ne in Hk by done.
      simplify_eq. simpl in *. destruct (Hno k mk); [done|done|by rewrite <- Ed|by rewrite <- En].
    + rewrite list_lookup_insert_eq in Hk by done. rewrite list_lookup_insert_ne in Hj by done.
      simplify_eq. simpl in *. by destruct (Hno j mj).
    + rewrite list_lookup_insert_ne in Hj by done. rewrite list_lookup_insert_ne in Hk by done.
      by apply (I4 j k mj mk).
Qed.

(** ** The operations *)
Lemma find_slot_Some p ms i :
  find_slot p ms = Some i → ∃ m, ms !! i = Some m ∧ p m = true.
Proof.
  unfold find_slot. intros [[i' m] [Hf ->]]%fmap_Some. apply list_find_Some in Hf as (? & ? & _).
  eauto.
Qed.
Lemma find_slot_None p ms : find_slot p ms = None → ∀ i m, ms !! i = Some m → p m = false.
Proof.
  unfold find_slot. intros Hf%fmap_None i m Hi. apply list_find_None in Hf.
  apply (Forall_lookup_1 _ _ _ _ Hf) in Hi. by apply not_true_is_false.
Qed.

Lemma imeta_at_Done i s m s' : imeta_at i s = Done (m, s') → imetas s !! i = Some m ∧ s' = s.
Proof.
  unfold imeta_at. rewrite bind_get. destruct (imetas s !! i); [|done]. by intros [= <- <-].
Qed.
Lemma uadd_Done {T} w x y (s : T) v (s' : T) : uadd w x y s = Done (v, s') → v = x + y ∧ s' = s.
Proof. unfold uadd. destruct (_ <? _); [|done]. by intros [= <- <-]. Qed.
Lemma usub_Done {T} w x y (s : T) v (s' : T) :
  usub w x y s = Done (v, s') → v = x - y ∧ y ≤ x ∧ s' = s.
Proof. unfold usub. destruct (Z.leb_spec y x); [|done]. by intros [= <- <-]. Qed.

Lemma get_inv s hs dev inum ip s' :
  iinv s hs → get dev inum s = Done (ip, s') → iinv s' (ip :: hs).
Proof.
  intros I Hg. unfold get in Hg. rewrite bind_get in Hg.
  destruct (find_slot (λ m, (im_inum m =? inum) && _ && _) (imetas s)) as [i|] eqn:E1.
  - apply find_slot_Some in E1 as (m & Hi & Hm).
    apply andb_true_iff in Hm as [[Hn Hp]%andb_true_iff Hd].
    apply Z.eqb_eq in Hn, Hd. apply Z.ltb_lt in Hp.
    minv Hg. apply imeta_at_Done in Hg0 as [Hi' ->]. assert (a = m) as -> by congruence.
    minv Hg. apply uadd_Done in Hg0 as [-> ->]. minv Hg. injection Hg0 as <- <-.
    injection Hg as <- <-.
    apply (iinv_change s _ hs _ i m 1); try done.
    + intros j. rewrite handles_cons. simpl. repeat case_decide; subst; simpl; try done; lia.
    + intros h. rewrite elem_of_cons. intros [->|]; [right|by left]. done.
  - destruct (find_slot (λ m, refs m =? 0) (imetas s)) as [i|] eqn:E2; [|done].
    apply find_slot_Some in E2 as (m & Hi & Hm). apply Z.eqb_eq in Hm.
    minv Hg. apply imeta_at_Done in Hg0 as [Hi' ->]. assert (a = m) as -> by congruence.
    minv Hg. injection Hg0 as <- <-. set (s1 := mkFsst _ _ _ _ _ _ _ _) in Hg.
    assert (keeps (d ← slot_lock (S := S) i; assert (negb (id_valid d)) "Empty cache is valid here" ;;
      slot_unlock i ;; mret (mkInode dev inum i))) as Hk.
    { unfold slot_lock, slot_unlock. keeps. }
    destruct (Hk s1 ip s' Hg) as [Em El].
    assert (ip = mkInode dev inum i) as ->.
    { do 3 minv Hg. by injection Hg as <- <-. }
    apply (iinv_claim s s' hs i m dev inum); try done.
    intros j mj Hj Hp Hdj Hnj. pose proof (find_slot_None _ _ E1 j mj Hj) as Hf. simpl in Hf.
    by rewrite (proj2 (Z.eqb_eq _ _) Hnj), (proj2 (Z.eqb_eq _ _) Hdj), (proj2 (Z.ltb_lt _ _) Hp)
      in Hf.
Qed.

Lemma dup_inv s hs ip ip' s' :
  iinv s hs → ip ∈ hs → dup ip s = Done (ip', s') → iinv s' (ip' :: hs).
Proof.
  intros I Hin Hg. unfold dup in Hg. destruct (ii_key _ _ I ip Hin) as (m & Hi & Hd & Hn).
  minv Hg. apply imeta_at_Done in Hg0 as [Hi' ->]. assert (a = m) as -> by congruence.
  minv Hg. apply uadd_Done in Hg0 as [-> ->]. minv Hg. injection Hg0 as <- <-. injection Hg as <- <-.
  apply (iinv_change s _ hs _ (index ip) m 1); try done.
  - rewrite (ii_refs _ _ I _ _ Hi). by apply handles_pos.
  - intros j. rewrite handles_cons. repeat case_decide; subst; simpl; try done; lia.
  - intros h. rewrite elem_of_cons. intros [->|]; [by right|by left].
Qed.

(** Operations that end by giving up one reference to slot [i]. *)
Definition gives_up (i : nat) (op : M (fsst S) unit) : Prop :=
  ∀ s s', op s = Done (tt, s') → ∃ m, imetas s !! i = Some m ∧
    imetas s' = <[i := im_add m (-1)]> (imetas s) ∧ length (idatas s') = length (idatas s).
Lemma gives_up_bind {A} i (op : M (fsst S) A) k :
  keeps op → (∀ x, gives_up i (k x)) → gives_up i (op ≫= k).
Proof.
  intros Ho Hk s s' Hr. apply bind_Done in Hr as (x & s1 & H1 & H2).
  destruct (Ho _ _ _ H1) as [Em El]. destruct (Hk x _ _ H2) as (m & Hm & E & E').
  rewrite Em in Hm, E. rewrite El in E'. eauto.
Qed.
Lemma gives_up_unref i : gives_up i (unref i).
Proof.
  intros s s' Hr. unfold unref in Hr. minv Hr. apply imeta_at_Done in Hr0 as [Hi ->].
  minv Hr. apply usub_Done in Hr0 as (-> & _ & ->). injection Hr as <-. exists a. by rewrite Hi.
Qed.
Lemma keeps_imeta_at i : keeps (imeta_at (S := S) i).
Proof. unfold imeta_at. keeps. Qed.
Lemma put_gives_up ip : gives_up (index ip) (put dv ip).
Proof.
  unfold put, slot_lock, slot_unlock.
  pose proof (keeps_imeta_at (index ip)) as Hm.
  repeat match goal with
  | |- gives_up _ (mbind _ _) => apply gives_up_bind; [keeps|intros ?]
  | |- gives_up _ (match ?x with _ => _ end) => destruct x
  | |- gives_up _ (unref _) => apply gives_up_unref
  end; try done.
Qed.

Lemma put_inv s h1 ip h2 s' :
  iinv s (h1 ++ ip :: h2) → put dv ip s = Done (tt, s') → iinv s' (h1 ++ h2).
Proof.
  intros I Hp. destruct (put_gives_up ip s s' Hp) as (m & Hi & E & El).
  assert (ip ∈ h1 ++ ip :: h2) as Hin by (rewrite elem_of_app, elem_of_cons; auto).
  apply (iinv_change s s' (h1 ++ ip :: h2) _ (index ip) m (-1)); try done.
  - rewrite (ii_refs _ _ I _ _ Hi). by apply handles_pos.
  - intros j. rewrite handles_del. repeat case_decide; subst; simpl; try done; lia.
  - intros h. rewrite !elem_of_app, elem_of_cons. intros [|]; left; auto.
Qed.

(** Reachable states: references are made by [get] and [dup], given up by
    [put], and any operation that leaves the table alone may run between. *)
Inductive icreach (s0 : fsst S) : fsst S → list Inode → Prop :=
  | ic_init : icreach s0 s0 []
  | ic_get s hs dev inum ip s' :
      icreach s0 s hs → get dev inum s = Done (ip, s') → icreach s0 s' (ip :: hs)
  | ic_dup s hs ip ip' s' :
      icreach s0 s hs → ip ∈ hs → dup ip s = Done (ip', s') → icreach s0 s' (ip' :: hs)
  | ic_put s h1 ip h2 s' :
      icreach s0 s (h1 ++ ip :: h2) → put dv ip s = Done (tt, s') → icreach s0 s' (h1 ++ h2)
  | ic_other {A} s hs (op : M (fsst S) A) v s' :
      icreach s0 s hs → keeps op → op s = Done (v, s') → icreach s0 s' hs.

Lemma iinv_init s :
  Forall (λ m, refs m = 0) (imetas s) → length (idatas s) = length (imetas s) → iinv s [].
Proof.
  intros Hz Hl. split; [done| | |].
  - intros i m Hi. by apply (Forall_lookup_1 _ _ _ _ Hz Hi).
  - intros h Hh. by apply not_elem_of_nil in Hh.
  - intros i j mi mj Hi Hj Hp. pose proof (Forall_lookup_1 _ _ _ _ Hz Hi). simpl in *. lia.
Qed.
Lemma icreach_inv s0 s hs :
  Forall (λ m, refs m = 0) (imetas s0) → length (idatas s0) = length (imetas s0) →
  icreach s0 s hs → iinv s hs.
Proof.
  intros Hz Hl. induction 1 as [| | | |? s hs op v s' _ IH Hk Hop].
  - by apply iinv_init.
  - by eapply get_inv.
  - by eapply dup_inv.
  - by eapply put_inv.
  - destruct (Hk _ _ _ Hop) as [Em El]. destruct IH as [I1 I2 I3 I4]. rewrite <- Em in *.
    split; [by rewrite El|exact I2|exact I3|exact I4].
Qed.

(** C31. The inode table counts references. Whatever sequence of [get],
    [clone], [put] and other operations has run since the table was empty:
    the count of every slot is the number of references to it in existence,
    a slot with references names the inode they stand for, and any two
    references to one inode are to the same slot, hence behind one lock. *)
Theorem inode_refs_counted s0 s hs :
  Forall (λ m, refs m = 0) (imetas s0) → length (idatas s0) = length (imetas s0) →
  icreach s0 s hs →
  (∀ i m, imetas s !! i = Some m → refs m = handles_of i hs) ∧
  (∀ h, h ∈ hs → ∃ m, imetas s !! index h = Some m ∧ 0 < refs m ∧
     im_dev m = i_dev h ∧ im_inum m = i_inum h) ∧
  (∀ h h', h ∈ hs → h' ∈ hs → i_dev h = i_dev h' → i_inum h = i_inum h' → index h = index h').
Proof.
  intros Hz Hl Hr. pose proof (icreach_inv s0 s hs Hz Hl Hr) as I.
  assert (∀ h, h ∈ hs → ∃ m, imetas s !! index h = Some m ∧ 0 < refs m ∧
     im_dev m = i_dev h ∧ im_inum m = i_inum h) as Hkey.
  { intros h Hin. destruct (ii_key _ _ I h Hin) as (m & Hm & ? & ?). exists m.
    split_and!; [done| |done|done]. rewrite (ii_refs _ _ I _ _ Hm). by apply handles_pos. }
  split; [apply I|]. split; [exact Hkey|]. intros h h' Hh Hh' Ed En.
  destruct (Hkey h Hh) as (m & Hm & Pm & ? & ?). destruct (Hkey h' Hh') as (m' & Hm' & Pm' & ? & ?).
  apply (ii_uniq _ _ I _ _ m m'); congruence.
Qed.
End counting.

#[local] Existing Instance bits0.

(** Two references to inode 5, in slot 0. *)
Lemma inode_refs_counted_witness :
  ∃ s : fsst (bcache tdev), let ip := mkInode 1 5 0 in
    icreach (BufferCache0 := bc1) 1 fs1 s [ip; ip] ∧
    ∀ i m, imetas s !! i = Some m → refs m = handles_of i [ip; ip].
Proof.
  eexists. match goal with |- let ip := ?x in _ => set (ip := x) end. cbv zeta.
  assert (icreach (BufferCache0 := bc1) 1 fs1
    (mkFsst (mkLogst g0 (BCache.new t0)) super0 true
      (<[0%nat := mkImeta 1 0 5 2]> (replicate 50 InodeMeta.new))
      (<[3%nat := idata5]> (replicate 50 InodeData.new)) (mkMem ∅ None ∅) None None) [ip; ip]) as Hr.
  { apply (ic_dup (BufferCache0 := bc1) 1 fs1
      (mkFsst (mkLogst g0 (BCache.new t0)) super0 true
        (<[0%nat := mkImeta 1 0 5 1]> (replicate 50 InodeMeta.new))
        (<[3%nat := idata5]> (replicate 50 InodeData.new)) (mkMem ∅ None ∅) None None) [ip] ip).
    - apply (ic_get _ _ fs1 [] 1 5); [apply ic_init|reflexivity].
    - apply list_elem_of_here.
    - reflexivity. }
  split; [exact Hr|].
  apply (inode_refs_counted (BufferCache0 := bc1) 1 fs1 _ _).
  - apply (bool_decide_unpack _). by vm_compute.
  - reflexivity.
  - exact Hr.
Defined.
