(* ===== verification/DirFacts.v ===== *)
(** * Paths and directories

    Splitting a path at its separators, and what lookups and insertions find
    in a directory. *)
From S2P Require Import Prelude.
From S2P Require Import Layout.
From S2P Require Import Kalloc.
From S2P Require Import PageTable.
From S2P Require Import BufLru.
From S2P Require Import Bcache.
From S2P Require Import BcacheFacts.
From S2P Require Import Log.
From S2P Require Import LogFacts.
From S2P Require Import LogSpec.
From S2P Require Import Fs.
From S2P Require Import FsFacts.
From S2P Require Import FsBitmap.
From S2P Require Import FsFile.
From S2P Require Import Icache.

(** ** Paths *)
Section paths.
Context {S : Type}.
Implicit Types (path name nm rest : list Z) (s : S).

Lemma path_at_run path cur c s : path !! cur = Some c → path_at path cur s = Done (c, s).
Proof. intros E. unfold path_at. by rewrite E. Qed.

(** The loop stops after the longest run of characters that satisfy [p]. *)
Lemma skip_while_run p path xs c rest s fuel : ∀ cur,
  drop cur path = xs ++ c :: rest → Forall (λ x, p x = true) xs → p c = false →
  (length xs < fuel)%nat → skip_while fuel p path cur s = Done ((cur + length xs)%nat, s).
Proof.
  revert xs. induction fuel as [|fuel IH]; intros xs cur E Hp Hc Hf; [lia|]. cbn [skip_while].
  assert (∀ x tl, drop cur path = x :: tl → path !! cur = Some x) as Hat.
  { intros x tl Hd. rewrite <- (Nat.add_0_r cur), <- lookup_drop, Hd. done. }
  destruct xs as [|x xs]; simpl in *.
  - mstep (path_at_run path cur c s (Hat _ _ E)). rewrite Hc, Nat.add_0_r. done.
  - apply Forall_cons in Hp as [Hx Hp]. mstep (path_at_run path cur x s (Hat _ _ E)). rewrite Hx.
    rewrite (IH xs (Datatypes.S cur)); [by rewrite Nat.add_succ_r| |done|done|lia].
    by rewrite <- Nat.add_1_r, <- drop_drop, E.
Qed.

Lemma slashes_run path n c rest s fuel cur :
  drop cur path = replicate n SLASH ++ c :: rest → c ≠ SLASH → (n < fuel)%nat →
  skip_while fuel is_slash path cur s = Done ((cur + n)%nat, s).
Proof.
  intros E Hc Hf. rewrite (skip_while_run is_slash path (replicate n SLASH) c rest); [|done|..].
  - by rewrite length_replicate.
  - by apply Forall_replicate.
  - by apply Z.eqb_neq.
  - by rewrite length_replicate.
Qed.

Lemma drop_length_lt path cur n xs c rest :
  drop cur path = xs ++ c :: rest → length xs = n → (n < Datatypes.S (length path))%nat.
Proof.
  intros E <-. assert (length (drop cur path) = length (xs ++ c :: rest)) as El by (by rewrite E).
  rewrite length_drop, length_app in El. simpl in El. lia.
Qed.

(** Splitting a path. From any position, [skip_path] skips the
    separators; at the end of the path it returns 0 and leaves the name
    buffer alone; otherwise it copies the characters up to the next separator
    or the end into the buffer, terminated, and returns the position of the
    component after it; a component of [DIRSIZ] characters or more panics. *)
Theorem skip_path_spec path cur name a tl s :
  drop cur path = replicate a SLASH ++ tl →
  (∀ rest, tl = 0 :: rest → skip_path path cur name s = Done ((0%nat, name), s)) ∧
  (∀ nm b c rest, tl = nm ++ replicate b SLASH ++ c :: rest → nm ≠ [] →
     Forall (λ x, in_name x = true) nm → c ≠ SLASH → (b = 0%nat → c = 0) →
     skip_path path cur name s =
       if (Z.to_nat DIRSIZ <=? length nm)%nat then Panic "assertion failed: false"
       else Done (((cur + a + length nm + b)%nat, nm ++ [0] ++ drop (Datatypes.S (length nm)) name), s)).
Proof.
  intros E. split.
  - intros rest ->. unfold skip_path.
    mstep (slashes_run path a 0 rest s (Datatypes.S (length path)) cur E ltac:(done)
      (drop_length_lt _ _ _ _ _ _ E (length_replicate _ _))).
    assert (path !! (cur + a)%nat = Some 0) as Hat.
    { rewrite <- lookup_drop, E, lookup_app_r; rewrite length_replicate; [|lia].
      by rewrite Nat.sub_diag. }
    by mstep (path_at_run path (cur + a) 0 s Hat).
  - intros nm b c rest -> Hne Hnm Hc Hb. destruct nm as [|x nm]; [done|]. unfold skip_path.
    assert (in_name x = true) as Hx by (by apply Forall_cons in Hnm as [? _]).
    unfold in_name in Hx. apply andb_true_iff in Hx as [Hx1 Hx2].
    apply negb_true_iff in Hx1, Hx2. pose proof Hx1 as Hxs. apply Z.eqb_neq in Hxs.
    simpl in E.
    mstep (slashes_run path a x _ s (Datatypes.S (length path)) cur E Hxs
      (drop_length_lt _ _ _ _ _ _ E (length_replicate _ _))).
    assert (drop (cur + a) path = (x :: nm) ++ replicate b SLASH ++ c :: rest) as E2.
    { rewrite <- drop_drop, E, drop_app_length'; [done|by rewrite length_replicate]. }
    assert (path !! (cur + a)%nat = Some x) as Hat.
    { rewrite <- (Nat.add_0_r (cur + a)), <- lookup_drop, E2. done. }
    mstep (path_at_run path (cur + a) x s Hat). rewrite Hx2.
    assert (∃ c' rest', replicate b SLASH ++ c :: rest = c' :: rest' ∧ in_name c' = false)
      as (c' & rest' & E3 & Hc').
    { destruct b as [|b]; simpl; [|by eexists _, _].
      exists c, rest. by rewrite Hb. }
    pose proof E2 as E2'. rewrite E3 in E2'.
    mstep (skip_while_run in_name path (x :: nm) c' rest' s (Datatypes.S (length path)) (cur + a)%nat
      E2' Hnm Hc' (drop_length_lt _ _ _ _ _ _ E2' eq_refl)).
    rewrite Nat.add_comm, Nat.add_sub. destruct (Z.to_nat DIRSIZ <=? length (x :: nm))%nat; [done|].
    rewrite bind_assert by done. rewrite (Nat.add_comm (length (x :: nm))).
    assert (drop (cur + a + length (x :: nm)) path = replicate b SLASH ++ c :: rest) as E4.
    { by rewrite <- drop_drop, E2, drop_app_length. }
    mstep (slashes_run path b c rest s (Datatypes.S (length path)) _ E4 Hc
      (drop_length_lt _ _ _ _ _ _ E4 (length_replicate _ _))).
    by rewrite E2, take_app_length.
Qed.
End paths.

(** The second component of [/usr//bin/ls]. *)
Lemma skip_path_spec_witness :
  let path := [47; 117; 115; 114; 47; 47; 98; 105; 110; 47; 108; 115; 0] in
  skip_path path 4 (replicate 14 0) tt = Done ((10%nat, [98; 105; 110; 0] ++ replicate 10 0), tt).
Proof.
  intros path.
  destruct (skip_path_spec path 4 (replicate 14 0) 2 [98; 105; 110; 47; 108; 115; 0] tt eq_refl)
    as [_ H].
  rewrite (H [98; 105; 110] 1%nat 108 [115; 0]); [reflexivity|reflexivity|done| |done|done].
  by repeat constructor.
Defined.

(** ** Names *)

(** Equal up to and including the first NUL of both. *)
Definition same_name (a b : list Z) : Prop :=
  ∃ p ra rb, a = p ++ 0 :: ra ∧ b = p ++ 0 :: rb ∧ 0 ∉ p.
Lemma name_match_spec a b : name_match a b = true ↔ same_name a b.
Proof.
  revert b. induction a as [|x a IH]; intros [|y b]; cbn [name_match].
  1-3: split; [done|]; intros (p & ra & rb & Ea & Eb & _); by destruct p.
  destruct (Z.eqb_spec x y) as [->|Hne]; simpl; [destruct (Z.eqb_spec y 0) as [->|H0]|].
  - split; [|done]. intros _. exists [], a, b. split_and!; [done..|apply not_elem_of_nil].
  - rewrite IH. split; intros (p & ra & rb & Ea & Eb & Hp).
    + exists (y :: p), ra, rb. subst. split_and!; [done..|]. rewrite elem_of_cons. naive_solver.
    + destruct p as [|z p]; simplify_eq/=. exists p, ra, rb. split_and!; [done..|].
      rewrite elem_of_cons in Hp. naive_solver.
  - split; [done|]. intros (p & ra & rb & Ea & Eb & _). destruct p; simplify_eq/=.
Qed.

(** ** Directories *)
Section dirs.
Context {D S : Type} `{!BlockDev D} `{!BlockDevLaws D} (dv : Z) `{!BufferCache D S dv}.
Implicit Types (s : fsst S) (a : acache D) (d : InodeData) (dn : DiskInode).

(** The entry at byte [off] of the directory, and all entries in order. *)
Definition entry_at a dn (off : Z) : DirEntry :=
  DirEntry.of_bytes ((λ k, default 0 (file_byte a dn (off + k))) <$> seqZ 0 DIRENT_SIZE).
Definition entries a dn : list DirEntry := entry_at a dn <$> dirent_offsets 0 (dsize dn).
(** A directory in slot [i], of whole entries in direct blocks. *)
Record dir_ok s a (i : nat) d : Prop := {
  dk_slot : idatas s !! i = Some d;
  dk_dev : id_dev d = dv;
  dk_type : itype (dinode d) = Directory;
  dk_map : mapped (dinode d) 0 (dsize (dinode d));
  dk_size : in_u 32 (dsize (dinode d));
  dk_whole : dsize (dinode d) mod DIRENT_SIZE = 0
}.

Lemma DIRENT_SIZE_pos : 0 < DIRENT_SIZE.
Proof. reflexivity. Qed.

Lemma dirent_at_run s a i d off msg :
  txn dv s a → blocks_ok a → dir_ok s a i d → 0 ≤ off → off + DIRENT_SIZE ≤ dsize (dinode d) →
  ∃ l, dirent_at dv i off msg s = Done (entry_at a (dinode d) off, with_fl l s) ∧
    txn dv (with_fl l s) a ∧ lg l = log_of s.
Proof.
  intros T Ha [K1 K2 K3 K4 K5 K6] H0 Hle. pose proof DIRENT_SIZE_pos.
  destruct (iread_run dv s a i d 0 off DIRENT_SIZE T Ha K1 K2) as (bs & l & E & T' & Eg & Hl & Hbs);
    [lia| |lia|done|].
  - destruct K4 as [_ Hm]. split; [done|]. intros k Hk. apply Hm. lia.
  - exists l. split; [|done]. unfold dirent_at. mstep E. unfold entry_at.
    enough (bs = (λ k, default 0 (file_byte a (dinode d) (off + k))) <$> seqZ 0 DIRENT_SIZE)
      as <- by done.
    apply list_eq. intros j. rewrite list_lookup_fmap.
    destruct (decide (Z.of_nat j < DIRENT_SIZE)) as [Hj|Hj].
    + rewrite lookup_seqZ_lt by lia. cbn [fmap option_fmap option_map].
      rewrite Z.add_0_l, <- Hbs by lia. rewrite Nat2Z.id.
      destruct (lookup_lt_is_Some_2 bs j) as [y Hy]; [lia|]. by rewrite Hy.
    + rewrite lookup_seqZ_ge by lia. apply lookup_ge_None. lia.
Qed.

Lemma step_count_exact n : 0 ≤ n → n mod DIRENT_SIZE = 0 →
  Z.of_nat (step_count 0 n DIRENT_SIZE) = n / DIRENT_SIZE.
Proof.
  intros H0 Hm. unfold step_count. pose proof (Z.div_mod n DIRENT_SIZE ltac:(done)) as Hd.
  rewrite Hm, Z.add_0_r in Hd. change DIRENT_SIZE with 16 in *.
  assert (0 ≤ n / 16) by (apply Z.div_pos; lia).
  rewrite Z2Nat.id by (apply Z.div_pos; lia).
  symmetry. apply (Z.div_unique _ 16 _ 15); lia.
Qed.
(** The offsets of the loops are those of the whole entries. *)
Lemma dirent_offsets_whole n :
  0 ≤ n → n mod DIRENT_SIZE = 0 →
  dirent_offsets 0 n = (λ k, k * DIRENT_SIZE) <$> seqZ 0 (n / DIRENT_SIZE).
Proof. intros H0 Hm. unfold dirent_offsets. by rewrite step_count_exact. Qed.
Lemma whole_range n off :
  0 ≤ n → n mod DIRENT_SIZE = 0 → off ∈ dirent_offsets 0 n → 0 ≤ off ∧ off + DIRENT_SIZE ≤ n.
Proof.
  intros H0 Hm. rewrite dirent_offsets_whole by done.
  intros (k & -> & Hk)%list_elem_of_fmap. apply elem_of_seqZ in Hk.
  pose proof (Z.div_mod n DIRENT_SIZE ltac:(done)). pose proof DIRENT_SIZE_pos. nia.
Qed.

Definition used (e : DirEntry) : bool := negb (de_inum e =? 0).
Definition hit (name : list Z) (e : DirEntry) : Prop := de_inum e ≠ 0 ∧ same_name name (de_name e).
#[global] Instance hit_dec name e : Decision (hit name e).
Proof.
  apply and_dec; [apply _|].
  destruct (name_match name (de_name e)) eqn:E; [left|right]; rewrite <- name_match_spec; congruence.
Defined.

Lemma dir_lookup_loop_run a i d name offs : ∀ s,
  txn dv s a → blocks_ok a → dir_ok s a i d →
  (∀ off, off ∈ offs → 0 ≤ off ∧ off + DIRENT_SIZE ≤ dsize (dinode d)) →
  ∃ l, txn dv (with_fl l s) a ∧ lg l = log_of s ∧
    dir_lookup_loop dv i name offs s =
      match list_find (hit name) (entry_at a (dinode d) <$> offs) with
      | Some (_, e) => (ip ← get dv (de_inum e); mret (Some ip)) (with_fl l s)
      | None => Done (None, with_fl l s)
      end.
Proof.
  induction offs as [|off offs IH]; intros s T Ha K Hoff; cbn [dir_lookup_loop].
  { exists (fl s). by rewrite with_fl_log. }
  destruct (Hoff off ltac:(left)) as [H0 H1].
  destruct (dirent_at_run s a i d off "Cannot read entry in this dir" T Ha K H0 H1)
    as (l1 & E1 & T1 & Eg1). mstep E1. set (e := entry_at a (dinode d) off).
  destruct (IH (with_fl l1 s) T1 Ha) as (l2 & T2 & Eg2 & E2).
  { by destruct K. }
  { intros o Ho. apply Hoff. by right. }
  change (with_fl l2 (with_fl l1 s)) with (with_fl l2 s) in *.
  assert (lg l2 = log_of s) as Eg by (rewrite Eg2; exact Eg1).
  cbn [fmap list_fmap list_find]. fold e.
  destruct (Z.eqb_spec (de_inum e) 0) as [Hz|Hnz].
  - rewrite decide_False by (by intros []). exists l2. split_and!; [done..|].
    rewrite E2. by destruct (list_find _ _) as [[]|].
  - destruct (name_match name (de_name e)) eqn:En.
    + exists l1. rewrite decide_True by (split; [done|by apply name_match_spec]).
      split_and!; [done..|]. unfold idata_at. rewrite bind_assoc, bind_get.
      destruct K as [K1 K2 _ _ _ _]. simpl idatas. rewrite K1, bind_unwrap, K2. done.
    + exists l2. rewrite decide_False.
      2:{ intros [_ Hs%name_match_spec]. congruence. }
      split_and!; [done..|]. rewrite E2. by destruct (list_find _ _) as [[]|].
Qed.

(** Lookup in a directory. [dir_lookup] returns a reference to the inode
    of the first entry that is in use and has the name, comparing up to the
    terminating NUL, and nothing if there is none; it changes no block. *)
Theorem dir_lookup_first s a i d name :
  txn dv s a → blocks_ok a → dir_ok s a i d →
  ∃ l, txn dv (with_fl l s) a ∧
    match list_find (hit name) (entries a (dinode d)) with
    | Some (_, e) =>
        dir_lookup dv i name s = (ip ← get dv (de_inum e); mret (Some ip)) (with_fl l s)
    | None => dir_lookup dv i name s = Done (None, with_fl l s)
    end.
Proof.
  intros T Ha K. destruct (dir_lookup_loop_run a i d name
    (dirent_offsets 0 (dsize (dinode d))) s T Ha K) as (l & T' & _ & E).
  { intros off. apply whole_range; apply K. }
  exists l. split; [done|]. unfold dir_lookup, idata_at. rewrite bind_assoc, bind_get.
  rewrite (dk_slot _ _ _ _ K), bind_unwrap, bind_assert
    by (apply bool_decide_eq_true; apply K).
  unfold entries. rewrite E. by destruct (list_find _ _) as [[]|].
Qed.

(** ** Insertion *)
Definition free_entry (e : DirEntry) : Prop := de_inum e = 0.
(** The offset [dir_link] writes to: the slot after the first free one. *)
Definition link_slot (es : list DirEntry) : Z :=
  match list_find free_entry es with
  | Some (f, _) => Z.of_nat f + 1
  | None => Z.of_nat (length es)
  end.

Lemma dir_link_loop_run a i d offs : ∀ s e0,
  txn dv s a → blocks_ok a → dir_ok s a i d →
  (∀ off, off ∈ offs → 0 ≤ off ∧ off + DIRENT_SIZE ≤ dsize (dinode d)) →
  ∃ l, txn dv (with_fl l s) a ∧ lg l = log_of s ∧
    dir_link_loop dv i e0 offs s =
      Done (e0 + link_slot (entry_at a (dinode d) <$> offs) * DIRENT_SIZE, with_fl l s).
Proof.
  induction offs as [|off offs IH]; intros s e0 T Ha K Hoff; cbn [dir_link_loop].
  { exists (fl s). rewrite with_fl_log. split_and!; [done..|]. by rewrite Z.add_0_r. }
  destruct (Hoff off ltac:(left)) as [H0 H1].
  destruct (dirent_at_run s a i d off "Cannot read entry in this dir" T Ha K H0 H1)
    as (l1 & E1 & T1 & Eg1). mstep E1. set (e := entry_at a (dinode d) off).
  unfold link_slot. cbn [fmap list_fmap list_find]. fold e.
  destruct (Z.eqb_spec (de_inum e) 0) as [Hz|Hnz].
  - exists l1. rewrite decide_True by done. split_and!; [done..|]. by rewrite Z.add_0_l, Z.mul_1_l.
  - destruct (IH (with_fl l1 s) (e0 + DIRENT_SIZE) T1 Ha) as (l2 & T2 & Eg2 & E2).
    { by destruct K. }
    { intros o Ho. apply Hoff. by right. }
    exists l2. rewrite decide_False by done. split_and!; [done|rewrite Eg2; exact Eg1|].
    rewrite E2. change (with_fl l2 (with_fl l1 s)) with (with_fl l2 s).
    unfold link_slot. destruct (list_find _ _) as [[f ?]|]; simpl; do 2 f_equal; lia.
Qed.

Lemma dirent_round e :
  in_u 16 (de_inum e) → DirEntry.of_bytes (DirEntry.to_bytes e) = e.
Proof.
  intros Hu. unfold DirEntry.of_bytes, DirEntry.to_bytes.
  rewrite take_app_length' by (by rewrite length_le_bytes).
  rewrite drop_app_length' by (by rewrite length_le_bytes).
  rewrite le_word_bytes by exact Hu. by destruct e.
Qed.
Lemma length_dirent_bytes e :
  length (de_name e) = Z.to_nat DIRSIZ → Z.of_nat (length (DirEntry.to_bytes e)) = DIRENT_SIZE.
Proof. intros Hl. unfold DirEntry.to_bytes. rewrite length_app, length_le_bytes, Hl. done. Qed.
(** Entries of a directory after one of them was overwritten. *)
Lemma entry_at_written a a' dn e k j :
  length (de_name e) = Z.to_nat DIRSIZ → in_u 16 (de_inum e) → 0 ≤ k → 0 ≤ j →
  (j + 1) * DIRENT_SIZE ≤ NDIRECT * BSIZE →
  (∀ q, 0 ≤ q < NDIRECT * BSIZE → file_byte a' dn q =
     if decide (k * DIRENT_SIZE ≤ q < k * DIRENT_SIZE + DIRENT_SIZE)
     then DirEntry.to_bytes e !! Z.to_nat (0 + (q - k * DIRENT_SIZE)) else file_byte a dn q) →
  entry_at a' dn (j * DIRENT_SIZE) = if j =? k then e else entry_at a dn (j * DIRENT_SIZE).
Proof.
  intros Hl Hu Hk Hj Hlim Hb. pose proof DIRENT_SIZE_pos as HD.
  destruct (Z.eqb_spec j k) as [->|Hne].
  - rewrite <- (dirent_round e Hu). unfold entry_at. f_equal. apply list_eq. intros q.
    rewrite list_lookup_fmap. pose proof (length_dirent_bytes e Hl) as Hlen.
    destruct (decide (Z.of_nat q < DIRENT_SIZE)) as [Hq|Hq].
    + rewrite lookup_seqZ_lt by lia. cbn [fmap option_fmap option_map].
      rewrite Hb by lia. rewrite decide_True by lia.
      replace (Z.to_nat _) with q by lia.
      destruct (lookup_lt_is_Some_2 (DirEntry.to_bytes e) q) as [y Hy]; [lia|]. by rewrite Hy.
    + rewrite lookup_seqZ_ge by lia. symmetry. apply lookup_ge_None. lia.
  - unfold entry_at. f_equal. apply list_fmap_ext. intros p q Hq. apply lookup_seqZ in Hq as [-> Hq].
    rewrite Hb by lia. rewrite decide_False; [done|]. nia.
Qed.

End dirs.

(** ** A directory on the small disk

    Inode 6, with one block and one entry, which is free. *)
Definition inode6 : DiskInode := mkDinode Directory 0 0 1 16 ([62] ++ replicate 12 0).
Definition idata6 : InodeData := mkIdata true 1 6 inode6 true.
Definition fs2 : fsst (bcache tdev) :=
  mkFsst (mkLogst g0 (BCache.new t0)) super0 true (replicate 50 InodeMeta.new)
    (<[4%nat := idata6]> (replicate 50 InodeData.new)) (mkMem ∅ None ∅) None None.
#[local] Existing Instance bc1.

Lemma fs2_txn : txn 1 fs2 (mkAcache ∅ t0).
Proof. pose proof fs0_txn as [H1 H2 H3 H4]. split; [exact H1|exact H2|exact H3|exact H4]. Qed.
Lemma inode6_blocks k b : 0 ≤ k → byte_block inode6 k = Some b → k / BSIZE = 0 ∧ b = 62.
Proof.
  intros Hk. unfold byte_block. pose proof (Z.div_pos k BSIZE Hk BSIZE_pos) as Hq.
  rewrite <- (Z2Nat.id (k / BSIZE)) at 2 by done.
  destruct (Z.to_nat (k / BSIZE)) as [|q]; simpl; [intros [= <-]; auto|].
  do 12 (destruct q as [|q]; [done|]). done.
Qed.
Lemma inode6_mapped n : 0 ≤ n ≤ 1024 → mapped inode6 0 n.
Proof.
  intros Hn. split; [done|]. intros k Hk.
  split; [change (NDIRECT * BSIZE) with 12288; lia|]. unfold byte_block.
  rewrite Z.div_small by (unfold BSIZE; lia). by eexists.
Qed.
Lemma fs2_dir : dir_ok 1 fs2 (mkAcache ∅ t0) 4 idata6.
Proof. split; [done|done|done|by apply inode6_mapped|by vm_compute|done]. Qed.
Lemma fs2_slot : slot_ok 1 fs2 (mkAcache ∅ t0) idata6.
Proof.
  split; [exact fs2_txn|exact fs0_blocks| |done|by vm_compute| |].
  - destruct fs1_table as [H1 H2 H3]. split; [exact H1|exact H2|exact H3].
  - split; try done. apply (bool_decide_unpack _). by vm_compute.
  - split.
    + intros k b Hk Hb. destruct (inode6_blocks k b (proj1 Hk) Hb) as [_ ->].
      apply (small_block 62). lia.
    + intros k k' b Hk Hk' Hb Hb'. destruct (inode6_blocks k b (proj1 Hk) Hb) as [-> _].
      by destruct (inode6_blocks k' b (proj1 Hk') Hb') as [-> _].
    + intros k b j Hk Hb. change (ninodes (super fs2)) with 64. intros Hj.
      destruct (inode6_blocks k b (proj1 Hk) Hb) as [_ ->].
      unfold iblock. change (inodestart (super fs2)) with 40. change IPB with 16.
      pose proof (Z.div_lt_upper_bound j 16 4 ltac:(lia) ltac:(lia)). lia.
Qed.

Lemma dir_lookup_first_witness :
  ∃ l, dir_lookup 1 4 [97; 0] fs2 = Done (None, with_fl l fs2).
Proof.
  destruct (dir_lookup_first 1 fs2 (mkAcache ∅ t0) 4 idata6 [97; 0] fs2_txn fs0_blocks fs2_dir)
    as (l & _ & E).
  assert (list_find (hit [97; 0]) (entries (mkAcache ∅ t0) (dinode idata6)) = None) as Hf.
  { by vm_compute. }
  rewrite Hf in E. exists l. exact E.
Defined.
