(* ===== verification/Ring.v ===== *)
(** * Ring buffers

    The kernel keeps bytes between producers and consumers in arrays indexed
    by counters modulo the size: the pipe, the console input and the UART
    output. The counters only grow; what is stored is the run of elements
    from one counter to another. *)
From S2P Require Import Prelude.

Section ring.
Implicit Types (data : list Z) (p n : Z).

Definition cap data : Z := Z.of_nat (length data).
(** The element at counter value [p]. *)
Definition ring_at data p : Z := default 0 (data !! Z.to_nat (p mod cap data)).
(** The [n] elements from counter value [p] on. *)
Definition ring_slice data p n : list Z := (λ k, ring_at data (p + k)) <$> seqZ 0 n.

Lemma length_ring_slice data p n : 0 ≤ n → Z.of_nat (length (ring_slice data p n)) = n.
Proof. intros. unfold ring_slice. rewrite length_fmap, length_seqZ. lia. Qed.

Lemma ring_slice_0 data p : ring_slice data p 0 = [].
Proof. done. Qed.
Lemma ring_slice_app data p m n :
  0 ≤ m → 0 ≤ n → ring_slice data p (m + n) = ring_slice data p m ++ ring_slice data (p + m) n.
Proof.
  intros Hm Hn. unfold ring_slice. rewrite seqZ_app, fmap_app by done. f_equal.
  rewrite Z.add_0_l. apply list_eq. intros j. rewrite !list_lookup_fmap.
  destruct (decide (Z.of_nat j < n)).
  - rewrite !lookup_seqZ_lt by lia. simpl. do 2 f_equal. lia.
  - by rewrite !lookup_seqZ_ge by lia.
Qed.
Lemma ring_slice_1 data p : ring_slice data p 1 = [ring_at data p].
Proof. unfold ring_slice. simpl. by rewrite Z.add_0_r. Qed.
Lemma ring_slice_cons data p n :
  0 < n → ring_slice data p n = ring_at data p :: ring_slice data (p + 1) (n - 1).
Proof.
  intros Hn. replace n with (1 + (n - 1)) at 1 by lia.
  by rewrite ring_slice_app, ring_slice_1 by lia.
Qed.
Lemma ring_slice_snoc data p n :
  0 < n → ring_slice data p n = ring_slice data p (n - 1) ++ [ring_at data (p + n - 1)].
Proof.
  intros Hn. replace n with ((n - 1) + 1) at 1 by lia.
  rewrite ring_slice_app, ring_slice_1 by lia. do 3 f_equal. lia.
Qed.

(** Storing at a counter value changes no element less than the size away. *)
Lemma ring_at_store data p q c :
  0 < cap data → p - cap data < q < p + cap data →
  ring_at (<[Z.to_nat (p mod cap data) := c]> data) q = if q =? p then c else ring_at data q.
Proof.
  intros Hc Hq. unfold ring_at, cap. rewrite length_insert. fold (cap data).
  pose proof (Z.mod_pos_bound p (cap data) Hc). pose proof (Z.mod_pos_bound q (cap data) Hc).
  destruct (Z.eqb_spec q p) as [->|Hne].
  - rewrite list_lookup_insert_eq; [done|]. unfold cap in *. lia.
  - rewrite list_lookup_insert_ne; [done|]. intros E%Z2Nat.inj; [|lia..].
    pose proof (Z.div_mod p (cap data) ltac:(lia)). pose proof (Z.div_mod q (cap data) ltac:(lia)).
    assert (q - p = cap data * (q / cap data - p / cap data)) as Eq by lia.
    assert (q / cap data = p / cap data) by nia. lia.
Qed.
Lemma cap_store data i c : cap (<[i := c]> data) = cap data.
Proof. unfold cap. by rewrite length_insert. Qed.
(** Appending the next element. *)
Lemma ring_push data p n c :
  0 ≤ n < cap data →
  ring_slice (<[Z.to_nat ((p + n) mod cap data) := c]> data) p (n + 1) = ring_slice data p n ++ [c].
Proof.
  intros Hn. rewrite ring_slice_snoc by lia. rewrite Z.add_simpl_r. f_equal.
  - unfold ring_slice. apply list_fmap_ext. intros j k Hk. apply lookup_seqZ in Hk as [-> Hk].
    rewrite ring_at_store by lia. by rewrite (proj2 (Z.eqb_neq _ _)) by lia.
  - rewrite ring_at_store by lia. by rewrite (proj2 (Z.eqb_eq _ _)) by lia.
Qed.
(** A store past the run leaves it alone. *)
Lemma ring_store_past data p n m c :
  0 ≤ m ≤ n → n < cap data →
  ring_slice (<[Z.to_nat ((p + n) mod cap data) := c]> data) p m = ring_slice data p m.
Proof.
  intros Hm Hn. unfold ring_slice. apply list_fmap_ext. intros j k Hk.
  apply lookup_seqZ in Hk as [-> Hk]. rewrite ring_at_store by lia.
  by rewrite (proj2 (Z.eqb_neq _ _)) by lia.
Qed.

(** The index of a wrapped counter is that of the counter. *)
Lemma wrap_index w n p : 0 < n → 0 ≤ w → (n | 2 ^ w) → wrap w p mod n = p mod n.
Proof.
  intros Hn Hw [k Hk]. unfold wrap. rewrite Hk, (Z.mul_comm k).
  assert (0 < k) by (pose proof (Z.pow_pos_nonneg 2 w); nia).
  rewrite Z.rem_mul_r by lia. rewrite (Z.mul_comm n), Z.mod_add by lia. by rewrite Z.mod_mod by lia.
Qed.
Lemma ring_at_wrap data p :
  (cap data | 2 ^ 64) → 0 < cap data → ring_at data (wrap 64 p) = ring_at data p.
Proof. intros Hd Hc. unfold ring_at. by rewrite (wrap_index 64). Qed.
(** Distances below half the range survive wrapping. *)
Lemma wrap_sub w p q : 0 ≤ w → 0 ≤ p - q < 2 ^ w → wrap w (wrap w p - wrap w q) = p - q.
Proof. intros Hw Hd. unfold wrap. rewrite <- Zminus_mod. by apply Z.mod_small. Qed.
Lemma wrap_eq w p q : 0 ≤ w → - 2 ^ w < p - q < 2 ^ w → wrap w p = wrap w q ↔ p = q.
Proof.
  intros Hw Hd. split; [|by intros ->]. unfold wrap. intros E.
  assert (0 < 2 ^ w) as H2 by (by apply Z.pow_pos_nonneg).
  pose proof (Z.div_mod p (2 ^ w) ltac:(lia)). pose proof (Z.div_mod q (2 ^ w) ltac:(lia)).
  assert (p - q = 2 ^ w * (p / 2 ^ w - q / 2 ^ w)) as Eq by lia.
  assert (p / 2 ^ w - q / 2 ^ w = 0) by nia. nia.
Qed.
Lemma wrap_add w p q : 0 ≤ w → wrap w (wrap w p + q) = wrap w (p + q).
Proof. intros Hw. unfold wrap. by rewrite Zplus_mod_idemp_l. Qed.
End ring.
