(* ===== verification/Pipe.v ===== *)
(** * Pipes: the operations

    [fs/pipe.rs]. The two ends of a pipe share one [PipeInner] in a page of
    its own. [read] and [write] give up the processor when they have to wait;
    the model returns [Sleep] there, with what the resumed call continues
    from. Calls of [PROC_MANAGER.wake_up] are recorded in order. *)
From S2P Require Import Prelude.
From S2P Require Import Layout.
From S2P Require Import Kalloc.
From S2P Require Import PageTable.

Definition PIPESIZE : Z := 512.

Record PipeInner := mkPipe {
  data : list Z; nread : Z; nwrite : Z; readopen : bool; writeopen : bool
}.
(** The channels are the addresses of [nread] and [nwrite]. *)
Inductive chan := ChRead | ChWrite.
#[global] Instance chan_eq_dec : EqDecision chan.
Proof. solve_decision. Defined.

(** The pipe, the page that holds it, memory, the wake-ups so far and
    whether the running process is killed. *)
Record pst := mkPst {
  inner : PipeInner; page : Z; pmem : mem; wakes : list chan; pkilled : bool
}.

(** The end of a call: its result, or a sleep on a channel after [i] bytes. *)
Inductive blocking (A : Type) := Ret (a : A) | Sleep (c : chan) (i : Z).
Arguments Ret {A}. Arguments Sleep {A}.

Module Pipe.
(** ** Accesses to the shared structure *)
Definition full {S} (p : PipeInner) : M S bool :=
  n ← uadd 64 (nread p) PIPESIZE; mret (nwrite p =? n).
Definition empty (p : PipeInner) : bool := nread p =? nwrite p.
(** [inner.data[inner.nwrite % PIPESIZE] = ch] *)
Definition store (c : Z) (p : PipeInner) : PipeInner :=
  mkPipe (<[Z.to_nat (nwrite p mod PIPESIZE) := c]> (data p)) (nread p) (nwrite p)
    (readopen p) (writeopen p).
Definition bump_write {S} (p : PipeInner) : M S PipeInner :=
  n ← uadd 64 (nwrite p) 1; mret (mkPipe (data p) (nread p) n (readopen p) (writeopen p)).
(** [inner.data[inner.nread % PIPESIZE]] *)
Definition load {S} (p : PipeInner) : M S Z :=
  unwrap (data p !! Z.to_nat (nread p mod PIPESIZE)) "index out of bounds".
Definition bump_read {S} (p : PipeInner) : M S PipeInner :=
  n ← uadd 64 (nread p) 1; mret (mkPipe (data p) n (nwrite p) (readopen p) (writeopen p)).

Abbreviation PM := (M pst).
Definition put_inner (p : PipeInner) : PM unit :=
  modify (λ s, mkPst p (page s) (pmem s) (wakes s) (pkilled s)).
Definition wake_up (c : chan) : PM unit :=
  modify (λ s, mkPst (inner s) (page s) (pmem s) (wakes s ++ [c]) (pkilled s)).
Definition on_mem {A} : M mem A → PM A :=
  zoom pmem (λ m s, mkPst (inner s) (page s) m (wakes s) (pkilled s)).

(** ** alloc and close *)
Definition alloc : PM unit :=
  pi ← on_mem new_zeroed;
  modify (λ s, mkPst (mkPipe (replicate (Z.to_nat PIPESIZE) 0) 0 0 true true) pi (pmem s) (wakes s)
    (pkilled s)).
Definition close (writeable : bool) : PM unit :=
  s ← get;
  let p := inner s in
  (if writeable
   then put_inner (mkPipe (data p) (nread p) (nwrite p) (readopen p) false) ;; wake_up ChRead
   else put_inner (mkPipe (data p) (nread p) (nwrite p) false (writeopen p)) ;; wake_up ChWrite) ;;
  s ← get;
  if negb (readopen (inner s)) && negb (writeopen (inner s))
  then on_mem (drop_page (page s)) else mret tt.

(** ** write and read, by a process with page table [pgt] *)
Definition KILLED : string := "This proc is killed".

Fixpoint write_loop (fuel : nat) (pgt addr n i : Z) : PM (blocking (result Z)) :=
  if n <=? i then wake_up ChRead ;; mret (Ret (Ok i)) else
  match fuel with
  | O => hang
  | S fuel' =>
    s ← get;
    if negb (readopen (inner s)) && pkilled s then mret (Ret (Err KILLED)) else
    b ← full (inner s);
    if (b : bool) then wake_up ChRead ;; mret (Sleep ChWrite i) else
    a ← uadd 64 addr i;
    bs ← on_mem (PageTable.copy_in pgt 1 a);
    s ← get;
    put_inner (store (nth 0 bs 0) (inner s)) ;;
    s ← get;
    p ← bump_write (inner s);
    put_inner p ;;
    write_loop fuel' pgt addr n (i + 1)
  end.
(** After a sleep the loop goes on at the byte it stopped at. *)
Definition write_resume (pgt addr n i : Z) : PM (blocking (result Z)) :=
  write_loop (S (Z.to_nat (n - i))) pgt addr n i.
Definition write (pgt addr n : Z) : PM (blocking (result Z)) := write_resume pgt addr n 0.

Fixpoint read_loop (fuel : nat) (pgt addr n i : Z) : PM (result Z) :=
  if n <=? i then wake_up ChWrite ;; mret (Ok i) else
  match fuel with
  | O => hang
  | S fuel' =>
    s ← get;
    if empty (inner s) then wake_up ChWrite ;; mret (Ok i) else
    ch ← load (inner s);
    a ← uadd 64 addr i;
    r ← on_mem (PageTable.copy_out pgt a [ch]);
    match r with
    | Err e => mret (Err e)
    | Ok _ =>
      s ← get;
      p ← bump_read (inner s);
      put_inner p ;;
      read_loop fuel' pgt addr n (i + 1)
    end
  end.
(** A reader that was woken starts over. *)
Definition read (pgt addr n : Z) : PM (blocking (result Z)) :=
  s ← get;
  if empty (inner s) && writeopen (inner s) then
    if pkilled s then mret (Ret (Err KILLED)) else mret (Sleep ChRead 0)
  else
    r ← read_loop (S (Z.to_nat n)) pgt addr n 0;
    mret (Ret r).
End Pipe.
