(* ===== verification/PipeSafe.v ===== *)
(** * Pipes: queues and interleavings

    [read] and [write] move bytes of a first-in first-out queue. The second
    part interleaves the single accesses of a reader and a writer: [Pipe]'s
    [Clone] gives each end a lock of its own around the shared [PipeInner],
    so that the two ends do not exclude each other. *)
From S2P Require Import Prelude.
From S2P Require Import Layout.
From S2P Require Import Pte.
From S2P Require Import Kalloc.
From S2P Require Import PageTable.
From S2P Require Import UserSpace.
From S2P Require Import Ring.
From S2P Require Import Pipe.

(** The pipe holds the bytes [q]. *)
Record pipe_rep (p : PipeInner) (q : list Z) : Prop := {
  pr_cap : cap (data p) = PIPESIZE;
  pr_low : 0 ≤ nread p;
  pr_count : nwrite p = nread p + Z.of_nat (length q);
  pr_room : Z.of_nat (length q) ≤ PIPESIZE;
  pr_bytes : ring_slice (data p) (nread p) (Z.of_nat (length q)) = q
}.

(** What a call does to memory: bytes [i] on of the user buffer, one by one. *)
Fixpoint gather (pgt addr i : Z) (k : nat) : M mem (list Z) :=
  match k with
  | O => mret []
  | S k' =>
    a ← uadd 64 addr i;
    bs ← PageTable.copy_in pgt 1 a;
    rest ← gather pgt addr (i + 1) k';
    mret (nth 0 bs 0 :: rest)
  end.
Fixpoint scatter (pgt addr i : Z) (bs : list Z) : M mem unit :=
  match bs with
  | [] => mret tt
  | b :: bs' =>
    a ← uadd 64 addr i;
    r ← PageTable.copy_out pgt a [b];
    match r with Ok _ => scatter pgt addr (i + 1) bs' | Err _ => hang end
  end.

Section queue.
Implicit Types (p : PipeInner) (q : list Z) (s : pst) (m : mem).

Lemma full_run {T} p q (t : T) :
  pipe_rep p q → nread p + PIPESIZE < 2 ^ 64 →
  Pipe.full p t = Done (Z.of_nat (length q) =? PIPESIZE, t).
Proof.
  intros R Hb. unfold Pipe.full. rewrite bind_uadd by done. rewrite (pr_count _ _ R).
  enough ((nread p + Z.of_nat (length q) =? nread p + PIPESIZE) = (Z.of_nat (length q) =? PIPESIZE))
    as -> by done.
  destruct (Z.eqb_spec (Z.of_nat (length q)) PIPESIZE); [apply Z.eqb_eq|apply Z.eqb_neq]; lia.
Qed.
Lemma empty_rep p q : pipe_rep p q → Pipe.empty p = bool_decide (q = []).
Proof.
  intros R. unfold Pipe.empty. rewrite (pr_count _ _ R). destruct q as [|b q]; simpl.
  - rewrite Z.add_0_r. apply Z.eqb_refl.
  - apply Z.eqb_neq. lia.
Qed.
Lemma load_run {T} p b q (t : T) : pipe_rep p (b :: q) → Pipe.load p t = Done (b, t).
Proof.
  intros R. unfold Pipe.load. pose proof (pr_cap _ _ R) as Hc.
  pose proof (pr_bytes _ _ R) as Hb. rewrite ring_slice_cons in Hb by (simpl; lia).
  injection Hb as Hb _. unfold ring_at in Hb. rewrite Hc in Hb.
  pose proof (Z.mod_pos_bound (nread p) PIPESIZE ltac:(done)).
  destruct (lookup_lt_is_Some_2 (data p) (Z.to_nat (nread p mod PIPESIZE))) as [x Hx].
  { unfold cap in Hc. lia. }
  rewrite Hx in *. simpl in Hb. by subst.
Qed.
(** The element that is being stored belongs to the queue once it is counted. *)
Lemma store_rep p q c p' :
  pipe_rep p q → Z.of_nat (length q) < PIPESIZE → nwrite p + 1 < 2 ^ 64 →
  Pipe.bump_write (Pipe.store c p) tt = Done (p', tt) → pipe_rep p' (q ++ [c]).
Proof.
  intros [H1 H2 H3 H4 H5] Hl Hb. unfold Pipe.bump_write. rewrite bind_uadd by done.
  intros [= <-]. split; simpl.
  - by rewrite cap_store.
  - done.
  - rewrite length_app. simpl. lia.
  - rewrite length_app. simpl. lia.
  - rewrite length_app, H3, <- H1. simpl. rewrite Nat2Z.inj_add. by rewrite ring_push, H5 by lia.
Qed.
Lemma bump_read_rep p b q :
  pipe_rep p (b :: q) →
  pipe_rep (mkPipe (data p) (nread p + 1) (nwrite p) (readopen p) (writeopen p)) q.
Proof.
  intros [H1 H2 H3 H4 H5]. simpl in *. split; simpl; try lia; try done.
  rewrite ring_slice_cons in H5 by lia. injection H5 as _ H5.
  by replace (Z.of_nat (S (length q)) - 1) with (Z.of_nat (length q)) in H5 by lia.
Qed.

Lemma on_mem_run {A} (op : M mem A) s v m :
  op (pmem s) = Done (v, m) →
  Pipe.on_mem op s = Done (v, mkPst (inner s) (page s) m (wakes s) (pkilled s)).
Proof. intros E. unfold Pipe.on_mem, zoom. by rewrite E. Qed.

Lemma bind_put_inner {A} p (k : M pst A) s :
  (Pipe.put_inner p ;; k) s = k (mkPst p (page s) (pmem s) (wakes s) (pkilled s)).
Proof. done. Qed.

(** From byte [i] on, with [n - i] bytes to go and room for [k] of them. *)
Lemma pipe_write_run pgt addr n fuel : ∀ s q i bs m,
  pipe_rep (inner s) q → 0 ≤ i ≤ n → readopen (inner s) = true ∨ pkilled s = false →
  nwrite (inner s) + (n - i) + PIPESIZE < 2 ^ 64 → (Z.to_nat (n - i) < fuel)%nat →
  let k := Z.min (n - i) (PIPESIZE - Z.of_nat (length q)) in
  gather pgt addr i (Z.to_nat k) (pmem s) = Done (bs, m) →
  ∃ p', Pipe.write_loop fuel pgt addr n i s =
      Done (if i + k =? n then Ret (Ok n) else Sleep ChWrite (i + k),
            mkPst p' (page s) m (wakes s ++ [ChRead]) (pkilled s)) ∧
    pipe_rep p' (q ++ bs) ∧ readopen p' = readopen (inner s) ∧ writeopen p' = writeopen (inner s) ∧ nread p' = nread (inner s).
Proof.
  induction fuel as [|fuel IH]; intros s q i bs m R Hi Hro Hb Hf k Hg; [lia|].
  pose proof (pr_count _ _ R). pose proof (pr_low _ _ R). pose proof (pr_room _ _ R).
  cbn [Pipe.write_loop]. destruct (Z.leb_spec n i) as [Hn|Hn].
  { assert (k = 0) as Hk by lia. rewrite Hk in *. injection Hg as <- <-.
    exists (inner s). rewrite (proj2 (Z.eqb_eq _ _)), app_nil_r by lia.
    replace i with n by lia. done. }
  rewrite bind_get. assert (negb (readopen (inner s)) && pkilled s = false) as ->.
  { destruct Hro as [-> | ->]; [done|by rewrite andb_false_r]. }
  mstep (full_run (inner s) q s R ltac:(lia)). cbv beta iota.
  destruct (Z.eqb_spec (Z.of_nat (length q)) PIPESIZE) as [Hfull|Hroom].
  { assert (k = 0) as Hk by lia. rewrite Hk in *. injection Hg as <- <-.
    exists (inner s). rewrite (proj2 (Z.eqb_neq _ _)), app_nil_r, Z.add_0_r by lia. done. }
  assert (Z.to_nat k = S (Z.to_nat (k - 1))) as Ek by lia. rewrite Ek in Hg. cbn [gather] in Hg.
  minv Hg. unfold uadd in Hg0. destruct (addr + i <? 2 ^ 64) eqn:Ea; [|done].
  injection Hg0 as <- <-. minv Hg. rename Hg0 into Ec. minv Hg. rename Hg0 into Er.
  injection Hg as <- <-. rewrite bind_uadd by (by apply Z.ltb_lt).
  mstep (on_mem_run _ s _ _ Ec). rewrite bind_get, bind_put_inner, bind_get. simpl inner. set (c := nth 0 a 0).
  assert (∃ p1, ∀ T (t : T), Pipe.bump_write (Pipe.store c (inner s)) t = Done (p1, t)) as [p1 E1].
  { eexists. intros T t. unfold Pipe.bump_write. rewrite bind_uadd by (simpl; lia). done. }
  erewrite bind_run; [|apply E1]. rewrite bind_put_inner. simpl.
  pose proof (store_rep (inner s) q c p1 R ltac:(lia) ltac:(lia) (E1 _ tt)) as R1.
  assert (nwrite p1 = nwrite (inner s) + 1 ∧ readopen p1 = readopen (inner s) ∧
    writeopen p1 = writeopen (inner s) ∧ nread p1 = nread (inner s)) as (N1 & N2 & N3 & N4).
  { specialize (E1 unit tt). unfold Pipe.bump_write in E1. rewrite bind_uadd in E1 by (simpl; lia).
    by injection E1 as <-. }
  set (s2 := mkPst p1 _ _ _ _).
  match type of Er with _ = Done (?x, ?y) => set (bs1 := x) in *; set (m1 := y) in * end.
  destruct (IH s2 (q ++ [c]) (i + 1) bs1 m1) as (p' & E & R' & O1 & O2 & O3); try done; try (simpl; lia).
  - simpl. rewrite N2. done.
  - simpl. rewrite length_app. simpl.
    replace (Z.min (n - (i + 1)) _) with (k - 1) by lia. done.
  - assert (Z.min (n - (i + 1)) (PIPESIZE - Z.of_nat (length (q ++ [c]))) = k - 1) as Ek1.
    { rewrite length_app. simpl. lia. }
    rewrite Ek1 in E. exists p'. rewrite <- app_assoc in R'.
    replace (i + k) with (i + 1 + (k - 1)) by lia.
    split_and!; [exact E|exact R'|by rewrite O1|by rewrite O2|by rewrite O3].
Qed.

Lemma pipe_read_run pgt addr n fuel : ∀ s q i m,
  pipe_rep (inner s) q → 0 ≤ i ≤ n → nwrite (inner s) + 1 < 2 ^ 64 → (Z.to_nat (n - i) < fuel)%nat →
  let k := Z.min (n - i) (Z.of_nat (length q)) in
  scatter pgt addr i (take (Z.to_nat k) q) (pmem s) = Done (tt, m) →
  ∃ p', Pipe.read_loop fuel pgt addr n i s =
      Done (Ok (i + k), mkPst p' (page s) m (wakes s ++ [ChWrite]) (pkilled s)) ∧
    pipe_rep p' (drop (Z.to_nat k) q) ∧
    readopen p' = readopen (inner s) ∧ writeopen p' = writeopen (inner s).
Proof.
  induction fuel as [|fuel IH]; intros s q i m R Hi Hb Hf k Hg; [lia|].
  cbn [Pipe.read_loop]. destruct (Z.leb_spec n i) as [Hn|Hn].
  { assert (k = 0) as Hk by lia. rewrite Hk in *. injection Hg as <-.
    exists (inner s). rewrite Z.add_0_r. done. }
  rewrite bind_get, (empty_rep _ _ R). destruct q as [|b q].
  { assert (k = 0) as Hk by (simpl in k; lia). rewrite Hk in *. injection Hg as <-.
    exists (inner s). rewrite Z.add_0_r. done. }
  cbn [bool_decide]. rewrite bool_decide_eq_false_2 by done.
  mstep (load_run (inner s) b q s R).
  assert (Z.to_nat k = S (Z.to_nat (k - 1))) as Ek by (simpl in k; lia). rewrite Ek in Hg.
  cbn [take scatter] in Hg. minv Hg. unfold uadd in Hg0.
  destruct (addr + i <? 2 ^ 64) eqn:Ea; [|done]. injection Hg0 as <- <-.
  minv Hg. rename Hg0 into Ec. destruct a as [[]|]; [|done].
  rewrite bind_uadd by (by apply Z.ltb_lt). mstep (on_mem_run _ s _ _ Ec). cbv beta iota.
  rewrite bind_get. simpl inner. pose proof (pr_count _ _ R) as Hc. simpl in Hc.
  assert (∀ T (t : T), Pipe.bump_read (inner s) t =
    Done (mkPipe (data (inner s)) (nread (inner s) + 1) (nwrite (inner s)) (readopen (inner s))
      (writeopen (inner s)), t)) as E1.
  { intros T t. unfold Pipe.bump_read. rewrite bind_uadd by lia. done. }
  erewrite bind_run; [|apply E1]. rewrite bind_put_inner. set (s2 := mkPst _ _ _ _ _).
  assert (Z.min (n - (i + 1)) (Z.of_nat (length q)) = k - 1) as Ek1 by (simpl in k; lia).
  destruct (IH s2 q (i + 1) m) as (p' & E & R' & O1 & O2);
    [by apply (bump_read_rep _ b)|lia|done|lia|by rewrite Ek1|].
  rewrite Ek1 in E, R'. exists p'. rewrite Ek.
  split_and!; [rewrite E; do 3 f_equal; lia|done|done|done].
Qed.

(** C19. A pipe is a queue of bytes. With the bytes [q] in the pipe, [write]
    moves as many bytes as fit from the user buffer to the end of [q], in
    order, and returns the count, or sleeps until the reader makes room if
    not all of them fit; [read] moves as many bytes as there are, at most
    [n], from the front of [q] to the user buffer, in order, and returns the
    count, or sleeps if the pipe is empty and its write end open. Both wake
    the other end. *)
Theorem pipe_is_queue pgt addr n s q :
  pipe_rep (inner s) q → 0 ≤ n → nwrite (inner s) + n + PIPESIZE < 2 ^ 64 → pkilled s = false →
  (∀ bs m, let k := Z.min n (PIPESIZE - Z.of_nat (length q)) in
     gather pgt addr 0 (Z.to_nat k) (pmem s) = Done (bs, m) →
     ∃ s', Pipe.write pgt addr n s =
         Done (if k =? n then Ret (Ok n) else Sleep ChWrite k, s') ∧
       pipe_rep (inner s') (q ++ bs) ∧ pmem s' = m ∧ wakes s' = wakes s ++ [ChRead]) ∧
  (if bool_decide (q = []) && writeopen (inner s)
   then Pipe.read pgt addr n s = Done (Sleep ChRead 0, s)
   else ∀ m, let k := Z.min n (Z.of_nat (length q)) in
     scatter pgt addr 0 (take (Z.to_nat k) q) (pmem s) = Done (tt, m) →
     ∃ s', Pipe.read pgt addr n s = Done (Ret (Ok k), s') ∧
       pipe_rep (inner s') (drop (Z.to_nat k) q) ∧ pmem s' = m ∧ wakes s' = wakes s ++ [ChWrite]).
Proof.
  intros R Hn Hb Hk. split.
  - intros bs m k Hg. unfold Pipe.write, Pipe.write_resume.
    destruct (pipe_write_run pgt addr n (S (Z.to_nat (n - 0))) s q 0 bs m)
      as (p' & E & R' & _); rewrite ?Z.sub_0_r in *; try done;
      [by right|lia|].
    eexists. split; [exact E|done].
  - assert (Pipe.read pgt addr n s = (if bool_decide (q = []) && writeopen (inner s)
      then mret (Sleep ChRead 0)
      else r ← Pipe.read_loop (S (Z.to_nat n)) pgt addr n 0; mret (Ret r)) s) as ->.
    { unfold Pipe.read. rewrite bind_get, (empty_rep _ _ R), Hk. by case_match. }
    destruct (bool_decide (q = []) && writeopen (inner s)); [done|].
    intros m k Hg. destruct (pipe_read_run pgt addr n (S (Z.to_nat n)) s q 0 m)
      as (p' & E & R' & _); rewrite ?Z.sub_0_r in *; try done; unfold PIPESIZE in *; try lia.
    rewrite Z.add_0_l in E. eexists. split; [mstep E; reflexivity|done].
Qed.
End queue.

(** ** A process with one page

    Its page table, and the memory that holds it. *)
Definition one_page : M mem Z :=
  Kalloc.init (heap_of 8) ;;
  r ← new_zeroed;
  pg ← new_zeroed;
  PageTable.map r 0 pg PGSIZE (Z.lor (Z.lor (Z.lor PTE_R PTE_W) PTE_X) PTE_U) ;;
  mret r.
Definition user0 : Z * mem :=
  match one_page (bootn 8) with Done (r, m) => (r, m) | _ => (0, bootn 8) end.
(** Two bytes in the pipe, across the end of the array. *)
Definition pipe0 : PipeInner :=
  mkPipe (<[511%nat := 9]> (<[0%nat := 8]> (replicate 512 0))) 511 513 true true.
Definition pst0 : pst := mkPst pipe0 0 (snd user0) [] false.
Lemma pipe0_rep : pipe_rep pipe0 [9; 8].
Proof. split; [by vm_compute|done|done|done|by vm_compute]. Qed.

Lemma pipe_is_queue_witness :
  (∃ s', Pipe.write (fst user0) 100 3 pst0 = Done (Ret (Ok 3), s') ∧
     pipe_rep (inner s') [9; 8; 0; 0; 0]) ∧
  (∃ s', Pipe.read (fst user0) 100 5 pst0 = Done (Ret (Ok 2), s') ∧ pipe_rep (inner s') []).
Proof.
  split.
  - destruct (pipe_is_queue (fst user0) 100 3 pst0 [9; 8] pipe0_rep) as [Hw _];
      [lia|by vm_compute|done|].
    destruct (Hw [0; 0; 0] (snd user0)) as (s' & E & R & _); [by vm_compute|].
    exists s'. split; [exact E|exact R].
  - destruct (pipe_is_queue (fst user0) 100 5 pst0 [9; 8] pipe0_rep) as [_ Hr];
      [lia|by vm_compute|done|].
    destruct (scatter (fst user0) 100 0 [9; 8] (snd user0)) as [[[] m]| | |] eqn:E;
      [|by vm_compute in E..].
    destruct (Hr m E) as (s' & E' & R & _). exists s'. split; [exact E'|exact R].
Defined.

(** ** Two ends at once

    One process in [write] and one in [read], under different locks. A step
    is one access to the shared structure, one wake-up, or falling asleep. *)
Inductive wthread :=
| WIdle
| WTop (todo : list Z)               (* at the head of the loop *)
| WStore (c : Z) (todo : list Z)     (* found room *)
| WBump (c : Z) (todo : list Z)      (* stored the byte *)
| WFull (todo : list Z)              (* found no room, about to wake the reader *)
| WDrowsy (todo : list Z)            (* about to sleep *)
| WSlept (todo : list Z)
| WDone.                             (* about to wake the reader *)
Inductive rthread :=
| RIdle
| RTop (n : nat)                     (* at the head of the waiting loop *)
| RRun (n : nat)                     (* at the head of the copying loop *)
| RBump (c : Z) (n : nat)            (* copied the byte out *)
| RDrowsy (n : nat)                  (* found the pipe empty, about to sleep *)
| RSlept (n : nat)
| RDone.                             (* about to wake the writer *)
(** The bytes taken from the writer and given to the reader so far. *)
Record psys := mkPsys {
  shared : PipeInner; wt : wthread; rt : rthread; taken : list Z; given : list Z
}.
Definition woken_r (r : rthread) : rthread := match r with RSlept n => RTop n | _ => r end.
Definition woken_w (w : wthread) : wthread := match w with WSlept t => WTop t | _ => w end.

Inductive pstep : psys → psys → Prop :=
  | w_begin p r tk gv bs : pstep (mkPsys p WIdle r tk gv) (mkPsys p (WTop bs) r tk gv)
  | w_end p r tk gv : pstep (mkPsys p (WTop []) r tk gv) (mkPsys p WDone r tk gv)
  | w_killed p c t r tk gv : readopen p = false →
      pstep (mkPsys p (WTop (c :: t)) r tk gv) (mkPsys p WIdle r tk gv)
  | w_check p c t r tk gv b : Pipe.full p tt = Done (b, tt) →
      pstep (mkPsys p (WTop (c :: t)) r tk gv)
            (mkPsys p (if b then WFull (c :: t) else WStore c t) r tk gv)
  | w_store p c t r tk gv :
      pstep (mkPsys p (WStore c t) r tk gv) (mkPsys (Pipe.store c p) (WBump c t) r tk gv)
  | w_bump p c t r tk gv p' : Pipe.bump_write p tt = Done (p', tt) →
      pstep (mkPsys p (WBump c t) r tk gv) (mkPsys p' (WTop t) r (tk ++ [c]) gv)
  | w_full p t r tk gv :
      pstep (mkPsys p (WFull t) r tk gv) (mkPsys p (WDrowsy t) (woken_r r) tk gv)
  | w_sleep p t r tk gv : pstep (mkPsys p (WDrowsy t) r tk gv) (mkPsys p (WSlept t) r tk gv)
  | w_done p r tk gv : pstep (mkPsys p WDone r tk gv) (mkPsys p WIdle (woken_r r) tk gv)
  | r_begin p w tk gv n : pstep (mkPsys p w RIdle tk gv) (mkPsys p w (RTop n) tk gv)
  | r_wait p w tk gv n : Pipe.empty p = true → writeopen p = true →
      pstep (mkPsys p w (RTop n) tk gv) (mkPsys p w (RDrowsy n) tk gv)
  | r_killed p w tk gv n : Pipe.empty p = true → writeopen p = true →
      pstep (mkPsys p w (RTop n) tk gv) (mkPsys p w RIdle tk gv)
  | r_go p w tk gv n : Pipe.empty p && writeopen p = false →
      pstep (mkPsys p w (RTop n) tk gv) (mkPsys p w (RRun n) tk gv)
  | r_sleep p w tk gv n : pstep (mkPsys p w (RDrowsy n) tk gv) (mkPsys p w (RSlept n) tk gv)
  | r_end p w tk gv n : n = 0%nat ∨ Pipe.empty p = true →
      pstep (mkPsys p w (RRun n) tk gv) (mkPsys p w RDone tk gv)
  | r_load p w tk gv n c : Pipe.empty p = false → Pipe.load p tt = Done (c, tt) →
      pstep (mkPsys p w (RRun (S n)) tk gv) (mkPsys p w (RBump c n) tk gv)
  | r_bump p w tk gv c n p' : Pipe.bump_read p tt = Done (p', tt) →
      pstep (mkPsys p w (RBump c n) tk gv) (mkPsys p' w (RRun n) tk (gv ++ [c]))
  | r_done p w tk gv : pstep (mkPsys p w RDone tk gv) (mkPsys p (woken_w w) RIdle tk gv)
  | close_write p r tk gv :
      pstep (mkPsys p WIdle r tk gv)
        (mkPsys (mkPipe (data p) (nread p) (nwrite p) (readopen p) false) WIdle (woken_r r) tk gv)
  | close_read p w tk gv :
      pstep (mkPsys p w RIdle tk gv)
        (mkPsys (mkPipe (data p) (nread p) (nwrite p) false (writeopen p)) (woken_w w) RIdle tk gv).

Definition pinit : psys :=
  mkPsys (mkPipe (replicate (Z.to_nat PIPESIZE) 0) 0 0 true true) WIdle RIdle [] [].

(** What each thread may rely on between its accesses. *)
Definition w_ok (p : PipeInner) (w : wthread) : Prop :=
  match w with
  | WStore _ _ => nwrite p - nread p < PIPESIZE
  | WBump c _ => nwrite p - nread p < PIPESIZE ∧ ring_at (data p) (nwrite p) = c
  | _ => True
  end.
Definition r_ok (p : PipeInner) (r : rthread) : Prop :=
  match r with
  | RBump c _ => nread p < nwrite p ∧ ring_at (data p) (nread p) = c
  | _ => True
  end.
Record pinv (s : psys) : Prop := {
  pi_cap : cap (data (shared s)) = PIPESIZE;
  pi_count : 0 ≤ nwrite (shared s) - nread (shared s) ≤ PIPESIZE;
  pi_fifo : taken s = given s ++
    ring_slice (data (shared s)) (nread (shared s)) (nwrite (shared s) - nread (shared s));
  pi_w : w_ok (shared s) (wt s);
  pi_r : r_ok (shared s) (rt s)
}.

Lemma w_ok_woken p w : w_ok p w → w_ok p (woken_w w).
Proof. by destruct w. Qed.
Lemma r_ok_woken p r : r_ok p r → r_ok p (woken_r r).
Proof. by destruct r. Qed.
Lemma ring_at_load p c : cap (data p) = PIPESIZE → Pipe.load p tt = Done (c, tt) →
  ring_at (data p) (nread p) = c.
Proof.
  intros Hc. unfold Pipe.load, ring_at. rewrite Hc. destruct (data p !! _); [|done].
  by intros [= ->].
Qed.
Lemma bump_write_Done p p' :
  Pipe.bump_write p tt = Done (p', tt) →
  p' = mkPipe (data p) (nread p) (nwrite p + 1) (readopen p) (writeopen p).
Proof.
  unfold Pipe.bump_write, uadd. destruct (_ <? _); [|done]. by intros [= <-].
Qed.
Lemma bump_read_Done p p' :
  Pipe.bump_read p tt = Done (p', tt) →
  p' = mkPipe (data p) (nread p + 1) (nwrite p) (readopen p) (writeopen p).
Proof.
  unfold Pipe.bump_read, uadd. destruct (_ <? _); [|done]. by intros [= <-].
Qed.
Lemma full_Done p b :
  Pipe.full p tt = Done (b, tt) → b = (nwrite p =? nread p + PIPESIZE).
Proof. unfold Pipe.full, uadd. destruct (_ <? _); [|done]. by intros [= <-]. Qed.

(** A store beyond the bytes in the pipe leaves them, and the one the reader
    holds, alone. *)
Lemma store_inv p c t r tk gv :
  pinv (mkPsys p (WStore c t) r tk gv) → pinv (mkPsys (Pipe.store c p) (WBump c t) r tk gv).
Proof.
  intros [I1 I2 I3 I4 I5]. simpl in *.
  assert (nwrite p = nread p + (nwrite p - nread p)) as En by lia.
  assert (∀ q, nread p ≤ q ≤ nwrite p → ring_at (data (Pipe.store c p)) q =
    if q =? nwrite p then c else ring_at (data p) q) as Hat.
  { intros q Hq. simpl. rewrite <- I1. apply ring_at_store; rewrite I1; [done|lia]. }
  split; simpl.
  - by rewrite cap_store.
  - done.
  - rewrite <- I1, En at 1. by rewrite ring_store_past by (rewrite ?I1; lia).
  - split; [done|]. etransitivity; [apply Hat; lia|]. by rewrite Z.eqb_refl.
  - destruct r; try done. destruct I5 as [L <-]. split; [done|].
    etransitivity; [apply (Hat (nread p)); lia|]. by rewrite (proj2 (Z.eqb_neq _ _)) by lia.
Qed.
Lemma bump_write_inv p c t r tk gv p' :
  Pipe.bump_write p tt = Done (p', tt) →
  pinv (mkPsys p (WBump c t) r tk gv) → pinv (mkPsys p' (WTop t) r (tk ++ [c]) gv).
Proof.
  intros ->%bump_write_Done [I1 I2 I3 [I4 I4'] I5]. simpl in *. split; simpl; try done; try lia.
  - replace (nwrite p + 1 - nread p) with (nwrite p - nread p + 1) by lia.
    rewrite ring_slice_app, ring_slice_1 by lia.
    replace (nread p + (nwrite p - nread p)) with (nwrite p) by lia.
    by rewrite I4', I3, app_assoc.
  - destruct r; try done. destruct I5. split; [simpl; lia|done].
Qed.
Lemma bump_read_inv p w c n tk gv p' :
  Pipe.bump_read p tt = Done (p', tt) →
  pinv (mkPsys p w (RBump c n) tk gv) → pinv (mkPsys p' w (RRun n) tk (gv ++ [c])).
Proof.
  intros ->%bump_read_Done [I1 I2 I3 I4 [I5 I5']]. simpl in *. split; simpl; try done; try lia.
  - rewrite I3, <- app_assoc. f_equal. rewrite ring_slice_cons by lia. rewrite I5'.
    by replace (nwrite p - nread p - 1) with (nwrite p - (nread p + 1)) by lia.
  - destruct w; simpl in *; try done; lia.
Qed.

Lemma pstep_inv s s' : pstep s s' → pinv s → pinv s'.
Proof.
  destruct 1 as [| | |? ? ? ? ? ? ? Hf| | | | | | | | | | | |? ? ? ? ? ? He Hl| | | |]; intros I.
  5: by apply store_inv.
  5: by eapply bump_write_inv.
  15: by eapply bump_read_inv.
  all: destruct I as [I1 I2 I3 I4 I5]; simpl in *;
    split; simpl; eauto using w_ok_woken, r_ok_woken.
  - apply full_Done in Hf as ->. destruct (Z.eqb_spec (nwrite p) (nread p + PIPESIZE)); [done|].
    simpl. lia.
  - unfold Pipe.empty in He. apply Z.eqb_neq in He. split; [lia|by apply ring_at_load].
Qed.

Lemma pinv_reach s0 s : rtc pstep s0 s → pinv s0 → pinv s.
Proof. induction 1; eauto using pstep_inv. Qed.

(** C32. Bytes do not get lost or reordered in a pipe. Under every
    interleaving of the accesses of a writer and a reader that do not exclude
    each other, the bytes the reader was given are a prefix of the bytes
    taken from the writer, and the rest are in the pipe, at most [PIPESIZE]
    of them. *)
Theorem pipe_fifo s :
  rtc pstep pinit s →
  ∃ q, taken s = given s ++ q ∧ Z.of_nat (length q) ≤ PIPESIZE ∧
    q = ring_slice (data (shared s)) (nread (shared s)) (nwrite (shared s) - nread (shared s)).
Proof.
  intros Hr. assert (pinv s) as I by (apply (pinv_reach pinit); [done|];
    split; [done|by vm_compute|done|done|done]).
  eexists. split; [apply (pi_fifo _ I)|]. split; [|done].
  rewrite length_ring_slice by apply I. apply I.
Qed.

Lemma pipe_fifo_witness :
  ∃ s, taken s = [7] ∧ given s = [] ∧ ∃ q, taken s = given s ++ q ∧ q = [7].
Proof.
  set (p1 := mkPipe (<[0%nat := 7]> (replicate (Z.to_nat PIPESIZE) 0)) 0 1 true true).
  exists (mkPsys p1 (WTop []) RIdle [7] []). split; [done|]. split; [done|].
  destruct (pipe_fifo (mkPsys p1 (WTop []) RIdle [7] [])) as (q & E & _ & _).
  - eapply rtc_l; [apply (w_begin _ _ _ _ [7])|].
    eapply rtc_l; [by apply (w_check _ _ _ _ _ _ false)|].
    eapply rtc_l; [apply w_store|].
    eapply rtc_l; [by apply w_bump|]. apply rtc_refl.
  - exists q. split; [exact E|]. symmetry. exact E.
Defined.
