(* ===== verification/Console.v ===== *)
(** * Console and UART: the operations

    [driver/uart.rs] and [driver/console.rs]: a ring of output bytes that the
    transmitter drains, and a ring of input bytes with a line editor. The
    counters are [Wrapping<usize>]. The device is a parameter: what successive
    reads of its line status register report about the transmitter. *)
From S2P Require Import Prelude.
From S2P Require Import Layout.
From S2P Require Import Kalloc.
From S2P Require Import PageTable.
From S2P Require Import Fs.

Definition UART_BUF_SIZE : Z := 32.
Definition INPUT_BUF : Z := 128.
Definition CTRL_EOT : Z := 4.
Definition CTRL_BS : Z := 8.
Definition CTRL_LF : Z := 10.
Definition CTRL_CR : Z := 13.
Definition CTRL_DEL : Z := 127.
Definition CTRL_PRINT_PROCESS : Z := 16.
Definition CTRL_BS_LINE : Z := 21.

Record Uart := mkUart { ubuf : list Z; uwrite : Z; uread : Z }.
Record Console := mkConsole { cbuf : list Z; read_index : Z; write_index : Z; edit_index : Z }.
Module Uart.
Definition new : Uart := mkUart (replicate (Z.to_nat UART_BUF_SIZE) 0) 0 0.
End Uart.
Module Console.
Definition new : Console := mkConsole (replicate (Z.to_nat INPUT_BUF) 0) 0 0 0.
End Console.

(** Who wrote a byte to the transmit holding register. *)
Inductive via := Ring | Sync.
(** The two drivers, the bytes written to the transmitter, the bytes waiting
    in the receiver, the number of reads of the line status register, the
    wake-ups of readers and of writers, memory, the page table of the running
    process and whether it is killed. *)
Record tty := mkTty {
  uart : Uart; con : Console; thr : list (via * Z); rhr : list Z; polls : nat;
  rwakes : nat; wwakes : nat; tmem : mem; tpgt : option Z; tkilled : bool
}.
(** The end of a call: its result, or a sleep and what to continue with. *)
Inductive tblock (A B : Type) := TRet (a : A) | TSleep (b : B).
Arguments TRet {A B}. Arguments TSleep {A B}.

Definition wadd (x y : Z) : Z := wrap 64 (x + y).
Definition wsub (x y : Z) : Z := wrap 64 (x - y).

Section tty.
(** [lsr t] is bit 5 of the line status register at its [t]-th read; [spin]
    bounds the reads a busy wait may take; [panicked] is [PANICKED]. *)
Context (panicked : bool) (lsr : nat → bool) (spin : nat).
Abbreviation TM := (M tty).

Definition put_uart (u : Uart) : TM unit :=
  modify (λ s, mkTty u (con s) (thr s) (rhr s) (polls s) (rwakes s) (wwakes s) (tmem s) (tpgt s)
    (tkilled s)).
Definition put_con (c : Console) : TM unit :=
  modify (λ s, mkTty (uart s) c (thr s) (rhr s) (polls s) (rwakes s) (wwakes s) (tmem s) (tpgt s)
    (tkilled s)).
Definition write_thr (v : via) (c : Z) : TM unit :=
  modify (λ s, mkTty (uart s) (con s) (thr s ++ [(v, c)]) (rhr s) (polls s) (rwakes s) (wwakes s)
    (tmem s) (tpgt s) (tkilled s)).
Definition wake_readers : TM unit :=
  modify (λ s, mkTty (uart s) (con s) (thr s) (rhr s) (polls s) (S (rwakes s)) (wwakes s) (tmem s)
    (tpgt s) (tkilled s)).
Definition wake_writers : TM unit :=
  modify (λ s, mkTty (uart s) (con s) (thr s) (rhr s) (polls s) (rwakes s) (S (wwakes s)) (tmem s)
    (tpgt s) (tkilled s)).
Definition on_tmem {A} : M mem A → TM A :=
  zoom tmem (λ m s, mkTty (uart s) (con s) (thr s) (rhr s) (polls s) (rwakes s) (wwakes s) m
    (tpgt s) (tkilled s)).

(** ** The UART *)

(** [idle()] *)
Definition idle : TM bool := λ s,
  Done (lsr (polls s), mkTty (uart s) (con s) (thr s) (rhr s) (S (polls s)) (rwakes s) (wwakes s)
    (tmem s) (tpgt s) (tkilled s)).
(** [while !idle() {}] *)
Fixpoint wait_idle (fuel : nat) : TM unit :=
  match fuel with
  | O => hang
  | S fuel' => b ← idle; if (b : bool) then mret tt else wait_idle fuel'
  end.
(** A panicked kernel loops here. *)
Definition putc_sync (c : Z) : TM unit :=
  if panicked then hang else wait_idle spin ;; write_thr Sync c.
Definition put (c : Z) : TM unit := wait_idle spin ;; write_thr Sync c.
(** [Write for Uart] *)
Definition write_str (out : list Z) : TM unit := for_each out put.

Definition oob : string := "index out of bounds".
Fixpoint transmit_loop (fuel : nat) : TM unit :=
  s ← get;
  let u := uart s in
  if uwrite u =? uread u then mret tt else
  match fuel with
  | O => hang
  | S fuel' =>
    b ← idle;
    if negb b then mret tt else
    c ← unwrap (ubuf u !! Z.to_nat (uread u mod UART_BUF_SIZE)) oob;
    put_uart (mkUart (ubuf u) (uwrite u) (wadd (uread u) 1)) ;;
    wake_writers ;;
    write_thr Ring c ;;
    transmit_loop fuel'
  end.
Definition transmit : TM unit := transmit_loop (S (Z.to_nat UART_BUF_SIZE)).

(** [putc]: a call that finds the ring full sleeps and starts over. *)
Definition uart_putc (c : Z) : TM (tblock unit unit) :=
  if panicked then hang else
  s ← get;
  let u := uart s in
  if uwrite u =? wadd (uread u) UART_BUF_SIZE then mret (TSleep tt) else
  put_uart (mkUart (<[Z.to_nat (uwrite u mod UART_BUF_SIZE) := c]> (ubuf u)) (wadd (uwrite u) 1)
    (uread u)) ;;
  transmit ;;
  mret (TRet tt).

(** ** The console *)
Definition putc (c : Z) : TM unit :=
  if c =? CTRL_BS then putc_sync CTRL_BS ;; putc_sync 32 ;; putc_sync CTRL_BS else putc_sync c.

(** The loop of [CTRL_BS_LINE]. *)
Fixpoint erase_line (fuel : nat) : TM unit :=
  s ← get;
  let c := con s in
  if edit_index c =? write_index c then mret tt else
  x ← unwrap (cbuf c !! Z.to_nat (wsub (edit_index c) 1 mod INPUT_BUF)) oob;
  if x =? CTRL_LF then mret tt else
  match fuel with
  | O => hang
  | S fuel' =>
    put_con (mkConsole (cbuf c) (read_index c) (write_index c) (wsub (edit_index c) 1)) ;;
    putc CTRL_BS ;;
    erase_line fuel'
  end.

Definition console_intr (ch : Z) : TM unit :=
  s ← get;
  let c := con s in
  if ch =? CTRL_PRINT_PROCESS then mret tt else
  if ch =? CTRL_BS_LINE then erase_line (Z.to_nat INPUT_BUF) else
  if (ch =? CTRL_BS) || (ch =? CTRL_DEL) then
    if edit_index c =? write_index c then mret tt else
    put_con (mkConsole (cbuf c) (read_index c) (write_index c) (wsub (edit_index c) 1)) ;;
    putc CTRL_BS
  else
  if negb (ch =? 0) && (wsub (edit_index c) (read_index c) <? INPUT_BUF) then
    let ch := if ch =? CTRL_CR then CTRL_LF else ch in
    putc ch ;;
    let buf := <[Z.to_nat (edit_index c mod INPUT_BUF) := ch]> (cbuf c) in
    let edit := wadd (edit_index c) 1 in
    if (ch =? CTRL_LF) || (ch =? CTRL_EOT) || (wsub edit (read_index c) =? INPUT_BUF)
    then put_con (mkConsole buf (read_index c) edit edit) ;; wake_readers
    else put_con (mkConsole buf (read_index c) (write_index c) edit)
  else mret tt.

(** One byte to the destination of [console_read]; the result of the user
    copy is dropped. *)
Definition copy_byte (pl : place) (dst c : Z) : TM unit :=
  match pl with
  | User =>
    s ← get;
    pgt ← unwrap (tpgt s) PageTable.unwrap_msg;
    on_tmem (PageTable.copy_out pgt dst [c] ;; mret tt)
  | Kernel => mret tt
  end.

(** The bytes read and the number returned, [None] for a killed process; or
    a sleep, with the bytes so far and the arguments to continue with. *)
Fixpoint read_loop (fuel : nat) (pl : place) (dst left size : Z) (acc : list Z)
    : TM (tblock (list Z * option Z) (list Z * Z * Z)) :=
  if left =? 0 then mret (TRet (acc, Some (size - left))) else
  match fuel with
  | O => hang
  | S fuel' =>
    s ← get;
    let c := con s in
    if read_index c =? write_index c then
      if tkilled s then mret (TRet (acc, None)) else mret (TSleep (acc, dst, left))
    else
    ch ← unwrap (cbuf c !! Z.to_nat (read_index c mod INPUT_BUF)) oob;
    put_con (mkConsole (cbuf c) (wadd (read_index c) 1) (write_index c) (edit_index c)) ;;
    if ch =? CTRL_EOT then
      (if left <? size
       then put_con (mkConsole (cbuf c) (wsub (wadd (read_index c) 1) 1) (write_index c) (edit_index c))
       else mret tt) ;;
      mret (TRet (acc, Some (size - left)))
    else
    copy_byte pl dst ch ;;
    dst' ← uadd 64 dst 1;
    if ch =? CTRL_LF then mret (TRet (acc ++ [ch], Some (size - (left - 1)))) else
    read_loop fuel' pl dst' (left - 1) size (acc ++ [ch])
  end.
Definition read_resume (pl : place) (dst left size : Z) (acc : list Z) :=
  read_loop (S (Z.to_nat left)) pl dst left size acc.
Definition console_read (pl : place) (dst size : Z) := read_resume pl dst size size [].

(** The source byte of [console_write]. *)
Definition fetch_byte (pl : place) (ksrc : list Z) (src : Z) : TM Z :=
  match pl with
  | User =>
    s ← get;
    pgt ← unwrap (tpgt s) PageTable.unwrap_msg;
    bs ← on_tmem (PageTable.copy_in pgt 1 src);
    mret (nth 0 bs 0)
  | Kernel => unwrap (ksrc !! Z.to_nat src) oob
  end.
(** The number of bytes written, or a sleep with byte [i] in hand. *)
Fixpoint write_loop (fuel : nat) (pl : place) (ksrc : list Z) (src i size : Z)
    : TM (tblock Z (Z * Z * Z)) :=
  if size <=? i then mret (TRet size) else
  match fuel with
  | O => hang
  | S fuel' =>
    c ← fetch_byte pl ksrc src;
    r ← uart_putc c;
    match r with
    | TSleep _ => mret (TSleep (c, src, i))
    | TRet _ => src' ← uadd 64 src 1; write_loop fuel' pl ksrc src' (i + 1) size
    end
  end.
Definition write_resume (pl : place) (ksrc : list Z) (c src i size : Z)
    : TM (tblock Z (Z * Z * Z)) :=
  r ← uart_putc c;
  match r with
  | TSleep _ => mret (TSleep (c, src, i))
  | TRet _ =>
    src' ← uadd 64 src 1;
    write_loop (S (Z.to_nat (size - (i + 1)))) pl ksrc src' (i + 1) size
  end.
Definition console_write (pl : place) (ksrc : list Z) (src size : Z) :=
  write_loop (S (Z.to_nat size)) pl ksrc src 0 size.

(** [Mutex<Uart>::intr]: the receiver is drained into the console, then the
    transmitter is fed. *)
Fixpoint drain (cs : list Z) : TM unit :=
  match cs with
  | [] => mret tt
  | c :: cs' =>
    modify (λ s, mkTty (uart s) (con s) (thr s) cs' (polls s) (rwakes s) (wwakes s) (tmem s)
      (tpgt s) (tkilled s)) ;;
    console_intr c ;;
    drain cs'
  end.
Definition uart_irq : TM unit :=
  s ← get;
  drain (rhr s) ;;
  transmit.

(** ** Polled input, which no code of the kernel calls any more *)
Definition get_char : TM (option Z) :=
  s ← get;
  match rhr s with
  | [] => mret None
  | c :: cs =>
    modify (λ s, mkTty (uart s) (con s) (thr s) cs (polls s) (rwakes s) (wwakes s) (tmem s) (tpgt s)
      (tkilled s)) ;;
    mret (Some c)
  end.
Definition uart_get : TM Z := r ← get_char; unwrap r "Fail to get char".
Definition uart_put (c : Z) : TM unit := put c.
(** [c as char], in UTF-8. *)
Definition char_utf8 (c : Z) : list Z := if c <? 128 then [c] else [0xC0 + c / 64; 0x80 + c mod 64].
Definition uart_intr : TM unit :=
  r ← get_char;
  match r with
  | None => mret tt
  | Some c =>
    if c =? 8 then write_str [8; 32; 8; 10]
    else if (c =? 10) || (c =? 13) then write_str [10]
    else write_str (char_utf8 c ++ [10])
  end.
End tty.
