(* ===== verification/ConsoleSpec.v ===== *)
(** * The line discipline of the console, and the output of the UART

    The ring of the console holds the lines that were completed and the line
    being edited; an abstract line editor says what each input byte does to
    them and what a read returns. The ring of the UART is a queue between
    writers and the transmitter. *)
From S2P Require Import Prelude.
From S2P Require Import Layout.
From S2P Require Import Kalloc.
From S2P Require Import PageTable.
From S2P Require Import Fs.
From S2P Require Import Ring.
From S2P Require Import Console.

(** ** The line editor *)
Record editor := mkEditor { lines : list Z; line : list Z }.

(** What is echoed for a byte. *)
Definition echo (c : Z) : list Z := if c =? CTRL_BS then [CTRL_BS; 32; CTRL_BS] else [c].
Definition ends_line (c : Z) : bool := (c =? CTRL_LF) || (c =? CTRL_EOT).

(** The new state and the echo. *)
Definition edit (c : Z) (e : editor) : editor * list Z :=
  if c =? CTRL_PRINT_PROCESS then (e, [])
  else if c =? CTRL_BS_LINE then (mkEditor (lines e) [], mjoin (replicate (length (line e)) (echo CTRL_BS)))
  else if (c =? CTRL_BS) || (c =? CTRL_DEL) then
    match line e with
    | [] => (e, [])
    | _ => (mkEditor (lines e) (take (length (line e) - 1) (line e)), echo CTRL_BS)
    end
  else if negb (c =? 0) && (Z.of_nat (length (lines e ++ line e)) <? INPUT_BUF) then
    let c := if c =? CTRL_CR then CTRL_LF else c in
    let l := line e ++ [c] in
    if ends_line c || (Z.of_nat (length (lines e ++ l)) =? INPUT_BUF)
    then (mkEditor (lines e ++ l) [], echo c)
    else (mkEditor (lines e) l, echo c)
  else (e, []).

(** A read of [size] bytes with [left] to go: the bytes, what is left of the
    lines, and whether it ends. *)
Fixpoint take_line (size left : Z) (q : list Z) : list Z * list Z * bool :=
  if left =? 0 then ([], q, true) else
  match q with
  | [] => ([], [], false)
  | c :: q' =>
    if c =? CTRL_EOT then ([], if left <? size then q else q', true)
    else if c =? CTRL_LF then ([c], q', true)
    else let '(bs, q'', b) := take_line size (left - 1) q' in (c :: bs, q'', b)
  end.

(** ** The ring *)
Record con_rep (c : Console) (e : editor) : Prop := {
  cr_cap : cap (cbuf c) = INPUT_BUF;
  cr_room : Z.of_nat (length (lines e ++ line e)) ≤ INPUT_BUF;
  cr_plain : Forall (λ x, ends_line x = false) (line e);
  cr_pos : ∃ r, read_index c = wrap 64 r ∧ write_index c = wrap 64 (r + Z.of_nat (length (lines e))) ∧
    edit_index c = wrap 64 (r + Z.of_nat (length (lines e ++ line e))) ∧
    ring_slice (cbuf c) r (Z.of_nat (length (lines e ++ line e))) = lines e ++ line e
}.

Section tty.
Context (lsr : nat → bool) (spin : nat).
(** The transmitter becomes idle again within [spin] reads of its status. *)
Hypothesis Hidle : ∀ t, ∃ k, (k < spin)%nat ∧ lsr (t + k) = true.
Implicit Types (s : tty) (c : Console) (e : editor).

Definition sent s : list Z := snd <$> thr s.
(** [s'] is [s] after [n] more reads of the status, with [out] sent. *)
Definition echoed (out : list Z) s s' : Prop :=
  ∃ n, s' = mkTty (uart s) (con s) (thr s ++ ((Sync,.) <$> out)) (rhr s) n (rwakes s) (wwakes s)
    (tmem s) (tpgt s) (tkilled s).

Lemma echoed_trans o1 o2 s1 s2 s3 : echoed o1 s1 s2 → echoed o2 s2 s3 → echoed (o1 ++ o2) s1 s3.
Proof.
  intros [n1 ->] [n2 ->]. exists n2. simpl. by rewrite fmap_app, app_assoc.
Qed.

Lemma wait_idle_run fuel s k :
  (k < fuel)%nat → lsr (polls s + k) = true → ∃ s', wait_idle lsr fuel s = Done (tt, s') ∧ echoed [] s s'.
Proof.
  revert s k. induction fuel as [|fuel IH]; intros s k Hk Hl; [lia|]. cbn [wait_idle].
  unfold idle at 1. unfold mbind at 1, M_bind at 1. cbv beta iota.
  set (s1 := mkTty _ _ _ _ _ _ _ _ _ _). destruct (lsr (polls s)) eqn:E.
  - exists s1. split; [done|]. exists (S (polls s)). simpl. by rewrite app_nil_r.
  - destruct k as [|k]; [rewrite Nat.add_0_r in Hl; congruence|].
    destruct (IH s1 k) as (s' & E' & n & ->); [lia|by rewrite Nat.add_succ_r in Hl|].
    exists (mkTty (uart s1) (con s1) (thr s1 ++ ((Sync,.) <$> [])) (rhr s1) n (rwakes s1) (wwakes s1)
      (tmem s1) (tpgt s1) (tkilled s1)). split; [done|]. by exists n.
Qed.
Lemma putc_sync_run ch s : ∃ s', putc_sync false lsr spin ch s = Done (tt, s') ∧ echoed [ch] s s'.
Proof using Hidle.
  destruct (Hidle (polls s)) as (k & Hk & Hl).
  destruct (wait_idle_run spin s k Hk Hl) as (s1 & E & n & ->). unfold putc_sync. mstep E.
  eexists. split; [reflexivity|]. exists n. simpl. by rewrite app_nil_r.
Qed.
Lemma putc_run ch s : ∃ s', putc false lsr spin ch s = Done (tt, s') ∧ echoed (echo ch) s s'.
Proof using Hidle.
  unfold putc, echo. destruct (ch =? CTRL_BS); [|apply putc_sync_run].
  destruct (putc_sync_run CTRL_BS s) as (s1 & E1 & H1). mstep E1.
  destruct (putc_sync_run 32 s1) as (s2 & E2 & H2). mstep E2.
  destruct (putc_sync_run CTRL_BS s2) as (s3 & E3 & H3). exists s3. split; [done|].
  exact (echoed_trans [_] [_; _] _ _ _ H1 (echoed_trans [_] [_] _ _ _ H2 H3)).
Qed.

(** *** What the counters say about the ring *)
Lemma cap_divides c : cap (cbuf c) = INPUT_BUF → (cap (cbuf c) | 2 ^ 64).
Proof. intros ->. by exists (2 ^ 57). Qed.
Lemma ring_lookup (data : list Z) p :
  0 < cap data → data !! Z.to_nat (p mod cap data) = Some (ring_at data p).
Proof.
  intros Hc. unfold ring_at. pose proof (Z.mod_pos_bound p (cap data) Hc).
  destruct (lookup_lt_is_Some_2 data (Z.to_nat (p mod cap data))) as [x Hx]; [unfold cap in *; lia|].
  by rewrite Hx.
Qed.
Lemma con_edit_empty c e : con_rep c e → (edit_index c =? write_index c) = bool_decide (line e = []).
Proof.
  intros [H1 H2 H3 (r & Er & Ew & Ee & _)]. rewrite length_app, Nat2Z.inj_add in *.
  change INPUT_BUF with 128 in *. rewrite Ee, Ew. destruct (line e) as [|x l].
  - simpl. rewrite Z.add_0_r. apply Z.eqb_refl.
  - apply Z.eqb_neq. simpl in *. rewrite wrap_eq by lia. lia.
Qed.
Lemma con_read_empty c e : con_rep c e → (read_index c =? write_index c) = bool_decide (lines e = []).
Proof.
  intros [H1 H2 H3 (r & Er & Ew & Ee & _)]. rewrite length_app, Nat2Z.inj_add in *.
  change INPUT_BUF with 128 in *. rewrite Er, Ew. destruct (lines e) as [|x l].
  - simpl. rewrite Z.add_0_r. apply Z.eqb_refl.
  - apply Z.eqb_neq. simpl in *. rewrite wrap_eq by lia. lia.
Qed.
Lemma con_used c e :
  con_rep c e → wsub (edit_index c) (read_index c) = Z.of_nat (length (lines e ++ line e)).
Proof.
  intros [H1 H2 H3 (r & Er & Ew & Ee & _)]. unfold wsub. change INPUT_BUF with 128 in *.
  rewrite Er, Ee, wrap_sub by lia. lia.
Qed.

(** Dropping the last byte of the line. *)
Lemma con_pop c q l x :
  con_rep c (mkEditor q (l ++ [x])) →
  cbuf c !! Z.to_nat (wsub (edit_index c) 1 mod INPUT_BUF) = Some x ∧
  con_rep (mkConsole (cbuf c) (read_index c) (write_index c) (wsub (edit_index c) 1)) (mkEditor q l).
Proof.
  intros [H1 H2 H3 (r & Er & Ew & Ee & Es)]. simpl in *.
  rewrite app_assoc in H2, Ee, Es. rewrite length_app in *. simpl in *.
  rewrite Nat2Z.inj_add in *. set (n := Z.of_nat (length (q ++ l))) in *.
  assert (wsub (edit_index c) 1 = wrap 64 (r + n)) as Epop.
  { unfold wsub. rewrite Ee, <- Z.add_opp_r, wrap_add by lia. f_equal. lia. }
  rewrite ring_slice_app, ring_slice_1 in Es by lia. apply app_inj_2 in Es as [Es Ex]; [|done].
  injection Ex as Ex. apply Forall_app in H3 as [H3 _]. split.
  - rewrite Epop, (wrap_index 64), <- H1, ring_lookup by (by try exists (2 ^ 57); rewrite ?H1).
    by rewrite Ex.
  - split; simpl; [done|lia|done|]. exists r. fold n. by rewrite Epop.
Qed.
(** Adding a byte to the line, which is kept or completes it. *)
Lemma con_push c q l x :
  con_rep c (mkEditor q l) → Z.of_nat (length (q ++ l)) < INPUT_BUF →
  let b := <[Z.to_nat (edit_index c mod INPUT_BUF) := x]> (cbuf c) in
  let ed := wadd (edit_index c) 1 in
  wsub ed (read_index c) = Z.of_nat (length (q ++ l ++ [x])) ∧
  (ends_line x = false →
     con_rep (mkConsole b (read_index c) (write_index c) ed) (mkEditor q (l ++ [x]))) ∧
  con_rep (mkConsole b (read_index c) ed ed) (mkEditor (q ++ l ++ [x]) []).
Proof.
  intros [H1 H2 H3 (r & Er & Ew & Ee & Es)] Hl b ed. simpl in *.
  assert (Z.of_nat (length (q ++ l ++ [x])) = Z.of_nat (length (q ++ l)) + 1) as Hn.
  { rewrite app_assoc, length_app. simpl. lia. }
  set (n := Z.of_nat (length (q ++ l))) in *.
  assert (ed = wrap 64 (r + (n + 1))) as Eed.
  { unfold ed, wadd. rewrite Ee, wrap_add by lia. f_equal. lia. }
  assert (cap b = INPUT_BUF) as Hc by (unfold b; by rewrite cap_store).
  assert (ring_slice b r (n + 1) = q ++ l ++ [x]) as Eb.
  { unfold b. rewrite Ee, (wrap_index 64), <- H1 by (by try exists (2 ^ 57); rewrite ?H1).
    rewrite ring_push by lia. by rewrite Es, <- app_assoc. }
  split_and!.
  - unfold wsub. change INPUT_BUF with 128 in *. rewrite Eed, Er, Hn, wrap_sub by lia. lia.
  - intros Hx. split; simpl; [done|lia| |].
    + apply Forall_app. split; [done|]. by constructor.
    + exists r. by rewrite Hn, Eed, Eb.
  - split; simpl; [done|rewrite app_nil_r; lia|constructor|].
    exists r. by rewrite app_nil_r, Hn, Eed, Eb.
Qed.

(** *** Interrupts *)

(** [s'] differs from [s] in the console, the output and wake-ups. *)
Definition con_step (c' : Console) (out : list Z) s s' : Prop :=
  con s' = c' ∧ uart s' = uart s ∧ thr s' = thr s ++ ((Sync,.) <$> out) ∧ tmem s' = tmem s ∧
  tpgt s' = tpgt s ∧ tkilled s' = tkilled s ∧ rhr s' = rhr s ∧ wwakes s' = wwakes s.

Lemma echoed_step out s c0 s' :
  echoed out (mkTty (uart s) c0 (thr s) (rhr s) (polls s) (rwakes s) (wwakes s) (tmem s) (tpgt s)
    (tkilled s)) s' → con_step c0 out s s'.
Proof. intros [n ->]. by repeat split. Qed.

Lemma erase_line_run fuel : ∀ s q l,
  con_rep (con s) (mkEditor q l) → (length l ≤ fuel)%nat →
  ∃ s' c', erase_line false lsr spin fuel s = Done (tt, s') ∧ con_rep c' (mkEditor q []) ∧
    con_step c' (mjoin (replicate (length l) (echo CTRL_BS))) s s'.
Proof using Hidle.
  induction fuel as [|fuel IH]; intros s q l R Hf; cbn [erase_line];
    rewrite bind_get, (con_edit_empty _ _ R); simpl line.
  { destruct l; [|simpl in Hf; lia]. exists s, (con s). rewrite bool_decide_eq_true_2 by done.
    split_and!; [done|done|]. repeat split. by rewrite app_nil_r. }
  destruct l as [|y l0] eqn:El using rev_ind.
  { exists s, (con s). rewrite bool_decide_eq_true_2 by done.
    split_and!; [done|done|]. repeat split. by rewrite app_nil_r. }
  clear IHl0. rewrite bool_decide_eq_false_2 by (by destruct l0).
  destruct (con_pop _ _ _ _ R) as [Hx R']. rewrite Hx, bind_unwrap.
  assert (ends_line y = false) as Hy.
  { destruct R as [_ _ H3 _]. simpl in H3. apply Forall_app in H3 as [_ H3].
    by apply Forall_cons in H3 as [? _]. }
  unfold ends_line in Hy. apply orb_false_iff in Hy as [-> _].
  set (s1 := mkTty (uart s) (mkConsole (cbuf (con s)) (read_index (con s)) (write_index (con s))
    (wsub (edit_index (con s)) 1)) (thr s) (rhr s) (polls s) (rwakes s) (wwakes s) (tmem s) (tpgt s)
    (tkilled s)).
  assert (∀ A (K : M tty A), (put_con (mkConsole (cbuf (con s)) (read_index (con s))
    (write_index (con s)) (wsub (edit_index (con s)) 1)) ;; K) s = K s1) as -> by done.
  destruct (putc_run CTRL_BS s1) as (s2 & E2 & H2). mstep E2.
  apply (echoed_step _ s) in H2. destruct H2 as (C1 & C2 & C3 & C4 & C5 & C6 & C7 & C8).
  destruct (IH s2 q l0) as (s' & c' & E' & R2 & D1 & D2 & D3 & D4 & D5 & D6 & D7 & D8).
  { by rewrite C1. }
  { rewrite length_app in Hf. simpl in Hf. lia. }
  exists s', c'. split_and!; [done|done|]. repeat split; try congruence.
  rewrite D3, C3. rewrite length_app, Nat.add_comm. cbn [Nat.add length replicate].
  cbn [mjoin list_join]. by rewrite fmap_app, app_assoc.
Qed.

Lemma console_intr_run s e ch :
  con_rep (con s) e →
  ∃ s' c', console_intr false lsr spin ch s = Done (tt, s') ∧ con_rep c' (fst (edit ch e)) ∧
    con_step c' (snd (edit ch e)) s s'.
Proof using Hidle.
  intros R. destruct e as [q l]. unfold console_intr, edit. rewrite bind_get.
  assert (con_step (con s) [] s s) as Hsame by (repeat split; by rewrite app_nil_r).
  destruct (ch =? CTRL_PRINT_PROCESS); [by eauto 10|].
  destruct (ch =? CTRL_BS_LINE).
  { apply erase_line_run; [done|]. destruct R as [_ H2 _ _]. simpl in H2.
    rewrite length_app in H2. unfold INPUT_BUF in *. simpl line. simpl in H2. lia. }
  destruct ((ch =? CTRL_BS) || (ch =? CTRL_DEL)).
  { rewrite (con_edit_empty _ _ R). simpl line. destruct l as [|y l0 _] using rev_ind; [by eauto 10|].
    rewrite bool_decide_eq_false_2 by (by destruct l0). destruct (con_pop _ _ _ _ R) as [_ R'].
    set (c1 := mkConsole _ _ _ _) in *. unfold put_con. rewrite bind_modify.
    match goal with |- context [putc _ _ _ _ ?t] => destruct (putc_run CTRL_BS t) as (s2 & E2 & H2) end.
    apply echoed_step in H2. exists s2, c1. split; [done|].
    rewrite length_app, Nat.add_sub, take_app_length. destruct (l0 ++ [y]) eqn:El; [by destruct l0|].
    done. }
  rewrite (con_used _ _ R). cbn [lines line].
  destruct (negb (ch =? 0) && (Z.of_nat (length (q ++ l)) <? INPUT_BUF)) eqn:Eroom; [|by exists s, (con s)].
  apply andb_true_iff in Eroom as [_ Hl%Z.ltb_lt].
  set (x := if ch =? CTRL_CR then CTRL_LF else ch). cbv zeta.
  destruct (con_push (con s) q l x R Hl) as (P1 & P2 & P3). cbv zeta in P1, P2, P3.
  destruct (putc_run x s) as (s1 & E1 & n & ->). mstep E1. rewrite P1. fold (ends_line x).
  destruct (ends_line x || _) eqn:Eend; (eexists _, _; split; [reflexivity|]; split; [|repeat split]).
  - exact P3.
  - apply P2. by apply orb_false_iff in Eend as [? _].
Qed.

(** *** Reads *)

(** The copies of a read, one by one. *)
Fixpoint copies (pl : place) (pgt : option Z) (dst : Z) (bs : list Z) : M mem unit :=
  match bs with
  | [] => mret tt
  | b :: bs' =>
    match pl with
    | User => p ← unwrap pgt PageTable.unwrap_msg; PageTable.copy_out p dst [b] ;; mret tt
    | Kernel => mret tt
    end ;;
    dst' ← uadd 64 dst 1;
    copies pl pgt dst' bs'
  end.

Lemma con_shift c x q l :
  con_rep c (mkEditor (x :: q) l) →
  cbuf c !! Z.to_nat (read_index c mod INPUT_BUF) = Some x ∧
  wsub (wadd (read_index c) 1) 1 = read_index c ∧
  con_rep (mkConsole (cbuf c) (wadd (read_index c) 1) (write_index c) (edit_index c)) (mkEditor q l).
Proof.
  intros [H1 H2 H3 (r & Er & Ew & Ee & Es)]. cbn [lines line app length] in *.
  rewrite ring_slice_cons in Es by lia. injection Es as Ex Es.
  assert (wadd (read_index c) 1 = wrap 64 (r + 1)) as Ea by (unfold wadd; by rewrite Er, wrap_add).
  split_and!.
  - rewrite Er, (wrap_index 64), <- H1, ring_lookup by (by try exists (2 ^ 57); rewrite ?H1).
    by rewrite Ex.
  - unfold wsub. rewrite Ea, Er, <- Z.add_opp_r, wrap_add by lia. f_equal. lia.
  - split; cbn [lines line cbuf read_index write_index edit_index]; [done|lia|done|].
    exists (r + 1). rewrite Ea, Ew, Ee.
    split_and!; [done|f_equal; lia|f_equal; lia|].
    by replace (Z.of_nat (length (q ++ l))) with (Z.of_nat (S (length (q ++ l))) - 1) by lia.
Qed.

Definition with_con (c : Console) (m : mem) s : tty :=
  mkTty (uart s) c (thr s) (rhr s) (polls s) (rwakes s) (wwakes s) m (tpgt s) (tkilled s).

Lemma bind_put_con {A} c (K : M tty A) s : (put_con c ;; K) s = K (with_con c (tmem s) s).
Proof. done. Qed.

Lemma copy_byte_run pl dst b bs s m :
  copies pl (tpgt s) dst (b :: bs) (tmem s) = Done (tt, m) →
  ∃ m1, copy_byte pl dst b s = Done (tt, with_con (con s) m1 s) ∧ dst + 1 < 2 ^ 64 ∧
    copies pl (tpgt s) (dst + 1) bs m1 = Done (tt, m).
Proof.
  cbn [copies]. intros Hc. minv Hc. destruct a. minv Hc. unfold uadd in Hc1.
  destruct (Z.ltb_spec (dst + 1) (2 ^ 64)); [|done]. injection Hc1 as <- <-.
  exists s0. split; [|done]. destruct pl; cbn [copy_byte].
  - rewrite bind_get. minv Hc0. destruct (tpgt s); [|done]. injection Hc1 as <- <-.
    rewrite bind_unwrap. unfold on_tmem, zoom. simpl in Hc0. by rewrite Hc0.
  - injection Hc0 as <-. by destruct s.
Qed.

Lemma console_read_run pl size fuel : ∀ s q l dst left acc m,
  con_rep (con s) (mkEditor q l) → 0 ≤ left ≤ size → (Z.to_nat left < fuel)%nat → tkilled s = false →
  let '(bs, q', b) := take_line size left q in
  copies pl (tpgt s) dst bs (tmem s) = Done (tt, m) →
  ∃ c', read_loop fuel pl dst left size acc s =
      Done (if b then TRet (acc ++ bs, Some (size - (left - Z.of_nat (length bs))))
            else TSleep (acc ++ bs, dst + Z.of_nat (length bs), left - Z.of_nat (length bs)),
            with_con c' m s) ∧
    con_rep c' (mkEditor q' l).
Proof.
  induction fuel as [|fuel IH]; intros s q l dst left acc m R Hl Hf Hk; [lia|].
  destruct q as [|x q]; cbn [take_line]; cbn [read_loop]; destruct (Z.eqb_spec left 0) as [->|Hne].
  1,3: intros [= <-]; exists (con s); rewrite app_nil_r; (split; [|done]);
    unfold with_con; destruct s; simpl; do 4 f_equal; lia.
  - intros [= <-]. rewrite bind_get, (con_read_empty _ _ R). simpl. rewrite Hk.
    exists (con s). rewrite app_nil_r, Z.add_0_r, Z.sub_0_r. split; [|done]. by destruct s.
  - destruct (con_shift _ _ _ _ R) as (Hx & Hback & R').
    assert ((read_index (con s) =? write_index (con s)) = false) as Hne'.
    { rewrite (con_read_empty _ _ R). done. }
    set (c1 := mkConsole _ _ _ _) in R'.
    destruct (Z.eqb_spec x CTRL_EOT) as [Heot|Heot].
    { intros [= <-]. rewrite bind_get, Hne', Hx, bind_unwrap, bind_put_con.
      rewrite (proj2 (Z.eqb_eq x CTRL_EOT)) by done. rewrite app_nil_r, Z.sub_0_r.
      destruct (left <? size); eexists; (split; [reflexivity|]); simpl; [|exact R'].
      rewrite Hback. by destruct (con s). }
    destruct (Z.eqb_spec x CTRL_LF) as [Hlf|Hlf].
    + intros Hc. rewrite bind_get, Hne', Hx, bind_unwrap, bind_put_con. fold c1.
      rewrite (proj2 (Z.eqb_neq x CTRL_EOT)) by done.
      destruct (copy_byte_run pl dst x [] (with_con c1 (tmem s) s) m Hc) as (m1 & E1 & Hd & Hm).
      mstep E1. injection Hm as ->. rewrite bind_uadd by done.
      rewrite (proj2 (Z.eqb_eq x CTRL_LF)) by done. exists c1. by split.
    + destruct (take_line size (left - 1) q) as [[bs q'] b] eqn:Et. intros Hc.
      rewrite bind_get, Hne', Hx, bind_unwrap, bind_put_con. fold c1.
      rewrite (proj2 (Z.eqb_neq x CTRL_EOT)) by done.
      destruct (copy_byte_run pl dst x bs (with_con c1 (tmem s) s) m Hc) as (m1 & E1 & Hd & Hm).
      mstep E1. rewrite bind_uadd by done. rewrite (proj2 (Z.eqb_neq x CTRL_LF)) by done.
      specialize (IH (with_con c1 m1 s) q l (dst + 1) (left - 1) (acc ++ [x]) m R' ltac:(lia)
        ltac:(lia) Hk). rewrite Et in IH. destruct (IH Hm) as (c' & E & Rc). exists c'.
      split; [|done]. etransitivity; [exact E|]. rewrite <- app_assoc.
      cbn [app length].
      replace (left - Z.of_nat (S (length bs))) with (left - 1 - Z.of_nat (length bs)) by lia.
      by replace (dst + Z.of_nat (S (length bs))) with (dst + 1 + Z.of_nat (length bs)) by lia.
Qed.

(** C20. The console is a line editor. From the empty ring on, every input byte
    has exactly the effect [edit] describes on the completed lines and the
    line being edited, with its echo, and a read returns what [take_line]
    says of the completed lines: up to and including the next line feed, up
    to an end-of-transmission, or as many bytes as were asked for; it sleeps
    only when the lines are used up before that. *)
Theorem console_line_discipline :
  con_rep Console.new (mkEditor [] []) ∧
  ∀ s e, con_rep (con s) e →
  (∀ ch, ∃ s', console_intr false lsr spin ch s = Done (tt, s') ∧ con_rep (con s') (fst (edit ch e)) ∧
     sent s' = sent s ++ snd (edit ch e) ∧ uart s' = uart s ∧ tmem s' = tmem s) ∧
  (∀ pl dst size m, 0 ≤ size → tkilled s = false →
     let '(bs, q, b) := take_line size size (lines e) in
     copies pl (tpgt s) dst bs (tmem s) = Done (tt, m) →
     ∃ s', console_read pl dst size s =
         Done (if b then TRet (bs, Some (Z.of_nat (length bs)))
               else TSleep (bs, dst + Z.of_nat (length bs), size - Z.of_nat (length bs)), s') ∧
       con_rep (con s') (mkEditor q (line e)) ∧ tmem s' = m ∧ thr s' = thr s).
Proof using Hidle.
  split.
  { split; [done|done|constructor|]. exists 0. by split_and!. }
  intros s e R. split.
  - intros ch. destruct (console_intr_run s e ch R)
      as (s' & c' & E & R' & <- & C2 & C3 & C4 & C5 & C6 & C7 & C8).
    exists s'. split_and!; try done. unfold sent. rewrite C3, fmap_app, <- list_fmap_compose.
    f_equal. rewrite <- (list_fmap_id (snd (edit ch e))) at 2. done.
  - intros pl dst size m Hs Hk. destruct e as [q l].
    pose proof (console_read_run pl size (S (Z.to_nat size)) s q l dst size [] m R ltac:(lia)
      ltac:(lia) Hk) as H. cbn [lines line].
    destruct (take_line size size q) as [[bs q'] b]. intros Hc. destruct (H Hc) as (c' & E & R').
    exists (with_con c' m s). split_and!; [|done..]. unfold console_read, read_resume.
    rewrite E. cbn [app].
    by replace (size - (size - Z.of_nat (length bs))) with (Z.of_nat (length bs)) by lia.
Qed.
End tty.

(** ** The output queue of the UART *)
Record uart_rep (u : Uart) (q : list Z) : Prop := {
  ur_cap : cap (ubuf u) = UART_BUF_SIZE;
  ur_room : Z.of_nat (length q) ≤ UART_BUF_SIZE;
  ur_pos : ∃ r, uread u = wrap 64 r ∧ uwrite u = wrap 64 (r + Z.of_nat (length q)) ∧
    ring_slice (ubuf u) r (Z.of_nat (length q)) = q
}.
(** The bytes the transmitter got from the ring. *)
Definition from_ring (t : list (via * Z)) : list Z :=
  t ≫= λ x, match x with (Ring, c) => [c] | (Sync, _) => [] end.

Section uart.
Context (lsr : nat → bool).
Implicit Types (s : tty) (q : list Z).

Lemma uart_empty u q : uart_rep u q → (uwrite u =? uread u) = bool_decide (q = []).
Proof.
  intros [H1 H2 (r & Er & Ew & _)]. change UART_BUF_SIZE with 32 in *. rewrite Er, Ew.
  destruct q as [|x q]; simpl in *.
  - rewrite Z.add_0_r. apply Z.eqb_refl.
  - apply Z.eqb_neq. rewrite wrap_eq by lia. lia.
Qed.
Lemma uart_full u q :
  uart_rep u q → (uwrite u =? wadd (uread u) UART_BUF_SIZE) = (Z.of_nat (length q) =? UART_BUF_SIZE).
Proof.
  intros [H1 H2 (r & Er & Ew & _)]. change UART_BUF_SIZE with 32 in *.
  unfold wadd. rewrite Er, Ew, wrap_add by lia.
  destruct (Z.eqb_spec (Z.of_nat (length q)) 32) as [->|Hne]; [apply Z.eqb_refl|].
  apply Z.eqb_neq. rewrite wrap_eq by lia. lia.
Qed.
Lemma uart_shift u x q :
  uart_rep u (x :: q) →
  ubuf u !! Z.to_nat (uread u mod UART_BUF_SIZE) = Some x ∧
  uart_rep (mkUart (ubuf u) (uwrite u) (wadd (uread u) 1)) q.
Proof.
  intros [H1 H2 (r & Er & Ew & Es)]. cbn [length] in *.
  rewrite ring_slice_cons in Es by lia. injection Es as Ex Es. split.
  - rewrite Er, (wrap_index 64), <- H1, ring_lookup by (by try exists (2 ^ 59); rewrite ?H1).
    by rewrite Ex.
  - split; simpl; [done|lia|]. exists (r + 1). unfold wadd. rewrite Er, Ew, wrap_add by lia.
    split_and!; [done|f_equal; lia|].
    by replace (Z.of_nat (length q)) with (Z.of_nat (S (length q)) - 1) by lia.
Qed.
Lemma uart_push u q x :
  uart_rep u q → Z.of_nat (length q) < UART_BUF_SIZE →
  uart_rep (mkUart (<[Z.to_nat (uwrite u mod UART_BUF_SIZE) := x]> (ubuf u)) (wadd (uwrite u) 1)
    (uread u)) (q ++ [x]).
Proof.
  intros [H1 H2 (r & Er & Ew & Es)] Hl.
  assert (Z.of_nat (length (q ++ [x])) = Z.of_nat (length q) + 1) as Hn by (rewrite length_app; simpl; lia).
  split; cbn [ubuf uread uwrite]; [by rewrite cap_store|lia|]. exists r. rewrite Hn.
  split_and!; [done|unfold wadd; rewrite Ew, wrap_add by lia; f_equal; lia|].
  rewrite Ew, (wrap_index 64), <- H1 by (by try exists (2 ^ 59); rewrite ?H1).
  by rewrite ring_push, Es by lia.
Qed.

(** The transmitter takes a prefix of the queue and stops when the queue is
    empty or the device is busy. *)
Lemma transmit_loop_run fuel : ∀ s q,
  uart_rep (uart s) q → (length q ≤ fuel)%nat →
  ∃ s' q1 q2, transmit_loop lsr fuel s = Done (tt, s') ∧ q = q1 ++ q2 ∧ uart_rep (uart s') q2 ∧
    thr s' = thr s ++ ((Ring,.) <$> q1) ∧ con s' = con s ∧
    (q2 = [] ∨ ∃ t, polls s' = S t ∧ lsr t = false).
Proof.
  induction fuel as [|fuel IH]; intros s q R Hf; cbn [transmit_loop];
    rewrite bind_get, (uart_empty _ _ R); (destruct q as [|x q];
    [exists s, [], []; rewrite bool_decide_eq_true_2 by done; split_and!; [done..|by rewrite app_nil_r|done|by left]|]).
  { simpl in Hf. lia. }
  rewrite bool_decide_eq_false_2 by done. destruct (uart_shift _ _ _ R) as [Hx R'].
  erewrite bind_run; [|reflexivity]. destruct (lsr (polls s)) eqn:El; cbn [negb].
  - rewrite Hx, bind_unwrap. simpl in Hf.
    match goal with |- context [(put_uart ?u ;; ?K) ?t] =>
      set (s1 := mkTty u (con s) (thr s ++ [(Ring, x)]) (rhr s) (S (polls s)) (rwakes s)
        (S (wwakes s)) (tmem s) (tpgt s) (tkilled s));
      assert ((put_uart u ;; K) t = transmit_loop lsr fuel s1) as -> by done end.
    destruct (IH s1 q) as (s' & q1 & q2 & E & -> & R2 & Ht & Hc & Hb); [done|lia|].
    exists s', (x :: q1), q2. split_and!; try done. rewrite Ht. simpl. by rewrite <- app_assoc.
  - eexists _, [], (x :: q). split_and!; [reflexivity|done|done|by rewrite app_nil_r|done|].
    right. by exists (polls s).
Qed.
Lemma transmit_run s q :
  uart_rep (uart s) q →
  ∃ s' q1 q2, transmit lsr s = Done (tt, s') ∧ q = q1 ++ q2 ∧ uart_rep (uart s') q2 ∧
    thr s' = thr s ++ ((Ring,.) <$> q1) ∧ con s' = con s ∧
    (q2 = [] ∨ ∃ t, polls s' = S t ∧ lsr t = false).
Proof.
  intros R. apply transmit_loop_run; [done|]. destruct R as [_ H2 _].
  unfold UART_BUF_SIZE in *. lia.
Qed.
Lemma from_ring_app t q : from_ring (t ++ ((Ring,.) <$> q)) = from_ring t ++ q.
Proof.
  unfold from_ring. rewrite bind_app. f_equal. induction q as [|x q IH]; [done|].
  rewrite fmap_cons, bind_cons, IH. done.
Qed.

(** Bytes offered by writers and interrupts of the transmitter, in any
    order; the bytes that were accepted. *)
Fixpoint run_out (ops : list (option Z)) : M tty (list Z) :=
  match ops with
  | [] => mret []
  | Some c :: ops' =>
    r ← uart_putc false lsr c;
    acc ← run_out ops';
    mret (match r with TRet _ => c :: acc | TSleep _ => acc end)
  | None :: ops' => transmit lsr ;; run_out ops'
  end.
Lemma run_out_run ops : ∀ s q,
  uart_rep (uart s) q →
  ∃ s' acc q', run_out ops s = Done (acc, s') ∧ uart_rep (uart s') q' ∧ con s' = con s ∧
    from_ring (thr s) ++ q ++ acc = from_ring (thr s') ++ q' ∧ acc `sublist_of` omap id ops.
Proof.
  induction ops as [|[c|] ops IH]; intros s q R; cbn [run_out].
  - exists s, [], q. rewrite app_nil_r. by split_and!.
  - unfold uart_putc. rewrite !bind_assoc, bind_get, (uart_full _ _ R).
    destruct (Z.eqb_spec (Z.of_nat (length q)) UART_BUF_SIZE) as [Hf|Hf].
    + destruct (IH s q R) as (s' & acc & q' & E & R' & Hc & Ht & Hsub). rewrite bind_ret_l. mstep E.
      exists s', acc, q'. split_and!; try done. by apply sublist_cons.
    + pose proof (uart_push _ _ c R) as Rp.
      unfold put_uart. rewrite !bind_assoc, bind_modify, bind_assoc.
      set (s1 := mkTty _ _ _ _ _ _ _ _ _ _).
      destruct (transmit_run s1 (q ++ [c])) as (s2 & q1 & q2 & E2 & Eq & R2 & Ht2 & Hc2 & _).
      { apply Rp. destruct R. lia. }
      mstep E2. rewrite bind_ret_l.
      destruct (IH s2 q2 R2) as (s' & acc & q' & E & R' & Hc & Ht & Hsub). mstep E.
      exists s', (c :: acc), q'. split_and!; try done.
      * by rewrite Hc, Hc2.
      * rewrite <- Ht, Ht2, from_ring_app. simpl. rewrite <- !app_assoc.
        rewrite (app_assoc q1), <- Eq, <- app_assoc. done.
      * by apply sublist_skip.
  - destruct (transmit_run s q R) as (s2 & q1 & q2 & E2 & -> & R2 & Ht2 & Hc2 & _). mstep E2.
    destruct (IH s2 q2 R2) as (s' & acc & q' & E & R' & Hc & Ht & Hsub).
    exists s', acc, q'. split_and!; try done; [by rewrite Hc, Hc2|].
    rewrite <- Ht, Ht2, from_ring_app. by rewrite <- !app_assoc.
Qed.

(** The UART sends what it accepts, in order. For any sequence of writes
    and transmitter interrupts, whatever the device reports about its being
    idle: every call completes or asks the writer to sleep, the bytes the
    transmitter was given from the ring are a prefix of the accepted bytes in
    the order of acceptance, and at most [UART_BUF_SIZE] accepted bytes are
    still in the ring. *)
Theorem uart_fifo ops s :
  uart s = Uart.new → from_ring (thr s) = [] →
  ∃ s' acc q, run_out ops s = Done (acc, s') ∧ acc = from_ring (thr s') ++ q ∧
    Z.of_nat (length q) ≤ UART_BUF_SIZE ∧ uart_rep (uart s') q ∧ acc `sublist_of` omap id ops.
Proof.
  intros Hu Ht. destruct (run_out_run ops s []) as (s' & acc & q & E & R & _ & Hq & Hsub).
  { rewrite Hu. split; [done|done|]. by exists 0. }
  rewrite Ht in Hq. exists s', acc, q. split_and!; try done. apply R.
Qed.
End uart.

(** ** Examples *)
Definition tty0 : tty := mkTty Uart.new Console.new [] [] 0 0 0 (mkMem ∅ None ∅) None false.
(** One byte is typed. *)
Lemma console_line_discipline_witness :
  con_rep Console.new (mkEditor [] []) ∧
  (∃ s', console_intr false (λ _, true) 1 97 tty0 = Done (tt, s') ∧ con_rep (con s') (mkEditor [] [97])).
Proof.
  destruct (console_line_discipline (λ _, true) 1) as [H0 H].
  - intros t. exists 0%nat. by split; [lia|].
  - split; [exact H0|]. destruct (H tty0 (mkEditor [] []) H0) as [Hi _].
    destruct (Hi 97) as (s' & E & R & _). exists s'. split; [exact E|exact R].
Defined.
(** A device that is idle at every other look. *)
Lemma uart_fifo_witness :
  ∃ s' acc q, run_out Nat.even [Some 1; Some 2; None; Some 3] tty0 = Done (acc, s') ∧
    acc = from_ring (thr s') ++ q.
Proof.
  destruct (uart_fifo Nat.even [Some 1; Some 2; None; Some 3] tty0) as (s' & acc & q & E & Ea & _);
    [reflexivity|reflexivity|]. exists s', acc, q. split; [exact E|exact Ea].
Defined.
