(* ===== verification/Virtio.v ===== *)
(** * The virtio disk driver: the operations

    [driver/virtio_disk.rs] with the constants of [arch/riscv/qemu/virtio.rs]:
    the descriptor table, the available and the used ring, and the requests in
    flight. The registers of the device are a parameter; what the driver
    writes to them, and the processes it wakes, are recorded in order. *)
From S2P Require Import Prelude.
From S2P Require Import Layout.

(** ** Registers and flags *)
Definition VIRTIO_MMIO_MAGIC_VALUE : Z := 0.
Definition VIRTIO_MMIO_VERSION : Z := 4.
Definition VIRTIO_MMIO_DEVICE_ID : Z := 8.
Definition VIRTIO_MMIO_VENDOR_ID : Z := 12.
Definition VIRTIO_MMIO_DEVICE_FEATURES : Z := 16.
Definition VIRTIO_MMIO_DRIVER_FEATURES : Z := 32.
Definition VIRTIO_MMIO_GUEST_PAGE_SIZE : Z := 40.
Definition VIRTIO_MMIO_QUEUE_SEL : Z := 48.
Definition VIRTIO_MMIO_QUEUE_NUM_MAX : Z := 52.
Definition VIRTIO_MMIO_QUEUE_NUM : Z := 56.
Definition VIRTIO_MMIO_QUEUE_PFN : Z := 64.
Definition VIRTIO_MMIO_QUEUE_NOTIFY : Z := 80.
Definition VIRTIO_MMIO_INTERRUPT_STATUS : Z := 96.
Definition VIRTIO_MMIO_INTERRUPT_ACK : Z := 100.
Definition VIRTIO_MMIO_STATUS : Z := 112.
Definition VIRTIO_CONFIG_S_ACKNOWLEDGE : Z := 1.
Definition VIRTIO_CONFIG_S_DRIVER : Z := 2.
Definition VIRTIO_CONFIG_S_DRIVER_OK : Z := 4.
Definition VIRTIO_CONFIG_S_FEATURES_OK : Z := 8.
(** Feature bits the driver turns down. *)
Definition VIRTIO_BLK_F_RO : Z := 5.
Definition VIRTIO_BLK_F_SCSI : Z := 7.
Definition VIRTIO_BLK_F_CONFIG_WCE : Z := 11.
Definition VIRTIO_BLK_F_MQ : Z := 12.
Definition VIRTIO_F_ANY_LAYOUT : Z := 27.
Definition VIRTIO_RING_F_INDIRECT_DESC : Z := 28.
Definition VIRTIO_RING_F_EVENT_IDX : Z := 29.
Definition unwanted : list Z :=
  [VIRTIO_BLK_F_RO; VIRTIO_BLK_F_SCSI; VIRTIO_BLK_F_CONFIG_WCE; VIRTIO_BLK_F_MQ;
   VIRTIO_F_ANY_LAYOUT; VIRTIO_RING_F_EVENT_IDX; VIRTIO_RING_F_INDIRECT_DESC].
Definition VRING_DESC_F_NEXT : Z := 1.
Definition VRING_DESC_F_WRITE : Z := 2.
Definition VIRTIO_BLK_T_IN : Z := 0.
Definition VIRTIO_BLK_T_OUT : Z := 1.
Definition NUM : Z := 8.
Definition num : nat := Z.to_nat NUM.

(** ** The structures shared with the device *)
Record VQDesc := mkDesc { d_addr : Z; d_len : Z; d_flags : Z; d_next : Z }.
Record Info := mkInfo { buf_channel : option Z; status : Z; in_disk : bool }.
Record VirtIOBlkReq := mkReq { type_ : Z; reserved : Z; sector : Z }.
(** [size_of::<VirtIOBlkReq>()] *)
Definition REQ_SIZE : Z := 16.
(** The [new] of each structure. [VQAvail] is the pair of its [idx] and [ring],
    [VQUsed] likewise, [VQUsedElem] the pair of its [id] and [len]; the fields
    [flags] and [unused] of the two rings are never accessed. *)
Definition VQDesc_new : VQDesc := mkDesc 0 0 0 0.
Definition VQAvail_new : Z * list Z := (0, replicate num 0).
Definition VQUsedElem_new : Z * Z := (0, 0).
Definition VQUsed_new : Z * list (Z * Z) := (0, replicate num VQUsedElem_new).
Definition Info_new : Info := mkInfo None 0 false.
Definition VirtIOBlkReq_new : VirtIOBlkReq := mkReq 0 0 0.

Record Disk := mkDisk {
  desc : list VQDesc;
  avail_idx : Z; avail_ring : list Z;
  dev_idx : Z; used_ring : list (Z * Z);       (* [used.idx], [used.ring] *)
  free : list bool; used_idx : Z;
  info : list Info; ops : list VirtIOBlkReq
}.
Module Disk.
Definition new : Disk :=
  mkDisk (replicate num VQDesc_new) VQAvail_new.1 VQAvail_new.2 VQUsed_new.1 VQUsed_new.2
    (replicate num false) 0 (replicate num Info_new) (replicate num VirtIOBlkReq_new).
End Disk.
Definition set_desc (l : list VQDesc) (k : Disk) : Disk :=
  mkDisk l (avail_idx k) (avail_ring k) (dev_idx k) (used_ring k) (free k) (used_idx k) (info k) (ops k).
Definition set_avail (i : Z) (r : list Z) (k : Disk) : Disk :=
  mkDisk (desc k) i r (dev_idx k) (used_ring k) (free k) (used_idx k) (info k) (ops k).
Definition set_free (l : list bool) (k : Disk) : Disk :=
  mkDisk (desc k) (avail_idx k) (avail_ring k) (dev_idx k) (used_ring k) l (used_idx k) (info k) (ops k).
Definition set_used_idx (i : Z) (k : Disk) : Disk :=
  mkDisk (desc k) (avail_idx k) (avail_ring k) (dev_idx k) (used_ring k) (free k) i (info k) (ops k).
Definition set_info (l : list Info) (k : Disk) : Disk :=
  mkDisk (desc k) (avail_idx k) (avail_ring k) (dev_idx k) (used_ring k) (free k) (used_idx k) l (ops k).
Definition set_ops (l : list VirtIOBlkReq) (k : Disk) : Disk :=
  mkDisk (desc k) (avail_idx k) (avail_ring k) (dev_idx k) (used_ring k) (free k) (used_idx k) (info k) l.

(** Channels: the free list, or the data of a buffer. *)
Inductive vchan := CFree | CBuf (a : Z).
Record vst := mkVst { dk : Disk; mmio : list (Z * Z); vwakes : list vchan }.
(** The end of [rw]: done, or a sleep until a descriptor is free, or until
    the request with head [i] was served. *)
Inductive vblock := VDone | VFree | VWait (i : nat).

Section virtio.
(** Addresses of the request, and of the status byte, of entry [i]; of the
    driver's structure; and the registers. *)
Context (ops_addr status_addr : nat → Z) (self_addr : Z) (rd : Z → Z).
Abbreviation VM := (M vst).

Definition write_reg (off v : Z) : VM unit := modify (λ s, mkVst (dk s) (mmio s ++ [(off, v)]) (vwakes s)).
Definition wake_up (c : vchan) : VM unit := modify (λ s, mkVst (dk s) (mmio s) (vwakes s ++ [c])).
Definition on_disk (f : Disk → Disk) : VM unit := modify (λ s, mkVst (f (dk s)) (mmio s) (vwakes s)).
Definition oob : string := "index out of bounds".

(** ** Initialisation *)
(** The structure is page aligned, with the descriptors on its first page,
    the used ring on the second and the rest from the third on. *)
Definition init : VM unit :=
  assert (self_addr mod PGSIZE =? 0) "assertion `left == right` failed" ;;
  assert ((self_addr + PGSIZE) mod PGSIZE =? 0) "assertion `left == right` failed" ;;
  assert ((self_addr + 2 * PGSIZE) mod PGSIZE =? 0) "assertion `left == right` failed" ;;
  if negb (rd VIRTIO_MMIO_MAGIC_VALUE =? 1953655158) || negb (rd VIRTIO_MMIO_VERSION =? 1)
     || negb (rd VIRTIO_MMIO_DEVICE_ID =? 2)
     || negb (rd VIRTIO_MMIO_VENDOR_ID =? 1431127377)
  then panic "could not find virtio disk" else
  let status := Z.lor 0 VIRTIO_CONFIG_S_ACKNOWLEDGE in
  write_reg VIRTIO_MMIO_STATUS status ;;
  let status := Z.lor status VIRTIO_CONFIG_S_DRIVER in
  write_reg VIRTIO_MMIO_STATUS status ;;
  write_reg VIRTIO_MMIO_DRIVER_FEATURES (fold_left (λ features b, Z.land features (unot 32 (ushl 32 1 b)))
    unwanted (rd VIRTIO_MMIO_DEVICE_FEATURES)) ;;
  let status := Z.lor status VIRTIO_CONFIG_S_FEATURES_OK in
  write_reg VIRTIO_MMIO_STATUS status ;;
  let status := Z.lor status VIRTIO_CONFIG_S_DRIVER_OK in
  write_reg VIRTIO_MMIO_STATUS status ;;
  write_reg VIRTIO_MMIO_GUEST_PAGE_SIZE PGSIZE ;;
  write_reg VIRTIO_MMIO_QUEUE_SEL 0 ;;
  (if rd VIRTIO_MMIO_QUEUE_NUM_MAX =? 0 then panic "virtio disk has no queue 0" else mret tt) ;;
  (if rd VIRTIO_MMIO_QUEUE_NUM_MAX <? NUM then panic "virtio disk max queue short than NUM" else mret tt) ;;
  write_reg VIRTIO_MMIO_QUEUE_NUM NUM ;;
  let pfn := Z.shiftr self_addr PGSHIFT in
  (if 2 ^ 32 <=? pfn then panic "called `Result::unwrap()` on an `Err` value" else mret tt) ;;
  write_reg VIRTIO_MMIO_QUEUE_PFN pfn ;;
  on_disk (λ k, set_free (replicate num true) k).

(** ** Descriptors *)
Definition alloc_desc : VM (option nat) :=
  s ← get;
  match list_find (λ b, b = true) (free (dk s)) with
  | Some (i, _) => on_disk (λ k, set_free (<[i := false]> (free k)) k) ;; mret (Some i)
  | None => mret None
  end.
Definition free_desc (i : nat) : VM unit :=
  s ← get;
  (if (num <=? i)%nat then panic "desc index not correct" else mret tt) ;;
  b ← unwrap (free (dk s) !! i) oob;
  if (b : bool) then panic "desc index not correct" else
  on_disk (λ k, set_desc (<[i := mkDesc 0 0 0 0]> (desc k)) k) ;;
  on_disk (λ k, set_free (<[i := true]> (free k)) k) ;;
  wake_up CFree.
(** [alloc3_desc]: when the [i]-th allocation fails, descriptors
    [0 .. i - 1] are freed. *)
Fixpoint alloc3_loop (n : nat) (idx : list nat) : VM (option (list nat)) :=
  match n with
  | O => mret (Some idx)
  | S n' =>
    r ← alloc_desc;
    match r with
    | Some ix => alloc3_loop n' (idx ++ [ix])
    | None => for_each (seq 0 (length idx)) free_desc ;; mret None
    end
  end.
Definition alloc3_desc : VM (option (list nat)) := alloc3_loop 3 [].

Fixpoint free_chain_loop (fuel : nat) (i : nat) : VM unit :=
  match fuel with
  | O => hang
  | S fuel' =>
    s ← get;
    d ← unwrap (desc (dk s) !! i) oob;
    free_desc i ;;
    if negb (Z.land (d_flags d) VRING_DESC_F_NEXT =? 0)
    then free_chain_loop fuel' (Z.to_nat (d_next d)) else mret tt
  end.
(** A chain that comes back to a freed descriptor panics, so that no chain
    is longer than the table. *)
Definition free_chain (i : nat) : VM unit := free_chain_loop (S num) i.

(** ** Interrupts *)
Definition intr_one : VM unit :=
  s ← get;
  let k := dk s in
  e ← unwrap (used_ring k !! Z.to_nat (used_idx k mod NUM)) oob;
  let id := Z.to_nat (fst e) in
  x ← unwrap (info k !! id) oob;
  if negb (status x =? 0) then panic "interrupt status" else
  c ← unwrap (buf_channel x)
    "virtio disk intr handler not found pre-stored buf channel to wakeup";
  on_disk (λ k, set_info (<[id := mkInfo (buf_channel x) (status x) false]> (info k)) k) ;;
  wake_up (CBuf c) ;;
  n ← uadd 16 (used_idx k) 1;
  on_disk (λ k, set_used_idx n k).
Fixpoint intr_loop (fuel : nat) : VM unit :=
  s ← get;
  if used_idx (dk s) =? dev_idx (dk s) then mret tt else
  match fuel with
  | O => hang
  | S fuel' => intr_one ;; intr_loop fuel'
  end.
(** The counter is 16 bits wide and does not wrap. *)
Definition intr_fuel : nat := Z.to_nat (2 ^ 16).
Definition intr : VM unit :=
  write_reg VIRTIO_MMIO_INTERRUPT_ACK (Z.land (rd VIRTIO_MMIO_INTERRUPT_STATUS) 3) ;;
  intr_loop intr_fuel.

(** ** Requests *)

(** [rw] between the allocation and the wait: the request, the three
    descriptors, the record of the buffer, and the entry of the ring. *)
Definition format (buf blockno : Z) (writing : bool) (i0 i1 i2 : nat) : VM unit :=
  on_disk (λ k, set_ops (<[i0 := mkReq (if writing then VIRTIO_BLK_T_OUT else VIRTIO_BLK_T_IN) 0
    (blockno * (BSIZE / 512))]> (ops k)) k) ;;
  on_disk (λ k, set_desc (<[i0 := mkDesc (ops_addr i0) REQ_SIZE VRING_DESC_F_NEXT (Z.of_nat i1)]> (desc k)) k) ;;
  on_disk (λ k, set_desc (<[i1 := mkDesc buf BSIZE
    (Z.lor (if writing then 0 else VRING_DESC_F_WRITE) VRING_DESC_F_NEXT) (Z.of_nat i2)]> (desc k)) k) ;;
  on_disk (λ k, set_desc (<[i2 := mkDesc (status_addr i0) 1 VRING_DESC_F_WRITE 0]> (desc k)) k) ;;
  on_disk (λ k, set_info (<[i0 := mkInfo (Some buf) 255 true]> (info k)) k).
Definition publish (i0 : nat) : VM unit :=
  s ← get;
  let k := dk s in
  on_disk (λ k, set_avail (avail_idx k)
    (<[Z.to_nat (avail_idx k mod NUM) := Z.of_nat i0]> (avail_ring k)) k) ;;
  n ← uadd 16 (avail_idx k) 1;
  on_disk (λ k, set_avail n (avail_ring k) k) ;;
  write_reg VIRTIO_MMIO_QUEUE_NOTIFY 0.
(** The wait, and what follows it. *)
Definition rw_poll (buf : Z) (i0 : nat) : VM vblock :=
  s ← get;
  x ← unwrap (info (dk s) !! i0) oob;
  if in_disk x then mret (VWait i0) else
  c ← unwrap (buf_channel x) "called `Option::unwrap()` on a `None` value";
  on_disk (λ k, set_info (<[i0 := mkInfo None (status x) (in_disk x)]> (info k)) k) ;;
  assert (c =? buf) "assertion `left == right` failed" ;;
  free_chain i0 ;;
  mret VDone.
Definition rw (buf blockno : Z) (writing : bool) : VM vblock :=
  r ← alloc3_desc;
  match r with
  | Some [i0; i1; i2] =>
    format buf blockno writing i0 i1 i2 ;;
    publish i0 ;;
    rw_poll buf i0
  | Some _ => fault
  | None => mret VFree
  end.
End virtio.
