(* ===== verification/VirtioSafe.v ===== *)
(** * The virtio disk driver with its device

    The driver's requests, the device and the interrupt handler, in any
    order: descriptors of different requests never overlap, and no completed
    request is lost. *)
From S2P Require Import Prelude.
From S2P Require Import Layout.
From S2P Require Import Ring.
From S2P Require Import Virtio.

(** A request in flight: its three descriptors and its buffer. *)
Record req := mkR { r0 : nat; r1 : nat; r2 : nat; rbuf : Z }.
Definition chain (r : req) : list nat := [r0 r; r1 r; r2 r].
(** The driver; how far the device has read the available ring; the heads it
    has fetched and not served; and the requests in flight. *)
Record vsys := mkVsys { vs : vst; dpos : Z; pend : list nat; fl : list req }.

Section virtio.
Context (ops_addr status_addr : nat → Z) (self_addr : Z) (rd : Z → Z).
Hypothesis status_inj : ∀ i j, status_addr i = status_addr j → i = j.
Implicit Types (s : vst) (k : Disk) (r : req).

(** What the device does, as the virtio specification has it: it fetches
    heads from the available ring in order, and serves the ones it has
    fetched in any order. It follows the chain, writes the status byte at the
    address in the last descriptor and appends the head to the used ring. *)
Definition dev_serve (h : nat) (j : nat) (len : Z) k : Disk :=
  mkDisk (desc k) (avail_idx k) (avail_ring k) (dev_idx k + 1)
    (<[Z.to_nat (dev_idx k mod NUM) := (Z.of_nat h, len)]> (used_ring k)) (free k) (used_idx k)
    (alter (λ x, mkInfo (buf_channel x) 0 (in_disk x)) j (info k)) (ops k).

Inductive vstep : vsys → vsys → Prop :=
  | v_submit s d p f buf blockno writing i0 i1 i2 s1 s2 :
      alloc3_desc s = Done (Some [i0; i1; i2], s1) →
      (format ops_addr status_addr buf blockno writing i0 i1 i2 ;; publish i0) s1 = Done (tt, s2) →
      vstep (mkVsys s d p f) (mkVsys s2 d p (f ++ [mkR i0 i1 i2 buf]))
  | v_finish s d p f1 r f2 s' :
      rw_poll (rbuf r) (r0 r) s = Done (VDone, s') →
      vstep (mkVsys s d p (f1 ++ r :: f2)) (mkVsys s' d p (f1 ++ f2))
  | v_fetch s d p f h :
      d < avail_idx (dk s) → avail_ring (dk s) !! Z.to_nat (d mod NUM) = Some (Z.of_nat h) →
      vstep (mkVsys s d p f) (mkVsys s (d + 1) (p ++ [h]) f)
  | v_serve s d p1 h p2 f d0 d1 d2 j len :
      desc (dk s) !! h = Some d0 → desc (dk s) !! Z.to_nat (d_next d0) = Some d1 →
      desc (dk s) !! Z.to_nat (d_next d1) = Some d2 → d_addr d2 = status_addr j →
      vstep (mkVsys s d (p1 ++ h :: p2) f)
            (mkVsys (mkVst (dev_serve h j len (dk s)) (mmio s) (vwakes s)) d (p1 ++ p2) f)
  | v_intr s d p f s' :
      intr rd s = Done (tt, s') → vstep (mkVsys s d p f) (mkVsys s' d p f).

(** The driver after [init]: every descriptor free, nothing in the rings. *)
Definition vinit s : Prop := dk s = set_free (replicate num true) Disk.new.

(** ** The invariant *)
Record req_ok k r : Prop := {
  ro_0 : desc k !! r0 r = Some (mkDesc (ops_addr (r0 r)) REQ_SIZE VRING_DESC_F_NEXT (Z.of_nat (r1 r)));
  ro_1 : ∃ x, desc k !! r1 r = Some x ∧ Z.land (d_flags x) VRING_DESC_F_NEXT ≠ 0 ∧ d_next x = Z.of_nat (r2 r);
  ro_2 : desc k !! r2 r = Some (mkDesc (status_addr (r0 r)) 1 VRING_DESC_F_WRITE 0);
  ro_i : ∃ x, info k !! r0 r = Some x ∧ buf_channel x = Some (rbuf r)
}.
(** Heads in the window of a ring from counter [a] to counter [b]. *)
Definition window (l : list Z) (a b : Z) : list Z := ring_slice l a (b - a).
Record vinv_with (x : vsys) (av us hd : list nat) : Prop := {
  vi_len : length (desc (dk (vs x))) = num ∧ length (free (dk (vs x))) = num ∧
    length (info (dk (vs x))) = num ∧ length (avail_ring (dk (vs x))) = num ∧
    length (used_ring (dk (vs x))) = num;
  vi_chains : NoDup (fl x ≫= chain);
  vi_small : ∀ i, i ∈ fl x ≫= chain → (i < num)%nat;
  vi_free : ∀ i, (i < num)%nat → free (dk (vs x)) !! i = Some (bool_decide (i ∉ fl x ≫= chain));
  vi_req : ∀ r, r ∈ fl x → req_ok (dk (vs x)) r;
  vi_heads : av ++ pend x ++ us ++ hd ≡ₚ r0 <$> fl x;
  vi_idx : 0 ≤ used_idx (dk (vs x)) ≤ dev_idx (dk (vs x)) ∧
    dev_idx (dk (vs x)) + Z.of_nat (length (pend x)) = dpos x ∧ dpos x ≤ avail_idx (dk (vs x)) < 2 ^ 16;
  vi_avail : window (avail_ring (dk (vs x))) (dpos x) (avail_idx (dk (vs x))) = Z.of_nat <$> av;
  vi_used : window (fst <$> used_ring (dk (vs x))) (used_idx (dk (vs x))) (dev_idx (dk (vs x)))
    = Z.of_nat <$> us;
  vi_busy : ∀ i y, i ∈ av ++ pend x ++ us → info (dk (vs x)) !! i = Some y → in_disk y = true;
  vi_served : ∀ i y, i ∈ us → info (dk (vs x)) !! i = Some y → status y = 0;
  vi_done : ∀ i y, i ∈ hd → info (dk (vs x)) !! i = Some y → in_disk y = false
}.
Definition vinv (x : vsys) : Prop := ∃ av us hd, vinv_with x av us hd.

Lemma vinit_inv s : vinit s → vinv (mkVsys s 0 [] []).
Proof.
  unfold vinit. intros E. exists [], [], [].
  split; cbn [vs dpos pend fl fmap list_fmap app mbind list_bind]; rewrite ?E;
    try (intros ??; set_solver); try done.
  - apply NoDup_nil_2.
  - intros i Hi. rewrite bool_decide_eq_true_2 by apply not_elem_of_nil.
    by apply (lookup_replicate_2 num).
Qed.

(** Heads are descriptors of their chains, and different heads belong to
    different requests. *)
Lemma head_in_chain f r : r ∈ f → r0 r ∈ f ≫= chain.
Proof. intros Hr. apply list_elem_of_bind. exists r. split; [left|done]. Qed.
Lemma chain_in f r i : r ∈ f → i ∈ chain r → i ∈ f ≫= chain.
Proof. intros Hr Hi. apply list_elem_of_bind. eauto. Qed.
Lemma NoDup_chain f r : NoDup (f ≫= chain) → r ∈ f → NoDup (chain r).
Proof.
  intros Hnd Hr. apply list_elem_of_split in Hr as (f1 & f2 & ->).
  rewrite bind_app, bind_cons in Hnd. apply NoDup_app in Hnd as (_ & _ & Hnd).
  by apply NoDup_app in Hnd as [? _].
Qed.
Lemma chain_disjoint f1 r f2 r' :
  NoDup ((f1 ++ r :: f2) ≫= chain) → r' ∈ f1 ++ f2 → ∀ i, i ∈ chain r → i ∈ chain r' → False.
Proof.
  intros Hnd Hr' i Hi Hi'.
  assert ((f1 ++ r :: f2) ≫= chain ≡ₚ chain r ++ ((f1 ++ f2) ≫= chain)) as Hp.
  { by rewrite <- Permutation_middle, bind_cons. }
  rewrite Hp in Hnd. apply NoDup_app in Hnd as (_ & Hd & _). apply (Hd i Hi).
  by apply (chain_in _ r').
Qed.
Lemma NoDup_heads f : NoDup (f ≫= chain) → NoDup (r0 <$> f).
Proof.
  induction f as [|r f IH]; [intros; apply NoDup_nil_2|]. rewrite bind_cons, fmap_cons.
  intros (Hc & Hd & Hf)%NoDup_app. apply NoDup_cons. split; [|by apply IH].
  intros (r' & E & Hr')%list_elem_of_fmap. apply (Hd (r0 r)); [left|]. rewrite E.
  by apply head_in_chain.
Qed.
(** At most eight descriptors, so at most eight heads. *)
Lemma heads_few f :
  NoDup (f ≫= chain) → (∀ i, i ∈ f ≫= chain → (i < num)%nat) → (3 * length f ≤ num)%nat.
Proof.
  intros Hnd Hs.
  assert (length (f ≫= chain) = (3 * length f)%nat) as <-.
  { clear. induction f as [|r f IH]; [done|]. rewrite bind_cons, length_app, IH. simpl. lia. }
  rewrite <- (length_seq num 0). apply NoDup_incl_length.
  { by apply NoDup_ListNoDup. }
  intros i Hi. apply list_elem_of_In, elem_of_seq. apply list_elem_of_In in Hi. specialize (Hs i Hi). lia.
Qed.

(** ** The steps *)
Lemma alloc_desc_run s o s' :
  alloc_desc s = Done (o, s') → ∀ i, o = Some i →
  free (dk s) !! i = Some true ∧
  s' = mkVst (set_free (<[i := false]> (free (dk s))) (dk s)) (mmio s) (vwakes s).
Proof.
  unfold alloc_desc. rewrite bind_get.
  destruct (list_find _ _) as [[j b]|] eqn:Hf.
  - apply list_find_Some in Hf as (Hj & -> & _). intros [= <- <-] i [= <-]. done.
  - by intros [= <- <-] i.
Qed.
Lemma claimed (l : list bool) i j :
  <[i := false]> l !! j = Some true → j ≠ i ∧ l !! j = Some true.
Proof. intros [[-> [? _]]|[? ?]]%list_lookup_insert_Some; [done|]. split; congruence. Qed.
Lemma alloc3_run s i0 i1 i2 s1 :
  alloc3_desc s = Done (Some [i0; i1; i2], s1) →
  NoDup [i0; i1; i2] ∧ (∀ i, i ∈ [i0; i1; i2] → free (dk s) !! i = Some true) ∧
  s1 = mkVst (set_free (<[i2 := false]> (<[i1 := false]> (<[i0 := false]> (free (dk s))))) (dk s))
         (mmio s) (vwakes s).
Proof.
  unfold alloc3_desc. cbn [alloc3_loop app length seq for_each].
  intros ([j0|] & sa & Ha & H)%bind_Done; [|by minv H; simplify_outcome].
  apply bind_Done in H as ([j1|] & sb & Hb & H); [|by minv H; simplify_outcome].
  apply bind_Done in H as ([j2|] & sc & Hc & H); [|by minv H; simplify_outcome].
  injection H as <- <- <- <-.
  destruct (alloc_desc_run _ _ _ Ha _ eq_refl) as [F0 ->].
  destruct (alloc_desc_run _ _ _ Hb _ eq_refl) as [F1 ->].
  destruct (alloc_desc_run _ _ _ Hc _ eq_refl) as [F2 ->].
  simpl in F1, F2. apply claimed in F1 as [N1 F1]. apply claimed in F2 as [N2 F2].
  apply claimed in F2 as [N2' F2]. split; [|split; [|done]].
  - repeat apply NoDup_cons_2; [set_solver..|apply NoDup_nil_2].
  - intros i. rewrite !elem_of_cons, elem_of_nil. by intros [->|[->|[->|[]]]].
Qed.

(** The disk once a request was written and published. *)
Definition submitted k (buf blockno : Z) (writing : bool) (i0 i1 i2 : nat) : Disk :=
  mkDisk
    (<[i2 := mkDesc (status_addr i0) 1 VRING_DESC_F_WRITE 0]>
      (<[i1 := mkDesc buf BSIZE (Z.lor (if writing then 0 else VRING_DESC_F_WRITE) VRING_DESC_F_NEXT) (Z.of_nat i2)]>
        (<[i0 := mkDesc (ops_addr i0) REQ_SIZE VRING_DESC_F_NEXT (Z.of_nat i1)]> (desc k))))
    (avail_idx k + 1) (<[Z.to_nat (avail_idx k mod NUM) := Z.of_nat i0]> (avail_ring k))
    (dev_idx k) (used_ring k) (free k) (used_idx k)
    (<[i0 := mkInfo (Some buf) 255 true]> (info k))
    (<[i0 := mkReq (if writing then VIRTIO_BLK_T_OUT else VIRTIO_BLK_T_IN) 0 (blockno * (BSIZE / 512))]> (ops k)).
Lemma format_publish_run s buf blockno writing i0 i1 i2 s' :
  (format ops_addr status_addr buf blockno writing i0 i1 i2 ;; publish i0) s = Done (tt, s') →
  avail_idx (dk s) + 1 < 2 ^ 16 ∧ dk s' = submitted (dk s) buf blockno writing i0 i1 i2.
Proof.
  intros H. minv H. unfold format, on_disk in H0. rewrite !bind_modify in H0.
  unfold modify in H0. simplify_outcome. unfold publish, on_disk in H.
  rewrite bind_get, bind_modify in H. apply bind_Done in H as (n & sa & Hn & H).
  unfold uadd in Hn. cbn [dk avail_idx set_info set_desc set_ops] in Hn.
  destruct (avail_idx (dk s) + 1 <? 2 ^ 16) eqn:Hlt; [|discriminate Hn].
  injection Hn as <- <-. apply Z.ltb_lt in Hlt. split; [done|].
  rewrite bind_modify in H. unfold write_reg, modify in H. simplify_outcome. done.
Qed.

(** Facts of the invariant. *)
Section facts.
Context (x : vsys) (av us hd : list nat) (I : vinv_with x av us hd).
Lemma inv_head i : i ∈ av ++ pend x ++ us ++ hd → ∃ r, r ∈ fl x ∧ r0 r = i.
Proof.
  rewrite (vi_heads _ _ _ _ I). intros (r & -> & Hr)%list_elem_of_fmap. eauto.
Qed.
Lemma inv_heads_NoDup : NoDup (av ++ pend x ++ us ++ hd).
Proof. rewrite (vi_heads _ _ _ _ I). apply NoDup_heads, (vi_chains _ _ _ _ I). Qed.
Lemma inv_count : (length av + length (pend x) + length us + length hd ≤ 2)%nat.
Proof.
  pose proof (heads_few _ (vi_chains _ _ _ _ I) (vi_small _ _ _ _ I)) as H3.
  pose proof (Permutation_length (vi_heads _ _ _ _ I)) as Hl.
  rewrite !length_app, length_fmap in Hl. assert (num = 8%nat) as E by done. lia.
Qed.
Lemma inv_avail_gap : avail_idx (dk (vs x)) - dpos x = Z.of_nat (length av).
Proof.
  pose proof (f_equal length (vi_avail _ _ _ _ I)) as Hl. unfold window in Hl.
  pose proof (vi_idx _ _ _ _ I) as (? & ? & ?). rewrite length_fmap in Hl.
  rewrite <- Hl, length_ring_slice; lia.
Qed.
Lemma inv_used_gap : dev_idx (dk (vs x)) - used_idx (dk (vs x)) = Z.of_nat (length us).
Proof.
  pose proof (f_equal length (vi_used _ _ _ _ I)) as Hl. unfold window in Hl.
  pose proof (vi_idx _ _ _ _ I) as (? & ? & ?). rewrite length_fmap in Hl.
  rewrite <- Hl, length_ring_slice; lia.
Qed.
Lemma inv_free i : free (dk (vs x)) !! i = Some true → i ∉ fl x ≫= chain.
Proof.
  intros Hi. pose proof (vi_len _ _ _ _ I) as (_ & Hl & _).
  assert (i < num)%nat as Hn by (rewrite <- Hl; by eapply lookup_lt_Some).
  rewrite (vi_free _ _ _ _ I i Hn) in Hi. injection Hi as Hi. by apply bool_decide_eq_true in Hi.
Qed.
End facts.

(** Three writes of one list. *)
Lemma insert3_ne {A} (l : list A) i0 i1 i2 i (a b c : A) :
  i ∉ [i0; i1; i2] → <[i2 := c]> (<[i1 := b]> (<[i0 := a]> l)) !! i = l !! i.
Proof. intros Hi. rewrite !list_lookup_insert_ne; [done|set_solver..]. Qed.
Lemma insert3_eq {A} (l : list A) i0 i1 i2 i (a : A) :
  (i < length l)%nat → i ∈ [i0; i1; i2] →
  <[i2 := a]> (<[i1 := a]> (<[i0 := a]> l)) !! i = Some a.
Proof.
  intros Hl Hi. rewrite !list_lookup_insert, !length_insert.
  repeat case_decide; try done; set_solver.
Qed.

(** Writing to descriptors and records outside a chain leaves its request alone. *)
Lemma req_ok_ext k k' r :
  (∀ i, i ∈ chain r → desc k' !! i = desc k !! i) → info k' !! r0 r = info k !! r0 r →
  req_ok k r → req_ok k' r.
Proof.
  intros Hd Hi [H0 H1 H2 H3]. split.
  - rewrite Hd; [done|]. set_solver.
  - destruct H1 as (y & H1 & ?). exists y. rewrite Hd; [done|]. set_solver.
  - rewrite Hd; [done|]. set_solver.
  - by rewrite Hi.
Qed.

(** The request that was just written. *)
Lemma submitted_req k buf blockno writing i0 i1 i2 :
  length (desc k) = num → length (info k) = num → NoDup [i0; i1; i2] →
  (∀ i, i ∈ [i0; i1; i2] → (i < num)%nat) →
  req_ok (submitted k buf blockno writing i0 i1 i2) (mkR i0 i1 i2 buf).
Proof.
  intros L1 L3 Hnd Hlt. apply NoDup_cons in Hnd as [N0 [N1 _]%NoDup_cons].
  assert (i0 ≠ i1 ∧ i0 ≠ i2 ∧ i1 ≠ i2) as (? & ? & ?) by set_solver.
  assert ((i0 < num)%nat ∧ (i1 < num)%nat ∧ (i2 < num)%nat) as (? & ? & ?).
  { split_and!; apply Hlt; set_solver. }
  split; simpl.
  - rewrite 2!list_lookup_insert_ne by done. apply list_lookup_insert_eq. by rewrite L1.
  - eexists. rewrite list_lookup_insert_ne by done. rewrite list_lookup_insert_eq.
    { split; [done|]. split; [|done]. by destruct writing. }
    by rewrite length_insert, L1.
  - apply list_lookup_insert_eq. by rewrite !length_insert, L1.
  - eexists. rewrite list_lookup_insert_eq; [done|]. by rewrite L3.
Qed.

Lemma submit_inv s d p f buf blockno writing i0 i1 i2 s1 s2 :
  alloc3_desc s = Done (Some [i0; i1; i2], s1) →
  (format ops_addr status_addr buf blockno writing i0 i1 i2 ;; publish i0) s1 = Done (tt, s2) →
  vinv (mkVsys s d p f) → vinv (mkVsys s2 d p (f ++ [mkR i0 i1 i2 buf])).
Proof.
  intros Ha Hf (av & us & hd & I). apply alloc3_run in Ha as (Hnd & Hfr & ->).
  apply format_publish_run in Hf as [Hb E]. cbn [dk set_free avail_idx] in Hb.
  assert (∀ i, i ∈ [i0; i1; i2] → i ∉ f ≫= chain) as Hnew.
  { intros i Hi. apply (inv_free _ _ _ _ I). by apply Hfr. }
  pose proof (vi_len _ _ _ _ I) as (L1 & L2 & L3 & L4 & L5). cbn [vs] in *.
  assert (∀ i, i ∈ [i0; i1; i2] → (i < num)%nat) as Hlt.
  { intros i Hi. rewrite <- L2. eapply lookup_lt_Some. by apply Hfr. }
  assert ((f ++ [mkR i0 i1 i2 buf]) ≫= chain = (f ≫= chain) ++ [i0; i1; i2]) as Ec.
  { by rewrite bind_app. }
  assert (∀ i, i ∈ av ++ p ++ us ++ hd → i ≠ i0) as Hold.
  { intros i Hi ->. destruct (inv_head _ _ _ _ I i0 Hi) as (r & Hr & <-).
    apply (Hnew (r0 r)); [left|]. by apply head_in_chain. }
  exists (av ++ [i0]), us, hd.
  split; cbn [vs dpos pend fl]; rewrite ?E;
    cbn [submitted dk set_free desc free info avail_ring avail_idx used_ring used_idx dev_idx];
    rewrite ?Ec.
  - by rewrite !length_insert.
  - apply NoDup_app. split; [apply (vi_chains _ _ _ _ I)|]. split; [|done].
    intros i Hi Hi'. by apply (Hnew i).
  - intros i [Hi|Hi]%elem_of_app; [by apply (vi_small _ _ _ _ I)|by apply Hlt].
  - intros i Hi. pose proof (vi_free _ _ _ _ I i Hi) as Hfi. cbn [vs fl] in Hfi.
    rewrite (bool_decide_ext _ ((i ∉ (f ≫= chain)) ∧ (i ∉ [i0; i1; i2]))) by set_solver.
    destruct (decide (i ∈ [i0; i1; i2])) as [Hin|Hni].
    + rewrite bool_decide_eq_false_2 by tauto. apply insert3_eq; [|done]. by rewrite L2.
    + rewrite insert3_ne, Hfi by done. f_equal. apply bool_decide_ext. tauto.
  - intros r [Hr|Hr]%elem_of_app; [|apply list_elem_of_singleton in Hr as ->].
    + apply (req_ok_ext (dk s)); [| |by apply (vi_req _ _ _ _ I)]; simpl.
      * intros i Hi. apply insert3_ne. intros Hin. apply (Hnew i Hin). by apply (chain_in _ r).
      * apply list_lookup_insert_ne. intros ->. apply (Hnew (r0 r)); [left|]. by apply head_in_chain.
    + apply submitted_req; simpl; [by rewrite L1|by rewrite L3|done..].
  - rewrite fmap_app, <- (vi_heads _ _ _ _ I). simpl. solve_Permutation.
  - pose proof (vi_idx _ _ _ _ I) as V. cbn [vs dpos pend] in V. lia.
  - pose proof (inv_avail_gap _ _ _ _ I) as G. pose proof (inv_count _ _ _ _ I).
    pose proof (vi_avail _ _ _ _ I) as W. unfold window in *. cbn [vs dpos pend] in *.
    rewrite fmap_app, <- W. assert (cap (avail_ring (dk s)) = NUM) as C by (unfold cap; by rewrite L4).
    replace (avail_idx (dk s) + 1 - d) with ((avail_idx (dk s) - d) + 1) by lia.
    rewrite <- C. replace (avail_idx (dk s)) with (d + (avail_idx (dk s) - d)) at 1 by lia.
    apply ring_push. rewrite C. unfold NUM. lia.
  - apply (vi_used _ _ _ _ I).
  - intros i y Hi. destruct (decide (i = i0)) as [->|Hne].
    + rewrite list_lookup_insert_eq by (rewrite L3; apply Hlt; set_solver). by intros [= <-].
    + rewrite list_lookup_insert_ne by done. apply (vi_busy _ _ _ _ I). set_solver.
  - intros i y Hi. rewrite list_lookup_insert_ne by (apply not_eq_sym, Hold; set_solver).
    by apply (vi_served _ _ _ _ I).
  - intros i y Hi. rewrite list_lookup_insert_ne by (apply not_eq_sym, Hold; set_solver).
    by apply (vi_done _ _ _ _ I).
Qed.

Lemma ring_at_lookup (l : list Z) p v : l !! Z.to_nat (p mod cap l) = Some v → ring_at l p = v.
Proof. unfold ring_at. by intros ->. Qed.

Lemma fetch_inv s d p f h :
  d < avail_idx (dk s) → avail_ring (dk s) !! Z.to_nat (d mod NUM) = Some (Z.of_nat h) →
  vinv (mkVsys s d p f) → vinv (mkVsys s (d + 1) (p ++ [h]) f).
Proof.
  intros Hd Hh (av & us & hd & I). pose proof (vi_len _ _ _ _ I) as (_ & _ & _ & L4 & _).
  pose proof (vi_avail _ _ _ _ I) as W. pose proof (vi_idx _ _ _ _ I) as V.
  pose proof (vi_heads _ _ _ _ I) as P. pose proof (vi_busy _ _ _ _ I) as B.
  unfold window in W. cbn [vs dpos pend fl] in *.
  rewrite ring_slice_cons in W by lia. destruct av as [|h' av]; [discriminate W|].
  injection W as Wh Wt.
  rewrite (ring_at_lookup _ d (Z.of_nat h)) in Wh by (unfold cap; by rewrite L4).
  apply Nat2Z.inj in Wh as <-. exists av, us, hd. destruct I. split; cbn [vs dpos pend fl] in *; try done.
  - rewrite <- P. solve_Permutation.
  - rewrite length_app. simpl. lia.
  - unfold window. etransitivity; [|exact Wt]. f_equal. lia.
  - intros i y Hi. apply B. set_solver.
Qed.

(** What the device changes of a record is the status byte of its request. *)
Lemma served_info h j len k i y :
  info (dev_serve h j len k) !! i = Some y →
  ∃ y0, info k !! i = Some y0 ∧ buf_channel y = buf_channel y0 ∧ in_disk y = in_disk y0 ∧
    status y = if bool_decide (i = j) then 0 else status y0.
Proof.
  simpl. destruct (decide (i = j)) as [->|Hne].
  - rewrite list_lookup_alter_eq. destruct (info k !! j) as [y0|]; intros [= <-].
    exists y0. by rewrite bool_decide_eq_true_2.
  - rewrite list_lookup_alter_ne by done. intros ->. exists y. by rewrite bool_decide_eq_false_2.
Qed.
Lemma served_info_fwd h j len k i y0 :
  info k !! i = Some y0 → ∃ y, info (dev_serve h j len k) !! i = Some y ∧ buf_channel y = buf_channel y0.
Proof.
  simpl. intros Hi. destruct (decide (i = j)) as [->|Hne].
  - rewrite list_lookup_alter_eq, Hi. simpl. eauto.
  - rewrite list_lookup_alter_ne by done. eauto.
Qed.

Lemma serve_inv s d p1 h p2 f d0 d1 d2 j len :
  desc (dk s) !! h = Some d0 → desc (dk s) !! Z.to_nat (d_next d0) = Some d1 →
  desc (dk s) !! Z.to_nat (d_next d1) = Some d2 → d_addr d2 = status_addr j →
  vinv (mkVsys s d (p1 ++ h :: p2) f) →
  vinv (mkVsys (mkVst (dev_serve h j len (dk s)) (mmio s) (vwakes s)) d (p1 ++ p2) f).
Proof.
  intros H0 H1 H2 Hj (av & us & hd & I). pose proof (vi_len _ _ _ _ I) as (_ & _ & L3 & _ & L5).
  pose proof (inv_heads_NoDup _ _ _ _ I) as Hnd. pose proof (inv_used_gap _ _ _ _ I) as G.
  pose proof (inv_count _ _ _ _ I) as Hc.
  destruct (inv_head _ _ _ _ I h) as (r & Hr & <-); [set_solver|].
  assert (j = r0 r) as ->.
  { destruct (vi_req _ _ _ _ I r Hr) as [R0 (y & R1 & _ & Ry) R2 _]. cbn [vs] in *.
    rewrite R0 in H0. injection H0 as <-. cbn [d_next] in H1. rewrite Nat2Z.id, R1 in H1.
    injection H1 as <-. rewrite Ry, Nat2Z.id, R2 in H2. injection H2 as <-. by apply status_inj in Hj. }
  exists av, (us ++ [r0 r]), hd. destruct I. cbn [vs dpos pend fl] in *.
  split; cbn [vs dpos pend fl dk dev_serve desc free info avail_ring avail_idx used_ring used_idx dev_idx];
    try done.
  - by rewrite length_alter, length_insert.
  - intros r' Hr'. destruct (vi_req0 r' Hr') as [R0 R1 R2 (y0 & Ry & Rb)]. split; try done.
    destruct (served_info_fwd (r0 r) (r0 r) len _ _ _ Ry) as (y & ? & E). exists y. by rewrite E.
  - rewrite <- vi_heads0. solve_Permutation.
  - rewrite length_app in *. simpl in *. lia.
  - unfold window in *. rewrite fmap_app, <- vi_used0, list_fmap_insert. simpl.
    assert (cap (fst <$> used_ring (dk s)) = NUM) as C by (unfold cap; by rewrite length_fmap, L5).
    set (u := used_idx (dk s)) in *. set (v := dev_idx (dk s)) in *.
    replace (v + 1 - u) with ((v - u) + 1) by lia. rewrite <- C.
    replace v with (u + (v - u)) at 1 by lia. apply ring_push. rewrite C. unfold NUM. lia.
  - intros i y Hi (y0 & Hy & _ & -> & _)%(served_info (r0 r) _ len). apply (vi_busy0 i); [set_solver|done].
  - intros i y Hi (y0 & Hy & _ & _ & ->)%(served_info (r0 r) _ len). case_bool_decide as E; [done|].
    apply (vi_served0 i); [set_solver|done].
  - intros i y Hi (y0 & Hy & _ & -> & _)%(served_info (r0 r) _ len). by apply (vi_done0 i).
Qed.

(** One entry of the used ring: the record is marked, its buffer woken. *)
Lemma intr_one_run s d p f av h us hd :
  vinv_with (mkVsys s d p f) av (h :: us) hd →
  ∃ r s', r ∈ f ∧ r0 r = h ∧ intr_one s = Done (tt, s') ∧
    vwakes s' = vwakes s ++ [CBuf (rbuf r)] ∧ vinv_with (mkVsys s' d p f) av us (hd ++ [h]).
Proof.
  intros I. destruct (inv_head _ _ _ _ I h) as (r & Hr & Er); [set_solver|].
  pose proof (vi_len _ _ _ _ I) as (L1 & L2 & L3 & L4 & L5).
  pose proof (inv_used_gap _ _ _ _ I) as G. pose proof (inv_heads_NoDup _ _ _ _ I) as Hnd.
  pose proof (vi_used _ _ _ _ I) as W. pose proof (vi_idx _ _ _ _ I) as V.
  destruct (vi_req _ _ _ _ I r Hr) as [_ _ _ (y & Hy & Hb)]. rewrite Er in Hy.
  pose proof (vi_served _ _ _ _ I h y ltac:(left) Hy) as Hst.
  cbn [vs dpos pend fl] in *. unfold window in W. simpl in G. rewrite ring_slice_cons in W by lia.
  injection W as Wh Wt.
  assert (Z.to_nat (used_idx (dk s) mod NUM) < length (used_ring (dk s)))%nat as Hlt.
  { rewrite L5. unfold num. pose proof (Z.mod_pos_bound (used_idx (dk s)) NUM). unfold NUM in *. lia. }
  destruct (lookup_lt_is_Some_2 _ _ Hlt) as [[e len] He].
  assert (cap (fst <$> used_ring (dk s)) = NUM) as C by (unfold cap; by rewrite length_fmap, L5).
  rewrite (ring_at_lookup _ _ e) in Wh by (by rewrite C, list_lookup_fmap, He). subst e.
  assert (∀ i, i ∈ av ++ p ++ us ++ hd → i ≠ h) as Hh.
  { assert (av ++ p ++ (h :: us) ++ hd ≡ₚ h :: av ++ p ++ us ++ hd) as Hp by solve_Permutation.
    rewrite Hp in Hnd. apply NoDup_cons in Hnd as [Hnd _]. by intros i Hi ->. }
  eexists r, _. split; [done|]. split; [done|]. unfold intr_one. rewrite bind_get, He, bind_unwrap.
  cbn [fst]. rewrite Nat2Z.id, Hy, bind_unwrap, Hst, Hb. cbn [Z.eqb negb]. rewrite bind_unwrap.
  unfold on_disk, wake_up. rewrite !bind_modify, bind_uadd by lia. split; [done|]. split; [done|].
  destruct I. cbn [vs dpos pend fl] in *.
  split; cbn [vs dpos pend fl dk set_used_idx set_info desc free info avail_ring avail_idx used_ring
    used_idx dev_idx]; try done.
  - by rewrite length_insert.
  - intros r' Hr'. destruct (vi_req0 r' Hr') as [R0 R1 R2 (y' & Hy' & Hb')]. split; try done. simpl.
    destruct (decide (r0 r' = h)) as [E|Hne].
    + rewrite E in *. rewrite list_lookup_insert_eq by (rewrite L3; apply (vi_small0 h);
        rewrite <- E; by apply head_in_chain). eexists. split; [done|]. simpl. congruence.
    + rewrite list_lookup_insert_ne by done. eauto.
  - rewrite <- vi_heads0. solve_Permutation.
  - lia.
  - unfold window. etransitivity; [|exact Wt]. f_equal. lia.
  - intros i z Hi. rewrite list_lookup_insert_ne by (apply not_eq_sym, Hh; set_solver).
    apply vi_busy0. set_solver.
  - intros i z Hi. rewrite list_lookup_insert_ne by (apply not_eq_sym, Hh; set_solver).
    apply vi_served0. set_solver.
  - intros i z Hi [[<- [<- _]]|[Hne Hz]]%list_lookup_insert_Some; [done|].
    apply elem_of_app in Hi as [Hi|Hi%list_elem_of_singleton]; [by apply (vi_done0 i)|congruence].
Qed.

Lemma intr_loop_run us : ∀ fuel s d p f av hd,
  (length us ≤ fuel)%nat → vinv_with (mkVsys s d p f) av us hd →
  ∃ rs s', r0 <$> rs = us ∧ (∀ r, r ∈ rs → r ∈ f) ∧ intr_loop fuel s = Done (tt, s') ∧
    vwakes s' = vwakes s ++ (CBuf ∘ rbuf <$> rs) ∧ vinv_with (mkVsys s' d p f) av [] (hd ++ us).
Proof.
  induction us as [|h us IH]; intros fuel s d p f av hd Hf I;
    pose proof (inv_used_gap _ _ _ _ I) as G; cbn [vs length] in G.
  - exists [], s. split; [done|]. split; [set_solver|]. rewrite !app_nil_r. split; [|done].
    destruct fuel; cbn [intr_loop]; rewrite bind_get; by rewrite (proj2 (Z.eqb_eq _ _)) by lia.
  - destruct fuel as [|fuel]; [simpl in Hf; lia|].
    destruct (intr_one_run _ _ _ _ _ _ _ _ I) as (r & s1 & Hr & Er & E1 & W1 & I1).
    destruct (IH fuel _ _ _ _ _ _ ltac:(simpl in Hf; lia) I1) as (rs & s' & Ers & Hrs & E & W & I').
    exists (r :: rs), s'. split; [by rewrite fmap_cons, Er, Ers|]. split; [set_solver|].
    cbn [intr_loop]. rewrite bind_get, (proj2 (Z.eqb_neq _ _)) by lia.
    mstep E1. rewrite E. split; [done|]. rewrite W, W1, <- !app_assoc. split; [done|].
    by rewrite <- app_assoc in I'.
Qed.
Lemma vinv_dk s s' d p f av us hd :
  dk s' = dk s → vinv_with (mkVsys s d p f) av us hd → vinv_with (mkVsys s' d p f) av us hd.
Proof. intros E []. cbn [vs dpos pend fl] in *. split; cbn [vs dpos pend fl]; rewrite ?E; done. Qed.
Lemma intr_run s d p f av us hd :
  vinv_with (mkVsys s d p f) av us hd →
  ∃ rs s', r0 <$> rs = us ∧ (∀ r, r ∈ rs → r ∈ f) ∧ intr rd s = Done (tt, s') ∧
    vwakes s' = vwakes s ++ (CBuf ∘ rbuf <$> rs) ∧ vinv_with (mkVsys s' d p f) av [] (hd ++ us).
Proof.
  intros I. pose proof (inv_count _ _ _ _ I) as Hc. unfold intr, write_reg. rewrite bind_modify.
  apply (intr_loop_run us intr_fuel (mkVst (dk s) _ (vwakes s))); [|by apply (vinv_dk s)].
  assert (2 ≤ intr_fuel)%nat by (unfold intr_fuel; lia). cbn [pend] in Hc. lia.
Qed.

(** ** Completion *)
Lemma free_desc_run s i d0 :
  (i < num)%nat → free (dk s) !! i = Some false → desc (dk s) !! i = Some d0 →
  free_desc i s = Done (tt, mkVst
    (set_free (<[i := true]> (free (dk s))) (set_desc (<[i := mkDesc 0 0 0 0]> (desc (dk s))) (dk s)))
    (mmio s) (vwakes s ++ [CFree])).
Proof.
  intros Hi Hf Hd. unfold free_desc. rewrite bind_get, (proj2 (Nat.leb_gt _ _)) by done.
  rewrite bind_ret_l, Hf, bind_unwrap. done.
Qed.
(** The disk once a request was taken off. *)
Definition finished k r (st : Z) : Disk :=
  mkDisk (<[r2 r := mkDesc 0 0 0 0]> (<[r1 r := mkDesc 0 0 0 0]> (<[r0 r := mkDesc 0 0 0 0]> (desc k))))
    (avail_idx k) (avail_ring k) (dev_idx k) (used_ring k)
    (<[r2 r := true]> (<[r1 r := true]> (<[r0 r := true]> (free k)))) (used_idx k)
    (<[r0 r := mkInfo None st false]> (info k)) (ops k).
Lemma free_chain_run s r :
  NoDup (chain r) → (∀ i, i ∈ chain r → (i < num)%nat ∧ free (dk s) !! i = Some false) →
  desc (dk s) !! r0 r = Some (mkDesc (ops_addr (r0 r)) REQ_SIZE VRING_DESC_F_NEXT (Z.of_nat (r1 r))) →
  (∃ x, desc (dk s) !! r1 r = Some x ∧ Z.land (d_flags x) VRING_DESC_F_NEXT ≠ 0 ∧ d_next x = Z.of_nat (r2 r)) →
  desc (dk s) !! r2 r = Some (mkDesc (status_addr (r0 r)) 1 VRING_DESC_F_WRITE 0) →
  free_chain (r0 r) s = Done (tt, mkVst
    (set_free (<[r2 r := true]> (<[r1 r := true]> (<[r0 r := true]> (free (dk s)))))
      (set_desc (<[r2 r := mkDesc 0 0 0 0]> (<[r1 r := mkDesc 0 0 0 0]>
        (<[r0 r := mkDesc 0 0 0 0]> (desc (dk s))))) (dk s)))
    (mmio s) (vwakes s ++ [CFree; CFree; CFree])).
Proof.
  intros Hnd Hf H0 (x & H1 & Hx & Hn) H2.
  apply NoDup_cons in Hnd as [N0 [N1 _]%NoDup_cons].
  assert (r0 r ≠ r1 r ∧ r0 r ≠ r2 r ∧ r1 r ≠ r2 r) as (? & ? & ?) by set_solver.
  destruct (Hf (r0 r) ltac:(unfold chain; set_solver)) as [? F0].
  destruct (Hf (r1 r) ltac:(unfold chain; set_solver)) as [? F1].
  destruct (Hf (r2 r) ltac:(unfold chain; set_solver)) as [? F2].
  unfold free_chain, num. change (S (Z.to_nat NUM)) with (S (S (S 6))). cbn [free_chain_loop].
  rewrite bind_get, H0, bind_unwrap. erewrite bind_run; [|by eapply free_desc_run].
  cbn [d_flags d_next]. change (negb (Z.land VRING_DESC_F_NEXT VRING_DESC_F_NEXT =? 0)) with true. cbv iota.
  rewrite Nat2Z.id, bind_get. cbn [dk set_free set_desc desc].
  rewrite list_lookup_insert_ne, H1, bind_unwrap by done.
  erewrite bind_run; [|eapply free_desc_run; simpl; [done|by rewrite list_lookup_insert_ne..]].
  rewrite (proj2 (Z.eqb_neq _ _) Hx). cbn [negb]. rewrite Hn, Nat2Z.id, bind_get.
  cbn [dk set_free set_desc desc free]. rewrite !list_lookup_insert_ne, H2, bind_unwrap by done.
  erewrite bind_run; [|eapply free_desc_run; simpl; [done|by rewrite !list_lookup_insert_ne..]].
  cbn. by rewrite <- !app_assoc.
Qed.

Lemma poll_run s d p f av us hd r :
  vinv_with (mkVsys s d p f) av us hd → r ∈ f →
  ∃ y, info (dk s) !! r0 r = Some y ∧ rw_poll (rbuf r) (r0 r) s =
    if in_disk y then Done (VWait (r0 r), s)
    else Done (VDone, mkVst (finished (dk s) r (status y)) (mmio s) (vwakes s ++ [CFree; CFree; CFree])).
Proof.
  intros I Hr. destruct (vi_req _ _ _ _ I r Hr) as [R0 R1 R2 (y & Hy & Hb)]. cbn [vs] in *.
  exists y. split; [done|]. unfold rw_poll. rewrite bind_get, Hy, bind_unwrap.
  destruct (in_disk y); [done|]. rewrite Hb, bind_unwrap. unfold on_disk.
  rewrite bind_modify, bind_assert by apply Z.eqb_refl.
  erewrite bind_run; [|apply free_chain_run; try done].
  - done.
  - by apply (NoDup_chain f), Hr; apply (vi_chains _ _ _ _ I).
  - intros i Hi. assert (i ∈ (f ≫= chain)) as Hin by (by apply (chain_in _ r)).
    assert (i < num)%nat as Hn by (by apply (vi_small _ _ _ _ I)). split; [done|].
    pose proof (vi_free _ _ _ _ I i Hn) as F. cbn [vs fl] in F. simpl. rewrite F.
    by rewrite bool_decide_eq_false_2 by tauto.
Qed.

(** A request that is finished was handled before. *)
Lemma finish_handled s d p f av us hd r y :
  vinv_with (mkVsys s d p f) av us hd → r ∈ f → info (dk s) !! r0 r = Some y → in_disk y = false →
  ∃ h1 h2, hd = h1 ++ r0 r :: h2.
Proof.
  intros I Hr Hy Hd. apply list_elem_of_split.
  assert (r0 r ∈ av ++ p ++ us ++ hd) as Hin.
  { rewrite (vi_heads _ _ _ _ I). by apply list_elem_of_fmap_2. }
  destruct (decide (r0 r ∈ av ++ p ++ us)) as [Hb|Hb]; [|set_solver].
  pose proof (vi_busy _ _ _ _ I _ _ Hb Hy). congruence.
Qed.
Lemma finish_inv s d p f1 r f2 s' :
  rw_poll (rbuf r) (r0 r) s = Done (VDone, s') →
  vinv (mkVsys s d p (f1 ++ r :: f2)) → vinv (mkVsys s' d p (f1 ++ f2)).
Proof.
  intros Hp (av & us & hd & I). assert (r ∈ f1 ++ r :: f2) as Hr by set_solver.
  destruct (poll_run _ _ _ _ _ _ _ _ I Hr) as (y & Hy & E). rewrite E in Hp.
  destruct (in_disk y) eqn:Hd; [discriminate Hp|]. injection Hp as <-.
  destruct (finish_handled _ _ _ _ _ _ _ _ _ I Hr Hy Hd) as (h1 & h2 & ->).
  pose proof (inv_heads_NoDup _ _ _ _ I) as Hnd. pose proof (vi_len _ _ _ _ I) as (L1 & L2 & L3 & L4 & L5).
  pose proof (vi_chains _ _ _ _ I) as Hch. cbn [vs dpos pend fl] in *.
  assert (((f1 ++ r :: f2) ≫= chain) ≡ₚ chain r ++ ((f1 ++ f2) ≫= chain)) as Pc.
  { by rewrite <- Permutation_middle, bind_cons. }
  assert (∀ i, i ∈ av ++ p ++ us ++ h1 ++ h2 → r0 r ≠ i) as Hh.
  { assert (av ++ p ++ us ++ (h1 ++ r0 r :: h2) ≡ₚ r0 r :: av ++ p ++ us ++ h1 ++ h2) as P
      by solve_Permutation.
    rewrite P in Hnd. apply NoDup_cons in Hnd as [Hnd _]. by intros i Hi <-. }
  exists av, us, (h1 ++ h2). destruct I. cbn [vs dpos pend fl] in *.
  split; cbn [vs dpos pend fl dk finished desc free info avail_ring avail_idx used_ring used_idx dev_idx];
    try done.
  - by rewrite !length_insert.
  - rewrite Pc in Hch. by apply NoDup_app in Hch as (_ & _ & ?).
  - intros i Hi. apply vi_small0. rewrite Pc. set_solver.
  - intros i Hi. destruct (decide (i ∈ chain r)) as [Hin|Hni].
    + rewrite insert3_eq by (rewrite ?L2; done). rewrite bool_decide_eq_true_2; [done|].
      rewrite Pc in Hch. apply NoDup_app in Hch as (_ & Hch & _). by apply Hch.
    + rewrite insert3_ne, vi_free0 by done. f_equal. apply bool_decide_ext. rewrite Pc. set_solver.
  - intros r' Hr'. apply (req_ok_ext (dk s)); [| |apply vi_req0; set_solver]; simpl.
    + intros i Hi. apply insert3_ne. intros Hi'. by apply (chain_disjoint f1 r f2 r' Hch Hr' i).
    + apply list_lookup_insert_ne. intros Er.
      apply (chain_disjoint f1 r f2 r' Hch Hr' (r0 r)); [left|rewrite Er; left].
  - apply (Permutation_cons_inv (a := r0 r)). rewrite <- fmap_cons, (Permutation_middle f1), <- vi_heads0.
    solve_Permutation.
  - intros i z Hi. rewrite list_lookup_insert_ne by (apply Hh; set_solver). apply vi_busy0. set_solver.
  - intros i z Hi. rewrite list_lookup_insert_ne by (apply Hh; set_solver). by apply vi_served0.
  - intros i z Hi. rewrite list_lookup_insert_ne by (apply Hh; set_solver). apply vi_done0. set_solver.
Qed.

Lemma vstep_inv x y : vstep x y → vinv x → vinv y.
Proof.
  destruct 1.
  - by eapply submit_inv.
  - by apply finish_inv.
  - by apply fetch_inv.
  - by eapply serve_inv.
  - intros (av & us & hd & I). destruct (intr_run _ _ _ _ _ _ _ I) as (rs & s1 & _ & _ & E & _ & I').
    assert (s' = s1) as -> by congruence. by exists av, [], (hd ++ us).
Qed.
Lemma vsteps_inv s x : vinit s → rtc vstep (mkVsys s 0 [] []) x → vinv x.
Proof.
  intros H0%vinit_inv Hs. revert H0. induction Hs as [|x y z Hxy _ IH]; [done|].
  intros Hx. by apply IH, (vstep_inv x).
Qed.

(** Checks and register accesses leave the structure alone. *)
Lemma write_reg_dk o v s a s' : write_reg o v s = Done (a, s') → dk s' = dk s.
Proof. by intros [= _ <-]. Qed.
Lemma assert_dk b msg s a s' : assert b msg s = Done (a, s') → dk s' = dk s.
Proof. destruct b; [by intros [= _ <-]|discriminate]. Qed.
Lemma guard_dk (b : bool) msg s (a : unit) s' :
  (if b then panic msg else mret tt) s = Done (a, s') → dk s' = dk s.
Proof. destruct b; [discriminate|by intros [= _ <-]]. Qed.
#[local] Ltac same_dk E H L :=
  let H1 := fresh in
  apply bind_Done in H as (? & ? & H1 & H); apply L in H1; rewrite E in H1; clear E; rename H1 into E.
Lemma init_vinit s s' : dk s = Disk.new → init self_addr rd s = Done (tt, s') → vinit s'.
Proof.
  intros E H. unfold init in H. do 3 same_dk E H assert_dk.
  destruct (_ || _ || _ || _); [discriminate|]. cbv zeta in H.
  do 7 same_dk E H write_reg_dk. do 2 same_dk E H guard_dk. same_dk E H write_reg_dk.
  same_dk E H guard_dk. same_dk E H write_reg_dk.
  unfold on_disk, modify in H. injection H as <-. unfold vinit. simpl. by rewrite E.
Qed.

(** What [rw] does when it looks at its request again: it goes on waiting, or
    it is done and exactly the three descriptors of its chain are free again. *)
Definition poll_ok (s : vst) (r : req) : Prop :=
  rw_poll (rbuf r) (r0 r) s = Done (VWait (r0 r), s) ∨
  ∃ s', rw_poll (rbuf r) (r0 r) s = Done (VDone, s') ∧
    (∀ i, i ∈ chain r → free (dk s') !! i = Some true) ∧
    ∀ i, i ∉ chain r → free (dk s') !! i = free (dk s) !! i.
Lemma poll_ok_inv s d p f av us hd r :
  vinv_with (mkVsys s d p f) av us hd → r ∈ f → poll_ok s r.
Proof.
  intros I Hr. destruct (poll_run _ _ _ _ _ _ _ _ I Hr) as (y & _ & E). unfold poll_ok. rewrite E.
  destruct (in_disk y); [by left|right]. eexists. split; [done|].
  pose proof (vi_len _ _ _ _ I) as (_ & L2 & _). cbn [vs] in L2. simpl. split; intros i Hi.
  - apply insert3_eq; [|done]. rewrite L2. apply (vi_small _ _ _ _ I). by apply (chain_in _ r).
  - by apply insert3_ne.
Qed.

End virtio.

(** ** A run *)
Definition addr0 (i : nat) : Z := 4096 + 16 * Z.of_nat i.
Definition stat0 (i : nat) : Z := 8192 + 16 * Z.of_nat i.
Definition regs0 (off : Z) : Z :=
  if off =? VIRTIO_MMIO_MAGIC_VALUE then 1953655158
  else if off =? VIRTIO_MMIO_DEVICE_ID then 2
  else if off =? VIRTIO_MMIO_VENDOR_ID then 1431127377
  else if off =? VIRTIO_MMIO_QUEUE_NUM_MAX then 1024
  else 1.
Definition run_state {A} (s : vst) (m : M vst A) : vst := match m s with Done (_, s') => s' | _ => s end.
Definition vst0 : vst := run_state (mkVst Disk.new [] []) (init 2147483648 regs0).
(** Two requests in flight; the device served the second. *)
Definition vst1 : vst := run_state vst0 (rw addr0 stat0 2048 5 false).
Definition vst2 : vst := run_state vst1 (rw addr0 stat0 4096 9 true).
Definition vst3 : vst := mkVst (dev_serve 3 3 0 (dk vst2)) (mmio vst2) (vwakes vst2).

