(* ===== verification/Pres.v ===== *)
(** * Computations that preserve a relation

    [pres R m]: every normal return of [m] is related to the state it began
    in. For a preorder [R] the rule follows the structure of [m], and the
    tactic [pres] applies it; lemmas on particular operations are hints. *)
From S2P Require Import Prelude.

Definition pres {S A} (R : relation S) (m : M S A) : Prop :=
  ∀ s a s', m s = Done (a, s') → R s s'.

Section pres.
Context {S : Type} (R : relation S) `{!PreOrder R}.

Lemma pres_bind {A B} (m : M S A) (k : A → M S B) :
  pres R m → (∀ a, pres R (k a)) → pres R (m ≫= k).
Proof.
  intros Hm Hk s b s' H. apply bind_Done in H as (a & s1 & H1 & H2).
  transitivity s1; [by eapply Hm|by eapply Hk].
Qed.
Lemma pres_ret {A} (a : A) : pres R (mret a).
Proof. intros s b s' [= _ <-]. reflexivity. Qed.
Lemma pres_get_bind {B} (k : S → M S B) : (∀ s, pres R (k s)) → pres R (get ≫= k).
Proof. intros Hk s b s' H. by apply (Hk s s b s'). Qed.
Lemma pres_get : pres R get.
Proof. intros s b s' [= _ <-]. reflexivity. Qed.
Lemma pres_gets {A} (f : S → A) : pres R (gets f).
Proof. intros s b s' [= _ <-]. reflexivity. Qed.
Lemma pres_panic {A} msg : pres R (panic msg : M S A).
Proof. by intros s b s'. Qed.
Lemma pres_fault {A} : pres R (fault : M S A).
Proof. by intros s b s'. Qed.
Lemma pres_hang {A} : pres R (hang : M S A).
Proof. by intros s b s'. Qed.
Lemma pres_assert b msg : pres R (assert b msg).
Proof. destruct b; [apply pres_ret|apply pres_panic]. Qed.
Lemma pres_unwrap {A} (o : option A) msg : pres R (unwrap o msg).
Proof. destruct o; [apply pres_ret|apply pres_panic]. Qed.
Lemma pres_uadd w x y : pres R (uadd w x y).
Proof. unfold uadd. destruct (_ <? _); [apply pres_ret|apply pres_panic]. Qed.
Lemma pres_usub w x y : pres R (usub w x y).
Proof. unfold usub. destruct (_ <=? _); [apply pres_ret|apply pres_panic]. Qed.
Lemma pres_usub_bind {B} w x y (k : Z → M S B) : pres R (k (x - y)) → pres R (usub w x y ≫= k).
Proof.
  intros Hk s b s' H. apply bind_Done in H as (z & s1 & H1 & H2). unfold usub in H1.
  destruct (_ <=? _); [|done]. injection H1 as <- <-. by eapply Hk.
Qed.
Lemma pres_modify f : (∀ s, R s (f s)) → pres R (modify f).
Proof. intros Hf s b s' [= _ <-]. apply Hf. Qed.
Lemma pres_for_each {A} (xs : list A) (f : A → M S unit) :
  (∀ x, pres R (f x)) → pres R (for_each xs f).
Proof.
  intros Hf. induction xs as [|x xs IH]; simpl; [apply pres_ret|]. by apply pres_bind.
Qed.
End pres.

(** A weaker relation; a part of a larger state. *)
Lemma pres_weaken {S A} (R Q : relation S) (m : M S A) :
  (∀ s s', R s s' → Q s s') → pres R m → pres Q m.
Proof. intros HRQ Hm s a s' H. by eapply HRQ, Hm. Qed.
Lemma pres_zoom {S T A} (R : relation S) (Q : relation T) prj inj (m : M S A) :
  pres R m → (∀ t s', R (prj t) s' → Q t (inj s' t)) → pres Q (zoom prj inj m).
Proof.
  intros Hm HQ t a t'. unfold zoom. destruct (m (prj t)) as [[b s]| | |] eqn:E; [|done..].
  intros [= _ <-]. by eapply HQ, Hm.
Qed.

Create HintDb pres.
#[export] Hint Resolve pres_ret pres_get pres_gets pres_panic pres_fault pres_hang pres_assert
  pres_unwrap pres_uadd pres_usub : pres.
#[export] Hint Extern 0 (PreOrder _) => typeclasses eauto : pres.
Ltac pres :=
  repeat match goal with
  | |- pres _ (mbind _ get) => apply pres_get_bind; intros ?
  | |- pres _ (mbind _ _) => apply pres_bind; [| |intros ?]
  | |- pres _ (for_each _ _) => apply pres_for_each; [|intros ?]
  | |- pres _ (let '(_, _) := ?x in _) => destruct x
  | |- pres _ (match ?x with _ => _ end) => destruct x
  | |- pres _ _ => solve [eauto 2 with pres nocore]
  | |- PreOrder _ => solve [typeclasses eauto]
  end.
