(* ===== verification/Signal.v ===== *)
(** * Signals

    [process/signal/mod.rs]: a set of received signals and a table of handlers
    per entry of the process table. [pause] sleeps on the address of the
    caller's set, [kill] adds a signal to a set and wakes who sleeps on it. No
    system call reaches them yet. *)
From stdpp Require Import functions.
From S2P Require Import Prelude Layout Spin SpinSafe Proc ProcSpec ProcOps ProcInv ProcSafe Pres.

Definition NSIG : Z := 1.
Definition SIG_CHLD : Z := 0.

(** [Sigset], a bit set; [Sigset::all] and [from_bits_truncate]. *)
Module Sigset.
Definition Chld : Z := Z.shiftl 1 SIG_CHLD.
Definition empty : Z := 0.
Definition from_bits_truncate (bits : Z) : Z := Z.land bits Chld.
Definition set (s flags : Z) (value : bool) : Z :=
  if value then Z.lor s flags else Z.land s (unot 64 flags).
End Sigset.

Inductive SigHandler := Ignore | Default | Handler (addr : Z).

Record Signals := mkSignals { sigsets_received : list Z; handlers : list (list SigHandler) }.

(** The process layer with the signals; [sig_base] is the address of the first
    set, a [usize]. *)
Record gst (F : Type) := mkGst { gk : kst F; gsig : Signals }.
Arguments mkGst {F}. Arguments gk {F}. Arguments gsig {F}.

Section signals.
Context {F : Type} `{Sym : Symbols} `{Ops : FileOps F} (sig_base : Z).
Implicit Types (h i : nat).
Abbreviation G := (M (gst F)).

Definition on_k {A} : M (kst F) A → G A := zoom gk (λ k s, mkGst k (gsig s)).

Definition new : Signals :=
  mkSignals (replicate (Z.to_nat NPROC) Sigset.empty)
    (replicate (Z.to_nat NPROC) (replicate (Z.to_nat NSIG) Ignore)).

Definition sig_chan (id : Z) : Z := sig_base + id * 8.

(** [handler] is the [isize] argument. *)
Definition register (signum idx handler : Z) : G unit :=
  s ← get;
  hs ← unwrap (handlers (gsig s) !! Z.to_nat idx) oob;
  unwrap (hs !! Z.to_nat signum) oob ;;
  let x := if handler =? 0 then Default else if handler <? 0 then Ignore else Handler handler in
  put (mkGst (gk s) (mkSignals (sigsets_received (gsig s))
    (<[Z.to_nat idx := <[Z.to_nat signum := x]> hs]> (handlers (gsig s))))).

(** Whether the caller sleeps, and with which [intena] it goes on. *)
Definition pause h : G (option bool) :=
  p ← on_k (on_mach (myproc h));
  match p with
  | None => mret None
  | Some i =>
    on_k (lock h LSigsets) ;;
    d ← on_k (data_at i);
    s ← get;
    unwrap (sigsets_received (gsig s) !! pd_id d) oob ;;
    b ← on_k (sleep h i (sig_chan (Z.of_nat (pd_id d))) LSigsets);
    mret (Some b)
  end.
Definition pause_resume h i (intena0 : bool) : G unit := on_k (sleep_resume h i intena0).

(** The guard of [idx_pids] lives to the end of the [if let]. *)
Definition kill h (signum pid0 : Z) : G (result unit) :=
  on_k (lock h LIdxPids) ;;
  s ← get;
  match find (λ p, p =? pid0) (idx_pids (gk s)) with
  | Some id =>
    on_k (lock h LSigsets) ;;
    s ← get;
    g ← unwrap (sigsets_received (gsig s) !! Z.to_nat id) oob;
    assert (signum <? 64) "attempt to shift left with overflow" ;;
    put (mkGst (gk s) (mkSignals
      (<[Z.to_nat id := Sigset.set g (Sigset.from_bits_truncate (ushl 64 1 signum)) true]>
        (sigsets_received (gsig s))) (handlers (gsig s)))) ;;
    on_k (wake_up h (sig_chan id)) ;;
    on_k (unlock h LSigsets) ;;
    on_k (unlock h LIdxPids) ;;
    mret (Ok tt)
  | None => on_k (unlock h LIdxPids) ;; mret (Err "No Such Process")
  end.

(** ** What the operations do *)
Lemma find_pid pid0 l : find (λ p, p =? pid0) l = if decide (pid0 ∈ l) then Some pid0 else None.
Proof.
  induction l as [|a l IH]; simpl; [done|].
  destruct (Z.eqb_spec a pid0) as [->|Hne].
  - by rewrite decide_True by set_solver.
  - rewrite IH. apply decide_ext. set_solver.
Qed.
Lemma only_chld signum : 0 ≤ signum < 64 →
  Sigset.from_bits_truncate (ushl 64 1 signum) = if signum =? SIG_CHLD then Sigset.Chld else 0.
Proof.
  intros H. unfold Sigset.from_bits_truncate, Sigset.Chld, ushl, SIG_CHLD, wrap.
  rewrite !Z.shiftl_1_l. rewrite Z.mod_small by (split; [lia|apply Z.pow_lt_mono_r; lia]).
  destruct (Z.eqb_spec signum 0) as [->|Hne]; [done|].
  apply Z.bits_inj'. intros n Hn. rewrite Z.land_spec, Z.pow2_bits_eqb, Z.bits_0 by lia.
  change (2 ^ 0) with (2 ^ 0). rewrite Z.pow2_bits_eqb by lia.
  destruct (Z.eqb_spec signum n), (Z.eqb_spec 0 n); simpl; try done; lia.
Qed.

Lemma wp_on_k {A} t (m : M (kst F) A) (Q : A → gst F → Prop) s :
  wp t m (λ a k, Q a (mkGst k (gsig s))) (gk s) → wp t (on_k m) Q s.
Proof. unfold wp, on_k, zoom. by destruct (m (gk s)) as [[a k]| | |]. Qed.

(** Locks and sleeping leave the table of pids alone. *)
Definition same_idx (k k' : kst F) : Prop := idx_pids k' = idx_pids k.
#[local] Instance same_idx_pre : PreOrder same_idx.
Proof. split; [done|intros x y z; unfold same_idx; congruence]. Qed.
Lemma same_mach {A} (m : M mach A) : pres same_idx (on_mach m).
Proof. eapply (pres_zoom (λ _ _, True)); [by intros s a s' ?|done]. Qed.
Lemma same_proc_at i : pres same_idx (proc_at i).
Proof. unfold proc_at. pres. Qed.
Lemma same_put_meta i m : pres same_idx (put_meta i m).
Proof.
  unfold put_meta, put_proc. apply pres_bind; [typeclasses eauto|apply same_proc_at|].
  intros p. by apply pres_modify.
Qed.
Hint Resolve same_mach same_proc_at same_put_meta : pres.
Lemma same_sched h i : pres same_idx (sched h i).
Proof. unfold sched, meta_at, unlock. pres. Qed.
Hint Resolve same_sched : pres.
Lemma same_sleep h i ch l : pres same_idx (sleep h i ch l).
Proof. unfold sleep, lock, unlock, meta_at. pres. Qed.

Lemma alter_insert {A} (f : A → A) (l : list A) n a : l !! n = Some a → alter f n l = <[n := f a]> l.
Proof.
  intros E. apply list_eq. intros j. destruct (decide (j = n)) as [->|Hne].
  - rewrite list_lookup_alter_eq, E, list_lookup_insert_eq by (by eapply lookup_lt_Some). done.
  - by rewrite list_lookup_alter_ne, list_lookup_insert_ne by done.
Qed.
Lemma wp_same {A} t (m : M (kst F) A) (Q : A → kst F → Prop) k :
  pres same_idx m → wp t m (λ a k', same_idx k k' → Q a k') k → wp t m Q k.
Proof.
  intros Hm. unfold wp. destruct (m k) as [[a k']| | |] eqn:E; [|done..]. intros HQ. apply HQ.
  by eapply Hm.
Qed.

(** Signal [signum] in set [id]; only [SIG_CHLD] is defined. *)
Definition deliver (signum : Z) (id : nat) (sg : Signals) : Signals :=
  mkSignals (alter (λ g, if signum =? SIG_CHLD then Z.lor g Sigset.Chld else g) id
    (sigsets_received sg)) (handlers sg).

Lemma wp_signal O h st p v k sg signum pid0 g (Q : result unit → gst F → Prop) :
  sees O h st p ∅ v k → 0 ≤ signum < 64 → 0 ≤ pid0 →
  (pid0 ∈ idx_pids k → sigsets_received sg !! Z.to_nat pid0 = Some g) →
  (pid0 ∉ idx_pids k → ∀ k', sees O h st p ∅ v k' → Q (Err "No Such Process") (mkGst k' sg)) →
  (pid0 ∈ idx_pids k → ∀ k',
     sees O h st p ∅ (v_set_ms (wake_tab p (sig_chan pid0) (v_ms v)) v) k' →
     Q (Ok tt) (mkGst k' (deliver signum (Z.to_nat pid0) sg))) →
  wp true (kill h signum pid0) Q (mkGst k sg).
Proof.
  intros Hs Hsig Hp Hg HN HY. unfold kill. apply wp_bind, wp_on_k, wp_same; [apply same_mach|].
  eapply wp_lock; [done|set_solver|apply few_empty|]. intros k1 Hs1 Hidx. rewrite union_empty_r_L in Hs1.
  apply wp_bind, wp_get. cbn [gk gsig]. rewrite Hidx, find_pid. case_decide as Hin.
  - apply wp_bind, wp_on_k. eapply wp_lock; [exact Hs1|set_solver|apply few_one|].
    cbn [gsig]. intros k2 Hs2. clear k1 Hs1 Hidx. apply wp_bind, wp_get. cbn [gk gsig].
    apply wp_bind. apply wp_unwrap; [intros _; by eexists; apply Hg|intros g' Eg].
    apply wp_bind, wp_assert; [intros _; apply Z.ltb_lt; lia|]. rename k2 into k1, Hs2 into Hs1.
    intros _. apply wp_bind, wp_put, wp_bind, wp_on_k. cbn [gk gsig].
    eapply wp_wake_up; [exact Hs1|intros i _; set_solver|apply few_two|].
    intros k2 Hs2. apply wp_bind, wp_on_k. cbn [gk gsig].
    eapply wp_unlock_back; [exact Hs2|set_solver|]. intros k3 Hs3. apply wp_bind, wp_on_k.
    cbn [gk gsig]. eapply wp_unlock; [exact Hs3|set_solver|]. intros k4 Hs4.
    rewrite difference_diag_L in Hs4. apply wp_ret.
    match goal with |- Q _ (mkGst _ ?x) => replace x with (deliver signum (Z.to_nat pid0) sg) end.
    + by apply HY.
    + unfold deliver. f_equal. rewrite (alter_insert _ _ _ _ Eg), only_chld by done. f_equal.
      simpl. destruct (signum =? SIG_CHLD); [done|]. by rewrite Z.lor_0_r.
  - apply wp_bind, wp_on_k. eapply wp_unlock; [exact Hs1|set_solver|].
    intros k2 Hs2. rewrite difference_diag_L in Hs2. apply wp_ret. by apply HN.
Qed.

Lemma wp_pause O h st i v k sg m (Q : option bool → gst F → Prop) :
  sees O h st (Some i) ∅ v k → v_ms v !! i = Some m → (i < length (sigsets_received sg))%nat →
  (∀ k', sees O h st None ∅ (v_put i (asleep (sig_chan (Z.of_nat i)) m) v) k' → same_idx k k' →
     Q (Some (sie_get st)) (mkGst k' sg)) →
  wp true (pause h) Q (mkGst k sg).
Proof.
  intros Hs Hm Hi HQ. unfold pause. apply wp_bind, wp_on_k, wp_same; [apply same_mach|].
  cbn [gk gsig]. eapply wp_myproc; [done|apply few_empty|]. intros k1 Hs1 I1.
  apply wp_bind, wp_on_k, wp_same; [apply same_mach|]. cbn [gk gsig].
  eapply wp_lock; [done|set_solver|apply few_empty|]. intros k2 Hs2 I2.
  rewrite union_empty_r_L in Hs2. apply wp_bind, wp_on_k. cbn [gk gsig].
  eapply wp_data_at; [done|by eauto|]. intros d _ Hd. subst i.
  apply wp_bind, wp_get. cbn [gk gsig]. apply wp_bind, wp_unwrap; [intros _; by apply lookup_lt_is_Some|].
  intros g _. apply wp_bind, wp_on_k, wp_same; [apply same_sleep|]. cbn [gk gsig].
  eapply wp_sleep; [done|done|done|]. intros k3 Hs3 I3. apply wp_ret, HQ; [done|].
  by transitivity k1; [|transitivity k2].
Qed.

(** Signals reach the slot the pid names, not the process. A process that
    pauses sleeps on the set of its own table entry; [kill] finds the pid in
    the table of pids and then uses the pid itself as the index. So a paused
    process is woken by a signal to the process [pid0] exactly when [pid0]
    happens to be the number of its table entry, and the signal is recorded
    there; a pid that is in no entry gives an error and changes nothing. *)
Theorem signal_wakes_slot k v pr h h' i m sg signum pid0 :
  sys k v pr → proc_of k h = Some i → entry k i = Some m →
  is_Some (harts (kmach k) !! h') → h' ≠ h → proc_of k h' ≠ Some i →
  (i < length (sigsets_received sg))%nat → 0 ≤ signum < 64 → 0 ≤ pid0 < Z.of_nat (length (sigsets_received sg)) →
  ∃ b k1 r k2 sg2 m2,
    pause h (mkGst k sg) = Done (Some b, mkGst k1 sg) ∧
    kill h' signum pid0 (mkGst k1 sg) = Done (r, mkGst k2 sg2) ∧
    entry k2 i = Some m2 ∧
    if decide (pid0 ∈ idx_pids k) then
      r = Ok tt ∧ sg2 = deliver signum (Z.to_nat pid0) sg ∧
      state m2 = (if decide (pid0 = Z.of_nat i) then Runnable else Sleeping)
    else r = Err "No Such Process" ∧ sg2 = sg ∧ state m2 = Sleeping.
Proof.
  intros Sy Hp He Hh' Hne Hp' Hi Hsig Hpid. pose proof (proc_of_hart _ _ _ Hp) as Hh.
  rewrite (proc_of_pr _ _ _ _ Sy Hh) in Hp. rewrite (proc_of_pr _ _ _ _ Sy Hh') in Hp'.
  assert (v_ms v !! i = Some m) as Hm by (by rewrite <- (sy_ms _ _ _ Sy), list_lookup_fmap).
  destruct (sys_sees _ _ _ _ Sy Hh) as [st Hse]. rewrite Hp in Hse.
  destruct (wp_total _ _ _ (wp_pause _ h st i v k sg m (λ b s, ∃ k1, b = Some (sie_get st) ∧ s = mkGst k1 sg ∧
    sees (λ h, harts (kmach k) !! h) h st None ∅ (v_put i (asleep (sig_chan (Z.of_nat i)) m) v) k1 ∧ same_idx k k1)
    Hse Hm Hi ltac:(intros k1 ? ?; by exists k1))) as (b & s1 & E1 & k1 & -> & -> & Hs1 & I1).
  pose proof (sees_sys _ _ _ _ _ _ _ _ Sy Hh Hs1) as Sy1.
  assert (is_Some (harts (kmach k1) !! h')) as Hh1.
  { destruct (se_holds _ _ _ _ _ _ _ Hs1) as [_ _ _ S4]. by rewrite S4. }
  destruct (sys_sees _ _ _ _ Sy1 Hh1) as [st' Hse1]. rewrite fn_lookup_insert_ne in Hse1 by done.
  destruct (lookup_lt_is_Some_2 (sigsets_received sg) (Z.to_nat pid0)) as [g Eg]; [lia|].
  assert ((i < length (v_ms v))%nat) as Hl by (by eapply lookup_lt_Some).
  edestruct (wp_total (kill h' signum pid0) (λ r s, ∃ k2 sg2 m2, s = mkGst k2 sg2 ∧
    entry k2 i = Some m2 ∧ if decide (pid0 ∈ idx_pids k) then
      r = Ok tt ∧ sg2 = deliver signum (Z.to_nat pid0) sg ∧
      state m2 = (if decide (pid0 = Z.of_nat i) then Runnable else Sleeping)
    else r = Err "No Such Process" ∧ sg2 = sg ∧ state m2 = Sleeping))
    as (r & s2 & E2 & k2 & sg2 & m2 & -> & Hm2 & HQ);
    [eapply (wp_signal _ h' st' (pr h') _ k1 sg signum pid0 g); [exact Hse1|lia|lia|done|..]|].
  - unfold same_idx in I1. rewrite I1. intros Hn k2 Hs2. case_decide; [done|].
    exists k2, sg, (asleep (sig_chan (Z.of_nat i)) m). split_and!; try done.
    unfold entry. rewrite <- list_lookup_fmap, (se_ms _ _ _ _ _ _ _ Hs2). simpl. by apply list_lookup_insert_eq.
  - unfold same_idx in I1. rewrite I1. intros Hin k2 Hs2. case_decide; [|done].
    exists k2, (deliver signum (Z.to_nat pid0) sg), (wake_meta (sig_chan pid0) (asleep (sig_chan (Z.of_nat i)) m)).
    split_and!; try done.
    + unfold entry. rewrite <- list_lookup_fmap, (se_ms _ _ _ _ _ _ _ Hs2). simpl. unfold wake_tab.
      rewrite list_lookup_imap, list_lookup_insert_eq by done. simpl. by rewrite decide_False.
    + unfold wake_meta. simpl. unfold sig_chan.
      destruct (Z.eqb_spec (sig_base + Z.of_nat i * 8) (sig_base + pid0 * 8)); simpl; case_decide; try done; lia.
  - rewrite E1. by eauto 15.
Qed.
End signals.

(** Two processes whose pids are the numbers of each other's entries: a signal
    to the one that pauses does not wake it. *)
#[local] Existing Instance sym0.
#[local] Existing Instance nofiles.
Definition crossed : kst unit :=
  set_idx_pids [1; 0] (small_kst [busy_hart 0; busy_hart 1]
    [mkMeta Running 0 false 0 1; mkMeta Running 0 false 0 0] [0; 0]).
Lemma crossed_sys : sys crossed (small_view crossed) (proc_of crossed).
Proof.
  split; try reflexivity.
  intros [|[|h]] x E; simpl in E; simplify_eq; exists 0, Context.new;
    (split; [by apply (bool_decide_unpack _)|by split]).
Qed.
Lemma signal_wakes_slot_witness :
  ∃ b k1 r k2 sg2 m2,
    pause 0x80200000 0 (mkGst crossed new) = Done (Some b, mkGst k1 new) ∧
    kill 0x80200000 1 0 1 (mkGst k1 new) = Done (r, mkGst k2 sg2) ∧
    entry k2 0 = Some m2 ∧ pid m2 = 1 ∧ r = Ok tt ∧ state m2 = Sleeping.
Proof.
  destruct (signal_wakes_slot 0x80200000 crossed (small_view crossed) (proc_of crossed) 0 1 0
    (mkMeta Running 0 false 0 1) new 0 1 crossed_sys) as (b & k1 & r & k2 & sg2 & m2 & E1 & E2 & E3 & H);
    [reflexivity|reflexivity|by eexists|done|discriminate|vm_compute; lia|lia|vm_compute; by split|].
  exists b, k1, r, k2, sg2, m2. split_and!; [exact E1|exact E2|exact E3| | |].
  - vm_compute in E1. injection E1 as <- <-. vm_compute in E2. injection E2 as <- <- <-.
    vm_compute in E3. injection E3 as <-. reflexivity.
  - vm_compute in H. apply H.
  - vm_compute in H. apply H.
Defined.
