(* ===== verification/File.v ===== *)
(** * Open files: the operations

    [fs/file.rs] and [fs/devices.rs], with [Arc<VFile>], on the state of the
    process layer: reads, writes and drops of open files dispatch to the
    inodes, the pipes and the device table. The file layer implements the
    interface [FileOps] that the process layer uses. *)
From S2P Require Import Layout.
From S2P Require Import Kalloc.
From S2P Require Import PageTable.
From S2P Require Import Bcache.
From S2P Require Import Log.
From S2P Require Import Fs.
From S2P Require Import Icache.
From S2P Require Import Pipe.
From S2P Require Import Console.
From S2P Require Import Prelude.
From S2P Require Import Spin.
From S2P Require Import Proc.

Inductive FileType := FNone | FPipe | FInode | FDevice.
#[global] Instance FileType_eq_dec : EqDecision FileType.
Proof. solve_decision. Defined.

(** [pipe] is the page of the shared [PipeInner]; [major] is an [i16]. *)
Record VFile := mkVFile {
  ftype : FileType; readable : bool; writeable : bool; vpipe : option Z; vinode : option Inode;
  offset : Z; vmajor : Z
}.
Module VFile.
Definition init : VFile := mkVFile FNone false false None None 0 0.
Definition set_offset (f : VFile) (o : Z) : VFile :=
  mkVFile (ftype f) (readable f) (writeable f) (vpipe f) (vinode f) o (vmajor f).
End VFile.

(** The functions a driver can register. *)
Inductive ReadFn := ConsoleRead.
Inductive WriteFn := ConsoleWrite.
Record Device := mkDevice { dev_read : option ReadFn; dev_write : option WriteFn }.
Module Device.
Definition new : Device := mkDevice None None.
End Device.
Definition CONSOLE : nat := 0.
(** [DEVICE_LIST] before and after [console::init]. *)
Definition uninit : list Device := replicate (Z.to_nat NDEV) Device.new.
Definition console_registered : list Device :=
  <[CONSOLE := mkDevice (Some ConsoleRead) (Some ConsoleWrite)]> uninit.

(** The state of the file layer. An [Arc<VFile>] is the address of its
    allocation; [arcs] has its count and its contents. *)
Record filest (S : Type) := mkFilest {
  f_fs : fsst S;
  f_pipes : gmap Z PipeInner;
  f_arcs : gmap Z (Z * VFile);
  f_tty : tty;
  f_devs : list Device
}.
Arguments mkFilest {S}. Arguments f_fs {S}. Arguments f_pipes {S}. Arguments f_arcs {S}.
Arguments f_tty {S}. Arguments f_devs {S}.

(** The process layer keeps an [Inode] as a number. *)
#[global] Instance Inode_eq_dec : EqDecision Inode.
Proof. solve_decision. Defined.
#[global] Instance Inode_countable : Countable Inode :=
  inj_countable' (λ ip, (i_dev ip, i_inum ip, index ip)) (λ '(d, n, i), mkInode d n i)
    (λ ip, match ip with mkInode _ _ _ => eq_refl end).
Definition inode_ref (ip : Inode) : Z := Z.pos (encode ip).
Definition ref_inode (z : Z) : option Inode :=
  match z with Z.pos p => decode p | _ => None end.

(** How a call ends: with its result, or asleep. *)
Inductive ending (A : Type) := Ends (a : A) | Asleep.
Arguments Ends {A}. Arguments Asleep {A}.

Section files.
Context {D S : Type} `{!BlockDev D} (dv : Z) `{!BufferCache D S dv} `{!BitField}.
(** The channels of a pipe, of the readers of the console and of the writers
    of the UART; the size of an [Arc<VFile>]; the UART. *)
Context (pipe_chan : Z → Pipe.chan → Z) (con_chan uart_chan arc_size : Z).
Context (panicked : bool) (lsr : nat → bool) (spin : nat).
Abbreviation F := (filest S).
Abbreviation K := (M (kst (filest S))).

Definition set_kfs (x : F) (k : kst F) : kst F :=
  mkKst (kmach k) (kmem k) (procs k) (pids k) (init_proc k) (wait_list k) (idx_pids k) (ticks k) x.
Definition put_arcs (x : gmap Z (Z * VFile)) : K unit :=
  modify (λ k, set_kfs (mkFilest (f_fs (kfs k)) (f_pipes (kfs k)) x (f_tty (kfs k)) (f_devs (kfs k))) k).
Definition put_pipes (x : gmap Z PipeInner) : K unit :=
  modify (λ k, set_kfs (mkFilest (f_fs (kfs k)) x (f_arcs (kfs k)) (f_tty (kfs k)) (f_devs (kfs k))) k).

(** [wake_up] of the process layer, in one step. *)
Definition wake_proc (c : Z) (p : Process) : Process :=
  if bool_decide (state (meta p) = Sleeping) && (chan (meta p) =? c)
  then mkProcess (ProcMeta.set_state (meta p) Runnable) (data p) else p.
Definition wake_all (c : Z) : K unit := modify (λ k, set_procs (wake_proc c <$> procs k) k).

(** ** Running the layers below

    Process [i], if any, is the one whose memory and working directory they
    see. *)
Definition pdata_of (i : option nat) (k : kst F) : option ProcData :=
  i ≫= λ i, data <$> procs k !! i.
Definition killed_of (i : option nat) (k : kst F) : bool :=
  default false (i ≫= λ i, killed ∘ meta <$> procs k !! i).

Definition fs_view (i : option nat) (k : kst F) : fsst S :=
  let s := f_fs (kfs k) in
  mkFsst (fl s) (super s) (sb_ready s) (imetas s) (idatas s) (kmem k) (pdata_of i k ≫= pagetable)
    ((pdata_of i k ≫= cwd) ≫= ref_inode).
Definition set_fs (s : fsst S) (k : kst F) : kst F :=
  set_kmem (umem s) (set_kfs (mkFilest s (f_pipes (kfs k)) (f_arcs (kfs k)) (f_tty (kfs k))
    (f_devs (kfs k))) k).
Definition on_fs {A} (i : option nat) : M (fsst S) A → K A := zoom (fs_view i) set_fs.
Definition on_log {A} (m : M (logst S) A) : K A := on_fs None (Fs.on_log m).

Definition tty_view (i : option nat) (k : kst F) : tty :=
  let t := f_tty (kfs k) in
  mkTty (uart t) (con t) (thr t) (rhr t) (polls t) (rwakes t) (wwakes t) (kmem k)
    (pdata_of i k ≫= pagetable) (killed_of i k).
Definition set_tty (t : tty) (k : kst F) : kst F :=
  set_kmem (tmem t) (set_kfs (mkFilest (f_fs (kfs k)) (f_pipes (kfs k)) (f_arcs (kfs k)) t
    (f_devs (kfs k))) k).
(** The console wakes its readers and writers. *)
Definition on_tty {A} (i : option nat) (m : M tty A) : K A :=
  k ← get;
  r ← zoom (tty_view i) set_tty m;
  k' ← get;
  (if (rwakes (f_tty (kfs k)) <? rwakes (f_tty (kfs k')))%nat then wake_all con_chan else mret tt) ;;
  (if (wwakes (f_tty (kfs k)) <? wwakes (f_tty (kfs k')))%nat then wake_all uart_chan else mret tt) ;;
  mret r.

(** The pipe in page [pg], gone when both of its ends are closed; its
    wake-ups are carried out in order. *)
Definition pipe_view (i : option nat) (pg : Z) (p : PipeInner) (k : kst F) : pst :=
  mkPst p pg (kmem k) [] (killed_of i k).
Definition store_pipe (s : pst) : K unit :=
  k ← get;
  let ps := f_pipes (kfs k) in
  modify (set_kmem (pmem s)) ;;
  put_pipes (if negb (readopen (inner s)) && negb (writeopen (inner s)) then delete (page s) ps
             else <[page s := inner s]> ps) ;;
  for_each (wakes s) (λ c, wake_all (pipe_chan (page s) c)).
Definition on_pipe {A} (i : option nat) (pg : Z) (m : M pst A) : K A :=
  k ← get;
  match f_pipes (kfs k) !! pg with
  | None => fault
  | Some p =>
    match m (pipe_view i pg p k) with
    | Done (a, s) => store_pipe s ;; mret a
    | Panic e => panic e
    | Fault => fault
    | Hang => hang
    end
  end.

(** ** Arc<VFile> *)
Definition arc_new (f : VFile) : K Z :=
  a ← on_mem (alloc arc_size);
  if a =? 0 then panic "alloc error" else
  k ← get;
  put_arcs (<[a := (1, f)]> (f_arcs (kfs k))) ;;
  mret a.
Definition arc_get (a : Z) : K VFile :=
  k ← get;
  match f_arcs (kfs k) !! a with Some (_, f) => mret f | None => fault end.
Definition arc_clone (a : Z) : K unit :=
  k ← get;
  match f_arcs (kfs k) !! a with
  | Some (n, f) => n' ← uadd 64 n 1; put_arcs (<[a := (n', f)]> (f_arcs (kfs k)))
  | None => fault
  end.
(** [Cell::set] on the offset. *)
Definition set_offset (a o : Z) : K unit :=
  k ← get;
  match f_arcs (kfs k) !! a with
  | Some (n, f) => put_arcs (<[a := (n, VFile.set_offset f o)]> (f_arcs (kfs k)))
  | None => fault
  end.

(** [Drop for VFile], then the drop of its fields. *)
Definition vfile_drop (f : VFile) : K unit :=
  (if bool_decide (ftype f = FPipe)
   then pg ← unwrap (vpipe f) PageTable.unwrap_msg; on_pipe None pg (Pipe.close (writeable f))
   else mret tt) ;;
  when_some (vinode f) (λ ip, on_fs None (Icache.put dv ip)).
Definition arc_drop (a : Z) : K unit :=
  k ← get;
  match f_arcs (kfs k) !! a with
  | None => fault
  | Some (n, f) =>
    if n =? 1 then
      put_arcs (delete a (f_arcs (kfs k))) ;;
      vfile_drop f ;;
      on_mem (dealloc a arc_size)
    else put_arcs (<[a := (n - 1, f)]> (f_arcs (kfs k)))
  end.

(** ** Reading and writing, by process [i] *)
Definition FAIL_READ : string := "[Error] vfs: Fail to read file".
Definition FAIL_WRITE : string := "[Error] vfs: Fail to write file".
Definition user_pgt (i : nat) : K Z := d ← data_at i; unwrap (pagetable d) PageTable.unwrap_msg.
Definition of_blocking {A} (b : blocking A) : ending A :=
  match b with Ret a => Ends a | Sleep _ _ => Asleep end.

(** The entry of the device table, if [major] is not refused: [NDEV] itself
    is let through, and indexing then panics. *)
Definition device_at (f : VFile) : K (option Device) :=
  if (vmajor f <? 0) || (NDEV <? vmajor f) then mret None else
  k ← get;
  d ← unwrap (f_devs (kfs k) !! Z.to_nat (vmajor f)) oob;
  mret (Some d).

Definition read_inode (i : nat) (a : Z) (f : VFile) (addr len : Z) : K (result Z) :=
  ip ← unwrap (vinode f) PageTable.unwrap_msg;
  on_fs (Some i) (Icache.ilock dv ip) ;;
  r ← on_fs (Some i) (iread dv (index ip) User addr (offset f) (wrap 32 len));
  match r with
  | Err e => on_fs (Some i) (Icache.iunlock ip) ;; mret (Err e)
  | Ok bs =>
    o ← uadd 32 (offset f) (Z.of_nat (length bs));
    set_offset a o ;;
    on_fs (Some i) (Icache.iunlock ip) ;;
    mret (Ok (Z.of_nat (length bs)))
  end.
Definition vfile_read (i : nat) (a addr len : Z) : K (ending (result Z)) :=
  f ← arc_get a;
  if negb (readable f) then panic "File can't be read" else
  match ftype f with
  | FNone => panic "Invalid file!"
  | FPipe =>
    pg ← unwrap (vpipe f) PageTable.unwrap_msg;
    pgt ← user_pgt i;
    r ← on_pipe (Some i) pg (Pipe.read pgt addr len);
    mret (of_blocking r)
  | FInode => r ← read_inode i a f addr len; mret (Ends r)
  | FDevice =>
    d ← device_at f;
    match d ≫= dev_read with
    | None => mret (Ends (Err FAIL_READ))
    | Some ConsoleRead =>
      r ← on_tty (Some i) (console_read User addr len);
      mret (match r with
            | TSleep _ => Asleep
            | TRet (_, Some n) => Ends (Ok n)
            | TRet (_, None) => Ends (Err "Failed to read device")
            end)
    end
  end.

(** [((MAXOPBLOCKS - 1 - 1 - 2) / 2) * BSIZE] *)
Definition write_max : Z := (MAXOPBLOCKS - 1 - 1 - 2) / 2 * BSIZE.
Fixpoint write_inode (fuel : nat) (i : nat) (a addr len count : Z) : K (result Z) :=
  if len <=? count then mret (Ok count) else
  match fuel with
  | O => hang
  | Datatypes.S fuel' =>
    let write_bytes := if write_max <? len - count then write_max else len - count in
    on_log (Log.begin_op) ;;
    f ← arc_get a;
    ip ← unwrap (vinode f) PageTable.unwrap_msg;
    on_fs (Some i) (Icache.ilock dv ip) ;;
    src ← uadd 64 addr count;
    r ← on_fs (Some i) (iwrite dv (index ip) User [] src (offset f) write_bytes);
    on_fs (Some i) (Icache.iunlock ip) ;;
    match r with
    | Err e => mret (Err e)
    | Ok total =>
      on_log (Log.end_op dv) ;;
      o ← uadd 32 (offset f) (wrap 32 total);
      set_offset a o ;;
      write_inode fuel' i a addr len (count + total)
    end
  end.
Definition vfile_write (i : nat) (a addr len : Z) : K (ending (result Z)) :=
  f ← arc_get a;
  if negb (writeable f) then panic "File can't be written" else
  match ftype f with
  | FNone => panic "Invalid file"
  | FPipe =>
    pg ← unwrap (vpipe f) PageTable.unwrap_msg;
    pgt ← user_pgt i;
    r ← on_pipe (Some i) pg (Pipe.write pgt addr len);
    mret (of_blocking r)
  | FInode => r ← write_inode (Datatypes.S (Z.to_nat len)) i a addr len 0; mret (Ends r)
  | FDevice =>
    d ← device_at f;
    match d ≫= dev_write with
    | None => mret (Ends (Err FAIL_WRITE))
    | Some ConsoleWrite =>
      r ← on_tty (Some i) (console_write panicked lsr User [] addr len);
      mret (match r with TSleep _ => Asleep | TRet n => Ends (Ok n) end)
    end
  end.

(** The 24 bytes of [Stat], with its padding. *)
Definition stat_bytes (s : Stat) : list Z :=
  le_bytes 4 (st_dev s) ++ le_bytes 4 (st_inum s) ++ le_bytes 2 (itype_u16 (st_itype s)) ++
  le_bytes 2 (wrap 16 (st_nlink s)) ++ replicate 4 0 ++ le_bytes 8 (st_size s).
Definition vfile_stat (i : nat) (a addr : Z) : K (result unit) :=
  f ← arc_get a;
  if negb (bool_decide (ftype f = FDevice)) && negb (bool_decide (ftype f = FInode))
  then mret (Err "File type of {:?} not implemented") else
  ip ← unwrap (vinode f) PageTable.unwrap_msg;
  on_fs (Some i) (Icache.ilock dv ip) ;;
  st ← on_fs (Some i) (stat (index ip));
  on_fs (Some i) (Icache.iunlock ip) ;;
  pgt ← user_pgt i;
  on_mem (PageTable.copy_out pgt addr (stat_bytes st)).

(** ** The interface of the process layer *)
Definition on_ref (z : Z) (m : Inode → M (fsst S) unit) : K unit :=
  match ref_inode z with Some ip => on_fs None (m ip) | None => fault end.
Definition ROOTIPATH : list Z := [SLASH; 0].
Definition file_ops : FileOps (filest S) := {|
  file_clone := arc_clone;
  file_drop := arc_drop;
  inode_clone z := on_ref z (λ ip, Icache.dup ip ;; mret tt);
  inode_drop z := on_ref z (Icache.put dv);
  log_begin_op := on_log Log.begin_op;
  log_end_op := on_log (Log.end_op dv);
  namei_root :=
    r ← on_fs None (Icache.namei dv ROOTIPATH);
    ip ← unwrap r "cannot find root inode";
    mret (inode_ref ip)
|}.
End files.
