(* ===== verification/SysFile.v ===== *)
(** * The file system calls

    [syscall/file.rs], with [copy_from_str] and [copy_from_addr] of
    [syscall/mod.rs]. A call returns [None] for [Err(())]; guards and
    references are dropped where the source drops them, at the end of their
    scope in the reverse order of their declaration. *)
From S2P Require Import Layout.
From S2P Require Import Kalloc.
From S2P Require Import PageTable.
From S2P Require Import Bcache.
From S2P Require Import Log.
From S2P Require Import Fs.
From S2P Require Import Icache.
From S2P Require Import Pipe.
From S2P Require Import Console.
From S2P Require Import Prelude.
From S2P Require Import Spin.
From S2P Require Import Proc.
From S2P Require Import File.

Section sysfile.
Context {D S : Type} `{!BlockDev D} (dv : Z) `{!BufferCache D S dv} `{!BitField}.
Context (pipe_chan : Z → Pipe.chan → Z) (con_chan uart_chan arc_size : Z).
Context (panicked : bool) (lsr : nat → bool).
Abbreviation K := (M (kst (filest S))).
Abbreviation on_fs i := (File.on_fs (Some i)).
Abbreviation begin_op := (File.on_log Log.begin_op).
Abbreviation end_op := (File.on_log (Log.end_op dv)).
Abbreviation iput i ip := (on_fs i (Icache.put dv ip)).
Abbreviation arc_drop := (arc_drop dv pipe_chan arc_size).

(** ** Arguments *)
Definition copy_from_str (i : nat) (addr : Z) (buf : list Z) : K (list Z) :=
  pgt ← user_pgt i; on_mem (PageTable.copy_in_str pgt buf addr).
Definition copy_from_addr (i : nat) (addr n : Z) : K (list Z) :=
  d ← data_at i;
  if psize d <? addr then panic "Invalid  user virtual address" else
  e ← uadd 64 addr 8;
  if psize d <? e then panic "Invalid  user virtual address" else
  pgt ← user_pgt i;
  on_mem (PageTable.copy_in pgt n addr).
Definition path0 : list Z := replicate (Z.to_nat MAXPATH) 0.
(** [open_files[fd].as_ref().unwrap()] *)
Definition file_at (i : nat) (fd : Z) : K Z :=
  d ← data_at i;
  o ← unwrap (open_files d !! Z.to_nat fd) oob;
  unwrap o PageTable.unwrap_msg.
Definition of_result (r : ending (result Z)) : ending (option Z) :=
  match r with Asleep => Asleep | Ends (Ok n) => Ends (Some n) | Ends (Err _) => Ends None end.
(** [fd_alloc], which owns the file: it is dropped when no slot is free. *)
Definition fd_give (i : nat) (a : Z) : K (option Z) :=
  r ← fd_alloc i a;
  match r with Ok fd => mret (Some (Z.of_nat fd)) | Err _ => arc_drop a ;; mret None end.

(** ** Descriptors *)
Definition sys_dup (i : nat) : K (option Z) :=
  old_fd ← arg i 0;
  a ← file_at i old_fd;
  arc_clone a ;;
  r ← fd_give i a;
  fd ← unwrap r "called `Result::unwrap()` on an `Err` value";
  mret (Some fd).
Definition sys_read (i : nat) : K (ending (option Z)) :=
  fd ← arg i 0;
  a ← file_at i fd;
  addr ← arg i 1;
  len ← arg i 2;
  r ← vfile_read dv pipe_chan con_chan uart_chan i a addr len;
  mret (of_result r).
Definition sys_write (i : nat) : K (ending (option Z)) :=
  fd ← arg i 0;
  a ← file_at i fd;
  addr ← arg i 1;
  len ← arg i 2;
  r ← vfile_write dv pipe_chan con_chan uart_chan panicked lsr i a addr len;
  mret (of_result r).
Definition sys_close (i : nat) : K (option Z) :=
  fd ← arg i 0;
  d ← data_at i;
  o ← unwrap (open_files d !! Z.to_nat fd) oob;
  put_data i (ProcData.set_files d (<[Z.to_nat fd := None]> (open_files d)) (cwd d)) ;;
  when_some o arc_drop ;;
  mret (Some 0).
Definition sys_fstat (i : nat) : K (option Z) :=
  fd ← arg i 0;
  st ← arg i 1;
  a ← file_at i fd;
  r ← vfile_stat dv i a st;
  mret (match r with Ok _ => Some 0 | Err _ => None end).

(** [Pipe::alloc]: the page of the pipe and its two ends. *)
Definition pipe_end (pg : Z) (w : bool) : VFile := mkVFile FPipe (negb w) w (Some pg) None 0 0.
Definition pipe_alloc : K (Z * Z) :=
  k ← get;
  match Pipe.alloc (mkPst (mkPipe [] 0 0 false false) 0 (kmem k) [] false) with
  | Done (_, s) =>
    store_pipe pipe_chan s ;;
    vread ← arc_new arc_size (pipe_end (page s) false);
    vwrite ← arc_new arc_size (pipe_end (page s) true);
    mret (vread, vwrite)
  | Panic e => panic e
  | Fault => fault
  | Hang => hang
  end.
Definition sys_pipe (i : nat) : K (option Z) :=
  addr ← arg i 0;
  ends ← pipe_alloc;
  let '(rp, wp) := ends in
  rf ← fd_give i rp;
  match rf with
  | None => arc_drop wp ;; mret None
  | Some rf =>
    wf ← fd_give i wp;
    match wf with
    | None => mret None
    | Some wf =>
      on_fs i (copy_from_kernel User addr (le_bytes 4 (wrap 32 rf) ++ le_bytes 4 (wrap 32 wf))) ;;
      mret (Some 0)
    end
  end.

(** ** Opening *)
Definition RDONLY : Z := OpenModes.bits Layout.RDONLY.
(** The file is opened once its inode is found and was referenced; the
    device number of the file stays [0]. *)
Definition open_found (i : nat) (ip : Inode) (open_mode : Z) : K (option Z) :=
  on_fs i (Icache.ilock dv ip) ;;
  d ← on_fs i (idata_at (index ip));
  let t := itype (dinode d) in
  (if get_bit open_mode 10 && bool_decide (t = File)
   then on_fs i (truncate dv (index ip) (i_dev ip)) else mret tt) ;;
  on_fs i (Icache.iunlock ip) ;;
  end_op ;;
  a ← arc_new arc_size (mkVFile (if bool_decide (t = Fs.Device) then FDevice else FInode)
    (negb (get_bit open_mode 0) || get_bit open_mode 1) (get_bit open_mode 0 || get_bit open_mode 1)
    None (Some ip) 0 0);
  fd_give i a.
Definition sys_open (i : nat) : K (option Z) :=
  addr ← arg i 0;
  path ← copy_from_str i addr path0;
  open_mode ← arg i 1;
  begin_op ;;
  if get_bit open_mode 9 then
    r ← on_fs i (Icache.create dv path File 0 0);
    match r with
    | Err _ => end_op ;; mret None
    | Ok ip => open_found i ip open_mode
    end
  else
    r ← on_fs i (Icache.namei dv path);
    match r with
    | None => end_op ;; mret None
    | Some ip =>
      on_fs i (Icache.ilock dv ip) ;;
      d ← on_fs i (idata_at (index ip));
      on_fs i (Icache.iunlock ip) ;;
      if bool_decide (itype (dinode d) = Directory) && negb (open_mode =? RDONLY)
      then end_op ;; iput i ip ;; mret None
      else open_found i ip open_mode
    end.

(** ** Directories and links *)
Definition sys_mknod (i : nat) : K (option Z) :=
  maj ← arg i 1;
  min ← arg i 2;
  begin_op ;;
  addr ← arg i 0;
  path ← copy_from_str i addr path0;
  r ← on_fs i (Icache.create dv path Fs.Device (to_signed 16 (wrap 16 maj)) (to_signed 16 (wrap 16 min)));
  match r with
  | Ok ip => end_op ;; iput i ip ;; mret (Some 0)
  | Err _ => end_op ;; mret None
  end.
Definition sys_mkdir (i : nat) : K (option Z) :=
  begin_op ;;
  addr ← arg i 0;
  path ← copy_from_str i addr path0;
  r ← on_fs i (Icache.create dv path Directory 0 0);
  match r with
  | Ok ip => iput i ip ;; end_op ;; mret (Some 0)
  | Err _ => end_op ;; mret None
  end.
Definition sys_chdir (i : nat) : K (option Z) :=
  begin_op ;;
  addr ← arg i 0;
  path ← copy_from_str i addr path0;
  r ← on_fs i (Icache.namei dv path);
  match r with
  | None => end_op ;; mret None
  | Some ip =>
    on_fs i (Icache.ilock dv ip) ;;
    d ← on_fs i (idata_at (index ip));
    on_fs i (Icache.iunlock ip) ;;
    if bool_decide (itype (dinode d) = Directory) then
      pd ← data_at i;
      put_data i (ProcData.set_files pd (open_files pd) (Some (inode_ref ip))) ;;
      when_some (cwd pd ≫= ref_inode) (λ old, iput i old) ;;
      end_op ;;
      mret (Some 0)
    else iput i ip ;; end_op ;; mret None
  end.

(** [nlink += 1] and [nlink -= 1] on an [i16]. *)
Definition add_nlink (i : nat) (ip : Inode) (n : Z) : K unit :=
  d ← on_fs i (idata_at (index ip));
  let n' := nlink (dinode d) + n in
  if (n' <? - 2 ^ 15) || (2 ^ 15 <=? n') then panic "attempt to add with overflow" else
  on_fs i (put_dinode (index ip) (d_set_nlink (dinode d) n')).
(** [name == "."] or [name == ".."] *)
Definition is_dots (name : list Z) : bool :=
  (nth 0 name 0 =? 46) && ((nth 1 name 0 =? 0) || (nth 1 name 0 =? 46) && (nth 2 name 0 =? 0)).
Definition sys_unlink (i : nat) : K (option Z) :=
  addr ← arg i 0;
  path ← copy_from_str i addr path0;
  begin_op ;;
  r ← on_fs i (Icache.namei_parent dv path no_name);
  match fst r with
  | None => mret None
  | Some dp =>
    let name := snd r in
    on_fs i (Icache.ilock dv dp) ;;
    if is_dots name then on_fs i (Icache.iunlock dp) ;; end_op ;; iput i dp ;; mret None else
    found ← on_fs i (Icache.dir_lookup dv (index dp) name);
    match found with
    | None => on_fs i (Icache.iunlock dp) ;; end_op ;; iput i dp ;; mret None
    | Some ip =>
      on_fs i (Icache.ilock dv ip) ;;
      d ← on_fs i (idata_at (index ip));
      let dir := bool_decide (itype (dinode d) = Directory) in
      ok ← (if dir then on_fs i (Icache.is_dir_empty dv (index ip)) else mret true);
      if negb ok then
        on_fs i (Icache.iunlock dp) ;;
        on_fs i (Icache.iunlock ip) ;;
        end_op ;;
        iput i ip ;; iput i dp ;; mret None
      else
      (if dir then add_nlink i dp (-1) ;; on_fs i (update dv (index dp)) else mret tt) ;;
      on_fs i (Icache.iunlock dp) ;;
      add_nlink i ip (-1) ;;
      on_fs i (update dv (index ip)) ;;
      on_fs i (Icache.iunlock ip) ;;
      end_op ;;
      iput i ip ;; iput i dp ;; mret (Some 0)
    end
  end.
Definition sys_link (i : nat) : K (option Z) :=
  old_addr ← arg i 0;
  new_addr ← arg i 1;
  old_path ← copy_from_str i old_addr path0;
  new_path ← copy_from_addr i new_addr MAXPATH;
  begin_op ;;
  r ← on_fs i (Icache.namei dv old_path);
  match r with
  | None => end_op ;; mret None
  | Some ip =>
    on_fs i (Icache.ilock dv ip) ;;
    d ← on_fs i (idata_at (index ip));
    if bool_decide (itype (dinode d) = Directory)
    then on_fs i (Icache.iunlock ip) ;; end_op ;; iput i ip ;; mret None else
    add_nlink i ip 1 ;;
    r ← on_fs i (Icache.namei_parent dv new_path no_name);
    match fst r with
    | None =>
      add_nlink i ip (-1) ;; on_fs i (Icache.iunlock ip) ;; end_op ;; iput i ip ;; mret None
    | Some dp =>
      on_fs i (Icache.ilock dv dp) ;;
      pd ← on_fs i (idata_at (index dp));
      linked ← (if negb (bool_decide (itype (dinode pd) = Directory)) then mret true else
        r' ← on_fs i (Icache.dir_link dv (index dp) (snd r) (i_inum ip));
        mret (match r' with Ok _ => true | Err _ => false end));
      if (linked : bool) then
        on_fs i (Icache.iunlock dp) ;;
        add_nlink i ip (-1) ;;
        on_fs i (Icache.iunlock ip) ;;
        end_op ;;
        iput i dp ;; iput i ip ;; mret None
      else
        on_fs i (update dv (index ip)) ;;
        on_fs i (Icache.iunlock ip) ;;
        end_op ;;
        on_fs i (Icache.iunlock dp) ;;
        iput i dp ;; iput i ip ;; mret (Some 0)
    end
  end.
End sysfile.
