(* ===== verification/FileFacts.v ===== *)
(** * Open files: what stays the same

    The system calls change descriptors and reference counts through a few
    operations; everything else they run, the file system, copies to and from
    user memory, reads and writes of pipes, leaves them alone. *)
From S2P Require Import Layout.
From S2P Require Import Pte.
From S2P Require Import Kalloc.
From S2P Require Import PageTable.
From S2P Require Import Bcache.
From S2P Require Import Log.
From S2P Require Import Fs.
From S2P Require Import Icache.
From S2P Require Import Pipe.
From S2P Require Import Console.
From S2P Require Import Prelude.
From S2P Require Import Spin.
From S2P Require Import Proc.
From S2P Require Import Pres.
From S2P Require Import File.
From S2P Require Import SysFile.

(** ** User memory

    Reading changes nothing; writing does not touch the page counts. *)
Definition count_same (m m' : mem) : Prop := count m' = count m.
#[export] Instance count_same_pre : PreOrder count_same.
Proof. split; [done|]. intros a b c. unfold count_same. congruence. Qed.
Definition mem_same : relation mem := λ m m', m' = m.
#[export] Instance mem_same_pre : PreOrder mem_same.
Proof. split; [done|]. intros a b c. unfold mem_same. congruence. Qed.
Lemma mem_count_same {A} (m : M mem A) : pres mem_same m → pres count_same m.
Proof. apply pres_weaken. by intros s s' ->. Qed.

Lemma read_word_same a : pres mem_same (read_word a).
Proof. intros m w m'. unfold read_word. repeat case_match; by intros [= _ <-]. Qed.
Lemma read_page_same a : pres mem_same (read_page a).
Proof. intros m w m'. unfold read_page. repeat case_match; by intros [= _ <-]. Qed.
#[export] Hint Resolve read_word_same read_page_same : pres.
Lemma translate_same pgt va : pres mem_same (PageTable.translate pgt va false).
Proof.
  unfold PageTable.translate. case_match; [pres|]. generalize [2; 1]. intros ls. revert pgt.
  induction ls as [|l ls IH]; intros pgt; cbn [PageTable.translate_loop negb]; [pres|].
  apply pres_bind; [apply _|pres|]. intros e. case_match; [|pres]. case_match; [pres|apply IH].
Qed.
#[export] Hint Resolve translate_same : pres.
Lemma pgt_translate_same pgt va : pres mem_same (PageTable.pgt_translate pgt va).
Proof. unfold PageTable.pgt_translate. pres. Qed.
#[export] Hint Resolve pgt_translate_same : pres.
Lemma load_bytes_same p off n : pres mem_same (PageTable.load_bytes p off n).
Proof. unfold PageTable.load_bytes. pres. Qed.
Lemma store_bytes_count p off bs : pres count_same (PageTable.store_bytes p off bs).
Proof.
  unfold PageTable.store_bytes. apply pres_bind; [apply _|apply mem_count_same; pres|]. intros ws m u m'.
  unfold write_page. repeat case_match; by intros [= _ <-].
Qed.
#[export] Hint Resolve load_bytes_same store_bytes_count : pres.
Lemma copy_in_same pgt n src : pres mem_same (PageTable.copy_in pgt n src).
Proof.
  unfold PageTable.copy_in. pres. generalize (S (Z.to_nat n)). intros fuel.
  match goal with |- pres _ (PageTable.copy_in_loop _ _ ?v ?a ?o ?c _) =>
    generalize v, a, o, c, n end.
  induction fuel as [|fuel IH]; intros; cbn [PageTable.copy_in_loop]; pres.
  all: unfold Addr.add_page; pres. all: apply IH.
Qed.
Lemma copy_in_str_same pgt dst src : pres mem_same (PageTable.copy_in_str pgt dst src).
Proof.
  unfold PageTable.copy_in_str. pres. generalize (S (length dst)). intros fuel.
  match goal with |- pres _ (PageTable.copy_in_str_loop _ _ ?v ?a ?o ?c _) =>
    generalize v, a, o, c, dst end.
  induction fuel as [|fuel IH]; intros; cbn [PageTable.copy_in_str_loop]; pres.
  all: unfold Addr.add_page; pres. all: apply IH.
Qed.
Lemma copy_out_count pgt dst src : pres count_same (PageTable.copy_out pgt dst src).
Proof.
  unfold PageTable.copy_out. apply pres_bind; [apply _|apply mem_count_same; pres|]. intros r. pres.
  generalize (S (length src)). intros fuel.
  match goal with |- pres _ (PageTable.copy_out_loop _ _ ?v ?a ?o ?c _) =>
    generalize v, a, o, c, src end.
  induction fuel as [|fuel IH]; intros; cbn [PageTable.copy_out_loop]; pres.
  all: unfold Addr.add_page; pres. all: try apply IH. all: apply mem_count_same; pres.
Qed.
#[export] Hint Resolve copy_in_same copy_in_str_same copy_out_count : pres.

(** ** The file system *)
Definition fs_mem {S} (R : relation mem) : relation (fsst S) := λ s s', R (umem s) (umem s').
#[export] Instance fs_mem_pre {S} (R : relation mem) : PreOrder R → PreOrder (fs_mem (S := S) R).
Proof. intros HR. split; [intros s|intros a b c]; unfold fs_mem; [reflexivity|apply transitivity]. Qed.

Section fs.
Context {D S : Type} `{!BlockDev D} (dv : Z) `{!BufferCache D S dv} `{!BitField}.
Abbreviation fkeep := (pres (fs_mem (S := S) mem_same)).
Lemma on_log_keep {A} (m : M (logst S) A) : fkeep (Fs.on_log m).
Proof. apply (pres_zoom (λ _ _, True)); [done|]. by intros t s' _. Qed.
Lemma put_imeta_keep i x : fkeep (put_imeta i x).
Proof. by apply pres_modify. Qed.
Lemma put_idata_keep i x : fkeep (put_idata i x).
Proof. by apply pres_modify. Qed.
Hint Resolve on_log_keep put_imeta_keep put_idata_keep : pres.
Lemma idata_at_keep i : fkeep (idata_at i).
Proof. unfold idata_at. pres. Qed.
Lemma imeta_at_keep i : fkeep (imeta_at i).
Proof. unfold imeta_at. pres. Qed.
Hint Resolve idata_at_keep imeta_at_keep : pres.
Lemma put_dinode_keep i x : fkeep (put_dinode i x).
Proof. unfold put_dinode. pres. Qed.
Lemma bread_keep dev b : fkeep (bread dv dev b).
Proof. unfold bread. pres. Qed.
Lemma bdata_keep b : fkeep (bdata dv b).
Proof. unfold bdata. pres. Qed.
Lemma bset_keep b x : fkeep (bset dv b x).
Proof. unfold bset. pres. Qed.
Lemma bdrop_keep b : fkeep (bdrop dv b).
Proof. unfold bdrop. pres. Qed.
Lemma log_write_keep b : fkeep (log_write dv b).
Proof. unfold log_write. pres. Qed.
Hint Resolve put_dinode_keep bread_keep bdata_keep bset_keep bdrop_keep log_write_keep : pres.
Lemma bitmap_free_keep dev b : fkeep (bitmap_free dv dev b).
Proof. unfold bitmap_free, read_bmp. pres. Qed.
Lemma bitmap_alloc_keep dev : fkeep (bitmap_alloc dv dev).
Proof.
  unfold bitmap_alloc, sb_total. pres. match goal with |- pres _ (bitmap_alloc_loop _ _ ?l) =>
    induction l as [|b bs IH] end; cbn [bitmap_alloc_loop]; unfold locate_bmp, sb_total; pres.
Qed.
Lemma find_inode_keep dev inum : fkeep (find_inode dv dev inum).
Proof. unfold find_inode, locate_inode. pres. Qed.
Lemma set_inode_keep b off d : fkeep (set_inode dv b off d).
Proof. unfold set_inode. pres. Qed.
Hint Resolve bitmap_free_keep bitmap_alloc_keep find_inode_keep set_inode_keep : pres.
Lemma dinode_alloc_keep dev t : fkeep (dinode_alloc dv dev t).
Proof.
  unfold dinode_alloc, sb_total. pres. match goal with |- pres _ (dinode_alloc_loop _ _ _ ?l) =>
    induction l as [|b bs IH] end; cbn [dinode_alloc_loop]; pres.
Qed.
Lemma update_keep i : fkeep (update dv i).
Proof. unfold update. pres. Qed.
Lemma map_keep i n : fkeep (Fs.map dv i n).
Proof. unfold Fs.map. pres. Qed.
Lemma truncate_direct_keep i dev n : fkeep (truncate_direct dv i dev n).
Proof. unfold truncate_direct. pres. Qed.
Hint Resolve dinode_alloc_keep update_keep map_keep truncate_direct_keep : pres.
Lemma truncate_keep i dev : fkeep (truncate dv i dev).
Proof. unfold truncate. pres. Qed.
Lemma on_umem_keep {A} (R : relation mem) (m : M mem A) :
  pres R m → pres (fs_mem (S := S) R) (on_umem m).
Proof. intros Hm. apply (pres_zoom R); [done|]. by intros t s'. Qed.
Lemma copy_to_kernel_keep pl ks src n : fkeep (copy_to_kernel pl ks src n).
Proof. unfold copy_to_kernel. pres. apply on_umem_keep. pres. Qed.
Hint Resolve truncate_keep copy_to_kernel_keep : pres.
Lemma copy_from_kernel_count pl dst src : pres (fs_mem count_same) (copy_from_kernel (S := S) pl dst src).
Proof. unfold copy_from_kernel. pres. apply on_umem_keep. pres. Qed.
(** Into the kernel nothing of user memory changes, into user memory the
    counts do not. *)
Lemma copy_from_kernel_keep dst src : fkeep (copy_from_kernel Kernel dst src).
Proof. unfold copy_from_kernel. pres. Qed.
Hint Resolve copy_from_kernel_keep : pres.
Lemma iread_keep i dst off n : fkeep (iread dv i Kernel dst off n).
Proof.
  assert (∀ fuel dst off c, fkeep (Fs.read_loop dv fuel i Kernel dst off c n)) as Hl.
  { induction fuel as [|fuel IH]; intros; cbn [Fs.read_loop]; pres. }
  unfold iread. pres.
Qed.
Lemma iwrite_keep i pl ks src off n : fkeep (iwrite dv i pl ks src off n).
Proof.
  assert (∀ fuel src off c, fkeep (Fs.write_loop dv fuel i pl ks src off c n)) as Hl.
  { induction fuel as [|fuel IH]; intros; cbn [Fs.write_loop]; pres. }
  unfold iwrite. pres.
Qed.
Lemma fs_mem_count {A} (m : M (fsst S) A) : fkeep m → pres (fs_mem count_same) m.
Proof. apply pres_weaken. unfold fs_mem, count_same. by intros s s' ->. Qed.
Lemma iread_count i pl dst off n : pres (fs_mem count_same) (iread dv i pl dst off n).
Proof.
  destruct pl; [|apply fs_mem_count, iread_keep].
  assert (∀ fuel dst off c, pres (fs_mem count_same) (Fs.read_loop dv fuel i User dst off c n)) as Hl.
  { induction fuel as [|fuel IH]; intros; cbn [Fs.read_loop]; pres; try (apply fs_mem_count; pres; fail).
    apply copy_from_kernel_count. }
  unfold iread. pres. apply fs_mem_count. pres.
Qed.
Hint Resolve iread_keep iwrite_keep : pres.

Lemma skip_path_keep path cur name : fkeep (skip_path path cur name).
Proof.
  assert (∀ p fuel c, fkeep (skip_while fuel p path c)) as Hw.
  { intros p. induction fuel as [|fuel IH]; intros c; cbn [skip_while]; unfold path_at; pres. }
  unfold skip_path, path_at. pres.
Qed.
Lemma slot_lock_keep i : fkeep (slot_lock i).
Proof. unfold slot_lock. pres. Qed.
Lemma slot_unlock_keep i : fkeep (slot_unlock i).
Proof. unfold slot_unlock. pres. Qed.
Hint Resolve skip_path_keep slot_lock_keep slot_unlock_keep : pres.
Lemma ilock_keep ip : fkeep (Icache.ilock dv ip).
Proof. unfold Icache.ilock. pres. Qed.
Lemma iunlock_keep ip : fkeep (Icache.iunlock ip).
Proof. unfold Icache.iunlock. pres. Qed.
Lemma dup_keep ip : fkeep (Icache.dup ip).
Proof. unfold Icache.dup. pres. Qed.
Lemma unref_keep i : fkeep (Icache.unref i).
Proof. unfold Icache.unref. pres. Qed.
Hint Resolve ilock_keep iunlock_keep dup_keep unref_keep : pres.
Lemma put_keep ip : fkeep (Icache.put dv ip).
Proof. unfold Icache.put. pres. Qed.
Lemma get_keep dev inum : fkeep (Icache.get dev inum).
Proof. unfold Icache.get. pres. Qed.
Hint Resolve put_keep get_keep : pres.
Lemma dirent_at_keep i off msg : fkeep (dirent_at dv i off msg).
Proof. unfold dirent_at. pres. Qed.
Hint Resolve dirent_at_keep : pres.
Lemma dir_lookup_keep i name : fkeep (dir_lookup dv i name).
Proof.
  assert (∀ l, fkeep (dir_lookup_loop dv i name l)) as Hl.
  { induction l as [|o l IH]; cbn [dir_lookup_loop]; pres. }
  unfold dir_lookup. pres.
Qed.
Lemma dir_link_keep i name inum : fkeep (dir_link dv i name inum).
Proof.
  assert (∀ l e, fkeep (dir_link_loop dv i e l)) as Hl.
  { induction l as [|o l IH]; intros; cbn [dir_link_loop]; pres. }
  unfold dir_link. pres.
Qed.
Lemma is_dir_empty_keep i : fkeep (is_dir_empty dv i).
Proof.
  assert (∀ l, fkeep (is_dir_empty_loop dv i l)) as Hl.
  { induction l as [|o l IH]; cbn [is_dir_empty_loop]; pres. }
  unfold is_dir_empty. pres.
Qed.
Hint Resolve dir_lookup_keep dir_link_keep is_dir_empty_keep : pres.
Lemma namex_keep path name b : fkeep (namex dv path name b).
Proof.
  assert (∀ fuel ip c name, fkeep (namex_loop dv fuel path b ip c name)) as Hl.
  { induction fuel as [|fuel IH]; intros; cbn [namex_loop]; unfold path_at; pres. }
  unfold namex, path_at. pres.
Qed.
Hint Resolve namex_keep : pres.
Lemma create_dots_keep ip : fkeep (create_dots dv ip).
Proof. unfold create_dots. pres. Qed.
Hint Resolve create_dots_keep : pres.
Lemma create_keep path t maj min : fkeep (create dv path t maj min).
Proof. unfold create, namei_parent. pres. Qed.
Lemma namei_keep path : fkeep (namei dv path).
Proof. unfold namei. pres. Qed.
Lemma namei_parent_keep path name : fkeep (namei_parent dv path name).
Proof. unfold namei_parent. pres. Qed.
Lemma stat_keep i : fkeep (stat i).
Proof. unfold stat. pres. Qed.
End fs.
#[export] Hint Resolve on_log_keep idata_at_keep put_dinode_keep update_keep truncate_keep
  iwrite_keep iread_count ilock_keep iunlock_keep dup_keep put_keep dir_lookup_keep dir_link_keep
  is_dir_empty_keep create_keep namei_keep namei_parent_keep stat_keep copy_from_kernel_count : pres.
