(* ===== verification/FileQuiet.v ===== *)
(** * Open files: quiet operations

    The books of the file layer: the descriptors of all processes, the open
    files with their counts, and the open ends of the pipes. Most operations,
    the reads and writes among them, leave the books alone. *)
From S2P Require Import Layout.
From S2P Require Import Pte.
From S2P Require Import Kalloc.
From S2P Require Import PageTable.
From S2P Require Import Bcache.
From S2P Require Import Log.
From S2P Require Import Fs.
From S2P Require Import Icache.
From S2P Require Import Pipe.
From S2P Require Import Console.
From S2P Require Import Prelude.
From S2P Require Import Spin.
From S2P Require Import Proc.
From S2P Require Import Pres.
From S2P Require Import File.
From S2P Require Import SysFile.
From S2P Require Import FileFacts.

(** ** The books *)
Section books.
Context {S : Type}.
Implicit Types k : kst (filest S).
Definition shape (f : VFile) : VFile := VFile.set_offset f 0.
Definition flags (p : PipeInner) : bool * bool := (readopen p, writeopen p).
Definition tables k : list (list (option Z)) := (λ p, open_files (data p)) <$> procs k.
(** The descriptors of all processes. *)
Definition refs k : list Z := tables k ≫= omap id.
Definition files k : gmap Z (Z * VFile) := prod_map id shape <$> f_arcs (kfs k).
Definition pipes k : gmap Z (bool * bool) := flags <$> f_pipes (kfs k).

(** What quiet operations leave alone; with [still] memory too. *)
Record same k k' : Prop := {
  sm_tables : tables k' = tables k; sm_files : files k' = files k; sm_pipes : pipes k' = pipes k;
  sm_count : count (kmem k') = count (kmem k)
}.
Definition half_open k : Prop := ∀ pg e, pipes k !! pg = Some e → fst e || snd e = true.
Definition quiet k k' : Prop := half_open k → same k k'.
Definition still k k' : Prop := same k k' ∧ kmem k' = kmem k.
#[export] Instance same_pre : PreOrder same.
Proof.
  split; [done|]. intros a b c [] []. split; congruence.
Qed.
#[export] Instance quiet_pre : PreOrder quiet.
Proof.
  split; [intros k _; reflexivity|]. intros a b c Hab Hbc Ha. specialize (Hab Ha).
  transitivity b; [done|]. apply Hbc. unfold half_open. by rewrite (sm_pipes _ _ Hab).
Qed.
#[export] Instance still_pre : PreOrder still.
Proof.
  split; [intros k; by split|]. intros a b c [? ?] [? ?]. split; [by transitivity b|congruence].
Qed.
Lemma still_quiet {A} (m : M (kst (filest S)) A) : pres still m → pres quiet m.
Proof. apply pres_weaken. by intros k k' [? _] _. Qed.
End books.
#[export] Hint Extern 4 (pres quiet _) => (apply still_quiet; solve [eauto 2 with pres nocore]) : pres.

(** ** Quiet operations *)
Section quiet.
Context {D S : Type} `{!BlockDev D} (dv : Z) `{!BufferCache D S dv} {BF : BitField}.
Context (pipe_chan : Z → Pipe.chan → Z) (con_chan uart_chan : Z) (panicked : bool) (lsr : nat → bool).
Abbreviation kst := (kst (filest S)).
Implicit Types k : kst.

Lemma on_fs_still {A} i (m : M (fsst S) A) : pres (fs_mem mem_same) m → pres still (File.on_fs i m).
Proof.
  intros Hm. apply (pres_zoom (fs_mem mem_same)); [done|]. intros k s Hs. unfold fs_mem, mem_same in Hs.
  simpl in Hs. split; [split|]; try done. simpl. by rewrite Hs.
Qed.
Lemma on_fs_quiet {A} i (m : M (fsst S) A) : pres (fs_mem count_same) m → pres quiet (File.on_fs i m).
Proof. intros Hm. apply (pres_zoom (fs_mem count_same)); [done|]. intros k s Hs _. by split. Qed.
Lemma on_log_still {A} (m : M (logst S) A) : pres still (File.on_log m).
Proof. apply on_fs_still, on_log_keep. Qed.
Lemma on_mem_still {A} (m : M mem A) : pres mem_same m → pres still (on_mem (F := filest S) m).
Proof.
  intros Hm. apply (pres_zoom mem_same); [done|]. intros k s ->. split; [split|]; done.
Qed.
Lemma on_mem_quiet {A} (m : M mem A) : pres count_same m → pres quiet (on_mem (F := filest S) m).
Proof. intros Hm. apply (pres_zoom count_same); [done|]. intros k s Hs _. by split. Qed.
Hint Resolve on_log_still : pres.

Lemma wake_all_still c : pres still (wake_all (S := S) c).
Proof.
  apply pres_modify. intros k. split; [split|]; try done. unfold tables. simpl.
  rewrite <- list_fmap_compose. apply list_fmap_ext. intros i p _. unfold compose, wake_proc.
  by destruct (_ && _).
Qed.
Lemma data_at_still i : pres still (data_at (F := filest S) i).
Proof. unfold data_at, proc_at. pres. Qed.
Hint Resolve wake_all_still data_at_still : pres.
Lemma arg_still i n : pres still (arg (F := filest S) i n).
Proof. unfold arg. pres. apply on_mem_still. pres. Qed.
Lemma user_pgt_still i : pres still (user_pgt (S := S) i).
Proof. unfold user_pgt. pres. Qed.
Lemma arc_get_still a : pres still (arc_get (S := S) a).
Proof. unfold arc_get. pres. Qed.
Lemma device_at_still f : pres still (device_at (S := S) f).
Proof. unfold device_at. pres. Qed.
Hint Resolve arg_still user_pgt_still arc_get_still device_at_still : pres.
Lemma copy_from_str_still i a b : pres still (copy_from_str (S := S) i a b).
Proof. unfold copy_from_str. pres. apply on_mem_still. pres. Qed.
Lemma copy_from_addr_still i a n : pres still (copy_from_addr (S := S) i a n).
Proof. unfold copy_from_addr. pres. apply on_mem_still. pres. Qed.
Lemma file_at_still i fd : pres still (file_at (S := S) i fd).
Proof. unfold file_at. pres. Qed.
Hint Resolve copy_from_str_still copy_from_addr_still file_at_still : pres.
(** Offsets are not part of the books. *)
Lemma set_offset_still a o : pres still (File.set_offset (S := S) a o).
Proof.
  intros k u k'. unfold File.set_offset. rewrite bind_get.
  destruct (f_arcs (kfs k) !! a) as [[n f]|] eqn:E; [|done]. intros [= _ <-].
  split; [split|]; try done. unfold files. simpl. rewrite fmap_insert. apply insert_id.
  by rewrite lookup_fmap, E.
Qed.
(** The working directory is not a descriptor. *)
Lemma data_at_Done i k d k1 :
  data_at i k = Done (d, k1) → ∃ p, procs k !! i = Some p ∧ d = data p ∧ k1 = k.
Proof.
  unfold data_at, proc_at. intros (p & k2 & H & [= <- <-])%bind_Done. rewrite bind_get in H.
  destruct (procs k !! i) as [q|]; [|done]. injection H as <- <-. eauto.
Qed.
Lemma put_data_Done i d k u k1 :
  put_data i d k = Done (u, k1) →
  ∃ p, procs k !! i = Some p ∧ k1 = set_procs (<[i := mkProcess (meta p) d]> (procs k)) k.
Proof.
  unfold put_data, proc_at. intros (p & k2 & H & [= _ <-])%bind_Done. rewrite bind_get in H.
  destruct (procs k !! i) as [q|]; [|done]. injection H as <- <-. eauto.
Qed.
Lemma set_cwd_still {A} i c (K : ProcData → M kst A) :
  (∀ d, pres still (K d)) →
  pres still (d ← data_at i; put_data i (ProcData.set_files d (open_files d) c) ;; K d).
Proof.
  intros HK k u k' H. apply bind_Done in H as (d & k1 & (p & Ep & -> & ->)%data_at_Done & H).
  apply bind_Done in H as (u1 & k1 & (p' & Ep' & ->)%put_data_Done & H). etransitivity; [|by eapply HK].
  assert (p' = p) as -> by congruence. split; [split|]; try done. unfold tables. simpl.
  rewrite list_fmap_insert. apply list_insert_id. by rewrite list_lookup_fmap, Ep.
Qed.

(** Console and pipes. *)
Definition tty_mem (t t' : tty) : Prop := count_same (tmem t) (tmem t').
#[local] Instance tty_mem_pre : PreOrder tty_mem.
Proof. split; [done|]. intros a b c. unfold tty_mem. apply transitivity. Qed.
Lemma on_tty_quiet {A} i (m : M tty A) :
  pres tty_mem m → pres quiet (on_tty (S := S) con_chan uart_chan i m).
Proof.
  intros Hm. unfold on_tty. pres.
  apply (pres_zoom tty_mem); [done|]. intros k t Ht _. by split.
Qed.
Lemma on_tmem_keep {A} (m : M mem A) : pres count_same m → pres tty_mem (on_tmem m).
Proof. intros Hm. apply (pres_zoom count_same); [done|]. by intros t s. Qed.
Lemma put_con_keep c : pres tty_mem (put_con c).
Proof. by apply pres_modify. Qed.
Lemma put_uart_keep u : pres tty_mem (put_uart u).
Proof. by apply pres_modify. Qed.
Lemma write_thr_keep v c : pres tty_mem (write_thr v c).
Proof. by apply pres_modify. Qed.
Lemma wake_writers_keep : pres tty_mem wake_writers.
Proof. by apply pres_modify. Qed.
Lemma idle_keep : pres tty_mem (idle lsr).
Proof. by intros t b t' [= _ <-]. Qed.
Hint Resolve put_con_keep put_uart_keep write_thr_keep wake_writers_keep idle_keep : pres.
Lemma copy_byte_keep pl dst c : pres tty_mem (copy_byte pl dst c).
Proof. unfold copy_byte. pres. apply on_tmem_keep. pres. Qed.
Lemma fetch_byte_keep pl ks src : pres tty_mem (fetch_byte pl ks src).
Proof. unfold fetch_byte. pres. apply on_tmem_keep, mem_count_same. pres. Qed.
Lemma transmit_keep : pres tty_mem (transmit lsr).
Proof.
  unfold transmit. generalize (Datatypes.S (Z.to_nat UART_BUF_SIZE)).
  induction n as [|n IH]; cbn [transmit_loop]; pres.
Qed.
Hint Resolve copy_byte_keep fetch_byte_keep transmit_keep : pres.
Lemma uart_putc_keep c : pres tty_mem (uart_putc panicked lsr c).
Proof. unfold uart_putc. pres. Qed.
Hint Resolve uart_putc_keep : pres.
Lemma console_read_keep pl dst n : pres tty_mem (console_read pl dst n).
Proof.
  assert (∀ fuel dst left acc, pres tty_mem (Console.read_loop fuel pl dst left n acc)) as Hl.
  { induction fuel as [|fuel IH]; intros; cbn [Console.read_loop]; pres. }
  apply Hl.
Qed.
Lemma console_write_keep pl ks src n : pres tty_mem (console_write panicked lsr pl ks src n).
Proof.
  assert (∀ fuel src i, pres tty_mem (Console.write_loop panicked lsr fuel pl ks src i n)) as Hl.
  { induction fuel as [|fuel IH]; intros; cbn [Console.write_loop]; pres. }
  apply Hl.
Qed.

Definition pst_same (s s' : pst) : Prop :=
  page s' = page s ∧ flags (inner s') = flags (inner s) ∧ count_same (pmem s) (pmem s').
#[local] Instance pst_same_pre : PreOrder pst_same.
Proof.
  split; [done|]. intros a b c (? & ? & ?) (? & ? & ?). unfold count_same in *.
  split; [congruence|]. split; congruence.
Qed.
(** What is stored back of a pipe. *)
Lemma store_pipe_eff s k u k' :
  store_pipe pipe_chan s k = Done (u, k') → let e := flags (inner s) in
  tables k' = tables k ∧ files k' = files k ∧ kmem k' = pmem s ∧
  pipes k' = if fst e || snd e then <[page s := e]> (pipes k) else delete (page s) (pipes k).
Proof.
  unfold store_pipe. rewrite bind_get, bind_modify. unfold put_pipes. rewrite bind_modify.
  intros H. assert (∀ ws, pres still (for_each ws (λ c, wake_all (S := S) (pipe_chan (page s) c)))) as Hw.
  { intros ws. pres. }
  apply Hw in H as [[Ht Hf Hp _] Hm]. cbv zeta. rewrite Ht, Hf, Hm, Hp. split_and!; try done.
  unfold pipes. simpl. rewrite <- negb_orb. unfold flags at 2 3 4. simpl.
  destruct (readopen (inner s) || writeopen (inner s)); simpl; [by rewrite fmap_insert|by rewrite fmap_delete].
Qed.
Lemma on_pipe_quiet {A} i pg (m : M pst A) : pres pst_same m → pres quiet (on_pipe (S := S) pipe_chan i pg m).
Proof.
  intros Hm k a k'. unfold on_pipe. rewrite bind_get.
  destruct (f_pipes (kfs k) !! pg) as [p|] eqn:Ep; [|done].
  destruct (m _) as [[b s]| | |] eqn:Em; [|done..]. intros H Ho.
  apply bind_Done in H as (u & k1 & H & [= _ <-]). apply store_pipe_eff in H as (Ht & Hf & Hk & Hp).
  apply Hm in Em as (Hpg & Hfl & Hc). simpl in Hpg, Hfl, Hc. rewrite Hpg, Hfl in Hp.
  assert (pipes k !! pg = Some (flags p)) as Hlk by (unfold pipes; by rewrite lookup_fmap, Ep).
  split; [done|done| |by rewrite Hk]. rewrite Hp, (Ho _ _ Hlk). by apply insert_id.
Qed.
Lemma pon_mem_keep {A} (m : M mem A) : pres count_same m → pres pst_same (Pipe.on_mem m).
Proof. intros Hm. apply (pres_zoom count_same); [done|]. by intros t s. Qed.
Lemma pwake_keep c : pres pst_same (Pipe.wake_up c).
Proof. by apply pres_modify. Qed.
Hint Resolve pwake_keep : pres.
Lemma full_keep p : pres pst_same (Pipe.full p).
Proof. unfold Pipe.full. pres. Qed.
Lemma load_keep p : pres pst_same (Pipe.load p).
Proof. unfold Pipe.load. pres. Qed.
Hint Resolve full_keep load_keep : pres.
(** Storing a byte and advancing a counter keep the flags. *)
Lemma store_keep {A} c (K : M pst A) :
  pres pst_same K →
  pres pst_same (s ← get; Pipe.put_inner (Pipe.store c (inner s)) ;; K).
Proof. 
  intros HK s a s'. rewrite bind_get. unfold Pipe.put_inner. rewrite bind_modify. intros H.
  etransitivity; [|by eapply HK]. done.
Qed.
Lemma bump_keep {A} (b : PipeInner → M pst PipeInner) (K : M pst A) :
  (∀ p s p' s', b p s = Done (p', s') → s' = s ∧ flags p' = flags p) → pres pst_same K →
  pres pst_same (s ← get; p ← b (inner s); Pipe.put_inner p ;; K).
Proof.
  intros Hb HK s a s'. rewrite bind_get. intros H. apply bind_Done in H as (p & s1 & H1 & H).
  apply Hb in H1 as [-> Hp]. unfold Pipe.put_inner in H. rewrite bind_modify in H.
  etransitivity; [|by eapply HK]. done.
Qed.
Lemma bump_write_flags p (s : pst) p' s' : Pipe.bump_write p s = Done (p', s') → s' = s ∧ flags p' = flags p.
Proof. unfold Pipe.bump_write, uadd. destruct (_ <? _); [|done]. by intros [= <- <-]. Qed.
Lemma bump_read_flags p (s : pst) p' s' : Pipe.bump_read p s = Done (p', s') → s' = s ∧ flags p' = flags p.
Proof. unfold Pipe.bump_read, uadd. destruct (_ <? _); [|done]. by intros [= <- <-]. Qed.
Lemma pipe_read_keep pgt addr n : pres pst_same (Pipe.read pgt addr n).
Proof.
  assert (∀ fuel i, pres pst_same (Pipe.read_loop fuel pgt addr n i)) as Hl.
  { induction fuel as [|fuel IH]; intros i; cbn [Pipe.read_loop]; [pres|].
    case_match; [pres|]. apply pres_get_bind. intros s. case_match; [pres|].
    apply pres_bind; [apply _|pres|]. intros c. apply pres_bind; [apply _|pres|]. intros a.
    apply pres_bind; [apply _|apply pon_mem_keep; pres|]. intros [r|e]; [|pres].
    apply bump_keep; [apply bump_read_flags|done]. }
  unfold Pipe.read. pres.
Qed.
Lemma pipe_write_keep pgt addr n : pres pst_same (Pipe.write pgt addr n).
Proof.
  assert (∀ fuel i, pres pst_same (Pipe.write_loop fuel pgt addr n i)) as Hl.
  { induction fuel as [|fuel IH]; intros i; cbn [Pipe.write_loop]; [pres|].
    case_match; [pres|]. apply pres_get_bind. intros s. case_match; [pres|].
    apply pres_bind; [apply _|pres|]. intros b. case_match; [pres|]. apply pres_bind; [apply _|pres|].
    intros a. apply pres_bind; [apply _|apply pon_mem_keep, mem_count_same; pres|]. intros bs.
    apply store_keep, bump_keep; [apply bump_write_flags|done]. }
  apply Hl.
Qed.

(** Reads, writes and status of open files. *)
Hint Resolve on_fs_still on_mem_still set_offset_still : pres.
Lemma read_inode_quiet i a f addr n : pres quiet (File.read_inode (S := S) dv i a f addr n).
Proof. unfold File.read_inode. pres. apply on_fs_quiet. pres. Qed.
Lemma vfile_read_quiet i a addr n :
  pres quiet (vfile_read (S := S) dv pipe_chan con_chan uart_chan i a addr n).
Proof.
  unfold vfile_read. pres.
  - apply on_pipe_quiet, pipe_read_keep.
  - apply read_inode_quiet.
  - apply on_tty_quiet, console_read_keep.
Qed.
Lemma write_inode_quiet fuel i a addr n c : pres quiet (write_inode (S := S) dv fuel i a addr n c).
Proof. revert c. induction fuel as [|fuel IH]; intros c; cbn [write_inode]; pres. Qed.
Lemma vfile_write_quiet i a addr n :
  pres quiet (vfile_write (S := S) dv pipe_chan con_chan uart_chan panicked lsr i a addr n).
Proof.
  unfold vfile_write. pres.
  - apply on_pipe_quiet, pipe_write_keep.
  - apply write_inode_quiet.
  - apply on_tty_quiet, console_write_keep.
Qed.
Lemma vfile_stat_quiet i a addr : pres quiet (vfile_stat (S := S) dv i a addr).
Proof. unfold vfile_stat. pres. apply on_mem_quiet. pres. Qed.
Hint Resolve vfile_read_quiet vfile_write_quiet vfile_stat_quiet : pres.

(** Calls that change no descriptor. *)
Lemma add_nlink_still i ip n : pres still (add_nlink (S := S) i ip n).
Proof. unfold add_nlink. pres. Qed.
Hint Resolve add_nlink_still : pres.
Lemma sys_read_quiet i : pres quiet (sys_read (S := S) dv pipe_chan con_chan uart_chan i).
Proof. unfold sys_read. pres. Qed.
Lemma sys_write_quiet i : pres quiet (sys_write (S := S) dv pipe_chan con_chan uart_chan panicked lsr i).
Proof. unfold sys_write. pres. Qed.
Lemma sys_fstat_quiet i : pres quiet (sys_fstat (S := S) dv i).
Proof. unfold sys_fstat. pres. Qed.
Lemma sys_mknod_quiet i : pres quiet (sys_mknod (S := S) dv i).
Proof. unfold sys_mknod. pres. Qed.
Lemma sys_mkdir_quiet i : pres quiet (sys_mkdir (S := S) dv i).
Proof. unfold sys_mkdir. pres. Qed.
Lemma sys_unlink_quiet i : pres quiet (sys_unlink (S := S) dv i).
Proof. unfold sys_unlink. pres. Qed.
Lemma sys_link_quiet i : pres quiet (sys_link (S := S) dv i).
Proof. unfold sys_link. pres. Qed.
Lemma sys_chdir_quiet i : pres quiet (sys_chdir (S := S) dv i).
Proof.
  apply still_quiet. unfold sys_chdir.
  do 4 (apply pres_bind; [apply _|solve [pres]|intros ?]). case_match; [|solve [pres]].
  do 3 (apply pres_bind; [apply _|solve [pres]|intros ?]). case_match; [|solve [pres]].
  apply set_cwd_still. intros d. apply pres_bind; [apply _| |intros; pres].
  unfold when_some. pres.
Qed.
End quiet.
