(* ===== verification/FileInv.v ===== *)
(** * Descriptors, reference counts and pipe ends

    The invariant of the file layer, on the references [R] to open files, the
    table [A] of open files with their counts, the open ends [P] of the pipes
    and the page counts of memory: an open file is counted once for every
    reference, a pipe end is open exactly while there is an open file for
    it. *)
From S2P Require Import Layout.
From S2P Require Import Kalloc.
From S2P Require Import Pipe.
From S2P Require Import Prelude.
From S2P Require Import File.

(** Occurrences. *)
Definition occ (a : Z) (R : list Z) : Z := Z.of_nat (length (filter (λ b, b = a) R)).
#[export] Instance occ_perm a : Proper ((≡ₚ) ==> eq) (occ a).
Proof. intros R R' H. unfold occ. by rewrite H. Qed.
Lemma occ_cons a b R : occ a (b :: R) = (if decide (b = a) then 1 else 0) + occ a R.
Proof. unfold occ. rewrite filter_cons. destruct (decide (b = a)); simpl; lia. Qed.
Lemma occ_elem a R : a ∈ R ↔ 0 < occ a R.
Proof.
  induction R as [|b R IH]; [split; [intros H; by apply not_elem_of_nil in H|by intros H]|].
  rewrite occ_cons, elem_of_cons, IH. pose proof (Nat2Z.is_nonneg (length (filter (λ c, c = a) R))).
  fold (occ a R) in *. case_decide; subst; [|naive_solver lia]. split; [lia|by left].
Qed.

(** An end of a pipe, [true] for the write end. *)
Abbreviation ends := (gmap Z (bool * bool)).
Definition is_open (w : bool) (e : bool * bool) : bool := if w then snd e else fst e.
Definition shut (w : bool) (e : bool * bool) : bool * bool := if w then (fst e, false) else (false, snd e).
(** [f] is end [w] of the pipe in page [pg]. *)
Definition is_end (f : VFile) (pg : Z) (w : bool) : Prop :=
  ftype f = FPipe ∧ vpipe f = Some pg ∧ writeable f = w.

Section inv.
Context (heap : Z).
Implicit Types (R : list Z) (A : gmap Z (Z * VFile)) (P : ends) (m : mem).

Record finv R A P m : Prop := {
  fi_count a : default 0 (fst <$> A !! a) = occ a R;
  fi_pos a n f : A !! a = Some (n, f) → 0 < n;
  fi_pipe a n f : A !! a = Some (n, f) → ftype f = FPipe →
    ∃ pg e, vpipe f = Some pg ∧ P !! pg = Some e ∧ is_open (writeable f) e = true;
  fi_once a b n f n' f' pg w : A !! a = Some (n, f) → A !! b = Some (n', f') →
    is_end f pg w → is_end f' pg w → a = b;
  fi_open pg e w : P !! pg = Some e → is_open w e = true →
    ∃ a n f, A !! a = Some (n, f) ∧ is_end f pg w;
  fi_some pg e : P !! pg = Some e → fst e || snd e = true;
  fi_apart a : is_Some (A !! a) → P !! a = None;
  fi_pages a : is_Some (A !! a) ∨ is_Some (P !! a) → is_page a ∧ heap ≤ a ∧ 0 < cnt m a
}.
#[export] Instance finv_perm : Proper ((≡ₚ) ==> eq ==> eq ==> eq ==> iff) finv.
Proof.
  assert (∀ R R' A P m, R ≡ₚ R' → finv R A P m → finv R' A P m) as H.
  { intros R R' A P m HR []. split; try done. intros a. by rewrite <- HR. }
  intros R R' HR A _ <- P _ <- m _ <-. split; apply H; by rewrite HR.
Qed.
Lemma finv_mem R A P m m' :
  (∀ a, is_Some (A !! a) ∨ is_Some (P !! a) → cnt m' a = cnt m a) → finv R A P m → finv R A P m'.
Proof.
  intros Hm []. split; try done. intros a Ha. rewrite (Hm a Ha). by apply fi_pages0.
Qed.
(** A reference refers to an open file. *)
Lemma finv_ref R A P m a : finv R A P m → a ∈ R → is_Some (A !! a).
Proof.
  intros I Ha%occ_elem. rewrite <- (fi_count _ _ _ _ I a) in Ha.
  destruct (A !! a); [by eexists|by simpl in Ha].
Qed.

(** The count of an open file changes with its references. *)
Lemma finv_recount R R' A P m a n n' f :
  A !! a = Some (n, f) → 0 < n' → n' = occ a R' → (∀ b, b ≠ a → occ b R' = occ b R) →
  finv R A P m → finv R' (<[a := (n', f)]> A) P m.
Proof.
  intros Ha Hn' Hocc Hother I.
  assert (∀ b n1 f1, <[a := (n', f)]> A !! b = Some (n1, f1) → ∃ n0, A !! b = Some (n0, f1)) as Hold.
  { intros b n1 f1 [[<- [= <- <-]]|[_ Hb]]%lookup_insert_Some; eauto. }
  assert (∀ b, is_Some (<[a := (n', f)]> A !! b) → is_Some (A !! b)) as Hdom.
  { intros b [[n1 f1] Hb]. apply Hold in Hb as (n0 & ?). by eexists. }
  destruct I. split.
  - intros b. destruct (decide (a = b)) as [->|Hne].
    + by rewrite lookup_insert_eq.
    + by rewrite lookup_insert_ne, Hother, <- fi_count0 by done.
  - intros b n1 f1 [[<- [= <- <-]]|[_ Hb]]%lookup_insert_Some; [done|by eapply fi_pos0].
  - intros b n1 f1 (n0 & Hb)%Hold. by eapply fi_pipe0.
  - intros b c n1 f1 n2 f2 pg w (? & Hb)%Hold (? & Hc)%Hold. by eapply fi_once0.
  - intros pg e w Hp Hw. destruct (fi_open0 pg e w Hp Hw) as (b & n1 & f1 & Hb & He).
    destruct (decide (a = b)) as [->|Hne].
    + exists b, n', f. rewrite lookup_insert_eq. split; [done|]. congruence.
    + exists b, n1, f1. by rewrite lookup_insert_ne.
  - done.
  - intros b Hb. apply fi_apart0. auto.
  - intros b [Hb|Hb]; apply fi_pages0; auto.
Qed.
Lemma finv_clone R A P m a n f :
  A !! a = Some (n, f) → finv R A P m → finv (a :: R) (<[a := (n + 1, f)]> A) P m.
Proof.
  intros Ha I. pose proof (fi_pos _ _ _ _ I _ _ _ Ha). pose proof (fi_count _ _ _ _ I a) as Hc.
  rewrite Ha in Hc. simpl in Hc. apply (finv_recount R _ _ _ _ _ n); [done|lia| | |done].
  - rewrite occ_cons, decide_True by done. lia.
  - intros b Hb. rewrite occ_cons, decide_False by done. lia.
Qed.
Lemma finv_drop R A P m a n f :
  A !! a = Some (n, f) → n ≠ 1 → finv (a :: R) A P m → finv R (<[a := (n - 1, f)]> A) P m.
Proof.
  intros Ha Hn I. pose proof (fi_pos _ _ _ _ I _ _ _ Ha). pose proof (fi_count _ _ _ _ I a) as Hc.
  rewrite Ha, occ_cons, decide_True in Hc by done. simpl in Hc.
  apply (finv_recount (a :: R) _ _ _ _ _ n); [done|lia|lia| |done].
  intros b Hb. rewrite occ_cons, decide_False by done. lia.
Qed.

(** A new open file that is no pipe end. *)
Lemma finv_new R A P m m' a f :
  A !! a = None → P !! a = None → is_page a → heap ≤ a → 0 < cnt m' a →
  (∀ b, b ≠ a → is_Some (A !! b) ∨ is_Some (P !! b) → cnt m' b = cnt m b) → ftype f ≠ FPipe →
  finv R A P m → finv (a :: R) (<[a := (1, f)]> A) P m'.
Proof.
  intros Ha HPa Hpg Hh Hc Hm Hf I.
  assert (∀ b n1 f1, <[a := (1, f)]> A !! b = Some (n1, f1) →
    (b = a ∧ n1 = 1 ∧ f1 = f) ∨ (b ≠ a ∧ A !! b = Some (n1, f1))) as Hnew.
  { intros b n1 f1 [[<- [= <- <-]]|[? Hb]]%lookup_insert_Some; [by left|by right]. }
  destruct I. split.
  - intros b. rewrite occ_cons, <- fi_count0. destruct (decide (a = b)) as [->|Hne].
    + by rewrite lookup_insert_eq, Ha.
    + by rewrite lookup_insert_ne by done.
  - intros b n1 f1 [(-> & -> & ->)|[_ Hb]]%Hnew; [done|by eapply fi_pos0].
  - intros b n1 f1 [(-> & -> & ->)|[_ Hb]]%Hnew; [done|by eapply fi_pipe0].
  - intros b c n1 f1 n2 f2 pg w [(-> & -> & ->)|[_ Hb]]%Hnew; [by intros _ [? _]|].
    intros [(-> & -> & ->)|[_ Hc']]%Hnew; [by intros _ [? _]|by eapply fi_once0].
  - intros pg e w Hp Hw. destruct (fi_open0 pg e w Hp Hw) as (b & n1 & f1 & Hb & He).
    exists b, n1, f1. split; [|done]. rewrite lookup_insert_ne; [done|congruence].
  - done.
  - intros b [[n1 f1] [(-> & -> & ->)|[_ Hb]]%Hnew]; [done|]. by apply fi_apart0.
  - intros b Hb. destruct (decide (b = a)) as [->|Hne]; [done|].
    rewrite lookup_insert_ne in Hb by done. rewrite (Hm b Hne Hb). by apply fi_pages0.
Qed.
(** A new pipe with its two ends. *)
Lemma finv_pipe R A P m m' pg a b f g :
  NoDup [pg; a; b] → (∀ c, c ∈ [pg; a; b] → A !! c = None ∧ P !! c = None ∧ is_page c ∧ heap ≤ c ∧ 0 < cnt m' c) →
  (∀ c, c ∉ [pg; a; b] → is_Some (A !! c) ∨ is_Some (P !! c) → cnt m' c = cnt m c) →
  is_end f pg false → is_end g pg true →
  finv R A P m → finv (a :: b :: R) (<[b := (1, g)]> (<[a := (1, f)]> A)) (<[pg := (true, true)]> P) m'.
Proof.
  intros Hnd Hfr Hm Hf Hg I. apply NoDup_cons in Hnd as [N0 [N1 _]%NoDup_cons].
  assert (pg ≠ a ∧ pg ≠ b ∧ a ≠ b) as (? & ? & ?) by set_solver.
  destruct (Hfr pg) as (Ap & Pp & _); [set_solver|].
  destruct (Hfr a) as (Aa & Pa & _); [set_solver|]. destruct (Hfr b) as (Ab & Pb & _); [set_solver|].
  assert (∀ c n1 f1, <[b := (1, g)]> (<[a := (1, f)]> A) !! c = Some (n1, f1) →
    (c = b ∧ n1 = 1 ∧ f1 = g) ∨ (c = a ∧ n1 = 1 ∧ f1 = f) ∨ (c ≠ a ∧ c ≠ b ∧ A !! c = Some (n1, f1))) as Hnew.
  { intros c n1 f1 [[<- [= <- <-]]|[? Hc]]%lookup_insert_Some; [by left|right].
    apply lookup_insert_Some in Hc as [[<- [= <- <-]]|[? Hc]]; [by left|by right]. }
  assert (∀ c n1 f1 w, A !! c = Some (n1, f1) → ¬ is_end f1 pg w) as Hold.
  { intros c n1 f1 w Hc (Ht & Hv & _). destruct (fi_pipe _ _ _ _ I c n1 f1 Hc Ht) as (pg' & e & ? & ? & _).
    congruence. }
  assert (∀ c n1 f1 pg' w, <[b := (1, g)]> (<[a := (1, f)]> A) !! c = Some (n1, f1) → is_end f1 pg' w →
    (c = b ∧ pg' = pg ∧ w = true) ∨ (c = a ∧ pg' = pg ∧ w = false) ∨ (A !! c = Some (n1, f1) ∧ pg' ≠ pg)) as Hends.
  { intros c n1 f1 pg' w [(-> & -> & ->)|[(-> & -> & ->)|(_ & _ & Hc)]]%Hnew E.
    - left. destruct Hg as (_ & ? & ?), E as (_ & ? & ?). split_and!; congruence.
    - right; left. destruct Hf as (_ & ? & ?), E as (_ & ? & ?). split_and!; congruence.
    - right; right. split; [done|]. intros ->. by eapply Hold. }
  destruct I. split.
  - intros c. rewrite !lookup_insert, !occ_cons, <- fi_count0. repeat case_decide; subst; try done.
    + by rewrite Ab.
    + by rewrite Aa.
  - intros c n1 f1 [(-> & -> & ->)|[(-> & -> & ->)|(_ & _ & Hc)]]%Hnew; [done..|by eapply fi_pos0].
  - intros c n1 f1 [(-> & -> & ->)|[(-> & -> & ->)|(_ & _ & Hc)]]%Hnew Ht.
    + exists pg, (true, true). destruct Hg as (_ & ? & ->). by rewrite lookup_insert_eq.
    + exists pg, (true, true). destruct Hf as (_ & ? & ->). by rewrite lookup_insert_eq.
    + destruct (fi_pipe0 c n1 f1 Hc Ht) as (pg' & e & Hv & He & Ho). exists pg', e.
      rewrite lookup_insert_ne by congruence. done.
  - intros c d n1 f1 n2 f2 pg' w Hc Hd E1 E2.
    destruct (Hends _ _ _ _ _ Hc E1) as [(-> & ? & ?)|[(-> & ? & ?)|(Hc' & ?)]],
      (Hends _ _ _ _ _ Hd E2) as [(-> & ? & ?)|[(-> & ? & ?)|(Hd' & ?)]]; try done; try congruence.
    by eapply fi_once0.
  - intros pg' e w [[<- <-]|[Hne Hp]]%lookup_insert_Some Hw.
    + destruct w; [exists b, 1, g|exists a, 1, f]; split; try done; rewrite ?lookup_insert_eq;
        rewrite ?lookup_insert_ne, ?lookup_insert_eq by done; done.
    + destruct (fi_open0 pg' e w Hp Hw) as (c & n1 & f1 & Hc & He). exists c, n1, f1. split; [|done].
      rewrite !lookup_insert_ne; [done|congruence..].
  - intros pg' e [[<- <-]|[Hne Hp]]%lookup_insert_Some; [done|by eapply fi_some0].
  - intros c [[n1 f1] Hc]. apply Hnew in Hc as [(-> & _)|[(-> & _)|(Ha & Hb & Hc)]];
      rewrite lookup_insert_ne; try done; [|intros ->; congruence]. by apply fi_apart0.
  - intros c Hc. destruct (decide (c ∈ [pg; a; b])) as [Hin|Hni]; [by destruct (Hfr c Hin) as (_ & _ & ?)|].
    assert (c ≠ pg ∧ c ≠ a ∧ c ≠ b) as (? & ? & ?) by set_solver.
    rewrite !lookup_insert_ne in Hc by done. rewrite (Hm c Hni Hc). by apply fi_pages0.
Qed.

(** The pipes [P'] once the open file [f] is gone from [P]. *)
Definition shut_file (f : VFile) P P' : Prop :=
  if decide (ftype f = FPipe) then ∃ pg e, vpipe f = Some pg ∧ P !! pg = Some e ∧
    let e' := shut (writeable f) e in P' = if fst e' || snd e' then <[pg := e']> P else delete pg P
  else P' = P.
Lemma is_open_shut w w' e : is_open w (shut w' e) = true ↔ is_open w e = true ∧ w ≠ w'.
Proof. destruct w, w', e; simpl; naive_solver. Qed.
Lemma is_open_some w e : is_open w e = true → fst e || snd e = true.
Proof. destruct w, e as [[] []]; naive_solver. Qed.
Lemma shut_file_inv f P P' pg e' :
  shut_file f P P' → (∀ pg e, P !! pg = Some e → fst e || snd e = true) → P' !! pg = Some e' →
  fst e' || snd e' = true ∧ ∃ e, P !! pg = Some e ∧
    ∀ w, is_open w e' = true ↔ is_open w e = true ∧ ¬ is_end f pg w.
Proof.
  unfold shut_file, is_end. intros Hs Hsome Hp. destruct (decide (ftype f = FPipe)) as [Ht|Ht].
  - destruct Hs as (pg0 & e0 & Hv & He0 & ->). destruct (_ || _) eqn:Eo.
    + apply lookup_insert_Some in Hp as [[<- <-]|[Hne Hp]].
      * split; [done|]. exists e0. split; [done|]. intros w. rewrite is_open_shut. naive_solver.
      * split; [by eapply Hsome|]. exists e'. split; [done|]. intros w. naive_solver congruence.
    + apply lookup_delete_Some in Hp as [Hne Hp]. split; [by eapply Hsome|]. exists e'.
      split; [done|]. intros w. naive_solver congruence.
  - subst P'. split; [by eapply Hsome|]. exists e'. naive_solver.
Qed.
Lemma shut_file_open f P P' pg e w :
  shut_file f P P' → P !! pg = Some e → is_open w e = true → ¬ is_end f pg w →
  ∃ e', P' !! pg = Some e' ∧ is_open w e' = true.
Proof.
  unfold shut_file, is_end. intros Hs Hp Hw Hne. destruct (decide (ftype f = FPipe)) as [Ht|Ht].
  - destruct Hs as (pg0 & e0 & Hv & He0 & ->). destruct (decide (pg0 = pg)) as [->|Hpg].
    + assert (e0 = e) as -> by congruence.
      assert (is_open w (shut (writeable f) e) = true) as Ho by (apply is_open_shut; naive_solver).
      rewrite (is_open_some _ _ Ho). exists (shut (writeable f) e). by rewrite lookup_insert_eq.
    + exists e. split; [|done]. destruct (_ || _); [by rewrite lookup_insert_ne|by rewrite lookup_delete_ne].
  - subst P'. eauto.
Qed.
(** The last reference goes: the open file is dropped, its pipe end is shut,
    and the pipe goes with its last end. *)
Lemma finv_last R A P P' m m' a f :
  A !! a = Some (1, f) → shut_file f P P' →
  (∀ b, is_Some (delete a A !! b) ∨ is_Some (P' !! b) → cnt m' b = cnt m b) →
  finv (a :: R) A P m → finv R (delete a A) P' m'.
Proof.
  intros Ha HP Hm I.
  assert (∀ b n1 f1, delete a A !! b = Some (n1, f1) → b ≠ a ∧ A !! b = Some (n1, f1)) as Hold.
  { intros b n1 f1 [? ?]%lookup_delete_Some. done. }
  pose proof (fi_some _ _ _ _ I) as Hsome. destruct I. split.
  - intros b. rewrite lookup_delete. specialize (fi_count0 b). rewrite occ_cons in fi_count0.
    case_decide; subst; [rewrite Ha in fi_count0; simpl in *; lia|done].
  - intros b n1 f1 [_ Hb]%Hold. by eapply fi_pos0.
  - intros b n1 f1 [Hne Hb]%Hold Ht. destruct (fi_pipe0 b n1 f1 Hb Ht) as (pg & e & Hv & He & Ho).
    destruct (shut_file_open f P P' pg e (writeable f1) HP He Ho) as (e' & ? & ?); [|eauto].
    intros Hend. apply Hne. by apply (fi_once0 b a n1 f1 1 f pg (writeable f1)).
  - intros b c n1 f1 n2 f2 pg w [_ Hb]%Hold [_ Hc]%Hold. by eapply fi_once0.
  - intros pg e' w Hp Hw. destruct (shut_file_inv _ _ _ _ _ HP Hsome Hp) as (_ & e & He & Hiff).
    destruct (proj1 (Hiff w) Hw) as [Hw' Hne]. destruct (fi_open0 pg e w He Hw') as (b & n1 & f1 & Hb & Hend).
    exists b, n1, f1. split; [|done]. rewrite lookup_delete_ne; [done|]. intros <-. congruence.
  - intros pg e' Hp. by destruct (shut_file_inv _ _ _ _ _ HP Hsome Hp) as [? _].
  - intros b [[n1 f1] [Hne Hb]%Hold]. destruct (P' !! b) as [e'|] eqn:Hp; [|done].
    destruct (shut_file_inv _ _ _ _ _ HP Hsome Hp) as (_ & e & He & _).
    rewrite fi_apart0 in He; [done|by eexists].
  - intros b Hb. rewrite (Hm b Hb). apply fi_pages0. destruct Hb as [[[n1 f1] [_ Hb]%Hold]|[e' Hp]].
    + left. by eexists.
    + right. destruct (shut_file_inv _ _ _ _ _ HP Hsome Hp) as (_ & e & He & _). by eexists.
Qed.
End inv.
