(* ===== verification/FileSafe.v ===== *)
(** * Open files: the system calls keep their books

    Under every sequence of file system calls, forks and exits the count of
    an open file is the number of descriptors that refer to it, no descriptor
    dangles, and a pipe end is open exactly while a descriptor refers to
    it. *)
From S2P Require Import Layout.
From S2P Require Import Kalloc.
From S2P Require Import PageTable.
From S2P Require Import Bcache.
From S2P Require Import Log.
From S2P Require Import Fs.
From S2P Require Import Icache.
From S2P Require Import Pipe.
From S2P Require Import Console.
From S2P Require Import Prelude.
From S2P Require Import Spin.
From S2P Require Import Proc.
From S2P Require Import Pres.
From S2P Require Import File.
From S2P Require Import SysFile.
From S2P Require Import FileFacts.
From S2P Require Import FileQuiet.
From S2P Require Import FileInv.
From S2P Require Import UserSpace.
From S2P Require Import BcacheFacts.
From S2P Require Import Pte.
From S2P Require Import FsFile.

(** ** Changing one slot *)
Lemma omap_slot (l : list (option Z)) fd o o' :
  l !! fd = Some o →
  omap id (<[fd := o']> l) ++ option_list o ≡ₚ omap id l ++ option_list o'.
Proof.
  intros Hl. rewrite <- (take_drop_middle l fd o Hl) at 2.
  rewrite (insert_take_drop l fd o') by (by eapply lookup_lt_Some).
  rewrite !omap_app. simpl. destruct o, o'; simpl; solve_Permutation.
Qed.
Lemma refs_set {S} (k : kst (filest S)) i p d :
  procs k !! i = Some p →
  refs (set_procs (<[i := mkProcess (meta p) d]> (procs k)) k) ++ omap id (open_files (data p))
    ≡ₚ refs k ++ omap id (open_files d).
Proof.
  intros Hp. unfold refs, tables. simpl. rewrite list_fmap_insert. simpl.
  rewrite <- (take_drop_middle (procs k) i p Hp) at 2.
  rewrite insert_take_drop by (rewrite length_fmap; by eapply lookup_lt_Some).
  rewrite <- fmap_take, <- fmap_drop, fmap_app, fmap_cons, !bind_app, !bind_cons. solve_Permutation.
Qed.
Lemma refs_slot {S} (k : kst (filest S)) i p fd o o' c :
  procs k !! i = Some p → open_files (data p) !! fd = Some o →
  refs (set_procs (<[i := mkProcess (meta p)
    (ProcData.set_files (data p) (<[fd := o']> (open_files (data p))) c)]> (procs k)) k) ++ option_list o
    ≡ₚ refs k ++ option_list o'.
Proof.
  intros Hp Ho. apply (Permutation_app_inv_r (omap id (open_files (data p)))).
  rewrite <- (assoc_L (++)), (comm (++) (option_list o)), (assoc_L (++)), (refs_set k i p _ Hp).
  rewrite <- !(assoc_L (++)). f_equiv. simpl. rewrite (omap_slot _ fd o o' Ho). by rewrite (comm (++)).
Qed.

Section safe.
Context {D S : Type} `{!BlockDev D} (dv : Z) `{!BufferCache D S dv} {BF : BitField}.
Context (pipe_chan : Z → Pipe.chan → Z) (con_chan uart_chan arc_size heap : Z).
Hypothesis Harc : arc_size ≤ PGSIZE.
Context (panicked : bool) (lsr : nat → bool).
Abbreviation kst := (kst (filest S)).
Implicit Types (k : kst) (H : list Z).

(** The books are right, with the references [H] in hand. *)
Definition Finv k H : Prop := finv heap (H ++ refs k) (files k) (pipes k) (kmem k).
Lemma Finv_perm k H H' : H ≡ₚ H' → Finv k H → Finv k H'.
Proof. unfold Finv. by intros ->. Qed.
Lemma Finv_half k H : Finv k H → half_open k.
Proof. intros I pg e. apply (fi_some _ _ _ _ _ I). Qed.
Lemma Finv_same k k' H : same k k' → Finv k H → Finv k' H.
Proof.
  intros [Ht Hf Hp Hc]. unfold Finv, refs. rewrite Ht, Hf, Hp. apply finv_mem. intros a _.
  unfold cnt. by rewrite Hc.
Qed.
Lemma Finv_quiet {A} (m : M kst A) k a k' H : pres quiet m → m k = Done (a, k') → Finv k H → Finv k' H.
Proof. intros Hm E I. eapply Finv_same; [|done]. eapply Hm; [done|by eapply Finv_half]. Qed.

(** ** Counting *)
Lemma files_lookup k a n f : f_arcs (kfs k) !! a = Some (n, f) → files k !! a = Some (n, shape f).
Proof. intros E. unfold files. by rewrite lookup_fmap, E. Qed.
Lemma arc_clone_inv a k u k' H : arc_clone a k = Done (u, k') → Finv k H → Finv k' (a :: H).
Proof.
  unfold arc_clone. rewrite bind_get. destruct (f_arcs (kfs k) !! a) as [[n f]|] eqn:E; [|done].
  intros (n' & k1 & Hn & [= _ <-])%bind_Done I. unfold uadd in Hn.
  destruct (_ <? _); [|done]. injection Hn as <- <-. unfold Finv, files. simpl. rewrite fmap_insert.
  by apply (finv_clone _ _ _ _ _ _ n (shape f)), I; apply files_lookup.
Qed.
(** Taking a reference out of a slot, and putting one into a free slot. *)
Lemma take_slot_inv i p fd o c k H :
  procs k !! i = Some p → open_files (data p) !! fd = Some o → Finv k H →
  Finv (set_procs (<[i := mkProcess (meta p)
    (ProcData.set_files (data p) (<[fd := None]> (open_files (data p))) c)]> (procs k)) k)
    (option_list o ++ H).
Proof.
  intros Hp Ho I. unfold Finv. pose proof (refs_slot k i p fd o None c Hp Ho) as R.
  simpl in R. rewrite app_nil_r in R.
  rewrite <- (assoc_L (++)), (comm (++) H), (assoc_L (++)), (comm (++) (option_list o)), R.
  by rewrite (comm (++)).
Qed.
Lemma give_slot_inv i p fd a c k H :
  procs k !! i = Some p → open_files (data p) !! fd = Some None → Finv k (a :: H) →
  Finv (set_procs (<[i := mkProcess (meta p)
    (ProcData.set_files (data p) (<[fd := Some a]> (open_files (data p))) c)]> (procs k)) k) H.
Proof.
  intros Hp Ho I. unfold Finv. pose proof (refs_slot k i p fd None (Some a) c Hp Ho) as R.
  simpl in R. rewrite app_nil_r in R. rewrite R.
  assert (H ++ refs k ++ [a] ≡ₚ (a :: H) ++ refs k) as -> by solve_Permutation. done.
Qed.
Lemma first_free_None l fd : ProcData.first_free l = Some fd → l !! fd = Some None.
Proof.
  revert fd. induction l as [|[x|] l IH]; intros fd; simpl; [done| |by intros [= <-]].
  destruct (ProcData.first_free l) as [j|]; [|done]. intros [= <-]. simpl. by apply IH.
Qed.
Lemma fd_alloc_inv i a k r k' H :
  fd_alloc i a k = Done (r, k') → Finv k (a :: H) →
  match r with Ok _ => Finv k' H | Err _ => Finv k' (a :: H) end.
Proof.
  unfold fd_alloc. intros (d & k1 & (p & Hp & -> & ->)%data_at_Done & Hr)%bind_Done I.
  unfold ProcData.find_unallocated_fd in Hr.
  destruct (ProcData.first_free _) as [fd|] eqn:Ef; [|by injection Hr as <- <-].
  apply bind_Done in Hr as (u & k1 & (p' & Hp' & ->)%put_data_Done & [= <- <-]).
  assert (p' = p) as -> by congruence. by apply (give_slot_inv _ _ _ a), I; [|apply first_free_None].
Qed.

(** ** Dropping *)
(** The counts of the pages but [p]. *)
Definition others p (m m' : mem) : Prop := ∀ q, is_page q → q ≠ p → cnt m' q = cnt m q.
#[local] Instance others_pre p : PreOrder (others p).
Proof. split; [done|]. intros a b c H1 H2 q Hq Hne. by rewrite H2, H1. Qed.
Lemma count_others {A} p (m : M mem A) : pres count_same m → pres (others p) m.
Proof. apply pres_weaken. unfold others, cnt. by intros s s' ->. Qed.
Lemma dealloc_others p size : is_page p → pres (others p) (dealloc p size).
Proof.
  intros Hp. unfold dealloc. apply pres_bind; [apply _|pres|]. intros _.
  apply pres_usub_bind. fold (idx_of p). apply pres_bind; [apply _| |].
  { unfold count_get. pres. }
  intros c. apply pres_bind; [apply _|unfold i32_add; pres|]. intros c'. apply pres_bind; [apply _| |].
  { unfold count_set. case_match; [|pres]. apply pres_modify. intros m q Hq Hne. unfold cnt. simpl.
    rewrite lookup_insert_ne; [done|]. intros E. by apply Hne, idx_of_inj. }
  intros _. pres. all: apply count_others. all: try (apply pres_modify; done).
  intros m u m'. unfold write_word. repeat case_match; by intros [= _ <-].
Qed.
(** Closing an end of a pipe. *)
Lemma close_eff w s u s' :
  Pipe.close w s = Done (u, s') → let e' := shut w (flags (inner s)) in
  page s' = page s ∧ flags (inner s') = e' ∧
  (fst e' || snd e' = true → pmem s' = pmem s) ∧ (is_page (page s) → others (page s) (pmem s) (pmem s')).
Proof.
  unfold Pipe.close. rewrite bind_get. intros Hc.
  apply bind_Done in Hc as (u1 & s1 & H1 & Hc).
  assert (page s1 = page s ∧ flags (inner s1) = shut w (flags (inner s)) ∧ pmem s1 = pmem s) as (Ep & Ef & Em).
  { destruct w; apply bind_Done in H1 as (u2 & s2 & [= _ <-] & [= _ <-]); done. }
  rewrite bind_get in Hc. cbv zeta. rewrite <- Ef, <- Ep, <- Em. clear Ef Ep Em.
  rewrite <- negb_orb in Hc. unfold flags. cbn [fst snd].
  destruct (readopen (inner s1) || writeopen (inner s1)); cbn [negb] in Hc.
  - injection Hc as _ <-. split_and!; done.
  - unfold Pipe.on_mem, zoom in Hc. destruct (drop_page _ _) as [[v m]| | |] eqn:Ed; [|done..].
    injection Hc as _ <-. simpl. split_and!; try done. intros Hpg. by eapply dealloc_others.
Qed.
Lemma on_pipe_close pg w k u k' :
  on_pipe pipe_chan None pg (Pipe.close w) k = Done (u, k') →
  tables k' = tables k ∧ files k' = files k ∧ ∃ e, pipes k !! pg = Some e ∧
    let e' := shut w e in
    pipes k' = (if fst e' || snd e' then <[pg := e']> (pipes k) else delete pg (pipes k)) ∧
    (fst e' || snd e' = true → kmem k' = kmem k) ∧ (is_page pg → others pg (kmem k) (kmem k')).
Proof.
  unfold on_pipe. rewrite bind_get. destruct (f_pipes (kfs k) !! pg) as [p|] eqn:Ep; [|done].
  destruct (Pipe.close w _) as [[v s]| | |] eqn:Ec; [|done..].
  intros (v' & k1 & (Ht & Hf & Hk & Hp)%store_pipe_eff & [= _ <-])%bind_Done.
  apply close_eff in Ec as (Epg & Efl & Em & Eo). simpl in Epg, Efl, Em, Eo. rewrite Epg, Efl in Hp.
  split; [done|]. split; [done|]. exists (flags p). split; [unfold pipes; by rewrite lookup_fmap, Ep|].
  cbv zeta. rewrite Hk. done.
Qed.
Lemma vfile_drop_eff f k u k' :
  vfile_drop dv pipe_chan f k = Done (u, k') →
  (∀ pg, vpipe f = Some pg → ftype f = FPipe → is_page pg) →
  tables k' = tables k ∧ files k' = files k ∧ shut_file f (pipes k) (pipes k') ∧
  ∀ q, is_page q →
    is_Some (pipes k' !! q) ∨ (∀ pg, vpipe f = Some pg → ftype f = FPipe → q ≠ pg) →
    cnt (kmem k') q = cnt (kmem k) q.
Proof.
  unfold vfile_drop. intros (u1 & k1 & H1 & H2)%bind_Done Hpages.
  assert (pres still (when_some (vinode f) (λ ip, File.on_fs (S := S) None (Icache.put dv ip)))) as Hst.
  { unfold when_some. destruct (vinode f); [apply on_fs_still, put_keep|apply pres_ret, _]. }
  apply Hst in H2 as [[Ht Hf Hp Hc] _].
  rewrite Ht, Hf, Hp. unfold shut_file.
  assert (∀ q, cnt (kmem k') q = cnt (kmem k1) q) as Hc' by (intros q; unfold cnt; by rewrite Hc).
  case_bool_decide as Eft; rewrite ?decide_True, ?decide_False by done.
  - apply bind_Done in H1 as (pg & k2 & Hv & H1). destruct (vpipe f) as [pg'|] eqn:Ev; [|done].
    injection Hv as -> <-. apply on_pipe_close in H1 as (Ht1 & Hf1 & e & He & Hp1 & Hm & Ho).
    rewrite Ht1, Hf1. split; [done|]. split; [done|]. split; [by exists pg, e|].
    intros q Hq Hcase. rewrite Hc'. specialize (Ho (Hpages pg eq_refl Eft)).
    destruct (fst (shut (writeable f) e) || _) eqn:Eo; [by rewrite Hm|]. apply Ho; [done|].
    destruct Hcase as [[e' He']|Hne]; [|by apply Hne]. intros ->. rewrite Hp1, lookup_delete_eq in He'. done.
  - injection H1 as _ <-. split_and!; done || (intros; by rewrite Hc').
Qed.
Lemma arc_drop_inv a k u k' H :
  arc_drop dv pipe_chan arc_size a k = Done (u, k') → Finv k (a :: H) → Finv k' H.
Proof.
  unfold arc_drop. rewrite bind_get. destruct (f_arcs (kfs k) !! a) as [[n f]|] eqn:Ea; [|done].
  intros Hd I. pose proof (files_lookup _ _ _ _ Ea) as Ha. destruct (Z.eqb_spec n 1) as [->|Hn].
  - unfold put_arcs in Hd. rewrite bind_modify in Hd. set (k1 := set_kfs _ k) in Hd.
    apply bind_Done in Hd as (u1 & k2 & H1 & H2).
    assert (∀ pg, vpipe f = Some pg → ftype f = FPipe → is_page pg ∧ is_Some (pipes k !! pg)) as Hpg.
    { intros pg Hv Ht. destruct (fi_pipe _ _ _ _ _ I a 1 (shape f) Ha Ht) as (pg' & e & Hv' & He & _).
      assert (pg' = pg) as -> by (simpl in Hv'; congruence). split; [|by eexists].
      apply (fi_pages _ _ _ _ _ I pg). right. by eexists. }
    apply vfile_drop_eff in H1 as (Ht & Hf & Hs & Hc); [|intros; by apply Hpg].
    change (pipes k1) with (pipes k) in Hs.
    assert (∃ m, dealloc a arc_size (kmem k2) = Done (tt, m) ∧ k' = set_kmem m k2) as (m & Hdl & ->).
    { unfold on_mem, zoom in H2. destruct (dealloc _ _ _) as [[[] m]| | |]; [|done..].
      injection H2 as _ <-. eauto. }
    assert (is_page a) as Hpa by (apply (fi_pages _ _ _ _ _ I a); left; by eexists).
    pose proof (dealloc_others a arc_size Hpa _ _ _ Hdl) as Ho.
    unfold Finv. change (refs (set_kmem m k2)) with (tables k2 ≫= omap id). rewrite Ht.
    change (files (set_kmem m k2)) with (files k2). rewrite Hf.
    assert (files k1 = delete a (files k)) as -> by apply fmap_delete.
    apply (finv_last heap _ _ (pipes k) _ (kmem k) _ a (shape f)); [done|exact Hs| |exact I].
    intros b Hb. assert (is_Some (files k !! b) ∨ is_Some (pipes k !! b)) as Hb'.
    { destruct Hb as [[x [_ Hb]%lookup_delete_Some]|[e He]]; [left; by eexists|right].
      destruct (shut_file_inv _ _ _ _ _ Hs (fi_some _ _ _ _ _ I) He) as (_ & e0 & ? & _). by eexists. }
    assert (is_page b) as Hpb by (by apply (fi_pages _ _ _ _ _ I)).
    assert (b ≠ a) as Hba.
    { intros ->. destruct Hb as [[x [? _]%lookup_delete_Some]|[e He]]; [done|].
      destruct (shut_file_inv _ _ _ _ _ Hs (fi_some _ _ _ _ _ I) He) as (_ & e0 & He0 & _).
      rewrite (fi_apart _ _ _ _ _ I a) in He0; [done|by eexists]. }
    etransitivity; [exact (Ho b Hpb Hba)|]. apply Hc; [done|]. destruct Hb as [[x [_ Hb]%lookup_delete_Some]|Hb]; [right|by left].
    intros pg Hv Ht' ->. destruct (Hpg pg Hv Ht') as [_ [e He]].
    rewrite (fi_apart _ _ _ _ _ I pg) in He; [done|by eexists].
  - injection Hd as _ <-. unfold Finv, files. simpl. rewrite fmap_insert.
    by apply (finv_drop _ _ _ _ _ _ n (shape f)), I.
Qed.
Lemma fd_give_inv i a k r k' H :
  fd_give dv pipe_chan arc_size i a k = Done (r, k') → Finv k (a :: H) → Finv k' H.
Proof.
  unfold fd_give. intros (r1 & k1 & H1 & H2)%bind_Done I. apply (fd_alloc_inv _ _ _ _ _ H) in H1; [|done].
  destruct r1 as [fd|e]; [by injection H2 as <- <-|].
  apply bind_Done in H2 as (u & k2 & H2 & [= <- <-]). by eapply arc_drop_inv.
Qed.

(** ** Opening *)
Definition intact (m : mem) : Prop := ∃ fl, kinv heap m fl.
Lemma alloc_inv size m a m' :
  intact m → size ≤ PGSIZE → alloc size m = Done (a, m') → a ≠ 0 →
  intact m' ∧ is_page a ∧ heap ≤ a ∧ cnt m a = 0 ∧ cnt m' a = 1 ∧ others a m m'.
Proof.
  intros [fl Kv] Hs Ha Hne. destruct fl as [|p fl]; [by rewrite (alloc_none heap) in Ha by done; simplify_eq|].
  destruct (alloc_run heap m p fl size Kv Hs) as (ws & Hr & E). rewrite E in Ha. injection Ha as <- <-.
  destruct (kinv_free_page _ _ _ p Kv) as (Hp & Hh & Hc & _); [left|].
  assert (page_ok ws) as Hws by (by apply (ki_ram _ _ _ Kv p)).
  split_and!; [|done..| |].
  - exists fl. apply alloc_post_kinv; [done|]. apply page_ok_insert; [done|]. unfold in_u. lia.
  - unfold alloc_post. rewrite cnt_insert by done. by rewrite decide_True.
  - intros q Hq Hqp. unfold alloc_post. rewrite cnt_insert by done. by rewrite decide_False.
Qed.
(** A page nobody counts is not in the books. *)
Lemma fresh_page k H a : Finv k H → cnt (kmem k) a = 0 → files k !! a = None ∧ pipes k !! a = None.
Proof.
  intros I Hc. split; apply eq_None_not_Some; intros Hs;
    destruct (fi_pages _ _ _ _ _ I a) as (_ & _ & ?); (by auto) || lia.
Qed.
(** [a] is a fresh page, the only one that became counted. *)
Definition got a (m m' : mem) : Prop :=
  intact m' ∧ is_page a ∧ heap ≤ a ∧ cnt m a = 0 ∧ cnt m' a = 1 ∧ others a m m'.
Lemma new_zeroed_inv m p m' : intact m → new_zeroed m = Done (p, m') → got p m m'.
Proof.
  intros [fl Kv] Hn. destruct fl as [|q fl].
  { unfold new_zeroed in Hn. erewrite bind_run in Hn; [|by apply (alloc_none heap)]. done. }
  destruct (new_zeroed_run heap m q fl Kv) as [E Kv']. rewrite E in Hn. injection Hn as <- <-.
  destruct (kinv_free_page _ _ _ q Kv) as (Hp & Hh & Hc & _); [left|]. split_and!; try done.
  - by exists fl.
  - unfold alloc_post. rewrite cnt_insert by done. by rewrite decide_True.
  - intros q' Hq Hqp. unfold alloc_post. rewrite cnt_insert by done. by rewrite decide_False.
Qed.
Lemma arc_new_eff f k a k' :
  intact (kmem k) → arc_new arc_size f k = Done (a, k') →
  got a (kmem k) (kmem k') ∧ tables k' = tables k ∧ pipes k' = pipes k ∧
  files k' = <[a := (1, shape f)]> (files k).
Proof.
  intros Hin Hn. unfold arc_new in Hn. apply bind_Done in Hn as (b & k1 & Ha & Hn).
  unfold on_mem, zoom in Ha. destruct (alloc _ _) as [[b' m]| | |] eqn:Eal; [|done..]. injection Ha as -> <-.
  destruct (Z.eqb_spec b 0) as [|Hne]; [done|]. rewrite bind_get in Hn.
  apply bind_Done in Hn as (u & k2 & [= _ <-] & [= <- <-]).
  split; [by apply (alloc_inv _ _ _ _ Hin Harc Eal Hne)|]. split; [done|]. split; [done|].
  unfold files. simpl. by rewrite fmap_insert.
Qed.
Lemma arc_new_inv f k a k' H :
  intact (kmem k) → arc_new arc_size f k = Done (a, k') → ftype f ≠ FPipe → Finv k H → Finv k' (a :: H).
Proof.
  intros Hin Hn Hf I. apply arc_new_eff in Hn as ((_ & Hp & Hh & Hc & Hc' & Ho) & Ht & Hps & Hfs); [|done].
  destruct (fresh_page k H a I Hc) as [Hfa Hpa]. unfold Finv, refs. rewrite Ht, Hps, Hfs.
  apply (finv_new heap _ _ _ (kmem k)); try done; [by rewrite Hc'| ].
  intros q Hq Hs. apply Ho; [|done]. by apply (fi_pages _ _ _ _ _ I).
Qed.
Lemma pipe_alloc_inv k rp wp k' H :
  intact (kmem k) → pipe_alloc pipe_chan arc_size k = Done (rp, wp, k') → Finv k H →
  Finv k' (rp :: wp :: H).
Proof.
  intros Hin Hp I. unfold pipe_alloc in Hp. rewrite bind_get in Hp.
  destruct (Pipe.alloc _) as [[v s]| | |] eqn:Ea; [|done..].
  assert (got (page s) (kmem k) (pmem s) ∧ flags (inner s) = (true, true)) as [G0 Hfl].
  { unfold Pipe.alloc, Pipe.on_mem in Ea. apply bind_Done in Ea as (pg & s1 & H1 & [= _ <-]).
    unfold zoom in H1. destruct (new_zeroed _) as [[q m]| | |] eqn:En; [|done..]. injection H1 as -> <-.
    split; [|done]. by apply new_zeroed_inv. }
  apply bind_Done in Hp as (u & k1 & H1 & Hp). apply store_pipe_eff in H1 as (Ht1 & Hf1 & Hm1 & Hp1).
  rewrite Hfl in Hp1. cbn [fst snd orb] in Hp1. rewrite <- Hm1 in G0.
  apply bind_Done in Hp as (a & k2 & Ha & Hp).
  apply arc_new_eff in Ha as (G1 & Ht2 & Hp2 & Hf2); [|apply G0].
  apply bind_Done in Hp as (b & k3 & Hb & [= <- <- <-]).
  apply arc_new_eff in Hb as (G2 & Ht3 & Hp3 & Hf3); [|apply G1].
  destruct G0 as (_ & P0 & Q0 & C0 & D0 & O0), G1 as (_ & P1 & Q1 & C1 & D1 & O1),
    G2 as (_ & P2 & Q2 & C2 & D2 & O2).
  set (pg := page s) in *.
  assert (pg ≠ a) as N1 by (intros E; rewrite E in D0; congruence).
  assert (cnt (kmem k2) pg = 1) as D0' by (by rewrite (O1 pg P0 N1)).
  assert (pg ≠ b) as N2 by (intros E; rewrite E in D0'; congruence).
  assert (a ≠ b) as N3 by (intros E; rewrite E in D1; congruence).
  assert (cnt (kmem k) a = 0) as C1' by (rewrite <- (O0 a P1 (not_eq_sym N1)); done).
  assert (cnt (kmem k) b = 0) as C2'.
  { rewrite <- (O0 b P2 (not_eq_sym N2)), <- (O1 b P2 (not_eq_sym N3)). done. }
  unfold Finv, refs. rewrite Ht3, Ht2, Ht1, Hf3, Hf2, Hf1, Hp3, Hp2, Hp1.
  apply (finv_pipe heap _ _ _ (kmem k)); try done.
  - repeat apply NoDup_cons_2; [set_solver..|apply NoDup_nil_2].
  - assert (cnt (kmem k3) a = 1) by (by rewrite (O2 a P1 N3)).
    assert (cnt (kmem k3) pg = 1) by (by rewrite (O2 pg P0 N2)).
    assert (∀ c, cnt (kmem k) c = 0 → is_page c → heap ≤ c → 0 < cnt (kmem k3) c →
      files k !! c = None ∧ pipes k !! c = None ∧ is_page c ∧ heap ≤ c ∧ 0 < cnt (kmem k3) c) as Hfr.
    { intros c Hc ???. destruct (fresh_page k H c I Hc). done. }
    intros c. rewrite !elem_of_cons, elem_of_nil. intros [->|[->|[->|[]]]]; apply Hfr; done || lia.
  - intros c Hc Hs. assert (is_page c) as Hpc by (by apply (fi_pages _ _ _ _ _ I)).
    rewrite (O2 c), (O1 c), (O0 c); [done|done|set_solver|done|set_solver|done|set_solver].
Qed.

(** ** The calls *)
Lemma Finv_still {A} (m : M kst A) k a k' H :
  pres still m → m k = Done (a, k') → Finv k H → Finv k' H ∧ kmem k' = kmem k.
Proof.
  intros Hm E I. destruct (Hm _ _ _ E) as [Hs Hk]. split; [by eapply Finv_same|done].
Qed.
(** The next operation is still. *)
#[local] Ltac stillstep Hr I :=
  let a := fresh "a" in let k1 := fresh "k" in let H1 := fresh "H" in let Hk := fresh "Hk" in
  apply bind_Done in Hr as (a & k1 & H1 & Hr);
  eapply Finv_still in I as [I Hk]; [| |exact H1]; [clear H1|solve [pres]].
Hint Resolve on_fs_still on_mem_still on_log_still arg_still file_at_still copy_from_str_still
  data_at_still user_pgt_still : pres.
Lemma sys_dup_inv i k r k' H :
  sys_dup dv pipe_chan arc_size i k = Done (r, k') → Finv k H → Finv k' H.
Proof.
  unfold sys_dup. intros Hr I. stillstep Hr I. stillstep Hr I.
  apply bind_Done in Hr as (u & k3 & H1 & Hr). eapply arc_clone_inv in I; [|exact H1].
  apply bind_Done in Hr as (r1 & k4 & H2 & Hr). eapply fd_give_inv in I; [|exact H2].
  stillstep Hr I. by injection Hr as _ <-.
Qed.
Lemma sys_close_inv i k r k' H :
  sys_close dv pipe_chan arc_size i k = Done (r, k') → Finv k H → Finv k' H.
Proof.
  unfold sys_close. intros Hr I. stillstep Hr I.
  apply bind_Done in Hr as (d & k2 & (p & Hp & -> & ->)%data_at_Done & Hr).
  destruct (open_files (data p) !! Z.to_nat a) as [o|] eqn:Eo; [|done]. rewrite bind_unwrap in Hr.
  apply bind_Done in Hr as (u & k2 & (p' & Hp' & ->)%put_data_Done & Hr).
  assert (p' = p) as -> by congruence.
  apply bind_Done in Hr as (u' & k3 & Hd & [= _ <-]).
  eapply take_slot_inv in I; [|exact Hp|exact Eo]. destruct o as [b|]; simpl in *.
  - by eapply arc_drop_inv.
  - by injection Hd as _ <-.
Qed.
Lemma sys_pipe_inv i k r k' H :
  intact (kmem k) → sys_pipe dv pipe_chan arc_size i k = Done (r, k') → Finv k H → Finv k' H.
Proof.
  unfold sys_pipe. intros Hin Hr I. stillstep Hr I. rewrite <- Hk in Hin.
  apply bind_Done in Hr as ([rp wp] & k2 & H1 & Hr). eapply pipe_alloc_inv in I; [|done|exact H1].
  apply bind_Done in Hr as (rf & k3 & H2 & Hr). eapply fd_give_inv in I; [|exact H2].
  destruct rf as [rf|].
  - apply bind_Done in Hr as (wf & k4 & H3 & Hr). eapply fd_give_inv in I; [|exact H3].
    destruct wf as [wf|]; [|by injection Hr as _ <-].
    apply bind_Done in Hr as (u & k5 & H4 & [= _ <-]). eapply Finv_quiet; [|exact H4|exact I].
    apply on_fs_quiet, copy_from_kernel_count.
  - apply bind_Done in Hr as (u & k4 & H3 & [= _ <-]). by eapply arc_drop_inv.
Qed.
Lemma open_found_inv i ip mode k r k' H :
  intact (kmem k) → open_found dv pipe_chan arc_size i ip mode k = Done (r, k') → Finv k H → Finv k' H.
Proof.
  unfold open_found. intros Hin Hr I. stillstep Hr I. stillstep Hr I. stillstep Hr I. stillstep Hr I.
  stillstep Hr I. apply bind_Done in Hr as (b & k6 & H1 & Hr).
  eapply arc_new_inv in I; [| |exact H1|].
  - by eapply fd_give_inv.
  - congruence.
  - simpl. by case_bool_decide.
Qed.
Lemma sys_open_inv i k r k' H :
  intact (kmem k) → sys_open dv pipe_chan arc_size i k = Done (r, k') → Finv k H → Finv k' H.
Proof.
  unfold sys_open. intros Hin Hr I. stillstep Hr I. stillstep Hr I. stillstep Hr I. stillstep Hr I.
  case_match.
  - stillstep Hr I. case_match.
    + eapply open_found_inv; [|done..]. congruence.
    + stillstep Hr I. by injection Hr as _ <-.
  - stillstep Hr I. case_match; [|stillstep Hr I; by injection Hr as _ <-].
    stillstep Hr I. stillstep Hr I. stillstep Hr I. case_match.
    + stillstep Hr I. stillstep Hr I. by injection Hr as _ <-.
    + eapply open_found_inv; [|done..]. congruence.
Qed.

(** ** fork and exit *)
#[local] Instance ops : FileOps (filest S) := file_ops dv pipe_chan arc_size.
Definition tabs k k' : Prop := tables k' = tables k.
#[local] Instance tabs_pre : PreOrder tabs.
Proof. split; [done|]. intros a b c. unfold tabs. congruence. Qed.
Lemma still_tabs {A} (m : M kst A) : pres still m → pres tabs m.
Proof. apply pres_weaken. by intros k k' [[] _]. Qed.
Lemma arc_clone_tabs a : pres tabs (arc_clone (S := S) a).
Proof. unfold arc_clone. pres. by apply pres_modify. Qed.
Lemma arc_drop_tabs a : pres tabs (arc_drop (S := S) dv pipe_chan arc_size a).
Proof.
  unfold arc_drop, vfile_drop. pres; try by apply pres_modify.
  - intros k u k'. unfold on_pipe. rewrite bind_get. destruct (_ !! _) as [p|]; [|done].
    destruct (Pipe.close _ _) as [[w ps]| | |]; [|done..].
    by intros (w' & k1 & (Ht & _)%store_pipe_eff & [= _ <-])%bind_Done.
  - apply still_tabs. unfold when_some. pres.
  - apply (pres_zoom (λ _ _, True)); [done|]. by intros k m _.
Qed.
(** What a fork does with one slot: the child has as many as before. *)
Lemma clone_slot_inv i c fd n k u k' H :
  clone_slot i c fd k = Done (u, k') → (fd < n)%nat → length <$> tables k !! c = Some n →
  Finv k H → Finv k' H ∧ length <$> tables k' !! c = Some n.
Proof.
  unfold clone_slot. intros Hr Hfd Hlen I.
  apply bind_Done in Hr as (d & k1 & (p & Hp & -> & ->)%data_at_Done & Hr).
  set (o := mjoin _) in Hr. apply bind_Done in Hr as (u1 & k1 & H1 & Hr).
  assert (Finv k1 (option_list o ++ H) ∧ tables k1 = tables k) as [I1 Ht1].
  { destruct o as [a|]; simpl in H1; [|by injection H1 as _ <-].
    split; [by eapply arc_clone_inv|by eapply arc_clone_tabs]. }
  rewrite <- Ht1 in Hlen. clear Ht1 I.
  apply bind_Done in Hr as (d & k2 & (q & Hq & -> & ->)%data_at_Done & Hr).
  apply bind_Done in Hr as (u2 & k2 & (q' & Hq' & ->)%put_data_Done & Hr).
  assert (q' = q) as -> by congruence.
  assert (length (open_files (data q)) = n) as Hn.
  { unfold tables in Hlen. rewrite list_lookup_fmap, Hq in Hlen. by injection Hlen. }
  destruct (lookup_lt_is_Some_2 (open_files (data q)) fd) as [x Hx]; [lia|]. rewrite Hx in Hr. simpl in Hr.
  set (k2 := set_procs _ k1) in Hr.
  assert (Finv k2 (option_list x ++ H) ∧ length <$> tables k2 !! c = Some n) as [I2 Ht2].
  { split.
    - unfold Finv in *. pose proof (refs_slot k1 c q fd x o (cwd (data q)) Hq Hx) as R. fold k2 in R.
      assert ((option_list x ++ H) ++ refs k2 ≡ₚ H ++ (refs k2 ++ option_list x)) as -> by solve_Permutation.
      rewrite R. assert (H ++ refs k1 ++ option_list o ≡ₚ (option_list o ++ H) ++ refs k1) as ->
        by solve_Permutation. exact I1.
    - unfold tables, k2. simpl. rewrite list_fmap_insert, list_lookup_insert_eq.
      + simpl. by rewrite length_insert, Hn.
      + rewrite length_fmap. by eapply lookup_lt_Some. }
  destruct x as [a|]; simpl in Hr; [|by injection Hr as _ <-].
  split; [by eapply arc_drop_inv|]. apply arc_drop_tabs in Hr. by rewrite Hr.
Qed.
Lemma clone_files_inv i c k u k' H : clone_files i c k = Done (u, k') → Finv k H → Finv k' H.
Proof.
  unfold clone_files. intros Hr I.
  apply bind_Done in Hr as (d & k1 & (p & Hp & -> & ->)%data_at_Done & Hr).
  apply bind_Done in Hr as (u1 & k1 & H1 & Hr).
  assert (Finv k1 H) as I1.
  { assert (length <$> tables k !! c = Some (length (open_files (data p)))) as Hlen
      by (unfold tables; by rewrite list_lookup_fmap, Hp).
    assert (∀ fd, fd ∈ seq 0 (length (open_files (data p))) → (fd < length (open_files (data p)))%nat) as Hs
      by (intros fd ?%elem_of_seq; lia).
    clear Hr Hp. revert k I Hlen H1 Hs. generalize (seq 0 (length (open_files (data p)))).
    induction l as [|fd l IH]; intros k I Hlen H1 Hs; simpl in H1; [by injection H1 as _ <-|].
    apply bind_Done in H1 as (u2 & k2 & H2 & H1). eapply clone_slot_inv in H2 as [I2 Hl2]; [|by apply Hs; left|done|done].
    eapply IH; [done|done|done|]. intros fd' Hfd'. apply Hs. by right. }
  eapply Finv_still in I1 as [I1 _]; [exact I1| |exact Hr].
  assert (∀ o : option Z, pres still (when_some o inode_clone)) as Hcl.
  { intros o. unfold when_some, inode_clone. simpl. unfold on_ref. pres. apply on_fs_still. pres. }
  assert (∀ o : option Z, pres still (when_some o inode_drop)) as Hdr.
  { intros o. unfold when_some, inode_drop. simpl. unfold on_ref. pres. }
  apply pres_bind; [apply _|pres|]. intros d. apply pres_bind; [apply _|done|]. intros _.
  apply set_cwd_still. done.
Qed.
Lemma close_files_inv i k u k' H : close_files i k = Done (u, k') → Finv k H → Finv k' H.
Proof.
  unfold close_files. intros (d & k1 & (p & Hp & -> & ->)%data_at_Done & Hr)%bind_Done I.
  clear Hp. revert k I Hr. generalize (seq 0 (length (open_files (data p)))).
  induction l as [|fd l IH]; intros k I Hr; simpl in Hr; [by injection Hr as _ <-|].
  apply bind_Done in Hr as (u1 & k1 & H1 & Hr). eapply IH; [|exact Hr]. clear Hr IH.
  unfold close_one in H1. apply bind_Done in H1 as (d & k2 & (q & Hq & -> & ->)%data_at_Done & H1).
  destruct (open_files (data q) !! fd) as [[a|]|] eqn:Eo; simpl in H1; [|by injection H1 as _ <-..].
  apply bind_Done in H1 as (u2 & k2 & (q' & Hq' & ->)%put_data_Done & H1).
  assert (q' = q) as -> by congruence. eapply take_slot_inv in I; [|exact Hq|exact Eo].
  by eapply arc_drop_inv.
Qed.

(** ** Every sequence of calls *)
Inductive call :=
  | CDup | CClose | CPipe | COpen | CRead | CWrite | CFstat | CMknod | CMkdir | CChdir | CUnlink
  | CLink | CFork (child : nat) | CExit.
(** The call by process [i]; of fork and exit the part that concerns files. *)
Definition run_call (c : call) (i : nat) : M kst unit :=
  match c with
  | CDup => sys_dup dv pipe_chan arc_size i ;; mret tt
  | CClose => sys_close dv pipe_chan arc_size i ;; mret tt
  | CPipe => sys_pipe dv pipe_chan arc_size i ;; mret tt
  | COpen => sys_open dv pipe_chan arc_size i ;; mret tt
  | CRead => sys_read dv pipe_chan con_chan uart_chan i ;; mret tt
  | CWrite => sys_write dv pipe_chan con_chan uart_chan panicked lsr i ;; mret tt
  | CFstat => sys_fstat dv i ;; mret tt
  | CMknod => sys_mknod dv i ;; mret tt
  | CMkdir => sys_mkdir dv i ;; mret tt
  | CChdir => sys_chdir dv i ;; mret tt
  | CUnlink => sys_unlink dv i ;; mret tt
  | CLink => sys_link dv i ;; mret tt
  | CFork child => clone_files i child
  | CExit => close_files i
  end.
(** A call that returns; the copies to user memory have left the page
    allocator's structures alone. *)
Definition fstep k k' : Prop :=
  ∃ c i, run_call c i k = Done (tt, k') ∧ intact (kmem k').
Lemma run_call_inv c i k u k' H :
  intact (kmem k) → run_call c i k = Done (u, k') → Finv k H → Finv k' H.
Proof.
  intros Hin Hr I. destruct c; simpl in Hr;
    try (apply bind_Done in Hr as (r & k1 & Hr & [= _ <-])).
  - by eapply sys_dup_inv.
  - by eapply sys_close_inv.
  - by eapply sys_pipe_inv.
  - by eapply sys_open_inv.
  - eapply Finv_quiet; [apply sys_read_quiet|done..].
  - eapply Finv_quiet; [apply sys_write_quiet|done..].
  - eapply Finv_quiet; [apply sys_fstat_quiet|done..].
  - eapply Finv_quiet; [apply sys_mknod_quiet|done..].
  - eapply Finv_quiet; [apply sys_mkdir_quiet|done..].
  - eapply Finv_quiet; [apply sys_chdir_quiet|done..].
  - eapply Finv_quiet; [apply sys_unlink_quiet|done..].
  - eapply Finv_quiet; [apply sys_link_quiet|done..].
  - by eapply clone_files_inv.
  - by eapply close_files_inv.
Qed.
(** Before the first call nothing is open. *)
Definition nothing_open k : Prop :=
  refs k = [] ∧ f_arcs (kfs k) = ∅ ∧ f_pipes (kfs k) = ∅ ∧ intact (kmem k).
Lemma nothing_open_inv k : nothing_open k → Finv k [].
Proof.
  intros (Hr & Ha & Hp & _). unfold Finv, files, pipes. rewrite Hr, Ha, Hp, !fmap_empty.
  split; try (intros *; rewrite lookup_empty; done).
  intros a [[x E]|[x E]]; by rewrite lookup_empty in E.
Qed.
Lemma fsteps_inv k k' : rtc fstep k k' → intact (kmem k) → Finv k [] → Finv k' [].
Proof.
  induction 1 as [|k k1 k' (c & i & Hr & Hin1) _ IH]; [done|]. intros Hin I. apply IH; [done|].
  by eapply run_call_inv.
Qed.

(** C16. Descriptors are counted. After any sequence of file system calls by
    any processes, of forks and of exits, the count of an open file is the
    number of descriptors of all processes that refer to it and no descriptor
    dangles; an end of a pipe is open exactly while there is a descriptor for
    it, and the pipe is there as long as one of its ends is open. *)
Theorem descriptors_counted k0 k :
  nothing_open k0 → rtc fstep k0 k →
  (∀ a, default 0 (fst <$> f_arcs (kfs k) !! a) = occ a (refs k)) ∧
  (∀ a, a ∈ refs k → is_Some (f_arcs (kfs k) !! a)) ∧
  (∀ (pg : Z) (p : PipeInner) (w : bool), f_pipes (kfs k) !! pg = Some p →
     (if w then writeopen p else readopen p) = true ↔
     ∃ (a n : Z) (f : VFile), f_arcs (kfs k) !! a = Some (n, f) ∧ is_end f pg w ∧ a ∈ refs k) ∧
  (∀ a n f pg, f_arcs (kfs k) !! a = Some (n, f) → ftype f = FPipe → vpipe f = Some pg →
     is_Some (f_pipes (kfs k) !! pg)).
Proof.
  intros H0 Hs. pose proof H0 as (_ & _ & _ & Hin).
  pose proof (fsteps_inv _ _ Hs Hin (nothing_open_inv _ H0)) as I. unfold Finv in I. simpl in I.
  assert (∀ a, fst <$> files k !! a = fst <$> f_arcs (kfs k) !! a) as Hfst.
  { intros a. unfold files. rewrite lookup_fmap. by destruct (f_arcs (kfs k) !! a) as [[]|]. }
  assert (∀ a n f, files k !! a = Some (n, f) → ∃ g, f_arcs (kfs k) !! a = Some (n, g) ∧ f = shape g) as Hback.
  { intros a n f. unfold files. rewrite lookup_fmap. destruct (f_arcs (kfs k) !! a) as [[n' g]|]; [|done].
    intros [= <- <-]. eauto. }
  split_and!.
  - intros a. rewrite <- Hfst. apply (fi_count _ _ _ _ _ I).
  - intros a [[n f] (g & ? & _)%Hback]%(finv_ref _ _ _ _ _ _ I). by eexists.
  - intros pg p w Hp.
    assert (pipes k !! pg = Some (flags p)) as Hp' by (unfold pipes; by rewrite lookup_fmap, Hp).
    split.
    + intros Ho. destruct (fi_open _ _ _ _ _ I pg (flags p) w Hp') as (a & n & f & Ha & He); [by destruct w|].
      apply Hback in Ha as Hg. destruct Hg as (g & Hg & ->). exists a, n, g. split_and!; [done|done|].
      apply occ_elem. rewrite <- (fi_count _ _ _ _ _ I), Ha. simpl. by eapply (fi_pos _ _ _ _ _ I).
    + intros (a & n & f & Ha%files_lookup & He & _).
      destruct (fi_pipe _ _ _ _ _ I a n (shape f) Ha (proj1 He)) as (pg' & e & Hv & Hpe & Ho).
      destruct He as (_ & Hv' & Hw). simpl in Hv, Ho. assert (pg' = pg) as -> by congruence.
      assert (e = flags p) as -> by congruence. rewrite Hw in Ho. by destruct w.
  - intros a n f pg Ha%files_lookup Ht Hv.
    destruct (fi_pipe _ _ _ _ _ I a n (shape f) Ha Ht) as (pg' & e & Hv' & Hp & _). simpl in Hv'.
    assert (pg' = pg) as -> by congruence. unfold pipes in Hp. rewrite lookup_fmap in Hp.
    destruct (f_pipes (kfs k) !! pg); [by eexists|done].
Qed.
End safe.

(** ** A run: a pipe, a fork, and the parent's exit

    The allocator's invariant of a concrete memory, by evaluation. *)
Definition page_okb (ws : list Z) : bool :=
  (length ws =? 512)%nat && forallb (λ w, (0 <=? w) && (w <? 2 ^ 64)) ws.
Definition is_pageb (p : Z) : bool := (p mod PGSIZE =? 0) && (KERNEL_BASE <=? p) && (p <? PHYSTOP).
Fixpoint chainb (r : gmap Z (list Z)) (h : option Z) (fl : list Z) : bool :=
  match fl with
  | [] => bool_decide (h = None)
  | p :: fl' =>
    bool_decide (h = Some p) &&
    match r !! p ≫= (.!! 0%nat) with Some w => chainb r (as_ref w) fl' | None => false end
  end.
(** The list from [h], of at most [n] pages. *)
Fixpoint free_list (n : nat) (r : gmap Z (list Z)) (h : option Z) : list Z :=
  match n, h with
  | S n', Some p => p :: free_list n' r ((r !! p ≫= (.!! 0%nat)) ≫= as_ref)
  | _, _ => []
  end.
Definition kinvb (heap : Z) (m : mem) (fl : list Z) : bool :=
  forallb (λ '(p, ws), is_pageb p && page_okb ws) (map_to_list (ram m)) &&
  chainb (ram m) (Kalloc.head m) fl && bool_decide (NoDup fl) &&
  forallb (λ p, bool_decide (is_Some (ram m !! p))) fl &&
  forallb (λ '(p, _), bool_decide (p ∈ fl ↔ heap ≤ p ∧ cnt m p = 0) &&
    ((p <? heap) || (0 <=? cnt m p) && (cnt m p <? 2 ^ 31))) (map_to_list (ram m)).
Lemma forallb_elem {A} (f : A → bool) l : forallb f l = true → ∀ x, x ∈ l → f x = true.
Proof. intros H x Hx. by apply (proj1 (forallb_forall f l) H), list_elem_of_In. Qed.
Lemma chainb_ok r h fl : chainb r h fl = true → chain r h fl.
Proof.
  revert h. induction fl as [|p fl IH]; intros h; simpl; [by intros ?%bool_decide_eq_true|].
  intros [->%bool_decide_eq_true H]%andb_true_iff. destruct (r !! p) as [ws|] eqn:Er; [|done].
  simpl in H. destruct (ws !! 0%nat) as [w|] eqn:Ew; [|done]. split; [done|]. exists ws, w. auto.
Qed.
Lemma kinvb_ok heap m fl : kinvb heap m fl = true → kinv heap m fl.
Proof.
  unfold kinvb. rewrite !andb_true_iff. intros [[[[Hr Hc] Hn] Hf] Hp].
  pose proof (forallb_elem _ _ Hr) as Hr'. pose proof (forallb_elem _ _ Hf) as Hf'.
  pose proof (forallb_elem _ _ Hp) as Hp'. clear Hr Hf Hp.
  apply bool_decide_eq_true in Hn.
  assert (∀ p ws, ram m !! p = Some ws → (p, ws) ∈ map_to_list (ram m)) as Hin
    by (by intros p ws ?%elem_of_map_to_list).
  split; [|by apply chainb_ok|done| |].
  - intros p ws [Hp1 Hw]%Hin%Hr'%andb_true_iff. unfold is_pageb, page_okb in *.
    rewrite !andb_true_iff in *. split; [unfold is_page; lia|].
    destruct Hw as [Hl Hw]. split; [by apply Nat.eqb_eq|].
    apply Forall_forall. intros w Hwi. pose proof (forallb_elem _ _ Hw w Hwi) as Hb.
    cbv beta in Hb. unfold in_u. lia.
  - intros p. split.
    + intros Hpf. pose proof (Hf' p Hpf) as Hs%bool_decide_eq_true. split; [done|]. destruct Hs as [ws Hs].
      apply Hin, Hp', andb_true_iff in Hs as [Hs%bool_decide_eq_true _]. by apply Hs.
    + intros [[ws Hs] H2]. apply Hin, Hp', andb_true_iff in Hs as [Hs%bool_decide_eq_true _]. by apply Hs.
  - intros p [ws Hs] Hh. apply Hin, Hp', andb_true_iff in Hs as [_ Hs]. lia.
Qed.

#[local] Instance bc1 : BufferCache tdev (bcache tdev) 1 := bcache_BufferCache 1.
#[local] Instance bits1 : BitField := {|
  get_bit := Z.testbit; set_bit w n v := if (v : bool) then Z.setbit w n else Z.clearbit w n |}.
(** A process with one page and a trapframe, and a free slot. *)
Definition boot_proc : M mem (Z * Z) :=
  Kalloc.init (heap_of 9) ;;
  r ← new_zeroed;
  pg ← new_zeroed;
  tf ← new_zeroed;
  PageTable.map r 0 pg PGSIZE (Z.lor (Z.lor (Z.lor PTE_R PTE_W) PTE_X) PTE_U) ;;
  mret (r, tf).
Definition tree : kst (filest (bcache tdev)) :=
  match boot_proc (bootn 9) with
  | Done (r, tf, m) =>
    let d := ProcData.new 0 in
    mkKst (mkMach [] ∅) m
      [mkProcess ProcMeta.new (ProcData.set_trapframe (ProcData.set_pagetable d (Some r)) tf);
       mkProcess ProcMeta.new (ProcData.new 1)] 1 None [] [] 0
      (mkFilest fs1 ∅ ∅ (mkTty Uart.new Console.new [] [] 0 0 0 m None false) uninit)
  | _ => mkKst (mkMach [] ∅) (bootn 9) [] 0 None [] [] 0
      (mkFilest fs1 ∅ ∅ (mkTty Uart.new Console.new [] [] 0 0 0 (bootn 9) None false) uninit)
  end.
Definition pchan (pg : Z) (c : Pipe.chan) : Z := pg.
Abbreviation run1 c := (run_call 1 pchan 1 2 64 false (λ _, true) c 0).
Definition did {A} (o : outcome (unit * A)) (d : A) : A := match o with Done (_, k) => k | _ => d end.
Definition is_done {A} (o : outcome (unit * A)) : bool := match o with Done _ => true | _ => false end.
Lemma did_done {A} (o : outcome (unit * A)) d : is_done o = true → o = Done (tt, did o d).
Proof. by destruct o as [[[] ?]| | |]. Qed.
Definition piped := did (run1 CPipe tree) tree.
Definition forked := did (run1 (CFork 1) piped) piped.
Definition parted := did (run1 CExit forked) forked.

Definition soundb (k : kst (filest (bcache tdev))) : bool :=
  kinvb (heap_of 9) (kmem k) (free_list 9 (ram (kmem k)) (Kalloc.head (kmem k))).
Lemma soundb_ok k : soundb k = true → intact (heap_of 9) (kmem k).
Proof. intros H. eexists. exact (kinvb_ok _ _ _ H). Qed.
Lemma run1_step c k :
  is_done (run1 c k) = true → soundb (did (run1 c k) k) = true →
  fstep 1 pchan 1 2 64 (heap_of 9) false (λ _, true) k (did (run1 c k) k).
Proof. intros Hd Hs. exists c, 0%nat. split; [by apply did_done|by apply soundb_ok]. Qed.
(** After the fork each end of the pipe has two descriptors, after the
    parent's exit one. *)
Lemma descriptors_counted_witness :
  (∃ a n f, f_arcs (kfs forked) !! a = Some (n, f) ∧ n = 2 ∧ occ a (refs forked) = 2) ∧
  (∀ a, default 0 (fst <$> f_arcs (kfs parted) !! a) = occ a (refs parted)) ∧ length (refs parted) = 2%nat.
Proof.
  assert (nothing_open (heap_of 9) tree) as H0
    by (split_and!; [by vm_compute|by vm_compute|by vm_compute|apply soundb_ok; by vm_compute]).
  assert (rtc (fstep 1 pchan 1 2 64 (heap_of 9) false (λ _, true)) tree forked) as H1.
  { eapply rtc_l; [apply (run1_step CPipe); by vm_compute|].
    eapply rtc_l; [apply (run1_step (CFork 1)); by vm_compute|]. apply rtc_refl. }
  split; [|split; [|by vm_compute]].
  - destruct (descriptors_counted 1 pchan 1 2 64 (heap_of 9) ltac:(by vm_compute) false (λ _, true)
      tree forked H0 H1) as [Hc _].
    exists 6442422272, 2, (pipe_end 6442426368 false). split; [by vm_compute|]. split; [done|].
    rewrite <- Hc. by vm_compute.
  - destruct (descriptors_counted 1 pchan 1 2 64 (heap_of 9) ltac:(by vm_compute) false (λ _, true)
      tree parted H0) as [Hc _]; [|exact Hc].
    eapply rtc_r; [exact H1|]. apply (run1_step CExit); by vm_compute.
Defined.
