(* ===== verification/UserCopy.v ===== *)
(** * Copies between the kernel and user memory

    [copy_out] and [copy_in] cross pages through the page table of the
    process. User memory is the function from addresses to bytes that the
    page table and the pages it maps define. *)
From S2P Require Import Prelude Layout Pte Kalloc PageTable PageTableFacts MapFacts Cow UserSpace.
From S2P Require Import Fs.
From S2P Require Import FsFile.
Import Addr PageTableEntry.

(** ** Bytes of a page *)
Lemma bytes_words_bytes n bs :
  length bs = (8 * n)%nat → Forall (in_u 8) bs → bytes_words n bs ≫= le_bytes 8 = bs.
Proof.
  revert bs. induction n as [|n IH]; intros bs Hl Hb; [by destruct bs|]. cbn [bytes_words].
  rewrite bind_cons, IH; [|rewrite length_drop; lia|by apply Forall_drop].
  assert (length (take 8 bs) = 8%nat) as H8 by (rewrite length_take; lia).
  rewrite <- H8 at 1. rewrite le_bytes_word by (by apply Forall_take). apply take_drop.
Qed.
Lemma page_bytes_page bs :
  length bs = Z.to_nat PGSIZE → Forall (in_u 8) bs → page_bytes (bytes_page bs) = bs.
Proof. intros Hl. apply bytes_words_bytes. by rewrite Hl. Qed.
Lemma length_bytes_words n bs : length (bytes_words n bs) = n.
Proof. revert bs. induction n; simpl; auto. Qed.
Lemma le_word_range bs : Forall (in_u 8) bs → 0 ≤ le_word bs < 256 ^ Z.of_nat (length bs).
Proof.
  induction 1 as [|b bs [H0 H1] _ IH]; simpl le_word; [done|].
  rewrite length_cons, Nat2Z.inj_succ, Z.pow_succ_r by lia. change (2 ^ 8) with 256 in H1. lia.
Qed.
Lemma bytes_page_ok bs :
  length bs = Z.to_nat PGSIZE → Forall (in_u 8) bs → page_ok (bytes_page bs).
Proof.
  intros Hl Hb. split; [apply length_bytes_words|]. unfold bytes_page.
  assert (length bs = (8 * 512)%nat) as Hl' by (by rewrite Hl). clear Hl. revert bs Hl' Hb.
  generalize 512%nat. induction n as [|n IH]; intros bs Hl Hb; cbn [bytes_words]; constructor.
  - assert (length (take 8 bs) = 8%nat) as H8 by (rewrite length_take; lia).
    pose proof (le_word_range (take 8 bs) ltac:(by apply Forall_take)) as Hr. rewrite H8 in Hr. exact Hr.
  - apply IH; [rewrite length_drop; lia|by apply Forall_drop].
Qed.
Lemma page_bytes_range ws : page_ok ws → Forall (in_u 8) (page_bytes ws).
Proof.
  intros [_ Hw]. unfold page_bytes. induction Hw as [|w ws [Hw _] _ IH]; [constructor|].
  rewrite bind_cons. apply Forall_app_2; [by apply le_bytes_range|done].
Qed.
Lemma length_page_bytes ws : page_ok ws → length (page_bytes ws) = Z.to_nat PGSIZE.
Proof.
  intros [Hl _]. assert (length (page_bytes ws) = (8 * length ws)%nat) as ->; [|by rewrite Hl].
  clear Hl. induction ws as [|w ws IH]; [done|]. unfold page_bytes in *. rewrite bind_cons, length_app, IH.
  rewrite length_le_bytes. simpl. lia.
Qed.

Lemma page_step_al va : va mod PGSIZE = 0 → (va + PGSIZE) mod PGSIZE = 0.
Proof. intros Hal. by rewrite <- Z.add_mod_idemp_r, Z_mod_same_full, Z.add_0_r by done. Qed.

(** ** User memory *)
Definition byte_in (m : mem) (p j : Z) : option Z := ws ← ram m !! p; page_bytes ws !! Z.to_nat j.
Definition user_byte (m : mem) (root va : Z) : option Z :=
  p ← user_page m root va; byte_in m p (va mod PGSIZE).

Section copies.
Context (heap root : Z).
Implicit Types (m : mem) (fl : list Z) (pos : gmap Z (nat * Z)) (va : Z) (bs : list Z).
Abbreviation wf := (pt_wf heap false).

(** The pages of the space are data pages, each mapped once. *)
Record space m fl pos : Prop := {
  sp_kinv : kinv heap m fl;
  sp_wf : wf m fl root pos;
  sp_data : ∀ va p, 0 ≤ va ≤ MAXVA → user_page m root va = Some p → data_page heap m pos p;
  sp_once : ∀ va va' p, 0 ≤ va ≤ MAXVA → 0 ≤ va' ≤ MAXVA →
    user_page m root va = Some p → user_page m root va' = Some p → va / PGSIZE = va' / PGSIZE
}.
Lemma user_page_vpn m va va' : va / PGSIZE = va' / PGSIZE → user_page m root va = user_page m root va'.
Proof. intros E. unfold user_page. by rewrite (pte_at_vpn m root va va'). Qed.
Lemma space_page m fl pos va p :
  space m fl pos → 0 ≤ va ≤ MAXVA → user_page m root va = Some p →
  ∃ ws, ram m !! p = Some ws ∧ page_ok ws ∧ (p ∉ fl) ∧ pos !! p = None.
Proof.
  intros [K W D _] Hva Hp. pose proof (D va p Hva Hp) as Dp. pose proof Dp as ([ws Hws] & _ & _ & Hn).
  exists ws. split_and!; [done| |by eapply data_page_not_free|done]. by apply (ki_ram _ _ _ K p).
Qed.

(** A store through the mapping of one page. *)
Lemma store_user m fl pos va p off bs :
  space m fl pos → 0 ≤ va ≤ MAXVA → va mod PGSIZE = 0 → user_page m root va = Some p →
  0 ≤ off → off + Z.of_nat (length bs) ≤ PGSIZE → Forall (in_u 8) bs →
  ∃ m', PageTable.store_bytes p off bs m = Done (tt, m') ∧ space m' fl pos ∧
    (∀ va', 0 ≤ va' ≤ MAXVA → pte_at m' root va' = pte_at m root va') ∧
    (∀ va', 0 ≤ va' ≤ MAXVA → user_byte m' root va' =
       if decide (va + off ≤ va' < va + off + Z.of_nat (length bs))
       then bs !! Z.to_nat (va' - (va + off)) else user_byte m root va') ∧
    (∀ q, q ≠ p → ram m' !! q = ram m !! q).
Proof.
  intros Sp Hva Hal Hp Hoff Hlen Hb.
  destruct (space_page _ _ _ _ _ Sp Hva Hp) as (ws & Hws & Hok & Hfl & Hpos).
  pose proof (length_page_bytes ws Hok) as Hl.
  set (new := splice (page_bytes ws) off bs).
  assert (length new = Z.to_nat PGSIZE) as Hln by (unfold new; rewrite length_splice; [done|done|lia]).
  assert (Forall (in_u 8) new) as Hbn.
  { pose proof (page_bytes_range ws Hok). unfold new, splice.
    repeat apply Forall_app_2; [by apply Forall_take|done|by apply Forall_drop]. }
  set (m' := mkMem (<[p := bytes_page new]> (ram m)) (Kalloc.head m) (Kalloc.count m)).
  assert (PageTable.store_bytes p off bs m = Done (tt, m')) as E.
  { unfold PageTable.store_bytes. rewrite (bind_run _ _ _ ws m) by (unfold read_page; by rewrite Hws).
    unfold write_page. by rewrite Hws. }
  destruct Sp as [K W D U].
  assert (kinv heap m' fl) as K'
    by (apply store_kinv; [done|by eexists|done|by apply bytes_page_ok]).
  destruct (pt_frame heap root m fl pos m' fl W) as (W' & _ & Hpte).
  { intros q x Hq. assert (q ≠ p) by (intros ->; congruence).
    split; [by apply lookup_insert_ne|]. by eapply W. }
  assert (∀ va', 0 ≤ va' ≤ MAXVA → user_page m' root va' = user_page m root va') as Hup.
  { intros va' Hva'. unfold user_page. by rewrite Hpte. }
  exists m'. split; [done|]. split; [|split; [done|split; [|intros q Hq; by apply lookup_insert_ne]]].
  - split; [done..| |].
    + intros va' q Hva'. rewrite Hup by done. intros Hq. destruct (D va' q Hva' Hq) as ([x Hx] & ? & Hc & ?).
      split_and!; [|done|exact Hc|done]. apply lookup_insert_is_Some. destruct (decide (p = q)); [by left|].
      right. split; [done|by eexists].
    + intros v v' q Hv Hv'. rewrite !Hup by done. by apply U.
  - intros va' Hva'. unfold user_byte. rewrite Hup by done.
    pose proof (Z.mod_pos_bound va' PGSIZE ltac:(done)) as Hm.
    pose proof (Z.div_mod va' PGSIZE ltac:(done)) as Hd. pose proof (Z.div_mod va PGSIZE ltac:(done)) as Hd0.
    destruct (decide (va / PGSIZE = va' / PGSIZE)) as [Hv|Hv].
    + rewrite <- (user_page_vpn m va va' Hv), Hp. cbn [mbind option_bind]. unfold byte_in, m'.
      cbn [ram]. rewrite lookup_insert_eq, Hws. cbn [mbind option_bind]. rewrite page_bytes_page by done.
      unfold new. rewrite splice_lookup by lia. rewrite Z2Nat.id by lia.
      assert (va' = va + va' mod PGSIZE) as Hva'' by lia.
      repeat case_decide; try lia; [|done]. f_equal. lia.
    + rewrite decide_False by layout_lia.
      destruct (user_page m root va') as [q|] eqn:Hq; [|done]. cbn [mbind option_bind]. unfold byte_in, m'. cbn [ram].
      rewrite lookup_insert_ne; [done|]. intros <-. by apply Hv, (U va va' p).
Qed.

(** [[a, a + n)] is mapped for the user. *)
Definition mapped m (a n : Z) : Prop := ∀ va, a ≤ va < a + n → is_Some (user_page m root va).
(** A page the user cannot reach. *)
Definition unmapped m (q : Z) : Prop := ∀ va, 0 ≤ va ≤ MAXVA → user_page m root va ≠ Some q.
(** [bs] has been stored at [a], and nothing else has changed. *)
Definition stored m (a : Z) bs m' : Prop :=
  (∀ va, 0 ≤ va ≤ MAXVA → pte_at m' root va = pte_at m root va) ∧
  (∀ va, 0 ≤ va ≤ MAXVA → user_byte m' root va =
     if decide (a ≤ va < a + Z.of_nat (length bs)) then bs !! Z.to_nat (va - a) else user_byte m root va) ∧
  (∀ q, unmapped m q → ram m' !! q = ram m !! q).
Lemma user_page_same m m' va :
  pte_at m' root va = pte_at m root va → user_page m' root va = user_page m root va.
Proof. unfold user_page. by intros ->. Qed.
Lemma unmapped_same m m' q :
  (∀ va, 0 ≤ va ≤ MAXVA → pte_at m' root va = pte_at m root va) → unmapped m q → unmapped m' q.
Proof. intros Hp Hq va Hva. rewrite (user_page_same m m') by auto. by apply Hq. Qed.
Lemma stored_app m a bs bs' m1 m2 :
  stored m a bs m1 → stored m1 (a + Z.of_nat (length bs)) bs' m2 → stored m a (bs ++ bs') m2.
Proof.
  intros (Hp1 & Hb1 & Hr1) (Hp2 & Hb2 & Hr2). split_and!; [intros va Hva; by rewrite Hp2, Hp1| |].
  2:{ intros q Hq. rewrite Hr2, Hr1; [done|done|]. by eapply unmapped_same. }
  intros va Hva. rewrite Hb2, Hb1, length_app by done. repeat case_decide; try lia; [| |done].
  - rewrite lookup_app_r by lia. f_equal. lia.
  - rewrite lookup_app_l by lia. done.
Qed.
Lemma next_page m fl pos va :
  space m fl pos → 0 ≤ va → va + PGSIZE ≤ MAXVA →
  add_page va m = Done (va + PGSIZE, m) ∧
  PageTable.pgt_translate root (va + PGSIZE) m = Done (user_page m root (va + PGSIZE), m).
Proof.
  intros [K W _ _] H0 H1. split.
  - unfold add_page, uadd. by rewrite (proj2 (Z.ltb_lt _ _)) by layout_lia.
  - by eapply pgt_translate_run; [| |layout_lia].
Qed.

Lemma copy_out_loop_run fuel : ∀ m fl pos va pa off src,
  space m fl pos → 0 ≤ va → va mod PGSIZE = 0 → user_page m root va = Some pa →
  0 ≤ off < PGSIZE → va + off + Z.of_nat (length src) ≤ MAXVA →
  mapped m (va + off) (Z.of_nat (length src)) → Forall (in_u 8) src → (length src < fuel)%nat →
  ∃ m', PageTable.copy_out_loop fuel root va pa off (PGSIZE - off) src m = Done (tt, m') ∧
    space m' fl pos ∧ stored m (va + off) src m'.
Proof.
  induction fuel as [|fuel IH]; intros m fl pos va pa off src Sp H0 Hal Hpa Hoff Hmax Hm Hb Hf; [lia|].
  cbn [PageTable.copy_out_loop].
  set (c := if _ <? _ then _ else _).
  assert (c = Z.min (Z.of_nat (length src)) (PGSIZE - off)) as Hc
    by (unfold c; destruct (Z.ltb_spec (Z.of_nat (length src)) (PGSIZE - off)); lia).
  assert (Z.of_nat (length (take (Z.to_nat c) src)) = c) as Hlt by (rewrite length_take; lia).
  destruct (store_user m fl pos va pa off (take (Z.to_nat c) src)) as (m1 & E & Sp1 & Hp1 & Hb1 & Hr1);
    [done|lia|done|done|lia|lia|by apply Forall_take|].
  assert (stored m (va + off) (take (Z.to_nat c) src) m1) as St1.
  { split_and!; [done..|]. intros q Hq. apply Hr1. intros ->. by apply (Hq va); [lia|]. }
  mstep E. clear E. case_bool_decide as Hd.
  { exists m1. split; [done|]. split; [done|].
    rewrite <- (take_drop (Z.to_nat c) src), Hd, app_nil_r. exact St1. }
  assert (c = PGSIZE - off ∧ PGSIZE - off < Z.of_nat (length src)) as [Hc' Hlt'].
  { destruct (decide (Z.of_nat (length src) ≤ PGSIZE - off)); [|lia].
    exfalso. apply Hd, nil_length_inv. rewrite length_drop. lia. }
  destruct (Hm (va + PGSIZE)) as [pa' Hpa']; [lia|].
  assert (∀ v, 0 ≤ v ≤ MAXVA → user_page m1 root v = user_page m root v) as Hup
    by (intros v Hv; unfold user_page; by rewrite Hp1).
  rewrite <- Hup in Hpa' by layout_lia.
  destruct (next_page m1 fl pos va Sp1 H0 ltac:(lia)) as [Ea En]. rewrite Hpa' in En.
  mstep Ea. mstep En. cbn [unwrap]. rewrite (bind_run _ _ _ pa' m1) by done. clear Ea En.
  assert (va + off + c = va + PGSIZE + 0) as Ea by lia.
  destruct (IH m1 fl pos (va + PGSIZE) pa' 0 (drop (Z.to_nat c) src)) as (m2 & E2 & Sp2 & S2);
    [done|lia|by apply page_step_al|done|lia| | |by apply Forall_drop|rewrite length_drop; lia|].
  - rewrite length_drop. lia.
  - intros v Hv. rewrite length_drop in Hv. rewrite Hup by lia. apply Hm. lia.
  - exists m2. rewrite Z.sub_0_r in E2. split; [done|]. split; [done|].
    rewrite <- (take_drop (Z.to_nat c) src). eapply stored_app; [exact St1|]. by rewrite Hlt, Ea.
Qed.

(** What user memory holds at [a]. *)
Definition holds m (a : Z) bs : Prop :=
  ∀ i b, bs !! i = Some b → user_byte m root (a + Z.of_nat i) = Some b.
Lemma holds_app m a bs bs' :
  holds m a (bs ++ bs') ↔ holds m a bs ∧ holds m (a + Z.of_nat (length bs)) bs'.
Proof.
  split.
  - intros Hh. split; intros i b Hb.
    + apply Hh. by apply lookup_app_l_Some.
    + rewrite <- Z.add_assoc, <- Nat2Z.inj_add. apply Hh. rewrite lookup_app_r by lia.
      by replace (length bs + i - length bs)%nat with i by lia.
  - intros [H1 H2] i b [Hb|[Hl Hb]]%lookup_app_Some; [by apply H1|].
    specialize (H2 _ _ Hb). by replace (a + Z.of_nat i)
      with (a + Z.of_nat (length bs) + Z.of_nat (i - length bs)) by lia.
Qed.
Lemma holds_mapped m a bs : holds m a bs → mapped m a (Z.of_nat (length bs)).
Proof.
  intros Hh va Hva. destruct (lookup_lt_is_Some_2 bs (Z.to_nat (va - a))) as [b Hb]; [lia|].
  specialize (Hh _ _ Hb). rewrite Z2Nat.id in Hh by lia. replace (a + (va - a)) with va in Hh by lia.
  unfold user_byte in Hh. destruct (user_page m root va); [by eexists|done].
Qed.
(** The rest of the page at [va + off] starts with what memory holds there. *)
Lemma load_user m fl pos va pa off bs :
  space m fl pos → 0 ≤ va → va mod PGSIZE = 0 → va + off + Z.of_nat (length bs) ≤ MAXVA →
  user_page m root va = Some pa → 0 ≤ off < PGSIZE → off + Z.of_nat (length bs) ≤ PGSIZE →
  holds m (va + off) bs →
  ∃ tl, length tl = Z.to_nat (PGSIZE - off - Z.of_nat (length bs)) ∧
    PageTable.load_bytes pa off (PGSIZE - off) m = Done (bs ++ tl, m) ∧
    PageTable.load_bytes pa off (Z.of_nat (length bs)) m = Done (bs, m).
Proof.
  intros Sp H0 Hal Hmax Hpa Hoff Hlen Hh.
  destruct (space_page m fl pos va pa Sp ltac:(lia) Hpa) as (ws & Hws & Hok & _ & _).
  pose proof (length_page_bytes ws Hok) as Hl.
  assert (∀ n, PageTable.load_bytes pa off n m = Done (slice (page_bytes ws) off n, m)) as Hload.
  { intros n. unfold PageTable.load_bytes. by rewrite (bind_run _ _ _ ws m) by (unfold read_page; by rewrite Hws). }
  assert (slice (page_bytes ws) off (Z.of_nat (length bs)) = bs) as Hs.
  { apply list_eq_same_length with (length bs); [done|rewrite length_slice; lia|].
    intros i x y Hi Hx Hy. specialize (Hh _ _ Hy). rewrite slice_lookup, decide_True in Hx by lia.
    unfold user_byte in Hh. rewrite (user_page_vpn m _ va) in Hh.
    - rewrite Hpa in Hh. cbn [mbind option_bind] in Hh. unfold byte_in in Hh. rewrite Hws in Hh.
      cbn [mbind option_bind] in Hh.
      replace (Z.to_nat ((va + off + Z.of_nat i) mod PGSIZE)) with (Z.to_nat off + i)%nat in Hh; [congruence|].
      rewrite <- Z.add_assoc, <- Z.add_mod_idemp_l, Hal, Z.add_0_l, Z.mod_small by (done || lia). lia.
    - symmetry. apply (Z.div_unique _ _ _ (off + Z.of_nat i)); [lia|].
      pose proof (Z.div_mod va PGSIZE ltac:(done)). lia. }
  exists (slice (page_bytes ws) (off + Z.of_nat (length bs)) (PGSIZE - off - Z.of_nat (length bs))).
  split_and!; [rewrite length_slice; lia| |by rewrite Hload, Hs].
  rewrite Hload. do 2 f_equal. rewrite <- Hs at 1. unfold slice.
  replace (Z.to_nat (PGSIZE - off)) with (length bs + Z.to_nat (PGSIZE - off - Z.of_nat (length bs)))%nat by lia.
  rewrite <- take_take_drop, drop_drop, Nat2Z.id. do 3 f_equal. lia.
Qed.

Lemma copy_in_loop_run m fl pos fuel : ∀ va pa off bs,
  space m fl pos → 0 ≤ va → va mod PGSIZE = 0 → user_page m root va = Some pa →
  0 ≤ off < PGSIZE → va + off + Z.of_nat (length bs) ≤ MAXVA → holds m (va + off) bs →
  (length bs < fuel)%nat →
  PageTable.copy_in_loop fuel root va pa off (PGSIZE - off) (Z.of_nat (length bs)) m = Done (bs, m).
Proof.
  induction fuel as [|fuel IH]; intros va pa off bs Sp H0 Hal Hpa Hoff Hmax Hh Hf; [lia|].
  cbn [PageTable.copy_in_loop]. set (c := if _ <? _ then _ else _).
  assert (c = Z.min (Z.of_nat (length bs)) (PGSIZE - off)) as Hc
    by (unfold c; destruct (Z.ltb_spec (Z.of_nat (length bs)) (PGSIZE - off)); lia).
  rewrite <- (take_drop (Z.to_nat c) bs) in Hh. apply holds_app in Hh as [Hh1 Hh2].
  assert (Z.of_nat (length (take (Z.to_nat c) bs)) = c) as Hlt by (rewrite length_take; lia).
  destruct (load_user m fl pos va pa off (take (Z.to_nat c) bs)) as (_ & _ & _ & E); [done..|lia|done|lia|lia|done|].
  rewrite Hlt in E. mstep E. clear E. destruct (Z.eqb_spec (Z.of_nat (length bs) - c) 0) as [Hz|Hz].
  { by rewrite take_ge by lia. }
  rewrite Hlt in Hh2. assert (va + off + c = va + PGSIZE + 0) as Ea by lia. rewrite Ea in Hh2.
  destruct (holds_mapped _ _ _ Hh2 (va + PGSIZE)) as [pa' Hpa']; [rewrite length_drop; lia|].
  destruct (next_page m fl pos va Sp H0 ltac:(lia)) as [E En]. rewrite Hpa' in En.
  mstep E. mstep En. cbn [unwrap]. rewrite (bind_run _ _ _ pa' m) by done.
  pose proof (IH (va + PGSIZE) pa' 0 (drop (Z.to_nat c) bs)) as E2. rewrite Z.sub_0_r in E2.
  replace (Z.of_nat (length (drop (Z.to_nat c) bs))) with (Z.of_nat (length bs) - c) in E2
    by (rewrite length_drop; lia).
  rewrite (bind_run _ _ _ (drop (Z.to_nat c) bs) m); [|apply E2; [done|lia|by apply page_step_al|done|lia|lia|done|]].
  - by rewrite take_drop.
  - rewrite length_drop. lia.
Qed.

Lemma find_nul_app s tl : Forall (λ b, b ≠ 0) s → PageTable.find_nul (s ++ 0 :: tl) = Some (Z.of_nat (length s)).
Proof.
  induction 1 as [|b s Hb _ IH]; [done|]. cbn [app PageTable.find_nul]. rewrite (proj2 (Z.eqb_neq _ _)) by done.
  rewrite IH. simpl. f_equal. lia.
Qed.
Lemma find_nul_none s : Forall (λ b, b ≠ 0) s → PageTable.find_nul s = None.
Proof.
  induction 1 as [|b s Hb _ IH]; [done|]. cbn [PageTable.find_nul].
  rewrite (proj2 (Z.eqb_neq _ _)) by done. by rewrite IH.
Qed.
Lemma copy_in_str_loop_run m fl pos fuel : ∀ va pa off s dst,
  space m fl pos → 0 ≤ va → va mod PGSIZE = 0 → user_page m root va = Some pa →
  0 ≤ off < PGSIZE → va + off + Z.of_nat (length s) < MAXVA → holds m (va + off) (s ++ [0]) →
  Forall (λ b, b ≠ 0) s → (length s < length dst)%nat → (length dst < fuel)%nat →
  PageTable.copy_in_str_loop fuel root va pa off (PGSIZE - off) dst m =
    Done (s ++ [0] ++ drop (S (length s)) dst, m).
Proof.
  induction fuel as [|fuel IH]; intros va pa off s dst Sp H0 Hal Hpa Hoff Hmax Hh Hs Hd Hf; [lia|].
  cbn [PageTable.copy_in_str_loop]. destruct (decide (off + Z.of_nat (length s) < PGSIZE)) as [Hin|Hout].
  - destruct (load_user m fl pos va pa off (s ++ [0])) as (tl & _ & E & _);
      [done..|rewrite length_app; simpl; lia|done|lia|rewrite length_app; simpl; lia|done|].
    mstep E. rewrite <- (assoc_L (++)). cbn [app]. rewrite find_nul_app by done.
    rewrite (proj2 (Z.ltb_ge _ _)) by lia.
    replace (Z.to_nat (Z.of_nat (length s) + 1)) with (S (length s)) by lia.
    change (s ++ 0 :: tl) with (s ++ [0] ++ tl). rewrite (assoc_L (++)), take_app_length' by (rewrite length_app; simpl; lia).
    by rewrite <- (assoc_L (++)).
  - set (n := Z.to_nat (PGSIZE - off)). assert (length (take n s) = n) as Hn by (rewrite length_take; lia).
    rewrite <- (take_drop n s), <- (assoc_L (++)) in Hh. apply holds_app in Hh as [Hh1 Hh2].
    destruct (load_user m fl pos va pa off (take n s)) as (tl & Htl & E & _); [done..|lia|done|lia|lia|done|].
    assert (tl = []) as -> by (apply nil_length_inv; lia). rewrite app_nil_r in E. mstep E.
    rewrite find_nul_none by (by apply Forall_take). rewrite (proj2 (Z.ltb_ge _ _)) by lia.
    rewrite Hn. rewrite (proj2 (Z.eqb_eq _ _)) by lia. cbn [negb]. fold n.
    rewrite bool_decide_eq_false_2; [|intros Hnil; apply (f_equal length) in Hnil; rewrite length_drop in Hnil; simpl in Hnil; lia].
    rewrite Hn in Hh2. replace (va + off + Z.of_nat n) with (va + PGSIZE + 0) in Hh2 by lia.
    destruct (holds_mapped _ _ _ Hh2 (va + PGSIZE)) as [pa' Hpa']; [rewrite length_app; simpl; lia|].
    destruct (next_page m fl pos va Sp H0 ltac:(lia)) as [Ea En]. rewrite Hpa' in En.
    mstep Ea. mstep En. cbn [unwrap]. rewrite (bind_run _ _ _ pa' m) by done.
    pose proof (IH (va + PGSIZE) pa' 0 (drop n s) (drop n dst)) as E2. rewrite Z.sub_0_r in E2.
    rewrite (bind_run _ _ _ (drop n s ++ [0] ++ drop (S (length (drop n s))) (drop n dst)) m).
    + rewrite !(assoc_L (++)), take_drop, drop_drop, length_drop.
      by replace (n + S (length s - n))%nat with (S (length s)) by lia.
    + apply E2; [done|lia|by apply page_step_al|done|lia|rewrite length_drop; lia|done|by apply Forall_drop|..];
        rewrite !length_drop; lia.
Qed.

(** A page the kernel takes for itself is out of reach of the user. *)
Lemma kernel_page m z fl pos ws :
  space m (z :: fl) pos → page_ok ws →
  let m' := alloc_post m z ws fl in
  space m' fl pos ∧ unmapped m' z ∧ ram m' !! z = Some ws ∧
  ∀ va, 0 ≤ va ≤ MAXVA → pte_at m' root va = pte_at m root va.
Proof.
  intros Sp Hws m'. pose proof Sp as [K W D U]. assert (∀ q, q ≠ z → ram m' !! q = ram m !! q) as Hr
    by (intros q Hq; by apply lookup_insert_ne).
  assert (ram m' !! z = Some ws) as Hz by apply lookup_insert_eq.
  pose proof (alloc_post_kinv heap m z fl ws K Hws) as K'.
  destruct (pt_frame heap root m (z :: fl) pos m' fl W) as (W' & _ & Hpte).
  { intros q x Hq. destruct (pw_page _ _ _ _ _ _ W q x Hq) as (_ & Hnf & _).
    split; [apply Hr; set_solver|set_solver]. }
  assert (∀ va, 0 ≤ va ≤ MAXVA → user_page m' root va = user_page m root va) as Hup
    by (intros va Hva; unfold user_page; by rewrite Hpte).
  assert (∀ va p, 0 ≤ va ≤ MAXVA → user_page m root va = Some p → p ≠ z) as Hnz.
  { intros va p Hva Hp ->. destruct (space_page _ _ _ _ _ Sp Hva Hp) as (_ & _ & _ & Hnf & _). set_solver. }
  split_and!; [|intros va Hva; rewrite Hup by done; intros Hp; by eapply Hnz|done|done].
  split; [done..| |].
  - intros va p Hva. rewrite Hup by done. intros Hp. pose proof (Hnz va p Hva Hp).
    destruct (D va p Hva Hp) as (Hs & Hh & Hc & Hn). split_and!; [by rewrite Hr|done| |done].
    assert (is_page p) by (eapply kinv_page; [exact K|exact Hs]). assert (is_page z) by (eapply kinv_page; [exact K'|by eexists]).
    unfold m', alloc_post. rewrite cnt_insert by done. by rewrite decide_False.
  - intros va va' p Hva Hva'. rewrite !Hup by done. by apply U.
Qed.

(** ** The copies *)
Lemma page_start a : 0 ≤ a → 0 ≤ a - a mod PGSIZE ∧ (a - a mod PGSIZE) mod PGSIZE = 0 ∧
  0 ≤ a mod PGSIZE < PGSIZE ∧ (a - a mod PGSIZE) / PGSIZE = a / PGSIZE.
Proof.
  intros Ha. pose proof (Z.mod_pos_bound a PGSIZE ltac:(done)). pose proof (Z.div_mod a PGSIZE ltac:(done)) as Hd.
  pose proof (Z.div_pos a PGSIZE Ha ltac:(done)).
  assert (a - a mod PGSIZE = a / PGSIZE * PGSIZE) as -> by lia.
  rewrite Z.mod_mul, Z.div_mul by done. split_and!; (done || layout_lia).
Qed.
Lemma first_page m fl pos a :
  space m fl pos → 0 ≤ a ≤ MAXVA → is_Some (user_page m root a) →
  ∃ pa, pg_round_down a = a - a mod PGSIZE ∧ user_page m root (a - a mod PGSIZE) = Some pa ∧
    PageTable.pgt_translate root (a - a mod PGSIZE) m = Done (Some pa, m).
Proof.
  intros [K W _ _] Ha [pa Hpa]. destruct (page_start a) as (H1 & H2 & H3 & H4); [lia|].
  assert (user_page m root (a - a mod PGSIZE) = Some pa) as Hp by (by rewrite (user_page_vpn m _ a)).
  exists pa. split_and!; [apply pg_round_down_eq; unfold in_u; layout_lia|done|].
  rewrite <- Hp. by eapply pgt_translate_run; [| |lia].
Qed.
Lemma copy_out_run m fl pos dst src :
  space m fl pos → 0 ≤ dst → (0 < length src)%nat → dst + Z.of_nat (length src) ≤ MAXVA →
  mapped m dst (Z.of_nat (length src)) → Forall (in_u 8) src →
  ∃ m', PageTable.copy_out root dst src m = Done (Ok tt, m') ∧ space m' fl pos ∧ stored m dst src m'.
Proof.
  intros Sp H0 Hl Hmax Hm Hb. destruct (page_start dst H0) as (H1 & H2 & H3 & _).
  destruct (first_page m fl pos dst) as (pa & Er & Hpa & Et); [done|lia|apply Hm; lia|].
  unfold PageTable.copy_out. rewrite Er. mstep Et. cbn [unwrap]. rewrite (bind_run _ _ _ pa m) by done.
  replace (dst - (dst - dst mod PGSIZE)) with (dst mod PGSIZE) by lia.
  destruct (copy_out_loop_run (S (length src)) m fl pos (dst - dst mod PGSIZE) pa (dst mod PGSIZE) src)
    as (m' & E & Sp' & St); [done..|lia| |done|lia|].
  - by rewrite Z.sub_add.
  - rewrite Z.sub_add in St. exists m'. mstep E. done.
Qed.
Lemma copy_in_run m fl pos src bs :
  space m fl pos → 0 ≤ src → (0 < length bs)%nat → src + Z.of_nat (length bs) ≤ MAXVA → holds m src bs →
  PageTable.copy_in root (Z.of_nat (length bs)) src m = Done (bs, m).
Proof.
  intros Sp H0 Hl Hmax Hh. destruct (page_start src H0) as (H1 & H2 & H3 & _).
  destruct (first_page m fl pos src) as (pa & Er & Hpa & Et); [done|lia|apply (holds_mapped _ _ _ Hh); lia|].
  unfold PageTable.copy_in. rewrite Er. mstep Et. cbn [unwrap]. rewrite (bind_run _ _ _ pa m) by done.
  replace (src - (src - src mod PGSIZE)) with (src mod PGSIZE) by lia.
  eapply copy_in_loop_run; [done..|lia| |lia]. by rewrite Z.sub_add.
Qed.
Lemma copy_in_str_run m fl pos src s dst :
  space m fl pos → 0 ≤ src → src + Z.of_nat (length s) < MAXVA → holds m src (s ++ [0]) →
  Forall (λ b, b ≠ 0) s → (length s < length dst)%nat →
  PageTable.copy_in_str root dst src m = Done (s ++ [0] ++ drop (S (length s)) dst, m).
Proof.
  intros Sp H0 Hmax Hh Hs Hd. destruct (page_start src H0) as (H1 & H2 & H3 & _).
  destruct (first_page m fl pos src) as (pa & Er & Hpa & Et);
    [done|lia|apply (holds_mapped _ _ _ Hh); rewrite length_app; simpl; lia|].
  unfold PageTable.copy_in_str. rewrite Er. mstep Et. cbn [unwrap]. rewrite (bind_run _ _ _ pa m) by done.
  replace (src - (src - src mod PGSIZE)) with (src mod PGSIZE) by lia.
  eapply copy_in_str_loop_run; [done..|lia| |done|done|lia]. by rewrite Z.sub_add.
Qed.
Lemma stored_holds m a bs m' :
  0 ≤ a → a + Z.of_nat (length bs) ≤ MAXVA → stored m a bs m' → holds m' a bs.
Proof.
  intros H0 Hmax (_ & Hb & _) i b Hi. pose proof (lookup_lt_Some _ _ _ Hi). rewrite Hb, decide_True by lia.
  by replace (Z.to_nat (a + Z.of_nat i - a)) with i by lia.
Qed.
End copies.

(** C14. Copies to and from user memory. [copy_out] to a mapped range of user
    addresses, over any number of pages, succeeds: user memory then has the
    bytes in that range and is unchanged everywhere else, and so is the page
    table. [copy_in] of the range returns the bytes, and if they are a
    zero-terminated string, [copy_in_str] returns it in the front of any
    buffer that is large enough. *)
Theorem user_copy_roundtrip heap root m fl pos dst src :
  space heap root m fl pos → 0 ≤ dst → (0 < length src)%nat → dst + Z.of_nat (length src) ≤ MAXVA →
  mapped root m dst (Z.of_nat (length src)) → Forall (in_u 8) src →
  ∃ m', PageTable.copy_out root dst src m = Done (Ok tt, m') ∧ space heap root m' fl pos ∧
    (∀ va, 0 ≤ va ≤ MAXVA → pte_at m' root va = pte_at m root va) ∧
    (∀ va, 0 ≤ va ≤ MAXVA → user_byte m' root va =
       if decide (dst ≤ va < dst + Z.of_nat (length src)) then src !! Z.to_nat (va - dst)
       else user_byte m root va) ∧
    PageTable.copy_in root (Z.of_nat (length src)) dst m' = Done (src, m') ∧
    (∀ s buf, src = s ++ [0] → Forall (λ b, b ≠ 0) s → (length s < length buf)%nat →
       PageTable.copy_in_str root buf dst m' = Done (src ++ drop (length src) buf, m')).
Proof.
  intros Sp H0 Hl Hmax Hm Hb.
  destruct (copy_out_run heap root m fl pos dst src) as (m' & E & Sp' & St); [done..|].
  pose proof (stored_holds root m dst src m' H0 Hmax St) as Hh. destruct St as (Hp & Hby & _).
  exists m'. split_and!; [done..|by eapply copy_in_run|].
  intros s buf -> Hs Hbuf. rewrite length_app in Hmax. simpl in Hmax.
  rewrite (copy_in_str_run heap root m' fl pos dst s buf) by (done || lia).
  rewrite length_app. simpl. rewrite Nat.add_1_r. by rewrite <- (assoc_L (++)).
Qed.

(** ** A space of [n] pages from [va0] on, with [x] free pages left *)
Lemma grown_space va0 n x :
  (3 * n + x < 1000)%nat → va0 mod PGSIZE = 0 → 0 ≤ va0 → va0 + Z.of_nat n * PGSIZE ≤ MAXVA →
  ∃ m fl root pos, space (heap_of (S (3 * n + x))) root m fl pos ∧ (x ≤ length fl)%nat ∧
    mapped root m va0 (Z.of_nat n * PGSIZE) ∧
    ∀ va, va0 ≤ va < va0 + Z.of_nat n * PGSIZE → user_byte m root va = Some 0.
Proof.
  intros Hn Hal H0 Hmax. destruct (boot_space (3 * n + x)) as (m0 & fl0 & root & K & W & Hl & Hp); [lia|].
  destruct (ualloc_loop_run (heap_of (S (3 * n + x))) root n m0 fl0 (root_pos root) va0 0)
    as (m & fl & pos & pas & _ & K1 & W1 & _ & Hfl & Hlen & [Hnd Hpas] & Hpte);
    [done|done|done|lia|layout_lia|by intros|lia|].
  assert (∀ va, 0 ≤ va ≤ MAXVA → user_page m root va =
    if decide (in_run va0 (Z.of_nat n) va) then pas !! Z.to_nat (va / PGSIZE - va0 / PGSIZE) else None) as Hup.
  { intros va Hva. unfold user_page. rewrite Hpte by done.
    case_decide; [|by rewrite Hp]. destruct (pas !! _) as [pa|] eqn:Epa; [|done].
    destruct (Hpas pa) as (_ & _ & D & _); [by eapply list_elem_of_lookup_2|]. simpl.
    assert (is_page pa) as Hpg by (eapply kinv_page; [exact K1|apply D]). pose proof (is_page_pa_ok pa Hpg).
    assert (is_user (write_perm pa RWXU) = true) as ->
      by (rewrite is_user_bit, write_perm_bit by (done || apply RWXU_ok || lia); done).
    by rewrite write_perm_pa by (done || apply RWXU_ok). }
  pose proof (Z.div_mod va0 PGSIZE ltac:(done)) as Hd0. rewrite Hal in Hd0.
  assert (∀ va, va0 ≤ va < va0 + Z.of_nat n * PGSIZE → ∃ pa, user_page m root va = Some pa ∧ pa ∈ pas) as Hmap.
  { intros va Hva. assert (va0 / PGSIZE ≤ va / PGSIZE < va0 / PGSIZE + Z.of_nat n) as Hr.
    { split; [apply Z.div_le_lower_bound; [done|lia]|apply Z.div_lt_upper_bound; [done|lia]]. }
    rewrite Hup by lia. rewrite decide_True by (unfold in_run; lia).
    destruct (lookup_lt_is_Some_2 pas (Z.to_nat (va / PGSIZE - va0 / PGSIZE))) as [pa Hpa]; [lia|].
    exists pa. split; [done|]. by eapply list_elem_of_lookup_2. }
  exists m, fl, root, pos. split_and!.
  - split; [done..| |].
    + intros va p Hva. rewrite Hup by done. case_decide; [|done]. intros Hpa.
      destruct (Hpas p) as (_ & _ & D & _); [by eapply list_elem_of_lookup_2|done].
    + intros va va' p Hva Hva'. rewrite !Hup by done. unfold in_run. repeat case_decide; try done. intros Hi Hi'.
      pose proof (NoDup_lookup _ _ _ _ Hnd Hi Hi'). lia.
  - lia.
  - intros va Hva. destruct (Hmap va) as (pa & Hpa & _); [lia|]. by eexists.
  - intros va Hva. destruct (Hmap va Hva) as (pa & Hpa & Hin). unfold user_byte, byte_in. rewrite Hpa. simpl.
    destruct (Hpas pa Hin) as (_ & _ & _ & _ & ->). cbn [mbind option_bind].
    assert (page_bytes zero_page = replicate 4096 0) as -> by (by vm_compute).
    apply lookup_replicate. split; [done|]. pose proof (Z.mod_pos_bound va PGSIZE ltac:(done)). layout_lia.
Qed.
(** A string across the boundary of two pages. *)
Lemma user_copy_roundtrip_witness :
  ∃ root m m', PageTable.copy_out root 4094 [104; 101; 108; 108; 111; 0] m = Done (Ok tt, m') ∧
    user_byte m' root 4093 = Some 0 ∧ user_byte m' root 4098 = Some 111 ∧
    PageTable.copy_in_str root (replicate 128 7) 4094 m' =
      Done ([104; 101; 108; 108; 111; 0] ++ replicate 122 7, m').
Proof.
  destruct (grown_space 0 2 0) as (m & fl & root & pos & Sp & _ & Hm & Hz); [lia|done|done|layout_lia|].
  destruct (user_copy_roundtrip _ root m fl pos 4094 [104; 101; 108; 108; 111; 0] Sp)
    as (m' & E & _ & _ & Hb & _ & Hs); [lia|simpl; lia|simpl length; layout_lia| | |].
  - intros va Hva. apply Hm. simpl in Hva. layout_lia.
  - repeat constructor; unfold in_u; lia.
  - exists root, m, m'. split_and!; [done| | |].
    + rewrite Hb, decide_False by (simpl length; layout_lia). apply Hz. layout_lia.
    + by rewrite Hb, decide_True by (simpl length; layout_lia).
    + apply (Hs [104; 101; 108; 108; 111] (replicate 128 7)); [done|repeat constructor; lia|simpl; lia].
Defined.
