(* ===== verification/Elf.v ===== *)
(** * Loading programs

    [process/elf.rs] and [sys_exec] of [syscall/file.rs]. The structures that
    are read from the file are their bytes, decoded field by field. The page
    table being built is dropped where the source drops its box, and the inode
    last. *)
From S2P Require Import Layout.
From S2P Require Import Pte.
From S2P Require Import Kalloc.
From S2P Require Import PageTable.
From S2P Require Import Bcache.
From S2P Require Import Log.
From S2P Require Import Fs.
From S2P Require Import Icache.
From S2P Require Import Prelude.
From S2P Require Import Proc.
From S2P Require Import File.
From S2P Require Import SysFile.

Definition ELF_MAGIC : Z := 0x464C457F.
Definition ELF_PROG_LOAD : Z := 1.
Record ElfHeader := mkElf { magic : Z; entry : Z; phoff : Z; phnum : Z }.
Record ProgHeader := mkProg {
  prog_type : Z; poff : Z; vaddr : Z; file_size : Z; mem_size : Z
}.
(** [n] bytes of a structure at offset [off], as an integer. *)
Definition field (bs : list Z) (off n : nat) : Z := le_word (take n (drop off bs)).
Module ElfHeader.
Definition size : Z := 64.
(** The fields that are used. *)
Definition of_bytes (bs : list Z) : ElfHeader :=
  mkElf (field bs 0 4) (field bs 24 8) (field bs 32 8) (field bs 56 2).
End ElfHeader.
Module ProgHeader.
Definition size : Z := 56.
Definition of_bytes (bs : list Z) : ProgHeader :=
  mkProg (field bs 0 4) (field bs 8 8) (field bs 16 8) (field bs 32 8) (field bs 40 8).
End ProgHeader.

Definition align_sp (sp : Z) : Z := sp - sp mod 16.

(** [str::from_utf8(bs).is_ok()] *)
Definition cont (b : Z) : bool := (128 <=? b) && (b <? 192).
Definition between (l b h : Z) : bool := (l <=? b) && (b <=? h).
Fixpoint utf8 (bs : list Z) : bool :=
  match bs with
  | [] => true
  | a :: bs1 =>
    if a <? 128 then utf8 bs1 else
    match bs1 with
    | b :: bs2 =>
      if between 0xC2 a 0xDF then cont b && utf8 bs2 else
      match bs2 with
      | c :: bs3 =>
        if between 0xE0 a 0xEF then
          (if a =? 0xE0 then between 0xA0 b 0xBF else if a =? 0xED then between 0x80 b 0x9F else cont b)
          && cont c && utf8 bs3
        else
        match bs3 with
        | d :: bs4 =>
          between 0xF0 a 0xF4 &&
          (if a =? 0xF0 then between 0x90 b 0xBF else if a =? 0xF4 then between 0x80 b 0x8F else cont b)
          && cont c && cont d && utf8 bs4
        | [] => false
        end
      | [] => false
      end
    | [] => false
    end
  end.

(** ** The user stack

    [argv] has the pages that hold the arguments, and then a null pointer. *)
Definition stack_base : Z := USTACK_BASE.
(** The string in page [a], with its terminator. *)
Definition arg_string (a : Z) : M mem (list Z) :=
  ws ← read_page a;
  match PageTable.find_nul (page_bytes ws) with
  | Some n => mret (take (Z.to_nat (n + 1)) (page_bytes ws))
  | None => fault
  end.
Fixpoint push_args (fuel : nat) (pgt : Z) (argv : list Z) (argc : nat) (sp : Z) (user_stack : list Z)
    : M mem (result (nat * Z * list Z)) :=
  match fuel with
  | O => hang
  | S fuel' =>
    a ← unwrap (argv !! argc) oob;
    if a =? 0 then mret (Ok (argc, sp, user_stack)) else
    if MAXARG <=? Z.of_nat argc then mret (Err "exec: argc is more than MAXARG") else
    src ← arg_string a;
    sp' ← usub 64 sp (Z.of_nat (length src));
    let sp' := align_sp sp' in
    if sp' <? stack_base then mret (Err "exec: User stack Bomb!") else
    r ← PageTable.copy_out pgt sp' src;
    match r with
    | Err _ => mret (Err "exec: Fail to copy out")
    | Ok _ => push_args fuel' pgt argv (S argc) sp' (<[argc := sp']> user_stack)
    end
  end.
Definition build_stack (pgt : Z) (argv : list Z) : M mem (result (Z * Z)) :=
  r ← push_args (S (length argv)) pgt argv 0 (USTACK_BASE + USTACK_SIZE) (replicate (Z.to_nat MAXARG) 0);
  match r with
  | Err e => mret (Err e)
  | Ok (argc, sp, user_stack) =>
    if (length user_stack <=? argc)%nat then panic oob else
    let user_stack := <[argc := 0]> user_stack in
    sp ← usub 64 sp (Z.of_nat (argc + 1) * 8);
    let sp := align_sp sp in
    if sp <? stack_base then mret (Err "exec: Too Many arguments (exceed user stack)") else
    r ← PageTable.copy_out pgt sp (take (argc + 1) user_stack ≫= le_bytes 8);
    match r with
    | Err _ => mret (Err "Exec: Fail to copy out.")
    | Ok _ => mret (Ok (Z.of_nat argc, sp))
    end
  end.

Section exec.
Context {D S : Type} `{!BlockDev D} (dv : Z) `{!BufferCache D S dv} `{!BitField} `{!Symbols}.
Abbreviation K := (M (kst (filest S))).
Abbreviation on_fs i := (File.on_fs (Some i)).
Abbreviation begin_op := (File.on_log Log.begin_op).
Abbreviation end_op := (File.on_log (Log.end_op dv)).

(** [ig.read(false, buf, off, n)] into the structure [buf]. *)
Definition read_into (i : nat) (ip : Inode) (buf : list Z) (off : Z) : K (result (list Z)) :=
  r ← on_fs i (iread dv (index ip) Kernel 0 (wrap 32 off) (Z.of_nat (length buf)));
  mret (match r with Err e => Err e | Ok bs => Ok (bs ++ drop (length bs) buf) end).

Fixpoint load_seg_loop (fuel : nat) (i : nat) (pgt va : Z) (ip : Inode) (offset size copy_size : Z)
    : K (result unit) :=
  if size <=? copy_size then mret (Ok tt) else
  match fuel with
  | O => hang
  | Datatypes.S fuel' =>
    t ← on_mem (PageTable.pgt_translate pgt va);
    match t with
    | None => panic "load_seg: Fail to read inode."
    | Some pa =>
      let count := if size - copy_size <? PGSIZE then size - copy_size else PGSIZE in
      o ← uadd 64 offset copy_size;
      r ← on_fs i (iread dv (index ip) Kernel pa (wrap 32 o) (wrap 32 count));
      match r with
      | Err e => mret (Err e)
      | Ok bs =>
        on_mem (PageTable.store_bytes pa 0 bs) ;;
        copy_size ← uadd 64 copy_size PGSIZE;
        va ← Addr.add_page va;
        load_seg_loop fuel' i pgt va ip offset size copy_size
      end
    end
  end.
Definition load_seg (i : nat) (pgt va : Z) (ip : Inode) (offset size : Z) : K (result unit) :=
  if negb (va mod PGSIZE =? 0) then panic "load seg: va must be page aligned." else
  load_seg_loop (Datatypes.S (Z.to_nat (size / PGSIZE))) i pgt va ip offset size 0.

(** The end of a failed call while the inode is locked; [free] is the size of
    the memory given back, if any. *)
Definition load_fail {A} (i : nat) (ip : Inode) (pgt : Z) (free : option Z) (msg : string) : K (result A) :=
  when_some free (λ size, on_mem (PageTable.proc_free_pagetable pgt size)) ;;
  on_fs i (Icache.iunlock ip) ;;
  end_op ;;
  mret (Err msg).
(** The segments, [n] headers from [off] on; [ph] is the header buffer. *)
Fixpoint load_segs (n : nat) (i : nat) (ip : Inode) (pgt off size : Z) (ph : list Z) : K (result Z) :=
  match n with
  | O => mret (Ok size)
  | Datatypes.S n' =>
    r ← read_into i ip ph off;
    match r with
    | Err _ => load_fail i ip pgt None "exec: Fail to read from inode"
    | Ok ph =>
      let p := ProgHeader.of_bytes ph in
      if negb (prog_type p =? ELF_PROG_LOAD)
      then off ← uadd 64 off ProgHeader.size; load_segs n' i ip pgt off size ph else
      if mem_size p <? file_size p
      then load_fail i ip pgt (Some size) "exec: memory size is less than file size." else
      if 2 ^ 64 <=? vaddr p + mem_size p
      then load_fail i ip pgt (Some size) "exec: vaddr + memsize < vaddr" else
      sz ← on_mem (PageTable.ualloc pgt size (vaddr p + mem_size p));
      match sz with
      | None => load_fail i ip pgt (Some size) "exec: Fail to ualloc"
      | Some size =>
        if negb (vaddr p mod PGSIZE =? 0)
        then load_fail i ip pgt (Some size) "Exec: Program header must be integer multiple of PGSIZE." else
        r ← load_seg i pgt (vaddr p) ip (poff p) (file_size p);
        match r with
        | Err _ => load_fail i ip pgt (Some size) "exec: Fail to load segment"
        | Ok _ => off ← uadd 64 off ProgHeader.size; load_segs n' i ip pgt off size ph
        end
      end
    end
  end.

(** The new image is complete: it replaces the old one. *)
Definition exec_install (i : nat) (path : list Z) (elf : ElfHeader) (pgt size old_size sp : Z) : K unit :=
  d ← data_at i;
  on_mem (write_word (trapframe d + TF_AX + 8) sp) ;;
  put_data i (ProcData.set_pagetable (ProcData.set_name d path) (Some pgt)) ;;
  when_some (pagetable d) (λ old, on_mem (PageTable.proc_free_pagetable old old_size ;;
    PageTable.drop_box 3 old)) ;;
  d ← data_at i;
  put_data i (ProcData.set_size d size) ;;
  on_mem (write_word (trapframe d + TF_EPC) (entry elf)) ;;
  on_mem (write_word (trapframe d + TF_SP) sp).
(** The stack, and the installation. *)
Definition exec_stack (i : nat) (path : list Z) (argv : list Z) (elf : ElfHeader) (pgt size old_size : Z)
    : K (result Z) :=
  ok ← on_mem (PageTable.ualloc_stack pgt);
  if negb ok then on_mem (PageTable.proc_free_pagetable pgt size) ;; mret (Err "exec: Fail to ualloc stack") else
  r ← on_mem (build_stack pgt argv);
  match r with
  | Err e => on_mem (PageTable.proc_free_pagetable pgt size) ;; mret (Err e)
  | Ok (argc, sp) => exec_install i path elf pgt size old_size sp ;; mret (Ok argc)
  end.
Definition exec_inode (i : nat) (ip : Inode) (path argv : list Z) : K (result Z) :=
  on_fs i (Icache.ilock dv ip) ;;
  r ← read_into i ip (replicate (Z.to_nat ElfHeader.size) 0) 0;
  match r with
  | Err _ => on_fs i (Icache.iunlock ip) ;; end_op ;; mret (Err "exec: Failed to read elf header.")
  | Ok bs =>
    let elf := ElfHeader.of_bytes bs in
    if negb (magic elf =? ELF_MAGIC)
    then on_fs i (Icache.iunlock ip) ;; end_op ;; mret (Err "exec: Elf magic number is wrong") else
    d ← data_at i;
    let old_size := psize d in
    p ← proc_pagetable i;
    pgt ← unwrap p "exec: Fail to alloc pagetable for current process.";
    r ← load_segs (Z.to_nat (phnum elf)) i ip pgt (phoff elf) 0 (replicate (Z.to_nat ProgHeader.size) 0);
    r ← match r with
        | Err e => mret (Err e)
        | Ok size =>
          on_fs i (Icache.iunlock ip) ;;
          end_op ;;
          size ← page_round_up size;
          exec_stack i path argv elf pgt size old_size
        end;
    match r with
    | Err e => on_mem (PageTable.drop_box 3 pgt) ;; mret (Err e)
    | Ok argc => mret (Ok argc)
    end
  end.
Definition exec (i : nat) (path argv : list Z) : K (result Z) :=
  begin_op ;;
  r ← on_fs i (Icache.namei dv path);
  match r with
  | None => mret (Err "Fail to find executable file")
  | Some ip =>
    r ← exec_inode i ip path argv;
    on_fs i (Icache.put dv ip) ;;
    mret r
  end.

(** ** The system call *)
Definition drop_argv (argv : list Z) : K unit :=
  for_each argv (λ a, if a =? 0 then mret tt else on_mem (drop_page a)).
Fixpoint exec_args (fuel : nat) (i : nat) (argv_addr : Z) (count : nat) (argv : list Z) : K (option (list Z)) :=
  if (length argv <=? count)%nat then drop_argv argv ;; mret None else
  match fuel with
  | O => hang
  | Datatypes.S fuel' =>
    a ← uadd 64 argv_addr (Z.of_nat count * 8);
    buf ← copy_from_addr i a 8;
    let user_arg := le_word buf in
    if user_arg =? 0 then mret (Some (<[count := 0]> argv)) else
    mem ← on_mem new_zeroed;
    s ← copy_from_str i user_arg (replicate (Z.to_nat PGSIZE) 0);
    on_mem (write_page mem (bytes_page s)) ;;
    exec_args fuel' i argv_addr (Datatypes.S count) (<[count := mem]> argv)
  end.
Definition sys_exec (i : nat) : K (option Z) :=
  path_addr ← arg i 0;
  path ← copy_from_str i path_addr path0;
  argv_addr ← arg i 1;
  r ← exec_args (Datatypes.S (Z.to_nat MAXARG)) i argv_addr 0 (replicate (Z.to_nat MAXARG) 0);
  match r with
  | None => mret None
  | Some argv =>
    if negb (utf8 path) then panic "called `Result::unwrap()` on an `Err` value" else
    r ← exec i path argv;
    match r with
    | Err _ => mret None
    | Ok argc => drop_argv argv ;; mret (Some argc)
    end
  end.
End exec.
