(* ===== verification/ElfSpec.v ===== *)
(** * Loading programs: the arguments of the new program

    What [build_stack] leaves in the memory of the program: the strings of
    the arguments, below each other on its stack, and under them the array
    of pointers to them. *)
From S2P Require Import Layout.
From S2P Require Import Pte.
From S2P Require Import Kalloc.
From S2P Require Import PageTable.
From S2P Require Import PageTableFacts.
From S2P Require Import UserSpace.
From S2P Require Import Fs.
From S2P Require Import FsFile.
From S2P Require Import UserCopy.
From S2P Require Import Prelude.
From S2P Require Import Proc.
From S2P Require Import Elf.

(** ** Where the arguments go *)
Definition push_sp (sp : Z) (s : list Z) : Z := align_sp (sp - Z.of_nat (length s + 1)).
Fixpoint arg_sps (sp : Z) (strs : list (list Z)) : list Z :=
  match strs with [] => [] | s :: strs' => push_sp sp s :: arg_sps (push_sp sp s) strs' end.
(** The stack pointer after the strings. *)
Definition last_sp (sp : Z) (strs : list (list Z)) : Z := foldl push_sp sp strs.
(** The bytes of the pointers, with the null pointer at the end. *)
Definition pointers (sps : list Z) : list Z := (sps ++ [0]) ≫= le_bytes 8.
Definition top : Z := USTACK_BASE + USTACK_SIZE.
Definition final_sp (strs : list (list Z)) : Z :=
  align_sp (last_sp top strs - Z.of_nat (length strs + 1) * 8).

Lemma align_sp_le sp : align_sp sp ≤ sp ∧ sp - 16 < align_sp sp ∧ align_sp sp mod 16 = 0.
Proof.
  unfold align_sp. pose proof (Z.mod_pos_bound sp 16 ltac:(done)) as Hm.
  split_and!; [lia|lia|]. rewrite Zminus_mod_idemp_r. by rewrite Z.sub_diag.
Qed.
Lemma push_sp_lt sp s : push_sp sp s + Z.of_nat (length s + 1) ≤ sp.
Proof. unfold push_sp. pose proof (align_sp_le (sp - Z.of_nat (length s + 1))). lia. Qed.
Lemma last_sp_le strs : ∀ sp, last_sp sp strs ≤ sp.
Proof.
  induction strs as [|s strs IH]; intros sp; simpl; [done|].
  specialize (IH (push_sp sp s)). pose proof (push_sp_lt sp s). unfold last_sp in *. lia.
Qed.
Lemma length_arg_sps strs : ∀ sp, length (arg_sps sp strs) = length strs.
Proof. induction strs; intros sp; simpl; auto. Qed.
Lemma arg_sps_range strs : ∀ sp k a,
  arg_sps sp strs !! k = Some a → last_sp sp strs ≤ a ≤ sp.
Proof.
  induction strs as [|s strs IH]; intros sp k a; [done|]. simpl.
  pose proof (push_sp_lt sp s). pose proof (last_sp_le strs (push_sp sp s)) as Hl. unfold last_sp in *. simpl.
  destruct k as [|k]; simpl; [intros [= <-]; lia|]. intros Hk%IH. lia.
Qed.

Lemma arg_sps_top strs : ∀ sp k s a,
  strs !! k = Some s → arg_sps sp strs !! k = Some a → a + Z.of_nat (length s + 1) ≤ sp.
Proof.
  induction strs as [|s strs IH]; intros sp k s' a; [done|]. simpl. pose proof (push_sp_lt sp s).
  destruct k as [|k]; simpl; [intros [= <-] [= <-]; lia|]. intros Hk Hk'. specialize (IH _ _ _ _ Hk Hk'). lia.
Qed.

Section args.
Context (heap root : Z) (fl : list Z) (pos : gmap Z (nat * Z)).
Implicit Types (m : mem) (s : list Z) (strs : list (list Z)).
Abbreviation sp_ok m := (space heap root m fl pos).

(** The pages [argv] points to hold the strings, out of reach of the user. *)
Definition arg_page m (a : Z) s : Prop :=
  a ≠ 0 ∧ unmapped root m a ∧
  ∃ ws tl, ram m !! a = Some ws ∧ page_ok ws ∧ page_bytes ws = s ++ 0 :: tl ∧ Forall (λ b, b ≠ 0) s.
Definition args_from m (argv : list Z) (argc : nat) strs : Prop :=
  argv !! (argc + length strs)%nat = Some 0 ∧
  ∀ k s, strs !! k = Some s → ∃ a, argv !! (argc + k)%nat = Some a ∧ arg_page m a s.
(** User memory has changed in [[lo, hi)] at most. *)
Definition kept m (lo hi : Z) m' : Prop :=
  (∀ va, 0 ≤ va ≤ MAXVA → pte_at m' root va = pte_at m root va) ∧
  (∀ va, 0 ≤ va ≤ MAXVA → va < lo ∨ hi ≤ va → user_byte m' root va = user_byte m root va) ∧
  (∀ q, unmapped root m q → ram m' !! q = ram m !! q).
Lemma kept_refl m lo hi : kept m lo hi m.
Proof. done. Qed.
Lemma kept_trans m1 m2 m3 lo mid hi :
  lo ≤ mid ≤ hi → kept m1 mid hi m2 → kept m2 lo mid m3 → kept m1 lo hi m3.
Proof.
  intros Hm (Hp1 & Hb1 & Hr1) (Hp2 & Hb2 & Hr2). split_and!.
  - intros va Hva. by rewrite Hp2, Hp1.
  - intros va Hva Ho. rewrite Hb2, Hb1; [done|done|lia|done|lia].
  - intros q Hq. rewrite Hr2, Hr1; [done|done|]. by eapply unmapped_same.
Qed.
Lemma stored_kept m a bs m' lo hi :
  lo ≤ a → a + Z.of_nat (length bs) ≤ hi → stored root m a bs m' → kept m lo hi m'.
Proof.
  intros Hlo Hhi (Hp & Hb & Hr). split_and!; [done| |done]. intros va Hva Ho.
  rewrite Hb by done. rewrite decide_False by lia. done.
Qed.
Lemma kept_mapped m lo hi m' a n :
  0 ≤ a → a + n ≤ MAXVA → kept m lo hi m' → mapped root m a n → mapped root m' a n.
Proof.
  intros H0 Hm (Hp & _) Hmap va Hva. rewrite (user_page_same root m m') by (apply Hp; lia). by apply Hmap.
Qed.
Lemma kept_holds m lo hi m' a bs :
  0 ≤ a → a + Z.of_nat (length bs) ≤ MAXVA → a + Z.of_nat (length bs) ≤ lo ∨ hi ≤ a →
  kept m lo hi m' → holds root m a bs → holds root m' a bs.
Proof.
  intros H0 Hm Ho (_ & Hb & _) Hh i b Hi. pose proof (lookup_lt_Some _ _ _ Hi).
  rewrite Hb by lia. by apply Hh.
Qed.
Lemma kept_arg m lo hi m' a s : kept m lo hi m' → arg_page m a s → arg_page m' a s.
Proof.
  intros (Hp & _ & Hr) (H0 & Hu & ws & tl & Hws & Hok & Hb & Hs). split_and!; [done|by eapply unmapped_same|].
  exists ws, tl. by rewrite Hr.
Qed.
Lemma args_cons m lo hi m' argv argc s strs :
  kept m lo hi m' → args_from m argv argc (s :: strs) → args_from m' argv (S argc) strs.
Proof.
  intros Hk [H0 Ha]. split; [by rewrite Nat.add_succ_comm|]. intros k s' Hs'.
  destruct (Ha (S k) s' Hs') as (a & Hla & Hpa). exists a. rewrite Nat.add_succ_comm.
  split; [done|]. by eapply kept_arg.
Qed.
Lemma arg_string_run m a s :
  arg_page m a s → arg_string a m = Done (s ++ [0], m) ∧ Forall (in_u 8) (s ++ [0]).
Proof.
  intros (_ & _ & ws & tl & Hws & Hok & Hb & Hs). split.
  - unfold arg_string. rewrite (bind_run _ _ _ ws m) by (unfold read_page; by rewrite Hws).
    rewrite Hb, find_nul_app by done. unfold mret, M_ret. do 2 f_equal.
    change (s ++ 0 :: tl) with (s ++ [0] ++ tl). rewrite (assoc_L (++)).
    rewrite take_app_length'; [done|]. rewrite length_app. simpl. lia.
  - pose proof (page_bytes_range ws Hok) as Hr. rewrite Hb in Hr. apply Forall_app in Hr as [? Hr].
    apply Forall_app. split; [done|]. by repeat constructor.
Qed.

(** ** Pushing *)
Definition stack_mapped m : Prop := mapped root m USTACK_BASE USTACK_SIZE.
(** One string, if there is room. *)
Lemma push_one m sp s :
  sp_ok m → stack_mapped m → stack_base ≤ push_sp sp s → sp ≤ top → Forall (in_u 8) (s ++ [0]) →
  ∃ m', PageTable.copy_out root (push_sp sp s) (s ++ [0]) m = Done (Ok tt, m') ∧ sp_ok m' ∧
    stack_mapped m' ∧ kept m (push_sp sp s) sp m' ∧ holds root m' (push_sp sp s) (s ++ [0]).
Proof.
  intros Sp Hm Hb Ht Hs. pose proof (push_sp_lt sp s) as Hlt.
  assert (length (s ++ [0]) = (length s + 1)%nat) as Hl by (rewrite length_app; done).
  assert (top < MAXVA ∧ 0 ≤ stack_base) as [HtM H0] by (by vm_compute).
  destruct (copy_out_run heap root m fl pos (push_sp sp s) (s ++ [0])) as (m' & E & Sp' & St);
    [done|lia|lia|lia| |done|].
  - intros va Hva. apply Hm. unfold stack_base, top in *. lia.
  - assert (kept m (push_sp sp s) sp m') as Hk by (eapply stored_kept; [| |exact St]; lia).
    exists m'. split_and!; [done|done| |done|].
    + eapply kept_mapped; [| |exact Hk|exact Hm]; by vm_compute.
    + eapply stored_holds; [| |exact St]; lia.
Qed.

Lemma push_args_run argv : ∀ strs fuel m argc sp us,
  sp_ok m → stack_mapped m → stack_base ≤ sp → sp ≤ top → args_from m argv argc strs →
  (argc + length strs < Z.to_nat MAXARG)%nat → (length strs < fuel)%nat →
  (stack_base ≤ last_sp sp strs → ∃ m' us',
     push_args fuel root argv argc sp us m = Done (Ok ((argc + length strs)%nat, last_sp sp strs, us'), m') ∧
     length us' = length us ∧
     (∀ j, us' !! j = if decide (argc ≤ j < argc + length strs)%nat
                      then if decide (j < length us)%nat then arg_sps sp strs !! (j - argc)%nat else None
                      else us !! j) ∧
     sp_ok m' ∧ stack_mapped m' ∧ kept m (last_sp sp strs) sp m' ∧
     ∀ k s a, strs !! k = Some s → arg_sps sp strs !! k = Some a → holds root m' a (s ++ [0])) ∧
  (last_sp sp strs < stack_base → ∃ e m', push_args fuel root argv argc sp us m = Done (Err e, m')).
Proof.
  assert (top < MAXVA ∧ 0 ≤ stack_base ∧ 2 ^ 20 < stack_base) as (HtM & H0 & H20) by (by vm_compute).
  induction strs as [|s strs IH]; intros fuel m argc sp us Sp Hm Hb Ht Ha Hmax Hf;
    (destruct fuel as [|fuel]; [simpl in Hf; lia|]); cbn [push_args].
  { destruct Ha as [Ha _]. simpl length in *. rewrite Nat.add_0_r in *. rewrite Ha. cbn [unwrap].
    rewrite (bind_run _ _ _ 0 m) by done. split; [|unfold last_sp; simpl; lia]. intros _.
    exists m, us. split_and!; try done. intros j. by rewrite decide_False by lia. }
  destruct (proj2 Ha 0%nat s eq_refl) as (a & Hla & Hpa). rewrite Nat.add_0_r in Hla. simpl length in *.
  rewrite Hla. cbn [unwrap]. rewrite (bind_run _ _ _ a m) by done.
  rewrite (proj2 (Z.eqb_neq a 0)) by apply Hpa. rewrite (proj2 (Z.leb_gt _ _)) by lia.
  destruct (arg_string_run m a s Hpa) as [Es Hs8]. mstep Es.
  assert (length (s ++ [0]) = (length s + 1)%nat) as Hl by (rewrite length_app; done).
  assert (Z.of_nat (length s + 1) ≤ PGSIZE) as Hsl.
  { destruct Hpa as (_ & _ & ws & tl & _ & Hok & Hby & _). pose proof (length_page_bytes ws Hok) as Hlb.
    rewrite Hby, length_app in Hlb. simpl in Hlb. lia. }
  unfold usub. rewrite (proj2 (Z.leb_le _ _)) by layout_lia. rewrite (bind_run _ _ _ (sp - Z.of_nat (length s + 1)) m)
    by (by rewrite Hl).
  fold (push_sp sp s). pose proof (push_sp_lt sp s) as Hlt. pose proof (last_sp_le strs (push_sp sp s)) as Hle.
  change (last_sp sp (s :: strs)) with (last_sp (push_sp sp s) strs).
  destruct (Z.ltb_spec (push_sp sp s) stack_base) as [Hlow|Hroom].
  { split; [lia|]. intros _. by eexists _, _. }
  destruct (push_one m sp s) as (m1 & E1 & Sp1 & Hm1 & Hk1 & Hh1); [done..|]. mstep E1.
  destruct (IH fuel m1 (S argc) (push_sp sp s) (<[argc := push_sp sp s]> us)) as [IHok IHerr];
    [done|done|done|lia|by eapply args_cons|lia|lia|].
  split; [|exact IHerr]. intros Hfin. destruct (IHok Hfin) as (m2 & us' & E2 & Hlu & Hus & Sp2 & Hm2 & Hk2 & Hh2).
  exists m2, us'. rewrite E2, Nat.add_succ_comm. rewrite length_insert in Hlu, Hus. split_and!; try done.
  - intros j. rewrite Hus. destruct (decide (j = argc)) as [->|Hj].
    + rewrite decide_False by lia. rewrite decide_True by lia. rewrite Nat.sub_diag. simpl.
      case_decide; [by apply list_lookup_insert_eq|]. apply lookup_ge_None. rewrite length_insert. lia.
    + rewrite list_lookup_insert_ne by done.
      destruct (decide (S argc ≤ j < S argc + length strs)%nat); [rewrite (decide_True (P := (_ ∧ _))) by lia|by rewrite decide_False by lia].
      case_decide; [|done]. replace (j - argc)%nat with (S (j - S argc))%nat by lia. done.
  - eapply kept_trans; [|exact Hk1|exact Hk2]. lia.
  - intros [|k] s' a'; simpl; [|apply Hh2]. intros [= <-] [= <-].
    eapply kept_holds; [| | |exact Hk2|exact Hh1]; rewrite ?Hl; lia.
Qed.
End args.

Lemma length_pointers sps : length (pointers sps) = (8 * (length sps + 1))%nat.
Proof.
  unfold pointers. assert (∀ l : list Z, length (l ≫= le_bytes 8) = (8 * length l)%nat) as Hl.
  { induction l as [|x l IH]; [done|]. rewrite bind_cons, length_app, IH, length_le_bytes. simpl. lia. }
  by rewrite Hl, length_app.
Qed.
Lemma pointers_range sps : Forall (λ a, 0 ≤ a) sps → Forall (in_u 8) (pointers sps).
Proof.
  intros Hs. unfold pointers. assert (Forall (λ a, 0 ≤ a) (sps ++ [0])) as Hl by (apply Forall_app; by repeat constructor).
  induction Hl as [|x l Hx _ IH]; [constructor|]. rewrite bind_cons.
  apply Forall_app_2; [by apply le_bytes_range|done].
Qed.
(** The array of pointers, as [push_args] leaves it. *)
Lemma pointer_array us us' sps :
  length us = Z.to_nat MAXARG → length us' = length us → (length sps < Z.to_nat MAXARG)%nat →
  (∀ j, us' !! j = if decide (0 ≤ j < 0 + length sps)%nat
                   then if decide (j < length us)%nat then sps !! (j - 0)%nat else None else us !! j) →
  take (length sps + 1) (<[length sps := 0]> us') = sps ++ [0].
Proof.
  intros Hl Hl' Hs Hus. apply list_eq. intros j. destruct (decide (j < length sps)%nat) as [Hj|Hj].
  - rewrite lookup_take_lt, list_lookup_insert_ne, Hus, lookup_app_l by lia.
    rewrite !decide_True by lia. by rewrite Nat.sub_0_r.
  - destruct (decide (j = length sps)) as [->|Hn].
    + rewrite lookup_take_lt by lia. rewrite list_lookup_insert_eq by lia.
      rewrite lookup_app_r by lia. by rewrite Nat.sub_diag.
    + rewrite !lookup_ge_None_2; [done|rewrite length_app; simpl; lia|rewrite length_take; lia].
Qed.


(** ** [echo hi] *)
Definition echo : list Z := [101; 99; 104; 111].
Definition hi : list Z := [104; 105].
Definition string_page (s : list Z) : list Z := bytes_page (s ++ replicate (Z.to_nat PGSIZE - length s) 0).
Lemma string_page_ok s :
  (length s < Z.to_nat PGSIZE)%nat → Forall (in_u 8) s →
  page_ok (string_page s) ∧ ∃ tl, page_bytes (string_page s) = s ++ 0 :: tl.
Proof.
  intros Hl Hs. assert (length (s ++ replicate (Z.to_nat PGSIZE - length s) 0) = Z.to_nat PGSIZE) as Hl'
    by (rewrite length_app, length_replicate; lia).
  assert (Forall (in_u 8) (s ++ replicate (Z.to_nat PGSIZE - length s) 0)) as Hs'
    by (apply Forall_app_2; [done|by apply Forall_replicate]).
  split; [by apply bytes_page_ok|]. unfold string_page. rewrite page_bytes_page by done.
  replace (Z.to_nat PGSIZE - length s)%nat with (S (Z.to_nat PGSIZE - length s - 1)) by lia. by eexists.
Qed.
