(* ===== verification/Syscall.v ===== *)
(** * System calls

    [syscall/mod.rs]: the number of the call selects the function, and its
    result goes to register [a0] of the caller; [sys_sleep] of
    [syscall/proc.rs]. The process layer runs on the file layer through
    [file_ops]. *)
From S2P Require Import Layout.
From S2P Require Import Kalloc.
From S2P Require Import PageTable.
From S2P Require Import Bcache.
From S2P Require Import Fs.
From S2P Require Import Pipe.
From S2P Require Import Prelude.
From S2P Require Import Spin.
From S2P Require Import Proc.
From S2P Require Import File.
From S2P Require Import SysFile.
From S2P Require Import Elf.

Inductive SyscallNum :=
  | SysFork | SysExit | SysWait | SysPipe | SysRead | SysKill | SysExec | SysFstat | SysChdir | SysDup
  | SysGetPid | SysSbrk | SysSleep | SysUptime | SysOpen | SysWrite | SysMknod | SysUnlink | SysLink
  | SysMkdir | SysClose | Unknown.
(** The calls in the order of their numbers, from 1. *)
Definition numbered : list SyscallNum :=
  [SysFork; SysExit; SysWait; SysPipe; SysRead; SysKill; SysExec; SysFstat; SysChdir; SysDup; SysGetPid;
   SysSbrk; SysSleep; SysUptime; SysOpen; SysWrite; SysMknod; SysUnlink; SysLink; SysMkdir; SysClose].
Definition from_primitive (n : Z) : SyscallNum :=
  if n <=? 0 then Unknown else default Unknown (numbered !! Z.to_nat (n - 1)).

Section syscall.
Context {D S : Type} `{!BlockDev D} (dv : Z) `{!BufferCache D S dv} `{!BitField} `{!Symbols}.
Context (pipe_chan : Z → Pipe.chan → Z) (con_chan uart_chan arc_size : Z).
Context (panicked : bool) (lsr : nat → bool).
Abbreviation K := (M (kst (filest S))).
#[local] Instance ops : FileOps (filest S) := file_ops dv pipe_chan arc_size.

(** One turn of the loop of [sys_sleep], which holds the lock of the ticks;
    [now] is the time the call began. *)
Definition sleep_round (h : nat) (now span : Z) : K wres :=
  k ← get;
  passed ← usub 64 (ticks k) now;
  if passed <? span then
    p ← on_mach (myproc h);
    i ← unwrap p "Failed to get my process";
    b ← get_killed h i;
    if (b : bool) then unlock h LTicks ;; mret (Returned None) else
    intena0 ← sleep h i 0 LTicks;
    mret (Slept intena0)
  else unlock h LTicks ;; mret (Returned (Some 0)).
Definition sys_sleep (h i : nat) : K wres :=
  time_span ← arg i 0;
  lock h LTicks ;;
  k ← get;
  sleep_round h (ticks k) time_span.
Definition sys_sleep_resume (h i : nat) (now span : Z) (intena0 : bool) : K wres :=
  sleep_resume h i intena0 ;;
  lock h LTicks ;;
  sleep_round h now span.

Definition of_wres (r : wres) : ending (option Z) :=
  match r with Returned r => Ends r | Slept _ => Asleep end.
(** [exit] does not return. *)
Definition syscall (h i : nat) : K (ending (option Z)) :=
  d ← data_at i;
  num ← on_mem (read_word (trapframe d + TF_AX + 7 * 8));
  let ends (m : K (option Z)) : K (ending (option Z)) := r ← m; mret (Ends r) in
  match from_primitive num with
  | SysFork => ends (sys_fork h i)
  | SysExit => sys_exit h i ;; mret Asleep
  | SysWait => r ← sys_wait h i; mret (of_wres r)
  | SysPipe => ends (sys_pipe dv pipe_chan arc_size i)
  | SysRead => sys_read dv pipe_chan con_chan uart_chan i
  | SysKill => panic "not implemented"
  | SysExec => ends (sys_exec dv i)
  | SysFstat => ends (sys_fstat dv i)
  | SysChdir => ends (sys_chdir dv i)
  | SysDup => ends (sys_dup dv pipe_chan arc_size i)
  | SysGetPid => ends (sys_getpid h i)
  | SysSbrk => ends (sys_sbrk i)
  | SysSleep => r ← sys_sleep h i; mret (of_wres r)
  | SysUptime => ends (sys_uptime h)
  | SysOpen => ends (sys_open dv pipe_chan arc_size i)
  | SysWrite => sys_write dv pipe_chan con_chan uart_chan panicked lsr i
  | SysMknod => ends (sys_mknod dv i)
  | SysUnlink => ends (sys_unlink dv i)
  | SysLink => ends (sys_link dv i)
  | SysMkdir => ends (sys_mkdir dv i)
  | SysClose => ends (sys_close dv pipe_chan arc_size i)
  | Unknown => panic "not implemented"
  end.
(** [Err(())] is returned as [-1]. *)
Definition ret_value (r : option Z) : Z := default (2 ^ 64 - 1) r.
Definition set_ret (i : nat) (v : Z) : K unit :=
  d ← data_at i; on_mem (write_word (trapframe d + TF_AX) v).
Definition syscall_handler (h : nat) : K (ending unit) :=
  p ← on_mach (myproc h);
  i ← unwrap p PageTable.unwrap_msg;
  r ← syscall h i;
  match r with
  | Asleep => mret Asleep
  | Ends r => set_ret i (ret_value r) ;; mret (Ends tt)
  end.
End syscall.
