(* ===== verification/UserLib.v ===== *)
(** * The user library and a program

    [rx-kernel/src/syscall.rs] is what user programs call: each function moves
    its arguments to [a0]-[a2] and the number of the call to [a7], executes
    [ecall] and returns [a0]. [rx-kernel/src/lib.rs] starts a program, and
    [rx-user/src/bin/hello/main.rs] is one. *)
From S2P Require Import Layout Elf Syscall Prelude.

(** ** A hart in user mode

    Registers by number, memory by byte, the environment calls made so far
    (the registers and the memory the kernel sees), and the answers of the
    kernel to come. *)
Record user := mkUser {
  uregs : nat → Z;
  umem : Z → Z;
  calls : list ((nat → Z) * (Z → Z));
  answers : list Z
}.
Definition a0 : nat := 10.
Definition a1 : nat := 11.
Definition a2 : nat := 12.
Definition a7 : nat := 17.

Definition set_reg (r : nat) (v : Z) (rs : nat → Z) : nat → Z := λ r', if Nat.eqb r' r then v else rs r'.
Definition get_reg (r : nat) : M user Z := gets (λ u, uregs u r).
Definition put_reg (r : nat) (v : Z) : M user unit :=
  modify (λ u, mkUser (set_reg r v (uregs u)) (umem u) (calls u) (answers u)).
Definition store_byte (a v : Z) : M user unit :=
  modify (λ u, mkUser (uregs u) (λ a', if a' =? a then v else umem u a') (calls u) (answers u)).
(** The kernel changes no register but [a0]; a call that is never answered
    does not return. *)
Definition ecall : M user unit := λ u,
  match answers u with
  | [] => Hang
  | v :: vs => Done (tt, mkUser (set_reg a0 v (uregs u)) (umem u) (calls u ++ [(uregs u, umem u)]) vs)
  end.

(** [&[T]]: the address and the elements. *)
Record slice := mkSlice { as_ptr : Z; elems : list Z }.
Definition len (s : slice) : Z := Z.of_nat (length (elems s)).

Section library.
(** The register the compiler chooses for the [n]-th [in(reg)] operand of an
    [asm!] block. *)
Context (alloc : nat → nat).

(** An [asm!] block that moves its operands to these registers, in this order,
    and executes [ecall]. *)
Definition asm_call (ops : list (nat * Z)) : M user unit :=
  for_each (zip (seq 0 (length ops)) (snd <$> ops)) (λ '(n, v), put_reg (alloc n) v) ;;
  for_each (zip (seq 0 (length ops)) (fst <$> ops)) (λ '(n, d), v ← get_reg (alloc n); put_reg d v) ;;
  ecall.
Definition syscall_res : M user Z := x ← get_reg a0; mret (to_signed 64 x).
(** [IntoPrimitive for SyscallNum]; no caller converts [Unknown]. *)
Fixpoint index_of (f : SyscallNum → bool) (l : list SyscallNum) : Z :=
  match l with [] => 1 | c :: l' => if f c then 1 else 1 + index_of f l' end.
#[local] Instance SyscallNum_eq_dec : EqDecision SyscallNum.
Proof. solve_decision. Defined.
Definition into (c : SyscallNum) : Z := index_of (λ d, bool_decide (d = c)) numbered.

Definition fork : M user Z := asm_call [(a7, into SysFork)] ;; syscall_res.
Definition wait (status : Z) : M user Z := asm_call [(a0, status); (a7, into SysWait)] ;; syscall_res.
Definition pipe (fds : slice) : M user Z :=
  if len fds <? 2 then mret (-1) else
  asm_call [(a0, as_ptr fds); (a7, into SysPipe)] ;; syscall_res.
(** [s[s.len() - 1]] *)
Definition last_elem (s : slice) : M user Z :=
  n ← usub 64 (len s) 1; unwrap (elems s !! Z.to_nat n) "index out of bounds".
Definition exec (path argv : slice) : M user Z :=
  p ← last_elem path;
  bad ← (if negb (p =? 0) then mret true else v ← last_elem argv; mret (negb (v =? 0)));
  if (bad : bool) then mret (-1) else
  asm_call [(a0, as_ptr path); (a1, as_ptr argv); (a7, into SysExec)] ;; syscall_res.
(** [fd] is an [i32], [fd as usize] its sign extension. *)
Definition fstat (fd stat : Z) : M user Z :=
  asm_call [(a0, wrap 64 fd); (a1, stat); (a7, into SysFstat)] ;; syscall_res.
Definition chdir (path : slice) : M user Z := asm_call [(a0, as_ptr path); (a7, into SysChdir)] ;; syscall_res.
Definition dup (fd : Z) : M user Z := asm_call [(a0, wrap 64 fd); (a7, into SysDup)] ;; syscall_res.
Definition getpid : M user Z := asm_call [(a7, into SysGetPid)] ;; syscall_res.
Definition sbrk (size : Z) : M user Z := asm_call [(a0, size); (a7, into SysSbrk)] ;; syscall_res.
Definition sleep (num : Z) : M user Z := asm_call [(a0, num); (a7, into SysSleep)] ;; syscall_res.
Definition uptime : M user Z := asm_call [(a7, into SysUptime)] ;; syscall_res.
Definition open (path : slice) : M user Z := asm_call [(a0, as_ptr path); (a7, into SysOpen)] ;; syscall_res.
(** [major] and [minor] are [i16]. *)
Definition mknod (path : slice) (major minor : Z) : M user Z :=
  asm_call [(a0, as_ptr path); (a1, wrap 64 major); (a2, wrap 64 minor); (a7, into SysMknod)] ;; syscall_res.
Definition close (fd : Z) : M user Z := asm_call [(a0, wrap 64 fd); (a7, into SysClose)] ;; syscall_res.
Definition unlink (path : slice) : M user Z := asm_call [(a0, as_ptr path); (a7, into SysUnlink)] ;; syscall_res.
Definition link (old_path new_path : slice) : M user Z :=
  asm_call [(a0, as_ptr old_path); (a1, as_ptr new_path); (a7, into SysLink)] ;; syscall_res.
Definition mkdir (path : slice) : M user Z := asm_call [(a0, as_ptr path); (a7, into SysMkdir)] ;; syscall_res.
Definition read (fd : Z) (data : slice) : M user Z :=
  asm_call [(a0, wrap 64 fd); (a1, as_ptr data); (a2, len data); (a7, into SysWrite)] ;; syscall_res.
Definition write (fd : Z) (data : slice) : M user Z :=
  asm_call [(a0, wrap 64 fd); (a1, as_ptr data); (a2, len data); (a7, into SysWrite)] ;; syscall_res.
(** [code] is an [i32] operand: the upper half of its register, [hi], is not
    specified. *)
Definition exit (hi code : Z) : M user unit :=
  asm_call [(a0, wrap 32 code + 2 ^ 32 * wrap 32 hi); (a7, into SysExit)].

(** ** The program hello

    [s1], [s2] and [s3] are the string literals, [bs] the address of the
    buffer. *)
Context (s1 s2 s3 : slice) (bs : Z).

(** [while t / base >= 10]; a 64-bit number has twenty digits. *)
Fixpoint hello_base (fuel : nat) (t base : Z) : M user Z :=
  if t / base >=? 10 then
    match fuel with
    | O => hang
    | S fuel' => base' ← umul 64 base 10; hello_base fuel' t base'
    end
  else mret base.
(** [while base > 0]; [bs] has 100 bytes. *)
Fixpoint hello_digits (fuel : nat) (t base i : Z) : M user unit :=
  if base >? 0 then
    match fuel with
    | O => hang
    | S fuel' =>
      let b := wrap 8 (t / base) in
      c ← uadd 8 b 48;
      assert (i <? 100) "index out of bounds" ;;
      store_byte (bs + i) c ;;
      i' ← uadd 64 i 1;
      hello_digits fuel' (t mod base) (base / 10) i'
    end
  else mret tt.
Definition hello_main : M user unit :=
  write 1 s1 ;;
  mkdir s2 ;;
  write 1 s3 ;;
  r ← uptime;
  let t := wrap 64 r in
  base ← hello_base 20 t 1;
  for_each (seqZ 0 100) (λ i, store_byte (bs + i) 0) ;;
  hello_digits 20 t base 0 ;;
  buf ← gets (λ u, (λ i, umem u (bs + i)) <$> seqZ 0 100);
  assert (utf8 buf) "called `Result::unwrap()` on an `Err` value" ;;
  write 1 (mkSlice bs buf) ;;
  mret tt.
(** [start] of lib.rs, which the loader enters. *)
Definition start (hi : Z) : M user unit := hello_main ;; exit hi 0.
End library.

(** ** What the library asks of the kernel *)
Definition with_regs (rs : nat → Z) (u : user) : user := mkUser rs (umem u) (calls u) (answers u).
Lemma set_reg_eq r v rs : set_reg r v rs r = v.
Proof. unfold set_reg. by rewrite Nat.eqb_refl. Qed.
Lemma set_reg_ne r r' v rs : r' ≠ r → set_reg r v rs r' = rs r'.
Proof. intros H. unfold set_reg. by apply Nat.eqb_neq in H as ->. Qed.

Section calls.
Context (alloc : nat → nat).

(** The compiler may choose any registers for the operands; the library works
    when they are distinct and none of the argument registers. *)
Record alloc_ok : Prop := {
  al_inj : ∀ i j, (i < 4)%nat → (j < 4)%nat → alloc i = alloc j → i = j;
  al_out : ∀ i, (i < 4)%nat → alloc i ∉ [a0; a1; a2; a7]
}.

Definition loads (rs : nat → Z) (l : list (nat * Z)) : nat → Z :=
  foldl (λ rs '(n, v), set_reg (alloc n) v rs) rs l.
Definition moves (rs : nat → Z) (l : list (nat * nat)) : nat → Z :=
  foldl (λ rs '(n, d), set_reg d (rs (alloc n)) rs) rs l.

Lemma loads_run l u :
  for_each l (λ '(n, v), put_reg (alloc n) v) u = Done (tt, with_regs (loads (uregs u) l) u).
Proof.
  revert u. induction l as [|[n v] l IH]; intros u; simpl; [by destruct u|].
  unfold put_reg. rewrite bind_modify, IH. done.
Qed.
Lemma moves_run l u :
  for_each l (λ '(n, d), v ← get_reg (alloc n); put_reg d v) u = Done (tt, with_regs (moves (uregs u) l) u).
Proof.
  revert u. induction l as [|[n d] l IH]; intros u; simpl; [by destruct u|].
  unfold get_reg, put_reg. rewrite bind_assoc, bind_gets, bind_modify, IH. done.
Qed.
Lemma loads_other rs l r : (∀ n v, (n, v) ∈ l → r ≠ alloc n) → loads rs l r = rs r.
Proof.
  revert rs. induction l as [|[n v] l IH]; intros rs H; simpl; [done|].
  rewrite IH by (intros; eapply H; by right). apply set_reg_ne. eapply H. by left.
Qed.
Lemma moves_other rs l r : (∀ n d, (n, d) ∈ l → r ≠ d) → moves rs l r = rs r.
Proof.
  revert rs. induction l as [|[n d] l IH]; intros rs H; simpl; [done|].
  rewrite IH by (intros; eapply H; by right). apply set_reg_ne. eapply H. by left.
Qed.
Lemma loads_at rs s vs n v :
  alloc_ok → (s + length vs ≤ 4)%nat → vs !! n = Some v → loads rs (zip (seq s (length vs)) vs) (alloc (s + n)) = v.
Proof.
  intros A. revert rs s n. induction vs as [|w vs IH]; intros rs s n Hs Hn; [done|].
  cbn [length seq zip zip_with loads foldl] in *. destruct n as [|n]; simplify_eq/=.
  - fold (loads (set_reg (alloc s) v rs) (zip (seq (S s) (length vs)) vs)). rewrite loads_other.
    + rewrite Nat.add_0_r. apply set_reg_eq.
    + intros n' v' Hin E. apply elem_of_zip_l in Hin. apply elem_of_seq in Hin.
      apply (al_inj A) in E; lia.
  - fold (loads (set_reg (alloc s) w rs) (zip (seq (S s) (length vs)) vs)).
    rewrite Nat.add_succ_r. change (S (s + n)) with (S s + n)%nat. apply IH; [lia|done].
Qed.
Lemma moves_at rs s ds n d :
  alloc_ok → (s + length ds ≤ 4)%nat → Forall (λ d, d ∈ [a0; a1; a2; a7]) ds → NoDup ds → ds !! n = Some d →
  moves rs (zip (seq s (length ds)) ds) d = rs (alloc (s + n)).
Proof.
  intros A. revert rs s n. induction ds as [|e ds IH]; intros rs s n Hs Ha Hd Hn; [done|].
  apply Forall_cons_1 in Ha as [He Ha]. apply NoDup_cons in Hd as [Hne Hd].
  cbn [length seq zip zip_with moves foldl] in *. destruct n as [|n]; simplify_eq/=.
  - fold (moves (set_reg d (rs (alloc s)) rs) (zip (seq (S s) (length ds)) ds)). rewrite moves_other.
    + by rewrite Nat.add_0_r, set_reg_eq.
    + intros n' d' Hin ->. by apply elem_of_zip_r in Hin.
  - fold (moves (set_reg e (rs (alloc s)) rs) (zip (seq (S s) (length ds)) ds)).
    rewrite (IH _ _ n) by (done || lia). rewrite set_reg_ne, Nat.add_succ_r; [done|].
    intros E. apply (al_out A (S s + n)); [apply lookup_lt_Some in Hn; lia|by rewrite E].
Qed.

(** The registers at the [ecall] of a block. *)
Lemma asm_call_run ops u v vs :
  alloc_ok → (length ops ≤ 4)%nat → Forall (λ d, d ∈ [a0; a1; a2; a7]) ops.*1 → NoDup ops.*1 →
  answers u = v :: vs →
  ∃ rs, asm_call alloc ops u = Done (tt, mkUser (set_reg a0 v rs) (umem u) (calls u ++ [(rs, umem u)]) vs) ∧
    (∀ d x, (d, x) ∈ ops → rs d = x) ∧
    (∀ r, r ∉ ops.*1 → (∀ n, (n < length ops)%nat → r ≠ alloc n) → rs r = uregs u r).
Proof.
  intros A Hl Ha Hd Hv. unfold asm_call.
  set (ls := zip (seq 0 (length ops)) ops.*2). set (ms := zip (seq 0 (length ops)) ops.*1).
  exists (moves (loads (uregs u) ls) ms). split_and!.
  - mstep (loads_run ls u). mstep (moves_run ms (with_regs (loads (uregs u) ls) u)).
    unfold ecall. cbn [with_regs uregs answers umem calls]. by rewrite Hv.
  - intros d x [n Hn]%list_elem_of_lookup.
    assert (ops.*1 !! n = Some d) as H1 by (by rewrite list_lookup_fmap, Hn).
    assert (ops.*2 !! n = Some x) as H2 by (by rewrite list_lookup_fmap, Hn).
    unfold ms. rewrite <- (length_fmap fst ops).
    rewrite (moves_at _ 0 _ n d) by (rewrite ?length_fmap; done || lia).
    unfold ls. rewrite <- (length_fmap snd ops).
    apply loads_at; [done|by rewrite length_fmap|done].
  - intros r Hr Hn. rewrite moves_other.
    + apply loads_other. intros n x Hin ->. apply elem_of_zip_l, elem_of_seq in Hin.
      by destruct (Hn n); [lia|].
    + intros n d Hin ->. by apply elem_of_zip_r in Hin.
Qed.
End calls.

Inductive ucall :=
  | UFork | UWait (status : Z) | UPipe (fds : slice) | UExec (path argv : slice) | UFstat (fd stat : Z)
  | UChdir (path : slice) | UDup (fd : Z) | UGetpid | USbrk (size : Z) | USleep (num : Z) | UUptime
  | UOpen (path : slice) | UMknod (path : slice) (major minor : Z) | UClose (fd : Z) | UUnlink (path : slice)
  | ULink (old_path new_path : slice) | UMkdir (path : slice) | URead (fd : Z) (data : slice)
  | UWrite (fd : Z) (data : slice).
Definition run_ucall (alloc : nat → nat) (c : ucall) : M user Z :=
  match c with
  | UFork => fork alloc | UWait status => wait alloc status | UPipe fds => pipe alloc fds
  | UExec path argv => exec alloc path argv | UFstat fd stat => fstat alloc fd stat
  | UChdir path => chdir alloc path | UDup fd => dup alloc fd | UGetpid => getpid alloc
  | USbrk size => sbrk alloc size | USleep num => sleep alloc num | UUptime => uptime alloc
  | UOpen path => open alloc path | UMknod path major minor => mknod alloc path major minor
  | UClose fd => close alloc fd | UUnlink path => unlink alloc path
  | ULink old_path new_path => link alloc old_path new_path | UMkdir path => mkdir alloc path
  | URead fd data => read alloc fd data | UWrite fd data => write alloc fd data
  end.
(** The call the kernel sees and its arguments, in [a0], [a1], [a2]; [None]
    where the library refuses. [read] asks for the wrong call. *)
Definition asked (c : ucall) : option (SyscallNum * list Z) :=
  match c with
  | UFork => Some (SysFork, []) | UWait status => Some (SysWait, [status])
  | UPipe fds => if len fds <? 2 then None else Some (SysPipe, [as_ptr fds])
  | UExec path argv =>
    if decide (last (elems path) = Some 0 ∧ last (elems argv) = Some 0)
    then Some (SysExec, [as_ptr path; as_ptr argv]) else None
  | UFstat fd stat => Some (SysFstat, [wrap 64 fd; stat]) | UChdir path => Some (SysChdir, [as_ptr path])
  | UDup fd => Some (SysDup, [wrap 64 fd]) | UGetpid => Some (SysGetPid, [])
  | USbrk size => Some (SysSbrk, [size]) | USleep num => Some (SysSleep, [num]) | UUptime => Some (SysUptime, [])
  | UOpen path => Some (SysOpen, [as_ptr path])
  | UMknod path major minor => Some (SysMknod, [as_ptr path; wrap 64 major; wrap 64 minor])
  | UClose fd => Some (SysClose, [wrap 64 fd]) | UUnlink path => Some (SysUnlink, [as_ptr path])
  | ULink old_path new_path => Some (SysLink, [as_ptr old_path; as_ptr new_path])
  | UMkdir path => Some (SysMkdir, [as_ptr path])
  | URead fd data => Some (SysWrite, [wrap 64 fd; as_ptr data; len data])
  | UWrite fd data => Some (SysWrite, [wrap 64 fd; as_ptr data; len data])
  end.

(** A call that is made: what the kernel sees, the result, and that no other
    register is touched but those the compiler chose. *)
Definition made (alloc : nat → nat) (m : M user Z) (c : SyscallNum) (args : list Z) (u : user) (v : Z) (vs : list Z)
    : Prop :=
  ∃ rs, m u = Done (to_signed 64 v, mkUser (set_reg a0 v rs) (umem u) (calls u ++ [(rs, umem u)]) vs) ∧
    from_primitive (rs a7) = c ∧ (∀ n x, args !! n = Some x → rs (a0 + n)%nat = x) ∧
    (∀ r, r ∉ [a0; a1; a2; a7] → (∀ n, (n < 4)%nat → r ≠ alloc n) → rs r = uregs u r).

Lemma call_run alloc c args u v vs :
  alloc_ok alloc → (length args ≤ 3)%nat → answers u = v :: vs → from_primitive (into c) = c →
  made alloc (asm_call alloc (zip [a0; a1; a2] args ++ [(a7, into c)]) ;; syscall_res) c args u v vs.
Proof.
  intros A Hl Hv Hc. set (ops := zip [a0; a1; a2] args ++ [(a7, into c)]).
  assert (ops.*1 = take (length args) [a0; a1; a2] ++ [a7]) as E1.
  { unfold ops. rewrite fmap_app. f_equal. by destruct args as [|? [|? [|? [|]]]]. }
  assert (length ops = S (length args)) as El.
  { rewrite <- (length_fmap fst ops), E1, length_app, length_take. simpl. lia. }
  destruct (asm_call_run alloc ops u v vs) as (rs & E & Hops & Hoth); [done|lia|rewrite E1..|done|].
  - destruct args as [|? [|? [|? [|]]]]; repeat constructor; set_solver.
  - destruct args as [|? [|? [|? [|]]]]; apply (bool_decide_unpack _); vm_compute; exact Logic.I.
  - exists rs. split_and!.
    + mstep E. unfold syscall_res, get_reg. rewrite bind_gets. cbn [uregs]. by rewrite set_reg_eq.
    + rewrite (Hops a7 (into c)); [done|]. unfold ops. set_solver.
    + intros n x Hn. apply Hops. unfold ops. apply elem_of_app. left.
      destruct args as [|? [|? [|? [|]]]], n as [|[|[|n]]]; simplify_eq/=; set_solver.
    + intros r Hr Hn. apply Hoth; [|intros; apply Hn; lia]. rewrite E1. intros Hin. apply Hr.
      apply elem_of_app in Hin as [Hin|Hin]; [|set_solver]. apply (subseteq_take (length args)) in Hin. set_solver.
Qed.

(** [last_elem] of a slice that has one. *)
Lemma last_elem_run s x u : last (elems s) = Some x → last_elem s u = Done (x, u).
Proof.
  intros Hx. apply last_Some in Hx as [l E]. unfold last_elem, len. rewrite E, length_app. simpl.
  rewrite bind_usub by lia. replace (Z.to_nat _) with (length l) by lia.
  by rewrite lookup_app_r, Nat.sub_diag.
Qed.
(** The slices [exec] indexes are not empty. *)
Definition indexable (c : ucall) : Prop :=
  match c with
  | UExec path argv => is_Some (last (elems path)) ∧ is_Some (last (elems argv))
  | _ => True
  end.


Definition temporaries (n : nat) : nat := default 31%nat ([5; 6; 7; 28]%nat !! n).
Lemma temporaries_ok : alloc_ok temporaries.
Proof.
  split; [intros [|[|[|[|i]]]] [|[|[|[|j]]]] Hi Hj; vm_compute; lia|].
  intros [|[|[|[|i]]]] Hi; [apply (bool_decide_unpack _); vm_compute; exact Logic.I..|lia].
Qed.
Definition user0 (vs : list Z) : user := mkUser (λ _, 0) (λ _, 0) [] vs.

(** Nothing tells the compiler that the block writes [a0] before it reads the
    register of the number. With the number in [a0], which it may choose,
    [close(2)] is [exit]. *)
Lemma number_clobbered :
  ∃ u', close (λ n, if Nat.eqb n 1 then a0 else 5%nat) 2 (user0 [0]) = Done (0, u') ∧
    (from_primitive ∘ (λ c : (nat → Z) * (Z → Z), c.1 a7)) <$> calls u' = [SysExit].
Proof. eexists. split; [vm_compute; reflexivity|]. reflexivity. Qed.

(** ** What hello prints *)

(** The decimal digits of [t], at least [j + 1] of them. *)
Fixpoint decimal (j : nat) (t : Z) : list Z :=
  t / 10 ^ Z.of_nat j + 48 :: match j with O => [] | S j' => decimal j' (t mod 10 ^ Z.of_nat j) end.
Definition value (ds : list Z) : Z := foldl (λ a c, 10 * a + (c - 48)) 0 ds.
Lemma length_decimal j t : length (decimal j t) = S j.
Proof. revert t. induction j as [|j IH]; intros t; simpl; [done|]. by rewrite IH. Qed.
Lemma pow10_S j : 10 ^ Z.of_nat (S j) = 10 * 10 ^ Z.of_nat j.
Proof. rewrite Nat2Z.inj_succ, Z.pow_succ_r by lia. done. Qed.
Lemma pow10_pos j : 0 < 10 ^ Z.of_nat j.
Proof. apply Z.pow_pos_nonneg; lia. Qed.
Lemma decimal_value j t : value (decimal j t) = t.
Proof.
  assert (∀ a, foldl (λ a c, 10 * a + (c - 48)) a (decimal j t) = a * 10 ^ Z.of_nat (S j) + t) as H;
    [|unfold value; rewrite H; lia].
  revert t. induction j as [|j IH]; intros t a.
  - simpl. rewrite Z.div_1_r. change (10 ^ 1) with 10. lia.
  - cbn [decimal foldl]. rewrite IH, !pow10_S. pose proof (pow10_pos j).
    rewrite (Z.div_mod t (10 * 10 ^ Z.of_nat j)) at 3 by lia. nia.
Qed.
Lemma decimal_digits j t : 0 ≤ t < 10 ^ Z.of_nat (S j) → Forall (λ c, 48 ≤ c < 58) (decimal j t).
Proof.
  revert t. induction j as [|j IH]; intros t Ht; cbn [decimal]; constructor.
  - rewrite Z.div_1_r. change (10 ^ Z.of_nat 1) with 10 in Ht. lia.
  - constructor.
  - pose proof (pow10_pos (S j)). rewrite (pow10_S (S j)) in Ht.
    pose proof (Z.div_pos t (10 ^ Z.of_nat (S j))). pose proof (Z.div_lt_upper_bound t (10 ^ Z.of_nat (S j)) 10). lia.
  - apply IH. apply Z.mod_pos_bound, pow10_pos.
Qed.

(** The number of digits the first loop finds. *)
Lemma hello_base_run fuel k t u :
  0 ≤ t < 2 ^ 64 → t < 10 ^ Z.of_nat (S (k + fuel)) → (k = 0%nat ∨ 10 ^ Z.of_nat k ≤ t) →
  ∃ j, hello_base fuel t (10 ^ Z.of_nat k) u = Done (10 ^ Z.of_nat j, u) ∧ (j ≤ k + fuel)%nat ∧
    t < 10 ^ Z.of_nat (S j) ∧ (j = 0%nat ∨ 10 ^ Z.of_nat j ≤ t).
Proof.
  revert k. induction fuel as [|fuel IH]; intros k Ht Hb Hk; cbn [hello_base]; pose proof (pow10_pos k) as Hp.
  - exists k. rewrite Nat.add_0_r in Hb. rewrite pow10_S in Hb.
    pose proof (Z.div_lt_upper_bound t (10 ^ Z.of_nat k) 10).
    destruct (Z.geb_spec (t / 10 ^ Z.of_nat k) 10); [lia|]. rewrite pow10_S. split_and!; [done|lia|lia|done].
  - destruct (Z.geb_spec (t / 10 ^ Z.of_nat k) 10) as [Hge|Hlt].
    + assert (10 ^ Z.of_nat (S k) ≤ t) as Hle.
      { rewrite pow10_S. pose proof (Z.mul_div_le t (10 ^ Z.of_nat k)). nia. }
      rewrite bind_umul by (rewrite pow10_S in Hle; lia). rewrite Z.mul_comm, <- pow10_S.
      destruct (IH (S k)) as (j & E & Hj & H1 & H2); [done|by rewrite Nat.add_succ_comm|by right|].
      exists j. split_and!; [done|lia|done..].
    + exists k. split_and!; [done|lia| |done]. rewrite pow10_S.
      pose proof (Z.mul_succ_div_gt t (10 ^ Z.of_nat k)). nia.
Qed.

Definition with_mem (m : Z → Z) (u : user) : user := mkUser (uregs u) m (calls u) (answers u).
(** [m'] is [m] with these bytes at [a]. *)
Definition placed (m m' : Z → Z) (a : Z) (cs : list Z) : Prop :=
  (∀ n c, cs !! n = Some c → m' (a + Z.of_nat n) = c) ∧
  (∀ x, ¬ (a ≤ x < a + Z.of_nat (length cs)) → m' x = m x).
Lemma placed_cons m m' a c cs :
  placed (λ x, if x =? a then c else m x) m' (a + 1) cs → placed m m' a (c :: cs).
Proof.
  intros [H1 H2]. split.
  - intros [|n] d E; simplify_eq/=.
    + rewrite Z.add_0_r, H2 by lia. by rewrite Z.eqb_refl.
    + rewrite <- (H1 n d E). f_equal. lia.
  - intros x Hx. simpl in Hx. rewrite H2 by lia. destruct (Z.eqb_spec x a); [lia|done].
Qed.

Lemma hello_digits_run bs fuel j t i u :
  0 ≤ t < 10 ^ Z.of_nat (S j) → (j < fuel)%nat → 0 ≤ i → i + Z.of_nat j < 100 →
  ∃ m, hello_digits bs fuel t (10 ^ Z.of_nat j) i u = Done (tt, with_mem m u) ∧
    placed (umem u) m (bs + i) (decimal j t).
Proof.
  revert j t i u. induction fuel as [|fuel IH]; intros j t i u Ht Hj Hi Hij; [lia|].
  cbn [hello_digits]. pose proof (pow10_pos j) as Hp. rewrite (proj2 (Z.gtb_lt _ _)) by done.
  assert (0 ≤ t / 10 ^ Z.of_nat j < 10) as Hd.
  { split; [apply Z.div_pos; lia|]. apply Z.div_lt_upper_bound; [done|]. rewrite pow10_S in Ht. lia. }
  unfold wrap. rewrite (Z.mod_small (t / 10 ^ Z.of_nat j) (2 ^ 8)) by (change (2 ^ 8) with 256; lia).
  rewrite bind_uadd by (change (2 ^ 8) with 256; lia).
  rewrite bind_assert by (apply Z.ltb_lt; lia). unfold store_byte at 1. rewrite bind_modify.
  rewrite bind_uadd by (change (2 ^ 64) with 18446744073709551616; lia).
  destruct j as [|j].
  - destruct fuel as [|fuel]; cbn [hello_digits]; change (10 ^ Z.of_nat 0 / 10 >? 0) with false;
      (eexists; split; [reflexivity|]; simpl decimal; apply placed_cons; split; [done|done]).
  - replace (10 ^ Z.of_nat (S j) / 10) with (10 ^ Z.of_nat j)
      by (rewrite pow10_S; symmetry; rewrite Z.mul_comm; by apply Z.div_mul).
    edestruct (IH j (t mod 10 ^ Z.of_nat (S j)) (i + 1)) as (m & E & Hm);
      [apply Z.mod_pos_bound; done|lia|lia|lia|]. rewrite E.
    exists m. split; [done|]. cbn [decimal]. apply placed_cons. rewrite <- Z.add_assoc. exact Hm.
Qed.
Lemma zero_run bs n i u :
  ∃ m, for_each (seqZ i (Z.of_nat n)) (λ i, store_byte (bs + i) 0) u = Done (tt, with_mem m u) ∧
    placed (umem u) m (bs + i) (replicate n 0).
Proof.
  revert i u. induction n as [|n IH]; intros i u.
  - exists (umem u). split; [by destruct u|]. split; [done|done].
  - rewrite seqZ_cons by lia. cbn [for_each].
    rewrite (bind_run _ _ _ tt (with_mem (λ x, if x =? bs + i then 0 else umem u x) u)) by reflexivity.
    replace (Z.pred (Z.of_nat (S n))) with (Z.of_nat n) by lia.
    edestruct (IH (Z.succ i)) as (m & E & Hm). rewrite E. exists m. split; [done|].
    apply placed_cons. replace (bs + i + 1) with (bs + Z.succ i) by lia. exact Hm.
Qed.

(** What a call writes to the console, if it does. *)
Definition output (c : (nat → Z) * (Z → Z)) : option (list Z) :=
  match from_primitive (c.1 a7) with
  | SysWrite => if c.1 a0 =? 1 then Some (c.2 <$> seqZ (c.1 a1) (c.1 a2)) else None
  | _ => None
  end.
(** The literal is where the linker put it. *)
Definition present (m : Z → Z) (s : slice) : Prop := m <$> seqZ (as_ptr s) (len s) = elems s.
Lemma placed_present m m' a cs : placed m m' a cs → present m' (mkSlice a cs).
Proof.
  intros [H _]. unfold present, len. simpl. apply list_eq. intros n. rewrite list_lookup_fmap.
  destruct (cs !! n) as [c|] eqn:E.
  - rewrite lookup_seqZ_lt by (apply lookup_lt_Some in E; lia). simpl. by rewrite (H n c).
  - rewrite lookup_seqZ_ge by (apply lookup_ge_None in E; lia). done.
Qed.
Lemma utf8_ascii bs : Forall (λ c, c < 128) bs → utf8 bs = true.
Proof. induction 1 as [|c bs Hc _ IH]; simpl; [done|]. by rewrite (proj2 (Z.ltb_lt _ _) Hc). Qed.

(** The buffer of 100 bytes with the digits, and how the loops fill it. *)
Definition digit_buf (j : nat) (t : Z) : list Z := decimal j t ++ replicate (100 - length (decimal j t)) 0.
Lemma length_buf j t : (j < 100)%nat → length (digit_buf j t) = 100%nat.
Proof. intros Hj. unfold digit_buf. rewrite length_app, length_replicate, length_decimal. lia. Qed.
Lemma placed_buf m m' a cs : placed m m' a cs → length cs = 100%nat → ((λ i, m' (a + i)) <$> seqZ 0 100) = cs.
Proof.
  intros Hp%placed_present Hl. unfold present, len in Hp. cbn [elems as_ptr] in Hp. rewrite Hl in Hp.
  rewrite <- Hp at 1. apply list_eq. intros n. rewrite !list_lookup_fmap.
  destruct (decide (n < 100)%nat); [rewrite !lookup_seqZ_lt by lia|by rewrite !lookup_seqZ_ge by lia].
  simpl. do 2 f_equal.
Qed.
Lemma placed_digits m m6 m7 a j t :
  (j < 100)%nat → placed m m6 a (replicate 100 0) → placed m6 m7 a (decimal j t) → placed m m7 a (digit_buf j t).
Proof.
  intros Hj [P61 P62] [P71 P72]. pose proof (length_decimal j t). rewrite length_replicate in P62. split.
  - unfold digit_buf. intros n c [Hc|[Hg Hc]]%lookup_app_Some; [by apply P71|].
    apply lookup_replicate in Hc as [-> Hn]. rewrite P72 by lia. apply P61. apply lookup_replicate. lia.
  - intros x Hx. rewrite length_buf in Hx by done. rewrite P72, P62; [done|lia..].
Qed.
Lemma hello_loops_run bs t u :
  0 ≤ t < 2 ^ 64 →
  ∃ j m, (∀ B (k : M user B),
      (base ← hello_base 20 t 1; for_each (seqZ 0 100) (λ i, store_byte (bs + i) 0) ;;
       hello_digits bs 20 t base 0 ;; k) u = k (with_mem m u)) ∧
    (j < 20)%nat ∧ t < 10 ^ Z.of_nat (S j) ∧ (j = 0%nat ∨ 10 ^ Z.of_nat j ≤ t) ∧ placed (umem u) m bs (digit_buf j t).
Proof.
  intros Ht. assert (2 ^ 64 < 10 ^ 20 < 10 ^ Z.of_nat 21) as Hbig by (split; reflexivity).
  destruct (hello_base_run 20 0 t u) as (j & E5 & Hj & Hlt & Hge); [done|simpl Nat.add; lia|by left|].
  change (10 ^ Z.of_nat 0) with 1 in E5.
  assert (j < 20)%nat as Hj'.
  { destruct Hge as [->|Hge]; [lia|]. apply not_le. intros Hj20.
    assert (10 ^ 20 ≤ 10 ^ Z.of_nat j) by (apply Z.pow_le_mono_r; lia). lia. }
  destruct (zero_run bs 100 0 u) as (m6 & E6 & P6).
  destruct (hello_digits_run bs 20 j t 0 (with_mem m6 u)) as (m7 & E7 & P7); [lia|lia|lia|lia|].
  exists j, m7. split_and!; [|done..|].
  - intros B k. mstep E5. mstep E6. by mstep E7.
  - rewrite Z.add_0_r in P6, P7. eapply placed_digits; [lia|done..].
Qed.

Section hello.
Context (alloc : nat → nat) (A : alloc_ok alloc).
Lemma write_run s u v vs :
  answers u = v :: vs → present (umem u) s →
  ∃ u', write alloc 1 s u = Done (to_signed 64 v, u') ∧ umem u' = umem u ∧ answers u' = vs ∧
    ∃ c, calls u' = calls u ++ [c] ∧ output c = Some (elems s).
Proof.
  intros Hv Hs.
  destruct (call_run alloc SysWrite [wrap 64 1; as_ptr s; len s] u v vs) as (rs & E & Hn & Ha & _);
    [done|simpl; lia|done|reflexivity|].
  eexists. split; [exact E|]. split_and!; [done..|]. eexists. split; [done|].
  unfold output. cbn [fst snd]. rewrite Hn, (Ha 0%nat _ eq_refl : rs a0 = _), (Ha 1%nat _ eq_refl : rs a1 = _),
    (Ha 2%nat _ eq_refl : rs a2 = _). simpl. by rewrite Hs.
Qed.
(** A call that prints nothing. *)
Lemma silent_run c args u v vs :
  (length args ≤ 3)%nat → answers u = v :: vs → from_primitive (into c) = c → c ≠ SysWrite →
  ∃ u', (asm_call alloc (zip [a0; a1; a2] args ++ [(a7, into c)]) ;; syscall_res) u = Done (to_signed 64 v, u') ∧
    umem u' = umem u ∧ answers u' = vs ∧ ∃ x, calls u' = calls u ++ [x] ∧ output x = None.
Proof.
  intros Hl Hv Hc Hne. destruct (call_run alloc c args u v vs) as (rs & E & Hn & _ & _); [done..|].
  eexists. split; [exact E|]. split_and!; [done..|]. eexists. split; [done|].
  unfold output. cbn [fst]. rewrite Hn. by destruct c.
Qed.

Context (s1 s2 s3 : slice) (bs : Z).
(** The program hello, through the library and the loops of its main, makes
    its calls and ends, whatever the kernel answers: it prints its first
    text, its second text, and then 100 bytes that are the decimal digits of
    the answer to [uptime] (as an unsigned number, without leading zeros)
    followed by zero bytes. *)
Theorem hello_prints u v1 v2 v3 t v5 vs :
  answers u = v1 :: v2 :: v3 :: t :: v5 :: vs → 0 ≤ t < 2 ^ 64 →
  present (umem u) s1 → present (umem u) s3 →
  ∃ u' ds, hello_main alloc s1 s2 s3 bs u = Done (tt, u') ∧
    (∃ cs, calls u' = calls u ++ cs ∧
       omap output cs = [elems s1; elems s3; ds ++ replicate (100 - length ds) 0]) ∧
    value ds = t ∧ Forall (λ c, 48 ≤ c < 58) ds ∧ (head ds = Some 48 → t = 0 ∧ ds = [48]) ∧ (length ds ≤ 20)%nat.
Proof.
  intros Hv Ht H1 H3. unfold hello_main.
  destruct (write_run s1 u _ _ Hv H1) as (u1 & E1 & M1 & A1 & c1 & C1 & O1). mstep E1.
  destruct (silent_run SysMkdir [as_ptr s2] u1 _ _ ltac:(simpl; lia) A1 eq_refl) as (u2 & E2 & M2 & A2 & c2 & C2 & O2);
    [done|]. mstep (E2 : mkdir alloc s2 u1 = _).
  rewrite <- M1, <- M2 in H3. destruct (write_run s3 u2 _ _ A2 H3) as (u3 & E3 & M3 & A3 & c3 & C3 & O3). mstep E3.
  destruct (silent_run SysUptime [] u3 _ _ ltac:(simpl; lia) A3 eq_refl) as (u4 & E4 & M4 & A4 & c4 & C4 & O4);
    [done|]. mstep (E4 : uptime alloc u3 = _).
  replace (wrap 64 (to_signed 64 t)) with t.
  2:{ unfold to_signed, wrap. rewrite (Z.mod_small t) by done.
      destruct (t <? 2 ^ (64 - 1)); [by rewrite Z.mod_small|].
      rewrite <- (Z_mod_plus_full _ 1). rewrite Z.mul_1_l, Z.sub_add. by rewrite Z.mod_small. }
  cbv zeta. destruct (hello_loops_run bs t u4 Ht) as (j & m7 & E5 & Hj & Hlt & Hge & P). rewrite E5. clear E5.
  set (buf := digit_buf j t) in *. pose proof (length_decimal j t) as Hlen.
  pose proof (decimal_digits j t ltac:(lia)) as Hdig.
  assert (((λ i, m7 (bs + i)) <$> seqZ 0 100) = buf) as Hbuf by (by eapply placed_buf; [|unfold buf; apply length_buf; lia]).
  rewrite bind_gets. cbn [with_mem umem]. rewrite Hbuf.
  rewrite bind_assert.
  2:{ apply utf8_ascii, Forall_app. split; [eapply Forall_impl; [exact Hdig|simpl; lia]|].
      apply Forall_replicate. lia. }
  destruct (write_run (mkSlice bs buf) (with_mem m7 u4) v5 vs A4) as (u8 & E8 & _ & _ & c8 & C8 & O8);
    [by eapply placed_present|]. mstep E8.
  exists u8, (decimal j t). split_and!; [done| |apply decimal_value|done| |lia].
  - exists [c1; c2; c3; c4; c8]. split.
    + rewrite C8. cbn [with_mem calls]. rewrite C4, C3, C2, C1. by rewrite <- !app_assoc.
    + simpl. by rewrite O1, O2, O3, O4, O8.
  - destruct j as [|j]; simpl.
    + rewrite Z.div_1_r. intros [= E]. split; [lia|]. f_equal. lia.
    + intros [= E]. destruct Hge as [?|Hge]; [done|].
      pose proof (Z.div_le_lower_bound t (10 ^ Z.of_nat (S j)) 1 (pow10_pos (S j))). lia.
Qed.
End hello.

(** The literals of the source at some addresses. *)
Definition text1 : slice := mkSlice 0x1000 [104; 101; 108; 108; 111; 32; 119; 111; 114; 108; 100; 10].
Definition text2 : slice := mkSlice 0x1010 [97; 0].
Definition text3 : slice :=
  mkSlice 0x1020 [115; 121; 115; 116; 101; 109; 32; 104; 97; 115; 32; 98; 111; 111; 116; 101; 100; 32].
Definition rodata (a : Z) : Z :=
  if a <? 0x1010 then default 0 (elems text1 !! Z.to_nat (a - 0x1000))
  else if a <? 0x1020 then default 0 (elems text2 !! Z.to_nat (a - 0x1010))
  else default 0 (elems text3 !! Z.to_nat (a - 0x1020)).
Lemma hello_prints_witness :
  ∃ u' ds, hello_main temporaries text1 text2 text3 0x2000 (mkUser (λ _, 0) rodata [] [12; 0; 18; 345; 100; 0]) =
    Done (tt, u') ∧ omap output (calls u') = [elems text1; elems text3; ds ++ replicate (100 - length ds) 0] ∧
    value ds = 345.
Proof.
  destruct (hello_prints temporaries temporaries_ok text1 text2 text3 0x2000
    (mkUser (λ _, 0) rodata [] [12; 0; 18; 345; 100; 0]) 12 0 18 345 100 [0] eq_refl)
    as (u' & ds & E & (cs & Hc & O) & V & _); [lia|reflexivity|reflexivity|].
  exists u', ds. split; [exact E|]. rewrite Hc. split; [exact O|exact V].
Defined.
