(* ===== verification/Trap.v ===== *)
(** * Traps

    [trap.rs] with the devices and exits it reaches: [driver/plic.rs],
    [shutdown.rs] and [exit] of [process/mod.rs]. A handler runs on one hart
    from the entry code of the trampoline or of [kernelvec] to the code that
    returns from the trap; where its thread leaves the hart in between, the
    rest is a definition of its own ([..._resume]). What [println!] writes is
    left out. *)
From S2P Require Import Virtio Console Prelude Layout Kalloc PageTable Bcache Fs Pipe Spin Proc File SysFile Syscall.

(** ** The interrupt controller (driver/plic.rs)

    What the controller answers to reads, in order (0 once nothing is
    pending), and the accesses so far. *)
Module Plic.
Inductive access := Read (addr v : Z) | Write (addr v : Z).
Record plic := mkPlic { answers : list Z; accesses : list access }.

Definition PLIC_SENABLE (hart_id : Z) : Z := PLIC_BASE + 0x2080 + hart_id * 0x100.
Definition PLIC_SPRIORITY (hart_id : Z) : Z := PLIC_BASE + 0x201000 + hart_id * 0x2000.
Definition PLIC_SCLAIM (hart_id : Z) : Z := PLIC_BASE + 0x201004 + hart_id * 0x2000.

Definition write (addr v : Z) : M plic unit :=
  modify (λ p, mkPlic (answers p) (accesses p ++ [Write addr v])).
Definition read (addr : Z) : M plic Z := λ p,
  let v := default 0 (hd_error (answers p)) in
  Done (v, mkPlic (tail (answers p)) (accesses p ++ [Read addr v])).

Definition plic_init : M plic unit :=
  write (PLIC_BASE + UART0_IRQ * 4) 1 ;;
  write (PLIC_BASE + VIRTIO0_IRQ * 4) 1.
Definition plic_init_hart (h : nat) : M plic unit :=
  write (PLIC_SENABLE (Z.of_nat h)) (Z.lor (ushl 32 1 UART0_IRQ) (ushl 32 1 VIRTIO0_IRQ)) ;;
  write (PLIC_SPRIORITY (Z.of_nat h)) 0.
Definition plic_claim (h : nat) : M plic (option Z) :=
  interrupt ← read (PLIC_SCLAIM (Z.of_nat h));
  mret (if interrupt =? 0 then None else Some interrupt).
Definition plic_complete (h : nat) (interrupt : Z) : M plic unit :=
  write (PLIC_SCLAIM (Z.of_nat h)) interrupt.
End Plic.

(** ** Reset (shutdown.rs)

    [system_reset] writes this value to the test device, which stops or
    resets the machine. *)
Module Shutdown.
Definition SHUTDOWN : Z := 8.
Definition REBOOT : Z := 9.
Definition RESET_TYPE_SHUTDOWN : Z := 0.
Definition RESET_TYPE_COLD_REBOOT : Z := 1.
Definition RESET_TYPE_WARM_REBOOT : Z := 2.
Definition RESET_REASON_NO_REASON : Z := 0.
Definition RESET_REASON_SYSTEM_FAILURE : Z := 1.
Definition TEST_FAIL : Z := 0x3333.
Definition TEST_PASS : Z := 0x5555.
Definition TEST_RESET : Z := 0x7777.
Definition system_reset (reset_type reset_reason : Z) : Z :=
  let value :=
    if reset_type =? RESET_TYPE_SHUTDOWN then TEST_PASS
    else if reset_type =? RESET_TYPE_COLD_REBOOT then TEST_RESET
    else if reset_type =? RESET_TYPE_WARM_REBOOT then TEST_RESET
    else TEST_FAIL in
  if reset_reason =? RESET_REASON_SYSTEM_FAILURE then TEST_FAIL else value.
End Shutdown.

(** ** Registers and causes *)

(** Causes, with the names of the riscv crate that the source matches on. *)
Inductive Interrupt := SupervisorSoft | SupervisorTimer | SupervisorExternal.
Inductive Exception :=
  | InstructionMisaligned | InstructionFault | IllegalInstruction | Breakpoint | LoadMisaligned | LoadFault
  | StoreMisaligned | StoreFault | UserEnvCall | SupervisorEnvCall | InstructionPageFault | LoadPageFault
  | StorePageFault.
Inductive trap := TInterrupt (i : Interrupt) | TException (e : Exception).

(** The trap registers of the hart that executes, beside [sstatus]; [ssip]
    is the software interrupt bit of [sip]. *)
Record csrs := mkCsrs { stvec : Z; sepc : Z; scause : Z; stval : Z; ssip : bool }.
Definition set_stvec (v : Z) (c : csrs) : csrs := mkCsrs v (sepc c) (scause c) (stval c) (ssip c).
Definition set_sepc (v : Z) (c : csrs) : csrs := mkCsrs (stvec c) v (scause c) (stval c) (ssip c).
Definition clear_ssoft (c : csrs) : csrs := mkCsrs (stvec c) (sepc c) (scause c) (stval c) false.

(** Code addresses the linker chooses, and the crate's reading of [scause]
    ([None] where [try_into] fails). *)
Class TrapSymbols := { kernelvec : Z; uservec : Z; userret : Z; cause_of : Z → option trap }.

Record tst (S : Type) := mkTst { tk : kst (filest S); tdisk : vst; tplic : Plic.plic; tcsr : csrs }.
Arguments mkTst {S}. Arguments tk {S}. Arguments tdisk {S}. Arguments tplic {S}. Arguments tcsr {S}.

(** How [user_trap] ends: in the code of the trampoline that enters user mode
    with the trapframe and this [satp]; without a process to go on with; with
    the thread off the hart, to continue with this [intena]; asleep inside a
    system call; or in [exit], which goes on with the loop of [scheduler]. *)
Inductive uend := EnterUser (pc tf satp : Z) | NoProcess | UYield (i : nat) (intena0 : bool) | USleep | UExit.
(** How [kernel_trap] ends: back in the code that was interrupted; with the
    thread off the hart, to restore these [sepc] and [sstatus] later; or with
    this value written to the test device. *)
Inductive kend := KReturn | KYield (i : nat) (intena0 : bool) (sepc0 st0 : Z) | KReset (v : Z).

Section trap.
Context {D S : Type} `{!BlockDev D} (dv : Z) `{!BufferCache D S dv} `{!BitField} `{!Symbols} `{!TrapSymbols}.
Context (pipe_chan : Z → Pipe.chan → Z) (con_chan uart_chan arc_size disk_chan : Z).
Context (panicked : bool) (lsr : nat → bool) (spin : nat) (rd : Z → Z).
Abbreviation K := (M (kst (filest S))).
Abbreviation T := (M (tst S)).
#[local] Instance tops : FileOps (filest S) := file_ops dv pipe_chan arc_size.

Definition on_kst {A} : K A → T A := zoom tk (λ k s, mkTst k (tdisk s) (tplic s) (tcsr s)).
Definition on_virtio {A} : M vst A → T A := zoom tdisk (λ d s, mkTst (tk s) d (tplic s) (tcsr s)).
Definition on_plic {A} : M Plic.plic A → T A := zoom tplic (λ p s, mkTst (tk s) (tdisk s) p (tcsr s)).
Definition get_csr : T csrs := gets tcsr.
Definition on_csr (f : csrs → csrs) : T unit := modify (λ s, mkTst (tk s) (tdisk s) (tplic s) (f (tcsr s))).
(** [sstatus::read] and [sstatus::write]. *)
Definition read_sstatus (h : nat) : T Z := on_kst (on_mach (x ← hart_at h; mret (sstatus x))).
Definition write_sstatus (h : nat) (st : Z) : T unit :=
  on_kst (on_mach (x ← hart_at h; put_hart h (mkHart st (cpu x)))).

(** [trap::init_hart] *)
Definition init_hart : T unit := on_csr (set_stvec kernelvec).

(** ** Devices *)
Definition DISK_LOCK : lockid := LOther 0.
Definition chan_addr (c : vchan) : Z := match c with CFree => disk_chan | CBuf a => a end.
(** [DISK.lock().intr()]: the processes that wait for the requests served are
    woken. *)
Definition disk_intr (h : nat) : T unit :=
  on_kst (lock h DISK_LOCK) ;;
  before ← gets (λ s, length (vwakes (tdisk s)));
  on_virtio (Virtio.intr rd) ;;
  s ← get;
  on_kst (for_each (drop before (vwakes (tdisk s))) (λ c, wake_up h (chan_addr c))) ;;
  on_kst (unlock h DISK_LOCK).
Definition uart_intr : T unit := on_kst (on_tty con_chan uart_chan None (uart_irq panicked lsr spin)).

Definition device_intr (h : nat) : T unit :=
  r ← on_plic (Plic.plic_claim h);
  match r with
  | None => mret tt
  | Some interrupt =>
    (if interrupt =? VIRTIO0_IRQ then disk_intr h
     else if interrupt =? UART0_IRQ then uart_intr
     else panic "Unresolved interrupt") ;;
    on_plic (Plic.plic_complete h interrupt)
  end.
(** The clock interrupt: the ticks, then the pending bit. *)
Definition timer_intr (h : nat) : T unit :=
  (if Nat.eqb h 0 then on_kst (clock_intr h) else mret tt) ;;
  on_csr clear_ssoft.

(** ** Traps from user mode *)
Definition user_trap_ret (h : nat) : T uend :=
  p ← on_kst (on_mach (myproc h));
  match p with
  | None => mret NoProcess
  | Some i =>
    on_kst (on_mach (intr_off h)) ;;
    uvec ← usub 64 uservec trampoline_addr;
    vec ← uadd 64 TRAMPOLINE uvec;
    on_csr (set_stvec vec) ;;
    on_kst (user_init h i) ;;
    st ← read_sstatus h;
    write_sstatus h (user_intr_on (clear_spp st)) ;;
    d ← on_kst (data_at i);
    epc ← on_kst (on_mem (read_word (trapframe d + TF_EPC)));
    on_csr (set_sepc epc) ;;
    pgt ← unwrap (pagetable d) PageTable.unwrap_msg;
    uret ← usub 64 userret trampoline_addr;
    pc ← uadd 64 TRAMPOLINE uret;
    mret (EnterUser pc TRAPFRAME (PageTable.as_satp pgt))
  end.

(** The end of [user_trap], for process [i]. *)
Definition user_trap_tail (h i : nat) : T uend :=
  b ← on_kst (get_killed h i);
  if (b : bool) then on_kst (process_exit h (-1)) ;; mret UExit else user_trap_ret h.

(** The [match] on the cause, for process [i] with data [d]. *)
Definition user_trap_dispatch (h i : nat) (d : ProcData) (t : trap) : T uend :=
  match t with
  | TInterrupt SupervisorExternal => device_intr h ;; user_trap_tail h i
  | TInterrupt SupervisorSoft =>
    timer_intr h ;;
    b ← on_kst (get_killed h i);
    if (b : bool) then on_kst (process_exit h (-1)) ;; mret UExit else
    intena0 ← on_kst (yielding h i);
    mret (UYield i intena0)
  | TException UserEnvCall =>
    b ← on_kst (get_killed h i);
    if (b : bool) then on_kst (process_exit h (-1)) ;; mret UExit else
    on_kst (on_mem (
      epc ← read_word (trapframe d + TF_EPC);
      epc' ← uadd 64 epc 4;
      write_word (trapframe d + TF_EPC) epc')) ;;
    on_kst (on_mach (intr_on h)) ;;
    r ← on_kst (syscall_handler dv pipe_chan con_chan uart_chan arc_size panicked lsr h);
    match r with
    | Asleep => mret USleep
    | Ends _ => user_trap_tail h i
    end
  | TException StorePageFault =>
    pgt ← unwrap (pagetable d) PageTable.unwrap_msg;
    c ← get_csr;
    r ← on_kst (on_mem (PageTable.uload_page pgt (stval c)));
    (match r with Ok _ => mret tt | Err _ => on_kst (set_killed h i true) end) ;;
    user_trap_tail h i
  | _ =>
    on_kst (get_pid h i) ;;
    on_kst (set_killed h i true) ;;
    user_trap_tail h i
  end.
Definition user_trap (h : nat) : T uend :=
  c ← get_csr;
  st ← read_sstatus h;
  if negb (is_from_user st) then panic "user_trap(): not from user mode." else
  on_csr (set_stvec kernelvec) ;;
  p ← on_kst (on_mach (myproc h));
  match p with
  | None => mret NoProcess
  | Some i =>
    d ← on_kst (data_at i);
    on_kst (on_mem (write_word (trapframe d + TF_EPC) (sepc c))) ;;
    t ← unwrap (cause_of (scause c)) "called `Result::unwrap()` on an `Err` value";
    user_trap_dispatch h i d t
  end.
(** Behind [p.yielding()], on the hart the process is scheduled on. *)
Definition user_trap_resume (h i : nat) (intena0 : bool) : T uend :=
  on_kst (yielding_resume h i intena0) ;;
  user_trap_tail h i.

(** ** Traps from the kernel

    [which] is the number of a call of [kernel_env_call], in [a7]. *)
Definition kernel_trap_end (h : nat) (sepc0 st0 : Z) : T kend :=
  on_csr (set_sepc sepc0) ;;
  write_sstatus h st0 ;;
  mret KReturn.
Definition kernel_trap (h : nat) (which : Z) : T kend :=
  c ← get_csr;
  st ← read_sstatus h;
  if negb (is_from_supervisor st) then panic "Not from supervisor mode" else
  if sie_get st then panic "kernel_trap(): interrupts enabled" else
  t ← unwrap (cause_of (scause c)) "called `Result::unwrap()` on an `Err` value";
  match t with
  | TException Breakpoint =>
    pc ← uadd 64 (sepc c) 2;
    kernel_trap_end h pc st
  | TException LoadFault => panic "Load Fault"
  | TException LoadPageFault => panic "[Panic] Load Page Fault!"
  | TException StorePageFault => panic "[Panic] Store Page Fault!"
  | TException SupervisorEnvCall =>
    if which =? Shutdown.SHUTDOWN then
      mret (KReset (Shutdown.system_reset Shutdown.RESET_TYPE_SHUTDOWN Shutdown.RESET_REASON_NO_REASON))
    else if which =? Shutdown.REBOOT then
      mret (KReset (Shutdown.system_reset Shutdown.RESET_TYPE_COLD_REBOOT Shutdown.RESET_REASON_NO_REASON))
    else panic "Unresolved Kernel syscall"
  | TException InstructionFault => panic "Instruction Fault"
  | TException InstructionPageFault => panic "[Panic] Instruction Page Fault"
  | TInterrupt SupervisorExternal => device_intr h ;; kernel_trap_end h (sepc c) st
  | TInterrupt SupervisorSoft =>
    timer_intr h ;;
    r ← on_kst (try_yield_proc h);
    match r with
    | Some (i, intena0) => mret (KYield i intena0 (sepc c) st)
    | None => kernel_trap_end h (sepc c) st
    end
  | _ => panic "Unresolved Trap!"
  end.
(** Behind the yield, on the hart [h] the thread is scheduled on. *)
Definition kernel_trap_resume (h i : nat) (intena0 : bool) (sepc0 st0 : Z) : T kend :=
  on_kst (yielding_resume h i intena0) ;;
  kernel_trap_end h sepc0 st0.
End trap.
