(* ===== verification/TrapSafe.v ===== *)
(** * Traps: what the handlers guarantee

    Returning to user mode, the copy-on-write fault end to end, device
    interrupts, and the transparency of traps taken in kernel code. *)
From S2P Require Import Virtio Console Prelude Layout Pte Kalloc PageTable PageTableFacts MapFacts Cow UserSpace.
From S2P Require Import Bcache BcacheFacts Fs FsFile Pipe Spin SpinSafe Proc File SysFile Syscall Trap.
Import PageTableEntry.

(** ** The hardware

    Taking a trap into supervisor mode and [sret], of the RISC-V privileged
    specification: [user] tells the mode, [pc] the next instruction. *)
Definition SPP_bit : Z := 8.
Definition SPIE_bit : Z := 5.
Definition SIE_bit : Z := 1.
Definition put_bit (i : Z) (b : bool) (x : Z) : Z := if b then Z.setbit x i else Z.clearbit x i.
(** The status register on entry from a mode, and after [sret]. *)
Definition entry_status (user : bool) (st : Z) : Z :=
  put_bit SPP_bit (negb user) (put_bit SPIE_bit (Z.testbit st SIE_bit) (put_bit SIE_bit false st)).
Definition sret_status (st : Z) : Z :=
  put_bit SPP_bit false (put_bit SPIE_bit true (put_bit SIE_bit (Z.testbit st SPIE_bit) st)).
Definition sret_user (st : Z) : bool := negb (Z.testbit st SPP_bit).

Lemma put_bit_spec i b x j : 0 ≤ i → Z.testbit (put_bit i b x) j = if i =? j then b else Z.testbit x j.
Proof.
  intros Hi. unfold put_bit. destruct b; [rewrite Z.setbit_eqb by done|rewrite Z.clearbit_eqb];
    destruct (i =? j); by rewrite ?andb_false_r, ?andb_true_r.
Qed.
Lemma sret_sie st : Z.testbit (sret_status st) SIE_bit = Z.testbit st SPIE_bit.
Proof. unfold sret_status. by rewrite !put_bit_spec. Qed.

Lemma spp_bit st : is_from_user st = negb (Z.testbit st SPP_bit).
Proof.
  unfold is_from_user, SSTATUS_SPP, SPP_bit. change (Z.shiftl 1 8) with (2 ^ 8).
  rewrite <- (land_pow2_pos st 8) by lia.
  destruct (Z.eqb_spec (Z.land st (2 ^ 8)) 0) as [->|Hn]; [done|]. symmetry. apply negb_false_iff, Z.ltb_lt.
  assert (0 ≤ Z.land st (2 ^ 8)); [|lia]. apply Z.land_nonneg. by right.
Qed.
(** A trap taken in supervisor mode: what [sret] makes of its status. *)
Lemma entry_supervisor st0 : let st := entry_status false st0 in
  is_from_supervisor st = true ∧ sie_get st = false ∧ sret_user st = false ∧
  Z.testbit (sret_status st) SIE_bit = Z.testbit st0 SIE_bit.
Proof.
  intros st. assert (is_from_supervisor st = negb (is_from_user st)) as -> by done.
  rewrite spp_bit, sie_bit, sret_sie. unfold sret_user, st, entry_status. by rewrite !put_bit_spec.
Qed.

Section machine.
Context (O : nat → option hart) (h : nat).
Implicit Types (st : Z) (m : mach) (p : option nat).

Lemma holds_status st p m : holds O h st p ∅ m → ∃ x, harts m !! h = Some x ∧ sstatus x = st ∧ process (cpu x) = p.
Proof.
  intros H. destruct (ho_hart _ _ _ _ _ _ H) as (x & c & Ex & N). exists x. split_and!; [done| |apply N].
  rewrite (ne_st _ _ _ _ _ N), size_empty. done.
Qed.
(** Writing the status register while holding no lock. *)
Lemma holds_write st st' p m x :
  holds O h st p ∅ m → harts m !! h = Some x → in_u 64 st' →
  holds O h st' p ∅ (set_hart h (mkHart st' (cpu x)) m).
Proof.
  intros H Ex Hst'. destruct (ho_hart _ _ _ _ _ _ H) as (x' & c & Ex' & N). rewrite Ex in Ex'. injection Ex' as <-.
  split; [done| |apply H|].
  - exists (mkHart st' (cpu x)), c. split; [by eapply set_hart_lookup|].
    destruct N as [N1 N2 N3 N4 N5 N6]. rewrite size_empty in *. by split.
  - intros h' Hne. rewrite set_hart_other by done. by apply H.
Qed.
(** Changing the hart's own record, inside the locks. *)
Lemma holds_cpu st st' p p' L m x x' :
  holds O h st p L m → harts m !! h = Some x → in_u 64 st' →
  (∀ c, nested st p c (Z.of_nat (size L)) x → nested st' p' c (Z.of_nat (size L)) x') →
  holds O h st' p' L (set_hart h x' m).
Proof.
  intros H Ex Hst' HN. destruct (ho_hart _ _ _ _ _ _ H) as (y & c & Ey & N). rewrite Ex in Ey. injection Ey as <-.
  split; [done| |apply H|].
  - exists x', c. split; [by eapply set_hart_lookup|by apply HN].
  - intros h' Hne. rewrite set_hart_other by done. by apply H.
Qed.
End machine.

Section trap.
Context {S : Type} `{Sym : Symbols} `{TSym : TrapSymbols} (O : nat → option hart) (h : nat).
Abbreviation kernel := (kst (filest S)).
Implicit Types (k : kernel) (s : tst S) (i : nat) (q : Process) (st : Z).

Definition with_tk k s : tst S := mkTst k (tdisk s) (tplic s) (tcsr s).
Definition with_csr (c : csrs) s : tst S := mkTst (tk s) (tdisk s) (tplic s) c.

Lemma on_kst_run {A} (m : M kernel A) s a k : m (tk s) = Done (a, k) → on_kst m s = Done (a, with_tk k s).
Proof. intros E. unfold on_kst, zoom. by rewrite E. Qed.
Lemma on_mach_run {A} (m : M mach A) k a x : m (kmach k) = Done (a, x) → on_mach m k = Done (a, set_kmach x k).
Proof. intros E. unfold on_mach, zoom. by rewrite E. Qed.
Lemma on_mem_k {A} (m : M mem A) k a x : m (kmem k) = Done (a, x) → on_mem m k = Done (a, set_kmem x k).
Proof. intros E. unfold on_mem, zoom. by rewrite E. Qed.

Lemma on_csr_run f s : on_csr f s = Done (tt, with_csr (f (tcsr s)) s).
Proof. done. Qed.

(** ** Operations that change the machine only *)
Lemma few_none_held : few ∅.
Proof. unfold few. rewrite size_empty. done. Qed.
Lemma few_one_held l : few ({[l]} ∪ ∅).
Proof. unfold few. rewrite union_empty_r_L, size_singleton. done. Qed.

Lemma myproc_k st p k :
  holds O h st p ∅ (kmach k) → ∃ x, on_mach (myproc h) k = Done (p, set_kmach x k) ∧ holds O h st p ∅ x.
Proof.
  intros H. destruct (myproc_run O h st p (kmach k) ∅ H few_none_held) as (x & E & Hx).
  exists x. split; [by apply on_mach_run|done].
Qed.
Lemma locked_k {A} st p k l (f : M kernel A) a k1 :
  holds O h st p ∅ (kmach k) →
  (∀ x, holds O h st p ({[l]} ∪ ∅) x → f (set_kmach x k) = Done (a, set_kmach x k1)) →
  ∃ x, (lock h l ;; r ← f; unlock h l ;; mret r) k = Done (a, set_kmach x k1) ∧ holds O h st p ∅ x.
Proof.
  intros H Hf. destruct (lock_run O h st p (kmach k) ∅ l H) as (x & E & Hx); [set_solver|apply few_none_held|].
  destruct (unlock_run O h st p x ({[l]} ∪ ∅) l Hx) as (y & E' & Hy); [set_solver|].
  exists y. split; [|by replace (({[l]} ∪ ∅) ∖ {[l]}) with (∅ : gset lockid) in Hy by set_solver].
  unfold lock. mstep (on_mach_run _ _ _ _ E). mstep (Hf x Hx).
  unfold unlock. erewrite bind_run; [|apply on_mach_run; exact E']. done.
Qed.
Lemma bind_assoc_k {A B C} (m : M kernel A) (f : A → M kernel B) (g : B → M kernel C) k :
  (m ≫= λ a, f a ≫= g) k = ((m ≫= f) ≫= g) k.
Proof. by rewrite bind_assoc. Qed.

Lemma meta_at_run k i q : procs k !! i = Some q → meta_at i k = Done (meta q, k).
Proof. intros E. unfold meta_at, proc_at. rewrite bind_assoc, bind_get, E. done. Qed.
Lemma data_at_run k i q : procs k !! i = Some q → data_at i k = Done (data q, k).
Proof. intros E. unfold data_at, proc_at. rewrite bind_assoc, bind_get, E. done. Qed.

(** [p.killed()], [p.pid()] and [p.set_killed()]. *)
Lemma read_meta_run {A} st p k i q (f : ProcMeta → A) :
  holds O h st p ∅ (kmach k) → procs k !! i = Some q →
  ∃ x, (lock h (LProc i) ;; m ← meta_at i; unlock h (LProc i) ;; mret (f m)) k = Done (f (meta q), set_kmach x k) ∧
    holds O h st p ∅ x.
Proof.
  intros H Hq. destruct (locked_k st p k (LProc i) (meta_at i) (meta q) k H) as (x & E & Hx).
  { intros x _. by apply meta_at_run. }
  exists x. split; [|done]. revert E. unfold mbind, M_bind, mret, M_ret.
  destruct (lock h (LProc i) k) as [[[] k1]| | |]; [|done..].
  destruct (meta_at i k1) as [[m k2]| | |]; [|done..].
  destruct (unlock h (LProc i) k2) as [[[] k3]| | |]; [|done..]. intros [= -> ->]. done.
Qed.

(** ** The trapframe

    Words of the trapframe page: 0 to 4 are the fields of the kernel, 3 the
    saved program counter. *)
Record has_tf (m : mem) (tf : Z) : Prop := { tf_al : tf mod PGSIZE = 0; tf_in : is_Some (ram m !! tf) }.
Lemma has_tf_set m tf (i w : Z) : has_tf m tf → has_tf (set_word m tf i w) tf.
Proof. intros [? ?]. split; [done|]. by apply set_word_dom. Qed.
Lemma tf_write m tf (i w : Z) :
  has_tf m tf → 0 ≤ i < 512 → write_word (tf + i * 8) w m = Done (tt, set_word m tf i w).
Proof. intros [? ?] ?. by apply set_word_run. Qed.

(** What [user_init] stores for the next trap. *)
Definition tf_kernel (sp : Z) (tf : Z) (m : mem) : mem :=
  set_word (set_word (set_word (set_word m tf 0 kernel_satp) tf 1 sp) tf 2 user_trap_addr) tf 4 (Z.of_nat h).
Lemma user_init_run k i q :
  procs k !! i = Some q → has_tf (kmem k) (trapframe (data q)) → kstack (data q) + STACK_SIZE < 2 ^ 64 →
  user_init h i k =
    Done (tt, set_kmem (tf_kernel (kstack (data q) + STACK_SIZE) (trapframe (data q)) (kmem k)) k).
Proof.
  intros Hq Htf Hsp. unfold user_init. mstep (data_at_run _ _ _ Hq). rewrite bind_uadd by done.
  apply on_mem_k. set (tf := trapframe (data q)) in *.
  mstep (tf_write (kmem k) tf 0 kernel_satp Htf ltac:(lia)). apply (has_tf_set _ _ 0 kernel_satp) in Htf.
  mstep (tf_write _ tf 1 (kstack (data q) + STACK_SIZE) Htf ltac:(lia)).
  apply (has_tf_set _ _ 1 (kstack (data q) + STACK_SIZE)) in Htf.
  mstep (tf_write _ tf 2 user_trap_addr Htf ltac:(lia)). apply (has_tf_set _ _ 2 user_trap_addr) in Htf.
  exact (tf_write _ tf 4 (Z.of_nat h) Htf ltac:(lia)).
Qed.
Record tf_mem (m : mem) (tf : Z) : Prop := { tm_tf : has_tf m tf; tm_ok : ram_ok (ram m) }.
Lemma tf_mem_set m tf (i w : Z) : tf_mem m tf → in_u 64 w → tf_mem (set_word m tf i w) tf.
Proof.
  intros [Htf Hok] Hw. split; [by apply has_tf_set|]. destruct (tf_in _ _ Htf) as [ws Hws].
  intros p ws'. unfold set_word. cbn [ram]. rewrite lookup_alter. case_decide as Ep; [subst|apply Hok].
  rewrite Hws. cbn [fmap option_fmap option_map]. intros [= <-]. destruct (Hok _ _ Hws). split; [done|].
  by apply page_ok_insert.
Qed.
Lemma tf_mem_word m tf (i j w : Z) : tf_mem m tf → 0 ≤ i < 512 → 0 ≤ j →
  word (set_word m tf i w) tf j = if decide (i = j) then Some w else word m tf j.
Proof.
  intros [[_ Hin] Hok] Hi Hj. rewrite word_set_word by done. apply decide_ext. naive_solver.
Qed.
Record boot_words sp : Prop := { bw_satp : in_u 64 kernel_satp; bw_trap : in_u 64 user_trap_addr; bw_sp : in_u 64 sp;
  bw_hart : in_u 64 (Z.of_nat h) }.
Lemma tf_kernel_ok m tf sp : tf_mem m tf → boot_words sp → tf_mem (tf_kernel sp tf m) tf.
Proof. intros Hm [? ? ? ?]. unfold tf_kernel. by repeat apply tf_mem_set. Qed.
Lemma tf_kernel_word m tf sp (i : Z) : tf_mem m tf → boot_words sp → 0 ≤ i →
  word (tf_kernel sp tf m) tf i =
    if decide (4 = i) then Some (Z.of_nat h) else if decide (2 = i) then Some user_trap_addr
    else if decide (1 = i) then Some sp else if decide (0 = i) then Some kernel_satp else word m tf i.
Proof.
  intros Hm [? ? ? ?] Hi. unfold tf_kernel.
  rewrite (tf_mem_word _ tf 4), (tf_mem_word _ tf 2), (tf_mem_word _ tf 1), (tf_mem_word _ tf 0)
    by (repeat apply tf_mem_set; done || lia). done.
Qed.
Lemma tf_kernel_ram m tf sp p : p ≠ tf → ram (tf_kernel sp tf m) !! p = ram m !! p.
Proof. intros. unfold tf_kernel. by rewrite !set_word_ram_ne. Qed.

(** ** Returning to user mode *)
Definition user_status st : Z := user_intr_on (clear_spp (sie_off st)).
Lemma clear_spp_bits st (i : Z) : in_u 64 st → 0 ≤ i → Z.testbit (clear_spp st) i = Z.testbit st i && negb (i =? 8).
Proof.
  intros Hst Hi. unfold clear_spp, unot, SSTATUS_SPP. change (Z.shiftl 1 8) with (2 ^ 8).
  rewrite Z.land_spec, Z.ldiff_spec, Z.pow2_bits_eqb, Z.testbit_ones_nonneg by lia.
  rewrite (Z.eqb_sym 8 i). destruct (Z.ltb_spec i 64); [done|]. by rewrite (high_bits_zero st 64).
Qed.
Lemma user_status_bits st (i : Z) : in_u 64 st → 0 ≤ i →
  Z.testbit (user_status st) i =
    if i =? SPIE_bit then true else if (i =? SPP_bit) || (i =? SIE_bit) then false else Z.testbit st i.
Proof.
  intros Hst Hi. unfold user_status, user_intr_on, SSTATUS_SPIE. change (Z.shiftl 1 5) with (2 ^ 5).
  rewrite Z.lor_spec, Z.pow2_bits_eqb, clear_spp_bits, sie_off_bits by (done || apply sie_off_range; done).
  rewrite (Z.eqb_sym 5 i). unfold SPIE_bit, SPP_bit, SIE_bit.
  destruct (Z.eqb_spec i 5); [by rewrite orb_true_r|]. rewrite orb_false_r.
  destruct (Z.eqb_spec i 8), (Z.eqb_spec i 1); by rewrite ?andb_false_r, ?andb_true_r.
Qed.
Lemma user_status_range st : in_u 64 st → in_u 64 (user_status st).
Proof.
  intros Hst. apply lor_in_u; [done| |by split; vm_compute]. apply sie_off_range in Hst as Ho.
  assert (0 ≤ clear_spp (sie_off st)) as Hn by (apply Z.land_nonneg; left; apply Ho).
  split; [done|]. apply bits_bound; [done..|]. intros i Hi. rewrite clear_spp_bits by (done || lia).
  by rewrite (high_bits_zero (sie_off st) 64).
Qed.

(** Process [i] is on the hart, with its trapframe and page table. *)
Record ready st i q pgt s : Prop := {
  rd_holds : holds O h st (Some i) ∅ (kmach (tk s));
  rd_proc : procs (tk s) !! i = Some q;
  rd_pgt : pagetable (data q) = Some pgt;
  rd_tf : tf_mem (kmem (tk s)) (trapframe (data q));
  rd_sp : boot_words (kstack (data q) + STACK_SIZE);
  rd_code : trampoline_addr ≤ uservec < trampoline_addr + PGSIZE ∧ trampoline_addr ≤ userret < trampoline_addr + PGSIZE
}.
(** The machine that enters user mode. *)
Record returned st i q s s' : Prop := {
  rt_kst : ∃ x, tk s' = set_kmem (tf_kernel (kstack (data q) + STACK_SIZE) (trapframe (data q)) (kmem (tk s)))
    (set_kmach x (tk s)) ∧ holds O h (user_status st) (Some i) ∅ x;
  rt_dev : tdisk s' = tdisk s ∧ tplic s' = tplic s;
  rt_sepc : word (kmem (tk s)) (trapframe (data q)) 3 = Some (sepc (tcsr s'));
  rt_stvec : stvec (tcsr s') = TRAMPOLINE + (uservec - trampoline_addr)
}.
Lemma user_trap_ret_run st i q pgt s :
  ready st i q pgt s →
  ∃ s', user_trap_ret h s =
      Done (EnterUser (TRAMPOLINE + (userret - trampoline_addr)) TRAPFRAME (PageTable.as_satp pgt), s') ∧
    returned st i q s s'.
Proof.
  intros [H Hq Hpgt Htf Hsp [Hu1 Hu2]]. unfold user_trap_ret.
  destruct (myproc_k st (Some i) (tk s) H) as (x1 & E1 & H1). mstep (on_kst_run _ _ _ _ E1).
  destruct (holds_status _ _ _ _ _ H1) as (y1 & Ey1 & Hst1 & _). pose proof (ho_st _ _ _ _ _ _ H) as Hst.
  set (k1 := set_kmach x1 (tk s)).
  assert (on_mach (intr_off h) k1 = Done (tt, set_kmach (set_hart h (mkHart (sie_off st) (cpu y1)) x1) k1)) as E2.
  { apply on_mach_run. unfold intr_off. mstep (hart_at_run _ _ _ Ey1). by rewrite Hst1. }
  erewrite bind_run; [|apply on_kst_run; exact E2]. cbv zeta.
  pose proof (holds_write O h st (sie_off st) (Some i) x1 y1 H1 Ey1 (sie_off_range _ Hst)) as H2.
  set (x2 := set_hart h _ x1) in *.
  rewrite bind_usub by lia. rewrite bind_uadd by layout_lia.
  mstep (on_csr_run (set_stvec (TRAMPOLINE + (uservec - trampoline_addr)))
    (with_tk (set_kmach x2 k1) (with_tk k1 s))).
  set (s2 := with_csr _ _).
  assert (tk s2 = set_kmach x2 (tk s)) as Hk2 by done.
  erewrite bind_run; [|apply on_kst_run; rewrite Hk2; apply (user_init_run _ i q); [done|apply Htf|apply Hsp]].
  set (m3 := tf_kernel _ _ _). change (kmem (set_kmach x2 (tk s))) with (kmem (tk s)) in m3.
  set (s3 := with_tk _ s2).
  destruct (holds_status _ _ _ _ _ H2) as (y2 & Ey2 & Hst2 & _).
  assert (read_sstatus h s3 = Done (sie_off st, s3)) as E3.
  { unfold read_sstatus. etrans; [apply on_kst_run, on_mach_run; mstep (hart_at_run _ _ _ Ey2); by rewrite Hst2|].
    done. }
  mstep E3. fold (user_status st).
  assert (write_sstatus h (user_status st) s3 = Done (tt, with_tk (set_kmach
    (set_hart h (mkHart (user_status st) (cpu y2)) x2) (tk s3)) s3)) as E4.
  { unfold write_sstatus. apply on_kst_run, on_mach_run. by mstep (hart_at_run _ _ _ Ey2). }
  mstep E4.
  pose proof (holds_write O h _ (user_status st) (Some i) x2 y2 H2 Ey2 (user_status_range _ Hst)) as H4.
  set (x4 := set_hart h (mkHart (user_status st) (cpu y2)) x2) in *.
  set (s4 := with_tk _ s3).
  assert (on_kst (data_at i) s4 = Done (data q, s4)) as E5.
  { etrans; [apply on_kst_run; by apply (data_at_run _ i q)|]. done. }
  mstep E5.
  destruct (word_is_Some (kmem (tk s)) (trapframe (data q)) 3) as (epc & Hepc & _);
    [apply Htf|apply Htf|lia|].
  assert (on_kst (on_mem (read_word (trapframe (data q) + TF_EPC))) s4 = Done (epc, s4)) as E6.
  { etrans; [apply on_kst_run, on_mem_k, (word_run _ (trapframe (data q)) 3); [|apply Htf|lia]|done].
    change (kmem (tk s4)) with m3. unfold m3. rewrite tf_kernel_word by (done || lia). done. }
  mstep E6. mstep (on_csr_run (set_sepc epc) s4). rewrite Hpgt. cbn [unwrap]. rewrite bind_ret_l.
  rewrite bind_usub by lia. rewrite bind_uadd by layout_lia.
  eexists. split; [reflexivity|]. split; [|done|done|done].
  exists x4. split; [reflexivity|done].
Qed.

(** The changes of the machine between two steps do not matter. *)
Lemma ready_mach st i q pgt s x :
  ready st i q pgt s → holds O h st (Some i) ∅ x → ready st i q pgt (with_tk (set_kmach x (tk s)) s).
Proof. intros [? ? ? ? ? ?] ?. by split. Qed.
Lemma returned_mach st i q s x s' : returned st i q (with_tk (set_kmach x (tk s)) s) s' → returned st i q s s'.
Proof. intros [? ? ? ?]. by split. Qed.
Lemma read_sstatus_run st p s :
  holds O h st p ∅ (kmach (tk s)) → read_sstatus h s = Done (st, s).
Proof.
  intros H. destruct (holds_status _ _ _ _ _ H) as (y & Ey & Hst & _). unfold read_sstatus.
  etrans; [apply on_kst_run, on_mach_run; mstep (hart_at_run _ _ _ Ey); by rewrite Hst|].
  destruct s as [k d pl c]. by destruct k.
Qed.
(** ** Yielding *)
Definition yielded i q k : kernel :=
  set_procs (<[i := mkProcess (ProcMeta.set_state (meta q) Runnable) (data q)]> (procs k)) k.
Lemma mycpu_run k x : harts (kmach k) !! h = Some x → on_mach (mycpu h) k = Done (cpu x, k).
Proof.
  intros Ex. etrans; [apply on_mach_run; unfold mycpu; by mstep (hart_at_run _ _ _ Ex)|]. by destruct k.
Qed.
Lemma yielding_run st k i q :
  holds O h st (Some i) ∅ (kmach k) → procs k !! i = Some q →
  ∃ x, yielding h i k = Done (sie_get st, set_kmach x (yielded i q k)) ∧ holds O h st None ∅ x.
Proof.
  intros H Hq. pose proof (ho_st _ _ _ _ _ _ H) as Hst.
  destruct (lock_run O h st (Some i) (kmach k) ∅ (LProc i) H) as (x1 & E1 & H1); [set_solver|apply few_none_held|].
  rewrite union_empty_r_L in H1.
  unfold yielding, lock. mstep (on_mach_run _ _ _ _ E1). mstep (meta_at_run (set_kmach x1 k) i q Hq).
  unfold put_meta, proc_at at 1. rewrite bind_assoc, bind_assoc, bind_get. rewrite (Hq : procs (set_kmach x1 k) !! i = Some q). cbn [unwrap]. rewrite bind_ret_l.
  unfold put_proc at 1. rewrite bind_modify.
  change (set_procs _ (set_kmach x1 k)) with (set_kmach x1 (yielded i q k)).
  destruct (ho_hart _ _ _ _ _ _ H1) as (y & c & Ey & N). rewrite size_singleton in N.
  unfold sched. mstep (mycpu_run (set_kmach x1 (yielded i q k)) y Ey).
  rewrite (ne_noff _ _ _ _ _ N). rewrite bind_assert by done.
  erewrite bind_run; [|apply (meta_at_run _ i); apply list_lookup_insert_eq; by eapply lookup_lt_Some].
  cbn [meta ProcMeta.set_state state]. rewrite bind_assert by done.
  assert (on_mach (intr_get h) (set_kmach x1 (yielded i q k)) = Done (false, set_kmach x1 (yielded i q k))) as Ei.
  { etrans; [apply on_mach_run; unfold intr_get; mstep (hart_at_run _ _ _ Ey);
      rewrite (ne_st _ _ _ _ _ N); change (Z.of_nat 1 =? 0) with false; cbv iota; by rewrite sie_get_off|done]. }
  mstep Ei. rewrite bind_assert by done.
  set (y' := mkHart (sstatus y) (CPU.set_proc (cpu y) None)).
  assert (holds O h st None {[LProc i]} (set_hart h y' x1)) as H2.
  { eapply holds_cpu; [exact H1|done|done|]. rewrite size_singleton. intros c' N'. destruct N'. by split. }
  assert (on_mach (c ← mycpu h; put_cpu h (CPU.set_proc c None)) (set_kmach x1 (yielded i q k)) =
    Done (tt, set_kmach (set_hart h y' x1) (yielded i q k))) as Ep.
  { etrans; [apply on_mach_run; unfold mycpu; rewrite bind_assoc; mstep (hart_at_run _ _ _ Ey); rewrite bind_ret_l;
      by apply put_cpu_run|done]. }
  mstep Ep. destruct (unlock_run O h st None (set_hart h y' x1) {[LProc i]} (LProc i) H2) as (x3 & E3 & H3); [set_solver|].
  unfold unlock. erewrite bind_run; [|apply on_mach_run; exact E3].
  exists x3. rewrite difference_diag_L in H3. split; [|done]. by rewrite (ne_intena _ _ _ _ _ N).
Qed.
Lemma yielding_resume_run st k i b :
  holds O h st (Some i) {[LProc i]} (kmach k) →
  ∃ x, yielding_resume h i b k = Done (tt, set_kmach x k) ∧ ∃ st', holds O h st' (Some i) ∅ x.
Proof.
  intros H. destruct (ho_hart _ _ _ _ _ _ H) as (y & c & Ey & N). pose proof (ho_st _ _ _ _ _ _ H) as Hst.
  rewrite size_singleton in N. set (y' := mkHart (sstatus y) (set_intena (cpu y) b)).
  set (st' := if b then sie_on (sie_off st) else sie_off st).
  assert (holds O h st' (Some i) {[LProc i]} (set_hart h y' (kmach k))) as H2.
  { eapply holds_cpu; [exact H|done|unfold st'; destruct b; auto using sie_on_range, sie_off_range|].
    rewrite size_singleton. intros c' [N1 N2 N3 N4 N5 N6]. split; try done.
    - simpl in *. rewrite N5. unfold st'. destruct b; symmetry.
      + apply Z.bits_inj'. intros j Hj. rewrite !sie_off_bits, sie_on_bits, sie_off_bits by
          auto using sie_on_range, sie_off_range. destruct (j =? 1); by rewrite ?andb_false_r, ?orb_false_r, ?andb_true_r.
      + apply sie_off_id; [by apply sie_off_range|by apply sie_get_off].
    - intros _. simpl. unfold st'. destruct b; [by rewrite sie_get_on|by rewrite sie_get_off]. }
  unfold yielding_resume, sched_resume.
  erewrite bind_run; [|apply on_mach_run; unfold mycpu; rewrite bind_assoc; mstep (hart_at_run _ _ _ Ey);
    rewrite bind_ret_l; by apply put_cpu_run].
  destruct (unlock_run O h st' (Some i) (set_hart h y' (kmach k)) {[LProc i]} (LProc i) H2) as (x3 & E3 & H3); [set_solver|].
  exists x3. rewrite difference_diag_L in H3. split; [|by exists st'].
  exact (on_mach_run _ (set_kmach (set_hart h y' (kmach k)) k) _ _ E3).
Qed.

(** ** Traps in kernel code *)
Lemma write_sstatus_run st st' p s :
  holds O h st p ∅ (kmach (tk s)) → in_u 64 st' →
  ∃ x, write_sstatus h st' s = Done (tt, with_tk (set_kmach x (tk s)) s) ∧ holds O h st' p ∅ x.
Proof.
  intros H Hst'. destruct (holds_status _ _ _ _ _ H) as (y & Ey & _).
  exists (set_hart h (mkHart st' (cpu y)) (kmach (tk s))). split; [|by eapply holds_write].
  unfold write_sstatus. apply on_kst_run, on_mach_run. by mstep (hart_at_run _ _ _ Ey).
Qed.
Lemma kernel_trap_end_run st p s pc st0 :
  holds O h st p ∅ (kmach (tk s)) → in_u 64 st0 →
  ∃ x, kernel_trap_end h pc st0 s =
      Done (KReturn, mkTst (set_kmach x (tk s)) (tdisk s) (tplic s) (set_sepc pc (tcsr s))) ∧
    holds O h st0 p ∅ x.
Proof.
  intros H Hst0. unfold kernel_trap_end. mstep (on_csr_run (set_sepc pc) s).
  destruct (write_sstatus_run st st0 p (with_csr (set_sepc pc (tcsr s)) s) H Hst0) as (x & E & Hx).
  exists x. mstep E. done.
Qed.
Lemma clock_intr_run st p k :
  holds O h st p ∅ (kmach k) → h = 0%nat → ticks k + 1 < 2 ^ 64 →
  ∃ x, clock_intr h k = Done (tt, set_kmach x (set_ticks (ticks k + 1) k)) ∧ holds O h st p ∅ x.
Proof.
  intros H Hh Ht. unfold clock_intr. rewrite (proj2 (Nat.eqb_eq _ _) Hh).
  destruct (lock_run O h st p (kmach k) ∅ LTicks H) as (x & E & Hx); [set_solver|apply few_none_held|].
  destruct (unlock_run O h st p x ({[LTicks]} ∪ ∅) LTicks Hx) as (y & E' & Hy); [set_solver|].
  exists y. split; [|by replace (({[LTicks]} ∪ ∅) ∖ {[LTicks]}) with (∅ : gset lockid) in Hy by set_solver].
  unfold lock. mstep (on_mach_run _ _ _ _ E). rewrite bind_get, bind_uadd by done. rewrite bind_modify.
  exact (on_mach_run _ (set_kmach x (set_ticks (ticks k + 1) k)) _ _ E').
Qed.
Definition ticked k : kernel := set_ticks (ticks k + if Nat.eqb h 0 then 1 else 0) k.
Lemma timer_intr_run st p s :
  holds O h st p ∅ (kmach (tk s)) → ticks (tk s) + 1 < 2 ^ 64 →
  ∃ x, timer_intr h s =
      Done (tt, mkTst (set_kmach x (ticked (tk s))) (tdisk s) (tplic s) (clear_ssoft (tcsr s))) ∧
    holds O h st p ∅ x.
Proof.
  intros H Ht. unfold timer_intr, ticked. destruct (Nat.eqb h 0) eqn:Eh.
  - destruct (clock_intr_run st p (tk s) H) as (x & E & Hx); [by apply Nat.eqb_eq|done|].
    exists x. split; [|done]. erewrite bind_run; [|apply on_kst_run; exact E]. done.
  - exists (kmach (tk s)). split; [|done]. rewrite Z.add_0_r. by destruct s as [[] ? ? ?].
Qed.
Lemma try_yield_run st p k :
  holds O h st p ∅ (kmach k) → (∀ i, p = Some i → is_Some (procs k !! i)) →
  (∃ x, try_yield_proc h k = Done (None, set_kmach x k) ∧ holds O h st p ∅ x ∧
     ∀ i q, p = Some i → procs k !! i = Some q → state (meta q) ≠ Running) ∨
  (∃ i q x, p = Some i ∧ procs k !! i = Some q ∧ state (meta q) = Running ∧
     try_yield_proc h k = Done (Some (i, sie_get st), set_kmach x (yielded i q k)) ∧ holds O h st None ∅ x).
Proof.
  intros H Hp. destruct (holds_status _ _ _ _ _ H) as (y & Ey & _ & Hpy).
  unfold try_yield_proc. rewrite (bind_run _ _ _ _ _ (mycpu_run k y Ey)). rewrite Hpy.
  destruct p as [i|]; [|left; exists (kmach k); split_and!; [by destruct k|done|done]].
  destruct (Hp i eq_refl) as [q Hq].
  destruct (read_meta_run st (Some i) k i q id H Hq) as (x & E & Hx).
  assert (∀ B (f : ProcMeta → M kernel B), (lock h (LProc i) ;; m ← meta_at i; unlock h (LProc i) ;; f m) k =
    f (meta q) (set_kmach x k)) as Hf.
  { intros B f. revert E. unfold mbind, M_bind, mret, M_ret, id.
    destruct (lock h (LProc i) k) as [[[] k1]| | |]; [|done..]. destruct (meta_at i k1) as [[m k2]| | |]; [|done..].
    destruct (unlock h (LProc i) k2) as [[[] k3]| | |]; [|done..]. by intros [= -> ->]. }
  rewrite Hf. destruct (bool_decide_reflect (state (meta q) = Running)) as [Hr|Hr].
  - right. destruct (yielding_run st (set_kmach x k) i q Hx Hq) as (x' & E' & Hx').
    exists i, q, x'. split_and!; [done..| |done]. by mstep E'.
  - left. exists x. split_and!; [done|done|]. intros i' q' [= <-] Hq'. congruence.
Qed.
(** ** From user mode *)
Context {D : Type} `{!BlockDev D} (dv : Z) `{!BufferCache D S dv} `{BF : BitField}.
Context (pipe_chan : Z → Pipe.chan → Z) (con_chan uart_chan arc_size disk_chan : Z).
Context (panicked : bool) (lsr : nat → bool) (spin : nat) (rd : Z → Z).

Lemma user_trap_tail_run st i q pgt s :
  ready st i q pgt s → killed (meta q) = false →
  ∃ s', user_trap_tail dv pipe_chan arc_size h i s =
      Done (EnterUser (TRAMPOLINE + (userret - trampoline_addr)) TRAPFRAME (PageTable.as_satp pgt), s') ∧
    returned st i q s s'.
Proof.
  intros R Hk. destruct (read_meta_run st (Some i) (tk s) i q killed (rd_holds _ _ _ _ _ R) (rd_proc _ _ _ _ _ R))
    as (x & E & Hx). rewrite Hk in E.
  destruct (user_trap_ret_run st i q pgt (with_tk (set_kmach x (tk s)) s)) as (s' & E' & R'); [by apply ready_mach|].
  exists s'. split; [|by eapply returned_mach]. unfold user_trap_tail, get_killed. mstep (on_kst_run _ _ _ _ E). exact E'.
Qed.

(** The head of [user_trap]: the program counter is saved. *)
Definition saved i q s x : tst S :=
  mkTst (set_kmem (set_word (kmem (tk s)) (trapframe (data q)) 3 (sepc (tcsr s))) (set_kmach x (tk s)))
    (tdisk s) (tplic s) (set_stvec kernelvec (tcsr s)).
Lemma ready_saved st i q pgt s x :
  ready st i q pgt s → in_u 64 (sepc (tcsr s)) → holds O h st (Some i) ∅ x → ready st i q pgt (saved i q s x).
Proof. intros [? ? ? ? ? ?] ? ?. split; try done. by apply tf_mem_set. Qed.

Lemma user_trap_head st i q pgt s t :
  ready st i q pgt s → is_from_user st = true → in_u 64 (sepc (tcsr s)) → cause_of (scause (tcsr s)) = Some t →
  ∃ x, holds O h st (Some i) ∅ x ∧
    user_trap dv pipe_chan con_chan uart_chan arc_size disk_chan panicked lsr spin rd h s =
    user_trap_dispatch dv pipe_chan con_chan uart_chan arc_size disk_chan panicked lsr spin rd h i (data q) t
      (saved i q s x).
Proof.
  intros R Hu Hpc Ht. destruct R as [H Hq _ [Htf _] _ _].
  destruct (myproc_k st (Some i) (tk s) H) as (x & E & Hx). exists x. split; [done|].
  unfold user_trap, get_csr. rewrite bind_gets. mstep (read_sstatus_run st (Some i) s H). rewrite Hu. cbn [negb].
  mstep (on_csr_run (set_stvec kernelvec) s).
  erewrite bind_run; [|apply on_kst_run; exact E]. cbv beta iota.
  erewrite bind_run; [|apply on_kst_run; by apply (data_at_run _ i q)].
  erewrite bind_run; [|apply on_kst_run, on_mem_k, (tf_write _ (trapframe (data q)) 3); [exact Htf|lia]].
  rewrite Ht. cbn [unwrap]. rewrite bind_ret_l. done.
Qed.

(** ** The copy-on-write fault *)
Section cow.
Context (heap r1 r2 : Z) (pos1 pos2 : gmap Z (nat * Z)) (tf : Z).
Implicit Types (m : mem) (fl : list Z).
(** The trapframe lies outside both tables and is not free. *)
Record tf_apart fl : Prop := { ta_fl : tf ∉ fl; ta_1 : pos1 !! tf = None; ta_2 : pos2 !! tf = None }.

Lemma spaces_set m fl (i w : Z) :
  two_spaces heap r1 r2 m fl pos1 pos2 → tf_apart fl → is_Some (ram m !! tf) → in_u 64 w →
  two_spaces heap r1 r2 (set_word m tf i w) fl pos1 pos2 ∧
  (∀ va, 0 ≤ va ≤ MAXVA → pte_at (set_word m tf i w) r1 va = pte_at m r1 va ∧
     pte_at (set_word m tf i w) r2 va = pte_at m r2 va).
Proof.
  intros [K W1 W2 Hd] [Hf H1 H2] Hin Hw.
  assert (∀ pos, pos !! tf = None → ∀ r, pt_wf heap false m fl r pos → ∀ p x, pos !! p = Some x →
    ram (set_word m tf i w) !! p = ram m !! p ∧ p ∉ fl) as Hfr.
  { intros pos Hn r W p x Hp. split; [apply set_word_ram_ne; congruence|by apply (pw_page _ _ _ _ _ _ W _ _ Hp)]. }
  destruct (pt_frame_gen heap false r1 m fl pos1 (set_word m tf i w) fl W1) as (W1' & _ & Hp1); [by eapply Hfr|].
  destruct (pt_frame_gen heap false r2 m fl pos2 (set_word m tf i w) fl W2) as (W2' & _ & Hp2); [by eapply Hfr|].
  split; [split; [by apply kinv_set_word|done..]|]. intros va Hva. by rewrite Hp1, Hp2.
Qed.
Lemma spaces_kernel m fl sp :
  two_spaces heap r1 r2 m fl pos1 pos2 → tf_apart fl → is_Some (ram m !! tf) → boot_words sp →
  two_spaces heap r1 r2 (tf_kernel sp tf m) fl pos1 pos2 ∧
  (∀ va, 0 ≤ va ≤ MAXVA → pte_at (tf_kernel sp tf m) r1 va = pte_at m r1 va ∧
     pte_at (tf_kernel sp tf m) r2 va = pte_at m r2 va).
Proof.
  intros T A Hin [B1 B2 B3 B4]. unfold tf_kernel.
  destruct (spaces_set m fl 0 kernel_satp T A Hin B1) as [T1 P1].
  assert (∀ m j w, is_Some (ram m !! tf) → is_Some (ram (set_word m tf j w) !! tf)) as Hs by (intros; by apply set_word_dom).
  destruct (spaces_set _ fl 1 sp T1 A) as [T2 P2]; [by apply Hs|done|].
  destruct (spaces_set _ fl 2 user_trap_addr T2 A) as [T3 P3]; [by do 2 apply Hs|done|].
  destruct (spaces_set _ fl 4 (Z.of_nat h) T3 A) as [T4 P4]; [by do 3 apply Hs|done|].
  split; [done|]. intros va Hva. destruct (P1 va Hva) as [<- <-], (P2 va Hva) as [<- <-], (P3 va Hva) as [<- <-]. by apply P4.
Qed.
End cow.

(** What a copy-on-write fault needs of memory: process [r1] stores to [va],
    which it shares with another address space [r2]. *)
Record cow_fault heap r1 r2 pos1 pos2 m fl tf va e ws : Prop := {
  cf_two : two_spaces heap r1 r2 m fl pos1 pos2;
  cf_free : (1 ≤ length fl)%nat;
  cf_va : 0 ≤ va ≤ MAXVA;
  cf_pte : pte_at m r1 va = Some e;
  cf_shared : shared_page heap m pos1 pos2 (as_pagetable e);
  cf_ws : ram m !! as_pagetable e = Some ws;
  cf_cnt : 2 ≤ cnt m (as_pagetable e);
  cf_tf : tf_apart pos1 pos2 tf fl;
  cf_ne : tf ≠ as_pagetable e
}.


End trap.

(** ** The clock interrupt in kernel code *)
Section timer.
Context {D S : Type} `{!BlockDev D} (dv : Z) `{!BufferCache D S dv} `{BF : BitField} `{Sym : Symbols}
  `{TSym : TrapSymbols}.
Context (con_chan uart_chan disk_chan : Z) (panicked : bool) (lsr : nat → bool) (spin : nat) (rd : Z → Z).
Implicit Types (s : tst S) (q : Process).

(** The thread goes on at [pc] on hart [h] with status [st]; apart from the
    hart's registers, [s'] is [s]. *)
Definition goes_on (O : nat → option hart) (h : nat) (st : Z) (p : option nat) (pc : Z) s s' : Prop :=
  sepc (tcsr s') = pc ∧ holds O h st p ∅ (kmach (tk s')) ∧
  (∃ x, tk s' = set_kmach x (tk s)) ∧ tdisk s' = tdisk s ∧ tplic s' = tplic s.

(** C23. The clock interrupt is transparent to kernel code. Kernel code that
    runs at [pc] with status [st0] and is interrupted finds itself, after
    [kernel_trap] and [sret], at [pc] again, in supervisor mode, with
    interrupts as they were: at once if the hart runs no running process, and
    otherwise, after the process was made runnable and the hart released,
    whenever and on whichever hart the scheduler takes it up again. Hart 0
    counts the tick and no other hart does; the pending bit is cleared. *)
Theorem kernel_timer_transparent O h st0 p s which :
  let st := entry_status false st0 in let pc := sepc (tcsr s) in
  holds O h st p ∅ (kmach (tk s)) → ticks (tk s) + 1 < 2 ^ 64 →
  (∀ i, p = Some i → is_Some (procs (tk s) !! i)) →
  cause_of (scause (tcsr s)) = Some (TInterrupt SupervisorSoft) →
  sret_user st = false ∧ Z.testbit (sret_status st) SIE_bit = Z.testbit st0 SIE_bit ∧
  ∃ r s', kernel_trap con_chan uart_chan disk_chan panicked lsr spin rd h which s = Done (r, s') ∧
    ticks (tk s') = ticks (tk s) + (if Nat.eqb h 0 then 1 else 0) ∧ ssip (tcsr s') = false ∧
    kmem (tk s') = kmem (tk s) ∧
    ((r = KReturn ∧ sepc (tcsr s') = pc ∧ holds O h st p ∅ (kmach (tk s')) ∧ procs (tk s') = procs (tk s) ∧
      ∀ i q, p = Some i → procs (tk s) !! i = Some q → state (meta q) ≠ Running) ∨
     (∃ i q, p = Some i ∧ procs (tk s) !! i = Some q ∧ state (meta q) = Running ∧
      r = KYield i false pc st ∧ holds O h st None ∅ (kmach (tk s')) ∧
      procs (tk s') = <[i := mkProcess (ProcMeta.set_state (meta q) Runnable) (data q)]> (procs (tk s)) ∧
      ∀ O' h' st' s2, holds O' h' st' (Some i) {[LProc i]} (kmach (tk s2)) →
        ∃ s3, kernel_trap_resume h' i false pc st s2 = Done (KReturn, s3) ∧ goes_on O' h' st (Some i) pc s2 s3)).
Proof.
  intros st pc H Ht Hp Hc. destruct (entry_supervisor st0) as (Hsup & Hsie & Hu & Hret). fold st in Hsup, Hsie, Hu, Hret.
  split_and!; [done..|]. pose proof (ho_st _ _ _ _ _ _ H) as Hst.
  unfold kernel_trap, get_csr. rewrite bind_gets. mstep (read_sstatus_run O h st p s H).
  rewrite Hsup, Hsie, Hc. cbn [negb unwrap]. rewrite bind_ret_l.
  destruct (timer_intr_run O h st p s H Ht) as (x1 & E1 & H1). mstep E1.
  set (k1 := set_kmach x1 (ticked h (tk s))) in *.
  destruct (try_yield_run O h st p k1 H1 Hp) as [(x & E & Hx & Hno)|(i & q & x & -> & Hq & Hr & E & Hx)].
  - erewrite bind_run; [|apply on_kst_run; exact E]. cbv beta iota.
    destruct (kernel_trap_end_run O h st p (with_tk (set_kmach x k1) (mkTst k1 (tdisk s) (tplic s) (clear_ssoft (tcsr s))))
      pc st Hx Hst) as (x' & E' & Hx').
    eexists _, _. split; [exact E'|]. split_and!; [done..|]. left. split_and!; [done|done|done|done|exact Hno].
  - erewrite bind_run; [|apply on_kst_run; exact E]. cbv beta iota. rewrite Hsie.
    eexists _, _. split; [reflexivity|]. split_and!; [done..|]. right. exists i, q. split_and!; [done|exact Hq|done..|].
    intros O' h' st' s2 H2. unfold kernel_trap_resume.
    destruct (yielding_resume_run O' h' st' (tk s2) i false H2) as (y & Ey & st2 & Hy).
    erewrite bind_run; [|apply on_kst_run; exact Ey].
    destruct (kernel_trap_end_run O' h' st2 (Some i) (with_tk (set_kmach y (tk s2)) s2) pc st Hy Hst) as (y' & E' & Hy').
    eexists. split; [exact E'|]. split_and!; [done|done| |done|done]. exists y'. done.
Qed.
End timer.

(** ** A small machine *)
#[local] Instance bct : BufferCache tdev (bcache tdev) 1 := bcache_BufferCache 1.
#[local] Instance bitst : BitField := {|
  get_bit := Z.testbit; set_bit w n v := if (v : bool) then Z.setbit w n else Z.clearbit w n |}.
#[local] Instance symt : Symbols := {|
  proc_base := 0x80100000; proc_stride := 0x200; fork_ret_addr := 0x80000100;
  user_trap_addr := 0x80000200; trampoline_addr := 0x80001000; kernel_satp := 0 |}.
(** The codes of the privileged specification. *)
#[local] Instance tsymt : TrapSymbols := {|
  kernelvec := 0x80000300; uservec := 0x80001000; userret := 0x80001100;
  cause_of c := if c =? 15 then Some (TException StorePageFault)
    else if c =? 2 ^ 63 + 1 then Some (TInterrupt SupervisorSoft) else None |}.
Definition pchant (pg : Z) (c : Pipe.chan) : Z := pg.
(** Hart 0 runs process 0, with page table [r] and trapframe [tf]. *)
Definition one_proc (r tf : Z) : Process :=
  mkProcess (mkMeta Running 0 false 0 1)
    (ProcData.set_trapframe (ProcData.set_pagetable (ProcData.set_kstack (ProcData.new 0) (kernel_stack 0)) (Some r)) tf).
Definition one_tst (st : Z) (r tf cause va : Z) (m : mem) : tst (bcache tdev) :=
  mkTst (mkKst (mkMach [mkHart st (CPU.set_proc CPU.new (Some 0%nat))] ∅) m [one_proc r tf] 2 None [0] [0] 0
      (mkFilest fs1 ∅ ∅ (mkTty Uart.new Console.new [] [] 0 0 0 m None false) uninit))
    (mkVst Disk.new [] []) (Plic.mkPlic [] []) (mkCsrs 0 0x1000 cause va true).
Lemma one_holds st r tf cause va m :
  in_u 64 st → holds (λ _, None) 0 st (Some 0%nat) ∅ (kmach (tk (one_tst st r tf cause va m))).
Proof.
  intros Hst. split; [done| | |].
  - eexists _, Context.new. split; [reflexivity|]. by split.
  - intros l. by rewrite decide_False by set_solver.
  - intros [|h'] Hne; [done|]. simpl. by destruct h'.
Qed.
Lemma kernel_timer_transparent_witness :
  ∃ s', kernel_trap 1 2 3 false (λ _, true) 10 (λ _, 0) 0 0
      (one_tst (entry_status false 2) 0 0 (2 ^ 63 + 1) 0 (mkMem ∅ None ∅)) = Done (KYield 0 false 0x1000 (entry_status false 2), s') ∧
    ticks (tk s') = 1.
Proof.
  destruct (kernel_timer_transparent 1 2 3 false (λ _, true) 10 (λ _, 0) (λ _, None) 0%nat 2 (Some 0%nat)
    (one_tst (entry_status false 2) 0 0 (2 ^ 63 + 1) 0 (mkMem ∅ None ∅)) 0)
    as (_ & _ & r & s' & E & Ht & _ & _ & [(_ & _ & _ & _ & Hno)|(i & q & [= <-] & _ & _ & -> & _)]).
  - apply one_holds. by split; vm_compute.
  - by vm_compute.
  - intros i [= <-]. by eexists.
  - by vm_compute.
  - by destruct (Hno 0%nat (one_proc 0 0)).
  - exists s'. split; [exact E|]. by rewrite Ht.
Defined.

(** The shared page of a parent and its child, and a trapframe. *)
Lemma boot_trap :
  ∃ heap r1 r2 pos1 pos2 m fl tf e ws, cow_fault heap r1 r2 pos1 pos2 m fl tf 100 e ws ∧ tf_mem m tf.
Proof.
  destruct boot_shared as (heap & r1 & r2 & m & fl & pos1 & pos2 & e & ws & [K W1 W2 Hd] & Hl & He & [D1 D2] & Hws & Hc & _).
  destruct fl as [|tf fl]; [simpl in Hl; lia|].
  destruct (new_zeroed_grows heap r1 m tf fl pos1 K W1) as (_ & K1 & W1' & G & Dt & Hf & _ & Hr & Hp1).
  destruct (new_zeroed_grows heap r2 m tf fl pos2 K W2) as (_ & _ & W2' & _ & Dt2 & _).
  set (m1 := alloc_post m tf zero_page fl) in *.
  assert (as_pagetable e ∉ tf :: fl) as Hnf by (by eapply data_page_not_free).
  assert (is_page (as_pagetable e)) as Hpg by (eapply kinv_page; [exact K|apply D1]).
  assert (cnt m1 (as_pagetable e) = 2) as Hc1 by (by rewrite (gr_cnt _ _ _ _ _ _ G)).
  assert (ram m1 !! as_pagetable e = ram m !! as_pagetable e) as Hr1 by (apply G; [done|apply D1]).
  exists heap, r1, r2, pos1, pos2, m1, fl, tf, e, ws. split.
  - split.
    + by split.
    + simpl in Hl. lia.
    + layout_lia.
    + rewrite Hp1 by layout_lia. done.
    + split; [|done]. destruct D1 as (? & ? & ? & ?). split_and!; [by rewrite Hr1|done|lia|done].
    + by rewrite Hr1.
    + lia.
    + split; [done|apply Dt|apply Dt2].
    + intros ->. apply Hnf. left.
  - split; [|apply K1]. split; [|by eexists]. by eapply (kinv_page heap m1 fl tf K1); eexists.
Qed.
