(* ===== verification/Boot.v ===== *)
(** * Boot

    [main.rs]: [start], which every hart enters in machine mode, [timer_init],
    and [rust_main], which initialises the kernel on hart 0 while the others
    wait; with [arch/riscv/register/clint.rs], [arch/riscv/register/sie.rs],
    the initialisation of the UART ([driver/uart.rs]) and of the console
    ([driver/console.rs]). What [println!] writes is left out. *)
From S2P Require Import Virtio Console Prelude Layout Kalloc PageTable Bcache Fs Pipe Spin Proc KernelMap.
From S2P Require Import File SysFile Syscall Trap.

(** ** Machine mode (start, timer_init)

    The registers of one hart that [start] and [timer_init] write, its row of
    [TIMER_SCRATCH] and its registers of the timer. *)
Record mmode := mkMmode {
  mstatus : Z; mepc : Z; msatp : Z; medeleg : Z; mideleg : Z; sie : Z; pmpaddr0 : Z; pmpcfg0 : Z;
  mscratch : Z; mtvec : Z; mie : Z; tp : Z;
  timer_scratch : list Z; mtime : Z; mtimecmp : Z
}.
Definition MSTATUS_MPP_SHIFT : Z := 11.
Definition MPP_SUPERVISOR : Z := 1.
Definition MSTATUS_MIE : Z := 3.
Definition MIE_MTIE : Z := 7.

(** Supervisor interrupt enable. *)
Definition SEIE : Z := Z.shiftl 1 9.
Definition STIE : Z := Z.shiftl 1 5.
Definition SSIE : Z := Z.shiftl 1 1.

Section start.
(** Addresses the linker chooses: [rust_main], [timervec] and
    [TIMER_SCRATCH]. *)
Context (rust_main_addr timervec scratch_base : Z).
Abbreviation MM := (M mmode).

Definition set_mstatus (x : Z) : MM unit := modify (λ m, mkMmode x (mepc m) (msatp m) (medeleg m) (mideleg m)
  (sie m) (pmpaddr0 m) (pmpcfg0 m) (mscratch m) (mtvec m) (mie m) (tp m) (timer_scratch m) (mtime m) (mtimecmp m)).
Definition set_mpp : MM unit :=
  m ← get;
  set_mstatus (Z.lor (Z.land (mstatus m) (unot 64 (Z.shiftl 3 MSTATUS_MPP_SHIFT)))
    (Z.shiftl MPP_SUPERVISOR MSTATUS_MPP_SHIFT)).
Definition set_mie : MM unit := m ← get; set_mstatus (Z.lor (mstatus m) (Z.shiftl 1 MSTATUS_MIE)).
Definition write_mepc (x : Z) : MM unit := modify (λ m, mkMmode (mstatus m) x (msatp m) (medeleg m) (mideleg m)
  (sie m) (pmpaddr0 m) (pmpcfg0 m) (mscratch m) (mtvec m) (mie m) (tp m) (timer_scratch m) (mtime m) (mtimecmp m)).
Definition write_satp (x : Z) : MM unit := modify (λ m, mkMmode (mstatus m) (mepc m) x (medeleg m) (mideleg m)
  (sie m) (pmpaddr0 m) (pmpcfg0 m) (mscratch m) (mtvec m) (mie m) (tp m) (timer_scratch m) (mtime m) (mtimecmp m)).
Definition write_deleg (e i : Z) : MM unit := modify (λ m, mkMmode (mstatus m) (mepc m) (msatp m) e i
  (sie m) (pmpaddr0 m) (pmpcfg0 m) (mscratch m) (mtvec m) (mie m) (tp m) (timer_scratch m) (mtime m) (mtimecmp m)).
Definition set_sie (x : Z) : MM unit := modify (λ m, mkMmode (mstatus m) (mepc m) (msatp m) (medeleg m) (mideleg m)
  x (pmpaddr0 m) (pmpcfg0 m) (mscratch m) (mtvec m) (mie m) (tp m) (timer_scratch m) (mtime m) (mtimecmp m)).
Definition write_pmp (a c : Z) : MM unit := modify (λ m, mkMmode (mstatus m) (mepc m) (msatp m) (medeleg m) (mideleg m)
  (sie m) a c (mscratch m) (mtvec m) (mie m) (tp m) (timer_scratch m) (mtime m) (mtimecmp m)).
Definition write_mtimecmp (x : Z) : MM unit := modify (λ m, mkMmode (mstatus m) (mepc m) (msatp m) (medeleg m)
  (mideleg m) (sie m) (pmpaddr0 m) (pmpcfg0 m) (mscratch m) (mtvec m) (mie m) (tp m) (timer_scratch m) (mtime m) x).
Definition write_scratch (i : nat) (x : Z) : MM unit := modify (λ m, mkMmode (mstatus m) (mepc m) (msatp m) (medeleg m)
  (mideleg m) (sie m) (pmpaddr0 m) (pmpcfg0 m) (mscratch m) (mtvec m) (mie m) (tp m)
  (<[i := x]> (timer_scratch m)) (mtime m) (mtimecmp m)).
Definition write_vec (s v : Z) : MM unit := modify (λ m, mkMmode (mstatus m) (mepc m) (msatp m) (medeleg m)
  (mideleg m) (sie m) (pmpaddr0 m) (pmpcfg0 m) s v (mie m) (tp m) (timer_scratch m) (mtime m) (mtimecmp m)).
Definition set_mtimer : MM unit := modify (λ m, mkMmode (mstatus m) (mepc m) (msatp m) (medeleg m)
  (mideleg m) (sie m) (pmpaddr0 m) (pmpcfg0 m) (mscratch m) (mtvec m) (Z.lor (mie m) (Z.shiftl 1 MIE_MTIE)) (tp m)
  (timer_scratch m) (mtime m) (mtimecmp m)).
Definition write_tp (x : Z) : MM unit := modify (λ m, mkMmode (mstatus m) (mepc m) (msatp m) (medeleg m)
  (mideleg m) (sie m) (pmpaddr0 m) (pmpcfg0 m) (mscratch m) (mtvec m) (mie m) x
  (timer_scratch m) (mtime m) (mtimecmp m)).

(** [sie::intr_on] *)
Definition sie_intr_on : MM unit := m ← get; set_sie (Z.lor (Z.lor (Z.lor (sie m) SEIE) SSIE) STIE).

(** clint.rs; the register of hart [id] is at [CLINT_MTIMECMP + 8 * id]. *)
Definition add_mtimecmp (interval : Z) : MM unit :=
  m ← get; value ← uadd 64 (mtime m) interval; write_mtimecmp value.
Definition count_mtiecmp (id : Z) : Z := CLINT + 8 * id + 0x4000.

Definition interval : Z := 1000000.
Definition timer_init (id : Z) : MM unit :=
  add_mtimecmp interval ;;
  assert (id <? NCPU) "index out of bounds" ;;
  write_scratch 3 (count_mtiecmp id) ;;
  write_scratch 4 interval ;;
  write_vec (scratch_base + id * 40) timervec ;;
  set_mie ;;
  set_mtimer.
(** Up to the [mret]. [set_pmp(0, TOR, RWX, false)] writes the first entry of
    [pmpcfg0]. *)
Definition start (id : Z) : MM unit :=
  set_mpp ;;
  write_mepc rust_main_addr ;;
  write_satp 0 ;;
  write_deleg 0xffff 0xffff ;;
  sie_intr_on ;;
  m ← get;
  write_pmp 0x3fffffffffffff (Z.lor (Z.land (pmpcfg0 m) (unot 64 0xff)) 0x0f) ;;
  timer_init id ;;
  write_tp id.
End start.

(** ** The UART (driver/uart.rs)

    [init] writes these bytes to these addresses. *)
Module UartReg.
Definition RHR : Z := 0.
Definition THR : Z := 0.
Definition IER : Z := 1.
Definition FCR : Z := 2.
Definition ISR : Z := 2.
Definition LCR : Z := 3.
Definition LSR : Z := 5.
Definition IER_RX_ENABLE : Z := Z.shiftl 1 0.
Definition IER_TX_ENABLE : Z := Z.shiftl 1 1.
Definition FCR_FIFO_ENABLE : Z := Z.shiftl 1 0.
Definition FCR_FIFO_CLEAR : Z := Z.shiftl 3 1.
Definition LCR_EIGHT_BITS : Z := Z.shiftl 3 0.
Definition LCR_BAUD_LATCH : Z := Z.shiftl 1 7.
Definition UART_BASE_ADDR : Z := UART0.
Definition write_reg (addr val : Z) : M (list (Z * Z)) unit := modify (λ l, l ++ [(addr, val)]).
Definition init : M (list (Z * Z)) unit :=
  write_reg (UART_BASE_ADDR + IER) 0x00 ;;
  write_reg (UART_BASE_ADDR + LCR) (wrap 8 LCR_BAUD_LATCH) ;;
  write_reg UART_BASE_ADDR 0x03 ;;
  write_reg (UART_BASE_ADDR + 1) 0x00 ;;
  write_reg (UART_BASE_ADDR + LCR) (wrap 8 LCR_EIGHT_BITS) ;;
  write_reg (UART_BASE_ADDR + FCR) (Z.lor (wrap 8 FCR_FIFO_ENABLE) (wrap 8 FCR_FIFO_CLEAR)) ;;
  write_reg (UART_BASE_ADDR + IER) (Z.lor (wrap 8 IER_TX_ENABLE) (wrap 8 IER_RX_ENABLE)).
End UartReg.

(** ** The kernel starts (rust_main)

    The kernel's state with the devices ([tcsr] and [bsatp] are registers of
    the hart that executes), the writes to the UART, and [STARTED]. *)
Record bst (S : Type) := mkBst { bt : tst S; buart : list (Z * Z); bsatp : Z; started : bool }.
Arguments mkBst {S}. Arguments bt {S}. Arguments buart {S}. Arguments bsatp {S}. Arguments started {S}.

(** The code of the first process, and its name. *)
Definition INITCODE : list Z := [
  0x17; 0x05; 0x00; 0x00; 0x13; 0x05; 0x45; 0x02; 0x97; 0x05; 0x00; 0x00; 0x93; 0x85; 0x35; 0x02;
  0x93; 0x08; 0x70; 0x00; 0x73; 0x00; 0x00; 0x00; 0x93; 0x08; 0x20; 0x00; 0x73; 0x00; 0x00; 0x00;
  0xef; 0xf0; 0x9f; 0xff; 0x2f; 0x69; 0x6e; 0x69; 0x74; 0x00; 0x00; 0x24; 0x00; 0x00; 0x00; 0x00;
  0x00; 0x00; 0x00; 0x00].
Definition initprog : list Z := [105; 110; 105; 116; 112; 114; 111; 103; 0].

Section boot.
Context {D S : Type} `{!BlockDev D} (dv : Z) `{!BufferCache D S dv} `{!BitField} `{!Symbols} `{!TrapSymbols}.
Context (pipe_chan : Z → Pipe.chan → Z) (arc_size self_addr : Z) (rd : Z → Z).
(** [end], [etext] and [KERNEL_PAGETABLE] of the linker. *)
Context (end_addr etext kpgt : Z).
Abbreviation B := (M (bst S)).
#[local] Instance bops : FileOps (filest S) := file_ops dv pipe_chan arc_size.

Definition on_tst {A} : M (tst S) A → B A := zoom bt (λ t s, mkBst t (buart s) (bsatp s) (started s)).
Definition on_k {A} (m : M (kst (filest S)) A) : B A := on_tst (on_kst m).
Definition on_uart {A} : M (list (Z * Z)) A → B A := zoom buart (λ u s, mkBst (bt s) u (bsatp s) (started s)).
Definition on_satp {A} : M Z A → B A := zoom bsatp (λ x s, mkBst (bt s) (buart s) x (started s)).

Definition UART_LOCK : lockid := LOther 1.
Definition uart_init (h : nat) : B unit :=
  on_k (lock h UART_LOCK) ;; on_uart UartReg.init ;; on_k (unlock h UART_LOCK).
(** [console::init] *)
Definition set_dev (i : nat) (f : Device → Device) : B unit :=
  on_k (k ← get;
    let fs := kfs k in
    d ← unwrap (f_devs fs !! i) oob;
    put (set_kfs (mkFilest (f_fs fs) (f_pipes fs) (f_arcs fs) (f_tty fs) (<[i := f d]> (f_devs fs))) k)).
Definition console_init (h : nat) : B unit :=
  uart_init h ;;
  set_dev CONSOLE (λ d, mkDevice (dev_read d) (Some ConsoleWrite)) ;;
  set_dev CONSOLE (λ d, mkDevice (Some ConsoleRead) (dev_write d)).

Definition KALLOC_LOCK : lockid := LOther 2.
Definition kalloc_init (h : nat) : B unit :=
  on_k (lock h KALLOC_LOCK) ;; on_k (on_mem (Kalloc.init end_addr)) ;; on_k (unlock h KALLOC_LOCK).
Definition disk_init (h : nat) : B unit :=
  on_k (lock h DISK_LOCK) ;; on_tst (on_virtio (Virtio.init self_addr rd)) ;; on_k (unlock h DISK_LOCK).

(** Hart 0. *)
Definition boot_first (h : nat) : B unit :=
  console_init h ;;
  kalloc_init h ;;
  on_k (KernelMap.init etext kpgt) ;;
  on_satp (KernelMap.init_hart kpgt) ;;
  on_k manager_init ;;
  on_tst init_hart ;;
  on_tst (on_plic Plic.plic_init) ;;
  on_tst (on_plic (Plic.plic_init_hart h)) ;;
  disk_init h ;;
  on_k (user_init_proc h INITCODE initprog) ;;
  modify (λ s, mkBst (bt s) (buart s) (bsatp s) true) ;;
  on_k (on_mach (intr_on h)).
(** The other harts, behind their wait. *)
Definition boot_other (h : nat) : B unit :=
  on_satp (KernelMap.init_hart kpgt) ;;
  on_tst init_hart ;;
  on_tst (on_plic Plic.plic_init) ;;
  on_tst (on_plic (Plic.plic_init_hart h)).
(** [rust_main] up to the loop of [scheduler]; [false] when another hart finds
    [STARTED] not set and looks again. *)
Definition rust_main (h : nat) : B bool :=
  if Nat.eqb h 0 then boot_first h ;; mret true else
  s ← get;
  if started s then boot_other h ;; mret true else mret false.
End boot.
