(* ===== verification/BootSafe.v ===== *)
(** * Boot: what it establishes

    [start] leaves machine mode for [rust_main] with a timer running, and
    [rust_main] on hart 0 completes: it builds the kernel's address space and
    the first process, and the state it ends in is one the theorems on
    processes start from. *)
From S2P Require Import Virtio Console Prelude Layout Pte Kalloc PageTable PageTableFacts MapFacts HugeFacts UserSpace.
From S2P Require Import UserCopy VirtioSafe Bcache BcacheFacts Fs FsFile Pipe Spin SpinSafe Proc ProcSafe.
From S2P Require Import KernelMap KernelSpace File SysFile Syscall Trap TrapSafe Boot.
Import PageTableEntry.

(** ** The memory of the first process *)
Section memory.
Context (heap kroot : Z) (rs : list region).
Implicit Types (m : mem) (fl : list Z) (pos : gmap Z (nat * Z)).

(** The kernel's table and a user table side by side. *)
Record both pgt m fl kpos pos : Prop := {
  bo_k : kspace heap kroot rs m fl kpos;
  bo_u : pt_wf heap false m fl pgt pos;
  bo_apart : ∀ p, is_Some (kpos !! p) → pos !! p = None
}.
Lemma both_grows pgt m fl kpos pos m' fl' pos' :
  both pgt m fl kpos pos → kinv heap m' fl' → pt_wf heap false m' fl' pgt pos' →
  grows m fl pos m' fl' pos' → both pgt m' fl' kpos pos'.
Proof.
  intros [Ks Wu Hd] K' W' G. pose proof (ks_wf _ _ _ _ _ _ Ks) as Wk.
  assert (∀ p, is_Some (kpos !! p) → (p ∉ fl') ∧ pos' !! p = None ∧ ram m' !! p = ram m !! p) as Hp.
  { intros p Hp. pose proof (Hd p Hp). destruct Hp as [x Hp].
    eapply grows_outside; [exact G|by apply (pw_page _ _ _ _ _ _ Wk p x)|done]. }
  split; [|done|intros p Hk; by apply Hp].
  eapply kspace_frame; [done|done|]. intros p x Hk. destruct (Hp p) as (? & _ & ?); [by eexists|done].
Qed.

(** A page outside both tables and the free list. *)
Definition outside fl pos (p : Z) : Prop := (p ∉ fl) ∧ pos !! p = None.
Lemma outside_grows m fl pos m' fl' pos' p :
  grows m fl pos m' fl' pos' → outside fl pos p → outside fl' pos' p ∧ ram m' !! p = ram m !! p.
Proof. intros G [H1 H2]. destruct (grows_outside _ _ _ _ _ _ p G H1 H2) as (? & ? & ?). done. Qed.

(** One page mapped at [va]. *)
Lemma map_page_run pgt m fl kpos pos va pa perm :
  both pgt m fl kpos pos → perm_ok perm → va mod PGSIZE = 0 → 0 ≤ va ≤ MAXVA → is_page pa →
  pte_at m pgt va = None → (2 ≤ length fl)%nat →
  ∃ m' fl' pos', PageTable.map pgt va pa PGSIZE perm m = Done (true, m') ∧
    both pgt m' fl' kpos pos' ∧ grows m fl pos m' fl' pos' ∧ (length fl ≤ length fl' + 2)%nat ∧
    ∀ va', 0 ≤ va' ≤ MAXVA → pte_at m' pgt va' =
      if decide (va' / PGSIZE = va / PGSIZE) then Some (write_perm pa perm) else pte_at m pgt va'.
Proof.
  intros B Hperm Hva Hr [Hpal Hpr] Hnone Hfl.
  pose proof (run_pages_one va Hva) as Hn. pose proof (Z.div_mod va PGSIZE) as Hdm.
  destruct (map_run heap pgt m fl pos va pa PGSIZE perm) as (m' & fl' & pos' & E & K' & W' & G & Hl & Hpte);
    rewrite ?Hn; try done; try (by apply B); try layout_lia.
  { intros k Hk. replace ((va / PGSIZE + k) * PGSIZE) with va by layout_lia. done. }
  rewrite Hn in Hl. exists m', fl', pos'. split_and!; [done|by eapply both_grows|done|lia|].
  intros va' Hva'. rewrite Hpte, Hn by done. unfold in_run.
  destruct (decide (va' / PGSIZE = va / PGSIZE)) as [Eq|Hne]; [rewrite decide_True by lia|rewrite decide_False by lia; done].
  do 2 f_equal. rewrite Eq. lia.
Qed.
(** A fresh page mapped at [va]. *)
Lemma fresh_page_run pgt m z fl kpos pos va perm :
  both pgt m (z :: fl) kpos pos → perm_ok perm → va mod PGSIZE = 0 → 0 ≤ va ≤ MAXVA →
  pte_at m pgt va = None → (2 ≤ length fl)%nat →
  ∃ m1 m' fl' pos', new_zeroed m = Done (z, m1) ∧ PageTable.map pgt va z PGSIZE perm m1 = Done (true, m') ∧
    both pgt m' fl' kpos pos' ∧ grows m (z :: fl) pos m' fl' pos' ∧ (length fl ≤ length fl' + 2)%nat ∧
    is_page z ∧ outside fl' pos' z ∧ ram m' !! z = Some zero_page ∧ cnt m' z = 1 ∧ heap ≤ z ∧
    ∀ va', 0 ≤ va' ≤ MAXVA → pte_at m' pgt va' =
      if decide (va' / PGSIZE = va / PGSIZE) then Some (write_perm z perm) else pte_at m pgt va'.
Proof.
  intros B Hperm Hva Hr Hnone Hfl. pose proof (ks_kinv _ _ _ _ _ _ (bo_k _ _ _ _ _ B)) as K.
  destruct (new_zeroed_grows heap pgt m z fl pos K (bo_u _ _ _ _ _ B)) as (E & K1 & W1 & G1 & D & Hzf & Hc & Hz & Hpte1).
  set (m1 := alloc_post m z zero_page fl) in *.
  assert (is_page z) as Hzp by (by eapply kinv_page, D).
  pose proof (both_grows _ _ _ _ _ _ _ _ B K1 W1 G1) as B1.
  destruct (map_page_run pgt m1 fl kpos pos va z perm B1) as (m' & fl' & pos' & E' & B' & G' & Hl & Hpte);
    try done; [by rewrite Hpte1|].
  destruct (outside_grows _ _ _ _ _ _ z G') as [Ho Hz']; [split; [done|apply D]|].
  exists m1, m', fl', pos'. split_and!; try done; [by eapply grows_trans|by rewrite Hz'| |apply D|].
  - rewrite (gr_cnt _ _ _ _ _ _ G' z Hzp Hzf). done.
  - intros va' Hva'. rewrite Hpte by done. by rewrite Hpte1.
Qed.

Definition CODE : Z := Z.lor (Z.lor (Z.lor PTE_R PTE_W) PTE_X) PTE_U.
Definition STACK : Z := Z.lor (Z.lor PTE_W PTE_R) PTE_U.

(** An empty user table beside the kernel's. *)
Lemma empty_table_run m z fl kpos :
  kspace heap kroot rs m (z :: fl) kpos →
  ∃ m', new_zeroed m = Done (z, m') ∧ both z m' fl kpos {[z := (2%nat, 0)]} ∧
    (∀ va, pte_at m' z va = None) ∧ (∀ p, p ≠ z → ram m' !! p = ram m !! p) ∧ (z ∉ fl) ∧ kpos !! z = None.
Proof.
  intros Ks. destruct (kspace_alloc heap kroot rs m z fl kpos Ks) as (m' & E & Ks' & G & Hz & _ & Hfr).
  destruct (Hfr z) as (_ & Hf & D & Hc & Hr); [by apply list_elem_of_singleton|].
  destruct D as (_ & Hh & _ & Hn).
  destruct (empty_root heap z m' fl (ks_kinv _ _ _ _ _ _ Ks') Hr Hf Hh) as [W Hpte].
  exists m'. split_and!; [done| |done| |done|done].
  - split; [done|exact W|]. intros p Hp. apply lookup_singleton_ne. intros ->. destruct Hp. congruence.
  - pose proof (new_zeroed_run heap m z fl (ks_kinv _ _ _ _ _ _ Ks)) as [E' _]. rewrite E in E'. injection E' as ->.
    intros p Hp. by apply lookup_insert_ne.
Qed.

(** [proc_pagetable]: the table with the trampoline and the trapframe. *)
Lemma pagetable_run m fl kpos tf tramp :
  kspace heap kroot rs m fl kpos → outside fl kpos tf → is_page tf → is_page tramp → (5 ≤ length fl)%nat →
  ∃ pgt m' fl' pos',
    (pgt ← PageTable.unew;
     ok ← PageTable.map pgt TRAMPOLINE tramp PGSIZE (Z.lor PTE_R PTE_X);
     if negb ok then PageTable.ufree pgt 0 ;; PageTable.drop_box 3 pgt ;; mret None else
     ok ← PageTable.map pgt TRAPFRAME tf PGSIZE (Z.lor PTE_R PTE_W);
     if negb ok then PageTable.ufree pgt 0 ;; PageTable.drop_box 3 pgt ;; mret None else
     mret (Some pgt)) m = Done (Some pgt, m') ∧
    both pgt m' fl' kpos pos' ∧ (length fl ≤ length fl' + 5)%nat ∧ outside fl' pos' tf ∧ ram m' !! tf = ram m !! tf ∧
    (∀ va, 0 ≤ va ≤ MAXVA → pte_at m' pgt va =
       if decide (va / PGSIZE = TRAPFRAME / PGSIZE) then Some (write_perm tf RW)
       else if decide (va / PGSIZE = TRAMPOLINE / PGSIZE) then Some (write_perm tramp RX) else None).
Proof.
  intros Ks [Htf1 Htf2] Htf Htr Hl. destruct fl as [|z fl]; [simpl in Hl; lia|].
  destruct (empty_table_run m z fl kpos Ks) as (m1 & E1 & B1 & P1 & R1 & Hz & Hkz). simpl in Hl.
  assert (tf ≠ z) as Hne by set_solver.
  destruct (map_page_run z m1 fl kpos {[z := (2%nat, 0)]} TRAMPOLINE tramp RX) as (m2 & fl2 & pos2 & E2 & B2 & G2 & L2 & P2);
    [done|by unfold perm_ok|done|layout_lia|done|done|lia|].
  destruct (outside_grows _ _ _ _ _ _ tf G2) as [O2 R2].
  { split; [set_solver|by apply lookup_singleton_ne]. }
  destruct (map_page_run z m2 fl2 kpos pos2 TRAPFRAME tf RW) as (m3 & fl3 & pos3 & E3 & B3 & G3 & L3 & P3);
    [done|by unfold perm_ok|done|layout_lia|done| |lia|].
  { rewrite P2, decide_False by (layout_lia || done). apply P1. }
  destruct (outside_grows _ _ _ _ _ _ tf G3 O2) as [O3 R3].
  exists z, m3, fl3, pos3. split_and!; [|done|simpl; lia|done|by rewrite R3, R2, R1|].
  - unfold PageTable.unew. mstep E1. mstep E2. cbn [negb]. mstep E3. done.
  - intros va Hva. rewrite P3, P2 by done. by rewrite P1.
Qed.

(** [uinit]: the code at address 0, and the stack with its guard. *)
Lemma uinit_run pgt m fl kpos pos src tf :
  both pgt m fl kpos pos → Z.of_nat (length src) < PGSIZE → outside fl pos tf → (9 ≤ length fl)%nat →
  pte_at m pgt 0 = None → pte_at m pgt USTACK_BASE = None → pte_at m pgt (USTACK_BASE - PGSIZE) = None →
  ∃ code stk guard m' fl' pos',
    PageTable.uinit pgt src m =
      Done (tt, mkMem (<[code := PageTable.page_splice zero_page 0 src]> (ram m')) (head m') (count m')) ∧
    both pgt m' fl' kpos pos' ∧ outside fl' pos' tf ∧ ram m' !! tf = ram m !! tf ∧ tf ≠ code ∧
    is_page code ∧ is_page stk ∧ is_page guard ∧ outside fl' pos' code ∧ kpos !! code = None ∧ ram m' !! code = Some zero_page ∧
    (∀ va, 0 ≤ va ≤ MAXVA → pte_at m' pgt va =
       if decide (va / PGSIZE = (USTACK_BASE - PGSIZE) / PGSIZE) then Some (write_perm guard PTE_R)
       else if decide (va / PGSIZE = USTACK_BASE / PGSIZE) then Some (write_perm stk STACK)
       else if decide (va / PGSIZE = 0) then Some (write_perm code CODE) else pte_at m pgt va).
Proof.
  intros B Hsrc Htf Hl N0 N1 N2. destruct fl as [|code fl]; [simpl in Hl; lia|]. simpl in Hl.
  destruct (fresh_page_run pgt m code fl kpos pos 0 CODE)
    as (m1 & m2 & fl2 & pos2 & E1 & E2 & B2 & G2 & L2 & Hc & O2 & R2 & C2 & _ & P2);
    [done|by unfold perm_ok|done|layout_lia|done|lia|].
  destruct (outside_grows _ _ _ _ _ _ tf G2 Htf) as [T2 RT2].
  destruct fl2 as [|stk fl2]; [simpl in L2; lia|].
  destruct (fresh_page_run pgt m2 stk fl2 kpos pos2 USTACK_BASE STACK)
    as (m3 & m4 & fl4 & pos4 & E3 & E4 & B4 & G4 & L4 & Hs & O4 & _ & _ & _ & P4);
    [done|by unfold perm_ok|done|layout_lia| |simpl in L2; lia|].
  { rewrite P2, decide_False by (layout_lia || done). done. }
  destruct (outside_grows _ _ _ _ _ _ tf G4 T2) as [T4 RT4].
  destruct (outside_grows _ _ _ _ _ _ code G4 O2) as [O4' R4].
  destruct fl4 as [|guard fl4]; [simpl in L2, L4; lia|].
  destruct (fresh_page_run pgt m4 guard fl4 kpos pos4 (USTACK_BASE - PGSIZE) PTE_R)
    as (m5 & m6 & fl6 & pos6 & E5 & E6 & B6 & G6 & L6 & Hg & _ & _ & _ & _ & P6);
    [done|by unfold perm_ok|done|layout_lia| |simpl in L2, L4; lia|].
  { rewrite P4, P2, !decide_False by (layout_lia || done). done. }
  destruct (outside_grows _ _ _ _ _ _ tf G6 T4) as [T6 RT6].
  destruct (outside_grows _ _ _ _ _ _ code G6 O4') as [O6 R6].
  exists code, stk, guard, m6, fl6, pos6. split_and!; try done.
  - unfold PageTable.uinit. rewrite (proj2 (Z.leb_gt _ _)) by done. mstep E1. mstep E2.
    unfold PageTable.ualloc_stack. rewrite !bind_assoc. mstep E3. rewrite !bind_assoc. mstep E4. cbn [negb].
    rewrite !bind_assoc. mstep E5. rewrite !bind_assoc. mstep E6. cbn [negb]. rewrite bind_ret_l.
    unfold PageTable.store_bytes. 
    assert (ram m6 !! code = Some zero_page) as Hcode by (by rewrite R6, R4).
    rewrite (bind_run _ _ _ zero_page m6) by (unfold read_page; by rewrite Hcode).
    unfold write_page. by rewrite Hcode.
  - by rewrite RT6, RT4, RT2.
  - intros ->. destruct Htf. set_solver.
  - destruct (kpos !! code) as [x|] eqn:Ek; [|done].
    pose proof (pw_page _ _ _ _ _ _ (ks_wf _ _ _ _ _ _ (bo_k _ _ _ _ _ B)) code x Ek) as (_ & Hn & _). set_solver.
  - by rewrite R6, R4.
  - intros va Hva. rewrite P6, P4, P2 by done. done.
Qed.

(** Writing a page outside the tables. *)
Lemma both_store pgt m fl kpos pos p ws :
  both pgt m fl kpos pos → is_Some (ram m !! p) → outside fl pos p → kpos !! p = None → page_ok ws →
  let m' := mkMem (<[p := ws]> (ram m)) (head m) (count m) in
  both pgt m' fl kpos pos ∧ ∀ va, 0 ≤ va ≤ MAXVA → pte_at m' pgt va = pte_at m pgt va.
Proof.
  intros [Ks W Hd] Hs [Ho1 Ho2] Hk Hws m'.
  pose proof (store_kinv heap m fl p ws (ks_kinv _ _ _ _ _ _ Ks) Hs Ho1 Hws) as K'.
  assert (∀ q x pos, pos !! q = Some x → pos !! p = None → ram m' !! q = ram m !! q) as Hr.
  { intros q x pos' Hq Hn. unfold m'. cbn [ram]. apply lookup_insert_ne. congruence. }
  destruct (pt_frame_gen heap false pgt m fl pos m' fl W) as (W' & _ & Hpte).
  { intros q x Hq. split; [by eapply Hr|by apply (pw_page _ _ _ _ _ _ W q x)]. }
  split; [|done]. split; [|done|done]. eapply kspace_frame; [done|done|]. intros q x Hq.
  split; [by eapply Hr|by apply (pw_page _ _ _ _ _ _ (ks_wf _ _ _ _ _ _ Ks) q x)].
Qed.
Lemma set_word_store m p i w ws :
  ram m !! p = Some ws → set_word m p i w = mkMem (<[p := <[Z.to_nat i := w]> ws]> (ram m)) (head m) (count m).
Proof.
  intros E. unfold set_word. f_equal. apply map_eq. intros q. rewrite lookup_alter.
  case_decide; [subst; by rewrite lookup_insert_eq, E|by rewrite lookup_insert_ne].
Qed.
Lemma both_word pgt m fl kpos pos p i w :
  both pgt m fl kpos pos → is_Some (ram m !! p) → outside fl pos p → kpos !! p = None → in_u 64 w →
  both pgt (set_word m p i w) fl kpos pos ∧ ∀ va, 0 ≤ va ≤ MAXVA → pte_at (set_word m p i w) pgt va = pte_at m pgt va.
Proof.
  intros B [ws Hws] Ho Hk Hw. rewrite (set_word_store m p i w ws Hws). apply both_store; [done|by eexists|done|done|].
  apply page_ok_insert; [|done]. by apply (ki_ram _ _ _ (ks_kinv _ _ _ _ _ _ (bo_k _ _ _ _ _ B)) p ws).
Qed.

(** What the first process finds in memory: its code, followed by zeros, and
    one page of stack; the other two pages are the supervisor's. *)
Record first_process (tramp : Z) (src : list Z) m pgt tf : Prop := {
  fp_code : ∀ va, 0 ≤ va < PGSIZE → user_byte m pgt va = Some (default 0 (src !! Z.to_nat va));
  fp_stack : is_Some (user_page m pgt USTACK_BASE);
  fp_only : ∀ va, 0 ≤ va ≤ MAXVA → va / PGSIZE ≠ 0 → va / PGSIZE ≠ USTACK_BASE / PGSIZE → user_page m pgt va = None;
  fp_tramp : pte_at m pgt TRAMPOLINE = Some (write_perm tramp RX);
  fp_tf : pte_at m pgt TRAPFRAME = Some (write_perm tf RW);
  fp_epc : word m tf (TF_EPC / 8) = Some 0;
  fp_sp : word m tf (TF_SP / 8) = Some (USTACK_BASE + USTACK_SIZE)
}.
Lemma user_leaf perm pa : perm_ok perm → pa_ok pa → Z.testbit perm 4 = true →
  is_user (write_perm pa perm) = true ∧ as_pagetable (write_perm pa perm) = pa.
Proof.
  intros Hp Ha Hb. split; [|by apply write_perm_pa]. rewrite is_user_bit, write_perm_bit by (done || lia). by rewrite Hb.
Qed.

Lemma init_page_ok src : Z.of_nat (length src) < PGSIZE → Forall (in_u 8) src →
  page_ok (PageTable.page_splice zero_page 0 src) ∧
  ∀ i, (i < Z.to_nat PGSIZE)%nat → page_bytes (PageTable.page_splice zero_page 0 src) !! i = Some (default 0 (src !! i)).
Proof.
  intros Hl Hb. unfold PageTable.page_splice. simpl take. rewrite app_nil_l, Nat.add_0_l.
  pose proof (length_page_bytes zero_page page_ok_zero) as Hz.
  pose proof (page_bytes_range zero_page page_ok_zero) as Hzr.
  set (bs := src ++ drop (length src) (page_bytes zero_page)).
  assert (length bs = Z.to_nat PGSIZE) as Hbs by (unfold bs; rewrite length_app, length_drop, Hz; lia).
  assert (Forall (in_u 8) bs) as Hbr by (apply Forall_app_2; [done|by apply Forall_drop]).
  split; [by apply bytes_page_ok|]. intros i Hi. rewrite page_bytes_page by done. unfold bs.
  destruct (src !! i) as [b|] eqn:E; [by apply lookup_app_l_Some|]. pose proof (proj1 (lookup_ge_None _ _) E).
  assert (page_bytes zero_page = replicate 4096 0) as -> by (by vm_compute).
  rewrite lookup_app_r, lookup_drop by done. apply lookup_replicate. split; [done|]. layout_lia.
Qed.

(** The table of the first process: its five pages. *)
Definition five_pages (tramp tf code stk guard : Z) m pgt : Prop :=
  is_page tramp ∧ is_page tf ∧ is_page code ∧ is_page stk ∧ is_page guard ∧
  ∀ va, 0 ≤ va ≤ MAXVA → pte_at m pgt va =
    if decide (va / PGSIZE = (USTACK_BASE - PGSIZE) / PGSIZE) then Some (write_perm guard PTE_R)
    else if decide (va / PGSIZE = USTACK_BASE / PGSIZE) then Some (write_perm stk STACK)
    else if decide (va / PGSIZE = 0) then Some (write_perm code CODE)
    else if decide (va / PGSIZE = TRAPFRAME / PGSIZE) then Some (write_perm tf RW)
    else if decide (va / PGSIZE = TRAMPOLINE / PGSIZE) then Some (write_perm tramp RX) else None.
Lemma five_user tramp tf code stk guard m pgt va :
  five_pages tramp tf code stk guard m pgt → 0 ≤ va ≤ MAXVA →
  user_page m pgt va =
    if decide (va / PGSIZE = USTACK_BASE / PGSIZE) then Some stk
    else if decide (va / PGSIZE = 0) then Some code else None.
Proof.
  intros (Htr & Htf & Hc & Hs & Hg & P) Hva. unfold user_page. rewrite P by done.
  assert (∀ pa perm, is_page pa → perm_ok perm → Z.testbit perm 4 = false →
    (if is_user (write_perm pa perm) then Some (as_pagetable (write_perm pa perm)) else None) = None) as Hno.
  { intros pa perm Hpa Hp Hbit. rewrite is_user_bit, write_perm_bit by (done || lia || by apply is_page_pa_ok).
    by rewrite Hbit. }
  destruct (user_leaf STACK stk) as [Hu1 Hu2]; [by unfold perm_ok|by apply is_page_pa_ok|done|].
  destruct (user_leaf CODE code) as [Hu3 Hu4]; [by unfold perm_ok|by apply is_page_pa_ok|done|].
  change ((USTACK_BASE - PGSIZE) / PGSIZE) with 67108860. change (USTACK_BASE / PGSIZE) with 67108861.
  destruct (decide (va / PGSIZE = 67108860)) as [E|_].
  { rewrite !decide_False by lia. by apply Hno. }
  destruct (decide (va / PGSIZE = 67108861)) as [E|_]; [cbn [mbind option_bind]; by rewrite Hu1, Hu2|].
  destruct (decide (va / PGSIZE = 0)) as [E|_]; [cbn [mbind option_bind]; by rewrite Hu3, Hu4|].
  repeat case_decide; [by apply Hno..|done].
Qed.

(** The table as [uinit] and the trapframe's two words leave it. *)
Lemma first_process_mem tramp src pgt m fl kpos pos tf code stk guard :
  both pgt m fl kpos pos → Z.of_nat (length src) < PGSIZE → Forall (in_u 8) src →
  five_pages tramp tf code stk guard m pgt → tf ≠ code →
  outside fl pos tf → kpos !! tf = None → is_Some (ram m !! tf) →
  outside fl pos code → kpos !! code = None → is_Some (ram m !! code) →
  let m1 := mkMem (<[code := PageTable.page_splice zero_page 0 src]> (ram m)) (head m) (count m) in
  let m2 := set_word (set_word m1 tf (TF_EPC / 8) 0) tf (TF_SP / 8) (USTACK_BASE + USTACK_SIZE) in
  is_Some (ram m1 !! tf) ∧ both pgt m2 fl kpos pos ∧ first_process tramp src m2 pgt tf.
Proof.
  intros B Hl Hb P Hne Ot Kt [wt Ht] Oc Kc Hcs m1 m2. destruct (init_page_ok src Hl Hb) as [Hok Hbytes].
  destruct (both_store pgt m fl kpos pos code _ B Hcs Oc Kc Hok) as [B1 P1]. fold m1 in B1, P1.
  assert (ram m1 !! tf = Some wt) as Ht1 by (unfold m1; cbn [ram]; by rewrite lookup_insert_ne).
  destruct (both_word pgt m1 fl kpos pos tf (TF_EPC / 8) 0 B1) as [B2 P2]; [by eexists|done|done|done|].
  destruct (both_word pgt (set_word m1 tf (TF_EPC / 8) 0) fl kpos pos tf (TF_SP / 8) (USTACK_BASE + USTACK_SIZE) B2)
    as [B3 P3]; [apply set_word_dom; by eexists|done|done|by unfold in_u|]. fold m2 in B3, P3.
  assert (five_pages tramp tf code stk guard m2 pgt) as P'.
  { destruct P as (? & ? & ? & ? & ? & P). split_and!; [done..|]. intros va Hva. rewrite P3, P2, P1 by done. by apply P. }
  assert (ram m2 !! code = Some (PageTable.page_splice zero_page 0 src)) as Hcode.
  { unfold m2. rewrite !set_word_ram_ne by done. apply lookup_insert_eq. }
  assert (0 ≤ USTACK_BASE ≤ MAXVA ∧ 0 ≤ TRAMPOLINE ≤ MAXVA ∧ 0 ≤ TRAPFRAME ≤ MAXVA) as (R1 & R2 & R3) by layout_lia.
  pose proof (ki_ram _ _ _ (ks_kinv _ _ _ _ _ _ (bo_k _ _ _ _ _ B1))) as K1.
  pose proof (ki_ram _ _ _ (ks_kinv _ _ _ _ _ _ (bo_k _ _ _ _ _ B2))) as K2.
  split_and!; [by eexists|done|]. split.
  - intros va Hva. unfold user_byte.
    assert (va / PGSIZE = 0) as E0 by (apply Z.div_small; lia).
    rewrite (five_user _ _ _ _ _ _ _ _ P') by layout_lia. rewrite decide_False by (by rewrite E0).
    rewrite decide_True by done. cbn [mbind option_bind]. unfold byte_in. rewrite Hcode. cbn [mbind option_bind].
    rewrite Z.mod_small by lia. apply Hbytes. lia.
  - rewrite (five_user _ _ _ _ _ _ _ _ P'), decide_True by done. by eexists.
  - intros va Hva H0 H1. by rewrite (five_user _ _ _ _ _ _ _ _ P'), !decide_False.
  - destruct P' as (_ & _ & _ & _ & _ & ->); [|done]. by rewrite !decide_False, decide_True by done.
  - destruct P' as (_ & _ & _ & _ & _ & ->); [|done]. by rewrite !decide_False, decide_True by done.
  - unfold m2. rewrite word_set_word by (done || (apply set_word_dom; by eexists)). rewrite decide_False by (by intros [_ ?]).
    rewrite word_set_word by (done || by eexists). by rewrite decide_True.
  - unfold m2. rewrite word_set_word by (done || (apply set_word_dom; by eexists)). by rewrite decide_True.
Qed.
End memory.

(** ** The table entry of the first process *)

(** Run one operation on a kernel state whose parts are known. *)
Ltac kcbn := unfold set_kmach, set_kmem, set_procs, set_pids, set_init_proc, set_wait_list, set_idx_pids;
  cbn [pids procs kmach kmem init_proc wait_list idx_pids ticks kfs list_insert insert meta data].
Tactic Notation "kstep" uconstr(L) := erewrite bind_run; [|by apply L]; kcbn.

Section entry.
Context {F : Type} `{Sym : Symbols} `{Ops : FileOps F} (O : nat → option hart) (h : nat) (st : Z).
Implicit Types (k : kst F) (x : mach) (L : gset lockid) (i : nat) (q : Process).

Lemma lock_k p L x l : holds O h st p L x → l ∉ L → few L →
  ∃ x', holds O h st p ({[l]} ∪ L) x' ∧ ∀ k, kmach k = x → lock h l k = Done (tt, set_kmach x' k).
Proof.
  intros H Hl Hf. destruct (lock_run O h st p x L l H Hl Hf) as (x' & E & H'). exists x'. split; [done|].
  intros k <-. unfold lock, on_mach, zoom. by rewrite E.
Qed.
Lemma unlock_k p L x l : holds O h st p ({[l]} ∪ L) x → l ∉ L →
  ∃ x', holds O h st p L x' ∧ ∀ k, kmach k = x → unlock h l k = Done (tt, set_kmach x' k).
Proof.
  intros H Hl. destruct (unlock_run O h st p x ({[l]} ∪ L) l H) as (x' & E & H'); [set_solver|]. exists x'. split.
  - by replace (({[l]} ∪ L) ∖ {[l]}) with L in H' by set_solver.
  - intros k <-. unfold unlock, on_mach, zoom. by rewrite E.
Qed.
Lemma proc_at_k i q k : procs k !! i = Some q → proc_at i k = Done (q, k).
Proof. intros E. unfold proc_at. by rewrite bind_get, E. Qed.
Lemma meta_k i q k : procs k !! i = Some q → meta_at i k = Done (meta q, k).
Proof. intros E. unfold meta_at. by mstep (proc_at_k i q k E). Qed.
Lemma data_k i q k : procs k !! i = Some q → data_at i k = Done (data q, k).
Proof. intros E. unfold data_at. by mstep (proc_at_k i q k E). Qed.
Lemma put_meta_k i q m k : procs k !! i = Some q →
  put_meta i m k = Done (tt, set_procs (<[i := mkProcess m (data q)]> (procs k)) k).
Proof. intros E. unfold put_meta. by mstep (proc_at_k i q k E). Qed.
Lemma put_data_k i q d k : procs k !! i = Some q →
  put_data i d k = Done (tt, set_procs (<[i := mkProcess (meta q) d]> (procs k)) k).
Proof. intros E. unfold put_data. by mstep (proc_at_k i q k E). Qed.
Lemma mem_k {A} (op : M mem A) k a m : op (kmem k) = Done (a, m) → on_mem op k = Done (a, set_kmem m k).
Proof. intros E. unfold on_mem, zoom. by rewrite E. Qed.

Definition ready_data (d : ProcData) (tf pgt : Z) : ProcData :=
  ProcData.set_context (ProcData.set_pagetable (ProcData.set_trapframe d tf) (Some pgt))
    (Context.write_sp (Context.write_ra (Context.write_zero (pcontext d)) fork_ret_addr) (kstack d + STACK_SIZE)).

Lemma alloc_first heap kroot rs ma m q ps pids0 ip wl idx0 idx tk (fs : F) fl kpos :
  holds O h st None ∅ ma → state (meta q) = Unused → pd_id (data q) = 0%nat → pagetable (data q) = None →
  kstack (data q) + STACK_SIZE < 2 ^ 64 → kspace heap kroot rs m fl kpos → is_page trampoline_addr → (15 ≤ length fl)%nat →
  ∃ ma' tf pgt m' fl' pos', holds O h st None ∅ ma' ∧
    alloc_proc h (mkKst ma m (q :: ps) pids0 ip wl (idx0 :: idx) tk fs) =
      Done (Some 0%nat, mkKst ma' m' (mkProcess (mkMeta Allocated (chan (meta q)) (killed (meta q)) (xstate (meta q)) pids0)
        (ready_data (data q) tf pgt) :: ps) (wrap 64 (pids0 + 1)) ip wl (pids0 :: idx) tk fs) ∧
    both heap kroot rs pgt m' fl' kpos pos' ∧ (9 ≤ length fl')%nat ∧ is_page tf ∧ outside fl' pos' tf ∧
    kpos !! tf = None ∧ is_Some (ram m' !! tf) ∧
    (∀ va, 0 ≤ va ≤ MAXVA → pte_at m' pgt va =
       if decide (va / PGSIZE = TRAPFRAME / PGSIZE) then Some (write_perm tf RW)
       else if decide (va / PGSIZE = TRAMPOLINE / PGSIZE) then Some (write_perm trampoline_addr RX) else None).
Proof.
  intros H Hst Hid Hpt Hks Ks Htr Hfl.
  destruct fl as [|tf fl]; [simpl in Hfl; lia|]. simpl in Hfl.
  destruct (kspace_alloc heap kroot rs m tf fl kpos Ks) as (m1 & E1 & Ks1 & G1 & Htf & _ & Hfr).
  destruct (Hfr tf) as (_ & Hf & (Hs & _ & _ & Hn) & _ & _); [by apply list_elem_of_singleton|].
  destruct (pagetable_run heap kroot rs m1 fl kpos tf trampoline_addr Ks1) as (pgt & m2 & fl2 & pos2 & E2 & B & L2 & O2 & R2 & P2);
    [done|done|done|lia|].
  destruct (lock_k None ∅ ma (LProc 0) H) as (x1 & H1 & EL1); [clear; set_solver|apply few_none_held|].
  destruct (lock_k None _ x1 LIdxPids H1) as (x2 & H2 & EL2); [clear; set_solver|apply few_one_held|].
  destruct (unlock_k None _ x2 LIdxPids H2) as (x3 & H3 & EL3); [clear; set_solver|].
  destruct (unlock_k None ∅ x3 (LProc 0) H3) as (x4 & H4 & EL4); [clear; set_solver|].
  exists x4, tf, pgt, m2, fl2, pos2. split_and!; [exact H4| |exact B|clear -Hfl L2; lia|exact Htf|exact O2|exact Hn|rewrite R2; exact Hs|exact P2].
  unfold alloc_proc, alloc_pid, all_procs. rewrite bind_assoc, bind_get. rewrite bind_assoc, bind_put, bind_ret_l.
  rewrite bind_gets. kcbn. cbn [length seq alloc_loop].
  kstep EL1. kstep meta_k. rewrite Hst, bool_decide_eq_true_2 by done. kstep put_meta_k.
  erewrite bind_run; [|apply mem_k; exact E1]. kcbn.
  kstep data_k. kstep put_data_k. unfold proc_pagetable. rewrite bind_assoc. kstep data_k.
  erewrite bind_run; [|apply mem_k; exact E2]. kcbn. kstep data_k. kstep put_data_k.
  cbn [ProcData.set_trapframe pagetable]. rewrite Hpt. cbn [when_some]. rewrite bind_ret_l.
  unfold init_context. rewrite bind_assoc. kstep data_k. rewrite bind_assoc, bind_uadd by done. kstep put_data_k.
  kstep EL2. rewrite bind_get. kcbn.
  change (pd_id (ProcData.set_trapframe (data q) tf)) with (pd_id (data q)). rewrite Hid. cbn [length Nat.ltb Nat.leb]. rewrite bind_put. kcbn.
  kstep EL3. kstep EL4. done.
Qed.
End entry.

(** ** The root directory *)
Section root.
Context {D S : Type} {BD : BlockDev D} (dv : Z) {BC : BufferCache D S dv} {BF : BitField} {Sym : Symbols}.
Context (pipe_chan : Z → Pipe.chan → Z) (arc_size : Z).
#[local] Instance rops : FileOps (filest S) := file_ops dv pipe_chan arc_size.

(** The table of inodes before its first use. *)
Definition no_inodes (fs : filest S) : Prop :=
  imetas (f_fs fs) = replicate (Z.to_nat NINODE) InodeMeta.new ∧
  idatas (f_fs fs) = replicate (Z.to_nat NINODE) InodeData.new.
Lemma namei_root_run (k : kst (filest S)) :
  no_inodes (kfs k) → ∃ n fs, namei_root k = Done (n, set_kfs fs k) ∧ f_devs fs = f_devs (kfs k).
Proof.
  intros [Hm Hd]. unfold namei_root, rops, file_ops.
  set (v := fs_view None k).
  assert (∃ s, Icache.namei dv ROOTIPATH v = Done (Some (mkInode ROOTDEV ROOTINUM 0), s) ∧ umem s = kmem k) as (s & E & Eu).
  { unfold v, fs_view. rewrite Hm, Hd. eexists. split; [vm_compute; reflexivity|reflexivity]. }
  eexists _, _. split; [|shelve].
  erewrite bind_run; [|unfold on_fs, zoom; fold v; rewrite E; reflexivity].
  cbn [unwrap]. rewrite bind_ret_l. unfold mret, M_ret. f_equal. f_equal. unfold set_fs. rewrite Eu. by destruct k.
  Unshelve. done.
Qed.

(** ** The first process *)
Context (O : nat → option hart) (h : nat) (st : Z).
Lemma user_init_run' heap kroot rs ma m q ps pids0 wl idx0 idx tk (fs : filest S) fl kpos src nm :
  holds O h st None ∅ ma → state (meta q) = Unused → pd_id (data q) = 0%nat → pagetable (data q) = None →
  cwd (data q) = None → kstack (data q) + STACK_SIZE < 2 ^ 64 → kspace heap kroot rs m fl kpos →
  is_page trampoline_addr → (15 ≤ length fl)%nat → no_inodes fs →
  Z.of_nat (length src) < PGSIZE → Forall (in_u 8) src →
  ∃ ma' m' d fs' fl' pos' pgt, holds O h st None ∅ ma' ∧
    user_init_proc h src nm (mkKst ma m (q :: ps) pids0 None wl (idx0 :: idx) tk fs) =
      Done (tt, mkKst ma' m' (mkProcess (mkMeta Runnable (chan (meta q)) (killed (meta q)) (xstate (meta q)) pids0) d :: ps)
        (wrap 64 (pids0 + 1)) (Some (proc_addr 0)) wl (pids0 :: idx) tk fs') ∧
    pd_id d = 0%nat ∧ pagetable d = Some pgt ∧ f_devs fs' = f_devs fs ∧
    both heap kroot rs pgt m' fl' kpos pos' ∧ first_process trampoline_addr src m' pgt (trapframe d).
Proof.
  intros H Hst Hid Hpt Hcwd Hks Ks Htr Hfl Hno Hsrc Hsb.
  destruct (alloc_first O h st heap kroot rs ma m q ps pids0 None wl idx0 idx tk fs fl kpos)
    as (ma1 & tf & pgt & m1 & fl1 & pos1 & H1 & EA & B1 & L1 & Htf & Ot & Kt & St & P1); [done..|].
  destruct (uinit_run heap kroot rs pgt m1 fl1 kpos pos1 src tf)
    as (code & stk & guard & m2 & fl2 & pos2 & EU & B2 & Ot2 & Rt2 & Hne & Hc & Hs & Hg & Oc & Kc & Rc & P2);
    [done|done|done|done|rewrite P1, !decide_False by (done || layout_lia); done..|].
  destruct (first_process_mem heap kroot rs trampoline_addr src pgt m2 fl2 kpos pos2 tf code stk guard)
    as (Sm & B3 & FP); [done|done|done| |done|done|done|by rewrite Rt2|done|done|by eexists|].
  { split_and!; [done..|]. intros va Hva. rewrite P2, P1 by done. done. }
  set (m3 := mkMem (<[code := PageTable.page_splice zero_page 0 src]> (ram m2)) (head m2) (count m2)) in *.
  set (m4 := set_word (set_word m3 tf (TF_EPC / 8) 0) tf (TF_SP / 8) (USTACK_BASE + USTACK_SIZE)) in *.
  assert ((write_word (tf + TF_EPC) 0 ;; write_word (tf + TF_SP) (USTACK_BASE + USTACK_SIZE)) m3 = Done (tt, m4)) as EW.
  { assert (has_tf m3 tf) as Htf3 by (split; [apply Htf|done]).
    mstep (tf_write m3 tf (TF_EPC / 8) 0 Htf3 ltac:(by split)).
    by rewrite (tf_write _ tf (TF_SP / 8) _ (has_tf_set _ _ (TF_EPC / 8) 0 Htf3) ltac:(by split)). }
  destruct (lock_k (F := filest S) O h st None ∅ ma1 (LProc 0) H1) as (x2 & H2 & EL2); [clear; set_solver|apply few_none_held|].
  destruct (unlock_k (F := filest S) O h st None ∅ x2 (LProc 0) H2) as (x3 & H3 & EL3); [clear; set_solver|].
  set (d1 := ProcData.set_name (ProcData.set_size (ready_data (data q) tf pgt) PGSIZE) nm).
  destruct (namei_root_run (mkKst ma1 m4 (mkProcess (mkMeta Allocated (chan (meta q)) (killed (meta q)) (xstate (meta q)) pids0)
    d1 :: ps) (wrap 64 (pids0 + 1)) None wl (pids0 :: idx) tk fs) Hno) as (n & fs' & ER & Hdev).
  exists x3, m4, (ProcData.set_files d1 (open_files d1) (Some n)), fs', fl2, pos2, pgt.
  split_and!; [exact H3| |exact Hid|done|exact Hdev|exact B3|exact FP].
  unfold user_init_proc. mstep EA. cbn [unwrap]. rewrite bind_ret_l. kstep data_k.
  change (pagetable (ready_data (data q) tf pgt)) with (Some pgt). cbn [unwrap]. rewrite bind_ret_l.
  erewrite bind_run; [|apply mem_k; exact EU]. kcbn. kstep put_data_k.
  erewrite bind_run; [|apply mem_k; exact EW]. kcbn. kstep data_k. kstep put_data_k.
  erewrite bind_run; [|exact ER]. unfold set_kfs. kcbn. kstep data_k. kstep put_data_k.
  change (cwd d1) with (cwd (data q)). rewrite Hcwd. cbn [when_some]. rewrite bind_ret_l.
  kstep EL2. kstep meta_k. kstep put_meta_k. kstep EL3. rewrite bind_get. done.
Qed.
End root.

(** ** The allocator at boot *)
Lemma heap_start_above e : e ≤ heap_start e.
Proof. unfold heap_start. pose proof (Z.mod_pos_bound (e + PGSIZE - 1) PGSIZE ltac:(layout_lia)). layout_lia. Qed.
Lemma init_loop_frame n start m m' p :
  start mod PGSIZE = 0 → p < start → init_loop n start m = Done (tt, m') → ram m' !! p = ram m !! p.
Proof.
  revert start m. induction n as [|n IH]; intros start m Hal Hp H; [by injection H as <-|].
  cbn [init_loop] in H. rewrite bind_gets in H. unfold set_head in H. rewrite bind_modify in H.
  apply bind_Done in H as ([] & m1 & H1 & H). rewrite bind_modify in H.
  apply IH in H; [|by apply page_step_al|layout_lia]. rewrite H. cbn [ram].
  unfold write_word in H1. cbn [ram] in H1. rewrite (page_of_base start) in H1 by done.
  destruct (ram m !! start); [|done]. injection H1 as <-. cbn [ram]. apply lookup_insert_ne. lia.
Qed.
Lemma length_pages_from n p : length (pages_from n p) = n.
Proof. revert p. induction n; intros p; simpl; auto. Qed.
Lemma init_run' end_ m n :
  0 ≤ end_ ≤ PHYSTOP → KERNEL_BASE ≤ heap_start end_ → heap_start end_ + Z.of_nat n * PGSIZE ≤ PHYSTOP →
  boot_mem (heap_start end_) m →
  ∃ m' fl, Kalloc.init end_ m = Done (tt, m') ∧ kinv (heap_start end_) m' fl ∧ (n ≤ length fl)%nat ∧
    ∀ p, p < heap_start end_ → (p ∉ fl) ∧ ram m' !! p = ram m !! p.
Proof.
  intros He Hb Hn Hm. destruct (init_kinv end_ m He Hb Hm) as (m' & fl & E & K & Hfl).
  assert (heap_start end_ mod PGSIZE = 0) as Hal.
  { unfold heap_start. rewrite Zminus_mod_idemp_r. by rewrite Z.sub_diag. }
  exists m', fl. split_and!; [done|done| |].
  - rewrite <- (length_pages_from n (heap_start end_)). apply submseteq_length, NoDup_submseteq; [apply NoDup_pages_from|].
    intros p (i & Hi & ->)%elem_of_pages_from. apply Hfl. split; [|layout_lia]. split; [by rewrite Z.mod_add|layout_lia].
  - intros p Hp. split; [intros [_ ?]%Hfl; lia|]. unfold Kalloc.init in E.
    rewrite (bind_run _ _ _ (heap_start end_) m) in E by (by apply page_round_up_run; layout_lia).
    unfold set_head in E. rewrite bind_modify in E. by apply (init_loop_frame _ _ _ _ _ Hal Hp) in E.
Qed.

(** ** The disk at boot *)
Record disk_present (self_addr : Z) (rd : Z → Z) : Prop := {
  dp_addr : self_addr mod PGSIZE = 0 ∧ 0 ≤ self_addr < 2 ^ 44;
  dp_magic : rd VIRTIO_MMIO_MAGIC_VALUE = 1953655158;
  dp_version : rd VIRTIO_MMIO_VERSION = 1;
  dp_device : rd VIRTIO_MMIO_DEVICE_ID = 2;
  dp_vendor : rd VIRTIO_MMIO_VENDOR_ID = 1431127377;
  dp_queue : NUM ≤ rd VIRTIO_MMIO_QUEUE_NUM_MAX
}.
Lemma virtio_init_run self_addr rd s :
  disk_present self_addr rd → dk s = Disk.new → ∃ s', Virtio.init self_addr rd s = Done (tt, s') ∧ vinit s'.
Proof.
  intros [[Hal Hr] H1 H2 H3 H4 H5] Hdk.
  assert (∃ s', Virtio.init self_addr rd s = Done (tt, s')) as [s' E]; [|exists s'; split; [done|by eapply init_vinit]].
  unfold Virtio.init. rewrite bind_assert by (by apply Z.eqb_eq).
  rewrite bind_assert by (apply Z.eqb_eq; by apply page_step_al).
  rewrite bind_assert by (apply Z.eqb_eq; by rewrite Z.mod_add). rewrite H1, H2, H3, H4. cbn [Z.eqb Pos.eqb negb orb].
  unfold write_reg. cbv zeta. rewrite !bind_modify. unfold NUM in *.
  rewrite (proj2 (Z.eqb_neq _ _)) by lia. rewrite bind_ret_l, (proj2 (Z.ltb_ge _ _)), bind_ret_l by lia.
  rewrite bind_modify. rewrite (proj2 (Z.leb_gt _ _)), bind_ret_l, bind_modify; [by eexists|].
  rewrite Z.shiftr_div_pow2 by done. apply Z.div_lt_upper_bound; [done|]. unfold PGSHIFT. change (2 ^ 12 * 2 ^ 32) with (2 ^ 44). lia.
Qed.

(** ** [start] on one hart *)
Section machine.
Context (rust_main_addr timervec scratch_base : Z).
Abbreviation start := (start rust_main_addr timervec scratch_base).

Lemma testbit_shiftl1 n i : 0 ≤ n → Z.testbit (Z.shiftl 1 n) i = (i =? n).
Proof.
  intros Hn. rewrite Z.shiftl_mul_pow2, Z.mul_1_l, Z.pow2_bits_eqb by done. apply Z.eqb_sym.
Qed.
Lemma start_status st i :
  in_u 64 st → 0 ≤ i < 64 →
  Z.testbit (Z.lor (Z.lor (Z.land st (unot 64 (Z.shiftl 3 MSTATUS_MPP_SHIFT))) (Z.shiftl MPP_SUPERVISOR MSTATUS_MPP_SHIFT))
      (Z.shiftl 1 MSTATUS_MIE)) i =
  if (i =? 11) || (i =? 3) then true else if i =? 12 then false else Z.testbit st i.
Proof.
  intros Hst Hi. unfold unot, MSTATUS_MPP_SHIFT, MSTATUS_MIE, MPP_SUPERVISOR.
  rewrite !Z.lor_spec, Z.land_spec, Z.ldiff_spec, !testbit_shiftl1, Z.testbit_ones_nonneg by lia.
  change (Z.shiftl 3 11) with (Z.lor (Z.shiftl 1 11) (Z.shiftl 1 12)). rewrite Z.lor_spec, !testbit_shiftl1 by done.
  rewrite (proj2 (Z.ltb_lt i 64)) by lia.
  destruct (i =? 11), (i =? 3), (i =? 12), (Z.testbit st i); done.
Qed.

Lemma start_eq id m :
  start id m =
  if mtime m + interval <? 2 ^ 64 then
    if id <? NCPU then Done (tt, mkMmode
      (Z.lor (Z.lor (Z.land (mstatus m) (unot 64 (Z.shiftl 3 MSTATUS_MPP_SHIFT))) (Z.shiftl MPP_SUPERVISOR MSTATUS_MPP_SHIFT))
        (Z.shiftl 1 MSTATUS_MIE))
      rust_main_addr 0 0xffff 0xffff (Z.lor (Z.lor (Z.lor (sie m) SEIE) SSIE) STIE)
      0x3fffffffffffff (Z.lor (Z.land (pmpcfg0 m) (unot 64 0xff)) 0x0f) (scratch_base + id * 40) timervec
      (Z.lor (mie m) (Z.shiftl 1 MIE_MTIE)) id (<[4%nat := interval]> (<[3%nat := count_mtiecmp id]> (timer_scratch m)))
      (mtime m) (mtime m + interval))
    else Panic "index out of bounds"
  else Panic "attempt to add with overflow".
Proof.
  lazy [Boot.start set_mpp set_mstatus write_mepc write_satp write_deleg sie_intr_on set_sie write_pmp timer_init add_mtimecmp
    write_mtimecmp write_scratch write_vec set_mie set_mtimer write_tp mbind M_bind mret M_ret get modify uadd assert panic
    mstatus mepc msatp medeleg mideleg sie pmpaddr0 pmpcfg0 mscratch mtvec mie tp timer_scratch mtime mtimecmp].
  destruct m. destruct (_ <? 2 ^ 64); [|done]. by destruct (_ <? NCPU).
Qed.

(** C25. [start] prepares hart [id] for the kernel. Its [mret] enters
    [rust_main] in supervisor mode with paging off; every exception and
    interrupt is delegated, the supervisor's three interrupts and the
    machine's timer interrupt are enabled, and the memory protection unit
    opens every physical address below [2 ^ 56 - 4]; the timer fires after [interval], [mscratch] points
    to the hart's row of [TIMER_SCRATCH], in which [timervec] finds the address
    of its own compare register and the interval; [tp] is the hart's number.
    A hart beyond [NCPU] is a panic, as is a timer about to overflow. *)
Theorem hart_started id m :
  in_u 64 (mstatus m) → 0 ≤ id → length (timer_scratch m) = 5%nat →
  if decide (2 ^ 64 ≤ mtime m + interval) then start id m = Panic "attempt to add with overflow"
  else if decide (NCPU ≤ id) then start id m = Panic "index out of bounds"
  else ∃ m', start id m = Done (tt, m') ∧
    mepc m' = rust_main_addr ∧ msatp m' = 0 ∧ tp m' = id ∧
    (∀ i, 0 ≤ i < 64 → Z.testbit (mstatus m') i =
       if (i =? 11) || (i =? 3) then true else if i =? 12 then false else Z.testbit (mstatus m) i) ∧
    (∀ c, 0 ≤ c < 16 → Z.testbit (medeleg m') c = true ∧ Z.testbit (mideleg m') c = true) ∧
    (∀ i, Z.testbit (sie m') i = (i =? 1) || (i =? 5) || (i =? 9) || Z.testbit (sie m) i) ∧
    Z.land (pmpcfg0 m') 0xff = 0x0f ∧ (∀ a, 0 ≤ a < 2 ^ 56 - 4 → a / 4 < pmpaddr0 m') ∧
    Z.testbit (mie m') MIE_MTIE = true ∧ mtvec m' = timervec ∧
    mtimecmp m' = mtime m + interval ∧ mscratch m' = scratch_base + id * 40 ∧
    timer_scratch m' !! 3%nat = Some (CLINT_MTIMECMP + 8 * id) ∧ timer_scratch m' !! 4%nat = Some interval.
Proof.
  intros Hst Hid Hlen. rewrite start_eq. case_decide as Ho; [by rewrite (proj2 (Z.ltb_ge _ _)) by done|].
  rewrite (proj2 (Z.ltb_lt _ _)) by lia. case_decide as Hn; [by rewrite (proj2 (Z.ltb_ge _ _)) by done|].
  rewrite (proj2 (Z.ltb_lt _ _)) by lia. eexists. split; [reflexivity|].
  cbn [mstatus mepc msatp medeleg mideleg sie pmpaddr0 pmpcfg0 mscratch mtvec mie tp timer_scratch mtimecmp].
  split_and!; [done..| | | | | | |done|done|done| |].
  - intros i Hi. by apply start_status.
  - intros c Hc. change 0xffff with (Z.ones 16). by rewrite Z.testbit_ones_nonneg, (proj2 (Z.ltb_lt _ _)) by lia.
  - intros i. rewrite !Z.lor_spec. unfold SEIE, SSIE, STIE. rewrite !testbit_shiftl1 by done.
    destruct (Z.testbit (sie m) i), (i =? 1), (i =? 5), (i =? 9); done.
  - rewrite Z.land_lor_distr_l, <- Z.land_assoc. change (Z.land (unot 64 0xff) 0xff) with 0. by rewrite Z.land_0_r.
  - intros a Ha. apply Z.div_lt_upper_bound; lia.
  - rewrite Z.lor_spec, testbit_shiftl1 by done. apply orb_true_r.
  - rewrite list_lookup_insert_ne, list_lookup_insert_eq by lia. unfold count_mtiecmp, CLINT_MTIMECMP. f_equal. lia.
  - rewrite list_lookup_insert_eq; [done|]. rewrite length_insert. lia.
Qed.
End machine.
(** Hart 2 at reset. *)
Definition reset_hart : mmode := mkMmode 0x1800 0 7 0 0 0 0 0 0 0 0 0 [0; 0; 0; 0; 0] 77 0.
Lemma hart_started_witness :
  ∃ m', start 0x80000500 0x80000600 0x80010000 2 reset_hart = Done (tt, m') ∧
    mtimecmp m' = 1000077 ∧ Z.testbit (mstatus m') 11 = true ∧ Z.testbit (mstatus m') 12 = false.
Proof.
  pose proof (hart_started 0x80000500 0x80000600 0x80010000 2 reset_hart ltac:(by split; vm_compute) ltac:(done) eq_refl) as H.
  rewrite !decide_False in H by (by vm_compute). destruct H as (m' & E & _ & _ & _ & Hst & _ & _ & _ & _ & _ & _ & Hc & _).
  exists m'. split_and!; [exact E|exact Hc|by apply (Hst 11)|by apply (Hst 12)].
Defined.

(** ** [rust_main] on hart 0 *)
Definition boot_procs : list Process :=
  (λ i, mkProcess ProcMeta.new (ProcData.new i)) <$> seq 0 (Z.to_nat NPROC).
Definition stacked_procs : list Process :=
  (λ i, mkProcess ProcMeta.new (ProcData.set_kstack (ProcData.new i) (kernel_stack (Z.of_nat i)))) <$> seq 0 (Z.to_nat NPROC).

Section boot.
Context {D S : Type} {BD : BlockDev D} (dv : Z) {BC : BufferCache D S dv} {BF : BitField} {Sym : Symbols} {TSym : TrapSymbols}.
Context (pipe_chan : Z → Pipe.chan → Z) (arc_size self_addr : Z) (rd : Z → Z).
Context (end_addr etext kpgt : Z).

(** What the linker and the boot image provide. *)
Record linked : Prop := {
  lk_end : 0 ≤ end_addr ∧ KERNEL_BASE ≤ heap_start end_addr ∧ heap_start end_addr + 14000 * PGSIZE ≤ PHYSTOP;
  lk_etext : etext mod PGSIZE = 0 ∧ KERNEL_BASE ≤ etext ≤ PHYSTOP;
  lk_tramp : is_page trampoline_addr;
  lk_kpgt : kpgt < heap_start end_addr
}.
(** The machine as the loader leaves it: static variables have their initial
    values, the free memory is there. *)
Record reset (s : bst S) : Prop := {
  re_harts : ∀ h x, harts (kmach (tk (bt s))) !! h = Some x → in_u 64 (sstatus x) ∧ cpu x = CPU.new;
  re_hart0 : is_Some (harts (kmach (tk (bt s))) !! 0%nat);
  re_locks : ∀ l, mutex_of (kmach (tk (bt s))) l = Mutex0.new;
  re_mem : boot_mem (heap_start end_addr) (kmem (tk (bt s)));
  re_kpgt : ram (kmem (tk (bt s))) !! kpgt = Some zero_page;
  re_procs : procs (tk (bt s)) = boot_procs;
  re_pids : pids (tk (bt s)) = 0;
  re_ip : init_proc (tk (bt s)) = None;
  re_wl : wait_list (tk (bt s)) = replicate (Z.to_nat NPROC) 0;
  re_idx : idx_pids (tk (bt s)) = replicate (Z.to_nat NPROC) NPROC;
  re_fs : no_inodes (kfs (tk (bt s))) ∧ f_devs (kfs (tk (bt s))) = uninit;
  re_disk : dk (tdisk (bt s)) = Disk.new;
  re_started : started s = false
}.
Abbreviation rust_main := (rust_main dv pipe_chan arc_size self_addr rd end_addr etext kpgt).

Lemma on_k_run {A} (m : M (kst (filest S)) A) s a k :
  m (tk (bt s)) = Done (a, k) →
  on_k m s = Done (a, mkBst (mkTst k (tdisk (bt s)) (tplic (bt s)) (tcsr (bt s))) (buart s) (bsatp s) (started s)).
Proof. intros E. unfold on_k, on_tst, on_kst, zoom. by rewrite E. Qed.

(** A computation between taking and dropping a lock. *)
Lemma locked_run {A} O h st l (m : M (bst S) A) s a s1 :
  holds O h st None ∅ (kmach (tk (bt s))) →
  (∀ x, holds O h st None ({[l]} ∪ ∅) x →
     m (mkBst (mkTst (set_kmach x (tk (bt s))) (tdisk (bt s)) (tplic (bt s)) (tcsr (bt s))) (buart s) (bsatp s) (started s)) =
     Done (a, mkBst (mkTst (set_kmach x (tk (bt s1))) (tdisk (bt s1)) (tplic (bt s1)) (tcsr (bt s1))) (buart s1) (bsatp s1)
       (started s1))) →
  ∃ x, holds O h st None ∅ x ∧
    (on_k (lock h l) ;; m ;; on_k (unlock h l)) s =
    Done (tt, mkBst (mkTst (set_kmach x (tk (bt s1))) (tdisk (bt s1)) (tplic (bt s1)) (tcsr (bt s1))) (buart s1) (bsatp s1)
       (started s1)).
Proof.
  intros H Hm. destruct (lock_k (F := filest S) O h st None ∅ _ l H) as (x & Hx & E); [clear; set_solver|apply few_none_held|].
  destruct (unlock_k (F := filest S) O h st None ∅ x l Hx) as (y & Hy & E'); [clear; set_solver|].
  exists y. split; [done|]. erewrite bind_run; [|apply on_k_run; by apply E]. mstep (Hm x Hx).
  etransitivity; [apply on_k_run; by apply E'|]. done.
Qed.

(** The steps of [boot_first]. *)
Definition uart_writes : list (Z * Z) :=
  [(UART0 + 1, 0); (UART0 + 3, 0x80); (UART0, 3); (UART0 + 1, 0); (UART0 + 3, 3); (UART0 + 2, 7); (UART0 + 1, 3)].
Definition with_devs (l : list Device) (fs : filest S) : filest S :=
  mkFilest (f_fs fs) (f_pipes fs) (f_arcs fs) (f_tty fs) l.
Lemma console_init_run O h st (k : kst (filest S)) d p c u sa b :
  holds O h st None ∅ (kmach k) → f_devs (kfs k) = uninit →
  ∃ x, holds O h st None ∅ x ∧ console_init h (mkBst (mkTst k d p c) u sa b) =
    Done (tt, mkBst (mkTst (set_kfs (with_devs console_registered (kfs k)) (set_kmach x k)) d p c) (u ++ uart_writes) sa b).
Proof.
  intros H Hd. destruct (locked_run O h st UART_LOCK (on_uart UartReg.init) (mkBst (mkTst k d p c) u sa b) tt
    (mkBst (mkTst k d p c) (u ++ uart_writes) sa b) H) as (x & Hx & E).
  { intros x _. unfold on_uart, zoom. cbn [buart]. unfold UartReg.init, UartReg.write_reg. rewrite !bind_modify.
    unfold modify. rewrite <- !(assoc_L (++)). done. }
  exists x. split; [done|]. unfold console_init, uart_init. mstep E.
  unfold set_dev. erewrite bind_run; [|apply on_k_run; cbn [bt tk]; rewrite bind_get; kcbn; rewrite Hd; reflexivity].
  apply on_k_run. cbn [bt tk]. rewrite bind_get. reflexivity.
Qed.
Lemma kalloc_init_run O h st (k : kst (filest S)) d p c u sa b :
  linked → boot_mem (heap_start end_addr) (kmem k) → holds O h st None ∅ (kmach k) →
  ∃ x m fl, holds O h st None ∅ x ∧
    kalloc_init end_addr h (mkBst (mkTst k d p c) u sa b) =
      Done (tt, mkBst (mkTst (set_kmem m (set_kmach x k)) d p c) u sa b) ∧
    kinv (heap_start end_addr) m fl ∧ 14000 ≤ Z.of_nat (length fl) ∧
    ∀ p, p < heap_start end_addr → (p ∉ fl) ∧ ram m !! p = ram (kmem k) !! p.
Proof.
  intros [(He1 & He2 & He3) _ _ _] Hm H.
  destruct (init_run' end_addr (kmem k) (Z.to_nat 14000)) as (m & fl & E & K & L & Hlow);
    [pose proof (heap_start_above end_addr); layout_lia|done|lia|done|].
  destruct (locked_run O h st KALLOC_LOCK (on_k (on_mem (Kalloc.init end_addr))) (mkBst (mkTst k d p c) u sa b) tt
    (mkBst (mkTst (set_kmem m k) d p c) u sa b) H) as (x & Hx & E').
  { intros x _. etransitivity; [apply on_k_run, on_mem_done; exact E|done]. }
  exists x, m, fl. split_and!; [done|exact E'|done|lia|done].
Qed.
Lemma disk_init_run O h st (k : kst (filest S)) d p c u sa b :
  disk_present self_addr rd → dk d = Disk.new → holds O h st None ∅ (kmach k) →
  ∃ x d', holds O h st None ∅ x ∧ vinit d' ∧
    disk_init self_addr rd h (mkBst (mkTst k d p c) u sa b) = Done (tt, mkBst (mkTst (set_kmach x k) d' p c) u sa b).
Proof.
  intros Hd Hk H. destruct (virtio_init_run self_addr rd d Hd Hk) as (d' & E & V).
  destruct (locked_run O h st DISK_LOCK (on_tst (on_virtio (Virtio.init self_addr rd))) (mkBst (mkTst k d p c) u sa b) tt
    (mkBst (mkTst k d' p c) u sa b) H) as (x & Hx & E').
  { intros x _. unfold on_tst, on_virtio, zoom. cbn [bt tdisk]. by rewrite E. }
  exists x, d'. done.
Qed.
Lemma manager_init_run ma m pd ip wl ix tk (fs : filest S) :
  manager_init (mkKst ma m boot_procs pd ip wl ix tk fs) = Done (tt, mkKst ma m stacked_procs pd ip wl ix tk fs).
Proof. vm_compute. reflexivity. Qed.
Lemma reset_holds s : reset s → ∃ st, holds (λ h, harts (kmach (tk (bt s))) !! h) 0 st None ∅ (kmach (tk (bt s))).
Proof.
  intros [Hh [x Hx] Hl _ _ _ _ _ _ _ _ _ _]. destruct (Hh 0%nat x Hx) as [Hst Hc]. exists (sstatus x). split; [done| | |done].
  - exists x, (context CPU.new). split; [done|]. by split; rewrite ?Hc.
  - intros l. rewrite Hl, decide_False by (clear; set_solver). done.
Qed.

(** The state the scheduler starts from. *)
Lemma booted_first (k0 : kst (filest S)) st ma m d ip tk (fs : filest S) :
  (∀ h x, harts (kmach k0) !! h = Some x → in_u 64 (sstatus x) ∧ cpu x = CPU.new) →
  holds (λ h, harts (kmach k0) !! h) 0 st None ∅ ma → pd_id d = 0%nat →
  booted (mkKst ma m (mkProcess (mkMeta Runnable 0 false 0 0) d :: tail stacked_procs) 1 ip (replicate (Z.to_nat NPROC) 0)
    (0 :: tail (replicate (Z.to_nat NPROC) NPROC)) tk fs).
Proof.
  intros H0 H Hid. split; cbn [kmach procs wait_list idx_pids pids].
  - intros h x Hx. destruct (decide (h = 0%nat)) as [->|Hne].
    + destruct (ho_hart _ _ _ _ _ _ H) as (y & c & Hy & N). rewrite Hx in Hy. injection Hy as <-.
      split_and!; [rewrite (ne_st _ _ _ _ _ N); apply H|by apply N..].
    + rewrite (ho_other _ _ _ _ _ _ H) in Hx by done. destruct (H0 h x Hx) as [? ->]. done.
  - intros l. rewrite (ho_lock _ _ _ _ _ _ H), decide_False by (clear; set_solver). done.
  - rewrite fmap_cons. cbn [data]. rewrite Hid. vm_compute. reflexivity.
  - reflexivity.
  - reflexivity.
  - done.
  - intros [|i] me; unfold entry; cbn [procs]; rewrite ?lookup_cons; [intros [= <-]; by right|].
    intros Hme. left. cbn [lookup list_lookup] in Hme. revert Hme. unfold stacked_procs.
    change (seq 0 (Z.to_nat NPROC)) with (0%nat :: seq 1 63). cbn [fmap list_fmap tail].
    rewrite list_lookup_fmap. destruct (seq 1 63 !! i); [|done]. by intros [= <-].
Qed.
Definition plic_writes (h : nat) : list Plic.access :=
  [Plic.Write (PLIC_BASE + UART0_IRQ * 4) 1; Plic.Write (PLIC_BASE + VIRTIO0_IRQ * 4) 1;
   Plic.Write (Plic.PLIC_SENABLE (Z.of_nat h)) 1026; Plic.Write (Plic.PLIC_SPRIORITY (Z.of_nat h)) 0].

(** [boot_first], step by step. *)
Lemma boot_first_run O st ma m wl idx0 ix tks (fs : filest S) dd pp cc u sa b :
  linked → disk_present self_addr rd → holds O 0 st None ∅ ma → boot_mem (heap_start end_addr) m →
  ram m !! kpgt = Some zero_page → no_inodes fs → f_devs fs = uninit → dk dd = Disk.new →
  ∃ x y m' d fs' d' stacks pgt kpos fl pos,
    holds O 0 (sie_on st) None ∅ x ∧ harts x !! 0%nat = Some y ∧ sstatus y = sie_on st ∧
    boot_first dv pipe_chan arc_size self_addr rd end_addr etext kpgt 0
      (mkBst (mkTst (mkKst ma m boot_procs 0 None wl (idx0 :: ix) tks fs) dd pp cc) u sa b) =
    Done (tt, mkBst (mkTst (mkKst x m' (mkProcess (mkMeta Runnable 0 false 0 0) d :: tail stacked_procs) 1
        (Some (proc_addr 0)) wl (0 :: ix) tks fs') d' (Plic.mkPlic (Plic.answers pp) (Plic.accesses pp ++ plic_writes 0))
        (set_stvec kernelvec cc)) (u ++ uart_writes) (PageTable.as_satp kpgt) true) ∧
    is_page kpgt ∧ length stacks = Z.to_nat NPROC ∧ vinit d' ∧ f_devs fs' = console_registered ∧
    pd_id d = 0%nat ∧ pagetable d = Some pgt ∧
    both (heap_start end_addr) kpgt (kernel_regions etext trampoline_addr stacks) pgt m' fl kpos pos ∧
    first_process trampoline_addr INITCODE m' pgt (trapframe d).
Proof.
  intros L Dp H0 Hm Hk Hno Hdv Hdk. pose proof L as [_ [He Hb] Htr Hkp].
  destruct (console_init_run O 0 st (mkKst ma m boot_procs 0 None wl (idx0 :: ix) tks fs) dd pp cc u sa b H0 Hdv)
    as (x1 & H1 & E1).
  destruct (kalloc_init_run O 0 st (mkKst x1 m boot_procs 0 None wl (idx0 :: ix) tks (with_devs console_registered fs))
    dd pp cc (u ++ uart_writes) sa b L Hm H1) as (x2 & m2 & fl2 & H2 & E2 & K2 & L2 & Low2).
  destruct (Low2 kpgt Hkp) as [Hkf Hkr]. cbn [kmem] in Hkr. rewrite Hk in Hkr.
  set (fs1 := with_devs console_registered fs) in *.
  destruct (kernel_init_run (heap_start end_addr) etext kpgt (mkKst x2 m2 boot_procs 0 None wl (idx0 :: ix) tks fs1) fl2)
    as (m3 & fl3 & kpos & stacks & E3 & Ks & _ & L3 & Hns & _); [done..|apply Htr|apply Htr|done|].
  destruct (disk_init_run O 0 st (mkKst x2 m3 stacked_procs 0 None wl (idx0 :: ix) tks fs1) dd
    (Plic.mkPlic (Plic.answers pp) (Plic.accesses pp ++ plic_writes 0)) (set_stvec kernelvec cc)
    (u ++ uart_writes) (PageTable.as_satp kpgt) b Dp Hdk H2) as (x4 & d' & H4 & V & E4).
  destruct (user_init_run' dv pipe_chan arc_size O 0 st (heap_start end_addr) kpgt (kernel_regions etext trampoline_addr stacks)
    x4 m3 (mkProcess ProcMeta.new (ProcData.set_kstack (ProcData.new 0) (kernel_stack 0))) (tail stacked_procs) 0 wl idx0 ix
    tks fs1 fl3 kpos INITCODE initprog) as (x5 & m5 & d & fs5 & fl5 & pos5 & pgt & H5 & E5 & Hid & Hpt & Hdv5 & B5 & FP);
    [done|done|done|done|done|by vm_compute|done|done|lia|done|done|repeat constructor; by vm_compute|].
  destruct (ho_hart _ _ _ _ _ _ H5) as (y & c & Hy & _).
  pose proof (holds_write O 0 st (sie_on (sstatus y)) None x5 y H5 Hy) as H6.
  assert (sstatus y = st) as Ey.
  { destruct (ho_hart _ _ _ _ _ _ H5) as (y' & c' & Hy' & N). rewrite Hy in Hy'. injection Hy' as <-. apply N. }
  rewrite Ey in H6. specialize (H6 (sie_on_range _ (ho_st _ _ _ _ _ _ H5))).
  set (x6 := set_hart 0 (mkHart (sie_on st) (cpu y)) x5) in *.
  exists x6, (mkHart (sie_on st) (cpu y)), m5, d, fs5, d', stacks, pgt, kpos, fl5, pos5.
  split_and!; [exact H6|by eapply set_hart_lookup|done| |by eapply (kinv_page _ _ _ kpgt K2); eexists|exact Hns|exact V
    |exact Hdv5|exact Hid|exact Hpt|exact B5|exact FP].
  unfold boot_first. mstep E1. mstep E2. erewrite bind_run; [|apply on_k_run; exact E3].
  unfold set_kmem. kcbn. cbn [bt tk tdisk tplic tcsr buart bsatp started].
  erewrite bind_run; [|reflexivity]. erewrite bind_run; [|apply on_k_run, manager_init_run].
  cbn [bt tk tdisk tplic tcsr buart bsatp started].
  erewrite bind_run; [|reflexivity]. erewrite bind_run; [|reflexivity]. erewrite bind_run; [|reflexivity].
  cbn [Plic.answers Plic.accesses bt tk tdisk tplic tcsr buart bsatp started]. rewrite <- !(assoc_L (++)).
  mstep E4. erewrite bind_run; [|apply on_k_run; exact E5].
  rewrite bind_modify. etransitivity; [apply on_k_run, on_mach_run; unfold intr_on; cbn [bt tk kmach]; by mstep (hart_at_run _ _ _ Hy)|].
  rewrite Ey. done.
Qed.

(** C9. The boot of hart 0 completes. On a machine as the loader leaves it,
    with 14000 free pages, a virtio disk that answers as one, and [end],
    [etext] and the trampoline where the linker script puts them, [rust_main] neither panics nor runs out of memory. Then
    [STARTED] is set and the state is one the theorems on processes start from
    ([booted]); the hart translates exactly the kernel's regions and takes
    interrupts, its traps go to [kernelvec]; the first entry of the table is
    runnable, its address space has [INITCODE] at 0, one stack page, the
    trampoline and its trapframe and nothing else, its trapframe starts it at
    0 with the stack's top, and it is [init_proc]; the disk driver is ready,
    the console is registered. Every other hart changes nothing before, and
    after it gets the same address space and the same trap vector. *)
Theorem boot_completes s :
  linked → disk_present self_addr rd → reset s →
  ∃ s' stacks d pgt, rust_main 0%nat s = Done (true, s') ∧ started s' = true ∧ booted (tk (bt s')) ∧
    satp_mode (bsatp s') = 8 ∧ length stacks = Z.to_nat NPROC ∧
    maps_exactly (kmem (tk (bt s'))) (satp_root (bsatp s')) (kernel_regions etext trampoline_addr stacks) ∧
    stvec (tcsr (bt s')) = kernelvec ∧
    (∃ x, harts (kmach (tk (bt s'))) !! 0%nat = Some x ∧ sie_get (sstatus x) = true) ∧
    procs (tk (bt s')) = mkProcess (mkMeta Runnable 0 false 0 0) d :: tail stacked_procs ∧ pagetable d = Some pgt ∧
    first_process trampoline_addr INITCODE (kmem (tk (bt s'))) pgt (trapframe d) ∧
    init_proc (tk (bt s')) = Some (proc_addr 0) ∧
    vinit (tdisk (bt s')) ∧ f_devs (kfs (tk (bt s'))) = console_registered ∧
    Plic.accesses (tplic (bt s')) = Plic.accesses (tplic (bt s)) ++ plic_writes 0 ∧ buart s' = buart s ++ uart_writes ∧
    ∀ h, h ≠ 0%nat → rust_main h s = Done (false, s) ∧
      ∃ s'', rust_main h s' = Done (true, s'') ∧ tk (bt s'') = tk (bt s') ∧ bsatp s'' = bsatp s' ∧
        stvec (tcsr (bt s'')) = kernelvec.
Proof.
  intros L Dp R. destruct (reset_holds s R) as [st H0]. pose proof R as [Hh _ _ Hm Hk Hp Hpid Hip Hwl Hix [Hno Hdv] Hdk Hs].
  destruct s as [[[ma m ps pd ip wl ix tks fs] dd pp cc] u sa b].
  cbn [bt tk kmach kmem procs pids init_proc wait_list idx_pids kfs tdisk tplic tcsr buart started bsatp] in *.
  rewrite Hp, Hpid, Hip, Hwl, Hix, Hs in *. clear Hp Hpid Hip Hwl Hix Hs.
  destruct (boot_first_run _ st ma m (replicate (Z.to_nat NPROC) 0) NPROC (tail (replicate (Z.to_nat NPROC) NPROC)) tks fs dd pp cc
    u sa false L Dp H0 Hm Hk Hno Hdv Hdk) as (x & y & m' & d & fs' & d' & stacks & pgt & kpos & fl & pos & H & Hy & Ey & E &
    Hkp & Hns & V & Hdev & Hid & Hpt & B & FP).
  destruct (as_satp_fields kpgt Hkp) as [Hmode Hroot].
  eexists _, stacks, d, pgt. split_and!.
  - unfold Boot.rust_main. cbn [Nat.eqb]. mstep E. reflexivity.
  - done.
  - by eapply (booted_first (mkKst ma m boot_procs 0 None [] [] tks fs)).
  - done.
  - done.
  - cbn [bsatp bt tk kmem]. rewrite Hroot. apply (bo_k _ _ _ _ _ _ _ _ B).
  - done.
  - exists y. split; [done|]. rewrite Ey. apply sie_get_on.
  - done.
  - done.
  - exact FP.
  - done.
  - exact V.
  - exact Hdev.
  - done.
  - done.
  - intros [|h] Hne; [done|]. split; [done|]. eexists. split; [reflexivity|]. done.
Qed.
End boot.

(** ** A machine that boots *)
#[local] Instance bcb : BufferCache tdev (bcache tdev) 1 := bcache_BufferCache 1.
#[local] Instance bitsb : BitField := {|
  get_bit := Z.testbit; set_bit w n v := if (v : bool) then Z.setbit w n else Z.clearbit w n |}.
#[local] Instance symb : Symbols := {|
  proc_base := 0x80100000; proc_stride := 0x200; fork_ret_addr := 0x80000100;
  user_trap_addr := 0x80000200; trampoline_addr := 0x80001000; kernel_satp := 0 |}.
#[local] Instance tsymb : TrapSymbols := {|
  kernelvec := 0x80000300; uservec := 0x80001000; userret := 0x80001100; cause_of _ := None |}.
(** The last [n] pages of RAM and [KERNEL_PAGETABLE] at [0x80003000]. *)
Definition loaded_mem (n : nat) : mem := mkMem (<[0x80003000 := zero_page]> (ram (bootn n))) None ∅.
Definition loaded (n : nat) : bst (bcache tdev) :=
  let m := loaded_mem n in
  let fs := mkFsst (fl fs1) (super fs1) false (replicate (Z.to_nat NINODE) InodeMeta.new)
    (replicate (Z.to_nat NINODE) InodeData.new) m None None in
  mkBst (mkTst (mkKst (mkMach [mkHart 0 CPU.new; mkHart 0 CPU.new] ∅) m boot_procs 0 None (replicate (Z.to_nat NPROC) 0)
      (replicate (Z.to_nat NPROC) NPROC) 0 (mkFilest fs ∅ ∅ (mkTty Uart.new Console.new [] [] 0 0 0 m None false) uninit))
    (mkVst Disk.new [] []) (Plic.mkPlic [] []) (mkCsrs 0 0 0 0 false)) [] 0 false.
Lemma heap_start_of n : heap_start (heap_of n) = heap_of n.
Proof.
  unfold heap_start. assert (heap_of n mod PGSIZE = 0) as Hm.
  { unfold heap_of. rewrite <- Zminus_mod_idemp_r, Z.mod_mul by layout_lia. done. }
  replace (heap_of n + PGSIZE - 1) with (PGSIZE - 1 + heap_of n) by lia.
  rewrite <- Z.add_mod_idemp_r, Hm by layout_lia. rewrite Z.add_0_r, Z.mod_small by layout_lia. lia.
Qed.
Lemma loaded_reset n : Z.of_nat n = 14000 → reset (heap_of n) 0x80003000 (loaded n).
Proof.
  intros Hn. destruct (bootn_ok n) as [R1 R2 R3]; [lia|].
  assert (0x80003000 < heap_of n) as Hlow by (unfold heap_of; layout_lia).
  split; try reflexivity.
  - by intros [|[|h]] x [= <-].
  - by eexists.
  - rewrite heap_start_of. change (kmem (tk (bt (loaded n)))) with (loaded_mem n). split; [|intros p Hp Hh|done].
    + unfold loaded_mem. cbn [ram]. intros p ws [[<- <-]|[_ Hp]]%lookup_insert_Some; [|by apply R1]. split; [by split; vm_compute|apply page_ok_zero].
    + cbn [loaded_mem ram]. rewrite lookup_insert_ne by lia. by apply R2.
  - apply lookup_insert_eq.
  - done.
Qed.
Lemma loaded_linked n : Z.of_nat n = 14000 → linked (heap_of n) 0x80020000 0x80003000.
Proof.
  intros Hn. split; rewrite ?heap_start_of; [unfold heap_of; layout_lia|split; [done|layout_lia]|by split; vm_compute|].
  unfold heap_of. layout_lia.
Qed.
Lemma regs0_disk : disk_present 0x80000000 regs0.
Proof. by split; vm_compute. Qed.
Lemma loaded_first : ∃ m pgt tf, first_process 0x80001000 INITCODE m pgt tf.
Proof.
  assert (∃ n, Z.of_nat n = 14000) as [n Hn] by (exists (Z.to_nat 14000); by rewrite Z2Nat.id).
  pose proof (loaded_reset n Hn) as R. destruct (reset_holds _ _ _ R) as [st H0].
  destruct (boot_first_run 1 pchant 16 0x80000000 regs0 (heap_of n) 0x80020000 0x80003000 _ st _ (loaded_mem n)
    (replicate (Z.to_nat NPROC) 0) NPROC (tail (replicate (Z.to_nat NPROC) NPROC)) 0 _ (mkVst Disk.new [] []) (Plic.mkPlic [] [])
    (mkCsrs 0 0 0 0 false) [] 0 false (loaded_linked n Hn) regs0_disk H0 (re_mem _ _ _ R) (re_kpgt _ _ _ R)
    (proj1 (re_fs _ _ _ R)) (proj2 (re_fs _ _ _ R)) eq_refl)
    as (x & y & m & d & fs & d' & stacks & pgt & kpos & fl & pos & _ & _ & _ & _ & _ & _ & _ & _ & _ & _ & _ & F).
  by exists m, pgt, (trapframe d).
Qed.
Lemma boot_completes_witness :
  ∃ n s', rust_main 1 pchant 16 0x80000000 regs0 (heap_of n) 0x80020000 0x80003000 0 (loaded n) =
      Done (true, s') ∧ started s' = true ∧ init_proc (tk (bt s')) = Some 0x80100000.
Proof.
  assert (∃ n, Z.of_nat n = 14000) as [n Hn] by (exists (Z.to_nat 14000); by rewrite Z2Nat.id).
  destruct (boot_completes 1 pchant 16 0x80000000 regs0 (heap_of n) 0x80020000 0x80003000 (loaded n))
    as (s' & stacks & d & pgt & E & Hs & _ & _ & _ & _ & _ & _ & _ & _ & _ & Hi & _).
  - by apply loaded_linked.
  - apply regs0_disk.
  - by apply loaded_reset.
  - exists n, s'. split_and!; [exact E|exact Hs|exact Hi].
Defined.
