(* ===== verification/InitCode.v ===== *)
(** * The first program

    [INITCODE] ([process/mod.rs]) is machine code. Here are the instructions of
    RV64I it uses, and what the first process does when it runs it in the
    address space that boot builds. *)
From S2P Require Import Prelude Layout Kalloc PageTable PageTableFacts Proc UserSpace UserCopy KernelMap KernelSpace Syscall UserLib Boot BootSafe.

(** ** Instructions (RISC-V, volume I, chapters 2 and 5) *)
Inductive instr :=
| Auipc (rd : nat) (imm : Z)
| Addi (rd rs1 : nat) (imm : Z)
| Jal (rd : nat) (imm : Z)
| Ecall.

Section code.
Context (byte : Z → option Z).

Definition load (n : nat) (a : Z) : option Z :=
  bs ← mapM (λ i, byte (a + Z.of_nat i)) (seq 0 n); mret (le_word bs).

Definition field (w lo n : Z) : Z := Z.land (Z.shiftr w lo) (Z.ones n).
Definition imm_i (w : Z) : Z := to_signed 12 (field w 20 12).
Definition imm_u (w : Z) : Z := to_signed 32 (Z.shiftl (field w 12 20) 12).
Definition imm_j (w : Z) : Z :=
  to_signed 21 (Z.shiftl (field w 31 1) 20 + Z.shiftl (field w 12 8) 12 + Z.shiftl (field w 20 1) 11 +
    Z.shiftl (field w 21 10) 1).
Definition decode (w : Z) : option instr :=
  let rd := Z.to_nat (field w 7 5) in
  if field w 0 7 =? 0x17 then Some (Auipc rd (imm_u w))
  else if field w 0 7 =? 0x6f then Some (Jal rd (imm_j w))
  else if (field w 0 7 =? 0x13) && (field w 12 3 =? 0) then Some (Addi rd (Z.to_nat (field w 15 5)) (imm_i w))
  else if w =? 0x73 then Some Ecall
  else None.

(** Register 0 reads as 0. *)
Definition get_x (r : nat) (rs : nat → Z) : Z := if Nat.eqb r 0 then 0 else rs r.
Definition step (i : instr) (pc : Z) (rs : nat → Z) : option (Z * (nat → Z)) :=
  match i with
  | Auipc rd imm => Some (wrap 64 (pc + 4), set_reg rd (wrap 64 (pc + imm)) rs)
  | Addi rd rs1 imm => Some (wrap 64 (pc + 4), set_reg rd (wrap 64 (get_x rs1 rs + imm)) rs)
  | Jal rd imm => Some (wrap 64 (pc + imm), set_reg rd (wrap 64 (pc + 4)) rs)
  | Ecall => None
  end.
(** Run to the next [ecall]: its address and the registers there. *)
Fixpoint to_ecall (fuel : nat) (pc : Z) (rs : nat → Z) : option (Z * (nat → Z)) :=
  match fuel with
  | O => None
  | S fuel' =>
    i ← load 4 pc ≫= decode;
    match step i pc rs with
    | None => Some (pc, rs)
    | Some (pc', rs') => to_ecall fuel' pc' rs'
    end
  end.
End code.

(** ** What it does *)
Definition init_path : list Z := [47; 105; 110; 105; 116; 0].

(** The page with the code, and that running it depends on nothing else. *)
Definition code_byte (va : Z) : option Z :=
  if (0 <=? va) && (va <? PGSIZE) then Some (default 0 (INITCODE !! Z.to_nat va)) else None.

Section agree.
Context (b1 b2 : Z → option Z) (Hb : ∀ va b, b1 va = Some b → b2 va = Some b).
Lemma bytes_mono (g : nat → Z) l bs : mapM (λ i, b1 (g i)) l = Some bs → mapM (λ i, b2 (g i)) l = Some bs.
Proof. rewrite !mapM_Some. intros H. eapply Forall2_impl; [exact H|]. intros i b. apply Hb. Qed.
Lemma load_mono n a w : load b1 n a = Some w → load b2 n a = Some w.
Proof. unfold load. intros (bs & H & E)%bind_Some. by rewrite (bytes_mono _ _ _ H). Qed.
Lemma to_ecall_mono fuel pc rs r : to_ecall b1 fuel pc rs = Some r → to_ecall b2 fuel pc rs = Some r.
Proof.
  revert pc rs. induction fuel as [|fuel IH]; intros pc rs; [done|]. cbn [to_ecall].
  intros (i & (w & Hw & Hd)%bind_Some & H)%bind_Some. rewrite (load_mono _ _ _ Hw). cbn [mbind option_bind]. rewrite Hd.
  cbn [mbind option_bind]. destruct (step i pc rs) as [[pc' rs']|]; [by apply IH|done].
Qed.
End agree.

(** The three runs between calls. *)
Lemma code_exec rs : to_ecall code_byte 6 0 rs =
  Some (20, set_reg a7 7 (set_reg a1 43 (set_reg a1 8 (set_reg a0 36 (set_reg a0 0 rs))))).
Proof. reflexivity. Qed.
Lemma code_exit rs : to_ecall code_byte 2 24 rs = Some (28, set_reg a7 2 rs).
Proof. reflexivity. Qed.
Lemma code_again rs : to_ecall code_byte 3 32 rs = Some (28, set_reg a7 2 (set_reg 1 36 rs)).
Proof. reflexivity. Qed.
Lemma code_args : mapM (λ i, code_byte (36 + Z.of_nat i)) (seq 0 6) = Some init_path ∧
  load code_byte 8 43 = Some 36 ∧ load code_byte 8 51 = Some 0.
Proof. done. Qed.

(** C11. The first program. In the address space boot gives the first process
    and from the program counter in its trapframe, [INITCODE] reaches the system
    call [SysExec] after five instructions, whatever the registers hold, with
    the path [/init] and an array of arguments that is [/init] alone. When that
    call returns, the next is [SysExit], and should that return, it is
    [SysExit] again. *)
Theorem init_program tramp m pgt tf :
  first_process tramp INITCODE m pgt tf →
  let byte := user_byte m pgt in
  ∃ entry, word m tf (TF_EPC / 8) = Some entry ∧
  (∀ rs, ∃ pc rs1, to_ecall byte 6 entry rs = Some (pc, rs1) ∧ from_primitive (rs1 a7) = SysExec ∧
    mapM (λ i, byte (rs1 a0 + Z.of_nat i)) (seq 0 6) = Some init_path ∧
    load byte 8 (rs1 a1) = Some (rs1 a0) ∧ load byte 8 (rs1 a1 + 8) = Some 0 ∧
    ∀ rs2, ∃ pc' rs3, to_ecall byte 2 (pc + 4) rs2 = Some (pc', rs3) ∧ from_primitive (rs3 a7) = SysExit ∧
      ∀ rs4, ∃ rs5, to_ecall byte 3 (pc' + 4) rs4 = Some (pc', rs5) ∧ from_primitive (rs5 a7) = SysExit).
Proof.
  intros F byte. exists 0. split; [apply F|].
  assert (∀ va b, code_byte va = Some b → byte va = Some b) as Hb.
  { intros va b. unfold code_byte. destruct (0 <=? va) eqn:E1, (va <? PGSIZE) eqn:E2; try done. cbn [andb]. intros [= <-].
    apply F. apply Z.leb_le in E1. apply Z.ltb_lt in E2. lia. }
  destruct code_args as (A1 & A2 & A3).
  intros rs. eexists _, _. split; [apply (to_ecall_mono _ _ Hb), code_exec|]. split; [done|].
  split; [by apply (bytes_mono _ _ Hb (λ i, 36 + Z.of_nat i))|]. split; [by apply (load_mono _ _ Hb)|].
  split; [by apply (load_mono _ _ Hb)|].
  intros rs2. eexists _, _. split; [apply (to_ecall_mono _ _ Hb), code_exit|]. split; [done|].
  intros rs4. eexists. split; [apply (to_ecall_mono _ _ Hb), code_again|done].
Qed.
Lemma init_program_witness :
  ∃ m pgt pc rs1, to_ecall (user_byte m pgt) 6 0 (λ _, 7) = Some (pc, rs1) ∧ from_primitive (rs1 a7) = SysExec.
Proof.
  destruct loaded_first as (m & pgt & tf & F).
  destruct (init_program 0x80001000 m pgt tf F) as (e & He & H).
  rewrite (fp_epc _ _ _ _ _ F) in He. injection He as <-. destruct (H (λ _, 7)) as (pc & rs1 & E & Hc & _).
  by exists m, pgt, pc, rs1.
Defined.
