(* ===== verification/Ipc.v ===== *)
(** * Bytes from one process to another

    [sys_write] on one end of a pipe and [sys_read] on the other, from the
    memory of the writer to the memory of the reader: system call arguments,
    descriptors, open files, the pipe and the copies to and from user memory
    together. *)
From S2P Require Import FsFile.
From S2P Require Import Prelude.
From S2P Require Import Layout.
From S2P Require Import Kalloc.
From S2P Require Import PageTable.
From S2P Require Import PageTableFacts.
From S2P Require Import UserSpace.
From S2P Require Import UserCopy.
From S2P Require Import Bcache.
From S2P Require Import BcacheFacts.
From S2P Require Import Fs.
From S2P Require Import Icache.
From S2P Require Import Ring.
From S2P Require Import Pipe.
From S2P Require Import PipeSafe.
From S2P Require Import Console.
From S2P Require Import Spin.
From S2P Require Import Proc.
From S2P Require Import File.
From S2P Require Import SysFile.
From S2P Require Import TrapSafe.

(** ** The user buffer, byte by byte *)
Section buffer.
Context (heap root : Z).
Implicit Types (m : mem) (fl : list Z) (pos : gmap Z (nat * Z)).

Lemma gather_run m fl pos addr bs : ∀ i,
  space heap root m fl pos → 0 ≤ addr → 0 ≤ i → addr + i + Z.of_nat (length bs) ≤ MAXVA →
  UserCopy.holds root m (addr + i) bs → gather root addr i (length bs) m = Done (bs, m).
Proof.
  induction bs as [|b bs IH]; intros i Sp Ha Hi Hmax Hh; [done|]. cbn [length gather].
  cbn [length] in Hmax. rewrite bind_uadd by layout_lia.
  change (b :: bs) with ([b] ++ bs) in Hh. apply holds_app in Hh as [H1 H2].
  mstep (copy_in_run heap root m fl pos (addr + i) [b] Sp ltac:(lia) ltac:(simpl; lia) ltac:(simpl; lia) H1).
  mstep (IH (i + 1) Sp Ha ltac:(lia) ltac:(lia) ltac:(by rewrite Z.add_assoc)). done.
Qed.
Lemma scatter_run addr bs : ∀ m fl pos i,
  space heap root m fl pos → 0 ≤ addr → 0 ≤ i → addr + i + Z.of_nat (length bs) ≤ MAXVA →
  mapped root m (addr + i) (Z.of_nat (length bs)) → Forall (in_u 8) bs →
  ∃ m', scatter root addr i bs m = Done (tt, m') ∧ space heap root m' fl pos ∧ stored root m (addr + i) bs m'.
Proof.
  induction bs as [|b bs IH]; intros m fl pos i Sp Ha Hi Hmax Hm Hb.
  { exists m. split_and!; [done|done|]. split_and!; [done| |done]. intros va Hva. rewrite decide_False by (simpl; lia). done. }
  cbn [length] in *. apply Forall_cons in Hb as [Hb1 Hb2].
  destruct (copy_out_run heap root m fl pos (addr + i) [b]) as (m1 & E1 & Sp1 & St1);
    [done|lia|simpl; lia|simpl; lia|intros va Hva; apply Hm; simpl in Hva; lia|by constructor|].
  destruct (IH m1 fl pos (i + 1)) as (m2 & E2 & Sp2 & St2); [done|done|lia|lia| |done|].
  { intros va Hva. rewrite (user_page_same root m m1) by (apply St1; lia). apply Hm. lia. }
  exists m2. cbn [scatter]. rewrite bind_uadd by layout_lia. mstep E1. split_and!; [exact E2|done|].
  change (b :: bs) with ([b] ++ bs). eapply stored_app; [exact St1|]. simpl. by rewrite <- Z.add_assoc.
Qed.
End buffer.

(** ** The calls *)
Section ipc.
Context {D S : Type} {BD : BlockDev D} (dv : Z) {BC : BufferCache D S dv} {BF : BitField}.
Context (pipe_chan : Z → Pipe.chan → Z) (con_chan uart_chan : Z) (panicked : bool) (lsr : nat → bool).
Implicit Types (k : kst (filest S)) (q bs : list Z).

(** Process [i] asks with these three arguments; its descriptor [fd] is the
    open file [f]. *)
Record caller k (i : nat) (root fd addr len : Z) (f : VFile) : Prop := {
  ca_proc : ∃ p ws a n, procs k !! i = Some p ∧ pagetable (Proc.data p) = Some root ∧ killed (meta p) = false ∧
    trapframe (Proc.data p) mod PGSIZE = 0 ∧ ram (kmem k) !! trapframe (Proc.data p) = Some ws ∧
    ws !! 14%nat = Some fd ∧ ws !! 15%nat = Some addr ∧ ws !! 16%nat = Some len ∧
    open_files (Proc.data p) !! Z.to_nat fd = Some (Some a) ∧ f_arcs (kfs k) !! a = Some (n, f)
}.

Lemma arg_run k i p ws (n v : Z) :
  procs k !! i = Some p → trapframe (Proc.data p) mod PGSIZE = 0 → ram (kmem k) !! trapframe (Proc.data p) = Some ws →
  0 ≤ n ≤ 5 → ws !! Z.to_nat (14 + n) = Some v → arg i n k = Done (v, k).
Proof.
  intros Hp Hal Hws Hn Hv. unfold arg. mstep (data_at_run k i p Hp). rewrite (proj2 (Z.ltb_ge _ _)) by lia.
  unfold on_mem, zoom. replace (trapframe (Proc.data p) + TF_AX + n * 8) with (trapframe (Proc.data p) + (14 + n) * 8)
    by (unfold TF_AX; lia).
  rewrite (read_word_run (kmem k) _ ws (14 + n) v) by (done || lia). by destruct k.
Qed.

(** A call on a pipe changes the pipe, memory and who sleeps on its channel. *)
Definition pipe_post k (pg : Z) (p : PipeInner) (m : mem) (c : Pipe.chan) : kst (filest S) :=
  set_procs (wake_proc (pipe_chan pg c) <$> procs k)
    (set_kfs (mkFilest (f_fs (kfs k)) (<[pg := p]> (f_pipes (kfs k))) (f_arcs (kfs k)) (f_tty (kfs k)) (f_devs (kfs k)))
      (set_kmem m k)).
Lemma on_pipe_run {A} k i pg p p' m c (op : M pst A) a :
  f_pipes (kfs k) !! pg = Some p → readopen p' || writeopen p' = true →
  op (pipe_view (Some i) pg p k) = Done (a, mkPst p' pg m [c] (killed_of (Some i) k)) →
  on_pipe pipe_chan (Some i) pg op k = Done (a, pipe_post k pg p' m c).
Proof.
  intros Hp Ho E. unfold on_pipe. rewrite bind_get, Hp, E. unfold store_pipe. rewrite bind_assoc, bind_get. cbn [inner page pmem wakes].
  rewrite <- negb_orb, Ho. cbn [negb]. done.
Qed.
Lemma killed_of_run k i p : procs k !! i = Some p → killed_of (Some i) k = killed (meta p).
Proof. intros E. unfold killed_of. cbn [mbind option_bind]. by rewrite E. Qed.
Lemma user_pgt_run k i p root : procs k !! i = Some p → pagetable (Proc.data p) = Some root → user_pgt i k = Done (root, k).
Proof. intros Hp Hr. unfold user_pgt. mstep (data_at_run k i p Hp). by rewrite Hr. Qed.

Lemma sys_write_pipe k i heap fl pos root fd addr pg p q bs :
  caller k i root fd addr (Z.of_nat (length bs)) (pipe_end pg true) →
  f_pipes (kfs k) !! pg = Some p → pipe_rep p q → readopen p = true →
  nwrite p + Z.of_nat (length bs) + PIPESIZE < 2 ^ 64 → Z.of_nat (length q) + Z.of_nat (length bs) ≤ PIPESIZE →
  space heap root (kmem k) fl pos → 0 ≤ addr → addr + Z.of_nat (length bs) ≤ MAXVA → UserCopy.holds root (kmem k) addr bs →
  ∃ p', sys_write dv pipe_chan con_chan uart_chan panicked lsr i k =
      Done (Ends (Some (Z.of_nat (length bs))), pipe_post k pg p' (kmem k) ChRead) ∧
    pipe_rep p' (q ++ bs) ∧ readopen p' = true ∧ nread p' = nread p.
Proof.
  intros [(pr & ws & a & n & Hpr & Hpt & Hkd & Hal & Hws & W0 & W1 & W2 & Hfd & Ha)] Hp R Ho Hb Hroom Sp H0 Hmax Hh.
  destruct (pipe_write_run root addr (Z.of_nat (length bs)) (Datatypes.S (Z.to_nat (Z.of_nat (length bs) - 0)))
    (pipe_view (Some i) pg p k) q 0 bs (kmem k)) as (p' & E & R' & O1 & O2 & O3);
    [done|lia|by left|cbn [pipe_view inner]; lia|lia| |].
  { cbn [pipe_view pmem]. rewrite Z.sub_0_r, Z.min_l, Nat2Z.id by lia. apply (gather_run heap root (kmem k) fl pos);
      [done|done|lia|lia|by rewrite Z.add_0_r]. }
  exists p'. split_and!; [|done|by rewrite O1|by rewrite O3]. unfold sys_write.
  mstep (arg_run k i pr ws 0 fd Hpr Hal Hws ltac:(lia) W0). unfold file_at.
  rewrite (bind_run _ _ _ a k); [|by mstep (data_at_run k i pr Hpr); rewrite Hfd].
  mstep (arg_run k i pr ws 1 addr Hpr Hal Hws ltac:(lia) W1). mstep (arg_run k i pr ws 2 _ Hpr Hal Hws ltac:(lia) W2).
  unfold vfile_write, arc_get. rewrite !bind_assoc, bind_get, Ha, bind_ret_l. cbn [pipe_end writeable negb ftype vpipe unwrap].
  rewrite bind_assoc, bind_ret_l, bind_assoc. mstep (user_pgt_run k i pr root Hpr Hpt). rewrite bind_assoc.
  erewrite bind_run; [|eapply (on_pipe_run k i pg p p' (kmem k) ChRead); [done|by rewrite O1; cbn; rewrite Ho|exact E]].
  rewrite Z.sub_0_r, Z.min_l, Z.add_0_l, Z.eqb_refl by lia. done.
Qed.
Lemma sys_read_pipe k i heap fl pos root fd addr len pg p q :
  let n := Z.min len (Z.of_nat (length q)) in
  caller k i root fd addr len (pipe_end pg false) →
  f_pipes (kfs k) !! pg = Some p → pipe_rep p q → q ≠ [] → readopen p = true → nwrite p + 1 < 2 ^ 64 → 0 ≤ len →
  space heap root (kmem k) fl pos → 0 ≤ addr → addr + n ≤ MAXVA → mapped root (kmem k) addr n → Forall (in_u 8) q →
  ∃ p' m', sys_read dv pipe_chan con_chan uart_chan i k = Done (Ends (Some n), pipe_post k pg p' m' ChWrite) ∧
    pipe_rep p' (drop (Z.to_nat n) q) ∧ space heap root m' fl pos ∧ stored root (kmem k) addr (take (Z.to_nat n) q) m'.
Proof.
  intros n [(pr & ws & a & c & Hpr & Hpt & Hkd & Hal & Hws & W0 & W1 & W2 & Hfd & Ha)] Hp R Hq Ho Hb Hlen Sp H0 Hmax Hm Hq8.
  assert (length (take (Z.to_nat n) q) = Z.to_nat n) as Ht by (rewrite length_take; lia).
  destruct (scatter_run heap root addr (take (Z.to_nat n) q) (kmem k) fl pos 0) as (m' & Es & Sp' & St);
    [done|done|lia|rewrite Ht; lia|by rewrite Z.add_0_r, Ht, Z2Nat.id by lia|by apply Forall_take|]. rewrite Z.add_0_r in St.
  destruct (pipe_read_run root addr len (Datatypes.S (Z.to_nat len)) (pipe_view (Some i) pg p k) q 0 m') as (p' & E & R' & O1 & O2);
    [done|lia|done|lia|by rewrite Z.sub_0_r|]. rewrite Z.sub_0_r, Z.add_0_l in *.
  exists p', m'. split_and!; [|done|done|done]. unfold sys_read.
  mstep (arg_run k i pr ws 0 fd Hpr Hal Hws ltac:(lia) W0). unfold file_at.
  rewrite (bind_run _ _ _ a k); [|by mstep (data_at_run k i pr Hpr); rewrite Hfd].
  mstep (arg_run k i pr ws 1 addr Hpr Hal Hws ltac:(lia) W1). mstep (arg_run k i pr ws 2 _ Hpr Hal Hws ltac:(lia) W2).
  unfold vfile_read, arc_get. rewrite !bind_assoc, bind_get, Ha, bind_ret_l. cbn [pipe_end readable negb ftype vpipe unwrap].
  rewrite bind_assoc, bind_ret_l, bind_assoc. mstep (user_pgt_run k i pr root Hpr Hpt). rewrite bind_assoc.
  erewrite bind_run; [|eapply (on_pipe_run k i pg p p' m' ChWrite); [done|rewrite O1; cbn; by rewrite Ho|]].
  2:{ unfold Pipe.read. rewrite bind_get. cbn [pipe_view inner]. rewrite (empty_rep _ _ R), bool_decide_eq_false_2 by done. cbn [andb].
      mstep E. done. }
  done.
Qed.
(** Waking others changes nothing a call sees. *)
Lemma caller_post k i root fd addr len f pg p c :
  caller k i root fd addr len f → caller (pipe_post k pg p (kmem k) c) i root fd addr len f.
Proof.
  intros [(pr & ws & a & n & Hpr & Hpt & Hkd & H)]. split. exists (wake_proc (pipe_chan pg c) pr), ws, a, n.
  assert (Proc.data (wake_proc (pipe_chan pg c) pr) = Proc.data pr ∧ killed (meta (wake_proc (pipe_chan pg c) pr)) = killed (meta pr))
    as [Ed Ek] by (unfold wake_proc; by destruct (_ && _)).
  rewrite Ed, Ek. split_and!; [|done|done|apply H..]. cbn. by rewrite list_lookup_fmap, Hpr.
Qed.
Lemma holds_range heap root m fl pos a bs :
  space heap root m fl pos → 0 ≤ a → a + Z.of_nat (length bs) ≤ MAXVA → UserCopy.holds root m a bs → Forall (in_u 8) bs.
Proof.
  intros Sp H0 Hmax Hh. apply Forall_lookup. intros i b Hi. pose proof (lookup_lt_Some _ _ _ Hi) as Hl.
  specialize (Hh i b Hi). unfold user_byte in Hh. destruct (user_page m root _) as [pa|] eqn:Ep; [|done].
  destruct (space_page heap root m fl pos (a + Z.of_nat i) pa Sp ltac:(lia) Ep) as (ws & Hws & Hok & _ & _).
  cbn [mbind option_bind] in Hh. unfold byte_in in Hh. rewrite Hws in Hh. cbn [mbind option_bind] in Hh.
  pose proof (page_bytes_range ws Hok) as Hr. rewrite Forall_lookup in Hr. by eapply Hr.
Qed.

(** C15. Bytes go from process to process. Process [w] has the bytes [bs] in its
    memory and calls [sys_write] on the write end of a pipe that holds [q] and
    has room; then process [r] calls [sys_read] for up to [len] bytes on the
    read end. Neither panics or sleeps; the first returns the length of [bs],
    and every process asleep for bytes of the pipe is runnable; the second
    returns the number [n] of bytes there are, at most [len]. The reader's
    memory then has the first [n] bytes of [q ++ bs] at its buffer and is
    otherwise unchanged, no page it cannot reach changed, and the pipe holds
    the rest. *)
Theorem pipe_ipc k w r heap fl posw posr rootw rootr fdw fdr addrw addrr len pg p q bs :
  let n := Z.min len (Z.of_nat (length (q ++ bs))) in
  caller k w rootw fdw addrw (Z.of_nat (length bs)) (pipe_end pg true) →
  caller k r rootr fdr addrr len (pipe_end pg false) →
  f_pipes (kfs k) !! pg = Some p → pipe_rep p q → readopen p = true → Forall (in_u 8) q → q ++ bs ≠ [] →
  nread p + 2 * PIPESIZE < 2 ^ 64 → Z.of_nat (length (q ++ bs)) ≤ PIPESIZE →
  space heap rootw (kmem k) fl posw → 0 ≤ addrw → addrw + Z.of_nat (length bs) ≤ MAXVA → UserCopy.holds rootw (kmem k) addrw bs →
  space heap rootr (kmem k) fl posr → 0 ≤ addrr → 0 ≤ len → addrr + n ≤ MAXVA → mapped rootr (kmem k) addrr n →
  ∃ k1 k2 p2, sys_write dv pipe_chan con_chan uart_chan panicked lsr w k = Done (Ends (Some (Z.of_nat (length bs))), k1) ∧
    sys_read dv pipe_chan con_chan uart_chan r k1 = Done (Ends (Some n), k2) ∧
    (∀ i x, procs k !! i = Some x → state (meta x) = Sleeping → Proc.chan (meta x) = pipe_chan pg ChRead →
       ∃ y, procs k1 !! i = Some y ∧ state (meta y) = Runnable) ∧
    (∀ va, 0 ≤ va ≤ MAXVA → user_byte (kmem k2) rootr va =
       if decide (addrr ≤ va < addrr + n) then (q ++ bs) !! Z.to_nat (va - addrr) else user_byte (kmem k) rootr va) ∧
    (∀ x, unmapped rootr (kmem k) x → ram (kmem k2) !! x = ram (kmem k) !! x) ∧
    f_pipes (kfs k2) !! pg = Some p2 ∧ pipe_rep p2 (drop (Z.to_nat n) (q ++ bs)).
Proof.
  intros n Cw Cr Hp R Ho Hq8 Hne Hb Hroom Spw Hw0 Hwm Hh Spr Hr0 Hlen Hrm Hmap.
  rewrite length_app in Hroom. pose proof (pr_count _ _ R) as Hc.
  destruct (sys_write_pipe k w heap fl posw rootw fdw addrw pg p q bs) as (p1 & E1 & R1 & O1 & N1);
    [done..|unfold PIPESIZE in *; lia|lia|done|done|done|done|].
  set (k1 := pipe_post k pg p1 (kmem k) ChRead) in *. pose proof (pr_count _ _ R1) as Hc1. rewrite length_app in Hc1.
  pose proof (holds_range heap rootw (kmem k) fl posw addrw bs Spw Hw0 Hwm Hh) as Hbs8.
  destruct (sys_read_pipe k1 r heap fl posr rootr fdr addrr len pg p1 (q ++ bs)) as (p2 & m2 & E2 & R2 & Sp2 & St2);
    [by apply caller_post|apply lookup_insert_eq|done|done|done|unfold PIPESIZE in *; lia|done|done|done|done|done
    |by apply Forall_app|].
  exists k1, (pipe_post k1 pg p2 m2 ChWrite), p2.
  assert (Z.of_nat (length (take (Z.to_nat n) (q ++ bs))) = n) as Ht by (rewrite length_take; lia).
  destruct St2 as (_ & Hby & Hun). fold n in Hby. rewrite Ht in Hby.
  split_and!; [exact E1|exact E2| | |exact Hun|apply lookup_insert_eq|exact R2].
  - intros i x Hx Hs Hch. exists (wake_proc (pipe_chan pg ChRead) x). cbn. rewrite list_lookup_fmap, Hx. split; [done|].
    unfold wake_proc. rewrite bool_decide_eq_true_2, Hch, Z.eqb_refl by done. done.
  - intros va Hva. etransitivity; [exact (Hby va Hva)|]. case_decide; [|done]. apply lookup_take_lt. lia.
Qed.
End ipc.

(** ** Two processes that share an address space *)
#[local] Instance bci : BufferCache tdev (bcache tdev) 1 := bcache_BufferCache 1.
#[local] Instance bitsi : BitField := {|
  get_bit := Z.testbit; set_bit w n v := if (v : bool) then Z.setbit w n else Z.clearbit w n |}.
Definition empty_pipe : PipeInner := mkPipe (replicate 512 0) 0 0 true true.
(** A trapframe with three arguments, and a process with a descriptor. *)
Definition args_page (fd addr len : Z) : list Z := <[14%nat := fd]> (<[15%nat := addr]> (<[16%nat := len]> zero_page)).
Definition ipc_proc (i : nat) (root tf fd a : Z) : Process :=
  let d := ProcData.set_trapframe (ProcData.set_pagetable (ProcData.new i) (Some root)) tf in
  mkProcess (mkMeta Running 0 false 0 (Z.of_nat i))
    (ProcData.set_files d (<[Z.to_nat fd := Some a]> (open_files d)) None).
Definition ipc_kst (root tf0 tf1 : Z) (m : mem) : kst (filest (bcache tdev)) :=
  mkKst (mkMach [] ∅) m [ipc_proc 0 root tf0 4 100; ipc_proc 1 root tf1 3 200] 2 None [] [] 0
    (mkFilest fs1 {[7 := empty_pipe]} {[100 := (1, pipe_end 7 true); 200 := (1, pipe_end 7 false)]}
      (mkTty Uart.new Console.new [] [] 0 0 0 m None false) uninit).
Lemma args_page_ok fd addr len : in_u 64 fd → in_u 64 addr → in_u 64 len → page_ok (args_page fd addr len).
Proof. intros. unfold args_page. repeat apply page_ok_insert; auto using page_ok_zero. Qed.
(** Memory with the bytes, their buffer and two trapframes. *)
Lemma ipc_memory bs :
  Forall (in_u 8) bs → (0 < length bs < 100)%nat →
  ∃ heap root m fl pos tf0 tf1, space heap root m fl pos ∧ UserCopy.holds root m 16 bs ∧ mapped root m 0 4096 ∧
    tf0 mod PGSIZE = 0 ∧ tf1 mod PGSIZE = 0 ∧
    ram m !! tf0 = Some (args_page 4 16 (Z.of_nat (length bs))) ∧ ram m !! tf1 = Some (args_page 3 2048 512).
Proof.
  intros Hb Hl. destruct (grown_space 0 1 5) as (m0 & fl0 & root & pos & Sp0 & Hfl & Hm & _); [lia|done|done|layout_lia|].
  change (Z.of_nat 1 * PGSIZE) with 4096 in Hm.
  set (heap := heap_of _) in *.
  destruct (copy_out_run heap root m0 fl0 pos 16 bs) as (m1 & _ & Sp1 & St1);
    [done|done|lia|layout_lia|intros va Hva; apply Hm; lia|done|].
  pose proof (stored_holds root m0 16 bs m1 ltac:(lia) ltac:(layout_lia) St1) as Hh1.
  destruct fl0 as [|z0 [|z1 fl]]; [simpl in Hfl; lia..|].
  assert (page_ok (args_page 4 16 (Z.of_nat (length bs)))) as Hok0 by (apply args_page_ok; unfold in_u; lia).
  assert (page_ok (args_page 3 2048 512)) as Hok1 by (by apply args_page_ok).
  destruct (kernel_page heap root m1 z0 (z1 :: fl) pos _ Sp1 Hok0) as (Sp2 & Un2 & R2 & P2).
  set (m2 := alloc_post m1 z0 _ _) in *.
  destruct (kernel_page heap root m2 z1 fl pos _ Sp2 Hok1) as (Sp3 & Un3 & R3 & P3). set (m3 := alloc_post m2 z1 _ _) in *.
  pose proof (sp_kinv _ _ _ _ _ Sp1) as K1. pose proof (ki_nodup _ _ _ K1) as Hnd.
  assert (z0 ≠ z1) as Hne by (intros ->; apply NoDup_cons in Hnd as [Hn _]; apply Hn; left).
  exists heap, root, m3, fl, pos, z0, z1. split_and!; [done| | | | | |done].
  - intros i b Hi. specialize (Hh1 i b Hi). pose proof (lookup_lt_Some _ _ _ Hi).
    unfold user_byte in *. rewrite (user_page_same root m2 m3), (user_page_same root m1 m2) by (apply P3 || apply P2; layout_lia).
    destruct (user_page m1 root (16 + Z.of_nat i)) as [pa|] eqn:Ep; [|done]. cbn [mbind option_bind] in *. unfold byte_in in *.
    destruct (space_page heap root m1 (z0 :: z1 :: fl) pos (16 + Z.of_nat i) pa Sp1 ltac:(layout_lia) Ep) as (ws & Hws & _ & Hnf & _).
    unfold m3, m2. cbn [alloc_post ram]. rewrite !lookup_insert_ne; [done| |]; intros ->; apply Hnf; [left|right; left].
  - intros va Hva. rewrite (user_page_same root m2 m3), (user_page_same root m1 m2), (user_page_same root m0 m1)
      by (apply P3 || apply P2 || apply St1; layout_lia). by apply Hm.
  - apply (kinv_free_page _ _ _ z0 K1). left.
  - apply (kinv_free_page _ _ _ z1 K1). right. left.
  - unfold m3. cbn [alloc_post ram]. by rewrite lookup_insert_ne.
Qed.
Lemma pipe_ipc_witness :
  ∃ root m tf0 tf1 k1 k2, sys_write 1 pchant 1 2 false (λ _, true) 0 (ipc_kst root tf0 tf1 m) = Done (Ends (Some 2), k1) ∧
    sys_read 1 pchant 1 2 1 k1 = Done (Ends (Some 2), k2) ∧
    user_byte (kmem k2) root 2048 = Some 104 ∧ user_byte (kmem k2) root 2049 = Some 105.
Proof.
  destruct (ipc_memory [104; 105]) as (heap & root & m & fl & pos & tf0 & tf1 & Sp & Hh & Hm & A0 & A1 & R0 & R1);
    [repeat constructor; done|simpl; lia|].
  destruct (pipe_ipc 1 pchant 1 2 false (λ _, true) (ipc_kst root tf0 tf1 m) 0 1 heap fl pos pos root root 4 3 16 2048 512 7 empty_pipe
    [] [104; 105]) as (k1 & k2 & p2 & E1 & E2 & _ & Hb & _).
  - split. by exists (ipc_proc 0 root tf0 4 100), (args_page 4 16 2), 100, 1.
  - split. by exists (ipc_proc 1 root tf1 3 200), (args_page 3 2048 512), 200, 1.
  - reflexivity.
  - by split.
  - reflexivity.
  - constructor.
  - done.
  - done.
  - done.
  - exact Sp.
  - done.
  - by vm_compute.
  - exact Hh.
  - exact Sp.
  - done.
  - done.
  - by vm_compute.
  - intros va Hva. apply Hm. simpl in Hva. lia.
  - exists root, m, tf0, tf1, k1, k2. split_and!; [exact E1|exact E2|by rewrite (Hb 2048)|by rewrite (Hb 2049)].
Defined.
