(* ===== verification/Durable.v ===== *)
(** * A write that returns is on the disk

    [sys_write] on a file: system call arguments, descriptors, open files, the
    copy from user memory, the inode, the log and the buffer cache together.
    When the call returns, the bytes of the caller's buffer are in the blocks
    of the file on the device, and the size in its inode there. *)
From S2P Require Import FsFile.
From S2P Require Import Prelude.
From S2P Require Import Layout.
From S2P Require Import Kalloc.
From S2P Require Import PageTable.
From S2P Require Import PageTableFacts.
From S2P Require Import UserSpace.
From S2P Require Import UserCopy.
From S2P Require Import Bcache.
From S2P Require Import BcacheFacts.
From S2P Require Import Log.
From S2P Require Import LogFacts.
From S2P Require Import LogSpec.
From S2P Require Import Fs.
From S2P Require Import FsFacts.
From S2P Require Import FsBitmap.
From S2P Require Import Icache.
From S2P Require Import Console.
From S2P Require Import Spin.
From S2P Require Import Proc.
From S2P Require Import Pres.
From S2P Require Import File.
From S2P Require Import SysFile.
From S2P Require Import FileFacts.
From S2P Require Import TrapSafe.
From S2P Require Import Ipc.

(** ** What a write to a file leaves alone *)
Section frame.
Context {D S : Type} {BD : BlockDev D} (dv : Z) {BC : BufferCache D S dv} {BF : BitField}.

(** The parameters and the counters of the log. *)
Definition log_fixed (l l' : logst S) : Prop :=
  start (lg l') = start (lg l) ∧ size_ (lg l') = size_ (lg l) ∧
  outstanding (lg l') = outstanding (lg l) ∧ commiting (lg l') = commiting (lg l).
#[global] Instance log_fixed_pre : PreOrder log_fixed.
Proof.
  split; [by intros l|]. intros x y z (A1 & A2 & A3 & A4) (B1 & B2 & B3 & B4).
  split_and!; congruence.
Qed.

(** Everything but the log, the cache and slot [i] of the inode table. *)
Record fixed (i : nat) (s s' : fsst S) : Prop := {
  fx_log : log_fixed (fl s) (fl s');
  fx_rest : super s' = super s ∧ sb_ready s' = sb_ready s ∧ imetas s' = imetas s ∧
    umem s' = umem s ∧ cur_pgt s' = cur_pgt s ∧ cur_cwd s' = cur_cwd s;
  fx_slots j : j ≠ i → idatas s' !! j = idatas s !! j
}.
#[global] Instance fixed_pre i : PreOrder (fixed i).
Proof.
  split; [by intros s|]. intros x y z [A1 A2 A3] [B1 B2 B3]. split.
  - by transitivity (fl y).
  - destruct A2 as (? & ? & ? & ? & ? & ?), B2 as (? & ? & ? & ? & ? & ?). split_and!; congruence.
  - intros j Hj. by rewrite B3, A3.
Qed.

Lemma cache_fixed {A} (m : M S A) : pres log_fixed (Log.cache m).
Proof. apply (pres_zoom (λ _ _, True)); [done|]. by intros t s' _. Qed.
Lemma upd_lh_fixed f :
  (∀ g, start (f g) = start g ∧ size_ (f g) = size_ g ∧ outstanding (f g) = outstanding g ∧
    commiting (f g) = commiting g) → pres log_fixed (Log.upd f).
Proof. intros Hf. apply pres_modify. intros s. apply Hf. Qed.
Hint Resolve cache_fixed : pres.
Lemma log_write_fixed buf : pres log_fixed (Log.write dv buf).
Proof. unfold Log.write. pres. by apply upd_lh_fixed. Qed.

Lemma on_log_fixed {A} i (m : M (logst S) A) : pres log_fixed m → pres (fixed i) (Fs.on_log m).
Proof. intros Hm. apply (pres_zoom log_fixed); [done|]. intros t s' H. by split. Qed.
Lemma put_idata_fixed i x : pres (fixed i) (put_idata i x).
Proof.
  apply pres_modify. intros s. split; [reflexivity|done|]. intros j Hj. by apply list_lookup_insert_ne.
Qed.
Lemma idata_at_fixed i j : pres (fixed i) (idata_at j).
Proof. unfold idata_at. pres. Qed.
Hint Resolve put_idata_fixed idata_at_fixed : pres.
Lemma put_dinode_fixed i x : pres (fixed i) (put_dinode i x).
Proof. unfold put_dinode. pres. Qed.
Lemma bread_fixed i dev b : pres (fixed i) (bread dv dev b).
Proof. apply on_log_fixed. pres. Qed.
Lemma bdata_fixed i b : pres (fixed i) (bdata dv b).
Proof. apply on_log_fixed. pres. Qed.
Lemma bset_fixed i b x : pres (fixed i) (bset dv b x).
Proof. apply on_log_fixed. pres. Qed.
Lemma bdrop_fixed i b : pres (fixed i) (bdrop dv b).
Proof. apply on_log_fixed. pres. Qed.
Lemma fs_log_write_fixed i b : pres (fixed i) (log_write dv b).
Proof. apply on_log_fixed, log_write_fixed. Qed.
Hint Resolve put_dinode_fixed bread_fixed bdata_fixed bset_fixed bdrop_fixed fs_log_write_fixed : pres.
Lemma bitmap_alloc_fixed i dev : pres (fixed i) (bitmap_alloc dv dev).
Proof.
  unfold bitmap_alloc, sb_total. pres. match goal with |- pres _ (bitmap_alloc_loop _ _ ?l) =>
    induction l as [|b bs IH] end; cbn [bitmap_alloc_loop]; unfold locate_bmp, sb_total; pres.
Qed.
Lemma find_inode_fixed i dev inum : pres (fixed i) (find_inode dv dev inum).
Proof. unfold find_inode, locate_inode. pres. Qed.
Lemma set_inode_fixed i b off d : pres (fixed i) (set_inode dv b off d).
Proof. unfold set_inode. pres. Qed.
Hint Resolve bitmap_alloc_fixed find_inode_fixed set_inode_fixed : pres.
Lemma update_fixed i : pres (fixed i) (update dv i).
Proof. unfold update. pres. Qed.
Lemma map_fixed i n : pres (fixed i) (Fs.map dv i n).
Proof. unfold Fs.map. pres. Qed.
Hint Resolve update_fixed map_fixed : pres.
Lemma iwrite_fixed i ks src off n : pres (fixed i) (iwrite dv i Fs.Kernel ks src off n).
Proof.
  assert (∀ fuel src off c, pres (fixed i) (Fs.write_loop dv fuel i Fs.Kernel ks src off c n)) as Hl.
  { induction fuel as [|fuel IH]; intros; cbn [Fs.write_loop copy_to_kernel]; pres. }
  unfold iwrite. pres.
Qed.
End frame.

(** ** Bytes from user memory

    A write from a user buffer is the write from a kernel buffer with the
    same bytes. *)
Lemma bind_agree {S A B} (m : M S A) (k k' : A → M S B) s :
  (∀ a s', m s = Done (a, s') → k a s' = k' a s') → (m ≫= k) s = (m ≫= k') s.
Proof. intros H. unfold mbind, M_bind. destruct (m s) as [[a s']| | |]; [by apply H|done..]. Qed.

Section user.
Context {D S : Type} {BD : BlockDev D} (dv : Z) {BC : BufferCache D S dv} {BF : BitField}.
Context (heap root : Z) (m : mem) (fl : list Z) (pos : gmap Z (nat * Z)) (addr : Z) (bs : list Z).
Context (Sp : space heap root m fl pos) (H0 : 0 ≤ addr).
Context (Hmax : addr + Z.of_nat (length bs) ≤ MAXVA) (Hh : UserCopy.holds root m addr bs).

Lemma holds_slice x n :
  0 ≤ x → 0 ≤ n → x + n ≤ Z.of_nat (length bs) →
  UserCopy.holds root m (addr + x) (slice bs x n) ∧ length (slice bs x n) = Z.to_nat n.
Proof.
  intros Hx Hn Hl. unfold slice. split; [|rewrite length_take, length_drop; lia].
  intros j b [Hj _]%lookup_take_Some. rewrite lookup_drop in Hj. specialize (Hh _ _ Hj).
  rewrite <- Hh. f_equal. lia.
Qed.

Lemma copy_to_kernel_user (s : fsst S) x n :
  umem s = m → cur_pgt s = Some root → 0 ≤ x → 0 < n → x + n ≤ Z.of_nat (length bs) →
  copy_to_kernel Fs.User [] (addr + x) n s = Done (slice bs x n, s).
Proof.
  intros Hm Hp Hx Hn Hl. destruct (holds_slice x n) as [Hs Hln]; [lia..|].
  pose proof (copy_in_run heap root m fl pos (addr + x) (slice bs x n) Sp) as E.
  rewrite Hln, Z2Nat.id in E by lia.
  unfold copy_to_kernel. rewrite bind_get, Hp, bind_unwrap. unfold on_umem, zoom. rewrite Hm.
  rewrite E; [|lia|lia|lia|done]. subst m. by destruct s.
Qed.

Lemma write_loop_user i count fuel : ∀ (s : fsst S) x off total,
  umem s = m → cur_pgt s = Some root → 0 ≤ x → x + (count - total) ≤ Z.of_nat (length bs) →
  Fs.write_loop dv fuel i Fs.User [] (addr + x) off total count s
    = Fs.write_loop dv fuel i Fs.Kernel bs x off total count s.
Proof.
  induction fuel as [|fuel IH]; intros s x off total Hm Hp Hx Hl; [done|].
  cbn [Fs.write_loop]. destruct (Z.leb_spec count total) as [|Hlt]; [done|].
  pose proof (Z.mod_pos_bound off BSIZE BSIZE_pos) as Hmod.
  set (n := Z.min (count - total) (BSIZE - off mod BSIZE)).
  assert (0 < n ≤ count - total) as Hn by lia.
  assert (∀ s', fixed i s s' → umem s' = m ∧ cur_pgt s' = Some root) as Hk.
  { intros s' [_ (_ & _ & _ & A & B & _) _]. by rewrite A, B. }
  apply bind_agree. intros d s1 E1. pose proof (idata_at_fixed i i _ _ _ E1) as F1.
  apply bind_agree. intros b s2 E2. pose proof (map_fixed dv i _ _ _ _ E2) as F2.
  apply bind_agree. intros buf s3 E3. pose proof (bread_fixed dv i _ _ _ _ _ E3) as F3.
  assert (fixed i s s3) as F.
  { etransitivity; [exact F1|]. etransitivity; [exact F2|exact F3]. }
  destruct (Hk s3 F) as [Hm3 Hp3].
  rewrite (bind_run _ _ _ _ _ (copy_to_kernel_user s3 x n Hm3 Hp3 Hx ltac:(lia) ltac:(lia))).
  cbn [copy_to_kernel]. rewrite bind_ret_l.
  apply bind_agree. intros y s4 E4. pose proof (bdata_fixed dv i _ _ _ _ E4) as F4.
  apply bind_agree. intros [] s5 E5. pose proof (bset_fixed dv i _ _ _ _ _ E5) as F5.
  apply bind_agree. intros [] s6 E6. pose proof (fs_log_write_fixed dv i _ _ _ _ E6) as F6.
  destruct (Hk s6) as [Hm6 Hp6].
  { etransitivity; [exact F|]. etransitivity; [exact F4|]. etransitivity; [exact F5|exact F6]. }
  rewrite <- Z.add_assoc. apply IH; [done|done|lia|lia].
Qed.

Lemma iwrite_user i (s : fsst S) x off count :
  umem s = m → cur_pgt s = Some root → 0 ≤ x → x + count ≤ Z.of_nat (length bs) →
  iwrite dv i Fs.User [] (addr + x) off count s = iwrite dv i Fs.Kernel bs x off count s.
Proof.
  intros Hm Hp Hx Hl. unfold iwrite, mbind at 1 6, M_bind.
  by rewrite write_loop_user by (done || lia).
Qed.
End user.

(** ** A transaction of its own *)
Section txn.
Context {D S : Type} {BD : BlockDev D} {BL : BlockDevLaws D} (dv : Z) {BC : BufferCache D S dv}.
Context {BF : BitField}.
Implicit Types (s : fsst S) (a : acache D) (k : D).

(** Nothing is going on: no operation is open, nothing is logged, no block is
    in use. [k] is the disk. *)
Record idle s k : Prop := {
  il_rep : bc_rep (bc (fl s)) (mkAcache ∅ k);
  il_inv : log_inv dv (log_of s) (mkAcache ∅ k);
  il_out : outstanding (log_of s) = 0;
  il_com : commiting (log_of s) = false;
  il_size : 7 < size_ (log_of s);
  il_log : homes (lh (log_of s)) = []
}.

Lemma idle_len s k : idle s k → len (lh (log_of s)) = 0.
Proof.
  intros [_ I _ _ _ Hh]. pose proof (length_homes _ (la_ok _ _ _ _ (li_area _ _ _ I))) as Hl.
  by rewrite Hh in Hl.
Qed.

Lemma begin_run s k :
  idle s k →
  let g' := Log.set_outstanding (log_of s) 1 in
  Log.begin_op (fl s) = Done (tt, mkLogst g' (bc (fl s))) ∧
  txn dv (with_fl (mkLogst g' (bc (fl s))) s) (mkAcache ∅ k).
Proof.
  intros I g'. pose proof (idle_len s k I) as Hl. destruct I as [R I Ho Hc Hs Hh]. split.
  - unfold Log.begin_op. rewrite bind_gets. unfold Log.admitted. fold (log_of s).
    rewrite Hc, Hl, Ho. change (LOGSIZE <? 1 + 0 + (0 + 1) * MAXOPBLOCKS) with false. cbn [orb negb].
    by rewrite bind_uadd.
  - split; [exact R| |cbn; lia|].
    + destruct I as [[A1 A2 A3 A4] B1 B2 B3 B4]. by split; [split|..].
    + intros b ab Hb. cbn in Hb. by rewrite lookup_empty in Hb.
Qed.

(** The device after writes of whole blocks. *)
Lemma write_all_ok k ws b :
  Forall (λ w, block_ok w.2) ws → (b ∉ ws.*1 → block_ok (Bcache.dev_read k b)) →
  block_ok (Bcache.dev_read (write_all k ws) b).
Proof.
  revert k. induction ws as [|[b' x] ws IH]; intros k Hw Hk; [apply Hk; apply not_elem_of_nil|].
  apply Forall_cons in Hw as [Hx Hw]. cbn [write_all foldl]. apply IH; [done|]. intros Hb.
  rewrite dev_read_write. case_decide as E; [done|]. apply Hk. cbn. rewrite not_elem_of_cons. auto.
Qed.

Lemma put_header_ok h x : header_ok h → block_ok x → block_ok (put_header h x).
Proof.
  intros (Hl & Hn & Hb) [Hx1 Hx2]. unfold put_header, header_bytes.
  assert (length (blocknos h ≫= le_bytes 4) = 4 * length (blocknos h))%nat as Hlen.
  { clear. induction (blocknos h) as [|w ws IH]; [done|].
    cbn [mbind list_bind length]. rewrite length_app, length_le_bytes, IH. lia. }
  split.
  - rewrite !length_app, length_le_bytes, Hlen, Hn, length_drop, Hx1. by vm_compute.
  - rewrite !Forall_app. split_and!; [apply le_bytes_range, Hl| |by apply Forall_drop].
    apply Forall_bind, (Forall_impl _ _ _ Hb). intros w Hw. apply le_bytes_range, Hw.
Qed.

Lemma commit_writes_ok g a old :
  header_ok (lh g) → blocks_ok a → block_ok old →
  Forall (λ w, block_ok w.2) (commit_writes g (a_view a) old).
Proof.
  intros Hh Ha Ho. unfold commit_writes. rewrite !Forall_app, !Forall_singleton. cbn [snd].
  pose proof (put_header_ok (lh g) old Hh Ho) as [Hp1 Hp2]. split_and!; [|done|..].
  - apply Forall_lookup. intros j w Hj. unfold log_writes in Hj. rewrite list_lookup_imap in Hj.
    destruct (homes (lh g) !! j); [|done]. injection Hj as <-. apply Ha.
  - apply Forall_fmap, Forall_true. intros b. apply Ha.
  - unfold put_len. split; [|by apply Forall_app_2; [apply le_bytes_range|apply Forall_drop]].
    rewrite length_app, length_le_bytes, length_drop, Hp1. by vm_compute.
Qed.

(** [end_op] does not move the log. *)
Definition log_place (l l' : logst S) : Prop :=
  start (lg l') = start (lg l) ∧ size_ (lg l') = size_ (lg l).
#[local] Instance log_place_pre : PreOrder log_place.
Proof. split; [by intros l|]. intros x y z [A1 A2] [B1 B2]. split; congruence. Qed.
Lemma end_op_place : pres log_place (Log.end_op dv).
Proof.
  assert (∀ A (m : M S A), pres log_place (Log.cache m)) as Hc.
  { intros A m. apply (pres_zoom (λ _ _, True)); [done|]. by intros t s' _. }
  unfold Log.end_op, Log.commit_no_lock, Log.write_log, Log.write_log_one, Log.write_head, Log.install_trans,
    Log.install_one, Log.empty_head, Log.blockno_at, Log.upd.
  pres; by apply pres_modify.
Qed.

Lemma txn_empty s a : txn dv s a → logged_blocks s = [] → a = mkAcache ∅ (a_disk a).
Proof.
  intros T Hl. destruct a as [bf k]. cbn [a_disk]. f_equal. apply map_empty. intros b.
  destruct (bf !! b) as [ab|] eqn:E; [|done].
  destruct (tx_bufs _ _ _ T b ab E) as [Hb _]. rewrite Hl in Hb. by apply not_elem_of_nil in Hb.
Qed.
Lemma unpinned_empty s a :
  txn dv s a → foldl unpin_one (a_bufs a) (logged_blocks s) = ∅.
Proof.
  intros T. apply map_empty. intros b. pose proof (tx_inv _ _ _ T) as I.
  destruct (a_bufs a !! b) as [ab|] eqn:E.
  - destruct (tx_bufs _ _ _ T b ab E) as [Hb (j & x & ->)].
    rewrite foldl_unpin_in by (done || apply (li_nodup _ _ _ I)). unfold unpin_one. rewrite E.
    apply lookup_delete_eq.
  - destruct (decide (b ∈ logged_blocks s)) as [Hb|Hb]; [|by rewrite foldl_unpin_ne].
    rewrite foldl_unpin_in by (done || apply (li_nodup _ _ _ I)). unfold unpin_one. by rewrite E.
Qed.

(** The operation ends: what it wrote is on the disk, and nothing is open. *)
Lemma end_run s a :
  txn dv s a → blocks_ok a → outstanding (log_of s) = 1 → commiting (log_of s) = false →
  7 < size_ (log_of s) →
  ∃ l k, Log.end_op dv (fl s) = Done (tt, l) ∧ idle (with_fl l s) k ∧
    start (lg l) = start (log_of s) ∧ blocks_ok (mkAcache ∅ k) ∧
    (∀ b, outside (start (log_of s)) b → Bcache.dev_read k b = a_view a b).
Proof.
  intros T Ha Ho Hc Hs. pose proof T as [R I _ Hb]. pose proof I as [[A1 A2 A3 A4] B1 B2 B3 B4].
  pose proof (length_homes _ A2) as Hl. fold (logged_blocks s) in Hl.
  destruct (Z.ltb_spec 0 (len (lh (log_of s)))) as [Hpos|Hz].
  - destruct (end_op_run dv (log_of s) (bc (fl s)) a) as (c & g & E & R' & I' & H1 & H2 & H3 & H4);
      [done..|by eapply txn_size| |].
    { intros hb _. unfold not_held. destruct (a_bufs a !! hb) as [ab|] eqn:Eb; [|done].
      by destruct (Hb hb ab Eb) as [_ (j & x & ->)]. }
    replace (mkLogst (log_of s) (bc (fl s))) with (fl s) in E by (unfold log_of; by destruct (fl s)).
    destruct (end_op_place _ _ _ E) as [_ P]. cbn [lg] in P.
    fold (logged_blocks s) in R', I'. rewrite (unpinned_empty s a T) in R', I'.
    eexists _, _. split_and!; [exact E| |done| |].
    + split; [exact R'|exact I'|done|done| |done]. unfold log_of, with_fl. cbn [fl lg]. by rewrite P.
    + intros b. unfold a_view. cbn [a_bufs a_disk]. rewrite lookup_empty. apply write_all_ok.
      * apply commit_writes_ok; [done|done|]. pose proof (Ha (start (log_of s))) as Hst.
        unfold a_view in Hst. destruct (A4 0) as [E0 _]; [done|]. by rewrite Z.add_0_r in E0; rewrite E0 in Hst.
      * intros Hnw. pose proof (Ha b) as Hab. unfold a_view in Hab.
        destruct (a_bufs a !! b) as [ab|] eqn:Eb; [|done]. exfalso. apply Hnw.
        destruct (Hb b ab Eb) as [Hin _]. unfold commit_writes. rewrite !fmap_app, !elem_of_app.
        right; right; left. by rewrite home_writes_fst.
    + intros b Hout. rewrite (committed_disk dv) by done. unfold installed. fold (logged_blocks s).
      case_decide as Hin; [done|]. unfold a_view.
      destruct (a_bufs a !! b) as [ab|] eqn:Eb; [|done]. by destruct (Hb b ab Eb).
  - assert (logged_blocks s = []) as Hn by (destruct (logged_blocks s); [done|cbn in Hl; lia]).
    pose proof (txn_empty s a T Hn) as Ea. set (k := a_disk a) in *. clearbody k. subst a.
    eexists (mkLogst _ (bc (fl s))), k. split_and!.
    + unfold Log.end_op. rewrite bind_gets. fold (log_of s). rewrite bind_usub by lia.
      unfold Log.upd. rewrite bind_modify, Hc, Ho. change (1 - 1 =? 0) with true. cbv iota.
      rewrite bind_modify. unfold Log.commit_no_lock. rewrite bind_assoc, bind_gets.
      rewrite bind_assoc, bind_assert by done. cbn [lg]. fold (log_of s).
      rewrite (proj2 (Z.ltb_ge _ _)) by exact Hz. rewrite bind_ret_l. reflexivity.
    + split; [exact R| |cbn; lia|done|done|done]. by split; [split|..].
    + done.
    + exact Ha.
    + intros b _. unfold a_view. cbn [a_bufs a_disk]. by rewrite lookup_empty.
Qed.

(** ** One transaction of a write *)

(** The file of slot [d] on the idle disk [k]. *)
Record at_rest s k d : Prop := {
  ar_idle : idle s k;
  ar_blocks : blocks_ok (mkAcache ∅ k);
  ar_table : table_ok s (mkAcache ∅ k);
  ar_dev : id_dev d = dv;
  ar_num : 0 ≤ id_inum d < ninodes (super s);
  ar_inode : dinode_ok (dinode d);
  ar_file : file_ok s (dinode d);
  ar_slot : id_valid d = true ∧ id_locked d = false
}.
Definition set_ids s ids : fsst S :=
  mkFsst (fl s) (super s) (sb_ready s) (imetas s) ids (umem s) (cur_pgt s) (cur_cwd s).

(** Byte [x] of a file, and an inode, on a disk. *)
Definition disk_byte k (dn : DiskInode) (x : Z) : option Z := file_byte (mkAcache ∅ k) dn x.
Definition inode_at s k (j : Z) : option DiskInode := disk_inode s (mkAcache ∅ k) j.

(** Disk [k'] has the bytes [bs] at [off] in the file of slot [d], and its
    size; every other byte of the file and every other inode is as on [k]. *)
Record put_on_disk s d off bs k s' k' : Prop := {
  pd_bytes x : 0 ≤ x < NDIRECT * BSIZE → disk_byte k' (dinode d) x =
    if decide (off ≤ x < off + Z.of_nat (length bs)) then bs !! Z.to_nat (x - off)
    else disk_byte k (dinode d) x;
  pd_inode : inode_at s' k' (id_inum d) = Some (grown (dinode d) (off + Z.of_nat (length bs)));
  pd_others j : 0 ≤ j < ninodes (super s) → j ≠ id_inum d → inode_at s' k' j = inode_at s k j
}.

Lemma touched_max off n : 0 ≤ off → 0 < n ≤ write_max → touched off n ≤ 4.
Proof.
  change write_max with 3072. intros H0 Hn. unfold touched. change BSIZE with 1024.
  rewrite (proj2 (Z.eqb_neq _ _)) by lia.
  pose proof (Z.div_mod off 1024 ltac:(lia)). pose proof (Z.mod_pos_bound off 1024 ltac:(lia)).
  assert ((off + n - 1) / 1024 < off / 1024 + 4) by (apply Z.div_lt_upper_bound; lia). lia.
Qed.

Section chunk.
Context (heap root : Z) (m : mem) (fr : list Z) (pos : gmap Z (nat * Z)) (addr : Z) (bs : list Z).
Context (Sp : space heap root m fr pos) (H0 : 0 ≤ addr).
Context (Hmax : addr + Z.of_nat (length bs) ≤ MAXVA) (Hh : UserCopy.holds root m addr bs).
Context (H8 : Forall (in_u 8) bs).

Lemma slot_in_txn s k d j l :
  at_rest s k d → lg l = Log.set_outstanding (log_of s) 1 → txn dv (with_fl l s) (mkAcache ∅ k) →
  slot_ok dv (set_ids (with_fl l s) (<[j := id_set_locked d true]> (idatas s))) (mkAcache ∅ k)
    (id_set_locked d true).
Proof.
  intros [I Hb [T1 T2 T3] Hdev Hnum Hin [F1 F2 F3] _] Hl T. split; [by destruct T|done| |done|done|done|].
  - split; [done| |done]. intros q Hq. destruct (T2 q Hq) as [U O]. split; [done|].
    unfold log_of. cbn [fl set_ids with_fl]. by rewrite Hl.
  - split; [|done|done]. intros x b Hx Hxb. destruct (F1 x b Hx Hxb) as [U O]. split; [done|].
    unfold log_of. cbn [fl set_ids with_fl]. by rewrite Hl.
Qed.

Lemma chunk_run s k d j x off n :
  at_rest s k d → idatas s !! j = Some d → umem s = m → cur_pgt s = Some root →
  0 ≤ x → x + n ≤ Z.of_nat (length bs) → 0 < n ≤ write_max → FsFile.mapped (dinode d) off n →
  let l1 := mkLogst (Log.set_outstanding (log_of s) 1) (bc (fl s)) in
  let s2 := set_ids (with_fl l1 s) (<[j := id_set_locked d true]> (idatas s)) in
  ∃ s3 l5 k', Log.begin_op (fl s) = Done (tt, l1) ∧
    iwrite dv j Fs.User [] (addr + x) off n s2 = Done (Ok n, s3) ∧ fixed j s2 s3 ∧
    idatas s3 !! j = Some (id_set_dinode (id_set_locked d true) (grown (dinode d) (off + n))) ∧
    Log.end_op dv (fl s3) = Done (tt, l5) ∧
    (let d5 := id_set_dinode d (grown (dinode d) (off + n)) in
     let s5 := set_ids (with_fl l5 s3) (<[j := d5]> (idatas s3)) in
     at_rest s5 k' d5 ∧ put_on_disk s d off (slice bs x n) k s5 k').
Proof.
  intros A Hj Hm Hp Hx Hl Hn Hmap l1 s2. pose proof A as [I Hb Ht Hdev Hnum Hin Hf [Hv Hlk]].
  pose proof (idle_len s k I) as Hlen. pose proof Hmap as [Hoff _].
  destruct (begin_run s k I) as [Eb T1]. fold l1 in Eb, T1.
  pose proof (slot_in_txn s k d j l1 A eq_refl T1) as Hok. fold s2 in Hok.
  assert (idatas s2 !! j = Some (id_set_locked d true)) as Hj2.
  { apply list_lookup_insert_eq. by eapply lookup_lt_Some. }
  pose proof (touched_max off n Hoff Hn) as Htm.
  destruct (iwrite_run dv s2 (mkAcache ∅ k) j (id_set_locked d true) bs x off n Hok Hj2 H8)
    as (s3 & a3 & E & T3 & Ha3 & Hj3 & Hi3 & Hby & Hoth); [lia|done|done|done| |].
  { split; unfold log_of; cbn [fl set_ids with_fl s2 l1 lg Log.set_outstanding lh size_].
    - fold (log_of s). rewrite Hlen. change LOGSIZE with 30. lia.
    - fold (log_of s). pose proof (il_size _ _ I). rewrite Hlen. lia. }
  change (id_inum (id_set_locked d true)) with (id_inum d) in *.
  change (dinode (id_set_locked d true)) with (dinode d) in *.
  pose proof (iwrite_fixed dv j bs x off n _ _ _ E) as F.
  destruct F as [(L1 & L2 & L3 & L4) Fr Fs].
  assert (fixed j s2 s3) as F by done.
  destruct (end_run s3 a3 T3 Ha3) as (l5 & k' & E5 & I5 & St & Hb5 & Hv5);
    [unfold log_of; by rewrite L3|unfold log_of; rewrite L4; apply I|unfold log_of; rewrite L2; apply I|].
  exists s3, l5, k'. split_and!; [exact Eb| |exact F|exact Hj3|exact E5|].
  { rewrite (iwrite_user dv heap root m fr pos addr bs Sp H0 Hmax Hh j s2 x off n); [done|done|done|done|done]. }
  intros d5 s5.
  assert (start (log_of s5) = start (log_of s)) as Hst.
  { change (log_of s5) with (lg l5). rewrite St. exact L1. }
  destruct Fr as (Fsup & _). change (super s2) with (super s) in Fsup.
  assert (∀ q, 0 ≤ q < ninodes (super s) → inode_at s5 k' q = disk_inode s3 a3 q) as Hin5.
  { intros q Hq. unfold inode_at, disk_inode. change (iblock s5 q) with (iblock s3 q).
    unfold a_view at 1. cbn [a_bufs a_disk]. rewrite lookup_empty, Hv5; [done|].
    unfold iblock. rewrite Fsup. destruct (to_blocks _ _ Ht q Hq) as [_ O].
    change (start (log_of s3)) with (start (lg (fl s3))). by rewrite L1. }
  assert (∀ q, 0 ≤ q < ninodes (super s) → q ≠ id_inum d → inode_at s5 k' q = inode_at s k q) as Hothers.
  { intros q Hq Hne. rewrite Hin5 by done. by apply Hoth. }
  split.
  - split; [|done| |done|change (super s5) with (super s3); by rewrite Fsup|apply grown_ok; [done|]| |].
    + destruct I5 as [J1 J2 J3 J4 J5 J6]. by split.
    + split.
      * change (super s5) with (super s3). rewrite Fsup. apply Ht.
      * change (super s5) with (super s3). rewrite Fsup. intros q Hq. destruct (to_blocks _ _ Ht q Hq) as [U O].
        unfold iblock in *. change (super s5) with (super s3). rewrite Fsup. split; [done|]. by rewrite Hst.
      * change (super s5) with (super s3). rewrite Fsup. intros q Hq. change (is_Some (inode_at s5 k' q)).
        destruct (decide (q = id_inum d)) as [->|Hne]; [rewrite Hin5, Hi3 by done; by eexists|].
        rewrite Hothers by done. by apply (to_decode _ _ Ht).
    + destruct Hmap as [_ Hmp]. destruct (Hmp (off + n - 1)) as [Hlt _]; [lia|].
      change (NDIRECT * BSIZE) with 12288 in Hlt. unfold in_u. lia.
    + destruct Hf as [F1 F2 F3]. split.
      * intros y b Hy Hyb. destruct (F1 y b Hy Hyb) as [U O]. split; [done|]. by rewrite Hst.
      * exact F2.
      * intros y b q Hy Hyb. change (super s5) with (super s3). unfold iblock. change (super s5) with (super s3).
        rewrite Fsup. by apply (F3 y).
    + done.
  - assert (Z.of_nat (length (slice bs x n)) = n) as Hsl.
    { rewrite length_slice by lia. lia. }
    split; rewrite ?Hsl.
    + intros y Hy. etransitivity; [|etransitivity; [exact (Hby y Hy)|]].
      * unfold disk_byte, file_byte. change (dinode (id_set_locked d true)) with (dinode d).
        destruct (byte_block (dinode d) y) as [b|] eqn:Eb'; [|done]. cbn [mbind option_bind].
        unfold a_view at 1. cbn [a_bufs a_disk]. rewrite lookup_empty, Hv5; [done|].
        destruct (fo_log _ _ Hf y b Hy Eb') as [_ O]. unfold log_of. by rewrite L1.
      * case_decide; [|done]. rewrite slice_lookup, decide_True by lia. f_equal. lia.
    + by rewrite Hin5.
    + done.
Qed.
End chunk.
End txn.

(** ** The system call *)
Section call.
Context {D S : Type} {BD : BlockDev D} {BL : BlockDevLaws D} (dv : Z) {BC : BufferCache D S dv}.
Context {BF : BitField}.
Context (pipe_chan : Z → Pipe.chan → Z) (con_chan uart_chan : Z) (panicked : bool) (lsr : nat → bool).
Implicit Types (k : kst (filest S)) (s : fsst S) (e : D).

Lemma on_fs_done {A} i k (m : M (fsst S) A) x s :
  m (fs_view i k) = Done (x, s) → File.on_fs i m k = Done (x, set_fs s k).
Proof. intros E. unfold File.on_fs, zoom. by rewrite E. Qed.
Lemma on_log_done {A} k (m : M (logst S) A) x l :
  m (fl (f_fs (kfs k))) = Done (x, l) →
  File.on_log m k = Done (x, set_fs (with_fl l (fs_view None k)) k).
Proof. intros E. apply on_fs_done. unfold Fs.on_log, zoom. cbn [fs_view fl]. by rewrite E. Qed.
Lemma ilock_run ip s d :
  idatas s !! index ip = Some d → id_valid d = true → id_locked d = false →
  Icache.ilock dv ip s = Done (tt, set_ids s (<[index ip := id_set_locked d true]> (idatas s))).
Proof.
  intros Hd Hv Hl. unfold Icache.ilock, Icache.slot_lock, idata_at.
  rewrite !bind_assoc, bind_get, Hd, bind_unwrap, Hl. unfold put_idata.
  rewrite bind_assoc, bind_modify, bind_ret_l. cbn [id_set_locked id_valid]. by rewrite Hv.
Qed.
Lemma iunlock_run ip s d :
  idatas s !! index ip = Some d →
  Icache.iunlock ip s = Done (tt, set_ids s (<[index ip := id_set_locked d false]> (idatas s))).
Proof.
  intros Hd. unfold Icache.iunlock, Icache.slot_unlock, idata_at.
  by rewrite bind_assoc, bind_get, Hd, bind_unwrap.
Qed.

(** The rest of the kernel. *)
Record same_kernel k k' : Prop := {
  sk_procs : procs k' = procs k;
  sk_mem : kmem k' = kmem k;
  sk_mach : kmach k' = kmach k;
  sk_pipes : f_pipes (kfs k') = f_pipes (kfs k);
  sk_super : super (f_fs (kfs k')) = super (f_fs (kfs k))
}.
#[local] Instance same_kernel_pre : PreOrder same_kernel.
Proof. split; [by intros k|]. intros x y z [] []. split; congruence. Qed.

Lemma view_fixed i k j s s' :
  cur_pgt s = pdata_of (Some i) k ≫= pagetable → cur_cwd s = (pdata_of (Some i) k ≫= cwd) ≫= ref_inode →
  fixed j s s' → fs_view (Some i) (set_fs s' k) = s'.
Proof.
  intros Hp Hc [_ (_ & _ & _ & _ & E1 & E2) _]. rewrite <- E1 in Hp. rewrite <- E2 in Hc.
  destruct s'. cbn in Hp, Hc. by rewrite Hp, Hc.
Qed.

Section write.
Context (i : nat) (ar addr : Z) (bs : list Z) (ip : Inode) (heap root : Z) (m : mem) (fr : list Z)
  (pos : gmap Z (nat * Z)).
Context (Sp : space heap root m fr pos) (H0 : 0 ≤ addr).
Context (Hmax : addr + Z.of_nat (length bs) ≤ MAXVA) (Hh : UserCopy.holds root m addr bs).
Context (H8 : Forall (in_u 8) bs).
Let len : Z := Z.of_nat (length bs).

(** The state in which a turn of the loop begins. *)
Record turn k e (d : InodeData) (f : VFile) (n : Z) : Prop := {
  tn_arc : f_arcs (kfs k) !! ar = Some (n, f);
  tn_inode : vinode f = Some ip;
  tn_rest : at_rest dv (fs_view (Some i) k) e d;
  tn_slot : idatas (f_fs (kfs k)) !! index ip = Some d;
  tn_mem : kmem k = m;
  tn_pgt : pdata_of (Some i) k ≫= pagetable = Some root
}.

(** The number of bytes of a turn. *)
Definition portion (x : Z) : Z := if write_max <? len - x then write_max else len - x.

Lemma turn_run fuel k e d f n x :
  turn k e d f n → 0 ≤ x < len → FsFile.mapped (dinode d) (offset f) (len - x) →
  let w := portion x in
  let d' := id_set_dinode d (grown (dinode d) (offset f + w)) in
  let f' := VFile.set_offset f (offset f + w) in
  ∃ k' e', write_inode dv (Datatypes.S fuel) i ar addr len x k = write_inode dv fuel i ar addr len (x + w) k'
    ∧ turn k' e' d' f' n ∧ same_kernel k k' ∧ f_arcs (kfs k') = <[ar := (n, f')]> (f_arcs (kfs k))
    ∧ put_on_disk (fs_view (Some i) k) d (offset f) (slice bs x w) e (fs_view (Some i) k') e'.
Proof.
  intros [Ha Hip Hr Hs Hm Hp] Hx Hmap w d' f'.
  assert (0 < w ≤ write_max ∧ w ≤ len - x) as [Hw1 Hw2].
  { unfold w, portion. change write_max with 3072. destruct (Z.ltb_spec 3072 (len - x)); lia. }
  assert (FsFile.mapped (dinode d) (offset f) w) as Hmw.
  { destruct Hmap as [M1 M2]. split; [done|]. intros y Hy. apply M2. lia. }
  pose proof (ar_slot _ _ _ _ Hr) as [Hv Hlk].
  destruct (chunk_run dv heap root m fr pos addr bs Sp H0 Hmax Hh H8 (fs_view (Some i) k) e d (index ip) x
    (offset f) w Hr Hs Hm Hp ltac:(lia) ltac:(unfold len in *; lia) Hw1 Hmw)
    as (s3 & l5 & e' & Eb & Ew & Fx & Hj3 & Ee & Har & Hpd).
  set (l1 := mkLogst _ _) in Eb, Ew, Fx. set (s2 := set_ids _ _) in Ew, Fx.
  pose proof (view_fixed i k (index ip) s2 s3 eq_refl eq_refl Fx) as Hv3.
  set (s4 := set_ids s3 (<[index ip := d']> (idatas s3))).
  assert (fixed (index ip) s2 s4) as Fx4.
  { destruct Fx as [F1 F2 F3]. split; [done|done|]. intros j Hj. cbn. rewrite list_lookup_insert_ne by done. by apply F3. }
  pose proof (view_fixed i k (index ip) s2 s4 eq_refl eq_refl Fx4) as Hv4.
  set (k5 := set_fs (with_fl l5 (fs_view None (set_fs s4 k))) k).
  exists (set_kfs (mkFilest (f_fs (kfs k5)) (f_pipes (kfs k)) (<[ar := (n, f')]> (f_arcs (kfs k)))
    (f_tty (kfs k)) (f_devs (kfs k))) k5), e'.
  split_and!.
  - cbn [write_inode]. rewrite (proj2 (Z.leb_gt _ _)) by lia. fold (portion x). fold w.
    rewrite (bind_run _ _ _ _ _ (on_log_done k Log.begin_op tt l1 Eb)).
    set (k1 := set_fs _ k).
    unfold arc_get at 1. rewrite bind_assoc, bind_get.
    change (f_arcs (kfs k1)) with (f_arcs (kfs k)). rewrite Ha, bind_ret_l, Hip, bind_unwrap.
    rewrite (bind_run _ _ _ tt (set_fs s2 k)).
    2:{ apply (on_fs_done (Some i) k1 (Icache.ilock dv ip) tt s2).
        exact (ilock_run ip (with_fl l1 (fs_view (Some i) k)) d Hs Hv Hlk). }
    assert (addr + x < 2 ^ 64) by layout_lia. rewrite bind_uadd by done.
    rewrite (bind_run _ _ _ (Ok w) (set_fs s3 k)).
    2:{ exact (on_fs_done (Some i) (set_fs s2 k) _ (Ok w) s3 Ew). }
    rewrite (bind_run _ _ _ tt (set_fs s4 k)).
    2:{ apply (on_fs_done (Some i) (set_fs s3 k) (Icache.iunlock ip) tt s4). rewrite Hv3.
        rewrite (iunlock_run ip s3 _ Hj3). do 3 f_equal. unfold s4, d'. by destruct d; cbn in Hlk; subst. }
    rewrite (bind_run _ _ _ tt k5).
    2:{ exact (on_log_done (set_fs s4 k) (Log.end_op dv) tt l5 Ee). }
    destruct Hmw as [Hof Hmw]. destruct (Hmw (offset f + w - 1)) as [Hlt _]; [lia|].
    change (NDIRECT * BSIZE) with 12288 in Hlt.
    rewrite (wrap_id 32 w) by (unfold in_u; lia). rewrite bind_uadd by lia.
    unfold set_offset. rewrite bind_assoc, bind_get. change (f_arcs (kfs k5)) with (f_arcs (kfs k)).
    rewrite Ha. unfold put_arcs. rewrite bind_modify. done.
  - split; [apply lookup_insert_eq|done| | |by rewrite <- Hm; apply Fx|exact Hp].
    + change (fs_view (Some i) _) with (with_fl l5 (fs_view (Some i) (set_fs s4 k))). by rewrite Hv4.
    + change (idatas s4 !! index ip = Some d'). apply list_lookup_insert_eq. by eapply lookup_lt_Some.
  - destruct Fx as [_ (E1 & _ & _ & E2 & _) _]. by split.
  - done.
  - change (fs_view (Some i) (set_kfs _ k5)) with (with_fl l5 (fs_view (Some i) (set_fs s4 k))). by rewrite Hv4.
Qed.

Lemma grown_grown dn p q : p ≤ q → grown (grown dn p) q = grown dn q.
Proof. intros H. unfold grown, d_set_size. cbn. f_equal. lia. Qed.

(** Two writes one behind the other. *)
Lemma put_on_disk_app s d off b1 e1 s1 e2 b2 s2 e3 :
  super s1 = super s →
  put_on_disk s d off b1 e1 s1 e2 →
  put_on_disk s1 (id_set_dinode d (grown (dinode d) (off + Z.of_nat (length b1))))
    (off + Z.of_nat (length b1)) b2 e2 s2 e3 →
  put_on_disk s d off (b1 ++ b2) e1 s2 e3.
Proof.
  intros Hs [P1 P2 P3] [Q1 Q2 Q3].
  cbn [id_set_dinode dinode id_inum] in *. rewrite Hs in Q3.
  assert (∀ e' x, disk_byte e' (grown (dinode d) (off + Z.of_nat (length b1))) x = disk_byte e' (dinode d) x)
    as Hg by done.
  split; rewrite ?length_app, ?Nat2Z.inj_add.
  - intros x Hx. specialize (Q1 x Hx). rewrite !Hg in Q1. rewrite Q1.
    repeat case_decide; try lia.
    + rewrite lookup_app_r by lia. f_equal. lia.
    + rewrite P1, decide_True, lookup_app_l by lia. done.
    + rewrite P1, decide_False by lia. done.
  - rewrite Q2, grown_grown by lia. by rewrite Z.add_assoc.
  - intros j Hj Hne. by rewrite Q3, P3.
Qed.

Lemma write_inode_run fuel : ∀ k e d f n x,
  turn k e d f n → 0 ≤ x < len → FsFile.mapped (dinode d) (offset f) (len - x) →
  (Z.to_nat (len - x) < fuel)%nat →
  let d' := id_set_dinode d (grown (dinode d) (offset f + (len - x))) in
  let f' := VFile.set_offset f (offset f + (len - x)) in
  ∃ k' e', write_inode dv fuel i ar addr len x k = Done (Ok len, k')
    ∧ turn k' e' d' f' n ∧ same_kernel k k' ∧ f_arcs (kfs k') = <[ar := (n, f')]> (f_arcs (kfs k))
    ∧ put_on_disk (fs_view (Some i) k) d (offset f) (drop (Z.to_nat x) bs) e (fs_view (Some i) k') e'.
Proof.
  induction fuel as [|fuel IH]; intros k e d f n x T Hx Hmap Hfuel d' f'; [lia|].
  destruct (turn_run fuel k e d f n x T Hx Hmap) as (k1 & e1 & E & T1 & K1 & A1 & P1).
  set (w := portion x) in *.
  assert (0 < w ≤ len - x) as Hw.
  { unfold w, portion. change write_max with 3072. destruct (Z.ltb_spec 3072 (len - x)); lia. }
  assert (slice bs x w ++ drop (Z.to_nat (x + w)) bs = drop (Z.to_nat x) bs) as Hcut.
  { unfold slice. replace (Z.to_nat (x + w)) with (Z.to_nat x + Z.to_nat w)%nat by lia.
    rewrite <- drop_drop. apply take_drop. }
  assert (x + w ≤ Z.of_nat (length bs)) as Hxw by (change (x + w ≤ len); lia).
  assert (Z.of_nat (length (slice bs x w)) = w) as Hsl by (rewrite length_slice by lia; lia).
  rewrite E. destruct (Z.leb_spec len (x + w)) as [Hend|Hmore].
  - assert (len - x = w) as Hlw by lia. unfold d', f'. rewrite Hlw. exists k1, e1. split_and!; [|done..|].
    + replace (x + w) with len by lia. by destruct fuel; cbn [write_inode]; rewrite Z.leb_refl.
    + rewrite <- Hcut. rewrite (drop_ge bs) by (unfold len in *; lia). by rewrite app_nil_r.
  - destruct (IH k1 e1 _ _ n (x + w) T1) as (k2 & e2 & E2 & T2 & K2 & A2 & P2); [lia| |lia|].
    { cbn [VFile.set_offset offset]. change (dinode (id_set_dinode d _)) with (grown (dinode d) (offset f + w)).
      destruct Hmap as [M1 M2]. split; [lia|]. intros y Hy. apply M2. lia. }
    cbn [VFile.set_offset offset id_set_dinode dinode id_valid id_dev id_inum id_locked] in T2, A2, P2.
    assert (offset f + w + (len - (x + w)) = offset f + (len - x)) as Ho by lia.
    rewrite Ho, ?grown_grown in T2 by lia. rewrite Ho in A2. exists k2, e2. split_and!; [exact E2|exact T2|by etransitivity| |].
    + rewrite A2, A1. apply insert_insert_eq.
    + rewrite <- Hcut. eapply (put_on_disk_app _ _ _ _ _ (fs_view (Some i) k1));
        [apply K1|exact P1|]. by rewrite Hsl.
Qed.
End write.

(** The call on a file at rest. *)
Lemma sys_write_file k i root fd addr f ip ar n e d heap fr pos bs :
  caller k i root fd addr (Z.of_nat (length bs)) f →
  (∃ p, procs k !! i = Some p ∧ open_files (Proc.data p) !! Z.to_nat fd = Some (Some ar)) →
  f_arcs (kfs k) !! ar = Some (n, f) → ftype f = FInode → writeable f = true → vinode f = Some ip →
  at_rest dv (fs_view (Some i) k) e d → idatas (f_fs (kfs k)) !! index ip = Some d →
  bs ≠ [] → FsFile.mapped (dinode d) (offset f) (Z.of_nat (length bs)) →
  space heap root (kmem k) fr pos → 0 ≤ addr → addr + Z.of_nat (length bs) ≤ MAXVA →
  UserCopy.holds root (kmem k) addr bs →
  let off' := offset f + Z.of_nat (length bs) in
  ∃ k' e', sys_write dv pipe_chan con_chan uart_chan panicked lsr i k =
      Done (Ends (Some (Z.of_nat (length bs))), k')
    ∧ put_on_disk (fs_view (Some i) k) d (offset f) bs e (fs_view (Some i) k') e'
    ∧ at_rest dv (fs_view (Some i) k') e' (id_set_dinode d (grown (dinode d) off'))
    ∧ f_arcs (kfs k') = <[ar := (n, VFile.set_offset f off')]> (f_arcs (kfs k))
    ∧ same_kernel k k'
    ∧ idatas (f_fs (kfs k')) !! index ip = Some (id_set_dinode d (grown (dinode d) off')).
Proof.
  intros [(pr & ws & a & c & Hpr & Hpt & Hkd & Hal & Hws & W0 & W1 & W2 & Hfd & _)] (p' & Hp' & Hfd')
    Ha Hty Hwr Hip Hr Hsl Hne Hmap Sp H0 Hmax Hh off'.
  rewrite Hpr in Hp'. injection Hp' as <-. rewrite Hfd in Hfd'. injection Hfd' as ->.
  assert (0 < Z.of_nat (length bs)) as Hpos by (destruct bs; [done|cbn; lia]).
  destruct (write_inode_run i ar addr bs ip heap root (kmem k) fr pos Sp H0 Hmax Hh
    (holds_range heap root (kmem k) fr pos addr bs Sp H0 Hmax Hh) (Datatypes.S (Z.to_nat (Z.of_nat (length bs))))
    k e d f n 0) as (k' & e' & E & [T1 T2 T3 T4 T5 T6] & K & A & P).
  - split; [done|done|done|done|done|]. cbn [pdata_of mbind option_bind]. by rewrite Hpr.
  - lia.
  - by rewrite Z.sub_0_r.
  - lia.
  - rewrite Z.sub_0_r in *. exists k', e'. split_and!; [|done..]. unfold sys_write.
    mstep (arg_run k i pr ws 0 fd Hpr Hal Hws ltac:(lia) W0). unfold file_at.
    rewrite (bind_run _ _ _ ar k); [|by mstep (data_at_run k i pr Hpr); rewrite Hfd].
    mstep (arg_run k i pr ws 1 addr Hpr Hal Hws ltac:(lia) W1).
    mstep (arg_run k i pr ws 2 _ Hpr Hal Hws ltac:(lia) W2).
    unfold vfile_write, arc_get. rewrite !bind_assoc, bind_get, Ha, bind_ret_l, Hwr. cbn [negb].
    rewrite Hty, bind_assoc. mstep E. done.
Qed.

(** C6. A write to a file is on the disk when it returns. A process calls
    [sys_write] on a file, over direct blocks the file has, with a buffer in
    its memory, while no other operation is open. The call returns
    the length, without panic or sleep, however many transactions it takes;
    on the device, not only in the cache, the file then has the bytes of the
    buffer at the old offset and every other byte as before, its inode has
    the new size, no other inode changed, and the log is empty. The offset
    has moved; memory, processes and pipes are as they were. *)
Theorem sys_write_durable k i root fd addr f ip ar n e d heap fr pos bs :
  caller k i root fd addr (Z.of_nat (length bs)) f →
  (∃ p, procs k !! i = Some p ∧ open_files (Proc.data p) !! Z.to_nat fd = Some (Some ar)) →
  f_arcs (kfs k) !! ar = Some (n, f) → ftype f = FInode → writeable f = true → vinode f = Some ip →
  at_rest dv (fs_view (Some i) k) e d → idatas (f_fs (kfs k)) !! index ip = Some d →
  bs ≠ [] → FsFile.mapped (dinode d) (offset f) (Z.of_nat (length bs)) →
  space heap root (kmem k) fr pos → 0 ≤ addr → addr + Z.of_nat (length bs) ≤ MAXVA →
  UserCopy.holds root (kmem k) addr bs →
  let off' := offset f + Z.of_nat (length bs) in
  ∃ k' e', sys_write dv pipe_chan con_chan uart_chan panicked lsr i k =
      Done (Ends (Some (Z.of_nat (length bs))), k')
    ∧ put_on_disk (fs_view (Some i) k) d (offset f) bs e (fs_view (Some i) k') e'
    ∧ at_rest dv (fs_view (Some i) k') e' (id_set_dinode d (grown (dinode d) off'))
    ∧ f_arcs (kfs k') = <[ar := (n, VFile.set_offset f off')]> (f_arcs (kfs k))
    ∧ same_kernel k k'.
Proof.
  intros C Hfd Ha Ht Hw Hip Hr Hs Hne Hm Sp H0 Hmax Hh off'.
  destruct (sys_write_file k i root fd addr f ip ar n e d heap fr pos bs) as (k' & e' & E & P & R & A & K & _);
    [done..|]. by exists k', e'.
Qed.
End call.

(** ** A file on the small disk *)
Definition idata5_free : InodeData := id_set_locked idata5 false.
Definition fs2 : fsst (bcache tdev) :=
  mkFsst (mkLogst (Log.set_outstanding g0 0) (BCache.new t0)) super0 true (replicate 50 InodeMeta.new)
    (<[3%nat := idata5_free]> (replicate 50 InodeData.new)) (mkMem ∅ None ∅) None None.
Definition ip5 : Inode := mkInode 1 5 3.
(** Open for writing at the last byte of its first block. *)
Definition file5 : VFile := mkVFile FInode true true None (Some ip5) 1023 0.
Definition file_kst (root tf : Z) (m : mem) : kst (filest (bcache tdev)) :=
  mkKst (mkMach [] ∅) m [ipc_proc 0 root tf 4 100] 1 None [] [] 0
    (mkFilest fs2 ∅ {[100 := (1, file5)]} (mkTty Uart.new Console.new [] [] 0 0 0 m None false) uninit).

Lemma file_kst_rest root tf m : at_rest 1 (fs_view (Some 0%nat) (file_kst root tf m)) t0 idata5_free.
Proof.
  pose proof fs1_slot as [[R I _ _] Hb [T1 T2 T3] _ Hn Hd [F1 F2 F3]].
  split; [|exact Hb|by split|done|exact Hn|exact Hd|by split|done].
  split; [exact R| |done|done|by vm_compute|done].
  destruct I as [[A1 A2 A3 A4] B1 B2 B3 B4]. by split; [split|..].
Qed.

Lemma sys_write_durable_witness :
  ∃ root m tf k e, sys_write 1 pchant 1 2 false (λ _, true) 0 (file_kst root tf m) = Done (Ends (Some 2), k) ∧
    disk_byte e inode5 1023 = Some 104 ∧ disk_byte e inode5 1024 = Some 105.
Proof.
  destruct (ipc_memory [104; 105]) as (heap & root & m & fr & pos & tf & tf1 & Sp & Hh & Hm & A0 & A1 & R0 & R1);
    [repeat constructor; done|simpl; lia|].
  destruct (sys_write_durable 1 pchant 1 2 false (λ _, true) (file_kst root tf m) 0 root 4 16 file5 ip5 100 1 t0
    idata5_free heap fr pos [104; 105]) as (k & e & E & [P _ _] & _).
  - split. by exists (ipc_proc 0 root tf 4 100), (args_page 4 16 2), 100, 1.
  - by exists (ipc_proc 0 root tf 4 100).
  - reflexivity.
  - reflexivity.
  - reflexivity.
  - reflexivity.
  - exact (file_kst_rest root tf m).
  - reflexivity.
  - done.
  - split; [done|]. intros x Hx. cbn in Hx. split; [change (NDIRECT * BSIZE) with 12288; lia|].
    assert (x = 1023 ∨ x = 1024) as [-> | ->] by lia; by eexists.
  - exact Sp.
  - done.
  - by vm_compute.
  - exact Hh.
  - exists root, m, tf, k, e. split_and!; [exact E|..].
    + etransitivity; [apply (P 1023); done|reflexivity].
    + etransitivity; [apply (P 1024); done|reflexivity].
Defined.
