(* ===== verification/FileRead.v ===== *)
(** * Files between processes

    [sys_read] on a file: from the blocks of the device to the memory of the
    caller. With Durable, what one process writes to a file another one reads
    from it. *)
From S2P Require Import FsFile.
From S2P Require Import Prelude.
From S2P Require Import Layout.
From S2P Require Import Kalloc.
From S2P Require Import PageTable.
From S2P Require Import PageTableFacts.
From S2P Require Import UserSpace.
From S2P Require Import UserCopy.
From S2P Require Import Bcache.
From S2P Require Import BcacheFacts.
From S2P Require Import Log.
From S2P Require Import LogFacts.
From S2P Require Import LogSpec.
From S2P Require Import Fs.
From S2P Require Import FsFacts.
From S2P Require Import FsBitmap.
From S2P Require Import Icache.
From S2P Require Import Console.
From S2P Require Import Spin.
From S2P Require Import Proc.
From S2P Require Import File.
From S2P Require Import SysFile.
From S2P Require Import TrapSafe.
From S2P Require Import Ipc.
From S2P Require Import Durable.

Section read.
Context {D S : Type} {BD : BlockDev D} {BL : BlockDevLaws D} (dv : Z) {BC : BufferCache D S dv}.
Context {BF : BitField}.
Implicit Types (s : fsst S) (e : D) (c : S).

(** The state with another cache and another user memory. *)
Definition with_io s c (m : mem) : fsst S :=
  mkFsst (mkLogst (lg (fl s)) c) (super s) (sb_ready s) (imetas s) (idatas s) m (cur_pgt s) (cur_cwd s).

(** ** One block, while nothing is in use *)
Lemma block_read s c m e b :
  bc_rep c (mkAcache ∅ e) →
  ∃ j c1 c2, bread dv dv b (with_io s c m) = Done (mkBuf j dv b j, with_io s c1 m) ∧
    (∀ m', bdata dv (mkBuf j dv b j) (with_io s c1 m') = Done (Bcache.dev_read e b, with_io s c1 m')) ∧
    (∀ m', bdrop dv (mkBuf j dv b j) (with_io s c1 m') = Done (tt, with_io s c2 m')) ∧
    bc_rep c2 (mkAcache ∅ e).
Proof.
  intros R. destruct (bc_read_miss c _ b R) as (c1 & j & E1 & R1).
  { apply lookup_empty. } { by vm_compute. }
  cbn [a_disk] in R1. set (x := Bcache.dev_read e b) in *.
  assert (a_bufs (a_set (mkAcache ∅ e) b (mkAbuf j x 1 true)) !! b = Some (mkAbuf j x 1 true)) as Hb
    by apply lookup_insert_eq.
  destruct (bc_drop_last c1 _ b j x R1 Hb eq_refl) as (c2 & E2 & R2).
  exists j, c1, c2. split_and!.
  - unfold bread, Fs.on_log, Log.cache, zoom. cbn [fl with_io bc lg]. by rewrite E1.
  - intros m'. unfold bdata, Fs.on_log, Log.cache, zoom. cbn [fl with_io bc lg].
    by rewrite (bc_data_run c1 _ b j x 1 R1 Hb).
  - intros m'. unfold bdrop, Fs.on_log, Log.cache, zoom. cbn [fl with_io bc lg]. by rewrite E2.
  - unfold a_del, a_set in R2. cbn [a_bufs a_disk] in R2. by rewrite delete_insert_id in R2 by apply lookup_empty.
Qed.

Section user.
Context (heap root : Z) (fr : list Z) (pos : gmap Z (nat * Z)).
Context (s : fsst S) (e : D) (i : nat) (d : InodeData) (count : Z).
Context (Hi : idatas s !! i = Some d) (Hdev : id_dev d = dv) (Hp : cur_pgt s = Some root).
Context (He : blocks_ok (mkAcache ∅ e)).

Lemma copy_user c m dst bs :
  space heap root m fr pos → 0 ≤ dst → (0 < length bs)%nat → dst + Z.of_nat (length bs) ≤ MAXVA →
  mapped root m dst (Z.of_nat (length bs)) → Forall (in_u 8) bs →
  ∃ m', copy_from_kernel Fs.User dst bs (with_io s c m) = Done (tt, with_io s c m') ∧
    space heap root m' fr pos ∧ stored root m dst bs m'.
Proof.
  intros Sp H0 Hl Hmax Hm Hb. destruct (copy_out_run heap root m fr pos dst bs) as (m' & E & Sp' & St); [done..|].
  exists m'. split_and!; [|done|done]. unfold copy_from_kernel. rewrite bind_get. cbn [cur_pgt with_io].
  rewrite Hp, bind_unwrap. unfold on_umem, zoom. cbn [umem with_io]. by rewrite (bind_run _ _ _ _ _ E).
Qed.

Lemma read_loop_user fuel : ∀ c m dst off total,
  bc_rep c (mkAcache ∅ e) → space heap root m fr pos → total ≤ count →
  FsFile.mapped (dinode d) off (count - total) → (Z.to_nat (count - total) < fuel)%nat →
  0 ≤ dst → dst + (count - total) ≤ MAXVA → mapped root m dst (count - total) →
  ∃ bs c' m', Fs.read_loop dv fuel i Fs.User dst off total count (with_io s c m) = Done (bs, with_io s c' m') ∧
    bc_rep c' (mkAcache ∅ e) ∧ space heap root m' fr pos ∧ stored root m dst bs m' ∧
    Z.of_nat (length bs) = count - total ∧
    (∀ x, 0 ≤ x < count - total → bs !! Z.to_nat x = disk_byte e (dinode d) (off + x)).
Proof.
  induction fuel as [|fuel IH]; intros c m dst off total R Sp Htot Hmap Hf Hd0 Hmax Hum; [lia|].
  cbn [Fs.read_loop]. destruct (Z.leb_spec count total) as [Hle|Hlt].
  { exists [], c, m. split_and!; [done..| |simpl; lia|lia]. split_and!; [done| |done].
    intros va Hva. by rewrite decide_False by (simpl; lia). }
  set (n := count - total) in *. pose proof Hmap as [H0 Hm].
  destruct (Hm off ltac:(lia)) as [Hoff [b Hb]].
  unfold idata_at. rewrite bind_assoc, bind_get. cbn [idatas with_io]. rewrite Hi, bind_unwrap, Hdev.
  mstep (map_direct_run dv (with_io s c m) i d off b Hi ltac:(lia) Hb).
  destruct (block_read s c m e b R) as (j & c1 & c2 & E1 & E2 & E3 & R2). mstep E1. mstep (E2 m).
  destruct (chunk_bounds off n H0 ltac:(lia)) as (C1 & C2 & C3 & C4 & C5).
  destruct (chunk_bytes (mkAcache ∅ e) (dinode d) off n b H0 ltac:(lia) Hb He) as [B1 B2].
  assert (a_view (mkAcache ∅ e) b = Bcache.dev_read e b) as Ev by (unfold a_view; cbn; by rewrite lookup_empty).
  rewrite Ev in B1, B2. set (w := Z.min n (BSIZE - off mod BSIZE)) in *. set (src := slice _ _ w) in *.
  assert (Forall (in_u 8) src) as Hs8.
  { destruct (He b) as [_ Hx]. rewrite Ev in Hx. by apply Forall_take, Forall_drop. }
  destruct (copy_user c1 m dst src) as (m1 & Ec & Sp1 & St1); [done|done|lia|lia| |done|].
  { intros va Hva. apply Hum. lia. }
  mstep Ec. mstep (E3 m1). assert (count - (total + w) = n - w) as En by lia.
  destruct (IH c2 m1 (dst + w) (off + w) (total + w)) as (bs & c' & m' & E & R' & Sp' & St & Hlen & Hbs);
    [done|done|lia|rewrite En; apply mapped_next; [done|lia]|lia|lia|lia| |].
  { intros va Hva. rewrite (user_page_same root m m1) by (apply St1; lia). apply Hum. lia. }
  mstep E. exists (src ++ bs), c', m'. rewrite En in Hlen, Hbs.
  split_and!; [done|done|done| |rewrite length_app; lia|].
  - eapply stored_app; [exact St1|]. by rewrite B1.
  - intros x Hx. destruct (decide (x < w)).
    + rewrite lookup_app_l by lia. apply B2. lia.
    + rewrite lookup_app_r by lia.
      replace (Z.to_nat x - length src)%nat with (Z.to_nat (x - w)) by lia.
      rewrite Hbs by lia. unfold disk_byte. f_equal. lia.
Qed.

Lemma iread_user c m dst off :
  bc_rep c (mkAcache ∅ e) → space heap root m fr pos → 0 ≤ count →
  FsFile.mapped (dinode d) off count → off + count ≤ dsize (dinode d) → in_u 32 (dsize (dinode d)) →
  0 ≤ dst → dst + count ≤ MAXVA → mapped root m dst count →
  ∃ bs c' m', iread dv i Fs.User dst off count (with_io s c m) = Done (Ok bs, with_io s c' m') ∧
    bc_rep c' (mkAcache ∅ e) ∧ space heap root m' fr pos ∧ stored root m dst bs m' ∧
    Z.of_nat (length bs) = count ∧
    (∀ x, 0 ≤ x < count → bs !! Z.to_nat x = disk_byte e (dinode d) (off + x)).
Proof.
  intros R Sp Hc Hm Hsz [_ Hu] H0 Hmax Hum. unfold iread.
  rewrite (proj2 (Z.leb_gt _ _)) by lia. unfold idata_at. rewrite bind_assoc, bind_get.
  cbn [idatas with_io]. rewrite Hi, bind_unwrap, (proj2 (Z.ltb_ge _ _)) by lia.
  destruct (read_loop_user (Datatypes.S (Z.to_nat count)) c m dst off 0)
    as (bs & c' & m' & E & R' & Sp' & St & Hlen & Hbs); rewrite ?Z.sub_0_r in *; [done..|lia|done|done|done|].
  mstep E. exists bs, c', m'. done.
Qed.
End user.
End read.

(** ** The call *)
Section call.
Context {D S : Type} {BD : BlockDev D} {BL : BlockDevLaws D} (dv : Z) {BC : BufferCache D S dv}.
Context {BF : BitField}.
Context (pipe_chan : Z → Pipe.chan → Z) (con_chan uart_chan : Z) (panicked : bool) (lsr : nat → bool).
Implicit Types (k : kst (filest S)) (s : fsst S) (e : D).

Lemma with_io_id s : with_io s (bc (fl s)) (umem s) = s.
Proof. by destruct s as [[]]. Qed.

Lemma read_inode_run k i ar n f ip e d heap root fr pos addr len :
  f_arcs (kfs k) !! ar = Some (n, f) → vinode f = Some ip →
  at_rest dv (fs_view (Some i) k) e d → idatas (f_fs (kfs k)) !! index ip = Some d →
  pdata_of (Some i) k ≫= pagetable = Some root →
  0 < len → FsFile.mapped (dinode d) (offset f) len → offset f + len ≤ dsize (dinode d) →
  space heap root (kmem k) fr pos → 0 ≤ addr → addr + len ≤ MAXVA → mapped root (kmem k) addr len →
  ∃ k' bs, read_inode dv i ar f addr len k = Done (Ok len, k') ∧ procs k' = procs k ∧
    stored root (kmem k) addr bs (kmem k') ∧ space heap root (kmem k') fr pos ∧
    f_arcs (kfs k') = <[ar := (n, VFile.set_offset f (offset f + len))]> (f_arcs (kfs k)) ∧
    Z.of_nat (length bs) = len ∧
    (∀ x, 0 ≤ x < len → bs !! Z.to_nat x = disk_byte e (dinode d) (offset f + x)).
Proof.
  intros Ha Hip Hr Hs Hp Hl Hmap Hsz Sp H0 Hmax Hum.
  pose proof Hr as [I Hb _ Hdev _ Hd _ [Hv Hlk]]. set (s0 := fs_view (Some i) k) in *.
  set (s1 := set_ids s0 (<[index ip := id_set_locked d true]> (idatas s0))).
  assert (idatas s1 !! index ip = Some (id_set_locked d true)) as Hs1.
  { apply list_lookup_insert_eq. by eapply lookup_lt_Some. }
  destruct (iread_user dv heap root fr pos s1 e (index ip) (id_set_locked d true) len Hs1 Hdev Hp Hb
    (bc (fl s1)) (kmem k) addr (offset f)) as (bs & c & m & E & R & Sp' & St & Hlen & Hbs);
    [apply I|done|lia|done|done|apply (do_size _ Hd)|done|done|done|].
  change (kmem k) with (umem s1) in E at 1. rewrite with_io_id in E. set (s2 := with_io s1 c m) in E.
  set (f' := VFile.set_offset f (offset f + len)).
  set (k2 := set_kfs (mkFilest (f_fs (kfs (set_fs s2 k))) (f_pipes (kfs k)) (<[ar := (n, f')]> (f_arcs (kfs k)))
    (f_tty (kfs k)) (f_devs (kfs k))) (set_fs s2 k)).
  exists (set_fs (set_ids s2 (<[index ip := id_set_locked (id_set_locked d true) false]> (idatas s2))) k2), bs.
  destruct Hmap as [Hof Hmp]. destruct (Hmp (offset f + len - 1)) as [Hlt _]; [lia|].
  change (NDIRECT * BSIZE) with 12288 in Hlt.
  split_and!; [|done|exact St|exact Sp'|done|done|done].
  unfold read_inode. rewrite Hip, bind_unwrap.
  rewrite (bind_run _ _ _ tt (set_fs s1 k)) by (apply on_fs_done; by apply ilock_run).
  rewrite (wrap_id 32 len) by (unfold in_u; lia).
  rewrite (bind_run _ _ _ (Ok bs) (set_fs s2 k)) by exact (on_fs_done (Some i) (set_fs s1 k) _ _ _ E).
  rewrite Hlen, bind_uadd by lia. unfold set_offset. rewrite bind_assoc, bind_get.
  change (f_arcs (kfs (set_fs s2 k))) with (f_arcs (kfs k)). rewrite Ha. unfold put_arcs. rewrite bind_modify.
  fold f'. change (set_kfs _ (set_fs s2 k)) with k2.
  erewrite bind_run; [reflexivity|]. apply on_fs_done. exact (iunlock_run ip s2 _ Hs1).
Qed.

(** A file that a process has open. *)
Record opened k (i : nat) (fd ar n : Z) (f : VFile) (ip : Inode) : Prop := {
  op_fd : ∃ p, procs k !! i = Some p ∧ open_files (Proc.data p) !! Z.to_nat fd = Some (Some ar);
  op_arc : f_arcs (kfs k) !! ar = Some (n, f);
  op_type : ftype f = FInode;
  op_inode : vinode f = Some ip
}.

Lemma sys_read_file k i root fd addr len f ip ar n e d heap fr pos :
  caller k i root fd addr len f → opened k i fd ar n f ip → readable f = true →
  at_rest dv (fs_view (Some i) k) e d → idatas (f_fs (kfs k)) !! index ip = Some d →
  0 < len → FsFile.mapped (dinode d) (offset f) len → offset f + len ≤ dsize (dinode d) →
  space heap root (kmem k) fr pos → 0 ≤ addr → addr + len ≤ MAXVA → mapped root (kmem k) addr len →
  ∃ k' bs, sys_read dv pipe_chan con_chan uart_chan i k = Done (Ends (Some len), k') ∧ procs k' = procs k ∧
    stored root (kmem k) addr bs (kmem k') ∧ Z.of_nat (length bs) = len ∧
    (∀ x, 0 ≤ x < len → bs !! Z.to_nat x = disk_byte e (dinode d) (offset f + x)).
Proof.
  intros [(pr & ws & a & c & Hpr & Hpt & Hkd & Hal & Hws & W0 & W1 & W2 & Hfd & _)] [(p' & Hp' & Hfd') Ha Hty Hip]
    Hrd Hr Hs Hl Hmap Hsz Sp H0 Hmax Hum.
  rewrite Hpr in Hp'. injection Hp' as <-. rewrite Hfd in Hfd'. injection Hfd' as ->.
  assert (pdata_of (Some i) k ≫= pagetable = Some root) as Hpg.
  { cbn [pdata_of mbind option_bind]. by rewrite Hpr. }
  destruct (read_inode_run k i ar n f ip e d heap root fr pos addr len) as (k' & bs & E & Hpr' & St & _ & _ & Hlen & Hbs);
    [done..|].
  exists k', bs. split_and!; [|done..]. unfold sys_read.
  mstep (arg_run k i pr ws 0 fd Hpr Hal Hws ltac:(lia) W0). unfold file_at.
  rewrite (bind_run _ _ _ ar k); [|by mstep (data_at_run k i pr Hpr); rewrite Hfd].
  mstep (arg_run k i pr ws 1 addr Hpr Hal Hws ltac:(lia) W1).
  mstep (arg_run k i pr ws 2 _ Hpr Hal Hws ltac:(lia) W2).
  unfold vfile_read, arc_get. rewrite !bind_assoc, bind_get, Ha, bind_ret_l, Hrd. cbn [negb].
  rewrite Hty, bind_assoc. mstep E. done.
Qed.

(** What a write leaves alone is enough for the next call of another process. *)
Lemma caller_kept k k' i root fd addr len f ip ar' n' ar n f2 :
  same_kernel k k' → f_arcs (kfs k') = <[ar := (n, f2)]> (f_arcs (kfs k)) → ar ≠ ar' →
  opened k i fd ar' n' f ip → caller k i root fd addr len f → caller k' i root fd addr len f.
Proof.
  intros [Hp Hm _ _ _] Ha Hne [(p' & Hp' & Hfd') _ _ _]
    [(pr & ws & a & c & H1 & H2 & H3 & H4 & H5 & H6 & H7 & H8 & H9 & H10)].
  rewrite H1 in Hp'. injection Hp' as <-. rewrite H9 in Hfd'. injection Hfd' as ->.
  split. exists pr, ws, ar', c. rewrite Hp, Hm, Ha. split_and!; [done..|]. by rewrite lookup_insert_ne.
Qed.
Lemma opened_kept k k' i fd ar' n' f ip ar n f2 :
  same_kernel k k' → f_arcs (kfs k') = <[ar := (n, f2)]> (f_arcs (kfs k)) → ar ≠ ar' →
  opened k i fd ar' n' f ip → opened k' i fd ar' n' f ip.
Proof.
  intros [Hp _ _ _ _] Ha Hne [H1 H2 H3 H4]. split; [by rewrite Hp| |done|done].
  by rewrite Ha, lookup_insert_ne.
Qed.
Lemma at_rest_view k i j e d : at_rest dv (fs_view (Some i) k) e d → at_rest dv (fs_view (Some j) k) e d.
Proof.
  intros [[A1 A2 A3 A4 A5 A6] B C Hd Hn Hi F Hs]. split; [by split|done|by destruct C; split|done|done|done| |done].
  by destruct F; split.
Qed.

End call.

(** ** Two processes and a file of the small disk *)
#[local] Instance bcr : BufferCache tdev (bcache tdev) 1 := bcache_BufferCache 1.
(** Open for reading at byte 513. *)
Definition file5_reader : VFile := mkVFile FInode true false None (Some ip5) 513 0.
Definition files_kst (root tf0 tf1 : Z) (m : mem) : kst (filest (bcache tdev)) :=
  mkKst (mkMach [] ∅) m [ipc_proc 0 root tf0 4 100; ipc_proc 1 root tf1 3 200] 2 None [] [] 0
    (mkFilest fs2 ∅ {[100 := (1, file5); 200 := (1, file5_reader)]}
      (mkTty Uart.new Console.new [] [] 0 0 0 m None false) uninit).

Lemma inode5_mapped off n : 0 ≤ off → off + n ≤ 2048 → FsFile.mapped inode5 off n.
Proof.
  intros H0 H1. split; [done|]. intros x Hx. split; [change (NDIRECT * BSIZE) with 12288; lia|].
  unfold byte_block. change BSIZE with 1024. pose proof (Z.div_lt_upper_bound x 1024 2 ltac:(lia) ltac:(lia)).
  pose proof (Z.div_pos x 1024 ltac:(lia) ltac:(lia)).
  assert (x / 1024 = 0 ∨ x / 1024 = 1) as [-> | ->] by lia; by eexists.
Qed.

