(* ===== verification/VgaData.v ===== *)
(** * The tables of the display driver

    [VGA_CONF_80X25], [FONT_8X16] and [DEFAULT_PALETTE] of [driver/vga.rs],
    in the rows of the source: a row of sixteen bytes is one hexadecimal
    number, first byte first. *)
From S2P Require Import Prelude.

(** The register values of the 80 by 25 text mode: miscellaneous output,
    sequencer, CRT controller, graphics controller, attribute controller. *)
Definition VGA_CONF_80X25 : list (list Z) :=
  [ [0x67];
    [0x03; 0x00; 0x03; 0x00; 0x02];
    [0x5F; 0x4F; 0x50; 0x82; 0x55; 0x81; 0xBF; 0x1F; 0x00; 0x4F; 0x0D; 0x0E; 0x00; 0x00; 0x00;
     0x50; 0x9C; 0x0E; 0x8F; 0x28; 0x1F; 0x96; 0xB9; 0xA3; 0xFF];
    [0x00; 0x00; 0x00; 0x00; 0x00; 0x10; 0x0E; 0x00; 0xFF];
    [0x00; 0x01; 0x02; 0x03; 0x04; 0x05; 0x14; 0x07; 0x38; 0x39; 0x3A; 0x3B; 0x3C; 0x3D; 0x3E;
     0x3F; 0x0C; 0x00; 0x0F; 0x08; 0x00] ].

(** A row of sixteen bytes of the source, written as one number. *)
Definition row (w : Z) : list Z := reverse (le_bytes 16 w).

Definition FONT_8X16 : list Z :=
  [
   0x00000000000000000000000000000000;
   0x00007E81A58181BD9981817E00000000;
   0x00007EFFDBFFFFC3E7FFFF7E00000000;
   0x000000006CFEFEFEFE7C381000000000;
   0x0000000010387CFE7C38100000000000;
   0x000000183C3CE7E7E799183C00000000;
   0x000000183C7EFFFF7E18183C00000000;
   0x000000000000183C3C18000000000000;
   0xFFFFFFFFFFFFE7C3C3E7FFFFFFFFFFFF;
   0x00000000003C664242663C0000000000;
   0xFFFFFFFFFFC399BDBD99C3FFFFFFFFFF;
   0x00001E0E1A3278CCCCCCCC7800000000;
   0x00003C666666663C187E181800000000;
   0x00003F333F3030303070F0E000000000;
   0x00007F637F6363636367E7E6C0000000;
   0x0000001818DB3CE73CDB181800000000;
   0x0080C0E0F0F8FEF8F0E0C08000000000;
   0x0002060E1E3EFE3E1E0E060200000000;
   0x0000183C7E181818187E3C1800000000;
   0x00006666666666666600666600000000;
   0x00007FDBDBDB7B1B1B1B1B1B00000000;
   0x007CC660386CC6C66C380CC67C000000;
   0x0000000000000000FEFEFEFE00000000;
   0x0000183C7E181818187E3C187E000000;
   0x0000183C7E1818181818181800000000;
   0x0000181818181818187E3C1800000000;
   0x0000000000180CFE0C18000000000000;
   0x00000000003060FE6030000000000000;
   0x0000000000C0C0C0C0FE000000000000;
   0x0000000000286CFE6C28000000000000;
   0x000000001038387C7CFEFE0000000000;
   0x00000000FEFE7C7C3838100000000000;
   0x00000000000000000000000000000000;
   0x0000183C3C3C18181800181800000000;
   0x00666666240000000000000000000000;
   0x0000006C6CFE6C6C6CFE6C6C00000000;
   0x18187CC6C2C07C0686C67C1818000000;
   0x00000000C2C60C183060C68600000000;
   0x0000386C6C3876DCCCCCCC7600000000;
   0x00303030600000000000000000000000;
   0x00000C18303030303030180C00000000;
   0x000030180C0C0C0C0C0C183000000000;
   0x0000000000663CFF3C66000000000000;
   0x000000000018187E1818000000000000;
   0x00000000000000000018181830000000;
   0x00000000000000FE0000000000000000;
   0x00000000000000000000181800000000;
   0x0000000002060C183060C08000000000;
   0x00007CC6C6CED6D6E6C6C67C00000000;
   0x00001838781818181818187E00000000;
   0x00007CC6060C183060C0C6FE00000000;
   0x00007CC606063C060606C67C00000000;
   0x00000C1C3C6CCCFE0C0C0C1E00000000;
   0x0000FEC0C0C0FC0E0606C67C00000000;
   0x00003860C0C0FCC6C6C6C67C00000000;
   0x0000FEC606060C183030303000000000;
   0x00007CC6C6C67CC6C6C6C67C00000000;
   0x00007CC6C6C67E0606060C7800000000;
   0x00000000181800000018180000000000;
   0x00000000181800000018183000000000;
   0x000000060C18306030180C0600000000;
   0x000000000000FE0000FE000000000000;
   0x0000006030180C060C18306000000000;
   0x00007CC6C60C18181800181800000000;
   0x0000007CC6C6DEDEDEDCC07C00000000;
   0x000010386CC6C6FEC6C6C6C600000000;
   0x0000FC6666667C66666666FC00000000;
   0x00003C66C2C0C0C0C0C2663C00000000;
   0x0000F86C6666666666666CF800000000;
   0x0000FE6662687868606266FE00000000;
   0x0000FE6662687868606060F000000000;
   0x00003C66C2C0C0DEC6C6663A00000000;
   0x0000C6C6C6C6FEC6C6C6C6C600000000;
   0x00003C18181818181818183C00000000;
   0x00001E0C0C0C0C0CCCCCCC7800000000;
   0x0000E6666C6C78786C6666E600000000;
   0x0000F06060606060606266FE00000000;
   0x0000C6EEFEFED6C6C6C6C6C600000000;
   0x0000C6E6F6FEDECEC6C6C6C600000000;
   0x0000386CC6C6C6C6C6C66C3800000000;
   0x0000FC6666667C60606060F000000000;
   0x00007CC6C6C6C6C6C6D6DE7C0C0E0000;
   0x0000FC6666667C6C666666E600000000;
   0x00007CC6C660380C06C6C67C00000000;
   0x00007E7E5A1818181818183C00000000;
   0x0000C6C6C6C6C6C6C6C6C67C00000000;
   0x0000C6C6C6C6C6C6C66C381000000000;
   0x0000C6C6C6C6C6D6D6FE6C6C00000000;
   0x0000C6C66C6C38386C6CC6C600000000;
   0x0000666666663C181818183C00000000;
   0x0000FEC6860C183060C2C6FE00000000;
   0x00003C30303030303030303C00000000;
   0x00000080C0E070381C0E060200000000;
   0x00003C0C0C0C0C0C0C0C0C3C00000000;
   0x10386CC6000000000000000000000000;
   0x00000000000000000000000000FF0000;
   0x30301800000000000000000000000000;
   0x0000000000780C7CCCCCCC7600000000;
   0x0000E06060786C66666666DC00000000;
   0x00000000007CC6C0C0C0C67C00000000;
   0x00001C0C0C3C6CCCCCCCCC7600000000;
   0x00000000007CC6FEC0C0C67C00000000;
   0x0000386C6460F060606060F000000000;
   0x000000000076CCCCCCCCCC7C0CCC7800;
   0x0000E060606C7666666666E600000000;
   0x00001818003818181818183C00000000;
   0x00000606000E06060606060666663C00;
   0x0000E06060666C78786C66E600000000;
   0x00003818181818181818183C00000000;
   0x0000000000ECFED6D6D6D6D600000000;
   0x0000000000DC66666666666600000000;
   0x00000000007CC6C6C6C6C67C00000000;
   0x0000000000DC66666666667C6060F000;
   0x000000000076CCCCCCCCCC7C0C0C1E00;
   0x0000000000DC7662606060F000000000;
   0x00000000007CC660380CC67C00000000;
   0x0000103030FC30303030361C00000000;
   0x0000000000CCCCCCCCCCCC7600000000;
   0x000000000066666666663C1800000000;
   0x0000000000C6C6C6D6D6FE6C00000000;
   0x0000000000C66C3838386CC600000000;
   0x0000000000C6C6C6C6C6C67E060CF800;
   0x0000000000FECC183060C6FE00000000;
   0x00000E18181870181818180E00000000;
   0x00001818181800181818181800000000;
   0x0000701818180E181818187000000000;
   0x000076DC000000000000000000000000;
   0x0000000010386CC6C6C6FE0000000000;
   0x00003C66C2C0C0C0C2663C0C067C0000;
   0x0000CCCC00CCCCCCCCCCCC7600000000;
   0x000C1830007CC6FEC0C0C67C00000000;
   0x0010386C00780C7CCCCCCC7600000000;
   0x0000CCCC00780C7CCCCCCC7600000000;
   0x0060301800780C7CCCCCCC7600000000;
   0x00386C3800780C7CCCCCCC7600000000;
   0x000000003C666060663C0C063C000000;
   0x0010386C007CC6FEC0C0C67C00000000;
   0x0000C6C6007CC6FEC0C0C67C00000000;
   0x00603018007CC6FEC0C0C67C00000000;
   0x00006666003818181818183C00000000;
   0x00183C66003818181818183C00000000;
   0x00603018003818181818183C00000000;
   0x00C6C610386CC6C6FEC6C6C600000000;
   0x386C3800386CC6C6FEC6C6C600000000;
   0x18306000FE66607C606066FE00000000;
   0x0000000000CC76367ED8D86E00000000;
   0x00003E6CCCCCFECCCCCCCCCE00000000;
   0x0010386C007CC6C6C6C6C67C00000000;
   0x0000C6C6007CC6C6C6C6C67C00000000;
   0x00603018007CC6C6C6C6C67C00000000;
   0x003078CC00CCCCCCCCCCCC7600000000;
   0x0060301800CCCCCCCCCCCC7600000000;
   0x0000C6C600C6C6C6C6C6C67E060C7800;
   0x00C6C600386CC6C6C6C66C3800000000;
   0x00C6C600C6C6C6C6C6C6C67C00000000;
   0x0018183C66606060663C181800000000;
   0x00386C6460F060606060E6FC00000000;
   0x000066663C187E187E18181800000000;
   0x00F8CCCCF8C4CCDECCCCCCC600000000;
   0x000E1B1818187E1818181818D8700000;
   0x0018306000780C7CCCCCCC7600000000;
   0x000C1830003818181818183C00000000;
   0x00183060007CC6C6C6C6C67C00000000;
   0x0018306000CCCCCCCCCCCC7600000000;
   0x000076DC00DC66666666666600000000;
   0x76DC00C6E6F6FEDECEC6C6C600000000;
   0x003C6C6C3E007E000000000000000000;
   0x00386C6C38007C000000000000000000;
   0x0000303000303060C0C6C67C00000000;
   0x000000000000FEC0C0C0C00000000000;
   0x000000000000FE060606060000000000;
   0x00C0C0C2C6CC183060CE93060C1F0000;
   0x00C0C0C2C6CC183066CE9A3F060F0000;
   0x00001818001818183C3C3C1800000000;
   0x00000000003366CC6633000000000000;
   0x0000000000CC663366CC000000000000;
   0x11441144114411441144114411441144;
   0x55AA55AA55AA55AA55AA55AA55AA55AA;
   0xDD77DD77DD77DD77DD77DD77DD77DD77;
   0x18181818181818181818181818181818;
   0x18181818181818F81818181818181818;
   0x1818181818F818F81818181818181818;
   0x36363636363636F63636363636363636;
   0x00000000000000FE3636363636363636;
   0x0000000000F818F81818181818181818;
   0x3636363636F606F63636363636363636;
   0x36363636363636363636363636363636;
   0x0000000000FE06F63636363636363636;
   0x3636363636F606FE0000000000000000;
   0x36363636363636FE0000000000000000;
   0x1818181818F818F80000000000000000;
   0x00000000000000F81818181818181818;
   0x181818181818181F0000000000000000;
   0x18181818181818FF0000000000000000;
   0x00000000000000FF1818181818181818;
   0x181818181818181F1818181818181818;
   0x00000000000000FF0000000000000000;
   0x18181818181818FF1818181818181818;
   0x18181818181F181F1818181818181818;
   0x36363636363636373636363636363636;
   0x363636363637303F0000000000000000;
   0x00000000003F30373636363636363636;
   0x3636363636F700FF0000000000000000;
   0x0000000000FF00F73636363636363636;
   0x36363636363730373636363636363636;
   0x0000000000FF00FF0000000000000000;
   0x3636363636F700F73636363636363636;
   0x1818181818FF00FF0000000000000000;
   0x36363636363636FF0000000000000000;
   0x0000000000FF00FF1818181818181818;
   0x00000000000000FF3636363636363636;
   0x363636363636363F0000000000000000;
   0x18181818181F181F0000000000000000;
   0x00000000001F181F1818181818181818;
   0x000000000000003F3636363636363636;
   0x36363636363636FF3636363636363636;
   0x1818181818FF18FF1818181818181818;
   0x18181818181818F80000000000000000;
   0x000000000000001F1818181818181818;
   0xFFFFFFFFFFFFFFFFFFFFFFFFFFFFFFFF;
   0x00000000000000FFFFFFFFFFFFFFFFFF;
   0xF0F0F0F0F0F0F0F0F0F0F0F0F0F0F0F0;
   0x0F0F0F0F0F0F0F0F0F0F0F0F0F0F0F0F;
   0xFFFFFFFFFFFFFF000000000000000000;
   0x000000000076DCD8D8D8DC7600000000;
   0x0000000000FCC6FCC6C6FCC0C0C00000;
   0x0000FEC6C6C0C0C0C0C0C0C000000000;
   0x0000000080FE6C6C6C6C6C6C00000000;
   0x000000FEC66030183060C6FE00000000;
   0x00000000007ED8D8D8D8D87000000000;
   0x0000000066666666667C6060C0000000;
   0x0000000076DC18181818181800000000;
   0x0000007E183C6666663C187E00000000;
   0x000000386CC6C6FEC6C66C3800000000;
   0x0000386CC6C6C66C6C6C6CEE00000000;
   0x00001E30180C3E666666663C00000000;
   0x00000000007EDBDBDB7E000000000000;
   0x00000003067ECFDBF37E60C000000000;
   0x00001C3060607C606060301C00000000;
   0x0000007CC6C6C6C6C6C6C6C600000000;
   0x00000000FE0000FE0000FE0000000000;
   0x0000000018187E18180000FF00000000;
   0x00000030180C060C1830007E00000000;
   0x0000000C18306030180C007E00000000;
   0x00000E1B1B1818181818181818181818;
   0x1818181818181818D8D8D87000000000;
   0x000000001818007E0018180000000000;
   0x000000000076DC0076DC000000000000;
   0x00386C6C380000000000000000000000;
   0x00000000000000181800000000000000;
   0x00000000000000001800000000000000;
   0x000F0C0C0C0C0CEC6C6C3C1C00000000;
   0x00D86C6C6C6C6C000000000000000000;
   0x0070983060C8F8000000000000000000;
   0x000000007C7C7C7C7C7C7C0000000000;
   0x00000000000000000000000000000000] ≫= row.

Definition DEFAULT_PALETTE : list Z :=
  [
   0x00000000002a002a00002a2a2a00002a;
   0x002a2a15002a2a2a15151515153f153f;
   0x15153f3f3f15153f153f3f3f153f3f3f;
   0x0000000505050808080b0b0b0e0e0e11;
   0x11111414141818181c1c1c2020202424;
   0x242828282d2d2d3232323838383f3f3f;
   0x00003f10003f1f003f2f003f3f003f3f;
   0x002f3f001f3f00103f00003f10003f1f;
   0x003f2f003f3f002f3f001f3f00103f00;
   0x003f00003f10003f1f003f2f003f3f00;
   0x2f3f001f3f00103f1f1f3f271f3f2f1f;
   0x3f371f3f3f1f3f3f1f373f1f2f3f1f27;
   0x3f1f1f3f271f3f2f1f3f371f3f3f1f37;
   0x3f1f2f3f1f273f1f1f3f1f1f3f271f3f;
   0x2f1f3f371f3f3f1f373f1f2f3f1f273f;
   0x2d2d3f312d3f362d3f3a2d3f3f2d3f3f;
   0x2d3a3f2d363f2d313f2d2d3f312d3f36;
   0x2d3f3a2d3f3f2d3a3f2d363f2d313f2d;
   0x2d3f2d2d3f312d3f362d3f3a2d3f3f2d;
   0x3a3f2d363f2d313f00001c07001c0e00;
   0x1c15001c1c001c1c00151c000e1c0007;
   0x1c00001c07001c0e001c15001c1c0015;
   0x1c000e1c00071c00001c00001c07001c;
   0x0e001c15001c1c00151c000e1c00071c;
   0x0e0e1c110e1c150e1c180e1c1c0e1c1c;
   0x0e181c0e151c0e111c0e0e1c110e1c15;
   0x0e1c180e1c1c0e181c0e151c0e111c0e;
   0x0e1c0e0e1c110e1c150e1c180e1c1c0e;
   0x181c0e151c0e111c14141c16141c1814;
   0x1c1a141c1c141c1c141a1c14181c1416;
   0x1c14141c16141c18141c1a141c1c141a;
   0x1c14181c14161c14141c14141c16141c;
   0x18141c1a141c1c141a1c14181c14161c;
   0x0000100400100800100c001010001010;
   0x000c1000081000041000001004001008;
   0x00100c001010000c1000081000041000;
   0x00100000100400100800100c00101000;
   0x0c100008100004100808100a08100c08;
   0x100e081010081010080e10080c10080a;
   0x100808100a08100c08100e081010080e;
   0x10080c10080a100808100808100a0810;
   0x0c08100e081010080e10080c10080a10;
   0x0b0b100c0b100d0b100f0b10100b1010;
   0x0b0f100b0d100b0c100b0b100c0b100d;
   0x0b100f0b10100b0f100b0d100b0c100b;
   0x0b100b0b100c0b100d0b100f0b10100b;
   0x0f100b0d100b0c100000000000000000;
   0x00000000000000000000000000000000] ≫= row.
