(* ===== verification/Vga.v ===== *)
(** * The display driver

    [init_vga] of [driver/vga.rs]: it finds the display card in the PCI
    configuration space, places its two windows, programs the 80 by 25 text
    mode, loads palette and font and fills the screen.

    The card is not part of the kernel. The code runs over an interface of
    bus accesses ([Bus]); what it relies on of the card, the registers a VGA
    documents, is the class [VgaCard]. *)
From S2P Require Import Prelude VgaData.

(** ** Accesses to the bus *)
Class Bus (S : Type) := {
  rd8 : Z → M S Z;
  wr8 : Z → Z → M S unit;
  rd32 : Z → M S Z;
  wr32 : Z → Z → M S unit;
}.

(** [t[i]] on a slice. *)
Definition at_index {S} (t : list Z) (i : Z) : M S Z :=
  unwrap (t !! Z.to_nat i) "index out of bounds".

Definition fb_base : Z := 0x50000000.
Definition dev_base : Z := 0x30008000.

Definition conf (k : nat) : list Z := nth k VGA_CONF_80X25 [].

(** ** The driver *)
Section driver.
Context {S : Type} `{Bus S}.

(** The size of a window, from a base address register after all ones have
    been written to it. *)
Definition bar_size (reg : Z) : M S Z :=
  wr32 (dev_base + 4 * reg) 0xFFFFFFFF ;;
  v ← rd32 (dev_base + 4 * reg);
  mret (Z.lor (unot 32 v) 0xF + 1).

Definition pci_configure : M S Z :=
  fb_size ← bar_size 4;
  let io_base := fb_base + fb_size in
  io_size ← bar_size 6;
  wr32 (dev_base + 4 * 4) (Z.lor (wrap 32 fb_base) 8) ;;
  wr32 (dev_base + 4 * 6) (Z.lor (wrap 32 io_base) 8) ;;
  cmd ← rd32 (dev_base + 4 * 1);
  wr32 (dev_base + 4 * 1) (Z.lor cmd 0x0002) ;;
  mret io_base.

Section ports.
Context (port0300 : Z).

(** A file of registers behind an index port and the data port after it. *)
Definition write_indexed (index : Z) (t : list Z) : M S unit :=
  for_each (seqZ 0 (Z.of_nat (length t))) (λ i,
    wr8 (port0300 + index) (wrap 8 i) ;;
    v ← at_index t i;
    wr8 (port0300 + (index + 1)) v).

Definition write_misc : M S unit :=
  v ← at_index (conf 0) 0;
  wr8 (port0300 + 0xC2) v.

Definition unlock_crtc : M S unit :=
  wr8 (port0300 + 0xD4) 0x03 ;;
  v ← rd8 (port0300 + 0xD5);
  wr8 (port0300 + 0xD5) (Z.lor v 0x80) ;;
  wr8 (port0300 + 0xD4) 0x11 ;;
  w ← rd8 (port0300 + 0xD5);
  wr8 (port0300 + 0xD5) (Z.land w (unot 8 0x80)).

Definition write_ac : M S unit :=
  for_each (seqZ 0 (Z.of_nat (length (conf 4)))) (λ i,
    wr8 (port0300 + 0xDA) 0 ;;
    wr8 (port0300 + 0xC0) (wrap 8 i) ;;
    v ← at_index (conf 4) i;
    wr8 (port0300 + 0xC0) v) ;;
  wr8 (port0300 + 0xDA) 0 ;;
  wr8 (port0300 + 0xC0) 0x20.

Definition write_palette : M S unit :=
  wr8 (port0300 + 0xC6) 0xFF ;;
  wr8 (port0300 + 0xC8) 0 ;;
  for_each DEFAULT_PALETTE (λ i, wr8 (port0300 + 0xC9) i).

(** One register through its index port. *)
Definition get_indexed (index i : Z) : M S Z :=
  wr8 (port0300 + index) i ;; rd8 (port0300 + (index + 1)).
Definition put_indexed (index i v : Z) : M S unit :=
  wr8 (port0300 + index) i ;; wr8 (port0300 + (index + 1)) v.

(** The registers for access to one plane, saved and changed. *)
Definition font_access : M S (Z * Z * Z * Z * Z) :=
  seq2 ← get_indexed 0xC4 2;
  seq4 ← get_indexed 0xC4 4;
  wr8 (port0300 + 0xC5) (Z.lor seq4 0x04) ;;
  gc4 ← get_indexed 0xCE 4;
  gc5 ← get_indexed 0xCE 5;
  wr8 (port0300 + 0xCF) (Z.land gc5 (unot 8 0x10)) ;;
  gc6 ← get_indexed 0xCE 6;
  wr8 (port0300 + 0xCF) (Z.land gc6 (unot 8 0x02)) ;;
  let p := Z.land 2 3 in
  let pmask := ushl 8 1 p in
  put_indexed 0xCE 4 p ;;
  put_indexed 0xC4 2 pmask ;;
  mret (seq2, seq4, gc4, gc5, gc6).

Definition restore_access (saved : Z * Z * Z * Z * Z) : M S unit :=
  let '(seq2, seq4, gc4, gc5, gc6) := saved in
  put_indexed 0xC4 2 seq2 ;;
  put_indexed 0xC4 4 seq4 ;;
  put_indexed 0xCE 4 gc4 ;;
  put_indexed 0xCE 5 gc5 ;;
  put_indexed 0xCE 6 gc6.
End ports.

(** The glyphs; [buf] is the rest of the font, a slice. *)
Fixpoint write_font (glyphs : list Z) (buf : list Z) : M S unit :=
  match glyphs with
  | [] => mret tt
  | i :: glyphs =>
    for_each (seqZ 0 16) (λ j, v ← at_index buf j; wr8 (fb_base + (i * 32 + j)) v) ;;
    assert (16 <=? Z.of_nat (length buf)) "range start index out of range" ;;
    write_font glyphs (drop 16 buf)
  end.

Definition fill_screen : M S unit :=
  for_each (seqZ 0 (80 * 25)) (λ i,
    wr8 (fb_base + i * 2) 0x68 ;;
    wr8 (fb_base + (i * 2 + 1)) 0x7).

Definition init_vga : M S unit :=
  v ← rd32 (dev_base + 4 * 2);
  let pci_class := Z.shiftr v 8 in
  if negb (pci_class =? 0x030000) then panic "virtio-vga was not found" else
  io_base ← pci_configure;
  let port0300 := io_base + (0x400 - 0xC0) in
  write_misc port0300 ;;
  write_indexed port0300 0xC4 (conf 1) ;;
  unlock_crtc port0300 ;;
  write_indexed port0300 0xD4 (conf 2) ;;
  write_indexed port0300 0xCE (conf 3) ;;
  write_ac port0300 ;;
  write_palette port0300 ;;
  saved ← font_access port0300;
  write_font (seqZ 0 256) FONT_8X16 ;;
  restore_access port0300 saved ;;
  fill_screen.
End driver.

(** ** The card

    What a VGA documents of its registers: index and data ports, the bits
    that are implemented, the write protection of the CRT controller, the
    attribute controller's single port, which takes an index and a value in
    turn (a read of input status 1 makes the next write an index), the colour
    registers, three components each, with an index that advances. A write to
    the display memory is recorded with the sequencer and graphics registers
    that govern it. *)
Record bar := Bar { bar_len : Z; bar_flags : Z; bar_addr : Z }.
Record pci := Pci { class_rev : Z; command : Z; bar0 : bar; bar2 : bar }.
Record regfile := Regs { ix : Z; regs : list Z }.
Record attr := Attr { ac_data : bool; ac_ix : Z; ac_regs : list Z }.
Record colours := Colours { pel_mask : Z; dac_ix : Z; dac_part : list Z; dac : list (list Z) }.
Record fb_write := FbWrite { fb_off : Z; fb_val : Z; fb_seq : list Z; fb_gc : list Z }.
Record card := Card {
  cfg : pci; misc : Z; feature : Z; vseq : regfile; crtc : regfile; gc : regfile;
  ac : attr; pal : colours; fb : list fb_write }.

Definition seq_mask : list Z := [0x03; 0x3D; 0x0F; 0x3F; 0x0E].
Definition gc_mask : list Z := [0x0F; 0x0F; 0x0F; 0x1F; 0x03; 0x7B; 0x0F; 0x0F; 0xFF].
Definition ac_mask : list Z :=
  replicate 16 0x3F ++ [0xEF; 0xFF; 0x3F; 0x0F; 0x0F].

(** A register keeps the bits it has. *)
Definition store_masked (mask : list Z) (i v : Z) (l : list Z) : list Z :=
  <[Z.to_nat i := Z.land v (nth (Z.to_nat i) mask 0)]> l.

(** Bit 7 of register [0x11] protects registers 0 to 7 (but bit 4 of 7). *)
Definition store_crtc (i v : Z) (l : list Z) : list Z :=
  if Z.testbit (nth 0x11 l 0) 7 && (i <=? 7) then
    if i =? 7
    then <[7%nat := Z.lor (Z.land (nth 7 l 0) (unot 8 0x10)) (Z.land v 0x10)]> l
    else l
  else <[Z.to_nat i := v]> l.

Definition set_ix (r : regfile) (i : Z) : regfile := Regs i (regs r).
Definition set_regs (f : Z → Z → list Z → list Z) (r : regfile) (v : Z) : regfile :=
  Regs (ix r) (f (ix r) v (regs r)).

Definition ac_write (a : attr) (v : Z) : attr :=
  if ac_data a
  then Attr false (ac_ix a) (store_masked ac_mask (Z.land (ac_ix a) 0x1F) v (ac_regs a))
  else Attr true (Z.land v 0x3F) (ac_regs a).

Definition dac_write (d : colours) (v : Z) : colours :=
  let part := dac_part d ++ [Z.land v 0x3F] in
  if Nat.eqb (length part) 3
  then Colours (pel_mask d) ((dac_ix d + 1) mod 256) [] (<[Z.to_nat (dac_ix d) := part]> (dac d))
  else Colours (pel_mask d) (dac_ix d) part (dac d).

Definition port_write (p v : Z) (c : card) : option card :=
  let '(Card g mi fe s cr gr a d f) := c in
  match p with
  | 0x3C0 => Some (Card g mi fe s cr gr (ac_write a v) d f)
  | 0x3C2 => Some (Card g v fe s cr gr a d f)
  | 0x3C4 => Some (Card g mi fe (set_ix s (Z.land v 7)) cr gr a d f)
  | 0x3C5 => Some (Card g mi fe (set_regs (store_masked seq_mask) s v) cr gr a d f)
  | 0x3C6 => Some (Card g mi fe s cr gr a (Colours v (dac_ix d) (dac_part d) (dac d)) f)
  | 0x3C8 => Some (Card g mi fe s cr gr a (Colours (pel_mask d) v [] (dac d)) f)
  | 0x3C9 => Some (Card g mi fe s cr gr a (dac_write d v) f)
  | 0x3CE => Some (Card g mi fe s cr (set_ix gr (Z.land v 0x0F)) a d f)
  | 0x3CF => Some (Card g mi fe s cr (set_regs (store_masked gc_mask) gr v) a d f)
  | 0x3D4 => Some (Card g mi fe s (set_ix cr v) gr a d f)
  | 0x3D5 => Some (Card g mi fe s (set_regs store_crtc cr v) gr a d f)
  | 0x3DA => Some (Card g mi v s cr gr a d f)
  | _ => None
  end.

Definition port_read (p : Z) (c : card) : option Z :=
  match p with
  | 0x3C5 => regs (vseq c) !! Z.to_nat (ix (vseq c))
  | 0x3CF => regs (gc c) !! Z.to_nat (ix (gc c))
  | 0x3D5 => regs (crtc c) !! Z.to_nat (ix (crtc c))
  | _ => None
  end.

(** The windows answer when memory accesses are enabled. *)
Definition in_window (b : bar) (a : Z) : bool :=
  (bar_addr b <=? a) && (a <? bar_addr b + bar_len b).
Definition port_of (g : pci) (a : Z) : option Z :=
  if Z.testbit (command g) 1 && in_window (bar2 g) a
  then Some (a - (bar_addr (bar2 g) + 0x400) + 0x3C0) else None.
Definition fb_of (g : pci) (a : Z) : option Z :=
  if Z.testbit (command g) 1 && in_window (bar0 g) a
  then Some (a - bar_addr (bar0 g)) else None.

Definition card_wr8 (a v : Z) (c : card) : option card :=
  match fb_of (cfg c) a with
  | Some off =>
    let '(Card g mi fe s cr gr at_ d f) := c in
    Some (Card g mi fe s cr gr at_ d (f ++ [FbWrite off v (regs s) (regs gr)]))
  | None => p ← port_of (cfg c) a; port_write p v c
  end.
Definition card_rd8 (a : Z) (c : card) : option Z :=
  p ← port_of (cfg c) a; port_read p c.

(** A base address register holds the bits above the size of its window. *)
Definition bar_write (b : bar) (v : Z) : bar :=
  Bar (bar_len b) (bar_flags b) (Z.land v (unot 32 (bar_len b - 1))).

Definition cfg_write (r v : Z) (g : pci) : option pci :=
  match r with
  | 1 => Some (Pci (class_rev g) v (bar0 g) (bar2 g))
  | 4 => Some (Pci (class_rev g) (command g) (bar_write (bar0 g) v) (bar2 g))
  | 6 => Some (Pci (class_rev g) (command g) (bar0 g) (bar_write (bar2 g) v))
  | _ => None
  end.
Definition cfg_read (r : Z) (g : pci) : option Z :=
  match r with
  | 1 => Some (command g)
  | 2 => Some (class_rev g)
  | 4 => Some (Z.lor (bar_addr (bar0 g)) (bar_flags (bar0 g)))
  | 6 => Some (Z.lor (bar_addr (bar2 g)) (bar_flags (bar2 g)))
  | _ => None
  end.
Definition set_cfg (c : card) (g : pci) : card :=
  let '(Card _ mi fe s cr gr a d f) := c in Card g mi fe s cr gr a d f.
Definition card_wr32 (a v : Z) (c : card) : option card :=
  set_cfg c <$> cfg_write ((a - dev_base) / 4) v (cfg c).
Definition card_rd32 (a : Z) (c : card) : option Z :=
  cfg_read ((a - dev_base) / 4) (cfg c).

(** What the driver relies on: behind the bus is such a card. *)
Class VgaCard (S : Type) `{Bus S} := {
  view : S → card;
  wr8_card a v s c : card_wr8 a v (view s) = Some c →
    ∃ s', wr8 a v s = Done (tt, s') ∧ view s' = c;
  rd8_card a v s : card_rd8 a (view s) = Some v →
    ∃ s', rd8 a s = Done (v, s') ∧ view s' = view s;
  wr32_card a v s c : card_wr32 a v (view s) = Some c →
    ∃ s', wr32 a v s = Done (tt, s') ∧ view s' = c;
  rd32_card a v s : card_rd32 a (view s) = Some v →
    ∃ s', rd32 a s = Done (v, s') ∧ view s' = view s;
}.

(** The card alone is one. *)
#[global] Instance card_bus : Bus card := {|
  rd8 a c := if card_rd8 a c is Some v then Done (v, c) else Fault;
  wr8 a v c := if card_wr8 a v c is Some c' then Done (tt, c') else Fault;
  rd32 a c := if card_rd32 a c is Some v then Done (v, c) else Fault;
  wr32 a v c := if card_wr32 a v c is Some c' then Done (tt, c') else Fault |}.
#[global] Instance card_card : VgaCard card.
Proof. refine {| view c := c |}; cbn; intros; simplify_option_eq; eauto. Defined.
