(* ===== verification/VgaSafe.v ===== *)
(** * The display driver sets the text mode

    What [init_vga] (Vga) leaves in a card that behaves as documented, for
    every size of the card's windows and every state of its registers but
    one bit. The driver on any such bus follows its run on the card alone
    ([sim]); the run on the card is followed loop by loop. *)
From S2P Require Import Prelude VgaData Vga.

(** ** The driver on a bus and on the card *)
Section simulation.
Context {S : Type} `{VC : VgaCard S}.

Definition sim {A} (m : M S A) (m' : M card A) : Prop :=
  ∀ s, match m' (view s) with
       | Done (a, c) => ∃ s', m s = Done (a, s') ∧ view s' = c
       | Panic e => m s = Panic e
       | _ => True
       end.

Lemma sim_ret {A} (a : A) : sim (mret a) (mret a).
Proof. intros s. cbn. eauto. Qed.
Lemma sim_panic {A} e : sim (panic e : M S A) (panic e).
Proof. intros s. done. Qed.

Lemma sim_bind {A B} (m : M S A) m' (k : A → M S B) k' :
  sim m m' → (∀ a, sim (k a) (k' a)) → sim (m ≫= k) (m' ≫= k').
Proof.
  intros Hm Hk s. specialize (Hm s). unfold mbind, M_bind.
  destruct (m' (view s)) as [[a c]|e| |]; [|by rewrite Hm|done..].
  destruct Hm as (s' & -> & <-). apply Hk.
Qed.

Lemma sim_for {A} (xs : list A) (f : A → M S unit) f' :
  (∀ x, sim (f x) (f' x)) → sim (for_each xs f) (for_each xs f').
Proof.
  intros Hf. induction xs; cbn [for_each]; [apply sim_ret|]. by apply sim_bind.
Qed.

Lemma sim_unwrap {A} (o : option A) e : sim (unwrap o e) (unwrap o e).
Proof. destruct o; [apply sim_ret|apply sim_panic]. Qed.
Lemma sim_assert b e : sim (assert b e) (assert b e).
Proof. destruct b; [apply sim_ret|apply sim_panic]. Qed.

Lemma sim_wr8 a v : sim (wr8 a v) (wr8 a v).
Proof. intros s. cbn. destruct (card_wr8 _ _ _) eqn:E; [by apply wr8_card|done]. Qed.
Lemma sim_rd8 a : sim (rd8 a) (rd8 a).
Proof. intros s. cbn. destruct (card_rd8 _ _) eqn:E; [by apply rd8_card|done]. Qed.
Lemma sim_wr32 a v : sim (wr32 a v) (wr32 a v).
Proof. intros s. cbn. destruct (card_wr32 _ _ _) eqn:E; [by apply wr32_card|done]. Qed.
Lemma sim_rd32 a : sim (rd32 a) (rd32 a).
Proof. intros s. cbn. destruct (card_rd32 _ _) eqn:E; [by apply rd32_card|done]. Qed.
End simulation.

Ltac simulate :=
  repeat lazymatch goal with
  | |- sim (mret _) _ => apply sim_ret
  | |- sim (_ ≫= _) _ => apply sim_bind; [|intros]
  | |- sim (for_each _ _) _ => apply sim_for; intros
  | |- sim (wr8 _ _) _ => apply sim_wr8
  | |- sim (rd8 _) _ => apply sim_rd8
  | |- sim (wr32 _ _) _ => apply sim_wr32
  | |- sim (rd32 _) _ => apply sim_rd32
  | |- sim (unwrap _ _) _ => apply sim_unwrap
  | |- sim (assert _ _) _ => apply sim_assert
  | H : ∀ _, sim _ _ |- _ => apply H
  end.

Section driver_sim.
Context {S : Type} `{VC : VgaCard S}.

Lemma sim_font glyphs buf : sim (write_font (S := S) glyphs buf) (write_font glyphs buf).
Proof.
  revert buf. induction glyphs; intros; cbn [write_font]; unfold at_index; simulate.
Qed.

Lemma sim_restore p x : sim (restore_access (S := S) p x) (restore_access p x).
Proof. destruct x as [[[[??]?]?]?]. cbn [restore_access]. unfold put_indexed. simulate. Qed.

Lemma sim_init_vga : sim (init_vga (S := S)) init_vga.
Proof.
  unfold init_vga. apply sim_bind; [apply sim_rd32|intros v].
  destruct (negb _); [apply sim_panic|].
  unfold pci_configure, bar_size, write_misc, write_indexed, unlock_crtc, write_ac,
    write_palette, font_access, get_indexed, put_indexed, fill_screen, at_index.
  simulate; [apply sim_font|apply sim_restore].
Qed.
End driver_sim.

(** ** The windows *)
Definition window_sizes : list Z := seqZ 4 25.

Lemma sized_bar k f :
  4 ≤ k ≤ 28 → 0 ≤ f < 16 →
  Z.lor (unot 32 (Z.lor (Z.land 0xFFFFFFFF (unot 32 (2 ^ k - 1))) f)) 0xF + 1 = 2 ^ k.
Proof.
  intros Hk Hf.
  assert (Forall (λ k, Forall (λ f, Z.lor (unot 32 (Z.lor
    (Z.land 0xFFFFFFFF (unot 32 (2 ^ k - 1))) f)) 0xF + 1 = 2 ^ k) (seqZ 0 16))
    window_sizes) as HF by (apply (bool_decide_unpack _); vm_compute; exact I).
  eapply (proj1 (Forall_forall _ _)) in HF; [|apply (elem_of_seqZ 4 25 k); lia].
  eapply (proj1 (Forall_forall _ _)) in HF; [exact HF|apply elem_of_seqZ; lia].
Qed.

(** Both windows fit: the first at [fb_base], the second behind it. *)
Lemma placed_bars k0 k2 :
  4 ≤ k2 ≤ k0 → k0 ≤ 28 →
  Z.land (Z.lor (wrap 32 fb_base) 8) (unot 32 (2 ^ k0 - 1)) = fb_base
  ∧ Z.land (Z.lor (wrap 32 (fb_base + 2 ^ k0)) 8) (unot 32 (2 ^ k2 - 1)) = fb_base + 2 ^ k0.
Proof.
  intros H1 H2.
  assert (Forall (λ k0, Forall (λ k2, k2 ≤ k0 →
    Z.land (Z.lor (wrap 32 fb_base) 8) (unot 32 (2 ^ k0 - 1)) = fb_base
    ∧ Z.land (Z.lor (wrap 32 (fb_base + 2 ^ k0)) 8) (unot 32 (2 ^ k2 - 1)) = fb_base + 2 ^ k0)
    window_sizes) window_sizes) as HF by (apply (bool_decide_unpack _); vm_compute; exact I).
  eapply (proj1 (Forall_forall _ _)) in HF; [|apply (elem_of_seqZ 4 25 k0); lia].
  eapply (proj1 (Forall_forall _ _)) in HF; [apply HF; lia|apply (elem_of_seqZ 4 25 k2); lia].
Qed.

(** ** The registers *)
Section windows.
Context (k0 k2 : Z).
Context (Hk : 13 ≤ k0 ≤ 28) (Hk2 : 11 ≤ k2 ≤ k0).
Implicit Types (g : pci) (c : card).

(** The windows are where the driver puts them. *)
Definition placed g : Prop :=
  Z.testbit (command g) 1 = true
  ∧ bar_len (bar0 g) = 2 ^ k0 ∧ bar_addr (bar0 g) = fb_base
  ∧ bar_len (bar2 g) = 2 ^ k2 ∧ bar_addr (bar2 g) = fb_base + 2 ^ k0.

Lemma pci_configure_run c :
  bar_len (bar0 (cfg c)) = 2 ^ k0 → bar_len (bar2 (cfg c)) = 2 ^ k2 →
  0 ≤ bar_flags (bar0 (cfg c)) < 16 → 0 ≤ bar_flags (bar2 (cfg c)) < 16 →
  ∃ g, placed g ∧ pci_configure c = Done (fb_base + 2 ^ k0, set_cfg c g).
Proof.
  destruct c as [[cl cm [l0 f0 a0] [l2 f2 a2]] mi fe s cr gr a d f].
  cbn [cfg bar0 bar2 bar_len bar_flags]. intros -> -> H0 H2.
  destruct (placed_bars k0 k2) as [E0 E2]; [lia|lia|].
  unfold pci_configure, bar_size, wr32, rd32, card_bus, card_wr32, card_rd32.
  change ((dev_base + 4 * 4 - dev_base) / 4) with 4.
  change ((dev_base + 4 * 6 - dev_base) / 4) with 6.
  change ((dev_base + 4 * 1 - dev_base) / 4) with 1.
  unfold mbind, M_bind, mret, M_ret.
  cbn [cfg_write cfg_read cfg fmap option_fmap option_map set_cfg bar0 bar2 bar_write
    bar_len bar_flags bar_addr command class_rev].
  rewrite !sized_bar by lia. unfold bar_write. cbn [bar_len bar_flags].
  rewrite E0, E2. eexists. split; [|reflexivity].
  split; [|done]. cbn [command]. by rewrite Z.lor_spec, orb_true_r.
Qed.

Definition port0300 : Z := fb_base + 2 ^ k0 + (0x400 - 0xC0).

Lemma pow_sizes : 2 ^ 13 ≤ 2 ^ k0 ∧ 2 ^ 11 ≤ 2 ^ k2.
Proof. split; apply Z.pow_le_mono_r; lia. Qed.

Lemma wr8_port c p v :
  placed (cfg c) → 0xC0 ≤ p < 0xE0 →
  wr8 (port0300 + p) v c =
    if port_write (0x300 + p) v c is Some c' then Done (tt, c') else Fault.
Proof.
  intros (Hc & L0 & A0 & L2 & A2) Hp. pose proof pow_sizes as [P0 P2].
  unfold wr8, card_bus, card_wr8, fb_of, port_of, in_window.
  rewrite Hc, L0, A0, L2, A2. unfold port0300, fb_base in *.
  rewrite (proj2 (Z.leb_le _ _)), (proj2 (Z.ltb_ge _ _)) by lia. cbn [andb].
  rewrite (proj2 (Z.leb_le _ _)), (proj2 (Z.ltb_lt _ _)) by lia. cbn [andb mbind option_bind].
  match goal with |- context [port_write ?x] => replace x with (0x300 + p) by lia end. done.
Qed.

Lemma rd8_port c p :
  placed (cfg c) → 0xC0 ≤ p < 0xE0 →
  rd8 (port0300 + p) c = if port_read (0x300 + p) c is Some v then Done (v, c) else Fault.
Proof.
  intros (Hc & L0 & A0 & L2 & A2) Hp. pose proof pow_sizes as [P0 P2].
  unfold rd8, card_bus, card_rd8, port_of, in_window.
  rewrite Hc, L2, A2. unfold port0300, fb_base in *.
  rewrite (proj2 (Z.leb_le _ _)), (proj2 (Z.ltb_lt _ _)) by lia. cbn [andb mbind option_bind].
  match goal with |- context [port_read ?x] => replace x with (0x300 + p) by lia end. done.
Qed.

Lemma wr8_fb g mi fe s cr gr a d f o v :
  placed g → 0 ≤ o < 2 ^ 13 →
  wr8 (fb_base + o) v (Card g mi fe s cr gr a d f) =
    Done (tt, Card g mi fe s cr gr a d (f ++ [FbWrite o v (regs s) (regs gr)])).
Proof.
  intros (Hc & L0 & A0 & _) Ho. pose proof pow_sizes as [P0 P2].
  unfold wr8, card_bus, card_wr8, fb_of, in_window. cbn [cfg].
  rewrite Hc, L0, A0, (proj2 (Z.leb_le _ _)), (proj2 (Z.ltb_lt _ _)) by lia. cbn [andb].
  do 5 f_equal. f_equal. lia.
Qed.

(** A loop that stores a table into a file of registers, entry by entry. *)
Lemma table_loop {X} (K : X → list Z → card) (post : Z → X) (P : list Z → Prop)
    (body : Z → M card unit) (t l : list Z) x :
  (∀ i v x l, t !! i = Some v → P l → length l = length t →
    body (Z.of_nat i) (K x l) = Done (tt, K (post (Z.of_nat i)) (<[i := v]> l)) ∧ P (<[i := v]> l)) →
  P l → length l = length t → t ≠ [] →
  for_each (seqZ 0 (Z.of_nat (length t))) body (K x l)
    = Done (tt, K (post (Z.of_nat (length t) - 1)) t).
Proof.
  intros Hb HP Hl Ht.
  assert (∀ n i x l, (i + n = length t)%nat → P l → length l = length t →
    take i l = take i t → (n ≠ 0%nat ∨ x = post (Z.of_nat (length t) - 1)) →
    for_each (seqZ (Z.of_nat i) (Z.of_nat n)) body (K x l)
      = Done (tt, K (post (Z.of_nat (length t) - 1)) t)) as H.
  - clear x l Hl Ht HP. intros n. induction n as [|n IH]; intros i x l Hi HP Hl Ht Hx.
    { cbn. destruct Hx as [?| ->]; [done|]. rewrite !take_ge in Ht by lia. by subst. }
    rewrite seqZ_cons, Nat2Z.inj_succ by lia. cbn [for_each].
    destruct (lookup_lt_is_Some_2 t i) as [v Ev]; [lia|].
    destruct (Hb i v x l Ev HP Hl) as [E HP'].
    rewrite (bind_run _ _ _ _ _ E), <-Nat2Z.inj_succ, Z.pred_succ. apply IH; [lia|done|..].
    + by rewrite length_insert.
    + rewrite (take_S_r t i v), (take_S_r (<[i:=v]> l) i v), take_insert_ge, Ht; [done|lia|..];
        [apply list_lookup_insert_eq; lia|done].
    + destruct n; [right|left; lia]. f_equal. lia.
  - apply (H (length t) 0%nat); [lia|done..|]. left. by destruct t.
Qed.
(** The entries of a table, one by one. *)
Ltac each_entry Ev :=
  match type of Ev with
  | _ !! ?i = Some ?v =>
    repeat (destruct i as [|i]; [injection Ev as <-; by split|]); discriminate Ev
  end.

Lemma conf1_fits (i : nat) v : conf 1 !! i = Some v →
  Z.land (wrap 8 (Z.of_nat i)) 7 = Z.of_nat i ∧ Z.land v (nth i seq_mask 0) = v.
Proof. intros Ev. each_entry Ev. Qed.
Lemma conf2_fits (i : nat) v : conf 2 !! i = Some v →
  wrap 8 (Z.of_nat i) = Z.of_nat i ∧ (i = 0x11%nat → Z.testbit v 7 = false).
Proof. intros Ev. each_entry Ev. Qed.
Lemma conf3_fits (i : nat) v : conf 3 !! i = Some v →
  Z.land (wrap 8 (Z.of_nat i)) 0xF = Z.of_nat i ∧ Z.land v (nth i gc_mask 0) = v.
Proof. intros Ev. each_entry Ev. Qed.
Lemma conf4_fits (i : nat) v : conf 4 !! i = Some v →
  (Z.land (wrap 8 (Z.of_nat i)) 0x3F = Z.of_nat i ∧ Z.land (Z.of_nat i) 0x1F = Z.of_nat i)
  ∧ Z.land v (nth i ac_mask 0) = v.
Proof. intros Ev. each_entry Ev. Qed.

Lemma store_masked_fits mask (i : nat) v l :
  Z.land v (nth i mask 0) = v → store_masked mask (Z.of_nat i) v l = <[i := v]> l.
Proof. intros E. unfold store_masked. by rewrite Nat2Z.id, E. Qed.

(** One access to a port at the head of a computation. *)
Ltac port :=
  erewrite bind_run; [|first [rewrite wr8_port | rewrite rd8_port]; [reflexivity|done|lia]].

Section phases.
Context (g : pci) (Hg : placed g).

Lemma write_misc_run mi fe s cr gr a d f :
  write_misc port0300 (Card g mi fe s cr gr a d f) = Done (tt, Card g 0x67 fe s cr gr a d f).
Proof.
  unfold write_misc, at_index. change (conf 0 !! Z.to_nat 0) with (Some 0x67).
  rewrite bind_unwrap. by rewrite wr8_port by (done || lia).
Qed.

Lemma write_seq_run mi fe s cr gr a d f :
  length (regs s) = 5%nat →
  write_indexed port0300 0xC4 (conf 1) (Card g mi fe s cr gr a d f)
    = Done (tt, Card g mi fe (Regs 4 (conf 1)) cr gr a d f).
Proof.
  intros Hl. destruct s as [x l].
  apply (table_loop (λ x l, Card g mi fe (Regs x l) cr gr a d f) id (λ _, True)); [|done..].
  intros i v y l' Ev _ _. split; [|done]. destruct (conf1_fits i v Ev) as [E1 E2].
  port. unfold at_index. rewrite Nat2Z.id, Ev, bind_unwrap.
  rewrite wr8_port by (done || lia). cbn -[store_masked]. unfold set_regs, set_ix. cbn [ix regs].
  by rewrite E1, store_masked_fits.
Qed.

Lemma rd8_crtc mi fe s x l gr a d f v :
  l !! Z.to_nat x = Some v →
  rd8 (port0300 + 0xD5) (Card g mi fe s (Regs x l) gr a d f)
    = Done (v, Card g mi fe s (Regs x l) gr a d f).
Proof.
  intros E. rewrite rd8_port by (done || lia). unfold port_read.
  change (0x300 + 0xD5) with 0x3D5. cbn [crtc regs ix]. by rewrite E.
Qed.

(** The write protection is off afterwards, whatever it was before. *)
Lemma unlock_crtc_run mi fe s cr gr a d f :
  length (regs cr) = 25%nat →
  ∃ cr', unlock_crtc port0300 (Card g mi fe s cr gr a d f)
      = Done (tt, Card g mi fe s cr' gr a d f)
    ∧ length (regs cr') = 25%nat ∧ Z.testbit (nth 0x11 (regs cr') 0) 7 = false.
Proof.
  intros Hl. destruct cr as [x l]. cbn [regs] in Hl. unfold unlock_crtc.
  destruct (lookup_lt_is_Some_2 l 3) as [v3 E3]; [lia|].
  port. cbn [set_ix regs]. erewrite bind_run by (by apply rd8_crtc).
  port. port. unfold set_regs. cbn [set_ix regs ix].
  set (l1 := store_crtc 3 (Z.lor v3 128) l).
  assert (length l1 = 25%nat) as Hl1.
  { unfold l1, store_crtc. case_match; [done|]. by rewrite length_insert. }
  destruct (lookup_lt_is_Some_2 l1 0x11) as [w Ew]; [lia|].
  erewrite bind_run by (by apply rd8_crtc).
  rewrite wr8_port by (done || lia). cbn -[store_crtc l1]. eexists. split; [reflexivity|].
  unfold set_regs, store_crtc, set_ix. cbn [ix regs].
  change (17 <=? 7) with false. rewrite andb_false_r, length_insert. split; [done|].
  change (Z.to_nat 17) with 17%nat.
  rewrite (nth_lookup_Some _ _ _ (Z.land w 127)) by (apply list_lookup_insert_eq; lia).
  change (Z.testbit (Z.land w 127) 7 = false). by rewrite Z.land_spec, andb_false_r.
Qed.

Lemma store_crtc_open i v l :
  Z.testbit (nth 0x11 l 0) 7 = false → store_crtc (Z.of_nat i) v l = <[i := v]> l.
Proof. intros E. unfold store_crtc. by rewrite E, Nat2Z.id. Qed.

Lemma write_crtc_run mi fe s cr gr a d f :
  length (regs cr) = 25%nat → Z.testbit (nth 0x11 (regs cr) 0) 7 = false →
  write_indexed port0300 0xD4 (conf 2) (Card g mi fe s cr gr a d f)
    = Done (tt, Card g mi fe s (Regs 24 (conf 2)) gr a d f).
Proof.
  intros Hl Hu. destruct cr as [x l].
  apply (table_loop (λ x l, Card g mi fe s (Regs x l) gr a d f) id
    (λ l, Z.testbit (nth 0x11 l 0) 7 = false)); [|done..].
  intros i v y l' Ev Hu' Hl'. destruct (conf2_fits i v Ev) as [E1 E2]. split.
  - port. unfold at_index. rewrite Nat2Z.id, Ev, bind_unwrap.
    rewrite wr8_port by (done || lia). cbn -[store_crtc]. unfold set_regs, set_ix.
    cbn [ix regs]. by rewrite E1, store_crtc_open.
  - destruct (decide (i = 0x11%nat)) as [->|Hne].
    + rewrite (nth_lookup_Some _ _ _ v) by (apply list_lookup_insert_eq; rewrite Hl';
        by apply lookup_lt_Some in Ev). by apply E2.
    + by rewrite nth_lookup, list_lookup_insert_ne, <-nth_lookup.
Qed.

Lemma write_gc_run mi fe s cr gr a d f :
  length (regs gr) = 9%nat →
  write_indexed port0300 0xCE (conf 3) (Card g mi fe s cr gr a d f)
    = Done (tt, Card g mi fe s cr (Regs 8 (conf 3)) a d f).
Proof.
  intros Hl. destruct gr as [x l].
  apply (table_loop (λ x l, Card g mi fe s cr (Regs x l) a d f) id (λ _, True)); [|done..].
  intros i v y l' Ev _ _. split; [|done]. destruct (conf3_fits i v Ev) as [E1 E2].
  port. unfold at_index. rewrite Nat2Z.id, Ev, bind_unwrap.
  rewrite wr8_port by (done || lia). cbn -[store_masked]. unfold set_regs, set_ix. cbn [ix regs].
  by rewrite E1, store_masked_fits.
Qed.

(** In step: the attribute controller expects an index. *)
Lemma write_ac_run mi fe s cr gr x l d f :
  length l = 21%nat →
  write_ac port0300 (Card g mi fe s cr gr (Attr false x l) d f)
    = Done (tt, Card g mi 0 s cr gr (Attr true 0x20 (conf 4)) d f).
Proof.
  intros Hl. unfold write_ac. erewrite bind_run.
  2:{ apply (table_loop (λ x l, Card g mi x.2 s cr gr (Attr false x.1 l) d f) (λ i, (i, 0))
        (λ _, True)) with (x := (x, fe)); [|done..].
      intros i v y l' Ev _ _. split; [|done]. destruct (conf4_fits i v Ev) as [[E0 E1] E2].
      port. port. unfold at_index. rewrite Nat2Z.id, Ev, bind_unwrap.
      rewrite wr8_port by (done || lia). cbn -[store_masked ac_mask].
      by rewrite E0, E1, store_masked_fits. }
  port. by rewrite wr8_port by (done || lia).
Qed.

(** The palette: components in groups of three. *)
Lemma dac_triple p x y z (l : list (list Z)) m :
  Z.land x 0x3F = x → Z.land y 0x3F = y → Z.land z 0x3F = z →
  dac_write (dac_write (dac_write (Colours m p [] l) x) y) z
    = Colours m ((p + 1) mod 256) [] (<[Z.to_nat p := [x; y; z]]> l).
Proof. intros Ex Ey Ez. unfold dac_write. cbn -[Z.land]. by rewrite Ex, Ey, Ez. Qed.

Fixpoint triples (l : list Z) : list (list Z) :=
  match l with
  | x :: y :: z :: l => [x; y; z] :: triples l
  | _ => []
  end.

Definition rgb (t : list Z) : Prop :=
  ∃ x y z, t = [x; y; z] ∧ Z.land x 0x3F = x ∧ Z.land y 0x3F = y ∧ Z.land z 0x3F = z.

Lemma palette_loop mi fe s cr gr a f m ts : ∀ (i : nat) l,
  Forall rgb ts → (i + length ts = 256)%nat → length l = 256%nat →
  for_each (concat ts) (λ i, wr8 (port0300 + 0xC9) i)
      (Card g mi fe s cr gr a (Colours m (Z.of_nat i mod 256) [] l) f)
    = Done (tt, Card g mi fe s cr gr a (Colours m 0 [] (take i l ++ ts)) f).
Proof.
  induction ts as [|t ts IH]; intros i l Ht Hi Hl.
  - cbn [length] in Hi. rewrite Nat.add_0_r in Hi. subst i. cbn [concat for_each].
    by rewrite take_ge, app_nil_r by lia.
  - apply Forall_cons in Ht as [(x & y & z & -> & Ex & Ey & Ez) Ht]. cbn [length] in Hi.
    rewrite (Z.mod_small (Z.of_nat i)) by lia. cbn [concat app for_each].
    port. port. port. rewrite dac_triple by done. rewrite Nat2Z.id.
    replace (Z.of_nat i + 1) with (Z.of_nat (S i)) by lia.
    rewrite IH by (done || lia || by rewrite length_insert).
    rewrite (take_S_r _ i [x; y; z]) by (apply list_lookup_insert_eq; lia).
    by rewrite take_insert_ge, <-app_assoc by lia.
Qed.

Lemma palette_rgb : DEFAULT_PALETTE = concat (triples DEFAULT_PALETTE)
  ∧ Forall rgb (triples DEFAULT_PALETTE) ∧ length (triples DEFAULT_PALETTE) = 256%nat.
Proof.
  split; [vm_compute; reflexivity|]. split; [|vm_compute; reflexivity].
  assert (Forall (λ x, Z.land x 0x3F = x) DEFAULT_PALETTE) as HF
    by (apply (bool_decide_unpack _); vm_compute; exact I).
  induction DEFAULT_PALETTE as [l IH] using (induction_ltof1 _ (@length Z)).
  destruct l as [|x [|y [|z l]]]; try constructor.
  - inversion HF as [|? ? Hx HF']. inversion HF' as [|? ? Hy HF'']. inversion HF'' as [|? ? Hz ?].
    by exists x, y, z.
  - apply IH; [unfold ltof; cbn [length]; lia|]. by do 3 apply Forall_inv_tail in HF.
Qed.

Lemma write_palette_run mi fe s cr gr a d f :
  length (dac d) = 256%nat →
  write_palette port0300 (Card g mi fe s cr gr a d f)
    = Done (tt, Card g mi fe s cr gr a (Colours 0xFF 0 [] (triples DEFAULT_PALETTE)) f).
Proof.
  intros Hl. destruct palette_rgb as (E & HF & Hn). unfold write_palette. port. port.
  rewrite E at 1. by rewrite (palette_loop mi fe s cr gr a f 0xFF _ 0%nat).
Qed.

(** Access to plane 2 alone, and back. *)
Definition font_seq : list Z := [0x03; 0x00; 0x04; 0x00; 0x06].
Definition font_gc : list Z := [0x00; 0x00; 0x00; 0x00; 0x02; 0x00; 0x0C; 0x00; 0xFF].

Lemma font_access_run mi fe x cr y a d f :
  font_access port0300 (Card g mi fe (Regs x (conf 1)) cr (Regs y (conf 3)) a d f)
    = Done ((0x03, 0x02, 0x00, 0x10, 0x0E),
        Card g mi fe (Regs 2 font_seq) cr (Regs 4 font_gc) a d f).
Proof.
  unfold font_access, get_indexed, put_indexed. rewrite !bind_assoc.
  do 17 (rewrite ?bind_assoc; port). done.
Qed.

Lemma restore_access_run mi fe x cr y a d f :
  restore_access port0300 (0x03, 0x02, 0x00, 0x10, 0x0E)
      (Card g mi fe (Regs x font_seq) cr (Regs y font_gc) a d f)
    = Done (tt, Card g mi fe (Regs 4 (conf 1)) cr (Regs 6 (conf 3)) a d f).
Proof.
  unfold restore_access, put_indexed.
  do 9 (rewrite ?bind_assoc; port). by rewrite wr8_port by (done || lia).
Qed.

(** *** The display memory *)
Section memory.
Context (mi fe : Z) (s cr gr : regfile) (a : attr) (d : colours).

(** A loop of writes to the display memory. *)
Lemma fb_loop {X} (xs : list X) (body : X → M card unit) (h : X → list fb_write) f :
  (∀ x f, x ∈ xs → body x (Card g mi fe s cr gr a d f)
    = Done (tt, Card g mi fe s cr gr a d (f ++ h x))) →
  for_each xs body (Card g mi fe s cr gr a d f)
    = Done (tt, Card g mi fe s cr gr a d (f ++ (xs ≫= h))).
Proof.
  revert f. induction xs as [|x xs IH]; intros f Hb; cbn [for_each].
  - cbn. by rewrite app_nil_r.
  - erewrite bind_run by (apply Hb; by left).
    rewrite IH by (intros; apply Hb; by right). cbn [mbind list_bind]. by rewrite app_assoc.
Qed.

(** Row [j] of glyph [i]. *)
Definition glyph_row (i j : Z) : list fb_write :=
  [FbWrite (i * 32 + j) (nth (Z.to_nat (i * 16 + j)) FONT_8X16 0) (regs s) (regs gr)].
Definition glyph (i : Z) : list fb_write := seqZ 0 16 ≫= glyph_row i.

Lemma write_font_run n : ∀ (i : nat) f,
  (i + n = 256)%nat →
  write_font (seqZ (Z.of_nat i) (Z.of_nat n)) (drop (i * 16) FONT_8X16)
      (Card g mi fe s cr gr a d f)
    = Done (tt, Card g mi fe s cr gr a d (f ++ (seqZ (Z.of_nat i) (Z.of_nat n) ≫= glyph))).
Proof.
  assert (length FONT_8X16 = 4096%nat) as HL by (vm_compute; reflexivity).
  induction n as [|n IH]; intros i f Hi.
  { rewrite seqZ_nil by lia. cbn [mbind list_bind write_font]. by rewrite app_nil_r. }
  rewrite seqZ_cons, Nat2Z.inj_succ, Z.pred_succ by lia. cbn [write_font].
  erewrite bind_run.
  2:{ apply (fb_loop _ _ (glyph_row (Z.of_nat i))). intros j f' [Hj1 Hj2]%elem_of_seqZ.
      unfold at_index. rewrite lookup_drop.
      destruct (lookup_lt_is_Some_2 FONT_8X16 (i * 16 + Z.to_nat j)) as [v Ev]; [lia|].
      rewrite Ev, bind_unwrap, wr8_fb by (done || lia). unfold glyph_row.
      by rewrite (nth_lookup_Some _ _ _ v) by (rewrite <-Ev; f_equal; lia). }
  rewrite bind_assert by (apply Z.leb_le; rewrite length_drop, HL; lia). rewrite drop_drop, <-Nat2Z.inj_succ.
  replace (i * 16 + 16)%nat with (S i * 16)%nat by lia.
  rewrite IH by lia. cbn [mbind list_bind]. by rewrite app_assoc.
Qed.

(** Cell [i] of the screen: the letter h, light grey on black. *)
Definition cell (i : Z) : list fb_write :=
  [FbWrite (i * 2) 0x68 (regs s) (regs gr); FbWrite (i * 2 + 1) 0x7 (regs s) (regs gr)].

Lemma fill_screen_run f :
  fill_screen (Card g mi fe s cr gr a d f)
    = Done (tt, Card g mi fe s cr gr a d (f ++ (seqZ 0 (80 * 25) ≫= cell))).
Proof.
  apply fb_loop. intros i f' [Hi1 Hi2]%elem_of_seqZ.
  erewrite bind_run by (apply wr8_fb; [done|lia]).
  rewrite wr8_fb by (done || lia). by rewrite <-app_assoc.
Qed.
End memory.
End phases.
End windows.

(** ** The whole run *)

(** A card the driver can find, in any state: the windows have sizes the
    address map has room for, the register files have their registers, and
    the attribute controller expects an index. *)
Record findable (k0 k2 : Z) (c : card) : Prop := {
  f_k0 : 13 ≤ k0 ≤ 28;
  f_k2 : 11 ≤ k2 ≤ k0;
  f_class : Z.shiftr (class_rev (cfg c)) 8 = 0x030000;
  f_bar0 : bar_len (bar0 (cfg c)) = 2 ^ k0 ∧ 0 ≤ bar_flags (bar0 (cfg c)) < 16;
  f_bar2 : bar_len (bar2 (cfg c)) = 2 ^ k2 ∧ 0 ≤ bar_flags (bar2 (cfg c)) < 16;
  f_seq : length (regs (vseq c)) = 5%nat;
  f_crtc : length (regs (crtc c)) = 25%nat;
  f_gc : length (regs (gc c)) = 9%nat;
  f_ac : length (ac_regs (ac c)) = 21%nat ∧ ac_data (ac c) = false;
  f_dac : length (dac (pal c)) = 256%nat;
}.

(** The 80 by 25 text mode, displayed: every register has the value of its
    table, the palette is loaded, output is on, and [written] is what went to
    the display memory. *)
Definition text_mode (c : card) (written : list fb_write) : Prop :=
  misc c = 0x67
  ∧ regs (vseq c) = conf 1 ∧ regs (crtc c) = conf 2 ∧ regs (gc c) = conf 3
  ∧ ac_regs (ac c) = conf 4 ∧ ac_ix (ac c) = 0x20
  ∧ pel_mask (pal c) = 0xFF ∧ dac (pal c) = triples DEFAULT_PALETTE
  ∧ fb c = written.

Lemma init_vga_card k0 k2 c :
  findable k0 k2 c →
  ∃ c', init_vga c = Done (tt, c') ∧ placed k0 k2 (cfg c')
    ∧ text_mode c' (fb c ++ (seqZ 0 256 ≫= glyph (Regs 2 font_seq) (Regs 4 font_gc))
        ++ (seqZ 0 (80 * 25) ≫= cell (Regs 4 (conf 1)) (Regs 6 (conf 3)))).
Proof.
  intros [H0 H2 Hc [L0 F0] [L2 F2] Hs Hcr Hg [Ha Had] Hd].
  destruct (pci_configure_run k0 k2 H0 H2 c L0 L2 F0 F2) as (g & Hpl & Ecf).
  unfold init_vga. change (dev_base + 4 * 2) with (dev_base + 8).
  erewrite bind_run by reflexivity. change ((dev_base + 8 - dev_base) / 4) with 2.
  cbn [cfg_read]. rewrite Hc. cbn [negb Z.eqb Pos.eqb].
  mstep Ecf. destruct c as [g0 mi fe s cr gr [ad ax al] d f].
  cbn [set_cfg cfg vseq crtc gc ac ac_data ac_regs pal fb regs] in *. subst ad.
  erewrite bind_run by (by apply (write_misc_run k0 k2)).
  erewrite bind_run by (by apply (write_seq_run k0 k2)).
  destruct (unlock_crtc_run k0 k2 H0 H2 g Hpl 0x67 fe (Regs 4 (conf 1)) cr gr
    (Attr false ax al) d f Hcr) as (cr' & Eu & Hcr' & Hu).
  mstep Eu.
  erewrite bind_run by (by apply (write_crtc_run k0 k2)).
  erewrite bind_run by (by apply (write_gc_run k0 k2)).
  erewrite bind_run by (by apply (write_ac_run k0 k2)).
  erewrite bind_run by (by apply (write_palette_run k0 k2)).
  erewrite bind_run by (by apply (font_access_run k0 k2)).
  erewrite bind_run by (by apply (write_font_run k0 k2 H0 H2 g Hpl) with (i := 0%nat) (n := 256%nat)).
  erewrite bind_run by (by apply (restore_access_run k0 k2)).
  erewrite (fill_screen_run k0 k2 H0 H2 g Hpl). rewrite <-app_assoc.
  eexists. split; [reflexivity|]. done.
Qed.

(** What goes to the display memory: the font, with plane 2 alone writable
    and the odd and even addressing off, then the screen in text mode. *)
Definition font_writes : list fb_write :=
  seqZ 0 256 ≫= glyph (Regs 2 font_seq) (Regs 4 font_gc).
Definition screen_writes : list fb_write :=
  seqZ 0 (80 * 25) ≫= cell (Regs 4 (conf 1)) (Regs 6 (conf 3)).


(** The card of the QEMU machine: 16 MiB of display memory, 4 KiB of
    registers, the CRT controller write-protected. *)
Definition qemu_card (class : Z) : card :=
  Card (Pci (Z.shiftl class 8 + 2) 0 (Bar 0x1000000 8 0) (Bar 0x1000 0 0)) 0 0
    (Regs 0 (replicate 5 0)) (Regs 0 (replicate 25 0xFF)) (Regs 0 (replicate 9 0))
    (Attr false 0 (replicate 21 0)) (Colours 0 0 [] (replicate 256 [0; 0; 0])) [].

Lemma qemu_findable : findable 24 12 (qemu_card 0x030000).
Proof. split; try done; vm_compute; done. Qed.


(** The driver writes the port whose reading would put the attribute
    controller back in step, and leaves it out of step: a second
    initialisation takes indices for values, spoils its registers and turns
    the output off. *)
Lemma second_init_blanks :
  match (init_vga ;; init_vga) (qemu_card 0x030000) with
  | Done (_, c) => bool_decide (ac_regs (ac c) = conf 4) = false ∧ ac_ix (ac c) = 0
  | _ => False
  end.
Proof. vm_compute. done. Qed.
