(* ===== verification/Mkfs.v ===== *)
(** * The command that builds the disk image

    [src/cargo-rxmkfs/src/main.rs], the cargo subcommand of the build: it
    compiles the user programs in Rust and hands them, with the other
    programs of its command line, to [mkfs]. Programs it runs and the JSON
    library are parameters. *)
From S2P Require Import Prelude.

Section mkfs.
(** [serde_json::from_str], and the member ["executable"] of a message when it
    is a string. *)
Context {Value : Type} (from_str : string → option Value).
Context (executable : Value → option string).
(** [Command::output]: the standard output of a program run with arguments,
    a UTF-8 text, or nothing when it cannot be run. *)
Context (output : string → list string → option string).

(** A program and the arguments it is run with. *)
Definition command : Type := string * list string.

(** The state is the list of the commands that were run. *)
Definition run (c : command) : M (list command) string :=
  modify (λ l, l ++ [c]) ;;
  unwrap (output c.1 c.2) "called `Result::unwrap()` on an `Err` value".

(** [str::lines]: the pieces between line feeds, without a carriage return
    at their end; a line feed at the end of the text starts no line. *)
Definition newline : Ascii.ascii := Ascii.ascii_of_nat 10.
Definition strip_cr (s : list Ascii.ascii) : list Ascii.ascii :=
  match reverse s with
  | c :: r => if Ascii.eqb c (Ascii.ascii_of_nat 13) then reverse r else s
  | [] => s
  end.
Fixpoint lines_loop (cur : list Ascii.ascii) (s : list Ascii.ascii) : list (list Ascii.ascii) :=
  match s with
  | [] => match cur with [] => [] | _ => [cur] end
  | c :: s =>
    if Ascii.eqb c newline then strip_cr cur :: lines_loop [] s
    else lines_loop (cur ++ [c]) s
  end.
Definition lines (s : string) : list string :=
  String.string_of_list_ascii <$> lines_loop [] (String.list_ascii_of_string s).

(** [take_while] and [skip_while] on the arguments. *)
Fixpoint take_while (p : string → bool) (l : list string) : list string :=
  match l with
  | [] => []
  | x :: l => if p x then x :: take_while p l else []
  end.
Fixpoint skip_while (p : string → bool) (l : list string) : list string :=
  match l with
  | [] => []
  | x :: l' => if p x then skip_while p l' else l
  end.
Definition not_dashes (s : string) : bool := negb (String.eqb s "--").

(** The loop over the messages of the compiler. *)
Fixpoint collect (ls : list string) (executables : list string) : M (list command) (list string) :=
  match ls with
  | [] => mret executables
  | line :: ls =>
    line_json ← unwrap (from_str line) "called `Result::unwrap()` on an `Err` value";
    collect ls (match executable line_json with
                | Some exe => executables ++ [exe]
                | None => executables
                end)
  end.

(** [CARGO] is the environment variable. *)
Definition main (CARGO : option string) (args : list string) : M (list command) unit :=
  let cargo := default "cargo" CARGO in
  mkfs ← unwrap (args !! 2%nat) "called `Option::unwrap()` on a `None` value";
  outfile ← unwrap (args !! 3%nat) "called `Option::unwrap()` on a `None` value";
  let uprogs := take_while not_dashes (drop 4 args) in
  let uprogs := removelast uprogs in
  let compile_opts := drop 1 (skip_while not_dashes args) in
  stdout ← run (cargo, ["rustc"; "--message-format"; "json"] ++ compile_opts);
  executables ← collect (lines stdout) [];
  run (mkfs, [outfile] ++ uprogs ++ executables) ;;
  mret tt.

(** ** What it runs *)
Lemma take_while_upto l r : Forall (λ s, s ≠ "--") l → take_while not_dashes (l ++ "--" :: r) = l.
Proof.
  induction 1 as [|s l Hs _ IH]; [done|]. cbn. unfold not_dashes at 1.
  rewrite (proj2 (String.eqb_neq _ _) Hs). cbn. by rewrite IH.
Qed.

Lemma skip_while_upto l r :
  Forall (λ s, s ≠ "--") l → skip_while not_dashes (l ++ "--" :: r) = "--" :: r.
Proof.
  induction 1 as [|s l Hs _ IH]; [done|]. cbn. unfold not_dashes at 1.
  by rewrite (proj2 (String.eqb_neq _ _) Hs).
Qed.

Lemma collect_run ls vs acc s :
  mapM from_str ls = Some vs → collect ls acc s = Done (acc ++ omap executable vs, s).
Proof.
  revert vs acc. induction ls as [|x ls IH]; intros vs acc E.
  - injection E as <-. cbn. by rewrite app_nil_r.
  - cbn in E. apply bind_Some in E as (v & Ev & (ws & Ew & [= <-])%bind_Some).
    cbn [collect]. rewrite Ev, bind_unwrap. erewrite IH by done. cbn.
    destruct (executable v); [by rewrite <-app_assoc|done].
Qed.

(** With the arguments the Makefile gives, the command compiles with the
    options after the dashes and then runs [mkfs] on the output file, the
    programs before the dashes except for the last of them, and the
    executables the compiler reports. *)
Theorem main_runs cargo exe sub mkfs outfile progs prog opts stdout vs out :
  Forall (λ s, s ≠ "--") ([exe; sub; mkfs; outfile] ++ progs ++ [prog]) →
  output cargo (["rustc"; "--message-format"; "json"] ++ opts) = Some stdout →
  mapM from_str (lines stdout) = Some vs →
  output mkfs ([outfile] ++ progs ++ omap executable vs) = Some out →
  main (Some cargo) ([exe; sub; mkfs; outfile] ++ (progs ++ [prog]) ++ "--" :: opts) []
    = Done (tt, [(cargo, ["rustc"; "--message-format"; "json"] ++ opts);
                 (mkfs, [outfile] ++ progs ++ omap executable vs)]).
Proof.
  intros HF E1 E2 E3. unfold main. cbn [lookup list_lookup app] in *.
  rewrite !bind_unwrap.
  change (exe :: sub :: mkfs :: outfile :: (progs ++ [prog]) ++ "--" :: opts)
    with ([exe; sub; mkfs; outfile] ++ (progs ++ [prog]) ++ "--" :: opts).
  change (drop 4 ([exe; sub; mkfs; outfile] ++ (progs ++ [prog]) ++ "--" :: opts))
    with ((progs ++ [prog]) ++ "--" :: opts).
  rewrite take_while_upto, removelast_last
    by (by apply (Forall_app _ [exe; sub; mkfs; outfile]) in HF as [_ ?]).
  rewrite app_assoc, skip_while_upto by done.
  change (drop 1 ("--" :: opts)) with opts. unfold run.
  rewrite bind_assoc, bind_modify. cbn [fst snd].
  change (default "cargo" (Some cargo)) with cargo.
  rewrite E1, bind_unwrap. erewrite bind_run by (by apply collect_run).
  rewrite app_nil_l, bind_assoc, bind_modify. cbn [fst snd]. by rewrite E3, bind_unwrap.
Qed.
End mkfs.
